(* ===== verification/_CoqProject ===== *)
-Q . S2P
Prelude.v
GoStrings.v
GoNumbers.v
Xml.v
XmlStruct.v
XmlRoundtrip.v
XmlReader.v
PluginPayloads.v
DateTime.v
Dial.v
Bytes.v
Transport.v
Base64.v
Jid.v
PluginManager.v
OmemoCrypto.v
OmemoRatchet.v
OmemoDelivery.v
OmemoCodec.v
OmemoX3dh.v
OmemoStore.v
OmemoManager.v
Storage.v
MemoryStorage.v
StorageJson.v
FileStorage.v
FileRefinement.v
RedisStorage.v
RedisRefinement.v
Tables.v
TableStore.v
SqlStorage.v
SqlSchema.v
SqlRefinement.v
MongoStorage.v
Storagetest.v
PluginStores.v
Stanza.v
PluginWire.v
Sasl.v
Session.v
Lifecycle.v
PluginState.v
UserStore.v
XmppdRegistration.v
RegisterFlow.v
RegisterProperties.v
XmppdRouter.v
XmppdStream.v
XmppdSecurity.v
XmppdLogin.v
PluginRegistry.v
XmppdConfig.v
XmppdMain.v
