(* ===== verification/Prelude.v ===== *)
(** * xmpp-go: verification development (root file)

    xmpp-go is a Go library for XMPP with a server daemon.  This development
    translates its core into executable definitions and proves what makes them
    correct.  Go results are [Ok], [Err] or [Panic] (below); methods with a
    pointer receiver are functions of the state monad [M], which keeps what an
    error path has already changed; loops over Go maps take the visiting order
    as an argument and the theorems hold for every order; the clock, random
    bytes, the network and third-party code are arguments or classes with laws,
    each with an instance that shows the laws can hold.

    ** The parts of the program and the files that model them

    - Addresses (src/jid/jid.go): [Jid] - parsing, validation, printing and
      XEP-0106 escaping.
    - Plugin manager (src/plugin/): [PluginManager] - registration, dependency
      order by Kahn's algorithm, initialisation and shutdown.
    - OMEMO (src/crypto/omemo/): [OmemoCrypto] the primitives as the class
      [Crypto] with key derivation and AEAD on top, [OmemoRatchet] the Double
      Ratchet and [OmemoDelivery] its theorems, [OmemoCodec] the binary
      encodings, [OmemoX3dh] key agreement and sessions, [OmemoStore] the store
      interface, its in-memory implementation and bundle generation,
      [OmemoManager] the manager over any store.
    - Storage (src/storage/): [Storage] the records and the contract as an
      abstract machine over flat maps; [MemoryStorage] the in-memory backend
      (src/storage/memory); [StorageJson] the JSON documents of the records;
      [FileStorage] and [FileRefinement] the file backend (src/storage/file);
      [RedisStorage] and [RedisRefinement] the Redis backend
      (src/storage/redis) over a Redis server given by its documented commands;
      [Tables] and [TableStore] relational tables and the storage calls as
      operations on them, [SqlStorage], [SqlSchema] and [SqlRefinement] the
      statements, dialects and migrations of the SQL backend (src/storage/sql,
      sqlite, postgres, mysql), [MongoStorage] the MongoDB backend
      (src/storage/mongodb); [Storagetest] the conformance suite that the
      repository runs on every backend (src/storage/storagetest);
      [PluginStores] the plugins over any backend (src/plugins/roster, blocking,
      muc, vcard, pubsub, bookmarks, mam).
    - Wire format (src/stanza/, src/stream/, src/xml/, src/errors.go): [Xml]
      tokens, trees and the encoder with the stream writer of
      src/xml/stream.go, [XmlReader] the readers of src/xml, [Stanza] the
      stanzas, their errors and the stream header.
    - Payloads (src/plugins/, src/internal/ns/): [XmlStruct] how encoding/xml
      writes and reads a struct by its tags, [XmlRoundtrip] when that loses
      nothing, [PluginPayloads] the payload types of all plugins and the
      namespaces, [PluginWire] their constructors and theorems; [DateTime] the
      dates of XEP-0082 (src/plugins/time, delay).
    - SASL (src/sasl/, src/cmd/xmppd/scram.go): [Sasl].
    - Sessions (src/session.go, mux.go, middleware.go, negotiator.go and the
      stream features): [Session]; transports (src/transport/): [Transport];
      clients, components and servers (src/client.go, component.go, server.go
      and their options): [Lifecycle]; SRV lookup and dialling (src/dial/):
      [Dial].
    - Plugins with state of their own (src/plugins/sm, disco, caps, presence,
      form, hash, omemo, csi, carbons): [PluginState].
    - The daemon (src/cmd/xmppd/): [UserStore] the account interface it is
      written against, [XmppdRegistration] in-band registration, [XmppdRouter]
      the session router, [XmppdStream] the stream handler as steps of a shared
      world, [XmppdSecurity] and [XmppdLogin] the theorems about it,
      [PluginRegistry] the plugins as they describe themselves, [XmppdConfig]
      configuration, seeding and plugin choice, [XmppdMain] the main program
      with its self-signed certificate and session handler.
    - The client's registration flow (src/plugins/register/flow.go):
      [RegisterFlow], with [RegisterProperties] running it against the server.

    [Prelude] (this file) has results, the monad, map iteration, tactics and
    hints; [GoStrings], [GoNumbers], [Bytes] and [Base64] the parts of Go's
    standard library that the program uses.

    ** What the theorems show

    - The server: in every reachable state an authenticated session has given
      its user's password and is reached under that user's address only
      ([XmppdSecurity.identities_are_verified]); a message is delivered as often
      as the router lists a session for its destination, and to nobody else
      ([XmppdLogin.message_delivery]); a session that is not ready has no effect
      on others; the router refines a map; the registration handler answers once
      and changes the accounts as the policy says, whatever the store answers
      ([XmppdRegistration.registration_effect]), and the limiter of a connection
      bounds its requests; entries of the listener's session table and open
      sessions have their connections under every interleaving, and the table is
      exact as long as live connections have distinct remote addresses
      ([Lifecycle.server_sessions_exact]).
    - Storage: the in-memory backend, and the file backend on names with
      distinct file names, refine the abstract machine and answer alike ([MemoryStorage.memory_store_refines],
      [FileRefinement.file_store_refines], [FileRefinement.backends_agree]);
      the Redis, SQL and MongoDB backends refine variants of it
      ([RedisRefinement.redis_spec], [TableStore.table_spec]) in which the calls
      that they serve differently are changed, and the machine itself on
      sequences of calls where the difference cannot be seen
      ([RedisRefinement.redis_store_refines],
      [SqlRefinement.sql_store_refines], [MongoStorage.mongo_store_refines]);
      every statement fits the tables the migrations make
      ([SqlRefinement.statements_typed]); the memory, file, Redis, SQLite,
      PostgreSQL and MongoDB stores pass the conformance suite
      ([Storagetest.backends_conform]), MySQL cannot be initialised; paging
      through an in-memory archive terminates with all of it; plugins over a
      backend are private maps.
    - OMEMO: two parties that only exchange bundles understand each other for
      any number of messages, out of order within the limits of the code, also
      after being stored and restored; a ratchet survives storage unless a
      failed key generation has left it without a key ([OmemoManager.manager_end_to_end],
      [OmemoDelivery.double_ratchet_conversation],
      [OmemoDelivery.out_of_order_delivery],
      [OmemoCodec.reachable_survives_storage]).
    - The wire: stanzas survive writing and reading, but for their language;
      the loops of the readers end on any input
      ([XmlReader.reader_loops_end]); payloads of the plugins encoded one after the other on a stream are decoded one after the other
      with the same data ([PluginWire.payload_stream]), and the types for which
      this fails are listed with what they lose ([PluginWire.Lossy]); dates
      survive to the second.
    - The daemon's start: a self-signed certificate is a usable pair after any
      history of failing starts in a directory without a key at first, a key cut
      short excepted
      ([XmppdMain.self_signed_survives]).
    - Registration end to end, SASL exchanges, address round trips, the plugin
      order, dialling, transports and configuration.
    - Where the code does not do what its documentation or the protocol asks
      for, the theorem states what it does.

    ** Fuel and bounds

    Recursion that is not structural takes fuel, and every theorem that says a
    result is produced supplies it: Kahn's loop runs on the number of plugins
    plus one and never runs out ([PluginManager]); the skip loop of the ratchet
    on the distance to the header's number, which the limit of 1000 bounds
    ([OmemoRatchet]); decoders on the length of their input ([OmemoCodec],
    [RegisterFlow], [GoStrings]); the client's read loops on the number of
    tokens the peer sends ([RegisterFlow.await]), those of the XML readers on
    the tokens that are left ([XmlReader.reader_loops_end]); negotiation on the number of
    offered features; paging on the length of the archive, where the theorem
    shows that this is enough.  Integers keep their width where it matters:
    [uint32] ratchet and stream-management counters wrap, [int64] archive
    counters wrap, scores of a Redis sorted set are rounded to [float64].

    ** Not modelled

    The mapping between XML tokens and bytes, TLS and TCP themselves, contexts
    and deadlines, signals and log texts.  The servers behind the SQL, MongoDB
    and Redis backends are given by the statements and commands they document,
    not by their implementation; the drivers that open them are parameters.
    Generation and signing of keys and certificates are parameters with laws.
    Data races of fields the code does not lock are outside the model: every
    method of a locked object is one step, and so is the stretch between two
    uses of a lock. *)

From Stdlib Require Import Ascii String.
From stdpp Require Export base gmap strings list numbers sorting fin_maps.

(** ** Results of Go calls

    A Go function that returns [(T, error)] returns [Ok v] when the error is
    nil and [Err e] otherwise; [Panic] is a run-time panic (index out of range,
    write to a nil map, nil dereference). *)

Inductive res (E A : Type) : Type :=
  | Ok (a : A)
  | Err (e : E)
  | Panic.
Arguments Ok {E A} a.
Arguments Err {E A} e.
Arguments Panic {E A}.

#[global] Instance res_eq_dec {E A} `{EqDecision E, EqDecision A} : EqDecision (res E A).
Proof. solve_decision. Defined.

Definition is_ok {E A} (r : res E A) : bool :=
  match r with Ok _ => true | _ => false end.

Definition res_bind {E A B} (r : res E A) (f : A -> res E B) : res E B :=
  match r with Ok a => f a | Err e => Err e | Panic => Panic end.

(** ** Stateful Go methods

    A method with a pointer receiver mutates its receiver and may fail
    half-way: [M S E A] passes the receiver (or the whole world) explicitly and
    returns it on every exit, so that what an error path has already changed
    stays visible. *)

Definition M (S E A : Type) : Type := S -> S * res E A.

Definition mok {S E A} (a : A) : M S E A := fun s => (s, Ok a).
Definition merr {S E A} (e : E) : M S E A := fun s => (s, Err e).
Definition mpanic {S E A} : M S E A := fun s => (s, Panic).
Definition mget {S E} : M S E S := fun s => (s, Ok s).
Definition mput {S E} (s' : S) : M S E unit := fun _ => (s', Ok tt).
Definition mmodify {S E} (f : S -> S) : M S E unit := fun s => (f s, Ok tt).
Definition mlift {S E A} (r : res E A) : M S E A := fun s => (s, r).
Definition mbnd {S E A B} (m : M S E A) (k : A -> M S E B) : M S E B :=
  fun s => match m s with
           | (s', Ok a) => k a s'
           | (s', Err e) => (s', Err e)
           | (s', Panic) => (s', Panic)
           end.

Declare Scope go_scope.
Delimit Scope go_scope with go.
Notation "'do' x <- m ; k" := (mbnd m (fun x => k))
  (at level 10, x pattern, m at level 100, k at level 200) : go_scope.
Notation "'do_' m ; k" := (mbnd m (fun _ => k))
  (at level 10, m at level 100, k at level 200) : go_scope.
Notation "'try' x <- m ; k" := (res_bind m (fun x => k))
  (at level 10, x pattern, m at level 100, k at level 200) : go_scope.

(** ** Machine integers

    [uint32] values are kept in [N]; [u32] is the wrap-around of an operation
    at that width. *)

Definition two32 : N := 4294967296%N.
Definition u32 (n : N) : N := (n `mod` two32)%N.
Definition u32_add (a b : N) : N := u32 (a + b).
Definition u32_sub (a b : N) : N := u32 (a + (two32 - u32 b)).
Definition is_u32 (n : N) : Prop := (n < two32)%N.

(** ** Tactics and hints of the development *)

Create HintDb go.

(** [case_res] splits on the first matched value found in the goal or in a
    hypothesis, keeping the equation. *)
Ltac case_res :=
  match goal with
  | |- context [match ?x with _ => _ end] => destruct x eqn:?
  | H : context [match ?x with _ => _ end] |- _ => destruct x eqn:?
  end.

(** [go_simpl] normalises a run of the state monad. *)
Ltac go_unfold :=
  unfold mbnd, mok, merr, mpanic, mget, mput, mmodify, mlift, res_bind in *.
Ltac go_simpl := go_unfold; cbn in *; repeat (case_match; simplify_eq/=).

(** ** Panic freedom *)

Definition nopanic {S E A} (m : M S E A) : Prop := ∀ s, (m s).2 ≠ Panic.

Lemma res_bind_total {E A B} (r : res E A) (f : A → res E B) :
  r ≠ Panic → (∀ a, f a ≠ Panic) → res_bind r f ≠ Panic.
Proof. intros Hr Hf. destruct r; simpl; [apply Hf|done|done]. Qed.

Lemma nopanic_bind {S E A B} (m : M S E A) (k : A → M S E B) :
  nopanic m → (∀ a, nopanic (k a)) → nopanic (mbnd m k).
Proof.
  intros Hm Hk s. unfold mbnd. specialize (Hm s). destruct (m s) as [s' [a|e|]]; [apply Hk|done|done].
Qed.

Lemma nopanic_ok {S E A} (a : A) : nopanic (S := S) (E := E) (mok a).
Proof. done. Qed.
Lemma nopanic_err {S E A} (e : E) : nopanic (S := S) (A := A) (merr e).
Proof. done. Qed.
Lemma nopanic_lift {S E A} (r : res E A) : r ≠ Panic → nopanic (S := S) (mlift r).
Proof. by intros ? ?. Qed.
Lemma nopanic_modify {S E} (f : S → S) : nopanic (E := E) (mmodify f).
Proof. done. Qed.
Lemma nopanic_get {S E} : nopanic (S := S) (E := E) mget.
Proof. done. Qed.
#[export] Hint Resolve nopanic_ok nopanic_err nopanic_lift nopanic_modify nopanic_get : go.

(** [nopanic] goes through the binds and branches of a monadic definition. *)
Ltac nopanic :=
  repeat first
    [ apply nopanic_bind; [|intros ?] | progress auto with go | case_match | progress intros ].

(** ** Invariants of stateful methods

    [safe P m Q]: whatever the exit of [m], normal or not, the invariant [P] of
    the state is kept, and a normal result satisfies [Q]. *)

Definition safe {S E A} (P : S → Prop) (m : M S E A) (Q : A → Prop) : Prop :=
  ∀ s, P s → P (m s).1 ∧ ∀ a, (m s).2 = Ok a → Q a.

Lemma safe_bind {S E A B} (P : S → Prop) (m : M S E A) (k : A → M S E B) Q R :
  safe P m Q → (∀ a, Q a → safe P (k a) R) → safe P (mbnd m k) R.
Proof.
  intros Hm Hk s Hs. unfold mbnd. destruct (Hm s Hs) as [Hs' Hq].
  destruct (m s) as [s' [a|e|]]; simpl in *; [apply Hk; auto|done|done].
Qed.

Lemma safe_mono {S E A} (P : S → Prop) (m : M S E A) (Q Q' : A → Prop) :
  safe P m Q → (∀ a, Q a → Q' a) → safe P m Q'.
Proof. intros Hm HQ s Hs. destruct (Hm s Hs) as [? Hq]. eauto. Qed.

Lemma safe_ok {S E A} (P : S → Prop) (a : A) (Q : A → Prop) :
  Q a → safe (E := E) P (mok a) Q.
Proof. intros HQ s Hs. split; [done|]. intros ? [= <-]. done. Qed.

Lemma safe_err {S E A} (P : S → Prop) (e : E) (Q : A → Prop) : safe P (merr e) Q.
Proof. done. Qed.

Lemma safe_panic {S E A} (P : S → Prop) (Q : A → Prop) : safe (E := E) P mpanic Q.
Proof. done. Qed.

Lemma safe_lift {S E A} (P : S → Prop) (r : res E A) (Q : A → Prop) :
  (∀ a, r = Ok a → Q a) → safe P (mlift r) Q.
Proof. done. Qed.
#[export] Hint Resolve safe_ok safe_err safe_panic safe_lift : go.

(** ** Weakest preconditions through an abstraction

    The state of an external service is seen through [view]; [wp view p m Q] says
    that [p], started in any state whose view is [m], ends with a result and a
    view that satisfy [Q]. *)

Definition wp {R S E A} (view : R → S) (p : M R E A) (m : S) (Q : res E A → S → Prop) : Prop :=
  ∀ r, view r = m → Q (p r).2 (view (p r).1).

Section Wp.
Context {R S E : Type} (view : R → S).

Lemma wp_mono {A} (p : M R E A) m (Q Q' : res E A → S → Prop) :
  wp view p m Q → (∀ x m', Q x m' → Q' x m') → wp view p m Q'.
Proof. intros Hp HQ r Hr. by apply HQ, Hp. Qed.
Lemma wp_ok {A} (a : A) m (Q : res E A → S → Prop) : Q (Ok a) m → wp view (mok a) m Q.
Proof. by intros HQ r <-. Qed.
Lemma wp_err {A} e m (Q : res E A → S → Prop) : Q (Err e) m → wp view (merr e) m Q.
Proof. by intros HQ r <-. Qed.
Lemma wp_lift {A} x m (Q : res E A → S → Prop) : Q x m → wp view (mlift x) m Q.
Proof. by intros HQ r <-. Qed.
Lemma wp_bind {A B} (p : M R E A) (k : A → M R E B) m Q :
  wp view p m (λ x m', match x with Ok a => wp view (k a) m' Q | Err e => Q (Err e) m' | Panic => Q Panic m' end) →
  wp view (mbnd p k) m Q.
Proof.
  intros Hp r Hr. specialize (Hp r Hr). unfold mbnd. destruct (p r) as [r' [a|e|]]; cbn in *; [by apply Hp|done|done].
Qed.
End Wp.

(** ** Lists *)

(** Go map iteration visits the bindings in an unspecified order: an iteration
    order of [m] is any permutation of its bindings. *)
Definition iter_order {K V} `{Countable K} (m : gmap K V) (l : list (K * V)) : Prop :=
  l ≡ₚ map_to_list m.

Lemma iter_order_lookup {K V} `{Countable K} (m : gmap K V) l k v :
  iter_order m l → (k, v) ∈ l ↔ m !! k = Some v.
Proof. unfold iter_order. intros ->. apply elem_of_map_to_list. Qed.

Lemma iter_order_NoDup_fst {K V} `{Countable K} (m : gmap K V) l :
  iter_order m l → NoDup l.*1.
Proof. unfold iter_order. intros ->. apply NoDup_fst_map_to_list. Qed.

Lemma iter_order_list_to_map {K V} `{Countable K} (m : gmap K V) l :
  iter_order m l → list_to_map l = m.
Proof.
  intros Hl. rewrite (list_to_map_proper l (map_to_list m)).
  - apply list_to_map_to_list.
  - by eapply iter_order_NoDup_fst.
  - done.
Qed.

Lemma iter_order_length {K V} `{Countable K} (m : gmap K V) l :
  iter_order m l → length l = size m.
Proof. unfold iter_order. intros ->. apply length_map_to_list. Qed.

Lemma u32_small n : is_u32 n → u32 n = n.
Proof. intros. by apply N.mod_small. Qed.
#[export] Hint Resolve u32_small : go.

Lemma u32_is_u32 n : is_u32 (u32 n).
Proof. unfold is_u32, u32, two32. apply N.mod_lt. lia. Qed.
#[export] Hint Resolve u32_is_u32 : go.
