(* ===== verification/GoStrings.v ===== *)
(** * Go strings

    Go strings are byte sequences: they are modelled by [string], whose
    characters are 8-bit.  This file models the functions of Go's [strings] and
    [unicode/utf8] packages that the program uses, with the lemmas the
    components share. *)

From Stdlib Require Import Ascii String.
From S2P Require Import Prelude.

Open Scope string_scope.
#[global] Arguments String.append : simpl nomatch.

(** [len(s)], Go's [int]. *)
Definition len (s : string) : Z := Z.of_nat (String.length s).

(** [s[:n]] and [s[n:]] for [0 <= n <= len(s)]. *)
Fixpoint str_take (n : nat) (s : string) : string :=
  match n, s with
  | S n', String a s' => String a (str_take n' s')
  | _, _ => ""
  end.

Fixpoint str_drop (n : nat) (s : string) : string :=
  match n, s with
  | S n', String _ s' => str_drop n' s'
  | _, _ => s
  end.

(** Byte membership. *)
Fixpoint has_byte (c : ascii) (s : string) : bool :=
  match s with
  | "" => false
  | String a s' => bool_decide (a = c) || has_byte c s'
  end.

(** [strings.IndexByte]; [None] is the Go result -1. *)
Fixpoint IndexByte (s : string) (c : ascii) : option nat :=
  match s with
  | "" => None
  | String a s' => if bool_decide (a = c) then Some 0 else S <$> IndexByte s' c
  end.

(** [strings.HasPrefix], [strings.HasSuffix]. *)
Fixpoint has_prefix (p s : string) : bool :=
  match p, s with
  | "", _ => true
  | String a p', String b s' => bool_decide (a = b) && has_prefix p' s'
  | _, "" => false
  end.
Definition HasPrefix (s p : string) : bool := has_prefix p s.

Definition HasSuffix (s p : string) : bool :=
  (String.length p <=? String.length s)%nat &&
  bool_decide (str_drop (String.length s - String.length p) s = p).

(** [strings.Split] with a one-byte separator. *)
Fixpoint Split (s : string) (c : ascii) : list string :=
  match s with
  | "" => [""]
  | String a s' =>
      if bool_decide (a = c) then "" :: Split s' c
      else match Split s' c with
           | [] => [String a ""]
           | x :: xs => String a x :: xs
           end
  end.

(** [strings.Join]. *)
Fixpoint Join (l : list string) (sep : string) : string :=
  match l with [] => "" | [s] => s | s :: l' => s +:+ sep +:+ Join l' sep end.

Lemma Split_none s c : has_byte c s = false → Split s c = [s].
Proof.
  induction s as [|a s IH]; simpl; [done|]. intros [-> Hs]%orb_false_iff. by rewrite IH.
Qed.

Lemma Split_sep a c b : has_byte c a = false → Split (a +:+ String c b) c = a :: Split b c.
Proof.
  induction a as [|x a IH]; simpl; [by rewrite bool_decide_true|].
  intros [-> Ha]%orb_false_iff. by rewrite IH.
Qed.

(** Splitting what was joined. *)
Lemma Split_Join l c : l ≠ [] → Forall (λ s, has_byte c s = false) l → Split (Join l (String c "")) c = l.
Proof.
  intros Hl Hf. induction Hf as [|s l Hs Hf IH]; [done|]. destruct l as [|s' l]; [by apply Split_none|].
  change (Join (s :: s' :: l) (String c "")) with (s +:+ String c (Join (s' :: l) (String c ""))). by rewrite Split_sep, IH.
Qed.

(** [strings.SplitN] with a one-byte separator and [n >= 0]. *)
Fixpoint SplitN (s : string) (c : ascii) (n : nat) : list string :=
  match n with
  | 0 => []
  | 1 => [s]
  | S n' =>
      match IndexByte s c with
      | None => [s]
      | Some i => str_take i s :: SplitN (str_drop (S i) s) c n'
      end
  end.

(** [strings.Replacer.Replace]: scanning from the left, the first pair (in
    argument order) whose old string occurs at the current position is
    replaced, and the scan goes on after it.  [skip] counts the bytes of a match
    still to be passed over. *)
Fixpoint find_old (pairs : list (string * string)) (s : string) : option (string * string) :=
  match pairs with
  | [] => None
  | (o, n) :: ps => if HasPrefix s o then Some (o, n) else find_old ps s
  end.

Fixpoint replace_from (pairs : list (string * string)) (skip : nat) (s : string) : string :=
  match s with
  | "" => ""
  | String a s' =>
      match skip with
      | S k => replace_from pairs k s'
      | 0 =>
          match find_old pairs s with
          | Some (o, n) => n +:+ replace_from pairs (String.length o - 1) s'
          | None => String a (replace_from pairs 0 s')
          end
      end
  end.

Definition Replace (pairs : list (string * string)) (s : string) : string :=
  replace_from pairs 0 s.

(** [strings.ReplaceAll(s, old, new)] for a non-empty [old]. *)
Definition ReplaceAll (s o n : string) : string := Replace [(o, n)] s.

(** ** UTF-8

    [utf8_runes s] decodes [s] as [unicode/utf8] does: [None] when [s] is not
    valid UTF-8 (the accept ranges of Go's decoder), otherwise its runes, which
    are what [for _, r := range s] visits. *)

Definition in_range (lo hi : N) (a : ascii) : bool :=
  (lo <=? N_of_ascii a)%N && (N_of_ascii a <=? hi)%N.
Definition cont (a : ascii) : bool := in_range 128 191 a.
Definition low6 (a : ascii) : N := (N_of_ascii a `mod` 64)%N.

Fixpoint utf8_runes (s : string) : option (list N) :=
  match s with
  | "" => Some []
  | String b0 s1 =>
      if in_range 0 127 b0 then cons (N_of_ascii b0) <$> utf8_runes s1
      else match s1 with
      | "" => None
      | String b1 s2 =>
          if in_range 194 223 b0 then
            if cont b1
            then cons ((N_of_ascii b0 `mod` 32) * 64 + low6 b1)%N <$> utf8_runes s2
            else None
          else match s2 with
          | "" => None
          | String b2 s3 =>
              if in_range 224 239 b0 then
                if (if bool_decide (N_of_ascii b0 = 224%N) then in_range 160 191 b1
                    else if bool_decide (N_of_ascii b0 = 237%N) then in_range 128 159 b1
                    else cont b1) && cont b2
                then cons ((N_of_ascii b0 `mod` 16) * 4096 + low6 b1 * 64 + low6 b2)%N
                       <$> utf8_runes s3
                else None
              else match s3 with
              | "" => None
              | String b3 s4 =>
                  if in_range 240 244 b0 then
                    if (if bool_decide (N_of_ascii b0 = 240%N) then in_range 144 191 b1
                        else if bool_decide (N_of_ascii b0 = 244%N) then in_range 128 143 b1
                        else cont b1) && cont b2 && cont b3
                    then cons ((N_of_ascii b0 `mod` 8) * 262144 + low6 b1 * 4096
                                 + low6 b2 * 64 + low6 b3)%N <$> utf8_runes s4
                    else None
                  else None
              end
          end
      end
  end.

(** [utf8.ValidString]. *)
Definition ValidString (s : string) : bool :=
  match utf8_runes s with Some _ => true | None => false end.

(** ** White space and case

    [strings.TrimSpace] removes the leading and trailing Unicode white space:
    the encodings below are those of the runes of [unicode.IsSpace].  Each
    starts with a byte that starts a rune, so matching the byte sequence at
    either end of the string is matching the rune. *)

Definition byte (n : nat) : string := String (ascii_of_nat n) "".
Definition bytes_str (l : list nat) : string := fold_right (fun n s => String (ascii_of_nat n) s) "" l.

Definition spaces : list string :=
  map bytes_str
    ([[9]; [10]; [11]; [12]; [13]; [32]; [194; 133]; [194; 160]; [225; 154; 128]]
     ++ map (fun k => [226; 128; k]) (seq 128 11)
     ++ [[226; 128; 168]; [226; 128; 169]; [226; 128; 175]; [226; 129; 159]; [227; 128; 128]])%list%nat.

Fixpoint find_space (l : list string) (test : string -> bool) : option string :=
  match l with
  | [] => None
  | p :: ps => if test p then Some p else find_space ps test
  end.

Fixpoint trim_left (fuel : nat) (s : string) : string :=
  match fuel with
  | 0 => s
  | S f => match find_space spaces (HasPrefix s) with
           | Some p => trim_left f (str_drop (String.length p) s)
           | None => s
           end
  end.

Fixpoint trim_right (fuel : nat) (s : string) : string :=
  match fuel with
  | 0 => s
  | S f => match find_space spaces (HasSuffix s) with
           | Some p => trim_right f (str_take (String.length s - String.length p) s)
           | None => s
           end
  end.

Definition TrimSpace (s : string) : string :=
  let s' := trim_left (String.length s) s in
  trim_right (String.length s') s'.

(** [strings.ToLower] and [strings.ToUpper] have an ASCII fast path and map
    runes otherwise; the rune mapping (Go's Unicode tables) is an argument. *)
Definition is_ascii (s : string) : bool :=
  forallb (in_range 0 127) (list_ascii_of_string s).

Fixpoint str_map (f : ascii -> ascii) (s : string) : string :=
  match s with "" => "" | String a s' => String (f a) (str_map f s') end.

Definition lower_ascii (a : ascii) : ascii :=
  if in_range 65 90 a then ascii_of_N (N_of_ascii a + 32) else a.
Definition upper_ascii (a : ascii) : ascii :=
  if in_range 97 122 a then ascii_of_N (N_of_ascii a - 32) else a.

Definition ToLower (unicode : string -> string) (s : string) : string :=
  if is_ascii s then str_map lower_ascii s else unicode s.
Definition ToUpper (unicode : string -> string) (s : string) : string :=
  if is_ascii s then str_map upper_ascii s else unicode s.

(** ** Decimal integers

    [strconv.ParseInt(s, 10, bits)], and [strconv.Atoi] (64 bits); [None] is an
    error (syntax or range). *)

Definition digit (a : ascii) : option Z :=
  if in_range 48 57 a then Some (Z.of_N (N_of_ascii a) - 48)%Z else None.

Fixpoint digits (acc : Z) (s : string) : option Z :=
  match s with
  | "" => Some acc
  | String a s' => match digit a with Some d => digits (acc * 10 + d)%Z s' | None => None end
  end.

Definition ParseInt (bits : Z) (s : string) : option Z :=
  let '(neg, body) :=
    match s with
    | String "-" s' => (true, s')
    | String "+" s' => (false, s')
    | _ => (false, s)
    end in
  if bool_decide (body = "") then None
  else match digits 0 body with
       | Some n =>
           if neg then if (n <=? 2 ^ (bits - 1))%Z then Some (- n)%Z else None
           else if (n <? 2 ^ (bits - 1))%Z then Some n else None
       | None => None
       end.
Definition Atoi (s : string) : option Z := ParseInt 64 s.

(** [hex.EncodeToString]. *)
Definition hex_digit (n : N) : ascii :=
  if (n <? 10)%N then ascii_of_N (48 + n) else ascii_of_N (87 + n).
Fixpoint hex_encode (l : list ascii) : string :=
  match l with
  | [] => ""
  | a :: l' => String (hex_digit (N_of_ascii a / 16))
                 (String (hex_digit (N_of_ascii a `mod` 16)) (hex_encode l'))
  end.

(** ** Lemmas *)

Lemma str_app_nil_r s : s +:+ "" = s.
Proof. induction s as [|x s IH]; simpl; [done|by rewrite IH]. Qed.

Lemma str_app_assoc a b c : (a +:+ b) +:+ c = a +:+ (b +:+ c).
Proof. induction a as [|x a IH]; simpl; [done|by rewrite IH]. Qed.

Lemma has_byte_app c a b : has_byte c (a +:+ b) = has_byte c a || has_byte c b.
Proof. induction a; simpl; [done|]. rewrite IHa. by destruct (bool_decide _). Qed.

Lemma length_str_app a b : String.length (a +:+ b) = String.length a + String.length b.
Proof. induction a as [|x a IH]; simpl; [done|by rewrite IH]. Qed.

Lemma len_app a b : len (a +:+ b) = (len a + len b)%Z.
Proof. unfold len. rewrite length_str_app. lia. Qed.

Lemma str_take_app a b : str_take (String.length a) (a +:+ b) = a.
Proof. induction a as [|x a IH]; simpl; [by destruct b|by rewrite IH]. Qed.

Lemma str_drop_app a b : str_drop (String.length a) (a +:+ b) = b.
Proof. induction a; simpl; [by destruct b|done]. Qed.

Lemma str_drop_sep a c b : str_drop (S (String.length a)) (a +:+ String c b) = b.
Proof. induction a as [|x a IH]; simpl; [by destruct b|done]. Qed.

Lemma str_take_drop n s : str_take n s +:+ str_drop n s = s.
Proof. revert s. induction n; intros [|a s]; simpl; try done. by rewrite IHn. Qed.

Lemma IndexByte_None s c : IndexByte s c = None ↔ has_byte c s = false.
Proof.
  induction s as [|a s IH]; simpl; [done|].
  destruct (bool_decide (a = c)); simpl; [done|].
  rewrite <- IH. by destruct (IndexByte s c).
Qed.

Lemma IndexByte_Some s c i :
  IndexByte s c = Some i →
  s = str_take i s +:+ String c (str_drop (S i) s) ∧ has_byte c (str_take i s) = false.
Proof.
  revert i. induction s as [|a s IH]; intros i; simpl; [done|].
  case_bool_decide as Hac; simpl; intros Hi.
  - simplify_eq/=. by destruct s.
  - destruct (IndexByte s c) as [j|]; simplify_eq/=.
    destruct (IH j eq_refl) as [Hs Hn]. rewrite bool_decide_false by done.
    split; [|done]. f_equal. done.
Qed.

Lemma IndexByte_app s c t :
  has_byte c s = false → IndexByte (s +:+ String c t) c = Some (String.length s).
Proof.
  induction s as [|a s IH]; simpl; [by rewrite bool_decide_true|].
  intros [Ha Hs]%orb_false_iff. rewrite Ha. by rewrite IH.
Qed.

Lemma prefix_app p s : has_prefix p (p +:+ s) = true.
Proof. induction p as [|a p IH]; simpl; [by destruct s|]. by rewrite bool_decide_true. Qed.

Lemma prefix_spec p s : has_prefix p s = true ↔ ∃ t, s = p +:+ t.
Proof.
  split; [|intros [t ->]; apply prefix_app].
  revert s. induction p as [|a p IH]; intros s; simpl; [by exists s|].
  destruct s as [|b s]; [done|]. intros [->%bool_decide_eq_true H]%andb_true_iff.
  apply IH in H as [t ->]. by exists t.
Qed.

Lemma has_byte_In c s : has_byte c s = true ↔ In c (list_ascii_of_string s).
Proof.
  induction s as [|a s IH]; simpl; [by split|].
  rewrite orb_true_iff, bool_decide_eq_true, IH. tauto.
Qed.

(** *** UTF-8: an ASCII byte occurs in a valid string iff the rune of that
    value does. *)

Lemma N_of_ascii_lt a : (N_of_ascii a < 256)%N.
Proof. apply N_ascii_bounded. Qed.

Lemma in_range_spec lo hi a :
  in_range lo hi a = true ↔ (lo <= N_of_ascii a)%N ∧ (N_of_ascii a <= hi)%N.
Proof. unfold in_range. rewrite andb_true_iff, N.leb_le, N.leb_le. done. Qed.

Lemma in_range_false lo hi a :
  in_range lo hi a = false ↔ (N_of_ascii a < lo)%N ∨ (hi < N_of_ascii a)%N.
Proof. unfold in_range. rewrite andb_false_iff, N.leb_gt, N.leb_gt. done. Qed.

Lemma N_of_ascii_inj a b : N_of_ascii a = N_of_ascii b → a = b.
Proof. intros H. rewrite <- (ascii_N_embedding a), <- (ascii_N_embedding b). congruence. Qed.

(** Induction over a valid UTF-8 string, rune by rune: either an ASCII byte, or
    a block of bytes that are all at least 128 and decode to one rune that is
    at least 128, whatever follows. *)
Definition high (p : string) : Prop := ∀ c, has_byte c p = true → (128 <= N_of_ascii c)%N.

Definition rune_block (p : string) (r : N) : Prop :=
  p ≠ "" ∧ high p ∧ (128 <= r)%N ∧ ∀ t, utf8_runes (p +:+ t) = cons r <$> utf8_runes t.

Lemma high_list p :
  high p ↔ Forall (λ c, (128 <= N_of_ascii c)%N) (list_ascii_of_string p).
Proof.
  unfold high. rewrite List.Forall_forall. setoid_rewrite has_byte_In. done.
Qed.

Ltac Zify.zify_post_hook ::= Z.to_euclidean_division_equations.

Local Ltac utf8_tests :=
  repeat match goal with
  | H : context [if ?b then _ else _] |- _ => destruct b eqn:?
  | H : context [match ?s with EmptyString => _ | String _ _ => _ end] |- _ =>
      destruct s eqn:?; simplify_eq/=
  end; simplify_eq/=;
  repeat match goal with
  | H : (_ && _) = true |- _ => apply andb_true_iff in H as [? ?]
  | H : bool_decide _ = true |- _ => apply bool_decide_eq_true in H
  | H : bool_decide _ = false |- _ => apply bool_decide_eq_false in H
  end;
  unfold cont in *;
  repeat match goal with
  | H : in_range _ _ _ = true |- _ => apply in_range_spec in H
  | H : in_range _ _ _ = false |- _ => apply in_range_false in H
  end.

Lemma utf8_view b s l :
  utf8_runes (String b s) = Some l →
  ((N_of_ascii b < 128)%N ∧ ∃ rs, utf8_runes s = Some rs ∧ l = N_of_ascii b :: rs) ∨
  (∃ p t r rs, String b s = p +:+ t ∧ rune_block p r ∧ utf8_runes t = Some rs ∧ l = r :: rs).
Proof.
  intros H. simpl in H.
  destruct (in_range 0 127 b) eqn:E0.
  { apply in_range_spec in E0. left. split; [lia|].
    destruct (utf8_runes s) as [rs|]; simplify_eq/=; eauto. }
  right.
  destruct s as [|b1 s]; [done|]. destruct (in_range 194 223 b) eqn:E1.
  { destruct (cont b1) eqn:E2; [|done].
    destruct (utf8_runes s) as [rs|] eqn:Hs; simplify_eq/=.
    exists (String b (String b1 "")), s. eexists _, rs. split; [done|].
    split; [|done]. split; [done|]. split; [|split].
    - apply high_list. simpl. utf8_tests. repeat constructor; lia.
    - utf8_tests. unfold low6. lia.
    - intros t. simpl. by rewrite E0, E1, E2. }
  destruct s as [|b2 s]; [done|]. destruct (in_range 224 239 b) eqn:E2.
  { match type of H with (if ?c then _ else _) = _ => destruct c eqn:E3; [|done] end.
    destruct (utf8_runes s) as [rs|] eqn:Hs; simplify_eq/=.
    exists (String b (String b1 (String b2 ""))), s. eexists _, rs. split; [done|].
    split; [|done]. split; [done|]. split; [|split].
    - apply high_list. simpl. clear -E0 E2 E3. utf8_tests; repeat constructor; lia.
    - clear -E0 E2 E3. utf8_tests; unfold low6; lia.
    - intros t. simpl. by rewrite E0, E1, E2, E3. }
  destruct s as [|b3 s]; [done|]. destruct (in_range 240 244 b) eqn:E3; [|done].
  match type of H with (if ?c then _ else _) = _ => destruct c eqn:E4; [|done] end.
  destruct (utf8_runes s) as [rs|] eqn:Hs; simplify_eq/=.
  exists (String b (String b1 (String b2 (String b3 "")))), s. eexists _, rs. split; [done|].
  split; [|done]. split; [done|]. split; [|split].
  - apply high_list. simpl. clear -E0 E3 E4. utf8_tests; repeat constructor; lia.
  - clear -E0 E3 E4. utf8_tests; unfold low6; lia.
  - intros t. simpl. by rewrite E0, E1, E2, E3, E4.
Qed.

Lemma utf8_ind (P : string → list N → Prop) :
  P "" [] →
  (∀ b s rs, (N_of_ascii b < 128)%N → utf8_runes s = Some rs → P s rs →
     P (String b s) (N_of_ascii b :: rs)) →
  (∀ p r s rs, rune_block p r → utf8_runes s = Some rs → P s rs → P (p +:+ s) (r :: rs)) →
  ∀ s rs, utf8_runes s = Some rs → P s rs.
Proof.
  intros H0 H1 H2 s. remember (String.length s) as n eqn:Hn.
  revert s Hn. induction (lt_wf n) as [n _ IH]. intros [|b s] -> l Hl.
  - by simplify_eq/=.
  - apply utf8_view in Hl as [(Hb & rs & Hs & ->)|(p & t & r & rs & Heq & Hp & Ht & ->)].
    + apply H1; [done..|]. eapply IH; [|done..]. simpl. lia.
    + rewrite Heq. apply H2; [done..|]. eapply IH; [|done..].
      rewrite Heq, length_str_app. destruct Hp as [Hne _]. destruct p; [done|]. simpl. lia.
Qed.

Lemma utf8_ascii_byte c s rs :
  (N_of_ascii c < 128)%N → utf8_runes s = Some rs →
  N_of_ascii c ∈ rs ↔ has_byte c s = true.
Proof.
  intros Hc. revert s rs. apply utf8_ind; simpl.
  - split; [by intros ?%elem_of_nil|done].
  - intros b s rs Hb _ IH. rewrite elem_of_cons, orb_true_iff, bool_decide_eq_true, IH.
    split; intros [H|H]; auto.
    + left. by apply N_of_ascii_inj.
    + left. congruence.
  - intros p r s rs (_ & Hp & Hr & _) _ IH. rewrite has_byte_app, elem_of_cons, orb_true_iff, IH.
    split; intros [H|H]; auto; [lia|]. apply Hp in H. lia.
Qed.

(** *** Trimming is idempotent *)

Definition starts_with_space (s : string) : bool := existsb (HasPrefix s) spaces.
Definition ends_with_space (s : string) : bool := existsb (HasSuffix s) spaces.

Lemma find_space_None l test : find_space l test = None ↔ existsb test l = false.
Proof. induction l as [|p l IH]; simpl; [done|]. by destruct (test p). Qed.

Lemma find_space_Some l test p : find_space l test = Some p → p ∈ l ∧ test p = true.
Proof.
  induction l as [|q l IH]; simpl; [done|]. destruct (test q) eqn:E.
  - intros [= ->]. split; [left|done].
  - intros [? ?]%IH. split; [by right|done].
Qed.

Lemma space_nonempty p : p ∈ spaces → (0 < String.length p)%nat.
Proof.
  intros Hp. assert (forallb (λ q, 0 <? String.length q)%nat spaces = true) as H by done.
  rewrite forallb_forall in H. apply list_elem_of_In in Hp. by apply Nat.ltb_lt, H.
Qed.

Lemma str_drop_length n s : String.length (str_drop n s) = (String.length s - n)%nat.
Proof. revert s. induction n; intros [|a s]; simpl; auto. Qed.
Lemma str_take_length n s : String.length (str_take n s) = Nat.min n (String.length s).
Proof. revert s. induction n; intros [|a s]; simpl; auto. Qed.

Lemma HasPrefix_length s p : HasPrefix s p = true → (String.length p <= String.length s)%nat.
Proof. intros [t ->]%prefix_spec. rewrite length_str_app. lia. Qed.

Lemma trim_left_done fuel s :
  (String.length s <= fuel)%nat → starts_with_space (trim_left fuel s) = false.
Proof.
  revert s. induction fuel as [|f IH]; intros s Hs; cbn [trim_left trim_right].
  - destruct s; [done|simpl in Hs; lia].
  - destruct (find_space spaces (HasPrefix s)) as [p|] eqn:E.
    + apply find_space_Some in E as [Hp E%HasPrefix_length]. apply space_nonempty in Hp.
      apply IH. rewrite str_drop_length. lia.
    + by apply find_space_None in E.
Qed.

Lemma trim_right_done fuel s :
  (String.length s <= fuel)%nat → ends_with_space (trim_right fuel s) = false.
Proof.
  revert s. induction fuel as [|f IH]; intros s Hs; cbn [trim_left trim_right].
  - destruct s; [done|simpl in Hs; lia].
  - destruct (find_space spaces (HasSuffix s)) as [p|] eqn:E.
    + apply find_space_Some in E as [Hp E]. apply andb_true_iff in E as [E%Nat.leb_le _].
      apply space_nonempty in Hp. apply IH. rewrite str_take_length. lia.
    + by apply find_space_None in E.
Qed.

Lemma str_take_prefix n s : ∃ t, s = str_take n s +:+ t.
Proof. exists (str_drop n s). by rewrite str_take_drop. Qed.

Lemma starts_with_space_take n s :
  starts_with_space s = false → starts_with_space (str_take n s) = false.
Proof.
  unfold starts_with_space. rewrite <- !not_true_iff_false, !existsb_exists.
  intros H (p & Hp & [t Ht]%prefix_spec). apply H. exists p. split; [done|].
  apply prefix_spec. exists (t +:+ str_drop n s). by rewrite <- str_app_assoc, <- Ht, str_take_drop.
Qed.

Lemma trim_right_keeps_start fuel s :
  starts_with_space s = false → starts_with_space (trim_right fuel s) = false.
Proof.
  revert s. induction fuel as [|f IH]; intros s Hs; cbn [trim_right]; [done|].
  destruct (find_space spaces (HasSuffix s)); [|done]. by apply IH, starts_with_space_take.
Qed.

Lemma trim_left_id fuel s : starts_with_space s = false → trim_left fuel s = s.
Proof. intros Hs. destruct fuel; cbn [trim_left trim_right]; [done|]. by rewrite (proj2 (find_space_None _ _) Hs). Qed.
Lemma trim_right_id fuel s : ends_with_space s = false → trim_right fuel s = s.
Proof. intros Hs. destruct fuel; cbn [trim_left trim_right]; [done|]. by rewrite (proj2 (find_space_None _ _) Hs). Qed.

Lemma TrimSpace_idemp s : TrimSpace (TrimSpace s) = TrimSpace s.
Proof.
  unfold TrimSpace at 1. set (t := TrimSpace s).
  assert (starts_with_space t = false ∧ ends_with_space t = false) as [Hs He].
  { unfold t, TrimSpace. split.
    - by apply trim_right_keeps_start, trim_left_done.
    - by apply trim_right_done. }
  rewrite !trim_left_id by done. by apply trim_right_id.
Qed.

(** *** Text without white space *)

(** Bytes that no white-space rune contains. *)
Definition graphic (a : ascii) : bool := in_range 33 127 a.

Lemma spaces_not_graphic p : p ∈ spaces → ∀ c, has_byte c p = true → graphic c = false.
Proof.
  intros Hp c Hc.
  assert (forallb (λ q, forallb (λ c, negb (graphic c)) (list_ascii_of_string q)) spaces = true) as H
    by (vm_compute; reflexivity).
  rewrite forallb_forall in H. apply list_elem_of_In, H in Hp. rewrite forallb_forall in Hp.
  apply has_byte_In, Hp in Hc. by apply negb_true_iff.
Qed.

Lemma str_drop_bytes n s c : has_byte c (str_drop n s) = true → has_byte c s = true.
Proof.
  intros Hc. rewrite <- (str_take_drop n s), has_byte_app, Hc. apply orb_true_r.
Qed.

Lemma TrimSpace_graphic s : (∀ c, has_byte c s = true → graphic c = true) → TrimSpace s = s.
Proof.
  intros Hs.
  assert (∀ p, p ∈ spaces → ∃ c, has_byte c p = true ∧ graphic c = false) as Hsp.
  { intros p Hp. pose proof (space_nonempty p Hp). destruct p as [|c p]; simpl in *; [lia|].
    exists c. split; [by rewrite bool_decide_true|]. apply (spaces_not_graphic (String c p)); [done|].
    simpl. by rewrite bool_decide_true. }
  assert (starts_with_space s = false) as H1.
  { apply not_true_iff_false. unfold starts_with_space. rewrite existsb_exists.
    intros (p & Hp%list_elem_of_In & [t ->]%prefix_spec). destruct (Hsp p Hp) as (c & Hc & Hg).
    rewrite Hs in Hg; [done|]. by rewrite has_byte_app, Hc. }
  assert (ends_with_space s = false) as H2.
  { apply not_true_iff_false. unfold ends_with_space. rewrite existsb_exists.
    intros (p & Hp%list_elem_of_In & Hsuf). unfold HasSuffix in Hsuf.
    apply andb_true_iff in Hsuf as [_ Hsuf%bool_decide_eq_true]. destruct (Hsp p Hp) as (c & Hc & Hg).
    rewrite Hs in Hg; [done|]. rewrite <- Hsuf in Hc. by eapply str_drop_bytes. }
  unfold TrimSpace. rewrite !trim_left_id by done. by apply trim_right_id.
Qed.

(** ** Sorting strings ([sort.Strings]: byte order) *)

Fixpoint str_leb (a b : string) : bool :=
  match a, b with
  | "", _ => true
  | String _ _, "" => false
  | String x a', String y b' =>
      (N_of_ascii x <? N_of_ascii y)%N || ((N_of_ascii x =? N_of_ascii y)%N && str_leb a' b')
  end.
Definition str_le (a b : string) : Prop := str_leb a b = true.

#[export] Instance str_le_dec : RelDecision str_le.
Proof. intros a b. unfold str_le. apply _. Defined.

Lemma str_le_cons x a y b :
  str_le (String x a) (String y b) ↔ (N_of_ascii x < N_of_ascii y)%N ∨ (N_of_ascii x = N_of_ascii y ∧ str_le a b).
Proof. unfold str_le. cbn. by rewrite orb_true_iff, andb_true_iff, N.ltb_lt, N.eqb_eq. Qed.

#[export] Instance str_le_trans : Transitive str_le.
Proof.
  intros a. induction a as [|x a IH]; intros [|y b] [|z c]; try done. rewrite !str_le_cons.
  intros [?|[? H1]] [?|[? H2]]; try (left; lia). right. split; [lia|]. by eapply IH.
Qed.
#[export] Instance str_le_total : Total str_le.
Proof.
  intros a. induction a as [|x a IH]; intros [|y b]; [by left..|by right|]. rewrite !str_le_cons.
  destruct (IH b); destruct (N.lt_trichotomy (N_of_ascii x) (N_of_ascii y)) as [?|[?|?]]; auto.
Qed.
#[export] Instance str_le_antisymm : AntiSymm eq str_le.
Proof.
  intros a. induction a as [|x a IH]; intros [|y b]; try done. rewrite !str_le_cons.
  intros [?|[E H1]] [?|[E2 H2]]; try lia. apply N_of_ascii_inj in E as ->. by rewrite (IH b).
Qed.

Definition sort_Strings (l : list string) : list string := merge_sort str_le l.

Lemma sort_Strings_perm l : sort_Strings l ≡ₚ l.
Proof. apply merge_sort_Permutation. Qed.
Lemma sort_Strings_sorted l : Sorted str_le (sort_Strings l).
Proof. apply (Sorted_merge_sort str_le). Qed.

(** Sorting forgets the order. *)
Lemma sort_Strings_eq l k : l ≡ₚ k → sort_Strings l = sort_Strings k.
Proof.
  intros Hp. apply (Sorted_unique str_le); [apply sort_Strings_sorted..|].
  by rewrite !sort_Strings_perm.
Qed.
