(* ===== verification/GoNumbers.v ===== *)
(** * Numbers and truth values as text (Go's [strconv])

    What [FormatInt], [FormatUint] and [FormatBool] write, [ParseInt], [ParseUint] and
    [ParseBool] read back, at every width. *)

From Stdlib Require Import Ascii String ZArith.
From stdpp Require Import pretty.
From S2P Require Import Prelude GoStrings.

Open Scope string_scope.

Definition FormatInt (z : Z) : string := pretty z.

Definition ParseUint (bits : Z) (s : string) : option Z :=
  if bool_decide (s = "") then None
  else match digits 0 s with
       | Some n => if (n <? 2 ^ bits)%Z then Some n else None
       | None => None
       end.

Definition FormatBool (b : bool) : string := if b then "true" else "false".

Definition ParseBool (s : string) : option bool :=
  if bool_decide (s ∈ ["1"; "t"; "T"; "TRUE"; "true"; "True"]) then Some true
  else if bool_decide (s ∈ ["0"; "f"; "F"; "FALSE"; "false"; "False"]) then Some false
  else None.

Definition int_fits (bits z : Z) : bool := (- 2 ^ (bits - 1) <=? z)%Z && (z <? 2 ^ (bits - 1))%Z.
Definition uint_fits (bits z : Z) : bool := (0 <=? z)%Z && (z <? 2 ^ bits)%Z.

(** ** Decimal digits *)

Lemma digit_char (x : N) : (x < 10)%N → digit (pretty_N_char x) = Some (Z.of_N x).
Proof.
  intros Hx. assert (x ∈ [0; 1; 2; 3; 4; 5; 6; 7; 8; 9]%N) as Hin.
  { assert (x = 0 ∨ x = 1 ∨ x = 2 ∨ x = 3 ∨ x = 4 ∨ x = 5 ∨ x = 6 ∨ x = 7 ∨ x = 8 ∨ x = 9)%N as H by lia.
    set_solver. }
  clear Hx. revert x Hin. apply Forall_forall. repeat constructor.
Qed.

(** Reading the digits of [x] and then [t] is reading [t] from [x] on. *)
Lemma digits_go (x : N) t : digits 0 (pretty_N_go x t) = digits (Z.of_N x) t.
Proof.
  revert t. induction (N.lt_wf_0 x) as [x _ IH]; intros t.
  assert (x = 0 ∨ 0 < x)%N as [->|Hx] by lia; [by rewrite pretty_N_go_0|].
  rewrite pretty_N_go_step by done. rewrite IH by (by apply N.div_lt). cbn [digits].
  rewrite digit_char by (by apply N.mod_lt). f_equal.
  rewrite <- (N2Z.inj_mul _ 10), <- N2Z.inj_add. f_equal. rewrite N.mul_comm. symmetry. by apply N.div_mod.
Qed.

Lemma digits_pretty (n : N) : digits 0 (pretty n) = Some (Z.of_N n).
Proof. unfold pretty, pretty_N. case_decide; [by subst|]. by rewrite digits_go. Qed.

Lemma go_bytes (P : ascii → Prop) (x : N) t :
  (∀ k, (k < 10)%N → P (pretty_N_char k)) → (∀ c, has_byte c t = true → P c) →
  ∀ c, has_byte c (pretty_N_go x t) = true → P c.
Proof.
  intros Hd. revert t. induction (N.lt_wf_0 x) as [x _ IH]; intros t Ht.
  assert (x = 0 ∨ 0 < x)%N as [->|Hx] by lia; [by rewrite pretty_N_go_0|].
  rewrite pretty_N_go_step by done. apply IH; [by apply N.div_lt|].
  intros c. simpl. rewrite orb_true_iff, bool_decide_eq_true. intros [<-|?]; [|by apply Ht]. apply Hd. by apply N.mod_lt.
Qed.

Definition is_digit (c : ascii) : bool := in_range 48 57 c.

Lemma digit_is_digit k : (k < 10)%N → is_digit (pretty_N_char k) = true.
Proof. intros Hk%digit_char. unfold digit, is_digit in *. by case_match. Qed.

Lemma pretty_digits (n : N) c : has_byte c (pretty n) = true → is_digit c = true.
Proof.
  unfold pretty, pretty_N. case_decide.
  - simpl. rewrite orb_false_r, bool_decide_eq_true. by intros <-.
  - apply (go_bytes (λ c, is_digit c = true)); [apply digit_is_digit|done].
Qed.

Lemma digit_graphic c : is_digit c = true → graphic c = true.
Proof. unfold is_digit, graphic, in_range. rewrite !andb_true_iff, !N.leb_le. lia. Qed.

Lemma pretty_nonempty (n : N) : pretty n ≠ "".
Proof. intros E. pose proof (digits_pretty n) as H. rewrite E in H. injection H as H. assert (n = 0%N) as -> by lia. done. Qed.

Lemma FormatInt_cases z :
  FormatInt z = (if (z <? 0)%Z then "-" else "") +:+ pretty (Z.to_N (Z.abs z)).
Proof. by destruct z. Qed.

Lemma TrimSpace_FormatInt z : TrimSpace (FormatInt z) = FormatInt z.
Proof.
  apply TrimSpace_graphic. intros c. rewrite FormatInt_cases, has_byte_app, orb_true_iff.
  intros [H|H%pretty_digits%digit_graphic]; [|done]. revert H. case_match; [|done]. simpl.
  rewrite orb_false_r, bool_decide_eq_true. by intros <-.
Qed.

(** ** Round trips *)

(** A text that starts with a digit has no sign. *)
Lemma unsigned_text s :
  (∀ c, has_byte c s = true → is_digit c = true) →
  match s with String "-" s' => (true, s') | String "+" s' => (false, s') | _ => (false, s) end = (false, s).
Proof.
  intros Hs. destruct s as [|c s]; [done|]. specialize (Hs c ltac:(cbn; by rewrite bool_decide_true)).
  destruct c as [[] [] [] [] [] [] [] []]; done.
Qed.

Lemma ParseInt_FormatInt bits z : int_fits bits z = true → ParseInt bits (FormatInt z) = Some z.
Proof.
  unfold int_fits. rewrite andb_true_iff, Z.leb_le, Z.ltb_lt. intros [Hl Hu]. unfold ParseInt. rewrite FormatInt_cases.
  destruct (z <? 0)%Z eqn:Ez; [apply Z.ltb_lt in Ez|apply Z.ltb_ge in Ez].
  - set (t := pretty (Z.to_N (Z.abs z))). cbn [String.append]. cbv iota beta. subst t. rewrite bool_decide_false by apply pretty_nonempty.
    rewrite digits_pretty, Z2N.id by lia. rewrite (proj2 (Z.leb_le _ _)) by lia. f_equal. lia.
  - cbn [String.append]. rewrite unsigned_text by apply pretty_digits.
    rewrite bool_decide_false by apply pretty_nonempty. rewrite digits_pretty, Z2N.id by lia.
    rewrite (proj2 (Z.ltb_lt _ _)) by lia. f_equal. lia.
Qed.

Lemma ParseUint_FormatInt bits z : uint_fits bits z = true → ParseUint bits (FormatInt z) = Some z.
Proof.
  unfold uint_fits. rewrite andb_true_iff, Z.leb_le, Z.ltb_lt. intros [Hl Hu]. unfold ParseUint. rewrite FormatInt_cases.
  rewrite (proj2 (Z.ltb_ge z 0) Hl). cbn [String.append].
  rewrite bool_decide_false by apply pretty_nonempty. rewrite digits_pretty, Z2N.id by lia.
  rewrite (proj2 (Z.ltb_lt _ _)) by lia. f_equal. lia.
Qed.

Lemma ParseBool_FormatBool b : ParseBool (TrimSpace (FormatBool b)) = Some b.
Proof. by destruct b. Qed.

Lemma FormatInt_nonempty z : FormatInt z ≠ "".
Proof. rewrite FormatInt_cases. case_match; [done|]. apply pretty_nonempty. Qed.
