(* ===== verification/Xml.v ===== *)
(** * XML values

    The part of Go's [encoding/xml] the program builds on: names, attributes and
    tokens; elements as trees, which is what the decoder reads; and the encoder's
    state (open tags, buffer, what has reached the connection), with the errors
    it raises.  The mapping between tokens and bytes (escaping, quoting, the
    syntax errors of the tokenizer) is not modelled: input is a sequence of
    well-formed elements and output a sequence of tokens and raw strings.

    The second half models the stream writer of src/xml/stream.go on top of it. *)

From Stdlib Require Import Ascii String.
From S2P Require Import Prelude.

Open Scope string_scope.

(** [xml.Name]. *)
Record Name := mkName { Space : string; Local : string }.

(** The namespace of the prefix [xml]. *)
Definition xml_URL := "http://www.w3.org/XML/1998/namespace".

(** [xml.Attr]. *)
Record Attr := mkAttr { attrName : Name; attrValue : string }.

(** [xml.Token], the kinds the program emits or tests for. *)
Inductive Token :=
  | StartElement (name : Name) (attrs : list Attr)
  | EndElement (name : Name)
  | CharData (text : string)
  | OtherToken.

#[global] Instance Name_eq_dec : EqDecision Name.
Proof. solve_decision. Defined.
#[global] Instance Attr_eq_dec : EqDecision Attr.
Proof. solve_decision. Defined.
#[global] Instance Token_eq_dec : EqDecision Token.
Proof. solve_decision. Defined.

(** A token sequence is balanced when every start element is closed by an end
    element of the same name, properly nested: [balanced st l] reads [l] with
    the open elements [st]. *)
Fixpoint balanced (st : list Name) (l : list Token) : bool :=
  match l with
  | [] => bool_decide (st = [])
  | StartElement n _ :: l' => balanced (n :: st) l'
  | EndElement n :: l' =>
      match st with
      | m :: st' => bool_decide (m = n) && balanced st' l'
      | [] => false
      end
  | _ :: l' => balanced st l'
  end.

(** An element: its start tag, its content, its end tag. *)
Definition element (n : Name) (attrs : list Attr) (body : list Token) : list Token :=
  (StartElement n attrs :: body ++ [EndElement n])%list.

(** [balanced_in l]: reading [l] leaves the stack of open elements as it was. *)
Definition balanced_in (l : list Token) : Prop :=
  ∀ st k, balanced st (l ++ k)%list = balanced st k.

Lemma balanced_in_nil : balanced_in [].
Proof. by intros st k. Qed.

Lemma balanced_in_text t : balanced_in [CharData t].
Proof. by intros st k. Qed.

Lemma balanced_in_app l1 l2 :
  balanced_in l1 → balanced_in l2 → balanced_in (l1 ++ l2)%list.
Proof. intros H1 H2 st k. by rewrite <- app_assoc, H1, H2. Qed.

Lemma balanced_in_element n a l : balanced_in l → balanced_in (element n a l).
Proof.
  intros Hl st k. unfold element. simpl. rewrite <- app_assoc, Hl. simpl.
  by rewrite bool_decide_true.
Qed.

Lemma balanced_in_balanced l : balanced_in l → balanced [] l = true.
Proof. intros H. rewrite <- (app_nil_r l), H. done. Qed.

#[export] Hint Resolve balanced_in_nil balanced_in_text balanced_in_app
  balanced_in_element balanced_in_balanced : go.

(** ** Elements as trees *)

Inductive node :=
  | Elem (name : Name) (attrs : list Attr) (children : list node)
  | Text (s : string)
  | Misc.

Fixpoint node_tokens (n : node) : list Token :=
  match n with
  | Elem name attrs cs => element name attrs (concat (map node_tokens cs))
  | Text s => [CharData s]
  | Misc => [OtherToken]
  end.

Definition nodes_tokens (l : list node) : list Token := concat (map node_tokens l).

(** The character data directly inside an element, as the decoder collects it. *)
Definition chardata (cs : list node) : string :=
  fold_right (fun c s => match c with Text t => t +:+ s | _ => s end) "" cs.

(** The first element of a fragment: where [Decoder.Decode] and [xml.Unmarshal]
    start. *)
Fixpoint first_element (l : list node) : option node :=
  match l with
  | [] => None
  | Elem n a cs :: _ => Some (Elem n a cs)
  | _ :: l' => first_element l'
  end.

(** A string field tagged with an attribute name: every attribute with that
    local name is assigned in turn. *)
Definition attr_string (name : string) (attrs : list Attr) (v : string) : string :=
  fold_left (fun v a => if bool_decide (Local (attrName a) = name) then attrValue a else v) attrs v.

(** A string field tagged with an element name: every child with that local
    name (in any namespace) is assigned in turn. *)
Definition child_string (name : string) (cs : list node) (v : string) : string :=
  fold_left (fun v c => match c with
                        | Elem n _ cs' => if bool_decide (Local n = name) then chardata cs' else v
                        | _ => v
                        end) cs v.

(** A pointer-to-empty-struct field: whether a child of that name occurs. *)
Definition has_child (name : string) (cs : list node) : bool :=
  existsb (fun c => match c with Elem n _ _ => bool_decide (Local n = name) | _ => false end) cs.

(** ** The encoder

    [tags] is the stack of open elements ([Name{}] marks the entry to a
    [MarshalXML] method), [buf] what is written and not flushed yet, [wire] what
    reached the connection; [broken] says that the connection refuses writes. *)

Inductive item := Tok (t : Token) | Raw (s : string).
#[global] Instance item_eq_dec : EqDecision item.
Proof. solve_decision. Defined.

Record StreamWriter := mkWriter {
  tags : list Name; buf : list item; wire : list item; broken : bool }.

Inductive xml_error :=
  | ENoName          (* "xml: start tag with no name" *)
  | EEndTag          (* an end tag without a start tag, or not the expected one *)
  | ENotClosed       (* MarshalXML left an element open *)
  | EWrite.          (* the connection refuses the bytes *)

Definition Enc := M StreamWriter xml_error.

Definition no_name : Name := mkName "" "".

Definition put_items (l : list item) : Enc unit :=
  mmodify (fun w => mkWriter (tags w) (buf w ++ l)%list (wire w) (broken w)).
Definition set_tags (st : list Name) : Enc unit :=
  mmodify (fun w => mkWriter st (buf w) (wire w) (broken w)).

Definition writeStart (n : Name) (attrs : list Attr) : Enc unit :=
  if bool_decide (Local n = "") then merr ENoName
  else (do w <- mget; do_ set_tags (n :: tags w); put_items [Tok (StartElement n attrs)])%go.

Definition writeEnd (n : Name) : Enc unit :=
  if bool_decide (Local n = "") then merr EEndTag
  else (do w <- mget;
        match tags w with
        | m :: st => if bool_decide (m = n)
                     then do_ set_tags st; put_items [Tok (EndElement n)]
                     else merr EEndTag
        | [] => merr EEndTag
        end)%go.

(** [Encoder.EncodeToken], without the flush. *)
Definition encodeToken (t : Token) : Enc unit :=
  match t with
  | StartElement n attrs => writeStart n attrs
  | EndElement n => writeEnd n
  | CharData s => put_items [Tok (CharData s)]
  | OtherToken => put_items [Tok OtherToken]
  end.

Fixpoint encodeTokens (l : list Token) : Enc unit :=
  match l with
  | [] => mok tt
  | t :: l' => (do_ encodeToken t; encodeTokens l')%go
  end.

(** The bytes of an [innerxml] field, copied as they are. *)
Definition writeInner (l : list node) : Enc unit := put_items (map Tok (nodes_tokens l)).

(** A call of a [MarshalXML] method by the encoder. *)
Definition marshaler (m : Enc unit) : Enc unit :=
  (do w <- mget; do_ set_tags (no_name :: tags w); do_ m; do w' <- mget;
   if (length (tags w) + 1 <? length (tags w'))%nat then merr ENotClosed
   else set_tags (tail (tags w')))%go.

Definition Flush : Enc unit :=
  fun w => if broken w then (w, Err EWrite)
           else (mkWriter (tags w) [] (wire w ++ buf w)%list (broken w), Ok tt).

(** ** StreamWriter (src/xml/stream.go) *)

Definition EncodeToken (t : Token) : Enc unit := (do_ encodeToken t; Flush)%go.

(** [Encode v], given by the calls [m] that encoding [v] makes. *)
Definition Encode (m : Enc unit) : Enc unit := (do_ m; do_ Flush; Flush)%go.

(** [WriteRaw] bypasses the encoder's buffer. *)
Definition WriteRaw (s : string) : Enc unit :=
  fun w => if broken w then (w, Err EWrite)
           else (mkWriter (tags w) (buf w) (wire w ++ [Raw s])%list (broken w), Ok tt).

Definition NewStreamWriter : StreamWriter := mkWriter [] [] [] false.

(** ** Lemmas on the encoder *)

(** Everything written so far, flushed or not. *)
Definition sent (w : StreamWriter) : list item := (wire w ++ buf w)%list.

(** [emits m l]: on a connection that accepts writes, [m] succeeds, writes
    exactly the tokens [l], and leaves the open elements as they were. *)
Definition emits (m : Enc unit) (l : list Token) : Prop :=
  ∀ w, broken w = false →
    (m w).2 = Ok tt ∧ tags (m w).1 = tags w ∧ broken (m w).1 = false ∧
    sent (m w).1 = (sent w ++ map Tok l)%list.

Lemma emits_ok : emits (mok tt) [].
Proof. intros w Hw. simpl. by rewrite app_nil_r. Qed.

Lemma emits_seq m1 m2 l1 l2 :
  emits m1 l1 → emits m2 l2 → emits (mbnd m1 (fun _ => m2)) (l1 ++ l2).
Proof.
  intros H1 H2 w Hw. unfold mbnd. destruct (H1 w Hw) as (E & Ht & Hb & Hs).
  destruct (m1 w) as [w1 r]; simpl in *; subst r.
  destruct (H2 w1 Hb) as (E2 & Ht2 & Hb2 & Hs2). rewrite E2. repeat split; [congruence|done|].
  by rewrite Hs2, Hs, map_app, app_assoc.
Qed.

Lemma emits_items l : emits (put_items (map Tok l)) l.
Proof. intros w Hw. unfold sent. simpl. by rewrite app_assoc. Qed.

Lemma emits_text s : emits (encodeToken (CharData s)) [CharData s].
Proof. apply (emits_items [CharData s]). Qed.

Lemma emits_inner l : emits (writeInner l) (nodes_tokens l).
Proof. apply emits_items. Qed.

Lemma emits_element n a m l :
  Local n ≠ "" → emits m l →
  emits (mbnd (encodeToken (StartElement n a)) (fun _ => mbnd m (fun _ => encodeToken (EndElement n))))
    (element n a l).
Proof.
  intros Hn Hm w Hw. simpl. unfold writeStart, writeEnd. rewrite (bool_decide_false _ Hn).
  unfold mbnd, mget, set_tags, put_items, mmodify. simpl.
  set (w1 := mkWriter (n :: tags w) (buf w ++ [Tok (StartElement n a)]) (wire w) (broken w)).
  destruct (Hm w1 Hw) as (E & Ht & Hb & Hs). destruct (m w1) as [w2 r]; simpl in *; subst r.
  rewrite Ht. simpl. rewrite bool_decide_true by done. simpl.
  repeat split; [done|]. unfold sent in *. simpl in *. rewrite app_assoc, Hs.
  rewrite map_app, <- !app_assoc. done.
Qed.

Lemma emits_marshaler m l : emits m l → emits (marshaler m) l.
Proof.
  intros Hm w Hw. unfold marshaler, mbnd, mget, set_tags, mmodify. simpl.
  set (w1 := mkWriter (no_name :: tags w) (buf w) (wire w) (broken w)).
  destruct (Hm w1 Hw) as (E & Ht & Hb & Hs). destruct (m w1) as [w2 r]; simpl in *; subst r.
  rewrite Ht. simpl. rewrite (proj2 (Nat.ltb_ge _ _)) by lia. done.
Qed.

Lemma emits_Flush : emits Flush [].
Proof.
  intros w Hw. unfold Flush. rewrite Hw. unfold sent. simpl. by rewrite !app_nil_r.
Qed.

Lemma emits_Encode m l : emits m l → emits (Encode m) l.
Proof.
  intros Hm. unfold Encode. rewrite <- (app_nil_r l). apply emits_seq; [done|].
  apply (emits_seq _ _ [] []); apply emits_Flush.
Qed.

Lemma emits_EncodeToken_text s : emits (EncodeToken (CharData s)) [CharData s].
Proof. apply (emits_seq _ _ [_] []); [apply emits_text|apply emits_Flush]. Qed.

#[export] Hint Resolve emits_ok emits_seq emits_items emits_text emits_inner emits_element
  emits_marshaler emits_Flush emits_Encode : go.

(** After [Encode] nothing is left in the buffer. *)
Lemma Encode_wire m l w :
  emits m l → broken w = false →
  Encode m w = (mkWriter (tags w) [] (sent w ++ map Tok l) false, Ok tt).
Proof.
  intros Hm Hw. unfold Encode, mbnd. destruct (Hm w Hw) as (E & Ht & Hb & Hs).
  destruct (m w) as [w1 r]; simpl in *; subst r. unfold Flush. rewrite Hb. simpl.
  rewrite ?Hb. simpl. rewrite app_nil_r. unfold sent in Hs. by rewrite Hs, Ht.
Qed.

(** *** Tokens of trees are balanced *)

Fixpoint balanced_in_node (n : node) : balanced_in (node_tokens n).
Proof.
  destruct n as [name attrs cs|s|]; simpl; [|by intros st k|by intros st k].
  apply balanced_in_element. induction cs as [|c cs IH]; simpl; [apply balanced_in_nil|].
  apply balanced_in_app; [apply balanced_in_node|apply IH].
Qed.

Lemma balanced_in_nodes l : balanced_in (nodes_tokens l).
Proof.
  induction l as [|n l IH]; [apply balanced_in_nil|].
  apply balanced_in_app; [apply balanced_in_node|apply IH].
Qed.
#[export] Hint Resolve balanced_in_node balanced_in_nodes : go.

Lemma nodes_tokens_app l1 l2 : nodes_tokens (l1 ++ l2) = (nodes_tokens l1 ++ nodes_tokens l2)%list.
Proof. unfold nodes_tokens. by rewrite map_app, concat_app. Qed.
