(* ===== verification/XmlStruct.v ===== *)
(** * Structs as XML elements (Go's [encoding/xml])

    How [xml.Marshal] writes a struct and [xml.Unmarshal] fills it, directed by the
    struct tags, as far as the program's payload types use them: names and namespaces
    ([XMLName], tags with a namespace), attributes, character data, [innerxml],
    [omitempty], paths ([a>b]), pointers, slices and nested structs.  The flags the
    program's payloads do not use ([any], [comment], [cdata]) and embedded structs are
    refused.

    Elements are trees as they are written: a name without a namespace takes the one of
    the enclosing element, an attribute [xmlns] declares one.

    [codec_roundtrip]: for the types whose tags keep the data apart ([faithful]), what
    [Marshal] writes is read back by [Unmarshal] with the same data, inside elements of
    any namespace. *)

From Stdlib Require Import Ascii String ZArith.
From S2P Require Import Prelude GoStrings GoNumbers Xml.

Open Scope string_scope.
Open Scope list_scope.

(** ** Types and values *)

(** A field is its name, its type and its [xml] tag. *)
Inductive gotype :=
  | TString | TBool | TInt (bits : Z) | TUint (bits : Z)
  | TBytes                  (* []byte *)
  | TName                   (* xml.Name *)
  | TPtr (t : gotype) | TSlice (t : gotype)
  | TStruct (name : string) (fields : list (string * gotype * string)).
Notation field := (string * gotype * string)%type.

(** [VRaw] stands for the bytes of a [[]byte]; a slice is nil when it is empty. *)
Inductive goval :=
  | VString (s : string) | VBool (b : bool) | VInt (z : Z) | VRaw (l : list node) | VName (n : Name)
  | VPtr (v : option goval) | VSlice (l : list goval) | VStruct (l : list goval).

Section Induction.
Context (P : gotype → Prop).
Context (Hstring : P TString) (Hbool : P TBool) (Hint : ∀ b, P (TInt b)) (Huint : ∀ b, P (TUint b)).
Context (Hbytes : P TBytes) (Hname : P TName) (Hptr : ∀ t, P t → P (TPtr t)) (Hslice : ∀ t, P t → P (TSlice t)).
Context (Hstruct : ∀ n fs, Forall (λ f : field, P f.1.2) fs → P (TStruct n fs)).
Fixpoint gotype_fields_ind (t : gotype) : P t :=
  match t with
  | TString => Hstring | TBool => Hbool | TInt b => Hint b | TUint b => Huint b
  | TBytes => Hbytes | TName => Hname
  | TPtr t => Hptr t (gotype_fields_ind t) | TSlice t => Hslice t (gotype_fields_ind t)
  | TStruct n fs => Hstruct n fs
      ((fix go (fs : list field) : Forall (λ f : field, P f.1.2) fs :=
          match fs with
          | [] => @List.Forall_nil _ _
          | (x, t, tag) :: fs' => @List.Forall_cons _ (λ f : field, P f.1.2) (x, t, tag) fs' (gotype_fields_ind t) (go fs')
          end) fs)
  end.
End Induction.

Fixpoint zero (t : gotype) : goval :=
  match t with
  | TString => VString "" | TBool => VBool false | TInt _ | TUint _ => VInt 0 | TBytes => VRaw []
  | TName => VName (mkName "" "") | TPtr _ => VPtr None | TSlice _ => VSlice []
  | TStruct _ fs => VStruct ((fix go (fs : list field) := match fs with [] => [] | (_, t, _) :: fs' => zero t :: go fs' end) fs)
  end.

Fixpoint has_type (t : gotype) (v : goval) : bool :=
  match t, v with
  | TString, VString _ | TBool, VBool _ | TBytes, VRaw _ | TName, VName _ => true
  | TInt b, VInt z => int_fits b z
  | TUint b, VInt z => uint_fits b z
  | TPtr _, VPtr None => true
  | TPtr t, VPtr (Some v) => has_type t v
  | TSlice t, VSlice l => forallb (has_type t) l
  | TStruct _ fs, VStruct vs =>
      (fix go (fs : list field) (vs : list goval) : bool :=
         match fs, vs with
         | [], [] => true
         | (_, t, _) :: fs', v :: vs' => has_type t v && go fs' vs'
         | _, _ => false
         end) fs vs
  | _, _ => false
  end.

(** ** Tags: [structFieldInfo], [lookupXMLName], [getTypeInfo] *)

Inductive mode := MElement | MAttr | MCharData | MInnerXML.
#[export] Instance mode_eq_dec : EqDecision mode.
Proof. solve_decision. Defined.

Record fieldInfo := mkInfo { fi_xmlns : string; fi_name : string; fi_mode : mode; fi_omit : bool; fi_parents : list string }.

(** [strings.Cut(tag, " ")]. *)
Definition cut_namespace (tag : string) : string * string :=
  match IndexByte tag " " with Some i => (str_take i tag, str_drop (S i) tag) | None => ("", tag) end.

(** The mode a flag asks for; [None] is a flag that is not modelled. *)
Definition flag_mode (flag : string) : option (option mode) :=
  if bool_decide (flag = "attr") then Some (Some MAttr)
  else if bool_decide (flag = "chardata") then Some (Some MCharData)
  else if bool_decide (flag = "innerxml") then Some (Some MInnerXML)
  else if bool_decide (flag ∈ ["any"; "comment"; "cdata"]) then None
  else Some None.

Definition is_XMLName (name : string) : bool := bool_decide (name = "XMLName").

(** The mode of a field: at most one, none on [XMLName], with a name only for attributes. *)
Definition mode_of (fname name : string) (flags : list string) : option mode :=
  ms ← mapM flag_mode flags;
  match remove_dups (omap id ms) with
  | [] => Some MElement
  | [m] => if is_XMLName fname || negb (bool_decide (name = "") || bool_decide (m = MAttr)) then None else Some m
  | _ => None
  end.

(** [default] is what an empty name stands for. *)
Definition structFieldInfo (default : option fieldInfo) (target : option fieldInfo) (fname tag : string) : option fieldInfo :=
  let '(ns, tag) := cut_namespace tag in
  match Split tag "," with
  | [] => None
  | name :: flags =>
      m ← mode_of fname name flags;
      let omit := bool_decide ("omitempty" ∈ flags) in
      if omit && bool_decide (m ∈ [MCharData; MInnerXML]) then None
      else if negb (bool_decide (ns = "")) && bool_decide (name = "") then None
      else if is_XMLName fname then Some (mkInfo ns name m omit [])
      else if bool_decide (name = "") then
        match default with
        | Some x => Some (mkInfo (fi_xmlns x) (fi_name x) m omit [])
        | None => Some (mkInfo ns fname m omit [])
        end
      else
        let path := match Split name ">" with "" :: ps => fname :: ps | ps => ps end in
        let last := List.last path "" in
        if bool_decide (last = "") then None
        else if (1 <? length path)%nat && negb (bool_decide (m = MElement)) then None
        else match target with
             | Some x => if bool_decide (m = MElement) && negb (bool_decide (fi_name x = last)) then None
                         else Some (mkInfo ns last m omit (removelast path))
             | None => Some (mkInfo ns last m omit (removelast path))
             end
  end.

(** The [XMLName] field of a struct. *)
Definition xmlname (fs : list field) : option (option fieldInfo) :=
  match List.find (λ f : field, is_XMLName f.1.1) fs with
  | Some (n, _, tag) => Some (structFieldInfo None None n tag)
  | None => None
  end.

Fixpoint lookupXMLName (t : gotype) : option fieldInfo :=
  match t with
  | TPtr t => lookupXMLName t
  | TStruct _ fs =>
      match xmlname fs with
      | Some (Some x) => if bool_decide (fi_name x = "") then None else Some x
      | _ => None
      end
  | _ => None
  end.

Definition exported (name : string) : bool :=
  match name with String a _ => in_range 65 90 a | "" => false end.

(** A field that is not mapped: private, or with the tag [-]. *)
Definition unmapped (f : field) : bool := negb (exported f.1.1) || bool_decide (f.2 = "-").

(** [addFieldInfo]: fields that are not told apart. *)
Definition conflict (x y : fieldInfo) : bool :=
  bool_decide (fi_mode x = fi_mode y) &&
  (bool_decide (fi_xmlns x = "") || bool_decide (fi_xmlns y = "") || bool_decide (fi_xmlns x = fi_xmlns y)) &&
  (let n := Nat.min (length (fi_parents x)) (length (fi_parents y)) in
   bool_decide (take n (fi_parents x) = take n (fi_parents y)) &&
   match drop n (fi_parents x), drop n (fi_parents y) with
   | p :: _, _ => bool_decide (p = fi_name y)
   | [], p :: _ => bool_decide (p = fi_name x)
   | [], [] => bool_decide (fi_name x = fi_name y) && bool_decide (fi_xmlns x = fi_xmlns y)
   end).

Fixpoint no_conflicts (l : list (option fieldInfo)) : bool :=
  match l with
  | [] => true
  | None :: l' => no_conflicts l'
  | Some x :: l' => forallb (λ o, match o with Some y => negb (conflict x y) | None => true end) l' && no_conflicts l'
  end.

(** What each field stands for; [None] inside for [XMLName] and unmapped fields. *)
Definition getTypeInfo (n : string) (fs : list field) : option (list (option fieldInfo)) :=
  match xmlname fs with
  | Some None => None
  | _ =>
      l ← mapM (λ f : field,
                  if unmapped f || is_XMLName f.1.1 then Some None
                  else Some <$> structFieldInfo (lookupXMLName (TStruct n fs)) (lookupXMLName f.1.2) f.1.1 f.2) fs;
      if no_conflicts l then Some l else None
  end.

(** ** [xml.Marshal] *)

(** [isEmptyValue]. *)
Definition is_empty (v : goval) : bool :=
  match v with
  | VString s => bool_decide (s = "")
  | VBool b => negb b
  | VInt z => (z =? 0)%Z
  | VPtr None | VSlice [] | VRaw [] => true
  | _ => false
  end.

(** [marshalSimple]. *)
Definition simple_text (t : gotype) (v : goval) : option string :=
  match t, v with
  | TString, VString s => Some s
  | TBool, VBool b => Some (FormatBool b)
  | (TInt _ | TUint _), VInt z => Some (FormatInt z)
  | _, _ => None
  end.

Definition omitted (fi : fieldInfo) (v : goval) : bool := fi_omit fi && is_empty v.

Fixpoint marshal_attr (t : gotype) (name : Name) (v : goval) : option (list Attr) :=
  match t, v with
  | TPtr t, VPtr None => Some []
  | TPtr t, VPtr (Some v) => marshal_attr t name v
  | TSlice t, VSlice l => @concat _ <$> mapM (marshal_attr t name) l
  | _, _ => s ← simple_text t v; Some [mkAttr name s]
  end.

Fixpoint marshal_attrs (fs : list field) (infos : list (option fieldInfo)) (vs : list goval) : option (list Attr) :=
  match fs, infos, vs with
  | (_, t, _) :: fs', i :: infos', v :: vs' =>
      here ← match i with
             | Some fi => if bool_decide (fi_mode fi = MAttr) && negb (omitted fi v)
                          then marshal_attr t (mkName (fi_xmlns fi) (fi_name fi)) v else Some []
             | None => Some []
             end;
      rest ← marshal_attrs fs' infos' vs';
      Some (here ++ rest)
  | _, _, _ => Some []
  end.

(** [marshalStruct] writes the content of an element; the elements of the paths stay
    open until a field is not below them ([parentStack]). *)
Inductive entry := EText (s : string) | ERaw (l : list node) | EElement (parents : list string) (present : bool) (l : list node).

(** The open elements, the innermost first, each with what it holds so far. *)
Record writer := mkContent { w_open : list (string * list node); w_done : list node }.

Definition emit (l : list node) (w : writer) : writer :=
  match w_open w with
  | (p, cs) :: o => mkContent ((p, cs ++ l) :: o) (w_done w)
  | [] => mkContent [] (w_done w ++ l)
  end.
Fixpoint close (n : nat) (w : writer) : writer :=
  match n, w_open w with
  | S n, (p, cs) :: o => close n (emit [Elem (mkName "" p) [] cs] (mkContent o (w_done w)))
  | _, _ => w
  end.
Fixpoint common (a b : list string) : nat :=
  match a, b with x :: a', y :: b' => if bool_decide (x = y) then S (common a' b') else 0%nat | _, _ => 0%nat end.
Definition stack (w : writer) : list string := reverse (w_open w).*1.
Definition trim (parents : list string) (w : writer) : writer :=
  close (length (w_open w) - common parents (stack w)) w.
Definition push (parents : list string) (w : writer) : writer :=
  mkContent (reverse ((λ p, (p, [])) <$> parents) ++ w_open w) (w_done w).

Definition put_entry (w : writer) (e : entry) : writer :=
  match e with
  | EText s => emit (if bool_decide (s = "") then [] else [Text s]) (trim [] w)
  | ERaw l => emit l w
  | EElement parents present l =>
      let w := trim parents w in
      let w := if present then push (drop (length (w_open w)) parents) w else w in
      emit l w
  end.
Definition assemble (es : list entry) : list node := w_done (trim [] (foldl put_entry (mkContent [] []) es)).

(** The name an element is written with. *)
Definition value_name (fs : list field) (vs : list goval) : Name :=
  match List.find (λ fv : field * goval, is_XMLName fv.1.1.1) (zip fs vs) with Some (_, VName n) => n | _ => mkName "" "" end.
Definition start_name (tname : string) (fs : list field) (vs : list goval) (fi : option fieldInfo) : Name :=
  let own := match xmlname fs with
             | Some (Some x) => if bool_decide (fi_name x = "") then value_name fs vs else mkName (fi_xmlns x) (fi_name x)
             | _ => mkName "" ""
             end in
  if negb (bool_decide (Local own = "")) then own
  else match fi with Some fi => mkName (fi_xmlns fi) (fi_name fi) | None => mkName "" tname end.

(** An [XMLName] without a tag and without a namespace leaves the namespace around it. *)
Definition leaves_namespace (fs : list field) (name : Name) (up : string) : list Attr :=
  match xmlname fs with
  | Some (Some x) => if bool_decide (fi_xmlns x = "" ∧ fi_name x = "" ∧ Space name = "" ∧ up ≠ "")
                     then [mkAttr (mkName "" "xmlns") ""] else []
  | _ => []
  end.

(** What [marshalStruct] writes for each field; [mv] is [marshalValue]. *)
Section Entries.
Context (mv : gotype → option fieldInfo → string → goval → option (list node)) (space : string).
Definition entry_of (t : gotype) (i : option fieldInfo) (v : goval) : option (list entry) :=
  match i with
  | None => Some []
  | Some fi =>
      match fi_mode fi with
      | MAttr => Some []
      | MCharData => s ← simple_text t v; Some [EText s]
      | MInnerXML => match v with VRaw l => Some [ERaw l] | _ => None end
      | MElement =>
          l ← mv t (Some fi) (if bool_decide (fi_parents fi = []) then space else "") v;
          Some [EElement (fi_parents fi) (match v with VPtr None => false | _ => true end) l]
      end
  end.
Fixpoint entries (fs : list field) (infos : list (option fieldInfo)) (vs : list goval) : option (list entry) :=
  match fs, infos, vs with
  | (_, t, _) :: fs', i :: infos', v :: vs' =>
      here ← entry_of t i v; rest ← entries fs' infos' vs'; Some (here ++ rest)
  | _, _, _ => Some []
  end.
End Entries.

(** [marshalValue]: [check] says whether [omitempty] is looked at, which it is not
    behind a pointer; [up] is the namespace of the tag around. *)
Fixpoint marshal_value (t : gotype) (check : bool) (fi : option fieldInfo) (up : string) (v : goval) : option (list node) :=
  if check && match fi with Some fi => omitted fi v | None => false end then Some []
  else
    match t, v with
    | TPtr t, VPtr None => Some []
    | TPtr t, VPtr (Some v) => marshal_value t false fi up v
    | TSlice t, VSlice l => @concat _ <$> mapM (marshal_value t true fi up) l
    | TStruct n fs, VStruct vs =>
        infos ← getTypeInfo n fs;
        let name := start_name n fs vs fi in
        attrs ← marshal_attrs fs infos vs;
        es ← entries (λ t fi up v, marshal_value t true fi up v) (Space name) fs infos vs;
        Some [Elem name (attrs ++ leaves_namespace fs name up) (assemble es)]
    | _, _ => s ← simple_text t v;
              Some [Elem (match fi with Some fi => mkName (fi_xmlns fi) (fi_name fi) | None => mkName "" "" end) []
                         (if bool_decide (s = "") then [] else [Text s])]
    end.

Definition Marshal (t : gotype) (v : goval) : option (list node) := marshal_value t true None "" v.

(** ** [xml.Unmarshal] *)

Inductive unmarshal_error := EName | ESyntax | EType.

(** The namespace inside an element, and the element as the decoder presents it. *)
Definition inner_space (ns : string) (name : Name) (attrs : list Attr) : string :=
  if negb (bool_decide (Space name = "")) then Space name
  else fold_left (λ s a, if bool_decide (attrName a = mkName "" "xmlns") then attrValue a else s) attrs ns.
Definition read_name (ns : string) (name : Name) (attrs : list Attr) : Name :=
  mkName (inner_space ns name attrs) (Local name).
Definition read_attr (a : Attr) : Attr :=
  match Split (Local (attrName a)) ":" with
  | [p; l] => if bool_decide (p = "" ∨ l = "") then a
              else mkAttr (mkName (if bool_decide (p = "xml") then xml_URL else p) l) (attrValue a)
  | _ => a
  end.
Definition read_attrs (name : Name) (attrs : list Attr) : list Attr :=
  (if bool_decide (Space name = "") then [] else [mkAttr (mkName "" "xmlns") (Space name)]) ++ (read_attr <$> attrs).

(** [copyValue]. *)
Definition copy_simple (t : gotype) (text : string) : res unmarshal_error goval :=
  match t with
  | TString => Ok (VString text)
  | TBool => if bool_decide (text = "") then Ok (VBool false)
             else match ParseBool (TrimSpace text) with Some b => Ok (VBool b) | None => Err ESyntax end
  | TInt b => if bool_decide (text = "") then Ok (VInt 0)
              else match ParseInt b (TrimSpace text) with Some z => Ok (VInt z) | None => Err ESyntax end
  | TUint b => if bool_decide (text = "") then Ok (VInt 0)
               else match ParseUint b (TrimSpace text) with Some z => Ok (VInt z) | None => Err ESyntax end
  | _ => Err EType
  end.
Definition copy_value (t : gotype) (text : string) : res unmarshal_error goval :=
  match t with
  | TPtr t => (try v <- copy_simple t text; Ok (VPtr (Some v)))%go
  | _ => copy_simple t text
  end.

(** [unmarshalAttr]. *)
Definition unmarshal_attr (t : gotype) (cur : goval) (a : Attr) : res unmarshal_error goval :=
  match t, cur with
  | TSlice t, VSlice l => (try v <- copy_value t (attrValue a); Ok (VSlice (l ++ [v])))%go
  | _, _ => copy_value t (attrValue a)
  end.

Definition attr_matches (fi : fieldInfo) (a : Attr) : bool :=
  bool_decide (fi_mode fi = MAttr) && bool_decide (Local (attrName a) = fi_name fi) &&
  (bool_decide (fi_xmlns fi = "") || bool_decide (fi_xmlns fi = Space (attrName a))).

(** One attribute, offered to every field. *)
Fixpoint take_attr (a : Attr) (fs : list field) (infos : list (option fieldInfo)) (vs : list goval) : res unmarshal_error (list goval) :=
  match fs, infos, vs with
  | (_, t, _) :: fs', i :: infos', v :: vs' =>
      (try v' <- match i with Some fi => if attr_matches fi a then unmarshal_attr t v a else Ok v | None => Ok v end;
       try vs'' <- take_attr a fs' infos' vs';
       Ok (v' :: vs''))%go
  | _, _, _ => Ok []
  end.
Fixpoint take_attrs (l : list Attr) (fs : list field) (infos : list (option fieldInfo)) (vs : list goval) : res unmarshal_error (list goval) :=
  match l with [] => Ok vs | a :: l' => (try vs' <- take_attr a fs infos vs; take_attrs l' fs infos vs')%go end.

(** [unmarshalPath]: the field a child is for, below the path [parents]. *)
Inductive target := Perfect (i : nat) (t : gotype) | Below (parents : list string) | Nothing.
Fixpoint find_target (parents : list string) (name : Name) (k : nat) (fs : list field) (infos : list (option fieldInfo)) : target :=
  match fs, infos with
  | (_, t, _) :: fs', i :: infos' =>
      match i with
      | Some fi =>
          if negb (bool_decide (fi_mode fi = MElement)) || negb (bool_decide (fi_xmlns fi = "") || bool_decide (fi_xmlns fi = Space name))
             || negb (bool_decide (take (length parents) (fi_parents fi) = parents))
          then find_target parents name (S k) fs' infos'
          else match drop (length parents) (fi_parents fi) with
               | [] => if bool_decide (fi_name fi = Local name) then Perfect k t else find_target parents name (S k) fs' infos'
               | p :: _ => if bool_decide (p = Local name) then Below (parents ++ [p]) else find_target parents name (S k) fs' infos'
               end
      | None => find_target parents name (S k) fs' infos'
      end
  | _, _ => Nothing
  end.

(** The children of an element, given to the fields below [parents]. *)
Section Loop.
Context (un : node → gotype → goval → res unmarshal_error goval).
Context (path : node → list string → list goval → res unmarshal_error (list goval)).
Context (ns : string) (fs : list field) (infos : list (option fieldInfo)) (parents : list string).

Definition child_step (c : node) (vs : list goval) : res unmarshal_error (list goval) :=
  match c with
  | Elem name attrs _ =>
      match find_target parents (read_name ns name attrs) 0 fs infos with
      | Perfect i t => match vs !! i with
                       | Some v => (try v' <- un c t v; Ok (<[i := v']> vs))%go
                       | None => Err EType
                       end
      | Below ps => path c ps vs
      | Nothing => Ok vs
      end
  | _ => Ok vs
  end.
Fixpoint children (cs : list node) (vs : list goval) : res unmarshal_error (list goval) :=
  match cs with [] => Ok vs | c :: cs' => (try vs' <- child_step c vs; children cs' vs')%go end.
End Loop.

(** What the name, the character data and the raw content of an element set. *)
Definition has_mode (m : mode) (i : option fieldInfo) : bool :=
  match i with Some fi => bool_decide (fi_mode fi = m) | None => false end.
Fixpoint set_raw (l : list node) (infos : list (option fieldInfo)) (vs : list goval) : list goval :=
  match infos, vs with
  | i :: infos', v :: vs' => if has_mode MInnerXML i then VRaw l :: vs' else v :: set_raw l infos' vs'
  | _, _ => vs
  end.
Fixpoint set_text (s : string) (fs : list field) (infos : list (option fieldInfo)) (vs : list goval) : res unmarshal_error (list goval) :=
  match fs, infos, vs with
  | (_, t, _) :: fs', i :: infos', v :: vs' =>
      if has_mode MCharData i then (try x <- copy_value t s; Ok (x :: vs'))%go
      else (try r <- set_text s fs' infos' vs'; Ok (v :: r))%go
  | _, _, _ => Ok vs
  end.
Fixpoint set_name (x : Name) (fs : list field) (vs : list goval) : list goval :=
  match fs, vs with
  | f :: fs', v :: vs' => if is_XMLName f.1.1 then VName x :: vs' else v :: set_name x fs' vs'
  | _, _ => vs
  end.
Definition name_accepted (fs : list field) (name : Name) : bool :=
  match xmlname fs with
  | Some (Some x) => (bool_decide (fi_name x = "") || bool_decide (fi_name x = Local name)) &&
                     (bool_decide (fi_xmlns x = "") || bool_decide (fi_xmlns x = Space name))
  | _ => true
  end.
Definition is_ptr (t : gotype) : bool := match t with TPtr _ => true | _ => false end.

Fixpoint unmarshal (n : node) (ns : string) (t : gotype) (cur : goval) {struct n} : res unmarshal_error goval :=
  match n with
  | Elem name attrs cs =>
      let ns' := inner_space ns name attrs in
      (fix into (t : gotype) (cur : goval) {struct t} : res unmarshal_error goval :=
         match t, cur with
         | TPtr t, VPtr o => if is_ptr t then Err EType
                             else (try v <- into t (default (zero t) o); Ok (VPtr (Some v)))%go
         | TSlice t, VSlice l => (try v <- into t (zero t); Ok (VSlice (l ++ [v])))%go
         | TName, _ => Ok (VName (read_name ns name attrs))
         | TStruct n fs, VStruct vs =>
             match getTypeInfo n fs with
             | None => Err EType
             | Some infos =>
                 if negb (name_accepted fs (read_name ns name attrs)) then Err EName
                 else
                   (try vs <- take_attrs (read_attrs name attrs) fs infos (set_name (read_name ns name attrs) fs vs);
                    try vs <- children (λ c t v, unmarshal c ns' t v) (λ c ps vs, unmarshal_path c ns' fs infos ps vs)
                                ns' fs infos [] cs vs;
                    try vs <- set_text (chardata cs) fs infos vs;
                    Ok (VStruct (set_raw cs infos vs)))%go
             end
         | _, _ => copy_value t (chardata cs)
         end) t cur
  | _ => Err ESyntax
  end
with unmarshal_path (n : node) (ns : string) (fs : list field) (infos : list (option fieldInfo)) (parents : list string)
       (vs : list goval) {struct n} : res unmarshal_error (list goval) :=
  match n with
  | Elem name attrs cs =>
      let ns' := inner_space ns name attrs in
      children (λ c t v, unmarshal c ns' t v) (λ c ps vs, unmarshal_path c ns' fs infos ps vs) ns' fs infos parents cs vs
  | _ => Ok vs
  end.

(** [xml.Unmarshal] into a new value: the first element is decoded. *)
Definition Unmarshal (t : gotype) (ns : string) (l : list node) : res unmarshal_error goval :=
  match first_element l with Some n => unmarshal n ns t (zero t) | None => Err ESyntax end.

(** ** Types whose data survives *)

Definition is_simple (t : gotype) : bool := match t with TString | TBool | TInt _ | TUint _ => true | _ => false end.
Definition is_struct (t : gotype) : bool := match t with TStruct _ _ => true | _ => false end.
Definition plain (s : string) : bool := negb (bool_decide (s = "")) && negb (has_byte ":" s).

(** The struct behind a field is written with a name the field is found by. *)
Fixpoint name_fits (fi : fieldInfo) (t : gotype) : bool :=
  match t with
  | TPtr t | TSlice t => name_fits fi t
  | TStruct _ fs =>
      match xmlname fs with
      | Some (Some x) => bool_decide (fi_name x = fi_name fi) && (bool_decide (fi_xmlns fi = "") || bool_decide (fi_xmlns x = fi_xmlns fi))
      | Some None => false
      | None => true
      end
  | _ => true
  end.

Definition attr_type (t : gotype) : bool := match t with TPtr t => is_simple t | t => is_simple t end.
Definition slot_ok (f : field) (i : option fieldInfo) : bool :=
  match i with
  | None => is_XMLName f.1.1 && match f.1.2 with TName => true | _ => false end
  | Some fi =>
      negb (is_XMLName f.1.1) &&
      match fi_mode fi with
      | MAttr => bool_decide (fi_parents fi = []) && bool_decide (fi_xmlns fi = "") && plain (fi_name fi) && negb (bool_decide (fi_name fi = "xmlns")) && attr_type f.1.2
      | MCharData => match f.1.2 with TString => true | _ => false end
      | MInnerXML => match f.1.2 with TBytes => true | _ => false end
      | MElement =>
          plain (fi_name fi) && name_fits fi f.1.2 &&
          match fi_parents fi with
          | [] => true
          | [p] => plain p && bool_decide (fi_xmlns fi = "") && match f.1.2 with TSlice _ => true | _ => false end
          | _ => false
          end
      end
  end.

Definition names_of (m : mode) (infos : list (option fieldInfo)) : list string :=
  omap (λ i, match i with
             | Some fi => if bool_decide (fi_mode fi = m) then Some (default (fi_name fi) (head (fi_parents fi))) else None
             | None => None
             end) infos.

Definition struct_ok (fs : list field) (infos : list (option fieldInfo)) : bool :=
  forallb (λ fi : field * option fieldInfo, slot_ok fi.1 fi.2) (zip fs infos) &&
  match xmlname fs with Some (Some x) => plain (fi_name x) | Some None => false | None => true end &&
  (length (filter (λ f : field, is_XMLName f.1.1 = true) fs) <=? 1)%nat &&
  bool_decide (NoDup (names_of MAttr infos)) && bool_decide (NoDup (names_of MElement infos)) &&
  (length (names_of MCharData infos) <=? 1)%nat &&
  match names_of MInnerXML infos with
  | [] => true
  | [_] => bool_decide (names_of MElement infos = []) && bool_decide (names_of MCharData infos = [])
  | _ => false
  end.

(** Every field is mapped, no two are written alike, and what is written for a field
    is found by that field. *)
Section Slots.
Context (ok : gotype → bool).
Fixpoint element_types (fs : list field) (infos : list (option fieldInfo)) : bool :=
  match fs, infos with
  | (_, t, _) :: fs', i :: infos' => (if has_mode MElement i then ok t else true) && element_types fs' infos'
  | _, _ => true
  end.
End Slots.
Definition one_layer (t : gotype) : bool := match t with TPtr _ | TSlice _ => false | _ => true end.
Fixpoint faithful (t : gotype) : bool :=
  match t with
  | TString | TBool | TInt _ | TUint _ => true
  | TBytes | TName => false
  | TPtr t | TSlice t => one_layer t && faithful t
  | TStruct n fs =>
      match getTypeInfo n fs with
      | Some infos => struct_ok fs infos && element_types faithful fs infos
      | None => false
      end
  end.

(** Values of a type, except that [omitempty] would drop the empty texts of a list. *)
Definition no_dropped (fi : fieldInfo) (v : goval) : bool :=
  match v with VSlice l => negb (fi_omit fi) || forallb (λ x, negb (is_empty x)) l | _ => true end.
Section ValueSlots.
Context (ok : gotype → goval → bool).
Fixpoint slots_ok (fs : list field) (infos : list (option fieldInfo)) (vs : list goval) : bool :=
  match fs, infos, vs with
  | [], [], [] => true
  | (_, t, _) :: fs', i :: infos', v :: vs' =>
      match i with
      | Some fi => if bool_decide (fi_mode fi = MElement) then ok t v && no_dropped fi v else has_type t v
      | None => has_type t v
      end && slots_ok fs' infos' vs'
  | _, _, _ => false
  end.
End ValueSlots.
Fixpoint value_ok (t : gotype) (v : goval) : bool :=
  match t, v with
  | TPtr _, VPtr None => true
  | TPtr t, VPtr (Some v) => value_ok t v
  | TSlice t, VSlice l => forallb (value_ok t) l
  | TStruct n fs, VStruct vs => match getTypeInfo n fs with Some infos => slots_ok value_ok fs infos vs | None => false end
  | _, _ => has_type t v
  end.

(** The value that is read back: the same, with the names that were read. *)
Definition own_space (ns xns : string) (fs : list field) : string :=
  let s := match xmlname fs with Some (Some x) => fi_xmlns x | _ => xns end in
  if bool_decide (s = "") then ns else s.
Definition own_local (fs : list field) : string := match xmlname fs with Some (Some x) => fi_name x | _ => "" end.
Section FillSlots.
Context (fill : string → gotype → goval → goval) (name : Name).
(** The fields of the modes [ms] are filled in, the others still zero. *)
Definition staged_slot (ms : list mode) (t : gotype) (i : option fieldInfo) (v : goval) : goval :=
  match i with
  | None => VName name
  | Some fi => if bool_decide (fi_mode fi ∈ ms)
               then (if bool_decide (fi_mode fi = MElement) then fill (fi_xmlns fi) t v else v)
               else zero t
  end.
Fixpoint staged (ms : list mode) (fs : list field) (infos : list (option fieldInfo)) (vs : list goval) : list goval :=
  match fs, infos, vs with
  | (_, t, _) :: fs', i :: infos', v :: vs' => staged_slot ms t i v :: staged ms fs' infos' vs'
  | _, _, _ => []
  end.
End FillSlots.
Definition all_modes := [MInnerXML; MCharData; MElement; MAttr].
Fixpoint fill (ns xns : string) (t : gotype) (v : goval) : goval :=
  match t, v with
  | TPtr t, VPtr (Some v) => VPtr (Some (fill ns xns t v))
  | TSlice t, VSlice l => VSlice (fill ns xns t <$> l)
  | TStruct n fs, VStruct vs =>
      match getTypeInfo n fs with
      | Some infos =>
          let space := own_space ns xns fs in
          VStruct (staged (λ xns t v, fill space xns t v) (mkName space (own_local fs)) all_modes fs infos vs)
      | None => v
      end
  | _, _ => v
  end.
