(* ===== verification/XmlRoundtrip.v ===== *)
(** * What [xml.Marshal] writes, [xml.Unmarshal] reads

    The round trip of the struct codec of [XmlStruct]: for every type that is [faithful]
    and every value [omitempty] does not cut, writing and reading gives the value back,
    with its [XMLName] fields set to the names that were read ([fill]); the data is the
    same ([strip_fill]). *)

From Stdlib Require Import Ascii String ZArith.
From S2P Require Import Prelude GoStrings GoNumbers Xml XmlStruct.

Open Scope string_scope.
Open Scope list_scope.

(** ** Equations *)

Section Equations.
Context (name : Name) (attrs : list Attr) (cs : list node) (ns : string).
Lemma unmarshal_ptr t o : one_layer t = true →
  unmarshal (Elem name attrs cs) ns (TPtr t) (VPtr o) =
  (try v <- unmarshal (Elem name attrs cs) ns t (default (zero t) o); Ok (VPtr (Some v)))%go.
Proof. by destruct t. Qed.
Lemma unmarshal_slice t l :
  unmarshal (Elem name attrs cs) ns (TSlice t) (VSlice l) =
  (try v <- unmarshal (Elem name attrs cs) ns t (zero t); Ok (VSlice (l ++ [v])))%go.
Proof. done. Qed.
Lemma unmarshal_simple t cur : is_simple t = true →
  unmarshal (Elem name attrs cs) ns t cur = copy_simple t (chardata cs).
Proof. by destruct t. Qed.
Lemma unmarshal_struct n fs infos vs : getTypeInfo n fs = Some infos →
  name_accepted fs (read_name ns name attrs) = true →
  unmarshal (Elem name attrs cs) ns (TStruct n fs) (VStruct vs) =
  (let ns' := inner_space ns name attrs in
   try vs <- take_attrs (read_attrs name attrs) fs infos (set_name (read_name ns name attrs) fs vs);
   try vs <- children (λ c t v, unmarshal c ns' t v) (λ c ps vs, unmarshal_path c ns' fs infos ps vs) ns' fs infos [] cs vs;
   try vs <- set_text (chardata cs) fs infos vs;
   Ok (VStruct (set_raw cs infos vs)))%go.
Proof. intros Hi Hn. cbn [unmarshal]. rewrite Hi, Hn. done. Qed.
End Equations.

Lemma zero_struct n fs : zero (TStruct n fs) = VStruct ((λ f : field, zero f.1.2) <$> fs).
Proof. cbn. f_equal. induction fs as [|[[x t] tag] fs IH]; [done|]. cbn. by f_equal. Qed.

Lemma has_type_struct n fs vs : has_type (TStruct n fs) (VStruct vs) = true → length vs = length fs.
Proof.
  cbn. revert vs. induction fs as [|[[x t] tag] fs IH]; intros [|v vs]; try done. cbn. intros [_ H]%andb_true_iff. f_equal. by apply IH.
Qed.

Lemma marshal_check t fi up v :
  marshal_value t true (Some fi) up v = if omitted fi v then Some [] else marshal_value t false (Some fi) up v.
Proof. destruct t; cbn; by case_match. Qed.

(** ** Texts *)

Lemma chardata_written s : chardata (if bool_decide (s = "") then [] else [Text s]) = s.
Proof. case_bool_decide; [by subst|]. cbn. apply str_app_nil_r. Qed.

(** A simple value is written as a text that is read back. *)
Lemma simple_roundtrip t v : is_simple t = true → has_type t v = true →
  ∃ s, simple_text t v = Some s ∧ copy_simple t s = Ok v.
Proof.
  intros Ht Hv. destruct t, v; try done; cbn in *.
  - by eexists.
  - eexists. split; [done|]. rewrite bool_decide_false by (by destruct b). by rewrite ParseBool_FormatBool.
  - eexists. split; [done|]. rewrite bool_decide_false by apply FormatInt_nonempty.
    by rewrite TrimSpace_FormatInt, ParseInt_FormatInt.
  - eexists. split; [done|]. rewrite bool_decide_false by apply FormatInt_nonempty.
    by rewrite TrimSpace_FormatInt, ParseUint_FormatInt.
Qed.

Lemma simple_fill ns xns t v : is_simple t = true → fill ns xns t v = v.
Proof. by destruct t. Qed.

(** An empty value is the zero value. *)
Lemma empty_zero t v : is_empty v = true → has_type t v = true → is_struct t = false → v = zero t.
Proof.
  destruct t, v as [s|b'|z|l|nm|o|l|l]; try done; cbn; intros He Ht _.
  - by apply bool_decide_eq_true in He as ->.
  - by destruct b'.
  - by apply Z.eqb_eq in He as ->.
  - by apply Z.eqb_eq in He as ->.
  - by destruct l.
  - by destruct o.
  - by destruct l.
Qed.

(** ** Slots: a field, what its tag says, its value *)

(** The element written for a field is the one the field is found by. *)
Definition carries (ns : string) (fi : fieldInfo) (n : node) : Prop :=
  ∃ name attrs cs, n = Elem name attrs cs ∧ Local name = fi_name fi ∧
                   (fi_xmlns fi = "" ∨ inner_space ns name attrs = fi_xmlns fi).

Definition single (t : gotype) : Prop := ∀ fi ns up v,
  name_fits fi t = true → value_ok t v = true →
  ∃ n, marshal_value t false (Some fi) up v = Some [n] ∧ carries ns fi n ∧
       unmarshal n ns t (zero t) = Ok (fill ns (fi_xmlns fi) t v).
Definition core (t : gotype) : gotype := match t with TPtr t | TSlice t => t | t => t end.

Record slot_fine (f : field) (i : option fieldInfo) (v : goval) : Prop := {
  sf_slot : slot_ok f i = true;
  sf_type : has_mode MElement i = false → has_type f.1.2 v = true;
  sf_value : has_mode MElement i = true → value_ok f.1.2 v = true ∧ faithful f.1.2 = true ∧ single (core f.1.2);
  sf_kept : ∀ fi, i = Some fi → fi_mode fi = MElement → no_dropped fi v = true }.
Notation fine := (Forall3 slot_fine).

Lemma fine_length fs infos vs : fine fs infos vs → length fs = length infos ∧ length fs = length vs.
Proof. induction 1; cbn; lia. Qed.

(** The names of the mode [m] in a list with one slot singled out. *)
Lemma names_of_app m a b : names_of m (a ++ b) = names_of m a ++ names_of m b.
Proof. apply omap_app. Qed.
Lemma names_of_cons m i l : names_of m (i :: l) = names_of m [i] ++ names_of m l.
Proof. apply (names_of_app m [i] l). Qed.
Definition key (fi : fieldInfo) : string := default (fi_name fi) (head (fi_parents fi)).
Lemma names_of_here m fi : fi_mode fi = m → names_of m [Some fi] = [key fi].
Proof. intros H. cbn. by rewrite bool_decide_true. Qed.
Lemma names_of_elem m fi l : Some fi ∈ l → fi_mode fi = m → key fi ∈ names_of m l.
Proof. intros H1 H2. apply list_elem_of_omap. exists (Some fi). split; [done|]. by rewrite bool_decide_true. Qed.

(** In a list without repeated names, the other slots have other names. *)
Lemma other_names m pi fi js fi' : NoDup (names_of m (pi ++ Some fi :: js)) → fi_mode fi = m →
  Some fi' ∈ pi ++ js → fi_mode fi' = m → key fi' ≠ key fi.
Proof.
  rewrite names_of_app, names_of_cons. intros Hn Hm Hin Hm' He.
  rewrite (names_of_here m fi Hm), NoDup_app in Hn. destruct Hn as (_ & H1 & H2).
  apply elem_of_app in Hin as [Hin|Hin]; apply (names_of_elem m) in Hin; try done; rewrite He in Hin.
  - apply (H1 _ Hin). by left.
  - apply NoDup_cons in H2 as [H2 _]. done.
Qed.

(** ** Attributes *)

Lemma take_attr_other a fs infos vs :
  length fs = length infos → length fs = length vs → (∀ fi, Some fi ∈ infos → attr_matches fi a = false) →
  take_attr a fs infos vs = Ok vs.
Proof.
  revert infos vs. induction fs as [|[[x t] tag] fs IH]; intros [|i js] [|v vs]; try done. cbn. intros Hi Hv Hm.
  rewrite IH; [|lia|lia|intros fi Hfi; apply Hm; by right].
  destruct i as [fi|]; [|done]. by rewrite (Hm fi) by (by left).
Qed.

Lemma take_attr_at a pf pi pv f fi c fs js vs v' :
  length pf = length pi → length pf = length pv → length fs = length js → length fs = length vs →
  (∀ fi', Some fi' ∈ pi ++ js → attr_matches fi' a = false) → attr_matches fi a = true → unmarshal_attr f.1.2 c a = Ok v' →
  take_attr a (pf ++ f :: fs) (pi ++ Some fi :: js) (pv ++ c :: vs) = Ok (pv ++ v' :: vs).
Proof.
  intros H1 H2 H3 H4 Ho Hm Hu. revert pi pv H1 H2 Ho. induction pf as [|[[x t] tag] pf IH]; intros [|i pi] [|p pv]; try done; cbn; intros H1 H2 Ho.
  - destruct f as [[x t] tag]. cbn in *. rewrite Hm, Hu. cbn. by rewrite take_attr_other.
  - rewrite IH; [|lia|lia|intros fi' Hfi; apply Ho; by right].
    destruct i as [fi'|]; [|done]. by rewrite (Ho fi') by (by left).
Qed.

Lemma attr_roundtrip t nm v : attr_type t = true → has_type t v = true →
  (marshal_attr t nm v = Some [] ∧ v = zero t) ∨
  ∃ s, marshal_attr t nm v = Some [mkAttr nm s] ∧ ∀ a, attrValue a = s → unmarshal_attr t (zero t) a = Ok v.
Proof.
  intros Ha Hv.
  assert (∀ t v, is_simple t = true → has_type t v = true →
            ∃ s, marshal_attr t nm v = Some [mkAttr nm s] ∧ copy_simple t s = Ok v) as Hs.
  { intros t' v' Ht Hv'. destruct (simple_roundtrip t' v' Ht Hv') as (s & H1 & H2). exists s.
    destruct t'; try done; cbn in *; rewrite H1; eauto. }
  destruct t as [| | | | | |t|t|n fs]; try done.
  1-4: right; destruct (Hs _ v ltac:(exact Ha) Hv) as (s & H1 & H2); exists s; split; [done|]; intros a <-; exact H2.
  destruct v as [| | | | |[v|]| |]; try done; [right|by left]. cbn [attr_type has_type] in *.
  destruct (Hs t v Ha Hv) as (s & H1 & H2). exists s. split; [done|]. intros a <-. cbn. by rewrite H2.
Qed.

Lemma plain_ne s : plain s = true → s ≠ "".
Proof. unfold plain. rewrite andb_true_iff, !negb_true_iff. intros [H _]. by apply bool_decide_eq_false in H. Qed.
Lemma read_attr_plain s v : plain s = true → read_attr (mkAttr (mkName "" s) v) = mkAttr (mkName "" s) v.
Proof. unfold plain, read_attr. rewrite andb_true_iff, !negb_true_iff. intros [_ H]. cbn. by rewrite Split_none. Qed.

(** ** The content of an element *)

Definition flat (e : entry) : list node :=
  match e with
  | EText s => if bool_decide (s = "") then [] else [Text s]
  | ERaw l => l
  | EElement ps _ l => foldr (λ p l, [Elem (mkName "" p) [] l]) l ps
  end.
Definition entry_fine (e : entry) : Prop :=
  match e with EText _ | EElement [] _ _ | EElement [_] true _ => True | _ => False end.
Definition paths (es : list entry) : list string :=
  omap (λ e, match e with EElement ps _ _ => head ps | _ => None end) es.

Lemma trim_none ps w : w_open w = [] → trim ps w = w.
Proof. intros E. unfold trim. rewrite E. done. Qed.
Lemma trim_other p q cs d : p ≠ q → trim [q] (mkContent [(p, cs)] d) = trim [] (mkContent [(p, cs)] d).
Proof. intros Hne. unfold trim, stack. cbn. by rewrite bool_decide_false by congruence. Qed.
Lemma trim_done p cs d : trim [] (mkContent [(p, cs)] d) = mkContent [] (d ++ [Elem (mkName "" p) [] cs]).
Proof. done. Qed.

(** At most one path element is open, and it is not used again. *)
Definition one_open (w : writer) (es : list entry) : Prop :=
  w_open w = [] ∨ ∃ p cs d, w = mkContent [(p, cs)] d ∧ p ∉ paths es.

Lemma trim_open w e es : one_open w (e :: es) → entry_fine e →
  trim (match e with EElement ps _ _ => ps | _ => [] end) w = trim [] w ∧ w_open (trim [] w) = [].
Proof.
  intros [Hw|(p & cs & d & -> & Hp)] He.
  - rewrite !trim_none by done. done.
  - split; [|done]. destruct e as [|l|[|q [|]] b l]; try done. destruct b; try done. apply trim_other. cbn in Hp. set_solver.
Qed.

Lemma assemble_from es w : Forall entry_fine es → NoDup (paths es) → one_open w es →
  w_done (trim [] (foldl put_entry w es)) = w_done (trim [] w) ++ concat (flat <$> es).
Proof.
  revert w. induction es as [|e es IH]; intros w Hf Hn Hw; [cbn; by rewrite app_nil_r|].
  apply Forall_cons in Hf as [He Hf]. destruct (trim_open w e es Hw He) as [Ht Ho]. cbn [foldl].
  set (w1 := trim [] w) in *. destruct e as [s|l|ps b l]; [|done|]; cbn [put_entry] in *.
  - fold w1. unfold emit. rewrite Ho. rewrite IH; [|done|done|by left]. rewrite trim_none by done. cbn. by rewrite <- app_assoc.
  - rewrite Ht. destruct ps as [|q [|]]; [| |done].
    + rewrite drop_nil. assert (emit l (if b then push [] w1 else w1) = mkContent [] (w_done w1 ++ l)) as ->.
      { unfold emit, push. destruct b; cbn; by rewrite Ho. }
      rewrite IH; [|done|done|by left]. rewrite trim_none by done. cbn. by rewrite <- app_assoc.
    + destruct b; [|done]. cbn in Hn. apply NoDup_cons in Hn as [Hq Hn]. rewrite Ho. cbn [length drop].
      assert (emit l (push [q] w1) = mkContent [(q, l)] (w_done w1)) as -> by (unfold emit, push; by rewrite Ho).
      rewrite IH; [|done|done|right; by eauto 10]. rewrite trim_done. cbn. by rewrite <- app_assoc.
Qed.

Lemma assemble_flat es : Forall entry_fine es → NoDup (paths es) → assemble es = concat (flat <$> es).
Proof. intros Hf Hn. unfold assemble. rewrite assemble_from; [done|done|done|by left]. Qed.
Lemma assemble_raw l : assemble [ERaw l] = l.
Proof. done. Qed.

(** ** Finding the field of an element *)

Definition passes (parents : list string) (name : Name) (fi : fieldInfo) : Prop :=
  ∀ f k fs js, find_target parents name k (f :: fs) (Some fi :: js) = find_target parents name (S k) fs js.

Lemma passes_mode parents name fi : fi_mode fi ≠ MElement → passes parents name fi.
Proof. intros Hm [[x t] tag] k fs js. cbn. by rewrite (bool_decide_false (fi_mode fi = _)). Qed.
Lemma passes_top name fi : key fi ≠ Local name → passes [] name fi.
Proof.
  unfold key. intros Hk [[x t] tag] k fs js. cbn. case_match; [done|]. rewrite !drop_0. destruct (fi_parents fi) as [|p ps]; cbn in Hk; by rewrite bool_decide_false.
Qed.
Lemma passes_below p name fi : key fi ≠ p ∨ fi_parents fi = [] → passes [p] name fi.
Proof.
  unfold key. intros Hk [[x t] tag] k fs js. cbn [find_target length]. rewrite (bool_decide_false (take 1 _ = _)); [by rewrite !orb_true_r|].
  destruct (fi_parents fi) as [|q ps]; cbn in *; [done|]. intros [= ->]. naive_solver.
Qed.

Lemma find_target_skip parents name k pf pi fs js : length pf = length pi →
  (∀ fi, Some fi ∈ pi → passes parents name fi) →
  find_target parents name k (pf ++ fs) (pi ++ js) = find_target parents name (k + length pf) fs js.
Proof.
  revert k pi. induction pf as [|f pf IH]; intros k [|i pi]; try done; cbn [app length]; [by rewrite Nat.add_0_r|]. intros Hl Hp.
  assert (find_target parents name (S k) (pf ++ fs) (pi ++ js) = find_target parents name (k + S (length pf)) fs js) as E.
  { rewrite IH; [f_equal; lia|lia|]. intros fi Hfi. apply Hp. by right. }
  destruct i as [fi|]; [rewrite (Hp fi) by (by left); exact E|]. destruct f as [[x t] tag]. exact E.
Qed.

Lemma find_target_here parents ns n fi f k fs js name attrs cs : n = Elem name attrs cs → carries ns fi n → fi_mode fi = MElement →
  fi_parents fi = parents → find_target parents (read_name ns name attrs) k (f :: fs) (Some fi :: js) = Perfect k f.1.2.
Proof.
  intros -> (nm' & a' & c' & [= <- <- <-] & Hl & Hx) Hm <-. destruct f as [[x t] tag]. cbn.
  rewrite (bool_decide_true (fi_mode fi = _)) by done. rewrite take_ge, drop_ge by done. cbn.
  rewrite (bool_decide_true (fi_parents fi = _)) by done. rewrite (bool_decide_true (fi_name fi = _)) by done.
  destruct Hx as [-> | ->]; [done|]. by rewrite (bool_decide_true (fi_xmlns fi = fi_xmlns fi)), orb_true_r.
Qed.

(** ** The elements of a field *)

Fixpoint decode_all (ns : string) (t : gotype) (l : list node) (cur : goval) : res unmarshal_error goval :=
  match l with [] => Ok cur | n :: l' => (try cur' <- unmarshal n ns t cur; decode_all ns t l' cur')%go end.

Lemma decode_slice ns t fi up l acc :
  single t → name_fits fi t = true → one_layer t = true → forallb (value_ok t) l = true → forallb (λ x, negb (omitted fi x)) l = true →
  ∃ nodes, mapM (marshal_value t true (Some fi) up) l = Some nodes ∧ Forall (carries ns fi) (concat nodes) ∧
           decode_all ns (TSlice t) (concat nodes) (VSlice acc) = Ok (VSlice (acc ++ (fill ns (fi_xmlns fi) t <$> l))).
Proof.
  intros Hs Hn Ho. revert acc. induction l as [|v l IH]; intros acc Hv Hd.
  { exists []. split; [done|]. split; [done|]. cbn. by rewrite app_nil_r. }
  cbn in Hv, Hd. apply andb_true_iff in Hv as [Hv Hvs], Hd as [Hd Hds]. apply negb_true_iff in Hd.
  destruct (Hs fi ns up v Hn Hv) as (n & Hm & Hc & Hu).
  destruct (IH (acc ++ [fill ns (fi_xmlns fi) t v]) Hvs Hds) as (nodes & H1 & H2 & H3). exists ([n] :: nodes).
  split; [cbn; by rewrite marshal_check, Hd, Hm, H1|]. split; [by apply Forall_cons|].
  destruct Hc as (nm & at_ & cs & -> & _). cbn [concat app decode_all]. rewrite unmarshal_slice, Hu. cbn. by rewrite H3, <- app_assoc.
Qed.

Lemma not_omitted fi l : no_dropped fi (VSlice l) = true → forallb (λ x, negb (omitted fi x)) l = true.
Proof.
  cbn. unfold omitted. destruct (fi_omit fi); cbn; [|intros _; by induction l]. done.
Qed.

Lemma field_roundtrip ns up t fi v :
  faithful t = true → single (core t) → name_fits fi t = true → value_ok t v = true → no_dropped fi v = true →
  ∃ nodes, marshal_value t true (Some fi) up v = Some nodes ∧ Forall (carries ns fi) nodes ∧
           decode_all ns t nodes (zero t) = Ok (fill ns (fi_xmlns fi) t v).
Proof.
  intros Hf Hs Hn Hv Hk. rewrite marshal_check.
  assert (one_layer t = true → omitted fi v = true → zero t = fill ns (fi_xmlns fi) t v) as Hz.
  { intros Hl Ho. unfold omitted in Ho. apply andb_true_iff in Ho as [_ Ho].
    destruct t; try done; [..|by destruct v]; rewrite simple_fill by done; symmetry; apply empty_zero; done || by destruct v. }
  assert (one_layer t = true → core t = t) as Hc by (by destruct t).
  destruct (one_layer t) eqn:Ho.
  { rewrite Hc in Hs by done. destruct (omitted fi v) eqn:Hom; [exists []; by rewrite <- Hz|].
    destruct (Hs fi ns up v Hn Hv) as (n & Hm & Hca & Hu). exists [n]. split; [done|]. split; [by apply Forall_singleton|].
    cbn [decode_all]. by rewrite Hu. }
  destruct t as [| | | | | |t|t|]; try done; cbn [faithful core] in *; apply andb_true_iff in Hf as [Hl Hf].
  - destruct v as [| | | | |[v|]| |]; try done.
    + destruct (Hs fi ns up v Hn Hv) as (n & Hm & Hca & Hu). exists [n]. unfold omitted. cbn [is_empty]. rewrite andb_false_r.
      split; [done|]. split; [by apply Forall_singleton|]. destruct Hca as (nm & at_ & cs & -> & _).
      cbn [decode_all zero]. rewrite unmarshal_ptr by done. cbn [default]. by rewrite Hu.
    + exists []. destruct (omitted fi _); done.
  - destruct v as [| | | | | |l|]; try done. destruct (omitted fi (VSlice l)) eqn:Hom.
    { unfold omitted in Hom. apply andb_true_iff in Hom as [_ He]. destruct l; [|done]. by exists []. }
    destruct (decode_slice ns t fi up l [] Hs Hn Hl Hv (not_omitted fi l Hk)) as (nodes & H1 & H2 & H3).
    exists (concat nodes). cbn [marshal_value andb]. by rewrite H1.
Qed.

(** ** The children of an element *)

Section Children.
Context (ns : string) (fs : list field) (infos : list (option fieldInfo)).
Notation below := (children (λ c t v, unmarshal c ns t v) (λ c ps vs, unmarshal_path c ns fs infos ps vs) ns fs infos).

Lemma children_app parents l k vs :
  below parents (l ++ k) vs = (try vs' <- below parents l vs; below parents k vs')%go.
Proof.
  revert vs. induction l as [|c l IH]; intros vs; [done|]. cbn. destruct (child_step _ _ _ _ _ _ c vs) as [vs'| |]; cbn; [apply IH|done|done].
Qed.

Lemma insert_middle {A} (l k : list A) x y : <[length l := y]> (l ++ x :: k) = l ++ y :: k.
Proof. rewrite insert_app_r_alt by lia. by rewrite Nat.sub_diag. Qed.

(** The elements of a field, at the field. *)
Lemma children_field parents fi f pf pi pv c vs v' nodes :
  length pf = length pi → length pf = length pv → (∃ fs' js, fs = pf ++ f :: fs' ∧ infos = pi ++ Some fi :: js) →
  fi_mode fi = MElement → fi_parents fi = parents → Forall (carries ns fi) nodes →
  (∀ name fi', Local name = fi_name fi → Some fi' ∈ pi → passes parents name fi') →
  decode_all ns f.1.2 nodes c = Ok v' → below parents nodes (pv ++ c :: vs) = Ok (pv ++ v' :: vs).
Proof.
  intros H1 H2 (fs' & js & Ef & Ei) Hm Hp Hc Hpass. revert c. induction Hc as [|n nodes Hn Hc IH]; intros c; [by intros [= ->]|].
  cbn [decode_all]. destruct (unmarshal n ns f.1.2 c) as [c'| |] eqn:Eu; try done. cbn. intros Hd.
  destruct Hn as (name & attrs & cs & En & Hl & Hx) eqn:Ehn. cbn [children]. subst n. cbn [child_step].
  assert (find_target parents (read_name ns name attrs) 0 fs infos = Perfect (length pf) f.1.2) as ->.
  { rewrite Ef, Ei, find_target_skip; [|done|intros; by apply Hpass]. by eapply find_target_here. }
  rewrite H2, list_lookup_middle by done. rewrite Eu. cbn. rewrite insert_middle. by apply IH.
Qed.

Lemma children_texts parents s vs : below parents (if bool_decide (s = "") then [] else [Text s]) vs = Ok vs.
Proof. by case_bool_decide. Qed.

(** Without element fields, nothing is looked at. *)
Lemma children_none l vs : (∀ fi, Some fi ∈ infos → fi_mode fi ≠ MElement) → below [] l vs = Ok vs.
Proof.
  intros Hn. assert (∀ name k, find_target [] name k fs infos = Nothing) as Hf.
  { intros name. clear vs l. revert fs Hn. induction infos as [|i js IH]; intros [|f fs'] Hn k; try done; [by destruct f as [[??]?]|].
    destruct i as [fi|].
    - rewrite passes_mode by (apply Hn; by left). apply IH. intros fi' ?. apply Hn. by right.
    - destruct f as [[??]?]. cbn. apply IH. intros fi' ?. apply Hn. by right. }
  induction l as [|[name attrs cs|s|] l IH]; [done|..]; cbn; rewrite ?Hf; exact IH.
Qed.
End Children.

(** ** The stages of reading a struct *)

Section Stages.
Context (fl : string → gotype → goval → goval) (nm : Name).
Notation st := (staged fl nm).
Notation slot := (staged_slot fl nm).

Lemma staged_length ms fs infos vs : length fs = length infos → length fs = length vs → length (st ms fs infos vs) = length fs.
Proof. revert infos vs. induction fs as [|[[x t] tag] fs IH]; intros [|i js] [|v vs]; try done. cbn. intros. by rewrite IH by lia. Qed.
Lemma slot_in ms t fi v : fi_mode fi ∈ ms → fi_mode fi ≠ MElement → slot ms t (Some fi) v = v.
Proof. intros. cbn. rewrite bool_decide_true by done. by rewrite bool_decide_false. Qed.
Lemma slot_element ms t fi v : fi_mode fi ∈ ms → fi_mode fi = MElement → slot ms t (Some fi) v = fl (fi_xmlns fi) t v.
Proof. intros. cbn. by rewrite !bool_decide_true. Qed.
Lemma slot_out ms t fi v : fi_mode fi ∉ ms → slot ms t (Some fi) v = zero t.
Proof. intros. cbn. by rewrite bool_decide_false. Qed.
Lemma slot_more m ms t i v : has_mode m i = false → slot (m :: ms) t i v = slot ms t i v.
Proof.
  destruct i as [fi|]; [|done]. cbn. intros H%bool_decide_eq_false.
  rewrite (bool_decide_ext (fi_mode fi ∈ m :: ms) (fi_mode fi ∈ ms)); [done|]. rewrite elem_of_cons. naive_solver.
Qed.

(** The attributes of a struct fill the attribute fields. *)
Definition reads_attrs pf pi pv fs infos vs l : Prop :=
  (∀ a, a ∈ l → attrName a ≠ mkName "" "xmlns") ∧
  take_attrs (read_attr <$> l) (pf ++ fs) (pi ++ infos) (pv ++ st [] fs infos vs) = Ok (pv ++ st [MAttr] fs infos vs).

Lemma attr_slot_fine f fi v : slot_fine f (Some fi) v → fi_mode fi = MAttr →
  key fi = fi_name fi ∧ fi_xmlns fi = "" ∧ plain (fi_name fi) = true ∧ fi_name fi ≠ "xmlns" ∧ attr_type f.1.2 = true ∧ has_type f.1.2 v = true.
Proof.
  intros Hs Hm. pose proof (sf_slot _ _ _ Hs) as Hok. cbn [slot_ok] in Hok. rewrite Hm in Hok.
  rewrite !andb_true_iff, !negb_true_iff, !bool_decide_eq_true, bool_decide_eq_false in Hok. destruct Hok as [_ [[[[Hp ?] ?] ?] ?]].
  repeat split; try done; [unfold key; by rewrite Hp|]. apply (sf_type _ _ _ Hs). cbn. by rewrite bool_decide_false by congruence.
Qed.

(** What a slot writes is nothing, and the value is the zero value, or an attribute
    that is read back. *)
Lemma attr_slot f fi v : slot_fine f (Some fi) v → fi_mode fi = MAttr →
  ((if negb (omitted fi v) then marshal_attr f.1.2 (mkName (fi_xmlns fi) (fi_name fi)) v else Some []) = Some [] ∧ v = zero f.1.2) ∨
  ∃ s, (if negb (omitted fi v) then marshal_attr f.1.2 (mkName (fi_xmlns fi) (fi_name fi)) v else Some []) = Some [mkAttr (mkName "" (fi_name fi)) s] ∧
       ∀ a, attrValue a = s → unmarshal_attr f.1.2 (zero f.1.2) a = Ok v.
Proof.
  intros Hs Hm. destruct (attr_slot_fine f fi v Hs Hm) as (_ & Hns & _ & _ & Hty & Hv).
  destruct (omitted fi v) eqn:Ho; cbn [negb].
  { left. split; [done|]. unfold omitted in Ho. apply andb_true_iff in Ho as [_ Ho]. apply empty_zero; [done|done|]. by destruct (f.1.2). }
  rewrite Hns. by apply attr_roundtrip.
Qed.

Lemma attrs_stage pf pi pv fs infos vs :
  length pf = length pi → length pf = length pv → fine fs infos vs → NoDup (names_of MAttr (pi ++ infos)) →
  (∀ fi, Some fi ∈ pi → fi_mode fi = MAttr → key fi = fi_name fi) →
  ∃ l, marshal_attrs fs infos vs = Some l ∧ reads_attrs pf pi pv fs infos vs l.
Proof.
  intros H1 H2 Hf. revert pf pi pv H1 H2. induction Hf as [|f i v fs infos vs Hs Hf IH]; intros pf pi pv H1 H2 Hn Hk.
  { exists []. split; [done|]. split; [by intros a Ha%not_elem_of_nil|done]. }
  destruct (fine_length _ _ _ Hf) as [L1 L2].
  assert (∀ c, ∃ l, marshal_attrs fs infos vs = Some l ∧ (∀ a, a ∈ l → attrName a ≠ mkName "" "xmlns") ∧
     take_attrs (read_attr <$> l) (pf ++ f :: fs) (pi ++ i :: infos) (pv ++ c :: st [] fs infos vs) =
     Ok (pv ++ c :: st [MAttr] fs infos vs)) as IH'.
  { intros c. destruct (IH (pf ++ [f]) (pi ++ [i]) (pv ++ [c])) as (l & E1 & E2 & E3).
    { rewrite !length_app; cbn; lia. } { rewrite !length_app; cbn; lia. } { by rewrite <- app_assoc. }
    { intros fi [?|Hin%list_elem_of_singleton]%elem_of_app Hm; [by eapply Hk|subst i; by eapply attr_slot_fine]. }
    exists l. split; [done|]. split; [done|]. by rewrite <- !app_assoc in E3. }
  destruct f as [[x t] tag]. destruct (has_mode MAttr i) eqn:Hm.
  2: { destruct (IH' (slot [] t i v)) as (l & Hl & Hx & Ht). exists l. split.
       - cbn. destruct i as [fi|]; cbn in *; [rewrite Hm|]; by rewrite Hl.
       - split; [done|]. cbn [staged]. by rewrite slot_more. }
  destruct i as [fi|]; [|done]. cbn in Hm. apply bool_decide_eq_true in Hm.
  destruct (attr_slot_fine _ _ _ Hs Hm) as (Hkey & Hns & Hpl & Hxm & _ & _).
  destruct (IH' v) as (l & Hl & Hx & Ht). unfold reads_attrs. cbn [staged marshal_attrs].
  rewrite (slot_in [MAttr]) by (rewrite Hm; by left || done). rewrite (slot_out []) by (by apply not_elem_of_nil). rewrite Hl.
  rewrite (bool_decide_true (fi_mode fi = MAttr)) by done. cbn [andb].
  destruct (attr_slot _ _ _ Hs Hm) as [[Ha Hz]|(s & Ha & Hu)]; cbn [fst snd] in *; rewrite Ha; [exists l; by rewrite <- Hz|].
  exists (mkAttr (mkName "" (fi_name fi)) s :: l). split; [done|]. split.
  { intros a [->|Ha']%elem_of_cons; [|by apply Hx]. cbn. by intros [= ?]. }
  cbn [fmap list_fmap take_attrs]. rewrite read_attr_plain by done. erewrite take_attr_at; [exact Ht|done|done|done|..].
  - by rewrite staged_length.
  - intros fi' Hin. unfold attr_matches. case_bool_decide as Hm'; [|done]. cbn. rewrite bool_decide_false; [done|].
    pose proof (other_names MAttr pi fi infos fi' Hn Hm Hin Hm') as Hne. rewrite <- Hkey. enough (key fi' = fi_name fi') by congruence.
    apply elem_of_app in Hin as [Hin|Hin]; [by eapply Hk|].
    apply list_elem_of_lookup in Hin as [j Hj]. destruct (Forall3_lookup_m _ _ _ _ _ _ Hf Hj) as (f' & v' & _ & _ & Hs'). by eapply attr_slot_fine.
  - unfold attr_matches. rewrite !bool_decide_true by done. done.
  - by apply Hu.
Qed.

(** The element fields. *)
Definition slot_text (i : option fieldInfo) (v : goval) : string :=
  match v with VString s => if has_mode MCharData i then s else "" | _ => "" end.
Fixpoint slot_texts (infos : list (option fieldInfo)) (vs : list goval) : string :=
  match infos, vs with i :: js, v :: vs' => slot_text i v +:+ slot_texts js vs' | _, _ => "" end.

Lemma chardata_app l k : chardata (l ++ k) = chardata l +:+ chardata k.
Proof. unfold chardata. induction l as [|[] l IH]; cbn; [done|exact IH|by rewrite IH, str_app_assoc|exact IH]. Qed.
Lemma chardata_elements ns fi l : Forall (carries ns fi) l → chardata l = "".
Proof. by induction 1 as [|n l (name & attrs & cs & -> & _) _ IH]. Qed.

End Stages.

Section Elements.
Context (sp : string) (nm : Name) (space : string) (FS : list field) (INFOS : list (option fieldInfo)).
Context (Hnames : NoDup (names_of MElement INFOS)).
Notation fl := (λ xns t v, fill sp xns t v).
Notation st := (staged fl nm).
Notation slot := (staged_slot fl nm).
Notation below := (children (λ c t v, unmarshal c sp t v) (λ c ps vs, unmarshal_path c sp FS INFOS ps vs) sp FS INFOS).
Notation entry_of := (entry_of (λ t fi up v, marshal_value t true fi up v) space).
Notation entries := (entries (λ t fi up v, marshal_value t true fi up v) space).

(** The entries [es] of slots with texts [s] turn the values [a] into [b]. *)
Record reads (es : list entry) (keys : list string) (s : string) (a b : list goval) : Prop := {
  rd_fine : Forall entry_fine es;
  rd_paths : paths es `sublist_of` keys;
  rd_text : chardata (concat (flat <$> es)) = s;
  rd_read : below [] (concat (flat <$> es)) a = Ok b }.

Lemma reads_app es es' k k' s s' a b c : reads es k s a b → reads es' k' s' b c → reads (es ++ es') (k ++ k') (s +:+ s') a c.
Proof.
  intros [F1 P1 T1 R1] [F2 P2 T2 R2]. split.
  - by apply Forall_app.
  - unfold paths. rewrite omap_app. by apply sublist_app.
  - by rewrite fmap_app, concat_app, chardata_app, T1, T2.
  - by rewrite fmap_app, concat_app, children_app, R1.
Qed.
Lemma reads_nil k a : reads [] k "" a a.
Proof. split; [done|apply sublist_nil_l|done|done]. Qed.

Lemma element_slot_fine f fi v : slot_fine f (Some fi) v → fi_mode fi = MElement →
  name_fits fi f.1.2 = true ∧
  (fi_parents fi = [] ∨ ∃ p, fi_parents fi = [p] ∧ fi_xmlns fi = "" ∧ match v with VPtr None => False | _ => True end).
Proof.
  intros Hs Hm. pose proof (sf_slot _ _ _ Hs) as Hok. cbn [slot_ok] in Hok. rewrite Hm in Hok. rewrite !andb_true_iff in Hok.
  destruct Hok as [_ [[_ Hf] Hp]]. split; [done|]. destruct (fi_parents fi) as [|p [|]]; [by left| |done]. right. exists p. split; [done|].
  rewrite !andb_true_iff, bool_decide_eq_true in Hp. destruct Hp as [[_ ?] Hp]. split; [done|].
  assert (has_mode MElement (Some fi) = true) as He by (cbn; by rewrite bool_decide_true).
  destruct (sf_value _ _ _ Hs He) as [Hv _]. by destruct (f.1.2), v as [| | | | |[]| |].
Qed.

(** A slot with the elements written for it. *)
Lemma element_slot pf pi pv f fi v fs' js rest :
  length pf = length pi → length pf = length pv → FS = pf ++ f :: fs' → INFOS = pi ++ Some fi :: js →
  slot_fine f (Some fi) v → fi_mode fi = MElement →
  ∃ es, entry_of f.1.2 (Some fi) v = Some es ∧ reads es [key fi] "" (pv ++ zero f.1.2 :: rest) (pv ++ fill sp (fi_xmlns fi) f.1.2 v :: rest).
Proof.
  intros H1 H2 Ef Ei Hs Hm. assert (has_mode MElement (Some fi) = true) as He by (cbn; by rewrite bool_decide_true).
  destruct (sf_value _ _ _ Hs He) as (Hv & Hf & Hsi). destruct (element_slot_fine _ _ _ Hs Hm) as [Hn Hp].
  destruct (field_roundtrip sp (if bool_decide (fi_parents fi = []) then space else "") f.1.2 fi v Hf Hsi Hn Hv (sf_kept _ _ _ Hs fi eq_refl Hm))
    as (nodes & Hmv & Hc & Hd).
  unfold XmlStruct.entry_of. rewrite Hm, Hmv. eexists. split; [done|].
  assert (∀ fi', Some fi' ∈ pi → fi_mode fi' = MElement → key fi' ≠ key fi) as Hk.
  { intros fi' Hin. apply (other_names MElement pi fi js fi'); [by rewrite <- Ei|done|apply elem_of_app; by left]. }
  destruct Hp as [Hp|(p & Hp & Hx & Hpr)].
  - assert (key fi = fi_name fi) as Hkey by (unfold key; by rewrite Hp). rewrite Hp. split; cbn; rewrite ?app_nil_r.
    + by repeat constructor.
    + apply sublist_nil_l.
    + by eapply chardata_elements.
    + eapply children_field; [done|done|by eauto|done|done|done| |done].
      intros name fi' Hl Hin. destruct (decide (fi_mode fi' = MElement)) as [Hm'|Hm']; [|by apply passes_mode].
      apply passes_top. rewrite Hl, <- Hkey. by apply Hk.
  - assert (key fi = p) as Hkey by (unfold key; by rewrite Hp). rewrite Hp, Hkey.
    assert (match v with VPtr None => false | _ => true end = true) as -> by (by destruct v as [| | | | |[]| |]).
    split; [by repeat constructor|done|done|]. cbn [fmap list_fmap flat foldr concat app children child_step].
    assert (find_target [] (read_name sp (mkName "" p) []) 0 FS INFOS = Below [p]) as ->.
    { rewrite Ef, Ei, find_target_skip; [|done|].
      - destruct f as [[x t] tag]. cbn. rewrite (bool_decide_true (fi_mode fi = _)), (bool_decide_true (fi_xmlns fi = _)) by done. cbn.
        rewrite Hp. cbn. by rewrite !bool_decide_true.
      - intros fi' Hin. destruct (decide (fi_mode fi' = MElement)) as [Hm'|Hm']; [|by apply passes_mode].
        apply passes_top. cbn. rewrite <- Hkey. by apply Hk. }
    cbn [unmarshal_path]. change (inner_space sp (mkName "" p) []) with sp.
    erewrite (children_field sp FS INFOS [p] fi f pf pi pv); [done|done|done|by eauto|done|done|done| |done].
    intros name fi' _ Hin. destruct (decide (fi_mode fi' = MElement)) as [Hm'|Hm']; [|by apply passes_mode].
    apply passes_below. left. rewrite <- Hkey. by apply Hk.
Qed.

Lemma text_slot f fi v a : slot_fine f (Some fi) v → fi_mode fi = MCharData →
  ∃ es, entry_of f.1.2 (Some fi) v = Some es ∧ reads es [] (slot_text (Some fi) v) a a.
Proof.
  intros Hs Hm. pose proof (sf_slot _ _ _ Hs) as Hok. cbn [slot_ok] in Hok. rewrite Hm in Hok. apply andb_true_iff in Hok as [_ Hok].
  assert (has_type f.1.2 v = true) as Hv by (apply (sf_type _ _ _ Hs); cbn; by rewrite bool_decide_false by congruence).
  unfold XmlStruct.entry_of. rewrite Hm. destruct (f.1.2), v; try done. cbn. eexists. split; [done|].
  split; cbn; rewrite ?app_nil_r; [by repeat constructor|done| |by apply children_texts].
  rewrite (bool_decide_true (fi_mode fi = _)) by done. apply chardata_written.
Qed.

Lemma elements_stage pf pi pv fs infos vs :
  length pf = length pi → length pf = length pv → FS = pf ++ fs → INFOS = pi ++ infos →
  fine fs infos vs → (∀ fi, Some fi ∈ infos → fi_mode fi ≠ MInnerXML) →
  ∃ es, entries fs infos vs = Some es ∧
        reads es (names_of MElement infos) (slot_texts infos vs) (pv ++ st [MAttr] fs infos vs) (pv ++ st [MElement; MAttr] fs infos vs).
Proof.
  intros H1 H2 Ef Ei Hf. revert pf pi pv H1 H2 Ef Ei. induction Hf as [|f i v fs infos vs Hs Hf IH]; intros pf pi pv H1 H2 Ef Ei Hr.
  { exists []. split; [done|]. apply reads_nil. }
  assert (∀ c, ∃ es, entries fs infos vs = Some es ∧
     reads es (names_of MElement infos) (slot_texts infos vs) (pv ++ c :: st [MAttr] fs infos vs) (pv ++ c :: st [MElement; MAttr] fs infos vs)) as IH'.
  { intros c. destruct (IH (pf ++ [f]) (pi ++ [i]) (pv ++ [c])) as (es & E1 & E2).
    { rewrite !length_app; cbn; lia. } { rewrite !length_app; cbn; lia. } { by rewrite <- app_assoc. } { by rewrite <- app_assoc. }
    { intros fi Hin. apply Hr. by right. } rewrite <- !app_assoc in E2. eauto. }
  destruct (IH' (slot [MElement; MAttr] f.1.2 i v)) as (es & He & Hes).
  assert (∃ es0, entry_of f.1.2 i v = Some es0 ∧
     reads es0 (names_of MElement [i]) (slot_text i v) (pv ++ slot [MAttr] f.1.2 i v :: st [MAttr] fs infos vs)
       (pv ++ slot [MElement; MAttr] f.1.2 i v :: st [MAttr] fs infos vs)) as (es0 & He0 & Hes0).
  { destruct i as [fi|].
    2: { exists []. split; [done|]. unfold slot_text. destruct v; apply reads_nil. }
    destruct (decide (fi_mode fi = MElement)) as [Hm|Hm].
    { rewrite names_of_here by done. rewrite (slot_element _ _ [MElement; MAttr]) by (rewrite ?Hm; by left || done).
      rewrite (slot_out _ _ [MAttr]) by (rewrite Hm; set_solver).
      assert (slot_text (Some fi) v = "") as -> by (unfold slot_text; destruct v; try done; cbn; by rewrite bool_decide_false by congruence).
      by eapply element_slot. }
    rewrite (slot_more _ _ MElement) by (cbn; by rewrite bool_decide_false).
    assert (names_of MElement [Some fi] = []) as -> by (cbn; by rewrite bool_decide_false).
    destruct (decide (fi_mode fi = MCharData)) as [Hc|Hc]; [by apply text_slot|].
    assert (fi_mode fi = MAttr) as Ha by (destruct (fi_mode fi) eqn:E; try done; exfalso; by apply (Hr fi); [left|]).
    exists []. unfold XmlStruct.entry_of. rewrite Ha. split; [done|].
    assert (slot_text (Some fi) v = "") as -> by (unfold slot_text; destruct v; try done; cbn; by rewrite bool_decide_false by congruence).
    apply reads_nil. }
  exists (es0 ++ es). destruct f as [[x t] tag]. cbn [XmlStruct.entries]. cbn in He0. rewrite He0, He. split; [done|].
  rewrite names_of_cons. cbn [staged slot_texts]. by eapply reads_app.
Qed.
End Elements.

(** ** The name, the text and the raw content *)

Section Rest.
Context (fl : string → gotype → goval → goval) (nm : Name).
Notation st := (staged fl nm).

Lemma names_of_nil m infos i : names_of m infos = [] → i ∈ infos → has_mode m i = false.
Proof.
  intros Hn Hi. destruct i as [fi|]; [|done]. cbn. case_bool_decide as Hm; [|done]. apply (names_of_elem m) in Hi; [|done].
  rewrite Hn in Hi. by apply not_elem_of_nil in Hi.
Qed.
Lemma staged_more m ms fs infos vs : names_of m infos = [] → st (m :: ms) fs infos vs = st ms fs infos vs.
Proof.
  intros Hn. assert (∀ i, i ∈ infos → has_mode m i = false) as H by (intros; by eapply names_of_nil). clear Hn. revert infos vs H.
  induction fs as [|[[x t] tag] fs IH]; intros [|i js] [|v vs] H; try done. cbn [staged]. rewrite slot_more by (apply H; by left).
  f_equal. apply IH. intros i' ?. apply H. by right.
Qed.
Lemma names_of_tail m i js : (length (names_of m (i :: js)) <= 1)%nat → has_mode m i = true → names_of m js = [].
Proof.
  intros Hl Hm. destruct i as [fi|]; [|done]. cbn in Hm. apply bool_decide_eq_true in Hm.
  rewrite names_of_cons, names_of_here, length_app in Hl by done. apply length_zero_iff_nil. cbn in Hl. lia.
Qed.
Lemma names_of_less m i js : (length (names_of m (i :: js)) <= 1)%nat → (length (names_of m js) <= 1)%nat.
Proof. rewrite names_of_cons, length_app. lia. Qed.

Lemma name_stage fs infos vs : fine fs infos vs → (length (filter (λ f : field, is_XMLName f.1.1 = true) fs) <= 1)%nat →
  set_name nm fs ((λ f : field, zero f.1.2) <$> fs) = st [] fs infos vs.
Proof.
  induction 1 as [|f i v fs infos vs Hs Hf IH]; intros Hl; [done|]. destruct f as [[x t] tag]. cbn [set_name fmap list_fmap fst staged].
  pose proof (sf_slot _ _ _ Hs) as Hok. destruct i as [fi|]; cbn in Hok.
  - apply andb_true_iff in Hok as [Hx _]. apply negb_true_iff in Hx. rewrite Hx, slot_out by (by apply not_elem_of_nil).
    f_equal. apply IH. rewrite filter_cons_False in Hl; [done|]. cbn. by rewrite Hx.
  - apply andb_true_iff in Hok as [Hx _]. rewrite Hx. cbn. f_equal. rewrite filter_cons_True in Hl by done. cbn in Hl.
    assert (∀ f, f ∈ fs → is_XMLName f.1.1 = false) as Hno.
    { intros f Hin. apply not_true_iff_false. intros Hx'. assert (f ∈ filter (λ f : field, is_XMLName f.1.1 = true) fs) as Hin' by (by apply list_elem_of_filter).
      destruct (filter _ fs); [by apply not_elem_of_nil in Hin'|cbn in Hl; lia]. }
    clear IH Hl. induction Hf as [|f' i' v' fs infos vs Hs' Hf IH]; [done|]. destruct f' as [[x' t'] tag']. cbn [fmap list_fmap staged].
    pose proof (sf_slot _ _ _ Hs') as Hok'. rewrite IH by (intros; apply Hno; by right). f_equal.
    destruct i' as [fi'|]; [by rewrite slot_out by (by apply not_elem_of_nil)|]. cbn in Hok'. pose proof (Hno _ (list_elem_of_here _ _)) as Hx'. cbn in Hx'. by rewrite Hx' in Hok'.
Qed.

Lemma text_stage s ms fs infos vs : fine fs infos vs → (length (names_of MCharData infos) <= 1)%nat →
  (names_of MCharData infos = [] ∨ slot_texts infos vs = s) →
  set_text s fs infos (st ms fs infos vs) = Ok (st (MCharData :: ms) fs infos vs).
Proof.
  induction 1 as [|f i v fs infos vs Hs Hf IH]; intros Hl Ht; [done|]. destruct f as [[x t] tag]. cbn [set_text staged].
  destruct (has_mode MCharData i) eqn:Hm.
  - pose proof (names_of_tail _ _ _ Hl Hm) as Hn. rewrite staged_more by done. destruct i as [fi|]; [|done].
    cbn in Hm. apply bool_decide_eq_true in Hm. rewrite slot_in by (rewrite Hm; by left || done).
    destruct Ht as [Ht|Ht]; [by rewrite names_of_cons, names_of_here in Ht|].
    pose proof (sf_slot _ _ _ Hs) as Hok. cbn [slot_ok] in Hok. rewrite Hm in Hok. apply andb_true_iff in Hok as [_ Hok].
    assert (has_type t v = true) as Hv by (apply (sf_type _ _ _ Hs); cbn; by rewrite bool_decide_false by congruence).
    cbn in Hok, Hv. destruct t, v; try done. cbn in *. rewrite bool_decide_true in Ht by done.
    assert (slot_texts infos vs = "") as E.
    { clear -Hn Hf. induction Hf as [|f i v fs infos vs _ _ IH]; [done|]. cbn. unfold slot_text.
      rewrite (names_of_nil _ _ i Hn) by (by left). rewrite names_of_cons in Hn. apply app_eq_nil in Hn as [_ Hn]. rewrite IH by done. by destruct v. }
    rewrite E, str_app_nil_r in Ht. by subst.
  - rewrite IH; [cbn; by rewrite slot_more|by eapply names_of_less|].
    destruct Ht as [Ht|Ht]; [left|right].
    + rewrite names_of_cons in Ht. by apply app_eq_nil in Ht as [_ ?].
    + cbn in Ht. unfold slot_text in Ht. rewrite Hm in Ht. by destruct v.
Qed.

Fixpoint raws (infos : list (option fieldInfo)) (vs : list goval) : list (list node) :=
  match infos, vs with
  | i :: js, v :: vs' => (match v with VRaw l => if has_mode MInnerXML i then [l] else [] | _ => [] end) ++ raws js vs'
  | _, _ => []
  end.

Lemma raw_slot f fi v : slot_fine f (Some fi) v → fi_mode fi = MInnerXML → ∃ l, v = VRaw l.
Proof.
  intros Hs Hm. pose proof (sf_slot _ _ _ Hs) as Hok. cbn [slot_ok] in Hok. rewrite Hm in Hok. apply andb_true_iff in Hok as [_ Hok].
  assert (has_type f.1.2 v = true) as Hv by (apply (sf_type _ _ _ Hs); cbn; by rewrite bool_decide_false by congruence).
  destruct (f.1.2), v; try done. by eexists.
Qed.

Lemma raws_length fs infos vs : fine fs infos vs → length (raws infos vs) = length (names_of MInnerXML infos).
Proof.
  induction 1 as [|f i v fs infos vs Hs Hf IH]; [done|]. cbn [raws]. rewrite names_of_cons, !length_app, IH. f_equal.
  destruct i as [fi|]; [|by destruct v]. cbn. case_bool_decide as Hm; [|by destruct v].
  destruct (raw_slot _ _ _ Hs Hm) as [l ->]. done.
Qed.

Lemma raw_stage l ms fs infos vs : fine fs infos vs → (length (names_of MInnerXML infos) <= 1)%nat →
  (names_of MInnerXML infos = [] ∨ raws infos vs = [l]) →
  set_raw l infos (st ms fs infos vs) = st (MInnerXML :: ms) fs infos vs.
Proof.
  induction 1 as [|f i v fs infos vs Hs Hf IH]; intros Hl Ht; [done|]. destruct f as [[x t] tag]. cbn [set_raw staged].
  destruct (has_mode MInnerXML i) eqn:Hm.
  - pose proof (names_of_tail _ _ _ Hl Hm) as Hn. rewrite staged_more by done. destruct i as [fi|]; [|done].
    cbn in Hm. apply bool_decide_eq_true in Hm. rewrite slot_in by (rewrite Hm; by left || done).
    destruct Ht as [Ht|Ht]; [by rewrite names_of_cons, names_of_here in Ht|].
    destruct (raw_slot _ _ _ Hs Hm) as [l' ->]. cbn in Ht. rewrite bool_decide_true in Ht by done. by injection Ht as -> _.
  - rewrite slot_more by done. f_equal. apply IH; [by eapply names_of_less|].
    destruct Ht as [Ht|Ht]; [left|right].
    + rewrite names_of_cons in Ht. by apply app_eq_nil in Ht as [_ ?].
    + cbn in Ht. rewrite Hm in Ht. by destruct v.
Qed.

(** With raw content only, that is what is written. *)
Lemma raw_entries mv space fs infos vs : fine fs infos vs → names_of MElement infos = [] → names_of MCharData infos = [] →
  entries mv space fs infos vs = Some (ERaw <$> raws infos vs).
Proof.
  induction 1 as [|f i v fs infos vs Hs Hf IH]; intros He Ht; [done|].
  rewrite names_of_cons in He, Ht. apply app_eq_nil in He as [He1 He2], Ht as [Ht1 Ht2].
  destruct f as [[x t] tag]. cbn [entries raws]. rewrite IH, fmap_app by done.
  assert (entry_of mv space t i v = Some (ERaw <$> match v with VRaw l => if has_mode MInnerXML i then [l] else [] | _ => [] end)) as ->; [|done].
  destruct i as [fi|]; [|by destruct v]. cbn in *. destruct (fi_mode fi) eqn:Hm; try done; [by destruct v|].
  destruct (raw_slot _ _ _ Hs Hm) as [l ->]. done.
Qed.
End Rest.

(** ** Structs *)

Lemma fine_intro fs infos vs :
  forallb (λ fi : field * option fieldInfo, slot_ok fi.1 fi.2) (zip fs infos) = true → element_types faithful fs infos = true →
  slots_ok value_ok fs infos vs = true → Forall (λ f : field, faithful f.1.2 = true → single (core f.1.2)) fs → fine fs infos vs.
Proof.
  revert infos vs. induction fs as [|[[x t] tag] fs IH]; intros [|i js] [|v vs]; try done; cbn; [constructor|].
  rewrite !andb_true_iff. intros [H1 H2] [H3 H4] [H5 H6] [H7 H8]%Forall_cons. constructor; [|by apply IH]. split; cbn.
  - done.
  - intros Hm. destruct i as [fi|]; [|done]. cbn in Hm. by rewrite Hm in H5.
  - intros Hm. rewrite Hm in H3. destruct i as [fi|]; [|done]. cbn in Hm. rewrite Hm in H5. apply andb_true_iff in H5 as [? _]. eauto.
  - intros fi -> Hm. rewrite bool_decide_true in H5 by done. by apply andb_true_iff in H5 as [_ ?].
Qed.

Lemma inner_space_plain ns name attrs : (∀ a, a ∈ attrs → attrName a ≠ mkName "" "xmlns") →
  inner_space ns name attrs = if bool_decide (Space name = "") then ns else Space name.
Proof.
  intros Ha. unfold inner_space. case_bool_decide; cbn; [|done]. revert ns. induction attrs as [|a attrs IH]; intros ns; [done|]. cbn.
  rewrite bool_decide_false by (apply Ha; by left). apply IH. intros a' ?. apply Ha. by right.
Qed.

Lemma take_declaration name attrs fs infos vs l :
  length fs = length infos → length fs = length vs → (∀ fi, Some fi ∈ infos → fi_mode fi = MAttr → fi_name fi ≠ "xmlns") →
  take_attrs (read_attr <$> attrs) fs infos vs = Ok l → take_attrs (read_attrs name attrs) fs infos vs = Ok l.
Proof.
  intros H1 H2 Hn Ht. unfold read_attrs. case_bool_decide; [done|]. cbn [app take_attrs]. rewrite take_attr_other; [done|done|done|].
  intros fi Hin. unfold attr_matches. case_bool_decide as Hm; [|done]. cbn. rewrite bool_decide_false; [done|]. intros E. by apply (Hn fi Hin Hm).
Qed.

(** The name a struct is written with, as its fields and the field it is in say. *)
Definition written_space (fi : fieldInfo) (fs : list field) : string :=
  match xmlname fs with Some (Some x) => fi_xmlns x | _ => fi_xmlns fi end.
Lemma written_name n fs infos vs fi : struct_ok fs infos = true → name_fits fi (TStruct n fs) = true →
  start_name n fs vs (Some fi) = mkName (written_space fi fs) (fi_name fi) ∧ (∀ up name, leaves_namespace fs name up = []) ∧
  (∀ space, (written_space fi fs = "" ∨ space = written_space fi fs) → name_accepted fs (mkName space (fi_name fi)) = true) ∧
  (fi_xmlns fi = "" ∨ written_space fi fs = fi_xmlns fi) ∧ (xmlname fs = None ∨ own_local fs = fi_name fi).
Proof.
  unfold struct_ok, start_name, leaves_namespace, name_accepted, written_space, own_local. rewrite !andb_true_iff. cbn [name_fits].
  intros [[[[[[_ Hx] _] _] _] _] _] Hf. destruct (xmlname fs) as [[x|]|]; [|done|].
  - apply andb_true_iff in Hf as [Hn Hs]. apply bool_decide_eq_true in Hn. apply plain_ne in Hx.
    rewrite !(bool_decide_false (fi_name x = "")) by done. cbn. rewrite Hn in *.
    split; [done|]. split; [intros; rewrite bool_decide_false; [done|intros (_ & ? & _); congruence]|]. split.
    + intros space Hsp. rewrite (bool_decide_true (fi_name fi = _)) by done. cbn. rewrite orb_true_iff, !bool_decide_eq_true. naive_solver.
    + split; [|by right]. rewrite orb_true_iff, !bool_decide_eq_true in Hs. naive_solver.
  - cbn. split; [done|]. split; [done|]. split; [done|]. split; [by right|by left].
Qed.

Lemma staged_unnamed fl nm nm' ms fs infos vs : fine fs infos vs → xmlname fs = None → staged fl nm ms fs infos vs = staged fl nm' ms fs infos vs.
Proof.
  unfold xmlname. intros Hf. destruct (List.find _ fs) as [[[? ?] ?]|] eqn:E; [done|]. intros _.
  assert (∀ f, f ∈ fs → is_XMLName f.1.1 = false) as Hn by (intros f Hin%list_elem_of_In; apply (find_none _ _ E f Hin)). clear E.
  induction Hf as [|f i v fs infos vs Hs Hf IH]; [done|]. destruct f as [[x t] tag]. cbn [staged]. f_equal; [|apply IH; intros; apply Hn; by right].
  destruct i as [fi|]; [done|]. pose proof (sf_slot _ _ _ Hs) as Hok. cbn in Hok. pose proof (Hn _ (list_elem_of_here _ _)) as Hx. cbn in Hx. by rewrite Hx in Hok.
Qed.

(** The content written for a struct is read into its fields. *)
Lemma content_roundtrip sp nm space fs infos vs :
  struct_ok fs infos = true → fine fs infos vs →
  let fl := λ xns t v, fill sp xns t v in
  ∃ es cs, entries (λ t fi up v, marshal_value t true fi up v) space fs infos vs = Some es ∧ assemble es = cs ∧
    (try vs <- children (λ c t v, unmarshal c sp t v) (λ c ps vs, unmarshal_path c sp fs infos ps vs) sp fs infos [] cs (staged fl nm [MAttr] fs infos vs);
     try vs <- set_text (chardata cs) fs infos vs; Ok (VStruct (set_raw cs infos vs)))%go =
    Ok (VStruct (staged fl nm all_modes fs infos vs)).
Proof.
  unfold struct_ok. rewrite !andb_true_iff, !bool_decide_eq_true, !Nat.leb_le. intros [[[[[[_ _] _] _] Hel] Hch] Hraw] Hf.
  set (fl := λ (xns : string) (t : gotype) (v : goval), fill sp xns t v).
  destruct (names_of MInnerXML infos) as [|r [|]] eqn:Er; [| |done].
  - destruct (elements_stage sp nm space fs infos Hel [] [] [] fs infos vs eq_refl eq_refl eq_refl eq_refl Hf) as (es & He & [F P T R]).
    { intros fi Hin Hm. apply (names_of_elem MInnerXML) in Hin; [|done]. rewrite Er in Hin. by apply not_elem_of_nil in Hin. }
    cbn [app] in R. fold fl in R. exists es, (concat (flat <$> es)). split; [done|].
    split; [apply assemble_flat; [done|]; by eapply sublist_NoDup|]. rewrite R. cbn [res_bind].
    rewrite (text_stage fl nm (chardata (concat (flat <$> es))) [MElement; MAttr] fs infos vs Hf Hch) by (by right). cbn [res_bind].
    by rewrite raw_stage by (done || rewrite Er; cbn; lia || by left).
  - apply andb_true_iff in Hraw as [H1%bool_decide_eq_true H2%bool_decide_eq_true].
    pose proof (raws_length _ _ _ Hf) as Hl. rewrite Er in Hl. destruct (raws infos vs) as [|l [|]] eqn:Eraw; try done.
    exists [ERaw l], l. split; [rewrite raw_entries by done; by rewrite Eraw|]. split; [done|].
    rewrite children_none. 2: { intros fi Hin Hm. apply (names_of_elem MElement) in Hin; [|done]. rewrite H1 in Hin. by apply not_elem_of_nil in Hin. }
    cbn [res_bind]. rewrite <- (staged_more fl nm MElement) by done. rewrite text_stage by (done || by left). cbn [res_bind].
    rewrite raw_stage; [done|done|rewrite Er; cbn; lia|by right].
Qed.

Lemma struct_single n fs : Forall (λ f : field, faithful f.1.2 = true → single (core f.1.2)) fs →
  faithful (TStruct n fs) = true → single (TStruct n fs).
Proof.
  intros IH Hfa fi ns up v Hn Hv. cbn [faithful] in Hfa. destruct (getTypeInfo n fs) as [infos|] eqn:Ei; [|done].
  apply andb_true_iff in Hfa as [Hok Het]. destruct v as [| | | | | | |vs]; try done. cbn [value_ok] in Hv. rewrite Ei in Hv.
  pose proof Hok as Hok'. unfold struct_ok in Hok'. rewrite !andb_true_iff, !bool_decide_eq_true, !Nat.leb_le in Hok'.
  destruct Hok' as [[[[[[Hsl _] Hxn] Hat] _] _] _]. pose proof (fine_intro fs infos vs Hsl Het Hv IH) as Hf.
  destruct (fine_length _ _ _ Hf) as [L1 L2]. destruct (written_name n fs infos vs fi Hok Hn) as (Hname & Hleaves & Hacc & Hfit & Hloc).
  set (space := own_space ns (fi_xmlns fi) fs).
  assert (space = if bool_decide (written_space fi fs = "") then ns else written_space fi fs) as Hspace by done.
  destruct (attrs_stage (λ xns t v, fill space xns t v) (mkName space (fi_name fi)) [] [] [] fs infos vs eq_refl eq_refl Hf Hat)
    as (l & Hl & Hxm & Hta); [by intros fi' ?%not_elem_of_nil|]. cbn [app] in Hta.
  destruct (content_roundtrip space (mkName space (fi_name fi)) (written_space fi fs) fs infos vs Hok Hf) as (es & cs & He & Hcs & Hr).
  exists (Elem (mkName (written_space fi fs) (fi_name fi)) l cs).
  assert (inner_space ns (mkName (written_space fi fs) (fi_name fi)) l = space) as Hin by (by rewrite inner_space_plain).
  assert (read_name ns (mkName (written_space fi fs) (fi_name fi)) l = mkName space (fi_name fi)) as Hrn by (unfold read_name; by rewrite Hin).
  split; [|split].
  - cbn [marshal_value andb]. rewrite Ei, Hname. cbn. rewrite Hl. cbn in He |- *. rewrite He. cbn. by rewrite Hleaves, app_nil_r, Hcs.
  - eexists _, _, _. split; [done|]. split; [done|]. rewrite Hin, Hspace. destruct Hfit as [?| ->]; [by left|].
    destruct (decide (fi_xmlns fi = "")); [by left|right]. by rewrite bool_decide_false.
  - rewrite zero_struct. rewrite (unmarshal_struct _ _ _ _ n fs infos _ Ei). 2: { rewrite Hrn. apply Hacc. rewrite Hspace.
      destruct (decide (written_space fi fs = "")); [by left|right]. by rewrite bool_decide_false. }
    cbv zeta. rewrite Hrn, Hin. rewrite (name_stage (λ xns t v, fill space xns t v) _ fs infos vs Hf Hxn).
    erewrite take_declaration; [|done|by rewrite staged_length|intros fi' Hi Hm|exact Hta].
    2: { apply list_elem_of_lookup in Hi as [j Hj]. destruct (Forall3_lookup_m _ _ _ _ _ _ Hf Hj) as (f' & v' & _ & _ & Hs'). by eapply attr_slot_fine. }
    cbn [res_bind]. rewrite Hr. cbn [fill]. rewrite Ei. f_equal. f_equal. fold space.
    destruct Hloc as [Hno| ->]; [by apply staged_unnamed|done].
Qed.

Lemma faithful_single t : faithful t = true → single (core t).
Proof.
  assert (∀ t, is_simple t = true → single t) as Hsimple.
  { clear t. intros t Ht fi ns up v Hn Hv. assert (has_type t v = true) as Hv' by (by destruct t, v).
    destruct (simple_roundtrip t v Ht Hv') as (s & Hs & Hc).
    exists (Elem (mkName (fi_xmlns fi) (fi_name fi)) [] (if bool_decide (s = "") then [] else [Text s])). split; [|split].
    - destruct t; try done; cbn [marshal_value andb]; by rewrite Hs.
    - eexists _, _, _. split; [done|]. split; [done|]. unfold inner_space. cbn. case_bool_decide; [by left|by right].
    - by rewrite unmarshal_simple, chardata_written, simple_fill. }
  induction t as [| | | | | |t IH|t IH|n fs IH] using gotype_fields_ind; intros Hf; try done; try (by apply Hsimple).
  - cbn [faithful core] in *. apply andb_true_iff in Hf as [Ho Hf]. specialize (IH Hf). by destruct t.
  - cbn [faithful core] in *. apply andb_true_iff in Hf as [Ho Hf]. specialize (IH Hf). by destruct t.
  - by apply struct_single.
Qed.

(** ** The data *)

(** A value without the names its structs were read under. *)
Fixpoint strip (v : goval) : goval :=
  match v with
  | VName _ => VName (mkName "" "")
  | VPtr (Some v) => VPtr (Some (strip v))
  | VSlice l => VSlice (map strip l)
  | VStruct l => VStruct (map strip l)
  | v => v
  end.

Lemma value_typed t v : faithful t = true → value_ok t v = true → is_simple t = true → has_type t v = true.
Proof. by destruct t, v. Qed.

Lemma strip_fill t : ∀ ns xns v, faithful t = true → value_ok t v = true → strip (fill ns xns t v) = strip v.
Proof.
  induction t as [| | | | | |t IH|t IH|n fs IH] using gotype_fields_ind; intros ns xns v Hf Hv; try done.
  - destruct v as [| | | | |[v|]| |]; try done. cbn in *. apply andb_true_iff in Hf as [_ Hf]. by rewrite IH.
  - destruct v as [| | | | | |l|]; try done. cbn in *. apply andb_true_iff in Hf as [_ Hf]. f_equal. rewrite map_map.
    apply map_ext_in. intros v Hin. apply IH; [done|]. rewrite forallb_forall in Hv. by apply Hv.
  - destruct v as [| | | | | | |vs]; try done. cbn [faithful value_ok fill] in *. destruct (getTypeInfo n fs) as [infos|]; [|done].
    apply andb_true_iff in Hf as [Hok Het]. cbn [strip]. f_equal. unfold struct_ok in Hok. rewrite !andb_true_iff in Hok.
    destruct Hok as [[[[[[Hsl _] _] _] _] _] _].
    generalize (mkName (own_space ns xns fs) (own_local fs)) as nm. generalize (own_space ns xns fs) as sp. revert infos vs Hsl Het Hv.
    induction IH as [|[[x t] tag] fs Ht _ IHf]; intros [|i js] [|v vs]; try done. cbn [zip zip_with forallb element_types slots_ok staged map fst snd].
    rewrite !andb_true_iff. intros [H1 H2] [H3 H4] [H5 H6] sp nm. f_equal; [|by apply IHf]. cbn in Ht.
    destruct i as [fi|]; cbn in *.
    + assert (fi_mode fi ∈ all_modes) as Hm by (destruct (fi_mode fi); set_solver). rewrite bool_decide_true by done.
      case_bool_decide; [|done]. apply andb_true_iff in H5 as [? _]. by apply Ht.
    + by destruct t, v; rewrite ?andb_false_r in H1.
Qed.

(** What [Marshal] writes for a struct that names itself is one element, which
    [Unmarshal] reads back with the same data, wherever it stands. *)
Lemma codec_element t v ns : is_struct t = true → is_Some (lookupXMLName t) → faithful t = true → value_ok t v = true →
  ∃ nm attrs cs w, Marshal t v = Some [Elem nm attrs cs] ∧ Unmarshal t ns [Elem nm attrs cs] = Ok w ∧ strip w = strip v.
Proof.
  intros Hst [x Hx] Hf Hv. destruct t as [| | | | | | | |n fs]; try done.
  pose proof (faithful_single (TStruct n fs) Hf) as Hs. cbn [core] in Hs.
  cbn [lookupXMLName] in Hx. destruct (xmlname fs) as [[y|]|] eqn:Ey; [|done|done]. case_bool_decide as Hne; [done|]. injection Hx as ->.
  destruct (Hs (mkInfo (fi_xmlns x) (fi_name x) MElement false []) ns "" v) as (node & Hm & (nm & attrs & cs & -> & _) & Hu).
  { cbn. rewrite Ey. cbn. by rewrite (bool_decide_true (fi_name x = _)), (bool_decide_true (fi_xmlns x = fi_xmlns x)), orb_true_r. }
  { done. }
  exists nm, attrs, cs. eexists. split; [|split; [exact Hu|by apply strip_fill]].
  unfold Marshal. rewrite <- Hm. destruct v as [| | | | | | |vs]; try done. cbn [marshal_value andb].
  destruct (getTypeInfo n fs); [|done]. cbn. unfold start_name. rewrite Ey, !(bool_decide_false (fi_name x = "")) by done. done.
Qed.

Lemma codec_roundtrip t v ns : is_struct t = true → is_Some (lookupXMLName t) → faithful t = true → value_ok t v = true →
  ∃ l w, Marshal t v = Some l ∧ Unmarshal t ns l = Ok w ∧ strip w = strip v.
Proof. intros Hs Hx Hf Hv. destruct (codec_element t v ns Hs Hx Hf Hv) as (nm & attrs & cs & w & Hm). by eauto. Qed.
