(* ===== verification/XmlReader.v ===== *)
(** * Reading a stream (src/xml/stream.go: StreamReader, src/xml/decoder.go: Decoder, src/xml/encoder.go: Encoder)

    The readers of package xml over the decoder of encoding/xml: what is left of
    the input as tokens, the open elements with the namespace inside each, and
    the error that the decoder keeps once it has met one.  Namespaces are
    resolved as the tokens are handed out.  The theorem joins this with the
    writer (Xml.v) and the struct codec (XmlStruct.v): payloads written one after
    the other are decoded one after the other. *)

From Stdlib Require Import Ascii String.
From S2P Require Import Prelude GoStrings Xml XmlStruct XmlRoundtrip.

Open Scope string_scope.
Open Scope list_scope.
Open Scope go_scope.

(** ** The decoder of encoding/xml *)

(** An open element as written, and the namespace around it. *)
Record opened := mkOpened { o_name : Name; o_attrs : list Attr; o_around : string }.
Definition o_inside (o : opened) : string := inner_space (o_around o) (o_name o) (o_attrs o).

Inductive read_error := REOF | RSyntax | RDecode (e : unmarshal_error).

Record Reader := mkReader { toks : list Token; stack : list opened; failed : option read_error }.

Notation Rd A := (M Reader read_error A).

(** The namespace the next element stands in. *)
Definition around (r : Reader) : string := match stack r with o :: _ => o_inside o | [] => "" end.

Definition fail {A} (e : read_error) : Rd A := fun r => (mkReader (toks r) (stack r) (Some e), Err e).

(** The next token as it is written; an end tag must close the last open element,
    and the input must not end inside one. *)
Definition raw_token : Rd Token :=
  fun r => match failed r with
           | Some e => (r, Err e)
           | None =>
               match toks r with
               | [] => fail (if bool_decide (length (stack r) = 0) then REOF else RSyntax) r
               | StartElement n a :: l => (mkReader l (mkOpened n a (around r) :: stack r) None, Ok (StartElement n a))
               | EndElement n :: l =>
                   match stack r with
                   | o :: st => if bool_decide (o_name o = n) then (mkReader l st None, Ok (EndElement n)) else fail RSyntax r
                   | [] => fail RSyntax r
                   end
               | t :: l => (mkReader l (stack r) None, Ok t)
               end
           end.

(** A token with its names resolved, [ns] being the namespace around it. *)
Definition resolve (r : Reader) (t : Token) : Token :=
  match t with
  | StartElement n a => StartElement (read_name (around r) n a) (read_attrs n a)
  | EndElement n => EndElement (match stack r with o :: _ => mkName (o_inside o) (Local n) | [] => n end)
  | t => t
  end.

(** ** StreamReader and Decoder

    The two types wrap the same decoder and have the same methods; loops that
    read tokens are bounded by the tokens that are left. *)

Definition NewDecoder (input : list Token) : Reader := mkReader input [] None.

Definition Token_ : Rd Token := (do r <- mget; do t <- raw_token; mok (resolve r t)).

Fixpoint skip_loop (fuel depth : nat) : Rd unit :=
  match fuel with
  | 0 => mpanic
  | S fuel =>
      do t <- raw_token;
      match t with
      | StartElement _ _ => skip_loop fuel (S depth)
      | EndElement _ => match depth with 0 => mok tt | S d => skip_loop fuel d end
      | _ => skip_loop fuel depth
      end
  end.
(** [Skip] after a start tag. *)
Definition Skip : Rd unit := (do r <- mget; skip_loop (S (length (toks r))) 0).

Fixpoint next_start (fuel : nat) : Rd Token :=
  match fuel with
  | 0 => mpanic
  | S fuel =>
      do t <- Token_;
      match t with
      | StartElement _ _ => mok t
      | _ => next_start fuel
      end
  end.
Definition NextStartElement : Rd Token := (do r <- mget; next_start (S (length (toks r)))).

(** The content of the element whose start tag was read last, to its end tag. *)
Fixpoint content (fuel : nat) : Rd (list node) :=
  match fuel with
  | 0 => mpanic
  | S fuel =>
      do t <- raw_token;
      match t with
      | StartElement n a => do cs <- content fuel; do rest <- content fuel; mok (Elem n a cs :: rest)
      | EndElement _ => mok []
      | CharData s => do rest <- content fuel; mok (Text s :: rest)
      | OtherToken => do rest <- content fuel; mok (Misc :: rest)
      end
  end.

Section Decode.
(** Where the decoder stands after a value that does not fit its type. *)
Variable stops : Reader → Reader.

(** [DecodeElement] with the start element that was read last. *)
Definition DecodeElement (t : gotype) : Rd goval :=
  do r <- mget;
  match stack r with
  | [] => fail RSyntax
  | o :: _ =>
      do cs <- content (S (length (toks r)));
      match unmarshal (Elem (o_name o) (o_attrs o) cs) (o_around o) t (zero t) with
      | Ok v => mok v
      | Err e => fun r => (stops r, Err (RDecode e))
      | Panic => mpanic
      end
  end.

(** [Decode]: the next element. *)
Definition Decode (t : gotype) : Rd goval := (do_ NextStartElement; DecodeElement t).

Fixpoint decode_each (ts : list gotype) : Rd (list goval) :=
  match ts with
  | [] => mok []
  | t :: ts => do v <- Decode t; do vs <- decode_each ts; mok (v :: vs)
  end.
End Decode.

(** ** Encoder (src/xml/encoder.go)

    The same calls of the encoder as StreamWriter, and [EncodeElement], which
    names the element. *)

Definition Encoder_Encode (m : Enc unit) : Enc unit := (do_ m; do_ Flush; Flush).
Definition Encoder_EncodeElement (m : Name → list Attr → Enc unit) (n : Name) (a : list Attr) : Enc unit := (do_ m n a; do_ Flush; Flush).
Definition Encoder_EncodeToken (t : Token) : Enc unit := (do_ encodeToken t; Flush).
Definition Encoder_WriteRaw (s : string) : Enc unit := WriteRaw s.

(** A value to send: its type, the text sent before it to keep the connection
    alive, and the calls of the encoder that encoding it makes. *)
Record outgoing := mkOutgoing { x_type : gotype; x_value : goval; x_keepalive : list string; x_calls : Enc unit }.

Fixpoint keep_alive (l : list string) : Enc unit :=
  match l with [] => mok tt | s :: l => do_ EncodeToken (CharData s); keep_alive l end.
Fixpoint encode_each (xs : list outgoing) : Enc unit :=
  match xs with
  | [] => mok tt
  | x :: xs => do_ keep_alive (x_keepalive x); do_ Encode (x_calls x); encode_each xs
  end.

(** ** Reading what is well formed *)

Lemma element_length n a cs : length (node_tokens (Elem n a cs)) = S (S (length (nodes_tokens cs))).
Proof. cbn. unfold nodes_tokens. rewrite length_app. cbn. lia. Qed.

Lemma content_nodes cs n fuel l o st :
  (length (nodes_tokens cs) < fuel)%nat → o_name o = n →
  content fuel (mkReader (nodes_tokens cs ++ EndElement n :: l) (o :: st) None) = (mkReader l st None, Ok cs).
Proof.
  revert n fuel l o st. induction cs as [cs IH] using (induction_ltof1 _ (λ cs, length (nodes_tokens cs))). unfold ltof in IH.
  intros n fuel l o st Hf Hn. destruct fuel as [|fuel]; [lia|]. destruct cs as [|c cs].
  { cbn [content]. unfold mbnd, raw_token. cbn. by rewrite bool_decide_true. }
  assert (length (nodes_tokens (c :: cs)) = length (node_tokens c) + length (nodes_tokens cs))%nat as Hlen by apply length_app.
  assert (0 < length (node_tokens c))%nat as Hpos by (destruct c; cbn; lia).
  change (nodes_tokens (c :: cs)) with (node_tokens c ++ nodes_tokens cs). rewrite <- app_assoc.
  destruct c as [m a cs'|s|]; cbn [content]; unfold mbnd, raw_token; cbn [node_tokens app toks stack failed].
  - rewrite element_length in Hlen. unfold element. cbn [app toks stack failed].
    change (concat (map node_tokens cs')) with (nodes_tokens cs'). rewrite <- app_assoc. cbn [app].
    rewrite IH by (lia || done). rewrite IH by (lia || done). done.
  - rewrite IH by (lia || done). done.
  - rewrite IH by (lia || done). done.
Qed.

Lemma skip_nodes cs k d l st :
  skip_loop (length (nodes_tokens cs) + k) d (mkReader (nodes_tokens cs ++ l) st None) = skip_loop k d (mkReader l st None).
Proof.
  revert k d l st. induction cs as [cs IH] using (induction_ltof1 _ (λ cs, length (nodes_tokens cs))). unfold ltof in IH.
  intros k d l st. destruct cs as [|c cs]; [done|].
  assert (length (nodes_tokens (c :: cs)) = length (node_tokens c) + length (nodes_tokens cs))%nat as Hlen by apply length_app.
  assert (0 < length (node_tokens c))%nat as Hpos by (destruct c; cbn; lia). rewrite Hlen.
  change (nodes_tokens (c :: cs)) with (node_tokens c ++ nodes_tokens cs). rewrite <- app_assoc.
  destruct c as [m a cs'|s|]; [|cbn [node_tokens app length Nat.add skip_loop]; unfold mbnd, raw_token; cbn [toks stack failed]; by rewrite IH by lia..].
  rewrite element_length in *. cbn [node_tokens]. unfold element. change (concat (map node_tokens cs')) with (nodes_tokens cs').
  replace (S (S (length (nodes_tokens cs'))) + length (nodes_tokens cs) + k)%nat
    with (S (length (nodes_tokens cs') + S (length (nodes_tokens cs) + k))) by lia.
  cbn [skip_loop app]. unfold mbnd, raw_token at 1. cbn [toks stack failed]. rewrite <- app_assoc, IH by lia.
  cbn [skip_loop app]. unfold mbnd, raw_token at 1. cbn [toks stack failed o_name]. rewrite bool_decide_true by done. by rewrite IH by lia.
Qed.

(** [Skip] after a start tag reads exactly to the end of that element. *)
Lemma Skip_element n cs l st o :
  o_name o = n → Skip (mkReader (nodes_tokens cs ++ EndElement n :: l) (o :: st) None) = (mkReader l st None, Ok tt).
Proof.
  intros Hn. unfold Skip, mbnd at 1, mget. cbn [toks]. rewrite length_app. cbn [length].
  replace (S (length (nodes_tokens cs) + S (length l)))%nat with (length (nodes_tokens cs) + S (S (length l)))%nat by lia.
  rewrite skip_nodes. cbn [skip_loop]. unfold mbnd, raw_token. cbn. by rewrite bool_decide_true.
Qed.

(** *** The loops end *)

Lemma raw_token_shrinks r :
  match (raw_token r).2 with
  | Ok _ => length (toks r) = S (length (toks (raw_token r).1))
  | Err _ => toks (raw_token r).1 = toks r
  | Panic => False
  end.
Proof. unfold raw_token, fail. repeat case_match; by simplify_eq/=. Qed.

Lemma content_ends fuel r :
  (length (toks r) < fuel)%nat → (content fuel r).2 ≠ Panic ∧ (length (toks (content fuel r).1) <= length (toks r))%nat.
Proof.
  revert r. induction fuel as [|fuel IH]; intros r Hf; [lia|]. cbn [content]. unfold mbnd.
  pose proof (raw_token_shrinks r) as Hs. destruct (raw_token r) as [r' [t| |]]; cbn [fst snd] in *; [|by rewrite Hs|done].
  destruct t as [n a| | |].
  - destruct (IH r') as [Hp Hl]; [lia|]. destruct (content fuel r') as [r1 [cs| |]]; cbn [fst snd] in *; [|split; [done|lia]|done].
    destruct (IH r1) as [Hp1 Hl1]; [lia|]. destruct (content fuel r1) as [r2 [rest| |]]; cbn [fst snd mok] in *; (split; [done|lia]).
  - cbn. split; [done|lia].
  - destruct (IH r') as [Hp Hl]; [lia|]. destruct (content fuel r') as [r1 [cs| |]]; cbn [fst snd mok] in *; (split; [done|lia]).
  - destruct (IH r') as [Hp Hl]; [lia|]. destruct (content fuel r') as [r1 [cs| |]]; cbn [fst snd mok] in *; (split; [done|lia]).
Qed.

(** *** What the loops read *)

Definition is_start (t : Token) : bool := match t with StartElement _ _ => true | _ => false end.

(** The tokens before the next start tag are passed over, whatever they are. *)
Lemma next_start_reads fuel r :
  (length (toks r) < fuel)%nat →
  match next_start fuel r with
  | (r', Ok t) => ∃ pre n a, toks r = pre ++ StartElement n a :: toks r' ∧ Forall (λ t, is_start t = false) pre ∧
      ∃ o st, stack r' = o :: st ∧ o_name o = n ∧ o_attrs o = a ∧
        t = StartElement (read_name (o_around o) n a) (read_attrs n a)
  | (r', Err e) => failed r' = Some e ∧ ∃ pre, toks r = pre ++ toks r' ∧ Forall (λ t, is_start t = false) pre
  | (_, Panic) => False
  end.
Proof.
  revert r. induction fuel as [|fuel IH]; intros r Hf; [lia|]. cbn [next_start]. unfold Token_, mbnd, mget.
  assert (raw_token r = raw_token r) as E by done. revert E. unfold raw_token at 2.
  destruct (failed r) as [e|] eqn:Ef; [intros ->; split; [done|by exists []]|].
  destruct (toks r) as [|t l] eqn:Et.
  { intros ->. cbn. split; [done|]. exists []. by rewrite Et. }
  assert (∀ r1, toks r1 = l → is_start t = false → (length (toks r1) < fuel)%nat ∧
    match next_start fuel r1 with
    | (r', Ok t') => ∃ pre n a, t :: l = pre ++ StartElement n a :: toks r' ∧ Forall (λ t, is_start t = false) pre ∧
        ∃ o st, stack r' = o :: st ∧ o_name o = n ∧ o_attrs o = a ∧ t' = StartElement (read_name (o_around o) n a) (read_attrs n a)
    | (r', Err e) => failed r' = Some e ∧ ∃ pre, t :: l = pre ++ toks r' ∧ Forall (λ t, is_start t = false) pre
    | (_, Panic) => False
    end) as Hnext.
  { intros r1 Hl Ht. cbn in Hf. split; [rewrite Hl; lia|]. specialize (IH r1 ltac:(rewrite Hl; lia)). rewrite Hl in IH.
    destruct (next_start fuel r1) as [r2 [t2|e2|]]; [|..|done].
    - destruct IH as (pre & n & a & -> & Hp & Ho). exists (t :: pre), n, a. split; [done|]. split; [by constructor|done].
    - destruct IH as (He & pre & -> & Hp). split; [done|]. exists (t :: pre). split; [done|by constructor]. }
  destruct t as [n a|n|c|].
  - intros ->. cbn [resolve mok]. exists [], n, a. split; [done|]. split; [constructor|]. by eexists (mkOpened n a (around r)), _.
  - destruct (stack r) as [|o st]; [intros ->; split; [done|exists []; by rewrite Et]|].
    case_bool_decide; [|intros ->; split; [done|exists []; by rewrite Et]]. intros ->. by apply Hnext.
  - intros ->. by apply Hnext.
  - intros ->. by apply Hnext.
Qed.

(** [Skip] closes one open element more than it opens. *)
Lemma skip_loop_reads fuel d r :
  (length (toks r) < fuel)%nat →
  match skip_loop fuel d r with
  | (r', Ok _) => stack r' = drop (S d) (stack r) ∧ ∃ pre, toks r = pre ++ toks r' ∧ pre ≠ []
  | (r', Err e) => failed r' = Some e ∧ ∃ pre, toks r = pre ++ toks r'
  | (_, Panic) => False
  end.
Proof.
  revert d r. induction fuel as [|fuel IH]; intros d r Hf; [lia|]. cbn [skip_loop]. unfold mbnd.
  assert (raw_token r = raw_token r) as E by done. revert E. unfold raw_token at 2.
  destruct (failed r) as [e|] eqn:Ef; [intros ->; split; [done|by exists []]|].
  destruct (toks r) as [|t l] eqn:Et; [intros ->; split; [done|exists []; by rewrite Et]|].
  assert (∀ d1 r1, toks r1 = l → drop (S d1) (stack r1) = drop (S d) (stack r) →
    match skip_loop fuel d1 r1 with
    | (r', Ok _) => stack r' = drop (S d) (stack r) ∧ ∃ pre, t :: l = pre ++ toks r' ∧ pre ≠ []
    | (r', Err e) => failed r' = Some e ∧ ∃ pre, t :: l = pre ++ toks r'
    | (_, Panic) => False
    end) as Hnext.
  { intros d1 r1 Hl Hd. cbn in Hf. specialize (IH d1 r1 ltac:(rewrite Hl; lia)). rewrite Hl, Hd in IH.
    destruct (skip_loop fuel d1 r1) as [r2 [u|e2|]]; [|..|done].
    - destruct IH as (-> & pre & -> & Hp). split; [done|]. by exists (t :: pre).
    - destruct IH as (He & pre & ->). split; [done|]. by exists (t :: pre). }
  destruct t as [n a|n|c|].
  - intros ->. by apply Hnext.
  - destruct (stack r) as [|o st] eqn:Es; [intros ->; split; [done|exists []; by rewrite Et]|].
    case_bool_decide; [|intros ->; split; [done|exists []; by rewrite Et]]. intros ->.
    destruct d as [|d]; [|by apply Hnext]. cbn. split; [by rewrite drop_0|]. by exists [EndElement n].
  - intros ->. by apply Hnext.
  - intros ->. by apply Hnext.
Qed.

(** C39: the loops of the readers end, on any input, well formed or not, from any
    state.  [NextStartElement] passes over everything up to the first start tag and
    returns it with its names resolved, or, when none is left or the input is
    malformed before it, returns an error that the decoder keeps; [Skip] reads to
    the end of the element that is open, and so leaves the elements around it open,
    or returns such an error. *)
Theorem reader_loops_end r :
  match NextStartElement r with
  | (r', Ok t) => ∃ pre n a, toks r = pre ++ StartElement n a :: toks r' ∧ Forall (λ t, is_start t = false) pre ∧
      ∃ o st, stack r' = o :: st ∧ o_name o = n ∧ o_attrs o = a ∧
        t = StartElement (read_name (o_around o) n a) (read_attrs n a)
  | (r', Err e) => failed r' = Some e ∧ ∃ pre, toks r = pre ++ toks r' ∧ Forall (λ t, is_start t = false) pre
  | (_, Panic) => False
  end ∧
  match Skip r with
  | (r', Ok _) => stack r' = tail (stack r) ∧ ∃ pre, toks r = pre ++ toks r' ∧ pre ≠ []
  | (r', Err e) => failed r' = Some e ∧ ∃ pre, toks r = pre ++ toks r'
  | (_, Panic) => False
  end.
Proof.
  unfold NextStartElement, Skip. unfold mbnd at 1 2, mget at 1 2. split; [apply next_start_reads; lia|].
  pose proof (skip_loop_reads (S (length (toks r))) 0 r ltac:(lia)) as Hs.
  destruct (skip_loop _ 0 r) as [r' [u|e|]]; [|done|done]. by destruct (stack r); cbn in *; rewrite ?drop_0 in *.
Qed.

(** *** Errors last *)

(** Once the input has turned out malformed, or has ended, no method reads on. *)
Lemma failure_lasts stops r e t :
  failed r = Some e →
  Token_ r = (r, Err e) ∧ Skip r = (r, Err e) ∧ NextStartElement r = (r, Err e) ∧ Decode stops t r = (r, Err e).
Proof.
  intros Hf. unfold Skip, Decode, NextStartElement, Token_, mbnd, mget. cbn [skip_loop next_start].
  unfold Token_, mbnd, mget, raw_token. by rewrite Hf.
Qed.

(** ** From writer to reader *)

(** Text and other tokens between elements are passed over. *)
Lemma next_start_texts ts k n a l st :
  next_start (length ts + S k) (mkReader (map CharData ts ++ StartElement n a :: l) st None) =
  (mkReader l (mkOpened n a (around (mkReader l st None)) :: st) None,
   Ok (StartElement (read_name (around (mkReader l st None)) n a) (read_attrs n a))).
Proof. induction ts as [|s ts IH]; cbn [length Nat.add map app next_start]; unfold Token_, mbnd, mget, raw_token; cbn; [done|]. apply IH. Qed.

(** [Decode] reads the text before an element, and exactly that element. *)
Lemma Decode_element stops ts t n a cs l st v :
  unmarshal (Elem n a cs) (around (mkReader l st None)) t (zero t) = Ok v →
  Decode stops t (mkReader (map CharData ts ++ node_tokens (Elem n a cs) ++ l) st None) = (mkReader l st None, Ok v).
Proof.
  intros Hu. unfold Decode, NextStartElement, mbnd at 1 2, mget. cbn [toks node_tokens]. unfold element.
  rewrite length_app, length_map. cbn [app]. cbn [length]. rewrite <- Nat.add_succ_r.
  rewrite next_start_texts. unfold DecodeElement, mbnd, mget. cbn [toks stack].
  rewrite <- app_assoc. cbn [app]. change (concat (map node_tokens cs)) with (nodes_tokens cs).
  rewrite content_nodes by (rewrite ?length_app; cbn; lia || done). cbn [o_name o_attrs o_around]. 
  change (around (mkReader (nodes_tokens cs ++ EndElement n :: l) st None)) with (around (mkReader l st None)). by rewrite Hu.
Qed.

(** A value of a type that keeps its data, with calls that write what [Marshal] gives. *)
Record sendable (x : outgoing) : Prop := {
  snd_struct : is_struct (x_type x) = true;
  snd_named : is_Some (lookupXMLName (x_type x));
  snd_faithful : faithful (x_type x) = true;
  snd_value : value_ok (x_type x) (x_value x) = true;
  snd_calls l : Marshal (x_type x) (x_value x) = Some l → emits (x_calls x) (nodes_tokens l) }.

Lemma emits_keep_alive ts : emits (keep_alive ts) (map CharData ts).
Proof. induction ts as [|s ts IH]; [apply emits_ok|]. apply (emits_seq _ _ [CharData s]); [apply emits_EncodeToken_text|done]. Qed.

(** The tokens a sequence of values is written as. *)
Definition written (xs : list outgoing) : list Token :=
  flat_map (λ x, map CharData (x_keepalive x) ++ nodes_tokens (default [] (Marshal (x_type x) (x_value x)))) xs.

Lemma encode_each_emits xs : Forall sendable xs → emits (encode_each xs) (written xs).
Proof.
  induction 1 as [|x xs Hx Hxs IH]; [apply emits_ok|]. cbn. rewrite <- app_assoc. apply emits_seq; [apply emits_keep_alive|].
  destruct (codec_element (x_type x) (x_value x) "") as (nm & attrs & cs & w & Hm & _); [by apply Hx..|].
  apply emits_seq; [|done]. rewrite Hm. apply emits_Encode. by apply Hx.
Qed.

Lemma encode_each_flushed xs w :
  Forall sendable xs → broken w = false → buf w = [] → buf (encode_each xs w).1 = [].
Proof.
  intros Hxs. revert w. induction Hxs as [|x xs Hx Hxs IH]; intros w Hw Hb; [done|]. cbn [encode_each]. unfold mbnd.
  destruct (emits_keep_alive (x_keepalive x) w Hw) as (E & _ & Hw1 & _).
  destruct (keep_alive _ w) as [w1 r1] eqn:E1. cbn in E, Hw1. subst r1.
  destruct (codec_element (x_type x) (x_value x) "") as (nm & attrs & cs & w' & Hm & _); [by apply Hx..|].
  rewrite (Encode_wire _ _ w1 (snd_calls x Hx _ Hm) Hw1). by apply IH.
Qed.

Lemma decode_written stops xs l st :
  Forall sendable xs →
  ∃ ws, decode_each stops (x_type <$> xs) (mkReader (written xs ++ l) st None) = (mkReader l st None, Ok ws) ∧
        strip <$> ws = strip ∘ x_value <$> xs.
Proof.
  intros Hxs. revert l. induction Hxs as [|x xs Hx Hxs IH]; intros l; [by exists []|].
  destruct (codec_element (x_type x) (x_value x) (around (mkReader (written xs ++ l) st None))) as (nm & attrs & cs & w & Hm & Hu & Hs); [by apply Hx..|].
  destruct (IH l) as (ws & Hd & Hws). exists (w :: ws). split; [|by cbn; rewrite Hs, Hws].
  cbn [decode_each written flat_map fmap list_fmap]. change (flat_map _ xs) with (written xs). rewrite Hm. cbn [default].
  unfold mbnd. change (nodes_tokens (id [Elem nm attrs cs])) with (node_tokens (Elem nm attrs cs) ++ []). rewrite app_nil_r, <- !app_assoc.
  rewrite (Decode_element stops _ (x_type x) nm attrs cs _ st w Hu).
  change (list_fmap _ _ x_type xs) with (x_type <$> xs). by rewrite Hd.
Qed.

(** What is written on a new connection arrives: values encoded one after the
    other, with text in between to keep the connection alive, reach the
    connection in full, and the peer, reading below any open stream element,
    decodes the same values in the same order and then waits for more input. *)
Lemma stream_delivers stops xs root :
  Forall sendable xs →
  encode_each xs NewStreamWriter = (mkWriter [] [] (map Tok (written xs)) false, Ok tt) ∧
  ∃ ws, decode_each stops (x_type <$> xs) (mkReader (written xs) [root] None) = (mkReader [] [root] None, Ok ws) ∧
        strip <$> ws = strip ∘ x_value <$> xs.
Proof.
  intros Hxs. split; [|destruct (decode_written stops xs [] [root] Hxs) as (ws & Hd & Hs); rewrite app_nil_r in Hd; by exists ws].
  destruct (encode_each_emits xs Hxs NewStreamWriter eq_refl) as (E & Ht & Hb & Hs).
  pose proof (encode_each_flushed xs NewStreamWriter Hxs eq_refl eq_refl) as Hf.
  destruct (encode_each xs NewStreamWriter) as [[tg bf wi br] r]. cbn in *. subst. unfold sent in Hs. cbn in Hs. rewrite app_nil_r in Hs. by subst.
Qed.
