(* ===== verification/PluginPayloads.v ===== *)
(** * The payloads of the plugins (src/plugins/) and their namespaces (src/internal/ns)

    Every struct of the plugin packages that is written to or read from a stream, as a
    type of [XmlStruct]: the fields, their types and their tags as they are declared.
    The name of a definition is the package and the type.  Then the functions that build
    payloads, and the lists the theorems of [PluginWire] are about: [payloads], the types
    that name themselves and carry their data, and [lossy], the ones that do not. *)

From Stdlib Require Import Ascii String ZArith.
From S2P Require Import Prelude GoStrings GoNumbers Xml XmlStruct.

Open Scope string_scope.
Open Scope list_scope.

(** ** Namespaces (src/internal/ns/ns.go) *)

Definition namespaces_core : list (string * string) :=
  [("Client", "jabber:client");
   ("Server", "jabber:server");
   ("Stream", "http://etherx.jabber.org/streams");
   ("Streams", "urn:ietf:params:xml:ns:xmpp-streams");
   ("TLS", "urn:ietf:params:xml:ns:xmpp-tls");
   ("SASL", "urn:ietf:params:xml:ns:xmpp-sasl");
   ("Bind", "urn:ietf:params:xml:ns:xmpp-bind");
   ("Session", "urn:ietf:params:xml:ns:xmpp-session");
   ("Stanzas", "urn:ietf:params:xml:ns:xmpp-stanzas");
   ("Roster", "jabber:iq:roster");
   ("DiscoInfo", "http://jabber.org/protocol/disco#info");
   ("DiscoItems", "http://jabber.org/protocol/disco#items");
   ("Caps", "http://jabber.org/protocol/caps");
   ("DataForms", "jabber:x:data");
   ("MUC", "http://jabber.org/protocol/muc");
   ("MUCUser", "http://jabber.org/protocol/muc#user");
   ("MUCAdmin", "http://jabber.org/protocol/muc#admin");
   ("MUCOwner", "http://jabber.org/protocol/muc#owner");
   ("MUCInvite", "jabber:x:conference");
   ("PubSub", "http://jabber.org/protocol/pubsub");
   ("PubSubEvent", "http://jabber.org/protocol/pubsub#event");
   ("PubSubOwner", "http://jabber.org/protocol/pubsub#owner");
   ("MAM", "urn:xmpp:mam:2");
   ("Carbons", "urn:xmpp:carbons:2");
   ("SM", "urn:xmpp:sm:3");
   ("Receipts", "urn:xmpp:receipts");
   ("ChatStates", "http://jabber.org/protocol/chatstates");
   ("ChatMarkers", "urn:xmpp:chat-markers:0");
   ("Correction", "urn:xmpp:message-correct:0");
   ("Retraction", "urn:xmpp:message-retract:1");
   ("Reactions", "urn:xmpp:reactions:0");
   ("Moderation", "urn:xmpp:message-moderate:1");
   ("Styling", "urn:xmpp:styling:0");
   ("Hints", "urn:xmpp:hints");
   ("Forward", "urn:xmpp:forward:0");
   ("StanzaID", "urn:xmpp:sid:0");
   ("Blocking", "urn:xmpp:blocking");
   ("Bookmarks", "urn:xmpp:bookmarks:1");
   ("Register", "jabber:iq:register");
   ("VCard", "vcard-temp")].
Definition namespaces_more : list (string * string) :=
  [("VCard4", "urn:ietf:params:xml:ns:vcard-4.0");
   ("AvatarData", "urn:xmpp:avatar:data");
   ("AvatarMetadata", "urn:xmpp:avatar:metadata");
   ("VCardUpdate", "vcard-temp:x:update");
   ("HTTPUpload", "urn:xmpp:http:upload:0");
   ("OOB", "jabber:x:oob");
   ("OOB2", "jabber:iq:oob");
   ("IBB", "http://jabber.org/protocol/ibb");
   ("SOCKS5", "http://jabber.org/protocol/bytestreams");
   ("Jingle", "urn:xmpp:jingle:1");
   ("JingleFT", "urn:xmpp:jingle:apps:file-transfer:5");
   ("JingleRTP", "urn:xmpp:jingle:apps:rtp:1");
   ("JingleICEUDP", "urn:xmpp:jingle:transports:ice-udp:1");
   ("JingleRawUDP", "urn:xmpp:jingle:transports:raw-udp:1");
   ("JingleDTLS", "urn:xmpp:jingle:apps:dtls:0");
   ("JingleMI", "urn:xmpp:jingle-message:0");
   ("OMEMO", "urn:xmpp:omemo:2");
   ("EME", "urn:xmpp:eme:0");
   ("OMEMOMedia", "urn:xmpp:encrypted:0");
   ("Commands", "http://jabber.org/protocol/commands");
   ("CSI", "urn:xmpp:csi:0");
   ("Push", "urn:xmpp:push:0");
   ("LastActivity", "jabber:iq:last");
   ("RSM", "http://jabber.org/protocol/rsm");
   ("Hashes", "urn:xmpp:hashes:2");
   ("Ping", "urn:xmpp:ping");
   ("Version", "jabber:iq:version");
   ("Time", "urn:xmpp:time");
   ("Delay", "urn:xmpp:delay");
   ("BoB", "urn:xmpp:bob");
   ("SASL2", "urn:xmpp:sasl:2");
   ("SASLCBind", "urn:xmpp:sasl-cb:0");
   ("FAST", "urn:xmpp:fast:0");
   ("Bind2", "urn:xmpp:bind:0");
   ("MIXCore", "urn:xmpp:mix:core:1");
   ("MIXNodes", "urn:xmpp:mix:nodes:1");
   ("MIXPAM", "urn:xmpp:mix:pam:2");
   ("MIXAdmin", "urn:xmpp:mix:admin:0");
   ("MIXAnon", "urn:xmpp:mix:anon:0");
   ("MIXPresence", "urn:xmpp:mix:presence:0");
   ("ExtDisco", "urn:xmpp:extdisco:2");
   ("Dialback", "jabber:server:dialback");
   ("BidiS2S", "urn:xmpp:bidi");
   ("Component", "jabber:component:accept");
   ("ComponentSecret", "jabber:component:connect");
   ("Framing", "urn:ietf:params:xml:ns:xmpp-framing");
   ("BOSH", "http://jabber.org/protocol/httpbind");
   ("BOSHXmpp", "urn:xmpp:xbosh");
   ("FileMetadata", "urn:xmpp:file:metadata:0");
   ("SFS", "urn:xmpp:sfs:0");
   ("SFSEncrypted", "urn:xmpp:esfs:0")].
Definition namespaces : list string := (namespaces_core ++ namespaces_more).*2.

(** ** Types *)

(** *** src/plugins/avatar/avatar.go *)

Definition avatar_Data : gotype := TStruct "Data"
  [("XMLName", TName, "urn:xmpp:avatar:data data");
   ("Value", TString, ",chardata")].
Definition avatar_MetadataInfo : gotype := TStruct "MetadataInfo"
  [("XMLName", TName, "info");
   ("Bytes", TInt 64, "bytes,attr");
   ("Height", TInt 64, "height,attr,omitempty");
   ("Width", TInt 64, "width,attr,omitempty");
   ("ID", TString, "id,attr");
   ("Type", TString, "type,attr");
   ("URL", TString, "url,attr,omitempty")].
Definition avatar_Metadata : gotype := TStruct "Metadata"
  [("XMLName", TName, "urn:xmpp:avatar:metadata metadata");
   ("Info", TSlice avatar_MetadataInfo, "info")].
Definition avatar_VCardUpdate : gotype := TStruct "VCardUpdate"
  [("XMLName", TName, "vcard-temp:x:update x");
   ("Photo", TPtr TString, "photo")].

(** *** src/plugins/blocking/blocking.go *)

Definition blocking_BlockItem : gotype := TStruct "BlockItem"
  [("XMLName", TName, "item");
   ("JID", TString, "jid,attr")].
Definition blocking_BlockList : gotype := TStruct "BlockList"
  [("XMLName", TName, "urn:xmpp:blocking blocklist");
   ("Items", TSlice blocking_BlockItem, "item")].
Definition blocking_Block : gotype := TStruct "Block"
  [("XMLName", TName, "urn:xmpp:blocking block");
   ("Items", TSlice blocking_BlockItem, "item")].
Definition blocking_Unblock : gotype := TStruct "Unblock"
  [("XMLName", TName, "urn:xmpp:blocking unblock");
   ("Items", TSlice blocking_BlockItem, "item")].

(** *** src/plugins/bob/bob.go *)

Definition bob_Data : gotype := TStruct "Data"
  [("XMLName", TName, "urn:xmpp:bob data");
   ("CID", TString, "cid,attr");
   ("Type", TString, "type,attr");
   ("MaxAge", TInt 64, "max-age,attr,omitempty");
   ("Value", TString, ",chardata")].

(** *** src/plugins/bookmarks/bookmarks.go *)

Definition bookmarks_Extension : gotype := TStruct "Extension"
  [("XMLName", TName, "");
   ("Inner", TBytes, ",innerxml")].
Definition bookmarks_Conference : gotype := TStruct "Conference"
  [("XMLName", TName, "urn:xmpp:bookmarks:1 conference");
   ("Autojoin", TBool, "autojoin,attr,omitempty");
   ("Name", TString, "name,attr,omitempty");
   ("Nick", TString, "nick,omitempty");
   ("Password", TString, "password,omitempty");
   ("Extensions", TSlice bookmarks_Extension, "extensions,omitempty")].

(** *** src/plugins/caps/caps.go *)

Definition caps_Caps : gotype := TStruct "Caps"
  [("XMLName", TName, "http://jabber.org/protocol/caps c");
   ("Hash", TString, "hash,attr");
   ("Node", TString, "node,attr");
   ("Ver", TString, "ver,attr")].

(** *** src/plugins/carbons/carbons.go *)

Definition carbons_Enable : gotype := TStruct "Enable"
  [("XMLName", TName, "urn:xmpp:carbons:2 enable")].
Definition carbons_Disable : gotype := TStruct "Disable"
  [("XMLName", TName, "urn:xmpp:carbons:2 disable")].
Definition carbons_Sent : gotype := TStruct "Sent"
  [("XMLName", TName, "urn:xmpp:carbons:2 sent");
   ("Forwarded", TBytes, ",innerxml")].
Definition carbons_Received : gotype := TStruct "Received"
  [("XMLName", TName, "urn:xmpp:carbons:2 received");
   ("Forwarded", TBytes, ",innerxml")].
Definition carbons_Private : gotype := TStruct "Private"
  [("XMLName", TName, "urn:xmpp:carbons:2 private")].

(** *** src/plugins/chatmarkers/chatmarkers.go *)

Definition chatmarkers_Markable : gotype := TStruct "Markable"
  [("XMLName", TName, "urn:xmpp:chat-markers:0 markable")].
Definition chatmarkers_Received : gotype := TStruct "Received"
  [("XMLName", TName, "urn:xmpp:chat-markers:0 received");
   ("ID", TString, "id,attr")].
Definition chatmarkers_Displayed : gotype := TStruct "Displayed"
  [("XMLName", TName, "urn:xmpp:chat-markers:0 displayed");
   ("ID", TString, "id,attr")].
Definition chatmarkers_Acknowledged : gotype := TStruct "Acknowledged"
  [("XMLName", TName, "urn:xmpp:chat-markers:0 acknowledged");
   ("ID", TString, "id,attr")].

(** *** src/plugins/chatstates/chatstates.go *)

Definition chatstates_Active : gotype := TStruct "Active"
  [("XMLName", TName, "http://jabber.org/protocol/chatstates active")].
Definition chatstates_Composing : gotype := TStruct "Composing"
  [("XMLName", TName, "http://jabber.org/protocol/chatstates composing")].
Definition chatstates_Paused : gotype := TStruct "Paused"
  [("XMLName", TName, "http://jabber.org/protocol/chatstates paused")].
Definition chatstates_Inactive : gotype := TStruct "Inactive"
  [("XMLName", TName, "http://jabber.org/protocol/chatstates inactive")].
Definition chatstates_Gone : gotype := TStruct "Gone"
  [("XMLName", TName, "http://jabber.org/protocol/chatstates gone")].

(** *** src/plugins/commands/commands.go *)

Definition commands_Note : gotype := TStruct "Note"
  [("XMLName", TName, "note");
   ("Type", TString, "type,attr,omitempty");
   ("Value", TString, ",chardata")].
Definition commands_Empty : gotype := TStruct "Empty" [].
Definition commands_Actions : gotype := TStruct "Actions"
  [("XMLName", TName, "actions");
   ("Execute", TString, "execute,attr,omitempty");
   ("Prev", TPtr commands_Empty, "prev,omitempty");
   ("Next", TPtr commands_Empty, "next,omitempty");
   ("Complete", TPtr commands_Empty, "complete,omitempty")].
Definition commands_Command : gotype := TStruct "Command"
  [("XMLName", TName, "http://jabber.org/protocol/commands command");
   ("Node", TString, "node,attr");
   ("SessionID", TString, "sessionid,attr,omitempty");
   ("Action", TString, "action,attr,omitempty");
   ("Status", TString, "status,attr,omitempty");
   ("Actions", TPtr commands_Actions, "actions,omitempty");
   ("Note", TPtr commands_Note, "note,omitempty");
   ("Form", TBytes, ",innerxml")].

(** *** src/plugins/correction/correction.go *)

Definition correction_Replace : gotype := TStruct "Replace"
  [("XMLName", TName, "urn:xmpp:message-correct:0 replace");
   ("ID", TString, "id,attr")].

(** *** src/plugins/csi/csi.go *)

Definition csi_Active : gotype := TStruct "Active"
  [("XMLName", TName, "urn:xmpp:csi:0 active")].
Definition csi_Inactive : gotype := TStruct "Inactive"
  [("XMLName", TName, "urn:xmpp:csi:0 inactive")].

(** *** src/plugins/delay/delay.go *)

Definition delay_Delay : gotype := TStruct "Delay"
  [("XMLName", TName, "urn:xmpp:delay delay");
   ("From", TString, "from,attr,omitempty");
   ("Stamp", TString, "stamp,attr");
   ("Reason", TString, ",chardata")].

(** *** src/plugins/dialback/dialback.go *)

Definition dialback_Result : gotype := TStruct "Result"
  [("XMLName", TName, "jabber:server:dialback result");
   ("From", TString, "from,attr");
   ("To", TString, "to,attr");
   ("Type", TString, "type,attr,omitempty");
   ("Key", TString, ",chardata")].
Definition dialback_Verify : gotype := TStruct "Verify"
  [("XMLName", TName, "jabber:server:dialback verify");
   ("From", TString, "from,attr");
   ("To", TString, "to,attr");
   ("ID", TString, "id,attr");
   ("Type", TString, "type,attr,omitempty");
   ("Key", TString, ",chardata")].
Definition dialback_Bidi : gotype := TStruct "Bidi"
  [("XMLName", TName, "urn:xmpp:bidi bidi")].

(** *** src/plugins/disco/disco.go *)

Definition disco_Identity : gotype := TStruct "Identity"
  [("XMLName", TName, "identity");
   ("Category", TString, "category,attr");
   ("Type", TString, "type,attr");
   ("Name", TString, "name,attr,omitempty");
   ("Lang", TString, "xml:lang,attr,omitempty")].
Definition disco_Feature : gotype := TStruct "Feature"
  [("XMLName", TName, "feature");
   ("Var", TString, "var,attr")].
Definition disco_InfoQuery : gotype := TStruct "InfoQuery"
  [("XMLName", TName, "http://jabber.org/protocol/disco#info query");
   ("Node", TString, "node,attr,omitempty");
   ("Identities", TSlice disco_Identity, "identity");
   ("Features", TSlice disco_Feature, "feature")].
Definition disco_Item : gotype := TStruct "Item"
  [("XMLName", TName, "item");
   ("JID", TString, "jid,attr");
   ("Node", TString, "node,attr,omitempty");
   ("Name", TString, "name,attr,omitempty")].
Definition disco_ItemsQuery : gotype := TStruct "ItemsQuery"
  [("XMLName", TName, "http://jabber.org/protocol/disco#items query");
   ("Node", TString, "node,attr,omitempty");
   ("Items", TSlice disco_Item, "item")].

(** *** src/plugins/extdisco/extdisco.go *)

Definition extdisco_Service : gotype := TStruct "Service"
  [("XMLName", TName, "service");
   ("Host", TString, "host,attr");
   ("Port", TInt 64, "port,attr,omitempty");
   ("Transport", TString, "transport,attr,omitempty");
   ("Type", TString, "type,attr");
   ("Name", TString, "name,attr,omitempty");
   ("Username", TString, "username,attr,omitempty");
   ("Password", TString, "password,attr,omitempty");
   ("Restricted", TBool, "restricted,attr,omitempty");
   ("Expires", TString, "expires,attr,omitempty")].
Definition extdisco_Services : gotype := TStruct "Services"
  [("XMLName", TName, "urn:xmpp:extdisco:2 services");
   ("Type", TString, "type,attr,omitempty");
   ("Services", TSlice extdisco_Service, "service")].
Definition extdisco_Credentials : gotype := TStruct "Credentials"
  [("XMLName", TName, "urn:xmpp:extdisco:2 credentials");
   ("Service", TPtr extdisco_Service, "service")].

(** *** src/plugins/filetransfer/filetransfer.go *)

Definition filetransfer_Range : gotype := TStruct "Range"
  [("XMLName", TName, "range");
   ("Offset", TInt 64, "offset,attr,omitempty");
   ("Length", TInt 64, "length,attr,omitempty")].
Definition filetransfer_Hash : gotype := TStruct "Hash"
  [("XMLName", TName, "urn:xmpp:hashes:2 hash");
   ("Algo", TString, "algo,attr");
   ("Value", TString, ",chardata")].
Definition filetransfer_File : gotype := TStruct "File"
  [("XMLName", TName, "file");
   ("Date", TString, "date,omitempty");
   ("Desc", TString, "desc,omitempty");
   ("MediaType", TString, "media-type,omitempty");
   ("Name", TString, "name,omitempty");
   ("Size", TInt 64, "size,omitempty");
   ("Range", TPtr filetransfer_Range, "range,omitempty");
   ("Hashes", TSlice filetransfer_Hash, "urn:xmpp:hashes:2 hash,omitempty")].
Definition filetransfer_Description : gotype := TStruct "Description"
  [("XMLName", TName, "urn:xmpp:jingle:apps:file-transfer:5 description");
   ("File", TPtr filetransfer_File, "file")].
Definition filetransfer_FileMetadataEl : gotype := TStruct "FileMetadataEl"
  [("XMLName", TName, "urn:xmpp:file:metadata:0 file");
   ("MediaType", TString, "media-type,omitempty");
   ("Name", TString, "name,omitempty");
   ("Size", TInt 64, "size,omitempty");
   ("Desc", TString, "desc,omitempty");
   ("Hashes", TSlice filetransfer_Hash, "urn:xmpp:hashes:2 hash,omitempty")].
Definition filetransfer_Source : gotype := TStruct "Source"
  [("XMLName", TName, "url-data");
   ("Target", TString, "target,attr")].
Definition filetransfer_FileSharing : gotype := TStruct "FileSharing"
  [("XMLName", TName, "urn:xmpp:sfs:0 file-sharing");
   ("Disposition", TString, "disposition,attr,omitempty");
   ("FileMetadata", TPtr filetransfer_FileMetadataEl, "urn:xmpp:file:metadata:0 file");
   ("Sources", TSlice filetransfer_Source, "sources>url-data")].

(** *** src/plugins/form/form.go *)

Definition form_Option : gotype := TStruct "Option"
  [("XMLName", TName, "option");
   ("Label", TString, "label,attr,omitempty");
   ("Value", TString, "value")].
Definition form_Field : gotype := TStruct "Field"
  [("XMLName", TName, "field");
   ("Var", TString, "var,attr,omitempty");
   ("Type", TString, "type,attr,omitempty");
   ("Label", TString, "label,attr,omitempty");
   ("Required", TBool, "-");
   ("Desc", TString, "desc,omitempty");
   ("Values", TSlice TString, "value,omitempty");
   ("Options", TSlice form_Option, "option,omitempty")].
Definition form_FormItem : gotype := TStruct "FormItem"
  [("XMLName", TName, "item");
   ("Fields", TSlice form_Field, "field")].
Definition form_Reported : gotype := TStruct "Reported"
  [("XMLName", TName, "reported");
   ("Fields", TSlice form_Field, "field")].
Definition form_Form : gotype := TStruct "Form"
  [("XMLName", TName, "jabber:x:data x");
   ("Type", TString, "type,attr");
   ("Title", TString, "title,omitempty");
   ("Instructions", TSlice TString, "instructions,omitempty");
   ("Fields", TSlice form_Field, "field");
   ("Reported", TPtr form_Reported, "reported,omitempty");
   ("Items", TSlice form_FormItem, "item,omitempty")].

(** *** src/plugins/forward/forward.go *)

Definition forward_Delay : gotype := TStruct "Delay"
  [("XMLName", TName, "urn:xmpp:delay delay");
   ("From", TString, "from,attr,omitempty");
   ("Stamp", TString, "stamp,attr")].
Definition forward_Forwarded : gotype := TStruct "Forwarded"
  [("XMLName", TName, "urn:xmpp:forward:0 forwarded");
   ("Delay", TPtr forward_Delay, "urn:xmpp:delay delay,omitempty");
   ("Inner", TBytes, ",innerxml")].

(** *** src/plugins/hash/hash.go *)

Definition hash_Hash : gotype := TStruct "Hash"
  [("XMLName", TName, "urn:xmpp:hashes:2 hash");
   ("Algo", TString, "algo,attr");
   ("Value", TString, ",chardata")].
Definition hash_HashUsed : gotype := TStruct "HashUsed"
  [("XMLName", TName, "urn:xmpp:hashes:2 hash-used");
   ("Algo", TString, "algo,attr")].

(** *** src/plugins/hints/hints.go *)

Definition hints_NoPermanentStore : gotype := TStruct "NoPermanentStore"
  [("XMLName", TName, "urn:xmpp:hints no-permanent-store")].
Definition hints_NoStore : gotype := TStruct "NoStore"
  [("XMLName", TName, "urn:xmpp:hints no-store")].
Definition hints_NoCopy : gotype := TStruct "NoCopy"
  [("XMLName", TName, "urn:xmpp:hints no-copy")].
Definition hints_Store : gotype := TStruct "Store"
  [("XMLName", TName, "urn:xmpp:hints store")].

(** *** src/plugins/ibb/ibb.go *)

Definition ibb_Open : gotype := TStruct "Open"
  [("XMLName", TName, "http://jabber.org/protocol/ibb open");
   ("BlockSize", TInt 64, "block-size,attr");
   ("SID", TString, "sid,attr");
   ("Stanza", TString, "stanza,attr,omitempty")].
Definition ibb_Data : gotype := TStruct "Data"
  [("XMLName", TName, "http://jabber.org/protocol/ibb data");
   ("SID", TString, "sid,attr");
   ("Seq", TUint 16, "seq,attr");
   ("Value", TString, ",chardata")].
Definition ibb_Close : gotype := TStruct "Close"
  [("XMLName", TName, "http://jabber.org/protocol/ibb close");
   ("SID", TString, "sid,attr")].

(** *** src/plugins/jingle/jingle.go *)

Definition jingle_Reason : gotype := TStruct "Reason"
  [("XMLName", TName, "reason");
   ("Condition", TString, "-");
   ("Text", TString, "text,omitempty")].
Definition jingle_Content : gotype := TStruct "Content"
  [("XMLName", TName, "content");
   ("Creator", TString, "creator,attr");
   ("Name", TString, "name,attr");
   ("Senders", TString, "senders,attr,omitempty");
   ("Disposition", TString, "disposition,attr,omitempty");
   ("Description", TBytes, ",innerxml")].
Definition jingle_Jingle : gotype := TStruct "Jingle"
  [("XMLName", TName, "urn:xmpp:jingle:1 jingle");
   ("Action", TString, "action,attr");
   ("Initiator", TString, "initiator,attr,omitempty");
   ("Responder", TString, "responder,attr,omitempty");
   ("SID", TString, "sid,attr");
   ("Contents", TSlice jingle_Content, "content");
   ("Reason", TPtr jingle_Reason, "reason,omitempty")].
Definition jingle_Parameter : gotype := TStruct "Parameter"
  [("XMLName", TName, "parameter");
   ("Name", TString, "name,attr");
   ("Value", TString, "value,attr")].
Definition jingle_PayloadType : gotype := TStruct "PayloadType"
  [("XMLName", TName, "payload-type");
   ("ID", TInt 64, "id,attr");
   ("Name", TString, "name,attr");
   ("Clockrate", TInt 64, "clockrate,attr,omitempty");
   ("Channels", TInt 64, "channels,attr,omitempty");
   ("Parameters", TSlice jingle_Parameter, "parameter")].
Definition jingle_RTPDescription : gotype := TStruct "RTPDescription"
  [("XMLName", TName, "urn:xmpp:jingle:apps:rtp:1 description");
   ("Media", TString, "media,attr");
   ("PayloadTypes", TSlice jingle_PayloadType, "payload-type")].
Definition jingle_Candidate : gotype := TStruct "Candidate"
  [("XMLName", TName, "candidate");
   ("Component", TInt 64, "component,attr");
   ("Foundation", TString, "foundation,attr");
   ("Generation", TInt 64, "generation,attr");
   ("ID", TString, "id,attr");
   ("IP", TString, "ip,attr");
   ("Network", TInt 64, "network,attr,omitempty");
   ("Port", TInt 64, "port,attr");
   ("Priority", TInt 64, "priority,attr");
   ("Protocol", TString, "protocol,attr");
   ("Type", TString, "type,attr");
   ("RelAddr", TString, "rel-addr,attr,omitempty");
   ("RelPort", TInt 64, "rel-port,attr,omitempty")].
Definition jingle_Fingerprint : gotype := TStruct "Fingerprint"
  [("XMLName", TName, "urn:xmpp:jingle:apps:dtls:0 fingerprint");
   ("Hash", TString, "hash,attr");
   ("Setup", TString, "setup,attr");
   ("Value", TString, ",chardata")].
Definition jingle_ICEUDPTransport : gotype := TStruct "ICEUDPTransport"
  [("XMLName", TName, "urn:xmpp:jingle:transports:ice-udp:1 transport");
   ("Ufrag", TString, "ufrag,attr,omitempty");
   ("Pwd", TString, "pwd,attr,omitempty");
   ("Candidates", TSlice jingle_Candidate, "candidate");
   ("Fingerprint", TPtr jingle_Fingerprint, "urn:xmpp:jingle:apps:dtls:0 fingerprint,omitempty")].
Definition jingle_RawCandidate : gotype := TStruct "RawCandidate"
  [("XMLName", TName, "candidate");
   ("Component", TInt 64, "component,attr");
   ("Generation", TInt 64, "generation,attr");
   ("ID", TString, "id,attr");
   ("IP", TString, "ip,attr");
   ("Port", TInt 64, "port,attr");
   ("Type", TString, "type,attr,omitempty")].
Definition jingle_RawUDPTransport : gotype := TStruct "RawUDPTransport"
  [("XMLName", TName, "urn:xmpp:jingle:transports:raw-udp:1 transport");
   ("Candidates", TSlice jingle_RawCandidate, "candidate")].
Definition jingle_ProposeDesc : gotype := TStruct "ProposeDesc"
  [("XMLName", TName, "description");
   ("Media", TString, "media,attr");
   ("NS", TString, "xmlns,attr")].
Definition jingle_Propose : gotype := TStruct "Propose"
  [("XMLName", TName, "urn:xmpp:jingle-message:0 propose");
   ("ID", TString, "id,attr");
   ("Descriptions", TSlice jingle_ProposeDesc, "description")].
Definition jingle_Retract : gotype := TStruct "Retract"
  [("XMLName", TName, "urn:xmpp:jingle-message:0 retract");
   ("ID", TString, "id,attr")].
Definition jingle_Accept : gotype := TStruct "Accept"
  [("XMLName", TName, "urn:xmpp:jingle-message:0 accept");
   ("ID", TString, "id,attr")].
Definition jingle_Reject : gotype := TStruct "Reject"
  [("XMLName", TName, "urn:xmpp:jingle-message:0 reject");
   ("ID", TString, "id,attr")].
Definition jingle_Proceed : gotype := TStruct "Proceed"
  [("XMLName", TName, "urn:xmpp:jingle-message:0 proceed");
   ("ID", TString, "id,attr")].

(** *** src/plugins/lastactivity/lastactivity.go *)

Definition lastactivity_Query : gotype := TStruct "Query"
  [("XMLName", TName, "jabber:iq:last query");
   ("Seconds", TUint 64, "seconds,attr,omitempty");
   ("Status", TString, ",chardata")].

(** *** src/plugins/mam/mam.go *)

Definition mam_Query : gotype := TStruct "Query"
  [("XMLName", TName, "urn:xmpp:mam:2 query");
   ("QueryID", TString, "queryid,attr,omitempty");
   ("Node", TString, "node,attr,omitempty");
   ("Form", TBytes, ",innerxml")].
Definition mam_Fin : gotype := TStruct "Fin"
  [("XMLName", TName, "urn:xmpp:mam:2 fin");
   ("Complete", TBool, "complete,attr,omitempty");
   ("Stable", TBool, "stable,attr,omitempty");
   ("Set", TBytes, ",innerxml")].
Definition mam_Result : gotype := TStruct "Result"
  [("XMLName", TName, "urn:xmpp:mam:2 result");
   ("QueryID", TString, "queryid,attr,omitempty");
   ("ID", TString, "id,attr");
   ("Forwarded", TBytes, ",innerxml")].
Definition mam_JIDList : gotype := TStruct "JIDList"
  [("JIDs", TSlice TString, "jid")].
Definition mam_Prefs : gotype := TStruct "Prefs"
  [("XMLName", TName, "urn:xmpp:mam:2 prefs");
   ("Default", TString, "default,attr");
   ("Always", TPtr mam_JIDList, "always,omitempty");
   ("Never", TPtr mam_JIDList, "never,omitempty")].
Definition mam_Info : gotype := TStruct "Info"
  [("ID", TString, "id,attr");
   ("Timestamp", TString, "timestamp,attr")].
Definition mam_Metadata : gotype := TStruct "Metadata"
  [("XMLName", TName, "urn:xmpp:mam:2 metadata");
   ("Start", TPtr mam_Info, "start,omitempty");
   ("End", TPtr mam_Info, "end,omitempty")].

(** *** src/plugins/mix/mix.go *)

Definition mix_Subscribe : gotype := TStruct "Subscribe"
  [("XMLName", TName, "subscribe");
   ("Node", TString, "node,attr")].
Definition mix_Join : gotype := TStruct "Join"
  [("XMLName", TName, "urn:xmpp:mix:core:1 join");
   ("ID", TString, "id,attr,omitempty");
   ("Nick", TString, "nick,omitempty");
   ("Subscribe", TSlice mix_Subscribe, "subscribe")].
Definition mix_Leave : gotype := TStruct "Leave"
  [("XMLName", TName, "urn:xmpp:mix:core:1 leave")].
Definition mix_Participant : gotype := TStruct "Participant"
  [("XMLName", TName, "urn:xmpp:mix:core:1 participant");
   ("Nick", TString, "nick,omitempty");
   ("JID", TString, "jid,omitempty")].
Definition mix_SetNick : gotype := TStruct "SetNick"
  [("XMLName", TName, "urn:xmpp:mix:core:1 setnick");
   ("Nick", TString, "nick")].
Definition mix_Create : gotype := TStruct "Create"
  [("XMLName", TName, "urn:xmpp:mix:core:1 create");
   ("Channel", TString, "channel,attr,omitempty")].
Definition mix_Destroy : gotype := TStruct "Destroy"
  [("XMLName", TName, "urn:xmpp:mix:core:1 destroy");
   ("Channel", TString, "channel,attr")].
Definition mix_ClientJoin : gotype := TStruct "ClientJoin"
  [("XMLName", TName, "urn:xmpp:mix:pam:2 client-join");
   ("Channel", TString, "channel,attr");
   ("Join", TPtr mix_Join, "urn:xmpp:mix:core:1 join")].
Definition mix_ClientLeave : gotype := TStruct "ClientLeave"
  [("XMLName", TName, "urn:xmpp:mix:pam:2 client-leave");
   ("Channel", TString, "channel,attr");
   ("Leave", TPtr mix_Leave, "urn:xmpp:mix:core:1 leave")].

(** *** src/plugins/moderation/moderation.go *)

Definition moderation_Retract : gotype := TStruct "Retract"
  [("XMLName", TName, "urn:xmpp:message-retract:1 retract")].
Definition moderation_Moderate : gotype := TStruct "Moderate"
  [("XMLName", TName, "urn:xmpp:message-moderate:1 moderate");
   ("ID", TString, "id,attr");
   ("Retract", TPtr moderation_Retract, "retract,omitempty");
   ("Reason", TString, "reason,omitempty")].
Definition moderation_Moderated : gotype := TStruct "Moderated"
  [("XMLName", TName, "urn:xmpp:message-moderate:1 moderated");
   ("By", TString, "by,attr")].

(** *** src/plugins/muc/muc.go *)

Definition muc_History : gotype := TStruct "History"
  [("XMLName", TName, "history");
   ("MaxChars", TPtr (TInt 64), "maxchars,attr,omitempty");
   ("MaxStanzas", TPtr (TInt 64), "maxstanzas,attr,omitempty");
   ("Seconds", TPtr (TInt 64), "seconds,attr,omitempty");
   ("Since", TString, "since,attr,omitempty")].
Definition muc_MUC : gotype := TStruct "MUC"
  [("XMLName", TName, "http://jabber.org/protocol/muc x");
   ("History", TPtr muc_History, "history,omitempty");
   ("Password", TString, "password,omitempty")].
Definition muc_Decline : gotype := TStruct "Decline"
  [("XMLName", TName, "decline");
   ("From", TString, "from,attr,omitempty");
   ("To", TString, "to,attr,omitempty");
   ("Reason", TString, "reason,omitempty")].
Definition muc_Invite : gotype := TStruct "Invite"
  [("XMLName", TName, "invite");
   ("From", TString, "from,attr,omitempty");
   ("To", TString, "to,attr,omitempty");
   ("Reason", TString, "reason,omitempty")].
Definition muc_Status : gotype := TStruct "Status"
  [("XMLName", TName, "status");
   ("Code", TInt 64, "code,attr")].
Definition muc_UserItem : gotype := TStruct "UserItem"
  [("XMLName", TName, "item");
   ("Affiliation", TString, "affiliation,attr,omitempty");
   ("Role", TString, "role,attr,omitempty");
   ("JID", TString, "jid,attr,omitempty");
   ("Nick", TString, "nick,attr,omitempty");
   ("Reason", TString, "reason,omitempty")].
Definition muc_UserX : gotype := TStruct "UserX"
  [("XMLName", TName, "http://jabber.org/protocol/muc#user x");
   ("Items", TSlice muc_UserItem, "item");
   ("Status", TSlice muc_Status, "status");
   ("Invite", TSlice muc_Invite, "invite");
   ("Decline", TPtr muc_Decline, "decline,omitempty")].
Definition muc_AdminQuery : gotype := TStruct "AdminQuery"
  [("XMLName", TName, "http://jabber.org/protocol/muc#admin query");
   ("Items", TSlice muc_UserItem, "item")].
Definition muc_OwnerQuery : gotype := TStruct "OwnerQuery"
  [("XMLName", TName, "http://jabber.org/protocol/muc#owner query");
   ("Form", TBytes, ",innerxml")].
Definition muc_DirectInvite : gotype := TStruct "DirectInvite"
  [("XMLName", TName, "jabber:x:conference x");
   ("JID", TString, "jid,attr");
   ("Password", TString, "password,attr,omitempty");
   ("Reason", TString, "reason,attr,omitempty")].

(** *** src/plugins/omemo/omemo.go *)

Definition omemo_Key : gotype := TStruct "Key"
  [("XMLName", TName, "key");
   ("RID", TUint 32, "rid,attr");
   ("Prekey", TBool, "prekey,attr,omitempty");
   ("Value", TString, ",chardata")].
Definition omemo_Header : gotype := TStruct "Header"
  [("XMLName", TName, "header");
   ("SID", TUint 32, "sid,attr");
   ("Keys", TSlice omemo_Key, "keys>key");
   ("IV", TString, "iv")].
Definition omemo_Payload : gotype := TStruct "Payload"
  [("XMLName", TName, "payload");
   ("Value", TString, ",chardata")].
Definition omemo_Encrypted : gotype := TStruct "Encrypted"
  [("XMLName", TName, "urn:xmpp:omemo:2 encrypted");
   ("Header", omemo_Header, "header");
   ("Payload", TPtr omemo_Payload, "payload,omitempty")].
Definition omemo_Device : gotype := TStruct "Device"
  [("XMLName", TName, "device");
   ("ID", TUint 32, "id,attr");
   ("Label", TString, "label,attr,omitempty")].
Definition omemo_DeviceList : gotype := TStruct "DeviceList"
  [("XMLName", TName, "urn:xmpp:omemo:2 devices");
   ("Devices", TSlice omemo_Device, "device")].
Definition omemo_SPK : gotype := TStruct "SPK"
  [("XMLName", TName, "spk");
   ("ID", TUint 32, "id,attr");
   ("Value", TString, ",chardata")].
Definition omemo_Prekey : gotype := TStruct "Prekey"
  [("XMLName", TName, "pk");
   ("ID", TUint 32, "id,attr");
   ("Value", TString, ",chardata")].
Definition omemo_Bundle : gotype := TStruct "Bundle"
  [("XMLName", TName, "urn:xmpp:omemo:2 bundle");
   ("SPK", omemo_SPK, "spk");
   ("SPKS", TString, "spks");
   ("IK", TString, "ik");
   ("Prekeys", TSlice omemo_Prekey, "prekeys>pk")].
Definition omemo_EME : gotype := TStruct "EME"
  [("XMLName", TName, "urn:xmpp:eme:0 encryption");
   ("Namespace", TString, "namespace,attr");
   ("Name", TString, "name,attr,omitempty")].

(** *** src/plugins/oob/oob.go *)

Definition oob_X : gotype := TStruct "X"
  [("XMLName", TName, "jabber:x:oob x");
   ("URL", TString, "url");
   ("Desc", TString, "desc,omitempty")].
Definition oob_Query : gotype := TStruct "Query"
  [("XMLName", TName, "jabber:iq:oob query");
   ("URL", TString, "url");
   ("Desc", TString, "desc,omitempty")].

(** *** src/plugins/ping/ping.go *)

Definition ping_Ping : gotype := TStruct "Ping"
  [("XMLName", TName, "urn:xmpp:ping ping")].

(** *** src/plugins/presence/presence.go *)

Definition presence_Status : gotype := TStruct "Status"
  [("XMLName", TName, "presence");
   ("Show", TString, "show,omitempty");
   ("Status", TString, "status,omitempty");
   ("Priority", TInt 8, "priority,omitempty")].

(** *** src/plugins/pubsub/pubsub.go *)

Definition pubsub_PubItem : gotype := TStruct "PubItem"
  [("XMLName", TName, "item");
   ("ID", TString, "id,attr,omitempty");
   ("Payload", TBytes, ",innerxml")].
Definition pubsub_Publish : gotype := TStruct "Publish"
  [("XMLName", TName, "publish");
   ("Node", TString, "node,attr");
   ("Items", TSlice pubsub_PubItem, "item")].
Definition pubsub_Items : gotype := TStruct "Items"
  [("XMLName", TName, "items");
   ("Node", TString, "node,attr");
   ("SubID", TString, "subid,attr,omitempty");
   ("MaxItems", TPtr (TInt 64), "max_items,attr,omitempty");
   ("Items", TSlice pubsub_PubItem, "item")].
Definition pubsub_Subscription : gotype := TStruct "Subscription"
  [("XMLName", TName, "subscription");
   ("Node", TString, "node,attr");
   ("JID", TString, "jid,attr");
   ("SubID", TString, "subid,attr,omitempty");
   ("State", TString, "subscription,attr,omitempty")].
Definition pubsub_Create : gotype := TStruct "Create"
  [("XMLName", TName, "create");
   ("Node", TString, "node,attr,omitempty")].
Definition pubsub_Retract : gotype := TStruct "Retract"
  [("XMLName", TName, "retract");
   ("Node", TString, "node,attr");
   ("Notify", TBool, "notify,attr,omitempty");
   ("Items", TSlice pubsub_PubItem, "item")].
Definition pubsub_SubReq : gotype := TStruct "SubReq"
  [("XMLName", TName, "subscribe");
   ("Node", TString, "node,attr");
   ("JID", TString, "jid,attr")].
Definition pubsub_Configure : gotype := TStruct "Configure"
  [("XMLName", TName, "configure");
   ("Form", TBytes, ",innerxml")].
Definition pubsub_Unsub : gotype := TStruct "Unsub"
  [("XMLName", TName, "unsubscribe");
   ("Node", TString, "node,attr");
   ("JID", TString, "jid,attr");
   ("SubID", TString, "subid,attr,omitempty")].
Definition pubsub_PubSub : gotype := TStruct "PubSub"
  [("XMLName", TName, "http://jabber.org/protocol/pubsub pubsub");
   ("Create", TPtr pubsub_Create, "create,omitempty");
   ("Configure", TPtr pubsub_Configure, "configure,omitempty");
   ("Subscribe", TPtr pubsub_SubReq, "subscribe,omitempty");
   ("Unsubscribe", TPtr pubsub_Unsub, "unsubscribe,omitempty");
   ("Publish", TPtr pubsub_Publish, "publish,omitempty");
   ("Retract", TPtr pubsub_Retract, "retract,omitempty");
   ("Items", TPtr pubsub_Items, "items,omitempty");
   ("Subscription", TPtr pubsub_Subscription, "subscription,omitempty")].
Definition pubsub_EventRetract : gotype := TStruct "EventRetract"
  [("XMLName", TName, "retract");
   ("ID", TString, "id,attr")].
Definition pubsub_EventItems : gotype := TStruct "EventItems"
  [("XMLName", TName, "items");
   ("Node", TString, "node,attr");
   ("Items", TSlice pubsub_PubItem, "item");
   ("Retract", TSlice pubsub_EventRetract, "retract")].
Definition pubsub_EventPurge : gotype := TStruct "EventPurge"
  [("XMLName", TName, "purge");
   ("Node", TString, "node,attr")].
Definition pubsub_EventDelete : gotype := TStruct "EventDelete"
  [("XMLName", TName, "delete");
   ("Node", TString, "node,attr")].
Definition pubsub_Event : gotype := TStruct "Event"
  [("XMLName", TName, "http://jabber.org/protocol/pubsub#event event");
   ("Items", TPtr pubsub_EventItems, "items,omitempty");
   ("Purge", TPtr pubsub_EventPurge, "purge,omitempty");
   ("Delete", TPtr pubsub_EventDelete, "delete,omitempty")].
Definition pubsub_OwnerPurge : gotype := TStruct "OwnerPurge"
  [("XMLName", TName, "purge");
   ("Node", TString, "node,attr")].
Definition pubsub_OwnerConfigure : gotype := TStruct "OwnerConfigure"
  [("XMLName", TName, "configure");
   ("Node", TString, "node,attr");
   ("Form", TBytes, ",innerxml")].
Definition pubsub_OwnerDelete : gotype := TStruct "OwnerDelete"
  [("XMLName", TName, "delete");
   ("Node", TString, "node,attr")].
Definition pubsub_PubSubOwner : gotype := TStruct "PubSubOwner"
  [("XMLName", TName, "http://jabber.org/protocol/pubsub#owner pubsub");
   ("Configure", TPtr pubsub_OwnerConfigure, "configure,omitempty");
   ("Delete", TPtr pubsub_OwnerDelete, "delete,omitempty");
   ("Purge", TPtr pubsub_OwnerPurge, "purge,omitempty")].

(** *** src/plugins/push/push.go *)

Definition push_Enable : gotype := TStruct "Enable"
  [("XMLName", TName, "urn:xmpp:push:0 enable");
   ("JID", TString, "jid,attr");
   ("Node", TString, "node,attr");
   ("Form", TBytes, ",innerxml")].
Definition push_Disable : gotype := TStruct "Disable"
  [("XMLName", TName, "urn:xmpp:push:0 disable");
   ("JID", TString, "jid,attr");
   ("Node", TString, "node,attr,omitempty")].

(** *** src/plugins/reactions/reactions.go *)

Definition reactions_Reaction : gotype := TStruct "Reaction"
  [("XMLName", TName, "reaction");
   ("Value", TString, ",chardata")].
Definition reactions_Reactions : gotype := TStruct "Reactions"
  [("XMLName", TName, "urn:xmpp:reactions:0 reactions");
   ("ID", TString, "id,attr");
   ("Items", TSlice reactions_Reaction, "reaction")].

(** *** src/plugins/receipts/receipts.go *)

Definition receipts_Request : gotype := TStruct "Request"
  [("XMLName", TName, "urn:xmpp:receipts request")].
Definition receipts_Received : gotype := TStruct "Received"
  [("XMLName", TName, "urn:xmpp:receipts received");
   ("ID", TString, "id,attr")].

(** *** src/plugins/register/register.go *)

Definition register_Empty : gotype := TStruct "Empty"
  [("XMLName", TName, "")].
Definition register_Query : gotype := TStruct "Query"
  [("XMLName", TName, "jabber:iq:register query");
   ("Registered", TPtr register_Empty, "registered,omitempty");
   ("Username", TString, "username,omitempty");
   ("Password", TString, "password,omitempty");
   ("Email", TString, "email,omitempty");
   ("Instructions", TString, "instructions,omitempty");
   ("Remove", TPtr register_Empty, "remove,omitempty");
   ("Form", TBytes, ",innerxml")].

(** *** src/plugins/retraction/retraction.go *)

Definition retraction_Retract : gotype := TStruct "Retract"
  [("XMLName", TName, "urn:xmpp:message-retract:1 retract");
   ("ID", TString, "id,attr")].
Definition retraction_Retracted : gotype := TStruct "Retracted"
  [("XMLName", TName, "urn:xmpp:message-retract:1 retracted");
   ("Stamp", TString, "stamp,attr,omitempty")].

(** *** src/plugins/roster/roster.go *)

Definition roster_Item : gotype := TStruct "Item"
  [("XMLName", TName, "item");
   ("JID", TString, "jid,attr");
   ("Name", TString, "name,attr,omitempty");
   ("Subscription", TString, "subscription,attr,omitempty");
   ("Ask", TString, "ask,attr,omitempty");
   ("Groups", TSlice TString, "group,omitempty")].
Definition roster_Query : gotype := TStruct "Query"
  [("XMLName", TName, "jabber:iq:roster query");
   ("Ver", TString, "ver,attr,omitempty");
   ("Items", TSlice roster_Item, "item")].

(** *** src/plugins/rsm/rsm.go *)

Definition rsm_First : gotype := TStruct "First"
  [("XMLName", TName, "first");
   ("Index", TInt 64, "index,attr,omitempty");
   ("Value", TString, ",chardata")].
Definition rsm_Set : gotype := TStruct "Set"
  [("XMLName", TName, "http://jabber.org/protocol/rsm set");
   ("After", TString, "after,omitempty");
   ("Before", TString, "before,omitempty");
   ("Count", TPtr (TInt 64), "count,omitempty");
   ("First", TPtr rsm_First, "first,omitempty");
   ("Index", TPtr (TInt 64), "index,omitempty");
   ("Last", TString, "last,omitempty");
   ("Max", TPtr (TInt 64), "max,omitempty")].

(** *** src/plugins/sasl2/sasl2.go *)

Definition sasl2_Inline : gotype := TStruct "Inline"
  [("XMLName", TName, "inline");
   ("Inner", TBytes, ",innerxml")].
Definition sasl2_Mechanism : gotype := TStruct "Mechanism"
  [("XMLName", TName, "mechanism");
   ("Value", TString, ",chardata")].
Definition sasl2_Authentication : gotype := TStruct "Authentication"
  [("XMLName", TName, "urn:xmpp:sasl:2 authentication");
   ("Mechanisms", TSlice sasl2_Mechanism, "mechanism");
   ("Inline", TPtr sasl2_Inline, "inline,omitempty")].
Definition sasl2_UserAgent : gotype := TStruct "UserAgent"
  [("XMLName", TName, "user-agent");
   ("ID", TString, "id,attr,omitempty");
   ("Software", TString, "software,omitempty");
   ("Device", TString, "device,omitempty")].
Definition sasl2_Authenticate : gotype := TStruct "Authenticate"
  [("XMLName", TName, "urn:xmpp:sasl:2 authenticate");
   ("Mechanism", TString, "mechanism,attr");
   ("InitialResponse", TString, "initial-response,omitempty");
   ("UserAgent", TPtr sasl2_UserAgent, "user-agent,omitempty");
   ("Inline", TBytes, ",innerxml")].
Definition sasl2_Challenge : gotype := TStruct "Challenge"
  [("XMLName", TName, "urn:xmpp:sasl:2 challenge");
   ("Value", TString, ",chardata")].
Definition sasl2_Response : gotype := TStruct "Response"
  [("XMLName", TName, "urn:xmpp:sasl:2 response");
   ("Value", TString, ",chardata")].
Definition sasl2_Success : gotype := TStruct "Success"
  [("XMLName", TName, "urn:xmpp:sasl:2 success");
   ("AdditionalData", TString, "additional-data,omitempty");
   ("AuthzID", TString, "authorization-identifier,omitempty");
   ("Inner", TBytes, ",innerxml")].
Definition sasl2_Failure : gotype := TStruct "Failure"
  [("XMLName", TName, "urn:xmpp:sasl:2 failure");
   ("Condition", TString, "-");
   ("Text", TString, "text,omitempty")].
Definition sasl2_Bind2 : gotype := TStruct "Bind2"
  [("XMLName", TName, "urn:xmpp:bind:0 bind");
   ("Tag", TString, "tag,omitempty");
   ("Inner", TBytes, ",innerxml")].
Definition sasl2_Bound : gotype := TStruct "Bound"
  [("XMLName", TName, "urn:xmpp:bind:0 bound");
   ("Inner", TBytes, ",innerxml")].
Definition sasl2_Fast : gotype := TStruct "Fast"
  [("XMLName", TName, "urn:xmpp:fast:0 fast");
   ("Mechanisms", TSlice sasl2_Mechanism, "mechanism");
   ("Invalidate", TBool, "invalidate,attr,omitempty")].
Definition sasl2_RequestToken : gotype := TStruct "RequestToken"
  [("XMLName", TName, "urn:xmpp:fast:0 request-token");
   ("Mechanism", TString, "mechanism,attr")].
Definition sasl2_Token : gotype := TStruct "Token"
  [("XMLName", TName, "urn:xmpp:fast:0 token");
   ("Token", TString, "token,attr");
   ("Expiry", TString, "expiry,attr,omitempty")].
Definition sasl2_ChannelBinding : gotype := TStruct "ChannelBinding"
  [("XMLName", TName, "channel-binding");
   ("Type", TString, "type,attr")].
Definition sasl2_SASLChannelBinding : gotype := TStruct "SASLChannelBinding"
  [("XMLName", TName, "urn:xmpp:sasl-cb:0 sasl-channel-binding");
   ("ChannelBindings", TSlice sasl2_ChannelBinding, "channel-binding")].

(** *** src/plugins/sm/sm.go *)

Definition sm_Enable : gotype := TStruct "Enable"
  [("XMLName", TName, "urn:xmpp:sm:3 enable");
   ("Resume", TBool, "resume,attr,omitempty")].
Definition sm_Enabled : gotype := TStruct "Enabled"
  [("XMLName", TName, "urn:xmpp:sm:3 enabled");
   ("ID", TString, "id,attr,omitempty");
   ("Resume", TBool, "resume,attr,omitempty");
   ("Max", TInt 64, "max,attr,omitempty");
   ("Location", TString, "location,attr,omitempty")].
Definition sm_Resume : gotype := TStruct "Resume"
  [("XMLName", TName, "urn:xmpp:sm:3 resume");
   ("H", TUint 32, "h,attr");
   ("PrevID", TString, "previd,attr")].
Definition sm_Resumed : gotype := TStruct "Resumed"
  [("XMLName", TName, "urn:xmpp:sm:3 resumed");
   ("H", TUint 32, "h,attr");
   ("PrevID", TString, "previd,attr")].
Definition sm_Ack : gotype := TStruct "Ack"
  [("XMLName", TName, "urn:xmpp:sm:3 a");
   ("H", TUint 32, "h,attr")].
Definition sm_Request : gotype := TStruct "Request"
  [("XMLName", TName, "urn:xmpp:sm:3 r")].

(** *** src/plugins/socks5/socks5.go *)

Definition socks5_Streamhost : gotype := TStruct "Streamhost"
  [("XMLName", TName, "streamhost");
   ("JID", TString, "jid,attr");
   ("Host", TString, "host,attr");
   ("Port", TInt 64, "port,attr")].
Definition socks5_StreamhostUsed : gotype := TStruct "StreamhostUsed"
  [("XMLName", TName, "streamhost-used");
   ("JID", TString, "jid,attr")].
Definition socks5_Query : gotype := TStruct "Query"
  [("XMLName", TName, "http://jabber.org/protocol/bytestreams query");
   ("SID", TString, "sid,attr");
   ("Mode", TString, "mode,attr,omitempty");
   ("Streamhosts", TSlice socks5_Streamhost, "streamhost");
   ("Used", TPtr socks5_StreamhostUsed, "streamhost-used,omitempty")].

(** *** src/plugins/stanzaid/stanzaid.go *)

Definition stanzaid_StanzaID : gotype := TStruct "StanzaID"
  [("XMLName", TName, "urn:xmpp:sid:0 stanza-id");
   ("ID", TString, "id,attr");
   ("By", TString, "by,attr")].
Definition stanzaid_OriginID : gotype := TStruct "OriginID"
  [("XMLName", TName, "urn:xmpp:sid:0 origin-id");
   ("ID", TString, "id,attr")].

(** *** src/plugins/time/time.go *)

Definition time_Time : gotype := TStruct "Time"
  [("XMLName", TName, "urn:xmpp:time time");
   ("TZO", TString, "tzo");
   ("UTC", TString, "utc")].

(** *** src/plugins/upload/upload.go *)

Definition upload_Request : gotype := TStruct "Request"
  [("XMLName", TName, "urn:xmpp:http:upload:0 request");
   ("Filename", TString, "filename,attr");
   ("Size", TInt 64, "size,attr");
   ("ContentType", TString, "content-type,attr,omitempty")].
Definition upload_Get : gotype := TStruct "Get"
  [("XMLName", TName, "get");
   ("URL", TString, "url,attr")].
Definition upload_Header : gotype := TStruct "Header"
  [("XMLName", TName, "header");
   ("Name", TString, "name,attr");
   ("Value", TString, ",chardata")].
Definition upload_Put : gotype := TStruct "Put"
  [("XMLName", TName, "put");
   ("URL", TString, "url,attr");
   ("Headers", TSlice upload_Header, "header")].
Definition upload_Slot : gotype := TStruct "Slot"
  [("XMLName", TName, "urn:xmpp:http:upload:0 slot");
   ("Put", upload_Put, "put");
   ("Get", upload_Get, "get")].

(** *** src/plugins/vcard/vcard.go *)

Definition vcard_Photo : gotype := TStruct "Photo"
  [("Type", TString, "TYPE,omitempty");
   ("BinVal", TString, "BINVAL,omitempty");
   ("ExtVal", TString, "EXTVAL,omitempty")].
Definition vcard_Email : gotype := TStruct "Email"
  [("UserID", TString, "USERID,omitempty")].
Definition vcard_Name_ : gotype := TStruct "Name_"
  [("Family", TString, "FAMILY,omitempty");
   ("Given", TString, "GIVEN,omitempty");
   ("Middle", TString, "MIDDLE,omitempty")].
Definition vcard_Org : gotype := TStruct "Org"
  [("OrgName", TString, "ORGNAME,omitempty");
   ("OrgUnit", TString, "ORGUNIT,omitempty")].
Definition vcard_VCard : gotype := TStruct "VCard"
  [("XMLName", TName, "vcard-temp vCard");
   ("FN", TString, "FN,omitempty");
   ("N", TPtr vcard_Name_, "N,omitempty");
   ("Nickname", TString, "NICKNAME,omitempty");
   ("Email", TPtr vcard_Email, "EMAIL,omitempty");
   ("URL", TString, "URL,omitempty");
   ("Photo", TPtr vcard_Photo, "PHOTO,omitempty");
   ("Bday", TString, "BDAY,omitempty");
   ("Org", TPtr vcard_Org, "ORG,omitempty");
   ("Title", TString, "TITLE,omitempty");
   ("Desc", TString, "DESC,omitempty")].
Definition vcard_VCard4N : gotype := TStruct "VCard4N"
  [("Surname", TString, "surname,omitempty");
   ("Given", TString, "given,omitempty")].
Definition vcard_URI : gotype := TStruct "URI"
  [("URI", TString, "uri")].
Definition vcard_Text : gotype := TStruct "Text"
  [("Text", TString, "text")].
Definition vcard_VCard4 : gotype := TStruct "VCard4"
  [("XMLName", TName, "urn:ietf:params:xml:ns:vcard-4.0 vcard");
   ("FN", TPtr vcard_Text, "fn,omitempty");
   ("N", TPtr vcard_VCard4N, "n,omitempty");
   ("Email", TPtr vcard_Text, "email,omitempty");
   ("URL", TPtr vcard_URI, "url,omitempty");
   ("Nickname", TPtr vcard_Text, "nickname,omitempty")].

(** *** src/plugins/version/version.go *)

Definition version_Query : gotype := TStruct "Query"
  [("XMLName", TName, "jabber:iq:version query");
   ("Name", TString, "name,omitempty");
   ("Version", TString, "version,omitempty");
   ("OS", TString, "os,omitempty")].

(** ** The types by what becomes of their data *)

Definition payloads : list gotype :=
  [avatar_Data; avatar_MetadataInfo; avatar_Metadata;
   avatar_VCardUpdate; blocking_BlockItem; blocking_BlockList;
   blocking_Block; blocking_Unblock; bob_Data;
   caps_Caps; carbons_Enable; carbons_Disable;
   carbons_Sent; carbons_Received; carbons_Private;
   chatmarkers_Markable; chatmarkers_Received; chatmarkers_Displayed;
   chatmarkers_Acknowledged; chatstates_Active; chatstates_Composing;
   chatstates_Paused; chatstates_Inactive; chatstates_Gone;
   commands_Note; commands_Actions; correction_Replace;
   csi_Active; csi_Inactive; delay_Delay;
   dialback_Result; dialback_Verify; dialback_Bidi;
   disco_Feature; disco_Item; disco_ItemsQuery;
   extdisco_Service; extdisco_Services; extdisco_Credentials;
   filetransfer_Range; filetransfer_Hash; filetransfer_File;
   filetransfer_Description; filetransfer_FileMetadataEl; filetransfer_Source;
   filetransfer_FileSharing; form_Option; forward_Delay;
   hash_Hash; hash_HashUsed; hints_NoPermanentStore;
   hints_NoStore; hints_NoCopy; hints_Store;
   ibb_Open; ibb_Data; ibb_Close;
   jingle_Content; jingle_Parameter; jingle_PayloadType;
   jingle_RTPDescription; jingle_Candidate; jingle_Fingerprint;
   jingle_ICEUDPTransport; jingle_RawCandidate; jingle_RawUDPTransport;
   jingle_Retract; jingle_Accept; jingle_Reject;
   jingle_Proceed; lastactivity_Query; mam_Query;
   mam_Fin; mam_Result; mam_Prefs;
   mam_Metadata; mix_Subscribe; mix_Join;
   mix_Leave; mix_Participant; mix_SetNick;
   mix_Create; mix_Destroy; mix_ClientJoin;
   mix_ClientLeave; moderation_Retract; moderation_Moderate;
   moderation_Moderated; muc_History; muc_MUC;
   muc_Decline; muc_Invite; muc_Status;
   muc_UserItem; muc_UserX; muc_AdminQuery;
   muc_OwnerQuery; muc_DirectInvite; omemo_Key;
   omemo_Header; omemo_Payload; omemo_Encrypted;
   omemo_Device; omemo_DeviceList; omemo_SPK;
   omemo_Prekey; omemo_Bundle; omemo_EME;
   oob_X; oob_Query; ping_Ping;
   presence_Status; pubsub_PubItem; pubsub_Publish;
   pubsub_Items; pubsub_Subscription; pubsub_Create;
   pubsub_Retract; pubsub_SubReq; pubsub_Configure;
   pubsub_Unsub; pubsub_PubSub; pubsub_EventRetract;
   pubsub_EventItems; pubsub_EventPurge; pubsub_EventDelete;
   pubsub_Event; pubsub_OwnerPurge; pubsub_OwnerConfigure;
   pubsub_OwnerDelete; pubsub_PubSubOwner; push_Enable;
   push_Disable; reactions_Reaction; reactions_Reactions;
   receipts_Request; receipts_Received; retraction_Retract;
   retraction_Retracted; roster_Item; roster_Query;
   rsm_First; rsm_Set; sasl2_Inline;
   sasl2_Mechanism; sasl2_Authentication; sasl2_UserAgent;
   sasl2_Challenge; sasl2_Response; sasl2_Bound;
   sasl2_Fast; sasl2_RequestToken; sasl2_Token;
   sasl2_ChannelBinding; sasl2_SASLChannelBinding; sm_Enable;
   sm_Enabled; sm_Resume; sm_Resumed;
   sm_Ack; sm_Request; socks5_Streamhost;
   socks5_StreamhostUsed; socks5_Query; stanzaid_StanzaID;
   stanzaid_OriginID; time_Time; upload_Request;
   upload_Get; upload_Header; upload_Put;
   upload_Slot; vcard_VCard; vcard_VCard4;
   version_Query].

(** Structs without a name of their own, which only occur in fields. *)
Definition parts : list gotype :=
  [commands_Empty; mam_JIDList; mam_Info;
   vcard_Photo; vcard_Email; vcard_Name_;
   vcard_Org; vcard_VCard4N; vcard_URI;
   vcard_Text].

Definition lossy : list gotype :=
  [bookmarks_Extension; bookmarks_Conference; commands_Command;
   disco_Identity; disco_InfoQuery; form_Field;
   form_FormItem; form_Reported; form_Form;
   forward_Forwarded; jingle_Reason; jingle_Jingle;
   jingle_ProposeDesc; jingle_Propose; register_Empty;
   register_Query; sasl2_Authenticate; sasl2_Success;
   sasl2_Failure; sasl2_Bind2].
