(* ===== verification/DateTime.v ===== *)
(** * Dates and times (src/plugins/time/time.go, src/plugins/delay/delay.go)

    The XEP-0082 profiles as the program formats and parses them with Go's [time]
    package: the layouts [2006-01-02T15:04:05Z], [2006-01-02], [15:04:05Z] and [-07:00],
    over the proleptic Gregorian calendar.

    [datetime_roundtrip]: what [FormatDateTime] and [NewDelay] write for a time of the
    years 1 to 9999, [ParseDateTime] and [ParseStamp] read back to the second. *)

From Stdlib Require Import Ascii String ZArith.
From S2P Require Import Prelude GoStrings GoNumbers.

Open Scope string_scope.
Open Scope list_scope.
Open Scope Z_scope.

(** A [time.Time]: nanoseconds since the start of the year 1 in UTC, and the offset of
    its location in seconds. *)
Record Time := mkTime { nanos : Z; offset : Z }.
Definition UTC (t : Time) : Time := mkTime (nanos t) 0.
Definition second : Z := 1000000000.
Definition day : Z := 86400.

(** ** The calendar *)

(** The year of its 400-year era (years start in March) a day falls into, and the
    number of days before that year. *)
Definition year_of_era (doe : Z) : Z := (doe - doe / 1460 + doe / 36524 - doe / 146096) / 365.
Definition year_start (y : Z) : Z := 365 * y + y / 4 - y / 100.
Definition month_start (mp : Z) : Z := (153 * mp + 2) / 5.

(** The date of a day, counted from the first of January of the year 1. *)
Definition civil (n : Z) : Z * Z * Z :=
  let z := n + 306 in
  let era := z / 146097 in
  let doe := z mod 146097 in
  let yoe := year_of_era doe in
  let doy := doe - year_start yoe in
  let mp := (5 * doy + 2) / 153 in
  let m := if mp <? 10 then mp + 3 else mp - 9 in
  (yoe + era * 400 + (if m <=? 2 then 1 else 0), m, doy - month_start mp + 1).

(** The day of a date. *)
Definition days (y m d : Z) : Z :=
  let y := y - (if m <=? 2 then 1 else 0) in
  let mp := (m + 9) mod 12 in
  y / 400 * 146097 + year_start (y mod 400) + (month_start mp + d - 1) - 306.

Definition leap (y : Z) : bool := (y mod 4 =? 0) && (negb (y mod 100 =? 0) || (y mod 400 =? 0)).
Definition month_length (y m : Z) : Z :=
  if m =? 2 then (if leap y then 29 else 28) else if existsb (Z.eqb m) [4; 6; 9; 11] then 30 else 31.

(** ** Formatting *)

Definition dig (n : Z) : ascii := ascii_of_N (Z.to_N (48 + n)).
Definition pad2 (n : Z) (rest : string) : string := String (dig (n / 10)) (String (dig (n mod 10)) rest).
Definition pad4 (n : Z) (rest : string) : string := pad2 (n / 100) (pad2 (n mod 100) rest).
(** A year has four digits, and more or a sign if it needs them. *)
Definition format_year (y : Z) (rest : string) : string :=
  if (0 <=? y) && (y <=? 9999) then pad4 y rest
  else if 9999 <? y then FormatInt y +:+ rest
  else if y <? -9999 then FormatInt y +:+ rest else String "-" (pad4 (- y) rest).

(** The day and the second of the day, where the time is. *)
Definition local_seconds (t : Time) : Z := nanos t / second + offset t.
Definition local_day (t : Time) : Z := local_seconds t / day.
Definition clock (t : Time) : Z := local_seconds t mod day.

Definition format_date (t : Time) (rest : string) : string :=
  let '(y, m, d) := civil (local_day t) in format_year y (String "-" (pad2 m (String "-" (pad2 d rest)))).
Definition format_clock (t : Time) (rest : string) : string :=
  let c := clock t in pad2 (c / 3600) (String ":" (pad2 (c / 60 mod 60) (String ":" (pad2 (c mod 60) rest)))).

Definition FormatDateTime (t : Time) : string := format_date (UTC t) (String "T" (format_clock (UTC t) "Z")).
Definition FormatDate (t : Time) : string := format_date t "".
Definition FormatTime (t : Time) : string := format_clock (UTC t) "Z".
(** The layout [-07:00]. *)
Definition format_zone (t : Time) : string :=
  let zone := Z.quot (offset t) 60 in
  String (if zone <? 0 then "-" else "+") (pad2 (Z.abs zone / 60) (String ":" (pad2 (Z.abs zone mod 60) ""))).

(** [Plugin.Now]: the offset and the time of the entity. *)
Record EntityTime := mkEntityTime { TZO : string; e_UTC : string }.
Definition Now (now : Time) : EntityTime := mkEntityTime (format_zone now) (FormatDateTime now).

(** ** Parsing, with the layout [2006-01-02T15:04:05Z] *)

Definition get2 (s : string) : option (Z * string) :=
  match s with
  | String a (String b rest) => x ← digit a; y ← digit b; Some (10 * x + y, rest)
  | _ => None
  end.
(** An hour may have one digit. *)
Definition get_hour (s : string) : option (Z * string) :=
  match s with
  | String a (String b rest) =>
      x ← digit a; match digit b with Some y => Some (10 * x + y, rest) | None => Some (x, String b rest) end
  | String a "" => x ← digit a; Some (x, "")
  | "" => None
  end.
Definition get4 (s : string) : option (Z * string) :=
  '(x, s) ← get2 s; '(y, s) ← get2 s; Some (100 * x + y, s).
Definition literal (c : ascii) (s : string) : option string :=
  match s with String a rest => if bool_decide (a = c) then Some rest else None | "" => None end.

(** Digits after the seconds are taken as a fraction, nine of them looked at. *)
Fixpoint fraction (k : nat) (unit acc : Z) (s : string) : Z * string :=
  match s with
  | String a rest =>
      match digit a with
      | Some x => match k with S k => fraction k (unit / 10) (acc + x * unit) rest | O => fraction O unit acc rest end
      | None => (acc, s)
      end
  | "" => (acc, s)
  end.
Definition get_fraction (s : string) : Z * string :=
  match s with
  | String p (String a rest) =>
      if (bool_decide (p = ".") || bool_decide (p = ",")) && bool_decide (is_Some (digit a))
      then fraction 9 100000000 0 (String a rest) else (0, s)
  | _ => (0, s)
  end%char.

Definition ParseDateTime (s : string) : option Time :=
  '(y, s) ← get4 s; s ← literal "-" s;
  '(m, s) ← get2 s; s ← (if (1 <=? m) && (m <=? 12) then Some s else None);
  s ← literal "-" s; '(d, s) ← get2 s; s ← literal "T" s;
  '(h, s) ← get_hour s; s ← (if h <? 24 then Some s else None); s ← literal ":" s;
  '(mi, s) ← get2 s; s ← (if mi <? 60 then Some s else None); s ← literal ":" s;
  '(sec, s) ← get2 s; s ← (if sec <? 60 then Some s else None);
  let '(ns, s) := get_fraction s in
  s ← literal "Z" s;
  if bool_decide (s = "") && (1 <=? d) && (d <=? month_length y m)
  then Some (mkTime ((days y m d * day + h * 3600 + mi * 60 + sec) * second + ns) 0) else None.

(** src/plugins/delay/delay.go *)
Record Delay := mkDelay { From : string; Stamp : string; Reason : string }.
Definition NewDelay (from : string) (stamp : Time) : Delay := mkDelay from (FormatDateTime stamp) "".
Definition ParseStamp (d : Delay) : option Time := ParseDateTime (Stamp d).

(** ** The calendar is a bijection *)

Lemma year_of_era_bounds doe : 0 <= doe < 146097 → 0 <= year_of_era doe <= 399.
Proof. unfold year_of_era. intros. Z.to_euclidean_division_equations; lia. Qed.
Lemma day_of_year_bounds doe : 0 <= doe < 146097 → 0 <= doe - year_start (year_of_era doe) <= 365.
Proof. unfold year_start, year_of_era. intros. Z.to_euclidean_division_equations; lia. Qed.
Lemma day_of_year_leap doe : 0 <= doe < 146097 → doe - year_start (year_of_era doe) = 365 → leap (year_of_era doe + 1) = true.
Proof.
  intros Hd He. unfold leap. rewrite andb_true_iff, orb_true_iff, negb_true_iff, !Z.eqb_eq, Z.eqb_neq.
  unfold year_start, year_of_era in *. Z.to_euclidean_division_equations; lia.
Qed.
Lemma leap_era y k : leap (y + k * 400) = leap y.
Proof.
  unfold leap. rewrite (Z.add_comm y), !(Z.mul_comm k). 
  assert (∀ n, (n | 400) → 0 < n → (400 * k + y) mod n = y mod n) as H.
  { intros n [q Hq] Hn. rewrite Hq. replace (q * n * k + y) with (y + q * k * n) by lia. by rewrite Z.mod_add by lia. }
  rewrite !H; [done|..]; try lia; [by exists 1|by exists 4|by exists 100].
Qed.

Lemma month_of_day doy : 0 <= doy <= 365 → let mp := (5 * doy + 2) / 153 in 0 <= mp <= 11 ∧ month_start mp <= doy < month_start (mp + 1).
Proof. cbv zeta. unfold month_start. intros. Z.to_euclidean_division_equations; lia. Qed.

(** The length of the month is what the calendar leaves room for. *)
Lemma month_room y mp : 0 <= mp <= 10 →
  let m := if mp <? 10 then mp + 3 else mp - 9 in month_start (mp + 1) - month_start mp = month_length y m.
Proof.
  intros H. assert (mp = 0 ∨ mp = 1 ∨ mp = 2 ∨ mp = 3 ∨ mp = 4 ∨ mp = 5 ∨ mp = 6 ∨ mp = 7 ∨ mp = 8 ∨ mp = 9 ∨ mp = 10) as Hc by lia.
  repeat (destruct Hc as [->|Hc]; [done|]). by subst.
Qed.

Lemma month_number mp : 0 <= mp <= 11 →
  let m := if mp <? 10 then mp + 3 else mp - 9 in 1 <= m <= 12 ∧ (m + 9) mod 12 = mp.
Proof. cbv zeta. intros H. destruct (Z.ltb_spec mp 10); split; try lia; Z.to_euclidean_division_equations; lia. Qed.

(** Every day has a valid date, and is the day of it. *)
Lemma civil_spec n : let '(y, m, d) := civil n in 1 <= m <= 12 ∧ 1 <= d <= month_length y m ∧ days y m d = n.
Proof.
  unfold civil. set (era := (n + 306) / 146097). set (doe := (n + 306) mod 146097).
  assert (0 <= doe < 146097) as Hdoe by (by apply Z.mod_pos_bound). assert (n + 306 = 146097 * era + doe) as Hn by (by apply Z.div_mod).
  pose proof (year_of_era_bounds doe Hdoe) as Hy. pose proof (day_of_year_bounds doe Hdoe) as Hdoy. pose proof (day_of_year_leap doe Hdoe) as Hleap.
  set (yoe := year_of_era doe) in *. set (doy := doe - year_start yoe) in *. destruct (month_of_day doy Hdoy) as [Hmp Hms].
  set (mp := (5 * doy + 2) / 153) in *. destruct (month_number mp Hmp) as [Hm Hm9].
  set (m := if mp <? 10 then mp + 3 else mp - 9) in *. split; [done|]. split.
  - split; [lia|]. destruct (decide (mp = 11)) as [E|E].
    + assert (m = 2) as -> by (unfold m; by rewrite E). cbn. rewrite E in *. change (month_start 11) with 337. change (month_start (11 + 1)) with 367 in *.
      replace (yoe + era * 400 + 1) with (yoe + 1 + era * 400) by lia. rewrite leap_era.
      destruct (leap (yoe + 1)) eqn:El; [lia|]. assert (doy ≠ 365) by (intros H; by specialize (Hleap H)). lia.
    + pose proof (month_room (yoe + era * 400 + (if m <=? 2 then 1 else 0)) mp ltac:(lia)) as Hr. cbv zeta in Hr. fold m in Hr. lia.
  - unfold days. rewrite Hm9. replace (yoe + era * 400 + (if m <=? 2 then 1 else 0) - (if m <=? 2 then 1 else 0)) with (yoe + era * 400) by lia.
    rewrite Z.div_add, Z.mod_add by lia. rewrite Z.div_small, Z.mod_small by lia. unfold doy. lia.
Qed.

(** The years 1 to 9999. *)
Lemma civil_year n : 0 <= n < 3652059 → 1 <= (civil n).1.1 <= 9999.
Proof.
  intros Hn. unfold civil. cbn [fst]. set (era := (n + 306) / 146097). set (doe := (n + 306) mod 146097).
  assert (0 <= doe < 146097) as Hdoe by (by apply Z.mod_pos_bound). assert (n + 306 = 146097 * era + doe) as He by (by apply Z.div_mod).
  pose proof (year_of_era_bounds doe Hdoe) as Hy. pose proof (day_of_year_bounds doe Hdoe) as Hdoy.
  assert (0 <= era <= 24) as Hera by lia. destruct (month_of_day (doe - year_start (year_of_era doe)) Hdoy) as [Hmp _].
  set (mp := _ / 153) in *. destruct (Z.ltb_spec mp 10).
  - destruct (Z.leb_spec (mp + 3) 2); [lia|]. destruct (decide (era = 0 ∧ year_of_era doe = 0)) as [[E1 E2]|]; [|lia].
    exfalso. unfold mp in *. clear mp. rewrite E2 in *. change (year_start 0) with 0 in *. Z.to_euclidean_division_equations; lia.
  - destruct (Z.leb_spec (mp - 9) 2); [|lia]. destruct (decide (era = 24 ∧ year_of_era doe = 399)) as [[E1 E2]|]; [|lia].
    exfalso. unfold mp in *. clear mp. rewrite E2 in *. change (year_start 399) with 145731 in *. Z.to_euclidean_division_equations; lia.
Qed.

(** ** Digits *)

Lemma digit_dig n : 0 <= n < 10 → digit (dig n) = Some n.
Proof.
  intros H. assert (n = 0 ∨ n = 1 ∨ n = 2 ∨ n = 3 ∨ n = 4 ∨ n = 5 ∨ n = 6 ∨ n = 7 ∨ n = 8 ∨ n = 9) as Hc by lia.
  repeat (destruct Hc as [->|Hc]; [done|]). by subst.
Qed.
Lemma get2_pad2 n rest : 0 <= n < 100 → get2 (pad2 n rest) = Some (n, rest).
Proof.
  intros H. cbn. rewrite !digit_dig by (Z.to_euclidean_division_equations; lia). cbn. f_equal. f_equal. rewrite (Z.div_mod n 10) at 3; lia.
Qed.
Lemma get_hour_pad2 n rest : 0 <= n < 100 → get_hour (pad2 n rest) = Some (n, rest).
Proof.
  intros H. cbn. rewrite !digit_dig by (Z.to_euclidean_division_equations; lia). cbn. f_equal. f_equal. rewrite (Z.div_mod n 10) at 3; lia.
Qed.
Lemma get4_pad4 n rest : 0 <= n < 10000 → get4 (pad4 n rest) = Some (n, rest).
Proof.
  intros H. unfold get4, pad4. rewrite get2_pad2 by (Z.to_euclidean_division_equations; lia). cbn [mbind option_bind].
  rewrite get2_pad2 by (Z.to_euclidean_division_equations; lia). cbn. f_equal. f_equal. rewrite (Z.div_mod n 100) at 3; lia.
Qed.
Lemma month_length_bound y m : month_length y m <= 31.
Proof. unfold month_length. repeat case_match; lia. Qed.

#[local] Arguments pad2 : simpl never.
#[local] Arguments pad4 : simpl never.
#[local] Arguments get2 : simpl never.
#[local] Arguments get4 : simpl never.
#[local] Arguments get_hour : simpl never.
Lemma literal_here c s : literal c (String c s) = Some s.
Proof. cbn. by rewrite bool_decide_true. Qed.
#[local] Arguments literal : simpl never.
#[local] Arguments get_fraction : simpl never.
Ltac next := repeat (cbn; rewrite ?literal_here).

(** C30: a time of the years 1 to 9999, in any location, is written by [FormatDateTime],
    and into the stamp of a delay, as a text that is read back as the same instant in
    UTC, to the second. *)
Theorem datetime_roundtrip t from :
  0 <= nanos t < 3652059 * day * second →
  ParseDateTime (FormatDateTime t) = Some (mkTime (nanos t / second * second) 0) ∧
  ParseStamp (NewDelay from t) = Some (mkTime (nanos t / second * second) 0).
Proof.
  intros Ht. enough (ParseDateTime (FormatDateTime t) = Some (mkTime (nanos t / second * second) 0)) as E by (split; [done|exact E]).
  unfold FormatDateTime, format_date, format_clock, clock, local_day, local_seconds, UTC. cbn [nanos offset]. rewrite Z.add_0_r.
  set (s := nanos t / second). assert (0 <= s < 3652059 * day) as Hs.
  { split; [apply Z.div_pos; [lia|done]|apply Z.div_lt_upper_bound; [done|lia]]. }
  assert (0 <= s / day < 3652059) as Hd by (split; [apply Z.div_pos; [lia|done]|apply Z.div_lt_upper_bound; [done|lia]]).
  assert (0 <= s mod day < day) as Hc by (by apply Z.mod_pos_bound). pose proof (Z.div_mod s day ltac:(done)) as Hdm.
  set (n := s / day) in *. set (c := s mod day) in *. pose proof (civil_year n Hd) as Hy. pose proof (civil_spec n) as Hsp.
  destruct (civil n) as [[y m] d]. cbn [fst] in Hy. destruct Hsp as (Hm & Hday & Hdays). pose proof (month_length_bound y m).
  unfold format_year. rewrite (proj2 (Z.leb_le 0 y)), (proj2 (Z.leb_le y 9999)) by lia. cbn [andb].
  unfold day in Hc. assert (0 <= c / 3600 < 24 ∧ 0 <= c / 60 mod 60 < 60 ∧ 0 <= c mod 60 < 60) as (Hh & Hmi & Hsec) by (Z.to_euclidean_division_equations; lia).
  unfold ParseDateTime. rewrite get4_pad4 by lia. next. rewrite get2_pad2 by lia. next.
  rewrite (proj2 (Z.leb_le 1 m)), (proj2 (Z.leb_le m 12)) by lia. next. rewrite get2_pad2 by lia. next.
  rewrite get_hour_pad2 by lia. next. rewrite (proj2 (Z.ltb_lt (c / 3600) 24)) by lia. next. rewrite get2_pad2 by lia. next.
  rewrite (proj2 (Z.ltb_lt (c / 60 mod 60) 60)) by lia. next. rewrite get2_pad2 by lia. next. rewrite (proj2 (Z.ltb_lt (c mod 60) 60)) by lia. next.
  change (get_fraction "Z") with (0, "Z"). next.
  rewrite (proj2 (Z.leb_le 1 d)), (proj2 (Z.leb_le d _)) by lia. cbn. f_equal. f_equal. rewrite Z.add_0_r, Hdays. f_equal.
  rewrite Hdm. unfold day. rewrite (Z.mul_comm 86400). fold n c. Z.to_euclidean_division_equations; lia.
Qed.

Module DateTimeExample.
(** Two hours and a bit after midnight of the 29th of February 2024, in a location one
    hour east. *)
Definition t : Time := mkTime ((days 2024 2 29 * day + 7200 + 123) * second + 456) 3600.

Lemma datetime_roundtrip_witness :
  FormatDateTime t = "2024-02-29T02:02:03Z" ∧
  ParseDateTime (FormatDateTime t) = Some (mkTime (nanos t / second * second) 0) ∧
  ParseStamp (NewDelay "example.org" t) = Some (mkTime (nanos t / second * second) 0).
Proof. split; [by vm_compute|]. apply datetime_roundtrip. vm_compute. split; congruence. Defined.

Lemma calendar : civil 0 = (1, 1, 1) ∧ civil 3652058 = (9999, 12, 31) ∧ civil (days 1900 2 28 + 1) = (1900, 3, 1).
Proof. by vm_compute. Qed.

(** Texts of the DateTime profile of XEP-0082 that are read, and one that is not: a
    time with an offset other than [Z]. *)
Lemma offset_refused :
  ParseDateTime "1969-07-21T02:56:15Z" = Some (mkTime ((days 1969 7 21 * day + 10575) * second) 0) ∧
  ParseDateTime "1969-07-21T02:56:15.5Z" = Some (mkTime ((days 1969 7 21 * day + 10575) * second + 500000000) 0) ∧
  ParseDateTime "1969-07-20T21:56:15-05:00" = None ∧ ParseDateTime "1969-02-29T00:00:00Z" = None.
Proof. by vm_compute. Qed.

(** [FormatDate] gives the date of the location, [FormatDateTime] the one in UTC. *)
Lemma date_is_local :
  let t := mkTime ((days 2024 12 31 * day + 86000) * second) 3600 in
  FormatDate t = "2025-01-01" ∧ FormatDateTime t = "2024-12-31T23:53:20Z" ∧ Now t = mkEntityTime "+01:00" "2024-12-31T23:53:20Z".
Proof. by vm_compute. Qed.
End DateTimeExample.
