(* ===== verification/Dial.v ===== *)
(** * Finding and dialling a server (src/dial/resolver.go, src/dial/dial.go)

    SRV resolution, the order in which the records are tried, the fall back to
    the domain itself, and direct TLS.  DNS, TCP and the TLS handshake are an
    environment: a lookup function and whether an attempt succeeds.  Deadlines
    show only as failing attempts. *)

From Stdlib Require Import Ascii String ZArith Sorting.Sorted.
From stdpp Require Import pretty sorting.
From S2P Require Import Prelude GoStrings.

Open Scope string_scope.
Open Scope list_scope.

(** ** The resolver *)

Record SRVRecord := mkSRV { Target : string; Port : N; Priority : N; Weight : N }.
#[export] Instance SRVRecord_eq_dec : EqDecision SRVRecord.
Proof. solve_decision. Defined.

(** The [less] function given to [sort.Slice]. *)
Definition srv_less (a b : SRVRecord) : bool :=
  if negb (Priority a =? Priority b)%N then (Priority a <? Priority b)%N else (Weight b <? Weight a)%N.

(** [a] may come before [b] in a sorted slice. *)
Definition srv_le (a b : SRVRecord) : Prop := srv_less b a = false.

#[export] Instance srv_le_dec : RelDecision srv_le.
Proof. intros a b. unfold srv_le. apply _. Defined.
Lemma srv_le_spec a b : srv_le a b ↔ (Priority a < Priority b)%N ∨ (Priority a = Priority b ∧ (Weight b ≤ Weight a)%N).
Proof.
  unfold srv_le, srv_less. destruct (N.eqb_spec (Priority b) (Priority a)) as [E|E]; cbn.
  - rewrite N.ltb_ge. split; [right; by rewrite E|intros [?|[_ ?]]; lia].
  - rewrite N.ltb_ge. split; [intros; left; lia|intros [?|[? _]]; lia].
Qed.
#[export] Instance srv_le_trans : Transitive srv_le.
Proof. intros a b c. rewrite !srv_le_spec. lia. Qed.
#[export] Instance srv_le_total : Total srv_le.
Proof. intros a b. rewrite !srv_le_spec. lia. Qed.

Section Dial.
(** [sort.Slice] on records; it is not stable, so the order of records with the
    same priority and weight is not determined.  [lookupSRV] is the resolver of
    the platform: [None] is an error. *)
Variable sort_Slice : list SRVRecord → list SRVRecord.
Variable lookupSRV : string → string → string → option (list SRVRecord).

Definition resolve (service proto name : string) : option (list SRVRecord) :=
  match lookupSRV service proto name with
  | None => None
  | Some addrs => Some (sort_Slice (List.filter (λ a, negb (bool_decide (Target a = "."))) addrs))
  end.
Definition ResolveClient (domain : string) := resolve "xmpp-client" "tcp" domain.
Definition ResolveServer (domain : string) := resolve "xmpp-server" "tcp" domain.
Definition ResolveClientTLS (domain : string) := resolve "xmpps-client" "tcp" domain.
Definition ResolveServerTLS (domain : string) := resolve "xmpps-server" "tcp" domain.

(** ** The dialer *)

(** A [tls.Config], by the server name it expects. *)
Record Dialer := mkDialer { TLSConfig : option string; DirectTLS : bool }.
Definition NewDialer : Dialer := mkDialer None false.

Definition tlsConfig (d : Dialer) (domain : string) : string :=
  match TLSConfig d with
  | Some name => if bool_decide (name = "") then domain else name
  | None => domain
  end.

(** [net.JoinHostPort]. *)
Definition JoinHostPort (host port : string) : string :=
  if has_byte ":" host then "[" +:+ host +:+ "]:" +:+ port else host +:+ ":" +:+ port.

(** One connection attempt: the address, and the name the TLS certificate must
    have when the attempt starts with a TLS handshake. *)
Record attempt := mkAttempt { a_addr : string; a_tls : option string }.
Definition record_addr (r : SRVRecord) : string := JoinHostPort (Target r) (pretty (Port r)).

Variable connect : attempt → option nat.

(** The loop over the records: the attempts made, and the connection. *)
Fixpoint try_each (tls : option string) (records : list SRVRecord) : list attempt * option nat :=
  match records with
  | [] => ([], None)
  | rec :: rest =>
      let a := mkAttempt (record_addr rec) tls in
      match connect a with
      | Some conn => ([a], Some conn)
      | None => let '(tried, r) := try_each tls rest in (a :: tried, r)
      end
  end.

Definition or_fallback (records : option (list SRVRecord)) (domain : string) (port : N) : list SRVRecord :=
  match records with
  | None | Some [] => [mkSRV domain port 0 0]
  | Some rs => rs
  end.

Definition Dial (d : Dialer) (domain : string) : list attempt * option nat :=
  let records := if DirectTLS d then ResolveClientTLS domain else ResolveClient domain in
  let records := or_fallback records domain (if DirectTLS d then 5223 else 5222)%N in
  try_each (if DirectTLS d then Some (tlsConfig d domain) else None) records.

Definition DialServer (d : Dialer) (domain : string) : list attempt * option nat :=
  try_each None (or_fallback (ResolveServer domain) domain 5269).

(** ** What dialling does *)

Lemma try_each_spec tls records tried r :
  try_each tls records = (tried, r) →
  (r = None ∧ tried = map (λ rec, mkAttempt (record_addr rec) tls) records ∧ (∀ a, a ∈ tried → connect a = None)) ∨
  ∃ before rec after conn,
    records = before ++ rec :: after ∧ r = Some conn ∧
    tried = map (λ rec, mkAttempt (record_addr rec) tls) (before ++ [rec]) ∧
    connect (mkAttempt (record_addr rec) tls) = Some conn ∧
    ∀ x, x ∈ before → connect (mkAttempt (record_addr x) tls) = None.
Proof.
  revert tried r. induction records as [|rec rest IH]; intros tried r; cbn.
  { intros [= <- <-]. left. split_and!; [done..|]. intros a Ha. by apply elem_of_nil in Ha. }
  destruct (connect _) as [conn|] eqn:Ec.
  - intros [= <- <-]. right. exists [], rec, rest, conn. split_and!; try done. intros x Hx. by apply elem_of_nil in Hx.
  - destruct (try_each tls rest) as [tried' r'] eqn:Et. intros [= <- <-].
    destruct (IH _ _ eq_refl) as [(-> & -> & Hall)|(before & rec' & after & conn & -> & -> & -> & Hc & Hall)].
    + left. split_and!; [done..|]. intros a [->|Ha]%elem_of_cons; [done|by apply Hall].
    + right. exists (rec :: before), rec', after, conn. split_and!; try done.
      intros x [->|Hx]%elem_of_cons; [done|by apply Hall].
Qed.

Hypothesis sort_perm : ∀ l, sort_Slice l ≡ₚ l.
Hypothesis sort_sorted : ∀ l, Sorted srv_le (sort_Slice l).

Lemma sorted_before l1 r l2 x : Sorted srv_le (l1 ++ r :: l2) → x ∈ l1 → srv_le x r.
Proof.
  intros Hs%Sorted_StronglySorted; [|apply _]. induction l1 as [|y l1 IH]; intros Hx; [by apply elem_of_nil in Hx|].
  cbn in Hs. apply StronglySorted_inv in Hs as [Hs Hf]. apply elem_of_cons in Hx as [->|Hx]; [|by apply IH].
  rewrite Forall_forall in Hf. apply Hf. apply elem_of_app. right. by left.
Qed.

(** The records that may be tried for a domain. *)
Definition usable (service domain : string) : list SRVRecord :=
  match lookupSRV service "tcp" domain with
  | Some addrs => List.filter (λ a, negb (bool_decide (Target a = "."))) addrs
  | None => []
  end.

Lemma resolve_usable service domain :
  match resolve service "tcp" domain with
  | Some rs => rs ≡ₚ usable service domain ∧ Sorted srv_le rs
  | None => usable service domain = []
  end.
Proof. unfold resolve, usable. destruct (lookupSRV _ _ _); [|done]. by split; [apply sort_perm|apply sort_sorted]. Qed.

Lemma candidates service domain port :
  let rs := or_fallback (resolve service "tcp" domain) domain port in
  Sorted srv_le rs ∧
  (usable service domain ≠ [] → rs ≡ₚ usable service domain) ∧
  (usable service domain = [] → rs = [mkSRV domain port 0 0]).
Proof.
  pose proof (resolve_usable service domain) as H. unfold or_fallback.
  destruct (resolve service "tcp" domain) as [[|r rs]|].
  - destruct H as [H _]. apply Permutation_nil_l in H. rewrite <- H. split; [repeat constructor|done].
  - destruct H as [Hp Hs]. split; [done|]. split; [done|]. intros E. rewrite E in Hp. by apply Permutation_nil_r in Hp.
  - rewrite H. split; [repeat constructor|done].
Qed.

Definition client_service (d : Dialer) : string := if DirectTLS d then "xmpps-client" else "xmpp-client".
Definition client_port (d : Dialer) : N := if DirectTLS d then 5223%N else 5222%N.

(** C38: how [Dial] chooses the host.  When the service has usable records (their
    target is not "."), it connects to a reachable one such that every record
    that sorts before it (smaller priority, or the same and larger weight) was
    tried and failed, and it fails only when every usable record fails.  When
    there is none (the lookup fails, or says that the service is not available)
    it dials the domain itself.  With direct TLS every attempt is a TLS
    handshake for the domain (or the configured name). *)
Theorem Dial_best_reachable d domain tried r :
  Dial d domain = (tried, r) →
  (∀ a, a ∈ tried → a_tls a = if DirectTLS d then Some (tlsConfig d domain) else None) ∧
  if bool_decide (usable (client_service d) domain = [])
  then tried = [mkAttempt (JoinHostPort domain (pretty (client_port d))) (if DirectTLS d then Some (tlsConfig d domain) else None)]
  else match r with
       | None => ∀ x, x ∈ usable (client_service d) domain →
                      connect (mkAttempt (record_addr x) (if DirectTLS d then Some (tlsConfig d domain) else None)) = None
       | Some conn =>
           ∃ rec, rec ∈ usable (client_service d) domain ∧
             connect (mkAttempt (record_addr rec) (if DirectTLS d then Some (tlsConfig d domain) else None)) = Some conn ∧
             ∀ x, x ∈ usable (client_service d) domain → srv_less x rec = true →
                  connect (mkAttempt (record_addr x) (if DirectTLS d then Some (tlsConfig d domain) else None)) = None
       end.
Proof.
  assert (Dial d domain = try_each (if DirectTLS d then Some (tlsConfig d domain) else None)
    (or_fallback (resolve (client_service d) "tcp" domain) domain (client_port d))) as ->
    by (unfold Dial, client_service, client_port, ResolveClient, ResolveClientTLS; by destruct (DirectTLS d)).
  destruct (candidates (client_service d) domain (client_port d)) as (Hs & Hp & He).
  revert Hs Hp He. generalize (or_fallback (resolve (client_service d) "tcp" domain) domain (client_port d)).
  generalize (if DirectTLS d then Some (tlsConfig d domain) else None). intros tls rs Hs Hp He Ht.
  apply try_each_spec in Ht as [(-> & -> & Hall)|(before & rec & after & conn & -> & -> & -> & Hc & Hall)].
  - split; [by intros a (x & -> & _)%list_elem_of_fmap|]. case_bool_decide as E; [by rewrite (He E)|].
    intros x Hx. apply Hall. apply (list_elem_of_fmap_2 (λ rec, mkAttempt (record_addr rec) tls)). by rewrite (Hp E).
  - split; [by intros a (x & -> & _)%list_elem_of_fmap|]. case_bool_decide as E.
    + specialize (He E). destruct before as [|? [|]]; cbn in He; [|discriminate He..]. by injection He as -> ->.
    + exists rec. split; [rewrite <- (Hp E); set_solver|]. split; [done|]. intros x Hx Hl.
      rewrite <- (Hp E) in Hx. apply elem_of_app in Hx as [Hx|Hx]; [by apply Hall|exfalso].
      apply elem_of_cons in Hx as [->|Hx].
      * unfold srv_less in Hl. rewrite N.eqb_refl in Hl. cbn in Hl. by rewrite N.ltb_irrefl in Hl.
      * rewrite cons_middle, app_assoc in Hs. apply list_elem_of_split in Hx as (l1 & l2 & ->).
        rewrite app_assoc in Hs. apply (sorted_before _ _ _ rec) in Hs; [|set_solver]. unfold srv_le in Hs. congruence.
Qed.
End Dial.

Module DialExample.
Definition sort (l : list SRVRecord) : list SRVRecord := merge_sort srv_le l.

Definition records : list SRVRecord :=
  [mkSRV "backup.example.org." 5222 20 0; mkSRV "a.example.org." 5222 10 10; mkSRV "b.example.org." 5222 10 90].
Definition lookup (service proto name : string) : option (list SRVRecord) :=
  if bool_decide (service = "xmpp-client") then Some records
  else if bool_decide (service = "xmpps-client") then Some [mkSRV "." 0 0 0] else None.
(** Only the second best host answers. *)
Definition net (a : attempt) : option nat := if bool_decide (a_addr a = "a.example.org.:5222") then Some 7 else None.

Lemma Dial_best_reachable_witness :
  Dial sort lookup net NewDialer "example.org" =
    ([mkAttempt "b.example.org.:5222" None; mkAttempt "a.example.org.:5222" None], Some 7) ∧
  ∃ rec, rec ∈ records ∧ net (mkAttempt (record_addr rec) None) = Some 7 ∧
    ∀ x, x ∈ records → srv_less x rec = true → net (mkAttempt (record_addr x) None) = None.
Proof.
  assert (Dial sort lookup net NewDialer "example.org" =
    ([mkAttempt "b.example.org.:5222" None; mkAttempt "a.example.org.:5222" None], Some 7)) as E by (by vm_compute).
  split; [exact E|].
  exact (proj2 (Dial_best_reachable sort lookup net (λ l, merge_sort_Permutation srv_le l) (λ l, Sorted_merge_sort srv_le l)
                  NewDialer "example.org" _ _ E)).
Defined.

(** The domain says that it has no direct TLS service; the dialer goes on to
    the domain itself. *)
Example unavailable_is_dialled :
  (Dial sort lookup net (mkDialer None true) "example.org").1 = [mkAttempt "example.org:5223" (Some "example.org")].
Proof. by vm_compute. Qed.
End DialExample.
