(* ===== verification/Bytes.v ===== *)
(** * Byte slices and fixed-width encodings

    [[]byte] values are lists of 8-bit characters.  This file has the helpers the
    binary formats share: big-endian [uint32], Go's [copy] into a fixed-size
    buffer, and [bytes.Reader]. *)

From Stdlib Require Import Ascii String NArith.
From S2P Require Import Prelude.

Notation bytes := (list ascii).

Definition zero_byte : ascii := ascii_of_N 0.
Definition zeros (n : nat) : bytes := replicate n zero_byte.

(** [buf := make([]byte, n); copy(buf, src)]: truncated or zero padded. *)
Definition copy_into (n : nat) (src : bytes) : bytes := take n (src ++ zeros n).

(** [byte(v)]. *)
Definition byte_of (v : N) : ascii := ascii_of_N (v `mod` 256).

(** [appendUint32] / [binary.BigEndian.PutUint32]: the four bytes of [v], most
    significant first. *)
Definition be32 (v : N) : bytes :=
  [byte_of (N.shiftr v 24); byte_of (N.shiftr v 16); byte_of (N.shiftr v 8); byte_of v].

(** [readUint32] / [binary.BigEndian.Uint32] on the first four bytes. *)
Definition read32 (b : bytes) : N :=
  match b with
  | b0 :: b1 :: b2 :: b3 :: _ =>
      N.lor (N.lor (N.lor (N.shiftl (N_of_ascii b0) 24) (N.shiftl (N_of_ascii b1) 16))
                   (N.shiftl (N_of_ascii b2) 8)) (N_of_ascii b3)
  | _ => 0%N
  end.

(** [bytes.Reader.Read(buf)]: [None] is [io.EOF] (nothing left); otherwise the
    buffer with its first bytes overwritten by what is left, which may be less
    than the buffer, and the rest of the input. *)
Definition read_buf (buf r : bytes) : option (bytes * bytes) :=
  match r with
  | [] => None
  | _ => Some (take (length buf) r ++ drop (length r) buf, drop (length buf) r)
  end.

(** [bytes.Reader.ReadByte]. *)
Definition read_byte (r : bytes) : option (ascii * bytes) :=
  match r with [] => None | b :: r' => Some (b, r') end.

#[global] Arguments be32 : simpl never.

(** ** Lemmas *)

Lemma length_zeros n : length (zeros n) = n.
Proof. apply length_replicate. Qed.

Lemma length_copy_into n src : length (copy_into n src) = n.
Proof. unfold copy_into. rewrite length_take, length_app, length_zeros. lia. Qed.

Lemma copy_into_full n src : length src = n → copy_into n src = src.
Proof. intros <-. unfold copy_into. by rewrite take_app_length. Qed.

Lemma read_buf_exact buf src r :
  length src = length buf → src ≠ [] → read_buf buf (src ++ r) = Some (src, r).
Proof.
  intros Hlen Hne. unfold read_buf.
  destruct (src ++ r) as [|b l] eqn:E; [by apply app_eq_nil in E as [? _]|]. rewrite <- E.
  rewrite <- Hlen, take_app_length, drop_app_length.
  rewrite drop_ge by (rewrite length_app; lia). by rewrite app_nil_r.
Qed.

Lemma N_of_byte_of v : N_of_ascii (byte_of v) = (v `mod` 256)%N.
Proof. unfold byte_of. apply N_ascii_embedding. apply N.mod_lt. lia. Qed.

Lemma land_shiftl_low a b k : (b < 2 ^ k)%N → N.land (N.shiftl a k) b = 0%N.
Proof.
  intros Hb. apply N.bits_inj. intros n. rewrite N.land_spec, N.bits_0.
  destruct (N.lt_ge_cases n k) as [Hn|Hn]; [by rewrite N.shiftl_spec_low|].
  destruct (N.eq_dec b 0%N) as [->|Hb0]; [by rewrite N.bits_0, andb_false_r|].
  rewrite (N.bits_above_log2 b n), andb_false_r; [done|].
  apply N.log2_lt_pow2; [lia|]. eapply N.lt_le_trans; [done|]. by apply N.pow_le_mono_r.
Qed.

Lemma lor_shiftl_add a b k : (b < 2 ^ k)%N → N.lor (N.shiftl a k) b = (a * 2 ^ k + b)%N.
Proof.
  intros Hb. pose proof (land_shiftl_low a b k Hb) as H.
  by rewrite <- N.lxor_lor, <- N.add_nocarry_lxor, N.shiftl_mul_pow2.
Qed.

Lemma read32_arith b0 b1 b2 b3 r :
  read32 (b0 :: b1 :: b2 :: b3 :: r)
  = (((N_of_ascii b0 * 256 + N_of_ascii b1) * 256 + N_of_ascii b2) * 256 + N_of_ascii b3)%N.
Proof.
  pose proof (N_ascii_bounded b0). pose proof (N_ascii_bounded b1).
  pose proof (N_ascii_bounded b2). pose proof (N_ascii_bounded b3). unfold read32.
  rewrite (N.shiftl_mul_pow2 (N_of_ascii b1)), (N.shiftl_mul_pow2 (N_of_ascii b2)).
  rewrite (lor_shiftl_add (N_of_ascii b0) (N_of_ascii b1 * 2 ^ 16) 24) by (simpl; lia).
  replace (N_of_ascii b0 * 2 ^ 24 + N_of_ascii b1 * 2 ^ 16)%N
    with (N.shiftl (N_of_ascii b0 * 256 + N_of_ascii b1) 16)
    by (rewrite N.shiftl_mul_pow2; simpl; lia).
  rewrite (lor_shiftl_add _ (N_of_ascii b2 * 2 ^ 8) 16) by (simpl; lia).
  replace ((N_of_ascii b0 * 256 + N_of_ascii b1) * 2 ^ 16 + N_of_ascii b2 * 2 ^ 8)%N
    with (N.shiftl ((N_of_ascii b0 * 256 + N_of_ascii b1) * 256 + N_of_ascii b2) 8)
    by (rewrite N.shiftl_mul_pow2; simpl; lia).
  rewrite lor_shiftl_add by (simpl; lia). simpl. lia.
Qed.

Lemma read32_be32 v r : is_u32 v → read32 (be32 v ++ r) = v.
Proof.
  unfold is_u32, two32. intros Hv. unfold be32. cbn [app]. rewrite read32_arith, !N_of_byte_of.
  rewrite !N.shiftr_div_pow2.
  change (2 ^ 24)%N with 16777216%N. change (2 ^ 16)%N with 65536%N. change (2 ^ 8)%N with 256%N.
  zify. Z.to_euclidean_division_equations. lia.
Qed.

Lemma read32_range b : is_u32 (read32 b).
Proof.
  unfold is_u32, two32. destruct b as [|b0 [|b1 [|b2 [|b3 r]]]]; try (simpl; lia).
  rewrite read32_arith.
  pose proof (N_ascii_bounded b0). pose proof (N_ascii_bounded b1).
  pose proof (N_ascii_bounded b2). pose proof (N_ascii_bounded b3). lia.
Qed.

Lemma be32_read32 b : length b = 4 → be32 (read32 b) = b.
Proof.
  destruct b as [|b0 [|b1 [|b2 [|b3 [|? ?]]]]]; try done. intros _.
  rewrite read32_arith. unfold be32, byte_of. rewrite !N.shiftr_div_pow2.
  pose proof (N_ascii_bounded b0). pose proof (N_ascii_bounded b1).
  pose proof (N_ascii_bounded b2). pose proof (N_ascii_bounded b3).
  change (2 ^ 24)%N with 16777216%N. change (2 ^ 16)%N with 65536%N. change (2 ^ 8)%N with 256%N.
  set (n0 := N_of_ascii b0) in *. set (n1 := N_of_ascii b1) in *.
  set (n2 := N_of_ascii b2) in *. set (n3 := N_of_ascii b3) in *.
  assert (∀ x b, x = N_of_ascii b → ascii_of_N x = b) as Hb.
  { intros x b ->. apply ascii_N_embedding. }
  repeat f_equal; apply Hb; fold n0 n1 n2 n3; zify; Z.to_euclidean_division_equations; lia.
Qed.

Lemma length_be32 v : length (be32 v) = 4.
Proof. done. Qed.

#[export] Hint Rewrite length_be32 length_zeros length_copy_into : go.
