(* ===== verification/Transport.v ===== *)
(** * Transports (src/transport/)

    The three implementations of the interface [Transport]: [BOSH] keeps the bodies of
    the HTTP answers in a buffer, [TCP] is a connection that STARTTLS replaces by a TLS
    connection over it, [WebSocket] passes everything on.  The HTTP client and the
    connections are parameters.

    [bosh_ledger]: the bytes read over BOSH are the bytes the server answered, in order,
    none lost, repeated or invented, and each accepted write is one request.
    [bosh_drained]: reading with any non-empty buffer until the end gets all of them.
    [tcp_layers]: a TCP transport reads and writes through the TLS layer of every
    STARTTLS that succeeded, and through no layer of one that failed. *)

From Stdlib Require Import Ascii String.
From S2P Require Import Prelude Bytes.

Open Scope list_scope.

Inductive transport_error :=
  | EOF
  | EClosed            (* transport: BOSH connection closed *)
  | ENoSTARTTLS        (* ... does not support STARTTLS *)
  | ENet (n : nat).    (* an error of the connection or of the HTTP client *)

(** ** BOSH *)

(** What [client.Post] and [io.ReadAll] give: an error, or a body that may break off. *)
Inductive http_answer := HFail (e : nat) | HBroken (e : nat) | HBody (body : bytes).
Class HTTP (W : Type) := Post : string → bytes → W → W * http_answer.

Record BOSH := mkBOSH { url : string; sid : string; rid : Z; incoming : bytes; closed : bool }.

Definition NewBOSH (u : string) : BOSH := mkBOSH u "" 0 [] false.

Section Bosh.
Context {W : Type} `{!HTTP W}.

Definition set_incoming (l : bytes) (b : BOSH) : BOSH := mkBOSH (url b) (sid b) (rid b) l (closed b).

(** [bytes.Buffer.Read]: an empty buffer is at its end, unless nothing is asked for. *)
Definition buffer_read (n : nat) (l : bytes) : bytes * (bytes * option transport_error) :=
  match l, n with
  | [], S _ => (l, ([], Some EOF))
  | _, _ => (drop n l, (take n l, None))
  end.

(** The data read and the error; [n] is the length of the buffer given. *)
Definition Read (n : nat) (b : BOSH) : BOSH * (bytes * option transport_error) :=
  if closed b then (b, ([], Some EOF))
  else let '(l, r) := buffer_read n (incoming b) in (set_incoming l b, r).

(** The number of bytes written and the error. *)
Definition Write (p : bytes) (b : BOSH) (w : W) : BOSH * W * (nat * option transport_error) :=
  if closed b then (b, w, (0%nat, Some EClosed))
  else match Post (url b) p w with
       | (w', HFail e) | (w', HBroken e) => (b, w', (0%nat, Some (ENet e)))
       | (w', HBody body) => (set_incoming (incoming b ++ body) b, w', (length p, None))
       end.

Definition Close (b : BOSH) : BOSH := mkBOSH (url b) (sid b) (rid b) (incoming b) true.
Definition StartTLS (_ : unit) : option transport_error := Some ENoSTARTTLS.
Definition ConnectionState (b : BOSH) : bool := false.
Definition SetSID (s : string) (b : BOSH) : BOSH := mkBOSH (url b) s (rid b) (incoming b) (closed b).
Definition SID (b : BOSH) : string := sid b.

(** A run of the operations, in the order the mutex admits them. *)
Inductive bosh_op := BRead (n : nat) | BWrite (p : bytes) | BClose | BSetSID (s : string).
Inductive bosh_event := RRead (d : bytes) (e : option transport_error) | RWrite (k : nat) (e : option transport_error) | RDone.

Definition bosh_step (o : bosh_op) (b : BOSH) (w : W) : BOSH * W * bosh_event :=
  match o with
  | BRead n => let '(b', (d, e)) := Read n b in (b', w, RRead d e)
  | BWrite p => let '(b', w', (k, e)) := Write p b w in (b', w', RWrite k e)
  | BClose => (Close b, w, RDone)
  | BSetSID s => (SetSID s b, w, RDone)
  end.
Fixpoint bosh_run (os : list bosh_op) (b : BOSH) (w : W) : BOSH * W * list bosh_event :=
  match os with
  | [] => (b, w, [])
  | o :: os' =>
      let '(b1, w1, r) := bosh_step o b w in
      let '(b2, w2, rs) := bosh_run os' b1 w1 in (b2, w2, r :: rs)
  end.

Definition data_of (r : bosh_event) : bytes := match r with RRead d _ => d | _ => [] end.

(** What the server answers to the writes before the first close: one request each,
    with the bytes written, to the address the transport was made for. *)
Fixpoint answered (u : string) (os : list bosh_op) (w : W) : W * bytes :=
  match os with
  | [] | BClose :: _ => (w, [])
  | BWrite p :: os' =>
      let '(w1, a) := Post u p w in
      let '(w2, l) := answered u os' w1 in (w2, match a with HBody body => body ++ l | _ => l end)
  | _ :: os' => answered u os' w
  end.

Lemma buffer_read_split n l l' d e : buffer_read n l = (l', (d, e)) → d ++ l' = l.
Proof. destruct l as [|x l], n as [|n]; cbn; intros [= <- <- <-]; try done. cbn. by rewrite take_drop. Qed.

(** A closed transport gives nothing and sends nothing. *)
Lemma bosh_closed os b w : closed b = true →
  let '(b', w', rs) := bosh_run os b w in w' = w ∧ incoming b' = incoming b ∧ closed b' = true ∧ concat (data_of <$> rs) = [].
Proof.
  revert b. induction os as [|o os IH]; intros b Hc; [done|].
  assert (∃ b1 r, bosh_step o b w = (b1, w, r) ∧ closed b1 = true ∧ incoming b1 = incoming b ∧ data_of r = []) as (b1 & r & E & Hc1 & Hi & Hr).
  { destruct o; cbn; unfold Read, Write; rewrite ?Hc; eauto 10. }
  cbn. rewrite E. specialize (IH b1 Hc1). destruct (bosh_run os b1 w) as [[b2 w2] rs]. cbn. rewrite Hr, <- Hi. naive_solver.
Qed.

(** The bytes read over BOSH are the bytes the server answered, in order: what a run
    has read, followed by what the buffer still holds, is what it held before, followed
    by the bodies of the answers to its writes; and the server has seen one request for
    each write before the close and none after it. *)
Theorem bosh_ledger os b w : closed b = false →
  let '(b', w', rs) := bosh_run os b w in
  (w', concat (data_of <$> rs) ++ incoming b') = (λ x, (x.1, incoming b ++ x.2)) (answered (url b) os w).
Proof.
  revert b w. induction os as [|o os IH]; intros b w Hc; [cbn; by rewrite app_nil_r|].
  destruct o as [n|p| |s]; cbn [bosh_run bosh_step answered].
  - unfold Read. rewrite Hc. destruct (buffer_read n (incoming b)) as [l [d e]] eqn:E. apply buffer_read_split in E.
    specialize (IH (set_incoming l b) w Hc). destruct (bosh_run os _ w) as [[b2 w2] rs]. cbn in *.
    destruct (answered (url b) os w) as [w3 k]. cbn in *. injection IH as -> IH. by rewrite <- app_assoc, IH, app_assoc, E.
  - unfold Write. rewrite Hc. destruct (Post (url b) p w) as [w1 [e|e|body]].
    1,2: specialize (IH b w1 Hc); destruct (bosh_run os b w1) as [[b2 w2] rs]; cbn; by destruct (answered (url b) os w1).
    specialize (IH (set_incoming (incoming b ++ body) b) w1 Hc). destruct (bosh_run os _ w1) as [[b2 w2] rs]. cbn in *.
    destruct (answered (url b) os w1) as [w3 k]. cbn in *. injection IH as -> IH. by rewrite IH, app_assoc.
  - pose proof (bosh_closed os (Close b) w eq_refl) as H. destruct (bosh_run os (Close b) w) as [[b2 w2] rs].
    destruct H as (-> & Hi & _ & Hd). cbn in *. by rewrite Hd, Hi, app_nil_r.
  - specialize (IH (SetSID s b) w Hc). by destruct (bosh_run os _ w) as [[b2 w2] rs].
Qed.

(** Reading to the end: as many reads of a buffer of [S n] bytes as there are bytes,
    and one more, give all of them and then the end, which an open transport reports as
    soon as its buffer is empty. *)
Fixpoint drain (fuel n : nat) (b : BOSH) : bytes * option transport_error :=
  match fuel with
  | 0%nat => ([], None)
  | S fuel => let '(b', (d, e)) := Read n b in
              match e with Some e => (d, Some e) | None => let '(l, x) := drain fuel n b' in (d ++ l, x) end
  end.

Theorem bosh_drained n fuel b : closed b = false → (length (incoming b) < fuel)%nat →
  drain fuel (S n) b = (incoming b, Some EOF).
Proof.
  revert b. induction fuel as [|fuel IH]; intros b Hc Hf; [lia|]. cbn. unfold Read. rewrite Hc.
  destruct (incoming b) as [|x l] eqn:E; [done|]. cbn [buffer_read].
  rewrite IH; [cbn [incoming set_incoming]; by rewrite take_drop|done|]. cbn in *. rewrite length_drop. lia.
Qed.
End Bosh.

(** ** TCP and WebSocket *)

(** What [StartTLS] looks at in a [*tls.Config]. *)
Record Config := mkConfig { Certificates : nat; GetCertificate : bool; GetConfigForClient : bool }.
Inductive side := TLSServer | TLSClient.

(** A [net.Conn]: a connection of the system or a [*tls.Conn] over another. *)
Inductive conn := Plain (fd : nat) | TLS (s : side) (c : Config) (over : conn).
Definition is_tls (c : conn) : bool := match c with TLS _ _ _ => true | Plain _ => false end.
Fixpoint socket (c : conn) : nat := match c with Plain fd => fd | TLS _ _ c' => socket c' end.

Class Net (W : Type) := {
  conn_Read : conn → nat → W → W * (bytes * option transport_error);
  conn_Write : conn → bytes → W → W * (nat * option transport_error);
  conn_Close : conn → W → W * option transport_error;
  Handshake : conn → W → W * option transport_error
}.

Record TCP := mkTCP { t_conn : conn; tls : bool }.
Definition NewTCP (c : conn) : TCP := mkTCP c (is_tls c).

Section Tcp.
Context {W : Type} `{!Net W}.

Definition tcp_Read (n : nat) (t : TCP) (w : W) := conn_Read (t_conn t) n w.
Definition tcp_Write (p : bytes) (t : TCP) (w : W) := conn_Write (t_conn t) p w.
Definition tcp_Close (t : TCP) (w : W) := conn_Close (t_conn t) w.

Definition no_config : Config := mkConfig 0 false false.
Definition tls_layer (config : option Config) (c : conn) : conn :=
  let config := default no_config config in
  if (0 <? Certificates config)%nat || GetCertificate config || GetConfigForClient config
  then TLS TLSServer config c else TLS TLSClient config c.

Definition tcp_StartTLS (config : option Config) (t : TCP) (w : W) : TCP * W * option transport_error :=
  let tlsConn := tls_layer config (t_conn t) in
  let '(w', e) := Handshake tlsConn w in
  match e with
  | Some e => (t, w', Some e)
  | None => (mkTCP tlsConn true, w', None)
  end.

Definition tcp_ConnectionState (t : TCP) : bool := is_tls (t_conn t).
Definition Conn (t : TCP) : conn := t_conn t.

Inductive tcp_op := TRead (n : nat) | TWrite (p : bytes) | TStartTLS (c : option Config) | TClose.
(** Each event names the connection the operation used. *)
Inductive tcp_event := Used (c : conn) | Upgraded (c : option Config) (e : option transport_error).

Definition tcp_step (o : tcp_op) (t : TCP) (w : W) : TCP * W * tcp_event :=
  match o with
  | TRead n => (t, (tcp_Read n t w).1, Used (t_conn t))
  | TWrite p => (t, (tcp_Write p t w).1, Used (t_conn t))
  | TClose => (t, (tcp_Close t w).1, Used (t_conn t))
  | TStartTLS c => let '(t', w', e) := tcp_StartTLS c t w in (t', w', Upgraded c e)
  end.
Fixpoint tcp_run (os : list tcp_op) (t : TCP) (w : W) : TCP * W * list tcp_event :=
  match os with
  | [] => (t, w, [])
  | o :: os' => let '(t1, w1, r) := tcp_step o t w in let '(t2, w2, rs) := tcp_run os' t1 w1 in (t2, w2, r :: rs)
  end.

(** The connection the upgrades that succeeded lead to. *)
Definition upgrade (c : conn) (r : tcp_event) : conn :=
  match r with Upgraded cfg None => tls_layer cfg c | _ => c end.

(** A TCP transport uses, at each operation, the connection with one TLS layer for
    each STARTTLS that has succeeded until then and no other, down to the same socket;
    the flag says whether there is a layer. *)
Theorem tcp_layers os c w t' w' rs : tcp_run os (NewTCP c) w = (t', w', rs) →
  t' = NewTCP (foldl upgrade c rs) ∧ socket (t_conn t') = socket c ∧
  ∀ i x, rs !! i = Some (Used x) → x = foldl upgrade c (take i rs).
Proof.
  assert (∀ cfg c', socket (tls_layer cfg c') = socket c' ∧ is_tls (tls_layer cfg c') = true) as Hl.
  { intros cfg c'. unfold tls_layer. by case_match. }
  revert c w rs. induction os as [|o os IH]; intros c w rs; [by intros [= <- <- <-]|]. cbn [tcp_run].
  destruct (tcp_step o (NewTCP c) w) as [[t1 w1] r] eqn:E.
  assert (t1 = NewTCP (upgrade c r) ∧ socket (upgrade c r) = socket c ∧ ∀ x, r = Used x → x = c) as (-> & Hs & Hx).
  { destruct o as [n|p|cfg|]; cbn in E; try (injection E as <- <- <-; by repeat split; intros ? [= ->]).
    unfold tcp_StartTLS in E. destruct (Handshake _ w) as [w2 [e|]]; injection E as <- <- <-; [done|]. cbn.
    destruct (Hl cfg c) as [? H2]. unfold NewTCP. by rewrite H2. }
  destruct (tcp_run os (NewTCP (upgrade c r)) w1) as [[t2 w2] rs'] eqn:E2. intros [= <- <- <-].
  destruct (IH _ _ _ E2) as (-> & Hs2 & Hu). split; [done|]. split; [by rewrite Hs2|].
  intros [|i] x; cbn; [by intros [= ->]; apply Hx|apply Hu].
Qed.
End Tcp.

(** The role of a TCP transport is decided by the certificates of the configuration:
    a client that has one, for SASL EXTERNAL say, waits for a client hello. *)
Lemma client_certificate_is_a_server n c : tls_layer (Some (mkConfig (S n) false false)) c = TLS TLSServer (mkConfig (S n) false false) c.
Proof. done. Qed.

Record WebSocket := mkWebSocket { rwc : conn; ws_tls : bool; ws_peer : nat }.
Section Ws.
Context {W : Type} `{!Net W} (RemoteAddr LocalAddr : conn → nat).
Definition NewWebSocket (c : conn) : WebSocket := mkWebSocket c (is_tls c) (RemoteAddr c).
Definition ws_Read (n : nat) (ws : WebSocket) (w : W) := conn_Read (rwc ws) n w.
Definition ws_Write (p : bytes) (ws : WebSocket) (w : W) := conn_Write (rwc ws) p w.
Definition ws_Close (ws : WebSocket) (w : W) := conn_Close (rwc ws) w.
Definition ws_StartTLS (config : option Config) (ws : WebSocket) : option transport_error := Some ENoSTARTTLS.
Definition ws_ConnectionState (ws : WebSocket) : bool := is_tls (rwc ws).
Definition ws_Peer (ws : WebSocket) : nat := ws_peer ws.
Definition ws_LocalAddress (ws : WebSocket) : nat := LocalAddr (rwc ws).
Definition tcp_Peer (t : TCP) : nat := RemoteAddr (t_conn t).
Definition tcp_LocalAddress (t : TCP) : nat := LocalAddr (t_conn t).
End Ws.

(** A BOSH transport that has not received anything is at its end: a session that
    reads before it writes is told that the stream is over. *)
Lemma open_is_at_end u n : Read (S n) (NewBOSH u) = (NewBOSH u, ([], Some EOF)).
Proof. done. Qed.
