(* ===== verification/Base64.v ===== *)
(** * Base64 ([base64.StdEncoding])

    The encoder and the decoder of Go's standard alphabet with padding, as the
    SASL code uses them.  The decoder ignores carriage returns and line feeds
    and is strict about padding and trailing data. *)

From Stdlib Require Import Ascii String NArith.
From S2P Require Import Prelude Bytes.

Open Scope list_scope.

Definition alphabet : list ascii :=
  list_ascii_of_string "ABCDEFGHIJKLMNOPQRSTUVWXYZabcdefghijklmnopqrstuvwxyz0123456789+/".

Definition pad : ascii := "="%char.

(** The character of a six-bit value and back. *)
Definition enc6 (n : N) : ascii := default zero_byte (alphabet !! N.to_nat n).
Definition dec6 (c : ascii) : option N := N.of_nat ∘ fst <$> list_find (λ x, x = c) alphabet.

Fixpoint encode (b : bytes) : bytes :=
  match b with
  | x :: y :: z :: b' =>
      let n := ((N_of_ascii x * 256 + N_of_ascii y) * 256 + N_of_ascii z)%N in
      enc6 (n / 262144) :: enc6 (n / 4096 mod 64) :: enc6 (n / 64 mod 64) :: enc6 (n mod 64) :: encode b'
  | [x; y] =>
      let n := ((N_of_ascii x * 256 + N_of_ascii y) * 4)%N in
      [enc6 (n / 4096); enc6 (n / 64 mod 64); enc6 (n mod 64); pad]
  | [x] =>
      let n := (N_of_ascii x * 16)%N in
      [enc6 (n / 64); enc6 (n mod 64); pad; pad]
  | [] => []
  end.

(** The quanta of four characters. *)
Fixpoint decode_quanta (l : bytes) : option bytes :=
  match l with
  | [] => Some []
  | a :: b :: c :: d :: l' =>
      va ← dec6 a; vb ← dec6 b;
      if bool_decide (c = pad) then
        if bool_decide (d = pad ∧ l' = [])
        then Some [byte_of (va * 4 + vb / 16)] else None
      else
        vc ← dec6 c;
        if bool_decide (d = pad) then
          if bool_decide (l' = [])
          then Some [byte_of (va * 4 + vb / 16); byte_of (vb * 16 + vc / 4)] else None
        else
          vd ← dec6 d; rest ← decode_quanta l';
          Some (byte_of (va * 4 + vb / 16) :: byte_of (vb * 16 + vc / 4) :: byte_of (vc * 64 + vd) :: rest)
  | _ => None
  end.

Definition newline (c : ascii) : Prop := c = ascii_of_N 10 ∨ c = ascii_of_N 13.

Definition decode (l : bytes) : option bytes := decode_quanta (filter (λ c, ¬ newline c) l).

Definition EncodeToString (b : bytes) : string := string_of_list_ascii (encode b).
Definition DecodeString (s : string) : option bytes := decode (list_ascii_of_string s).

(** ** Round trip *)

Lemma dec6_enc6 n : (n < 64)%N → dec6 (enc6 n) = Some n ∧ enc6 n ≠ pad ∧ ¬ newline (enc6 n).
Proof.
  intros Hn.
  assert (Forall (λ k, dec6 (enc6 (N.of_nat k)) = Some (N.of_nat k) ∧ enc6 (N.of_nat k) ≠ pad ∧
    ¬ (enc6 (N.of_nat k) = ascii_of_N 10 ∨ enc6 (N.of_nat k) = ascii_of_N 13)) (seq 0 64)) as Hall.
  { apply (bool_decide_unpack _). by vm_compute. }
  rewrite <- (N2Nat.id n). apply (proj1 (Forall_forall _ _) Hall). apply elem_of_seq. lia.
Qed.

(** Induction by groups of three bytes. *)
Lemma triples_ind (P : bytes → Prop) :
  P [] → (∀ x, P [x]) → (∀ x y, P [x; y]) → (∀ x y z b, P b → P (x :: y :: z :: b)) → ∀ b, P b.
Proof.
  intros H0 H1 H2 H3 b. remember (length b) as n eqn:En. revert b En.
  induction (lt_wf n) as [n _ IH]. intros [|x [|y [|z b]]] ->; auto.
  apply H3. apply (IH (length b)); [simpl; lia|done].
Qed.

Lemma byte_of_id v (a : ascii) : (v `mod` 256)%N = N_of_ascii a → byte_of v = a.
Proof. intros Hv. unfold byte_of. rewrite Hv. apply ascii_N_embedding. Qed.

Ltac byte_bounds :=
  repeat match goal with
  | a : ascii |- _ => lazymatch goal with
      | H : (N_of_ascii a < 256)%N |- _ => fail
      | _ => pose proof (N_ascii_bounded a)
      end
  end.
Ltac byte_arith := zify; Z.to_euclidean_division_equations; lia.

Lemma decode_quanta_encode b : decode_quanta (encode b) = Some b.
Proof.
  induction b as [|x|x y|x y z b IH] using triples_ind; [done|..]; byte_bounds.
  - cbn [encode]. set (n := (N_of_ascii x * 16)%N).
    destruct (dec6_enc6 (n / 64)) as (E1 & _); [byte_arith|].
    destruct (dec6_enc6 (n mod 64)) as (E2 & _); [byte_arith|].
    cbn [decode_quanta]. rewrite E1, E2. simpl. do 2 f_equal. apply byte_of_id. byte_arith.
  - cbn [encode]. set (n := ((N_of_ascii x * 256 + N_of_ascii y) * 4)%N).
    destruct (dec6_enc6 (n / 4096)) as (E1 & _); [byte_arith|].
    destruct (dec6_enc6 (n / 64 mod 64)) as (E2 & _); [byte_arith|].
    destruct (dec6_enc6 (n mod 64)) as (E3 & N3 & _); [byte_arith|].
    cbn [decode_quanta]. rewrite E1, E2, E3. simpl. rewrite (bool_decide_false (_ = pad)) by done. simpl.
    do 2 f_equal; [|f_equal]; apply byte_of_id; byte_arith.
  - cbn [encode]. set (n := ((N_of_ascii x * 256 + N_of_ascii y) * 256 + N_of_ascii z)%N).
    destruct (dec6_enc6 (n / 262144)) as (E1 & _); [byte_arith|].
    destruct (dec6_enc6 (n / 4096 mod 64)) as (E2 & _); [byte_arith|].
    destruct (dec6_enc6 (n / 64 mod 64)) as (E3 & N3 & _); [byte_arith|].
    destruct (dec6_enc6 (n mod 64)) as (E4 & N4 & _); [byte_arith|].
    cbn [decode_quanta]. rewrite E1, E2, E3, E4, IH. simpl.
    rewrite !(bool_decide_false (_ = pad)) by done. simpl.
    do 2 f_equal; [|f_equal; [|f_equal]]; apply byte_of_id; byte_arith.
Qed.

Lemma encode_no_newline b : Forall (λ c, ¬ newline c) (encode b).
Proof.
  assert (¬ newline pad) as Hp by (by intros [?|?]).
  induction b as [|x|x y|x y z b IH] using triples_ind; [constructor|..]; byte_bounds; cbn [encode];
    repeat (constructor; [first [exact Hp | apply dec6_enc6; byte_arith]|]); try exact IH; constructor.
Qed.

Lemma filter_all {A} (P : A → Prop) `{∀ x, Decision (P x)} l : Forall P l → filter P l = l.
Proof. induction 1; [done|]. rewrite filter_cons_True by done. congruence. Qed.

Lemma decode_encode b : decode (encode b) = Some b.
Proof. unfold decode. rewrite filter_all by apply encode_no_newline. apply decode_quanta_encode. Qed.

Lemma DecodeString_EncodeToString b : DecodeString (EncodeToString b) = Some b.
Proof. unfold DecodeString, EncodeToString. rewrite list_ascii_of_string_of_list_ascii. apply decode_encode. Qed.
