(* ===== verification/Jid.v ===== *)
(** * Addresses: package [jid] (src/jid/jid.go)

    Parsing, validation, printing and XEP-0106 escaping of XMPP addresses. *)

From Stdlib Require Import Ascii String.
From S2P Require Import Prelude GoStrings Xml.

Open Scope string_scope.

Inductive jid_error :=
  | ErrEmptyJID
  | ErrInvalidJID
  | ErrInvalidLocal
  | ErrInvalidDomain
  | ErrInvalidResource
  | ErrTooLong.

#[global] Instance jid_error_eq_dec : EqDecision jid_error.
Proof. solve_decision. Defined.

Definition maxPartLen : Z := 1023.

Record JID := mkJID { j_local : string; j_domain : string; j_resource : string }.

#[global] Instance JID_eq_dec : EqDecision JID.
Proof. solve_decision. Defined.

(** The zero value [JID{}]. *)
Definition JID_zero : JID := mkJID "" "" "".

Definition at_sign : ascii := "@".
Definition slash : ascii := "/".

(** [for _, r := range s { if r == '@' || r == '/' { return false } }; return true],
    reached only when [s] is valid UTF-8. *)
Definition no_separator_rune (s : string) : bool :=
  match utf8_runes s with
  | Some rs => forallb (fun r => negb (bool_decide (r = N_of_ascii at_sign)
                                        || bool_decide (r = N_of_ascii slash))) rs
  | None => true
  end.

Definition validLocal (s : string) : bool :=
  if bool_decide (s = "") then true
  else if negb (ValidString s) then false
  else no_separator_rune s.

Definition validDomain (s : string) : bool :=
  if bool_decide (s = "") then false
  else if negb (ValidString s) then false
  else if HasPrefix s "[" && HasSuffix s "]" then true
  else no_separator_rune s.

Definition New (local domain resource : string) : res jid_error JID :=
  if bool_decide (domain = "") then Err ErrInvalidDomain
  else if (maxPartLen <? len local)%Z then Err ErrTooLong
  else if (maxPartLen <? len domain)%Z then Err ErrTooLong
  else if (maxPartLen <? len resource)%Z then Err ErrTooLong
  else if bool_decide (local ≠ "") && negb (validLocal local) then Err ErrInvalidLocal
  else if negb (validDomain domain) then Err ErrInvalidDomain
  else Ok (mkJID local domain resource).

Definition Parse (s : string) : res jid_error JID :=
  if bool_decide (s = "") then Err ErrEmptyJID
  else
    let '(s, resource) :=
      match IndexByte s slash with
      | Some slashIdx => (str_take slashIdx s, str_drop (S slashIdx) s)
      | None => (s, "")
      end in
    let '(local, domain) :=
      match IndexByte s at_sign with
      | Some atIdx => (str_take atIdx s, str_drop (S atIdx) s)
      | None => ("", s)
      end in
    if bool_decide (domain = "") then Err ErrInvalidDomain
    else New local domain resource.

Definition MustParse (s : string) : res jid_error JID :=
  match Parse s with Ok j => Ok j | _ => Panic end.

Definition Bare (j : JID) : JID := mkJID (j_local j) (j_domain j) "".
Definition IsBare (j : JID) : bool := bool_decide (j_resource j = "").
Definition IsFull (j : JID) : bool := bool_decide (j_resource j ≠ "").
Definition IsDomainOnly (j : JID) : bool := bool_decide (j_local j = "").
Definition Equal (j other : JID) : bool :=
  bool_decide (j_local j = j_local other) && bool_decide (j_domain j = j_domain other)
  && bool_decide (j_resource j = j_resource other).

(** [JID.String]. *)
Definition JID_String (j : JID) : string :=
  if bool_decide (j_domain j = "") then ""
  else
    (if bool_decide (j_local j ≠ "") then j_local j +:+ "@" else "")
    +:+ j_domain j
    +:+ (if bool_decide (j_resource j ≠ "") then "/" +:+ j_resource j else "").

Definition IsZero (j : JID) : bool := bool_decide (j_domain j = "").
Definition WithResource (j : JID) (resource : string) : JID :=
  mkJID (j_local j) (j_domain j) resource.

(** [MarshalXMLAttr]: an empty attribute (which [encoding/xml] omits) for a zero
    address. *)
Definition MarshalXMLAttr (j : JID) (name : Name) : Attr :=
  if IsZero j then mkAttr (mkName "" "") "" else mkAttr name (JID_String j).

(** [UnmarshalText] assigns the receiver only when parsing succeeds. *)
Definition UnmarshalText (data : string) : M JID jid_error unit :=
  fun j => match Parse data with
           | Ok parsed => (parsed, Ok tt)
           | Err e => (j, Err e)
           | Panic => (j, Panic)
           end.

Definition escape_pairs : list (string * string) :=
  [("\", "\5c"); (" ", "\20"); (String "034" "", "\22"); ("&", "\26"); ("'", "\27");
   ("/", "\2f"); (":", "\3a"); ("<", "\3c"); (">", "\3e"); ("@", "\40")].

Definition unescape_pairs : list (string * string) :=
  [("\20", " "); ("\22", String "034" ""); ("\26", "&"); ("\27", "'"); ("\2f", "/");
   ("\3a", ":"); ("\3c", "<"); ("\3e", ">"); ("\40", "@"); ("\5c", "\")].

Definition EscapeLocal (s : string) : string := Replace escape_pairs s.
Definition UnescapeLocal (s : string) : string := Replace unescape_pairs s.

(** ** Lemmas *)

Lemma no_separator_bytes s :
  ValidString s = true →
  no_separator_rune s = negb (has_byte at_sign s || has_byte slash s).
Proof.
  unfold ValidString, no_separator_rune. destruct (utf8_runes s) as [rs|] eqn:Hs; [|done].
  intros _. apply eq_bool_prop_intro. rewrite !Is_true_true, forallb_forall.
  setoid_rewrite <- list_elem_of_In. rewrite negb_true_iff, orb_false_iff.
  rewrite <- !not_true_iff_false.
  rewrite <- (utf8_ascii_byte at_sign s rs), <- (utf8_ascii_byte slash s rs) by done.
  setoid_rewrite negb_true_iff. setoid_rewrite orb_false_iff.
  setoid_rewrite bool_decide_eq_false. split.
  - intros H. split; intros Hin; destruct (H _ Hin); congruence.
  - intros [H1 H2] x Hx. split; intros ->; contradiction.
Qed.

(** What [New] accepts. *)
Definition local_ok (l : string) : Prop :=
  l = "" ∨ (ValidString l = true ∧ has_byte at_sign l = false ∧ has_byte slash l = false).
Definition bracketed (d : string) : bool := HasPrefix d "[" && HasSuffix d "]".
Definition domain_ok (d : string) : Prop :=
  d ≠ "" ∧ ValidString d = true ∧
  (bracketed d = true ∨ (has_byte at_sign d = false ∧ has_byte slash d = false)).

Lemma validLocal_spec l : validLocal l = true ↔ local_ok l.
Proof.
  unfold validLocal, local_ok. case_bool_decide as H; [tauto|].
  destruct (ValidString l) eqn:Hv; cbn [negb]; [|naive_solver].
  rewrite no_separator_bytes, negb_true_iff, orb_false_iff by done. naive_solver.
Qed.

Lemma validDomain_spec d : validDomain d = true ↔ domain_ok d.
Proof.
  unfold validDomain, domain_ok, bracketed. case_bool_decide as H; [naive_solver|].
  destruct (ValidString d) eqn:Hv; cbn [negb]; [|naive_solver].
  destruct (HasPrefix d "[" && HasSuffix d "]"); [naive_solver|].
  rewrite no_separator_bytes, negb_true_iff, orb_false_iff by done. naive_solver.
Qed.

Lemma New_ok_iff l d r j :
  New l d r = Ok j ↔
  j = mkJID l d r ∧ local_ok l ∧ domain_ok d ∧
  (len l <= maxPartLen)%Z ∧ (len d <= maxPartLen)%Z ∧ (len r <= maxPartLen)%Z.
Proof.
  rewrite <- validLocal_spec, <- validDomain_spec. unfold New.
  destruct (bool_decide (d = "")) eqn:Hd.
  { apply bool_decide_eq_true in Hd as ->. naive_solver. }
  assert (validLocal l = true ↔ bool_decide (l ≠ "") && negb (validLocal l) = false) as Hl.
  { unfold validLocal at 1. destruct (bool_decide (l = "")) eqn:E.
    - apply bool_decide_eq_true in E as ->. done.
    - rewrite bool_decide_true by (by apply bool_decide_eq_false in E).
      simpl. rewrite negb_false_iff. unfold validLocal. by rewrite E. }
  rewrite Hl. clear Hl.
  repeat match goal with
  | |- context [Z.ltb ?a ?b] => destruct (Z.ltb_spec a b)
  end; try (split; [done|naive_solver lia]).
  destruct (bool_decide (l ≠ "") && negb (validLocal l)); [naive_solver|].
  destruct (validDomain d); naive_solver lia.
Qed.


(** [Parse] reads back the parts that [JID_String] wrote, when the first ['@']
    and the first ['/'] of the text are the ones written as separators. *)
Lemma Parse_parts l d r :
  d ≠ "" → has_byte at_sign l = false → has_byte slash l = false → has_byte slash d = false →
  l ≠ "" ∨ has_byte at_sign d = false →
  Parse (JID_String (mkJID l d r)) = New l d r.
Proof.
  intros Hd Hal Hsl Hsd Hat. unfold JID_String. simpl. rewrite bool_decide_false by done.
  set (pre := if bool_decide (l ≠ "") then l +:+ "@" else "").
  assert (has_byte slash (pre +:+ d) = false) as Hpre.
  { subst pre. rewrite has_byte_app, Hsd, orb_false_r.
    case_bool_decide; [|done]. by rewrite has_byte_app, Hsl. }
  assert (match IndexByte (pre +:+ d) at_sign with
          | Some i => (str_take i (pre +:+ d), str_drop (S i) (pre +:+ d))
          | None => ("", pre +:+ d) end = (l, d)) as Hsplit.
  { subst pre. case_bool_decide as Hl.
    - rewrite str_app_assoc. change ("@" +:+ d) with (String at_sign d).
      rewrite IndexByte_app by done. by rewrite str_take_app, str_drop_sep.
    - subst l. destruct Hat as [|Hat]; [done|]. simpl.
      by rewrite (proj2 (IndexByte_None d at_sign)). }
  assert (pre +:+ d ≠ "") as Hne.
  { intros E. apply (f_equal String.length) in E. rewrite length_str_app in E.
    destruct d; [done|]. simpl in E. lia. }
  rewrite <- str_app_assoc. unfold Parse.
  rewrite bool_decide_false.
  2:{ intros E. apply Hne. apply (f_equal String.length) in E.
      rewrite length_str_app in E. destruct (pre +:+ d); [done|]. simpl in E. lia. }
  case_bool_decide as Hr.
  - change ("/" +:+ r) with (String slash r). rewrite IndexByte_app by done.
    rewrite str_take_app, str_drop_sep, Hsplit. by rewrite bool_decide_false.
  - subst r. rewrite str_app_nil_r.
    rewrite (proj2 (IndexByte_None _ slash)) by done. rewrite Hsplit. by rewrite bool_decide_false.
Qed.

(** What a successful [Parse] says about the parts. *)
Lemma Parse_inv s j :
  Parse s = Ok j →
  New (j_local j) (j_domain j) (j_resource j) = Ok j ∧
  has_byte at_sign (j_local j) = false ∧ has_byte slash (j_local j) = false ∧
  has_byte slash (j_domain j) = false.
Proof.
  unfold Parse. case_bool_decide; [done|].
  assert (∀ s', has_byte slash s' = false → ∀ r,
    (let '(l, d) := match IndexByte s' at_sign with
                    | Some i => (str_take i s', str_drop (S i) s') | None => ("", s') end in
     if bool_decide (d = "") then Err ErrInvalidDomain else New l d r) = Ok j →
    New (j_local j) (j_domain j) (j_resource j) = Ok j ∧
    has_byte at_sign (j_local j) = false ∧ has_byte slash (j_local j) = false ∧
    has_byte slash (j_domain j) = false) as Hgen.
  { intros s' Hs' r. destruct (IndexByte s' at_sign) as [i|] eqn:Hi.
    - apply IndexByte_Some in Hi as [Hs Hl]. case_bool_decide; [done|]. intros HN.
      pose proof HN as [-> _]%New_ok_iff. simpl in *.
      rewrite Hs, has_byte_app in Hs'. apply orb_false_iff in Hs' as [? Hd].
      done.
    - case_bool_decide; [done|]. intros HN. pose proof HN as [-> _]%New_ok_iff. done. }
  destruct (IndexByte s slash) as [i|] eqn:Hi.
  - apply IndexByte_Some in Hi as [_ Hn]. by apply Hgen.
  - apply IndexByte_None in Hi. by apply Hgen.
Qed.

(** ** XEP-0106 escaping *)

Lemma EscapeLocal_cons a s :
  EscapeLocal (String a s) = EscapeLocal (String a "") +:+ EscapeLocal s.
Proof. destruct a as [[] [] [] [] [] [] [] []]; reflexivity. Qed.

Lemma Unescape_escaped_byte a t :
  UnescapeLocal (EscapeLocal (String a "") +:+ t) = String a (UnescapeLocal t).
Proof. destruct a as [[] [] [] [] [] [] [] []]; try reflexivity; destruct t; reflexivity. Qed.

(** *** Escaping yields a valid localpart *)

Lemma EscapeLocal_high p t : high p → EscapeLocal (p +:+ t) = p +:+ EscapeLocal t.
Proof.
  induction p as [|a p IH]; intros Hp; simpl; [done|].
  assert (EscapeLocal (String a "") = String a "") as Ha.
  { assert (128 <= N_of_ascii a)%N as H.
    { apply Hp. simpl. by rewrite bool_decide_true. }
    revert H. destruct a as [[] [] [] [] [] [] [] []]; vm_compute; try done;
      by intros []. }
  rewrite EscapeLocal_cons, Ha. simpl. f_equal. apply IH.
  intros c Hc. apply Hp. simpl. by rewrite Hc, orb_true_r.
Qed.

Lemma utf8_ascii_prefix p t :
  is_ascii p = true → utf8_runes (p +:+ t) = app (map N_of_ascii (list_ascii_of_string p)) <$> utf8_runes t.
Proof.
  induction p as [|a p IH]; simpl; [by destruct (utf8_runes t)|].
  intros [Ha Hp]%andb_true_iff. change (forallb _ _) with (is_ascii p) in Hp.
  rewrite Ha, IH by done. by destruct (utf8_runes t).
Qed.

Lemma EscapeLocal_valid s : ValidString s = true → ValidString (EscapeLocal s) = true.
Proof.
  unfold ValidString. destruct (utf8_runes s) as [rs|] eqn:Hs; [|done]. intros _.
  revert s rs Hs.
  apply (utf8_ind (λ s _, (if utf8_runes (EscapeLocal s) then true else false) = true)).
  - done.
  - intros b s rs Hb _ IH. rewrite EscapeLocal_cons, utf8_ascii_prefix.
    + by destruct (utf8_runes (EscapeLocal s)).
    + revert Hb. destruct b as [[] [] [] [] [] [] [] []]; vm_compute; done.
  - intros p r s rs (_ & Hhigh & _ & Hp) _ IH. rewrite EscapeLocal_high, Hp by done.
    by destruct (utf8_runes (EscapeLocal s)).
Qed.

Lemma EscapeLocal_no_separator s :
  has_byte at_sign (EscapeLocal s) = false ∧ has_byte slash (EscapeLocal s) = false.
Proof.
  induction s as [|a s [IH1 IH2]]; [done|]. rewrite EscapeLocal_cons, !has_byte_app, IH1, IH2.
  destruct a as [[] [] [] [] [] [] [] []]; done.
Qed.

(** ** Properties *)

(** C23: printing a parsed address and parsing it again gives the same address
    (and the address is never the zero value), as long as the domainpart has no
    ['@'] or there is a localpart. *)
Theorem Parse_String_roundtrip s j :
  Parse s = Ok j →
  j_local j ≠ "" ∨ has_byte at_sign (j_domain j) = false →
  Parse (JID_String j) = Ok j ∧ IsZero j = false.
Proof.
  intros (HN & Hal & Hsl & Hsd)%Parse_inv Hat.
  pose proof HN as (_ & _ & [Hd _] & _)%New_ok_iff. destruct j as [l d r]. simpl in *.
  rewrite Parse_parts by done. split; [done|]. by apply bool_decide_eq_false.
Qed.

Lemma Parse_String_roundtrip_witness :
  Parse "juliet@[::1]/balcony/2" = Ok (mkJID "juliet" "[::1]" "balcony/2") ∧
  Parse (JID_String (mkJID "juliet" "[::1]" "balcony/2"))
    = Ok (mkJID "juliet" "[::1]" "balcony/2").
Proof.
  split; [vm_compute; reflexivity|].
  apply (Parse_String_roundtrip "juliet@[::1]/balcony/2" (mkJID "juliet" "[::1]" "balcony/2"));
    [vm_compute; reflexivity|left; discriminate].
Defined.

(** [New] accepts exactly the triples whose parts fit in 1023 bytes, whose
    localpart is empty or valid UTF-8 without separators, and whose domainpart is
    non-empty valid UTF-8, bracketed or without separators; it then stores the
    parts unchanged, and the printed address parses back to them when the
    domainpart has no separator. *)
Theorem New_spec l d r j :
  (New l d r = Ok j ↔
    j = mkJID l d r ∧ local_ok l ∧ domain_ok d ∧
    (len l <= maxPartLen)%Z ∧ (len d <= maxPartLen)%Z ∧ (len r <= maxPartLen)%Z) ∧
  (New l d r = Ok j → has_byte at_sign d = false → has_byte slash d = false →
    Parse (JID_String j) = Ok j).
Proof.
  split; [apply New_ok_iff|]. intros HN Had Hsd.
  pose proof HN as (-> & Hl & [Hd _] & _)%New_ok_iff.
  assert (has_byte at_sign l = false ∧ has_byte slash l = false) as [? ?].
  { destruct Hl as [->|(_ & ? & ?)]; done. }
  rewrite Parse_parts by auto. done.
Qed.

Lemma New_spec_witness :
  New "juliet" "example.com" "x" = Ok (mkJID "juliet" "example.com" "x") ∧
  Parse (JID_String (mkJID "juliet" "example.com" "x")) = Ok (mkJID "juliet" "example.com" "x").
Proof.
  split; [vm_compute; reflexivity|].
  apply (New_spec "juliet" "example.com" "x"); vm_compute; reflexivity.
Defined.

(** The round trip of C1 needs its side condition: a bracketed domainpart may
    contain ['@'], and with an empty localpart the printed form is then read back
    with a different localpart and domainpart. *)
Theorem Parse_String_not_injective :
  Parse "@[y@z]" = Ok (mkJID "" "[y@z]" "") ∧
  JID_String (mkJID "" "[y@z]" "") = "[y@z]" ∧
  Parse "[y@z]" = Ok (mkJID "[y" "z]" "").
Proof. vm_compute. done. Qed.

(** Unescaping an escaped localpart gives the original back, for every byte
    string. *)
Theorem Unescape_Escape s : UnescapeLocal (EscapeLocal s) = s.
Proof.
  induction s as [|a s IH]; [done|]. by rewrite EscapeLocal_cons, Unescape_escaped_byte, IH.
Qed.

(** The escaped form of any valid UTF-8 string is a localpart that [New]
    accepts whenever it fits, whatever separators the original contained. *)
Theorem EscapeLocal_New s d r :
  ValidString s = true → (len (EscapeLocal s) <= maxPartLen)%Z →
  domain_ok d → (len d <= maxPartLen)%Z → (len r <= maxPartLen)%Z →
  New (EscapeLocal s) d r = Ok (mkJID (EscapeLocal s) d r).
Proof.
  intros Hs ? ? ? ?. apply New_ok_iff. split; [done|]. split; [|done].
  right. split; [by apply EscapeLocal_valid|apply EscapeLocal_no_separator].
Qed.

Lemma EscapeLocal_New_witness :
  New (EscapeLocal "d'artagnan@/x") "musketeers.lit" ""
    = Ok (mkJID "d\27artagnan\40\2fx" "musketeers.lit" "").
Proof.
  apply (EscapeLocal_New "d'artagnan@/x" "musketeers.lit" "").
  - vm_compute; reflexivity.
  - vm_compute; discriminate.
  - split; [discriminate|]. split; [vm_compute; reflexivity|]. right. vm_compute. auto.
  - vm_compute; discriminate.
  - vm_compute; discriminate.
Defined.
