(* ===== verification/PluginManager.v ===== *)
(** * Plugin manager: package [plugin] (src/plugin/manager.go, plugin.go)

    Registration, dependency ordering (Kahn's algorithm), initialisation and
    shutdown of plugins.  Go visits maps in an unspecified order, so every loop
    over a map takes the visiting order as an argument; the theorems hold for
    every order. *)

From Stdlib Require Import Ascii String.
From S2P Require Import Prelude.

Open Scope string_scope.

(** A [Plugin], seen through the methods the manager calls: its name, its
    dependencies and the errors its [Initialize] and [Close] return. *)
Record Plugin := mkPlugin {
  Name : string;
  Dependencies : list string;
  Initialize_err : option string;
  Close_err : option string
}.

Inductive plugin_error :=
  | ErrDuplicatePlugin (name : string)
  | ErrMissingDep (name dep : string)
  | ErrCyclicDep
  | ErrInitialize (name err : string)
  | ErrClose (err : string).

(** [Manager]: the mutex is not part of the state, every method runs under it. *)
Record Manager := mkManager { plugins : gmap string Plugin; order : list string }.

Definition NewManager : Manager := mkManager ∅ [].

Definition Register (p : Plugin) : M Manager plugin_error unit :=
  fun m => match plugins m !! Name p with
           | Some _ => (m, Err (ErrDuplicatePlugin (Name p)))
           | None => (mkManager (<[Name p := p]> (plugins m)) (order m), Ok tt)
           end.

Definition Get (m : Manager) (name : string) : option Plugin := plugins m !! name.

(** ** [topologicalSort] *)

(** First loop: every dependency is registered. *)
Fixpoint first_missing (ps : gmap string Plugin) (deps : list string) : option string :=
  match deps with
  | [] => None
  | dep :: ds => match ps !! dep with None => Some dep | Some _ => first_missing ps ds end
  end.

Fixpoint check_deps (ps : gmap string Plugin) (it : list (string * Plugin)) : option (string * string) :=
  match it with
  | [] => None
  | (name, p) :: it' =>
      match first_missing ps (Dependencies p) with
      | Some dep => Some (name, dep)
      | None => check_deps ps it'
      end
  end.

(** [inDegree[name] = 0] for every plugin. *)
Definition zero_degrees (it : list (string * Plugin)) : gmap string Z :=
  foldl (fun deg np => <[np.1 := 0%Z]> deg) ∅ it.

(** Reading a Go map gives the zero value for an absent key. *)
Definition deg_at (deg : gmap string Z) (x : string) : Z := default 0%Z (deg !! x).
Definition deps_at (g : gmap string (list string)) (x : string) : list string := default [] (g !! x).

(** [inDegree[name]++; dependents[dep] = append(dependents[dep], name)]. *)
Definition add_edge (name : string) (st : gmap string Z * gmap string (list string)) (dep : string)
  : gmap string Z * gmap string (list string) :=
  (<[name := (deg_at st.1 name + 1)%Z]> st.1,
   <[dep := (deps_at st.2 dep ++ [name])%list]> st.2).

Definition build_graph (it : list (string * Plugin)) (deg : gmap string Z)
  : gmap string Z * gmap string (list string) :=
  foldl (fun st np => foldl (add_edge np.1) st (Dependencies np.2)) (deg, ∅) it.

Definition zero_queue (it : list (string * Z)) : list string :=
  foldl (fun q nd => if bool_decide (nd.2 = 0%Z) then (q ++ [nd.1])%list else q) [] it.

(** One dependent of the plugin just emitted. *)
Definition relax (st : gmap string Z * list string) (dep : string)
  : gmap string Z * list string :=
  let d := (deg_at st.1 dep - 1)%Z in
  (<[dep := d]> st.1, if bool_decide (d = 0%Z) then (st.2 ++ [dep])%list else st.2).

(** The [for len(queue) > 0] loop; [None] is running out of fuel. *)
Fixpoint kahn (fuel : nat) (dependents : gmap string (list string))
    (deg : gmap string Z) (queue order : list string) : option (list string) :=
  match queue with
  | [] => Some order
  | name :: queue' =>
      match fuel with
      | 0 => None
      | S f =>
          let '(deg', queue'') := foldl relax (deg, queue') (deps_at dependents name) in
          kahn f dependents deg' queue'' (order ++ [name])%list
      end
  end.

(** The visiting orders of the five map loops. *)
Record sort_iters := mkIters {
  it_check : list (string * Plugin);
  it_zero : list (string * Plugin);
  it_edges : list (string * Plugin);
  it_queue : list (string * Z)
}.

Definition topologicalSort (it : sort_iters) (ps : gmap string Plugin) : res plugin_error (list string) :=
  match check_deps ps (it_check it) with
  | Some (name, dep) => Err (ErrMissingDep name dep)
  | None =>
      let '(inDegree, dependents) := build_graph (it_edges it) (zero_degrees (it_zero it)) in
      let queue := zero_queue (it_queue it) in
      match kahn (size ps) dependents inDegree queue [] with
      | None => Panic
      | Some order => if bool_decide (length order = size ps) then Ok order else Err ErrCyclicDep
      end
  end.

(** The iterations are over the plugin map and over the in-degree map. *)
Definition iters_ok (ps : gmap string Plugin) (it : sort_iters) : Prop :=
  iter_order ps (it_check it) ∧ iter_order ps (it_zero it) ∧ iter_order ps (it_edges it) ∧
  iter_order (build_graph (it_edges it) (zero_degrees (it_zero it))).1 (it_queue it).

(** ** [Initialize], [Close], [Plugins] *)

(** The initialisation loop: the plugins whose [Initialize] was called, in
    order, and how it ended (calling a method of a nil plugin panics). *)
Fixpoint init_loop (ps : gmap string Plugin) (names : list string) : list string * res plugin_error unit :=
  match names with
  | [] => ([], Ok tt)
  | name :: ns =>
      match ps !! name with
      | None => ([], Panic)
      | Some p =>
          match Initialize_err p with
          | Some e => ([name], Err (ErrInitialize name e))
          | None => let '(l, r) := init_loop ps ns in (name :: l, r)
          end
      end
  end.

(** [Initialize] returns the calls made together with the error. *)
Definition Initialize (it : sort_iters) (m : Manager) : Manager * (list string * res plugin_error unit) :=
  match topologicalSort it (plugins m) with
  | Ok ord => (mkManager (plugins m) ord, init_loop (plugins m) ord)
  | Err e => (m, ([], Err e))
  | Panic => (m, ([], Panic))
  end.

(** [Close]: the plugins closed, in order, and the first error. *)
Fixpoint close_loop (ps : gmap string Plugin) (names : list string) (firstErr : option string)
  : list string * option string :=
  match names with
  | [] => ([], firstErr)
  | name :: ns =>
      match ps !! name with
      | Some p =>
          let fe := match firstErr, Close_err p with
                    | None, Some e => Some e
                    | _, _ => firstErr
                    end in
          let '(l, e) := close_loop ps ns fe in (name :: l, e)
      | None => close_loop ps ns firstErr
      end
  end.

Definition Close (m : Manager) : list string * option string :=
  close_loop (plugins m) (rev (order m)) None.

Definition Plugins (m : Manager) : list Plugin :=
  omap (fun name => plugins m !! name) (order m).

(** ** Counting lemmas *)

Definition cnt (x : string) (l : list string) : nat := length (filter (λ y, y = x) l).

Lemma cnt_app x l k : cnt x (l ++ k)%list = cnt x l + cnt x k.
Proof. unfold cnt. by rewrite filter_app, length_app. Qed.

Lemma cnt_cons x y l : cnt x (y :: l) = (if bool_decide (y = x) then 1 else 0) + cnt x l.
Proof. unfold cnt. rewrite filter_cons. case_decide; case_bool_decide; done. Qed.

Lemma cnt_snoc x y l : cnt x (l ++ [y])%list = cnt x l + if bool_decide (y = x) then 1 else 0.
Proof. rewrite cnt_app, cnt_cons. change (cnt x []) with 0. lia. Qed.

Lemma cnt_0 x l : cnt x l = 0 ↔ x ∉ l.
Proof.
  induction l as [|y l IH]; [split; [intros _ H%elem_of_nil|]; done|].
  rewrite cnt_cons, elem_of_cons. case_bool_decide; [split; [lia|naive_solver]|naive_solver].
Qed.

Section Graph.
Context (ps : gmap string Plugin).

(** The dependencies of a registered plugin. *)
Definition deps (x : string) : list string :=
  match ps !! x with Some p => Dependencies p | None => [] end.

(** Dependencies of [x] not yet emitted. *)
Definition remaining (ord : list string) (x : string) : nat :=
  length (filter (λ d, d ∉ ord) (deps x)).

Lemma remaining_snoc ord n x :
  n ∉ ord → remaining ord x = remaining (ord ++ [n]) x + cnt n (deps x).
Proof.
  intros Hn. unfold remaining, cnt. induction (deps x) as [|d l IH]; [done|].
  rewrite !filter_cons. repeat case_decide; simpl; try lia; exfalso; set_solver.
Qed.

Lemma remaining_0 ord x : remaining ord x = 0 ↔ ∀ d, d ∈ deps x → d ∈ ord.
Proof.
  unfold remaining. induction (deps x) as [|d l IH]; [by split; [intros _ ? ?%elem_of_nil|]|].
  rewrite filter_cons. setoid_rewrite elem_of_cons. case_decide; simpl.
  - split; [done|]. intros H'. exfalso. apply H, H'. by left.
  - rewrite IH. naive_solver.
Qed.

(** ** The graph built by the second and third loops *)

Lemma add_edges_spec n l st y d :
  deg_at (foldl (add_edge n) st l).1 y
    = (deg_at st.1 y + if bool_decide (y = n) then Z.of_nat (length l) else 0)%Z ∧
  cnt y (deps_at (foldl (add_edge n) st l).2 d)
    = cnt y (deps_at st.2 d) + if bool_decide (y = n) then cnt d l else 0.
Proof.
  revert st. induction l as [|e l IH]; intros st; simpl.
  - change (cnt d []) with 0. case_bool_decide; split; lia.
  - destruct (IH (add_edge n st e)) as [IH1 IH2]. rewrite IH1, IH2, cnt_cons. clear.
    unfold add_edge, deg_at, deps_at. simpl. rewrite !lookup_insert. split.
    + repeat case_decide; repeat case_bool_decide; simplify_eq/=; lia.
    + case_decide; simpl; rewrite ?cnt_snoc; repeat case_bool_decide; simplify_eq/=; lia.
Qed.

Lemma add_edges_dom n l st x :
  x ∈ dom (foldl (add_edge n) st l).1 → x ∈ dom st.1 ∨ x = n.
Proof.
  revert st. induction l as [|e l IH]; intros st; simpl; [by left|].
  intros [H|H]%IH; [|by right]. simpl in H. rewrite dom_insert in H. set_solver.
Qed.

Lemma add_edges_dom_mono n l st x :
  x ∈ dom st.1 → x ∈ dom (foldl (add_edge n) st l).1.
Proof.
  revert st. induction l as [|e l IH]; intros st; simpl; [done|].
  intros H. apply IH. simpl. rewrite dom_insert. set_solver.
Qed.
Definition add_plugin (st : gmap string Z * gmap string (list string)) (np : string * Plugin) :=
  foldl (add_edge np.1) st (Dependencies np.2).

Lemma graph_fold it st y d :
  NoDup it.*1 →
  let st' := foldl add_plugin st it in
  (y ∉ it.*1 → deg_at st'.1 y = deg_at st.1 y ∧
               cnt y (deps_at st'.2 d) = cnt y (deps_at st.2 d)) ∧
  (∀ p, (y, p) ∈ it →
     deg_at st'.1 y = (deg_at st.1 y + Z.of_nat (length (Dependencies p)))%Z ∧
     cnt y (deps_at st'.2 d) = cnt y (deps_at st.2 d) + cnt d (Dependencies p)).
Proof.
  intros Hnd. revert st. induction it as [|[n q] it IH]; intros st; simpl.
  { split; [done|]. by intros p ?%elem_of_nil. }
  apply NoDup_cons in Hnd as [Hn Hnd].
  destruct (IH Hnd (add_plugin st (n, q))) as [IH1 IH2].
  destruct (add_edges_spec n (Dependencies q) st y d) as [E1 E2].
  change (foldl (add_edge n) st (Dependencies q)) with (add_plugin st (n, q)) in E1, E2.
  split.
  - intros [Hy Hy']%not_elem_of_cons. destruct (IH1 Hy') as [-> ->]. rewrite E1, E2.
    rewrite bool_decide_false by done. split; lia.
  - intros p [Heq|Hin]%elem_of_cons.
    + simplify_eq. destruct (IH1 Hn) as [-> ->]. rewrite E1, E2.
      rewrite bool_decide_true by done. split; lia.
    + destruct (IH2 p Hin) as [-> ->]. rewrite E1, E2. rewrite bool_decide_false; [split; lia|].
      intros ->. apply Hn, list_elem_of_fmap. by exists (n, p).
Qed.

Lemma graph_fold_dom it st x :
  (∀ n, n ∈ it.*1 → n ∈ dom st.1) →
  x ∈ dom (foldl add_plugin st it).1 ↔ x ∈ dom st.1.
Proof.
  revert st. induction it as [|[n q] it IH]; intros st Hk; simpl; [done|].
  assert (n ∈ dom st.1) as Hn by (apply Hk; by left).
  rewrite IH.
  - split; [intros [?| ->]%add_edges_dom; done|apply add_edges_dom_mono].
  - intros m Hm. apply add_edges_dom_mono, Hk. by right.
Qed.

Lemma zero_degrees_at it x : deg_at (zero_degrees it) x = 0%Z.
Proof.
  unfold zero_degrees. assert (∀ m : gmap string Z, deg_at m x = 0%Z →
    deg_at (foldl (λ deg np, <[np.1:=0%Z]> deg) m it) x = 0%Z) as H; [|by apply H].
  induction it as [|[n q] it IH]; intros m Hm; simpl; [done|].
  apply IH. unfold deg_at. rewrite lookup_insert. by case_decide.
Qed.

Lemma zero_degrees_dom it x : x ∈ dom (zero_degrees it) ↔ x ∈ it.*1.
Proof.
  unfold zero_degrees. assert (∀ m : gmap string Z,
    x ∈ dom (foldl (λ deg np, <[np.1:=0%Z]> deg) m it) ↔ x ∈ dom m ∨ x ∈ it.*1) as ->.
  - induction it as [|[n q] it IH]; intros m; simpl; [set_solver|].
    rewrite IH, dom_insert. set_solver.
  - set_solver.
Qed.

(** What the loop needs to know about the graph. *)
Definition graph_ok (dependents : gmap string (list string)) : Prop :=
  ∀ y d, cnt y (deps_at dependents d) = cnt d (deps y).

Lemma iter_keys (it : list (string * Plugin)) x : iter_order ps it → x ∈ it.*1 ↔ x ∈ dom ps.
Proof.
  intros Hit. rewrite elem_of_dom, list_elem_of_fmap. split.
  - intros ([n q] & -> & Hin). exists q. by apply (iter_order_lookup _ _ _ _ Hit).
  - intros [q Hq]. exists (x, q). split; [done|]. by apply (iter_order_lookup _ _ _ _ Hit).
Qed.

Lemma build_graph_spec itz ite :
  iter_order ps itz → iter_order ps ite →
  let g := build_graph ite (zero_degrees itz) in
  (∀ x, deg_at g.1 x = Z.of_nat (length (deps x))) ∧
  (∀ x, x ∈ dom g.1 ↔ x ∈ dom ps) ∧ graph_ok g.2.
Proof.
  intros Hz He g. pose proof (iter_order_NoDup_fst _ _ He) as Hnd.
  assert (∀ y d, deg_at g.1 y = Z.of_nat (length (deps y)) ∧
                 cnt y (deps_at g.2 d) = cnt d (deps y)) as Hg.
  { intros y d. destruct (graph_fold ite (zero_degrees itz, ∅) y d Hnd) as [H1 H2].
    change (foldl add_plugin (zero_degrees itz, ∅) ite) with g in H1, H2. simpl in H1, H2.
    rewrite zero_degrees_at in H1, H2.
    change (cnt y (deps_at ∅ d)) with 0 in H1, H2.
    unfold deps. destruct (ps !! y) as [p|] eqn:Hy.
    - destruct (H2 p) as [-> ->]; [by apply (iter_order_lookup _ _ _ _ He)|]. done.
    - destruct H1 as [-> ->]; [|done]. rewrite iter_keys by done. by apply not_elem_of_dom. }
  split; [intros x; by apply (Hg x "")|]. split; [|intros y d; apply Hg].
  intros x. unfold g, build_graph.
  change (foldl _ (zero_degrees itz, ∅) ite) with (foldl add_plugin (zero_degrees itz, ∅) ite).
  rewrite graph_fold_dom; simpl.
  - by rewrite zero_degrees_dom, iter_keys.
  - intros n Hn. apply zero_degrees_dom. rewrite iter_keys by done. by apply (iter_keys ite).
Qed.

Lemma zero_queue_spec (deg : gmap string Z) it :
  iter_order deg it →
  NoDup (zero_queue it) ∧ ∀ x, x ∈ zero_queue it ↔ deg !! x = Some 0%Z.
Proof.
  intros Hit. assert (zero_queue it = (filter (λ nd, nd.2 = 0%Z) it).*1) as ->.
  { unfold zero_queue. assert (∀ q, foldl (λ q (nd : string * Z),
      if bool_decide (nd.2 = 0%Z) then (q ++ [nd.1])%list else q) q it
      = (q ++ (filter (λ nd, nd.2 = 0%Z) it).*1)%list) as ->; [|done].
    clear. induction it as [|[n z] it IH]; intros q; simpl; [by rewrite app_nil_r|].
    rewrite IH, filter_cons. simpl. case_decide; case_bool_decide; try done.
    simpl. by rewrite <- app_assoc. }
  split.
  - eapply sublist_NoDup; [by eapply iter_order_NoDup_fst|].
    apply fmap_sublist, sublist_filter.
  - intros x. rewrite list_elem_of_fmap. split.
    + intros ([n z] & -> & [Hz Hin]%list_elem_of_filter). simpl in *. subst.
      by apply (iter_order_lookup _ _ _ _ Hit).
    + intros Hx. exists (x, 0%Z). split; [done|]. apply list_elem_of_filter.
      split; [done|]. by apply (iter_order_lookup _ _ _ _ Hit).
Qed.
(** ** The main loop *)

Lemma relax_fold l deg q :
  let st := foldl relax (deg, q) l in
  (∀ y, deg_at st.1 y = (deg_at deg y - Z.of_nat (cnt y l))%Z) ∧
  ∃ pushed, st.2 = (q ++ pushed)%list ∧
    ((∀ y, (Z.of_nat (cnt y l) <= deg_at deg y)%Z) →
     NoDup pushed ∧ ∀ y, y ∈ pushed ↔ y ∈ l ∧ deg_at deg y = Z.of_nat (cnt y l)).
Proof.
  revert deg q. induction l as [|x l IH]; intros deg q; simpl.
  { split; [intros y; change (cnt y []) with 0; lia|]. exists []. rewrite app_nil_r.
    split; [done|]. intros _. split; [by constructor|]. intros y. set_solver. }
  set (d := (deg_at deg x - 1)%Z). set (deg1 := <[x := d]> deg).
  set (q1 := if bool_decide (d = 0%Z) then (q ++ [x])%list else q).
  change (relax (deg, q) x) with (deg1, q1).
  assert (∀ y, deg_at deg1 y = if bool_decide (x = y) then d else deg_at deg y) as Hd1.
  { intros y. subst deg1. unfold deg_at at 1. rewrite lookup_insert.
    case_decide; case_bool_decide; done. }
  destruct (IH deg1 q1) as [IH1 (pushed & Hq & IH2)]. split.
  { intros y. rewrite IH1, Hd1, cnt_cons. unfold d. case_bool_decide; subst; lia. }
  exists ((if bool_decide (d = 0%Z) then [x] else []) ++ pushed)%list. split.
  { rewrite Hq. subst q1. case_bool_decide; [by rewrite <- app_assoc|done]. }
  intros Hle.
  assert (∀ y, (Z.of_nat (cnt y l) <= deg_at deg1 y)%Z) as Hle1.
  { intros y. specialize (Hle y). rewrite cnt_cons in Hle. rewrite Hd1. unfold d.
    case_bool_decide; subst; lia. }
  destruct (IH2 Hle1) as [Hnd Hmem]. clear IH IH1 IH2 Hq.
  pose proof (Hle1 x) as Hx. rewrite Hd1, bool_decide_true in Hx by done.
  assert (d = 0%Z → x ∉ l) as Hxl by (intros E; apply cnt_0; lia).
  split.
  - case_bool_decide; [|done]. simpl. apply NoDup_cons. split; [|done].
    rewrite Hmem. naive_solver.
  - intros y. rewrite elem_of_app, Hmem, Hd1, elem_of_cons, cnt_cons.
    destruct (decide (x = y)) as [<-|Hxy].
    + rewrite !(bool_decide_true (x = x)) by done. case_bool_decide as Hd0.
      * rewrite list_elem_of_singleton. apply Hxl in Hd0 as Hn. apply cnt_0 in Hn.
        unfold d in Hd0. split; [intros _; split; [by left|lia]|by left].
      * split; [intros [?%elem_of_nil|[? ?]]; [done|]; unfold d in *; split; [by left|lia]|].
        intros [_ E]. right. split; [|unfold d; lia]. apply dec_stable. intros Hn%cnt_0.
        apply Hd0. unfold d. lia.
    + rewrite !(bool_decide_false (x = y)) by done.
      case_bool_decide; set_solver by lia.
Qed.

Record kinv (deg : gmap string Z) (queue ord : list string) : Prop := {
  k_deg : ∀ x, x ∈ dom ps → deg_at deg x = Z.of_nat (remaining ord x);
  k_out : ∀ x, x ∉ dom ps → deg_at deg x = 0%Z;
  k_nodup : NoDup (ord ++ queue);
  k_mem : ∀ x, x ∈ (ord ++ queue)%list ↔ x ∈ dom ps ∧ remaining ord x = 0;
  k_ord : ∀ i x d, ord !! i = Some x → d ∈ deps x → d ∈ take i ord
}.

Lemma deps_dom x d : d ∈ deps x → x ∈ dom ps.
Proof. unfold deps. destruct (ps !! x) eqn:E; [|by intros ?%elem_of_nil]. intros _. by eapply elem_of_dom_2. Qed.

Lemma kinv_length deg queue ord : kinv deg queue ord → (length ord + length queue ≤ size ps)%nat.
Proof.
  intros K. rewrite <- length_app, <- (size_dom ps), <- (size_list_to_set (C:=gset string)) by apply K.
  apply subseteq_size. intros x. rewrite elem_of_list_to_set. intros Hx.
  by apply (k_mem _ _ _ K) in Hx as [? _].
Qed.

Lemma kinv_step dependents deg n queue ord :
  graph_ok dependents → kinv deg (n :: queue) ord →
  let st := foldl relax (deg, queue) (deps_at dependents n) in
  kinv st.1 st.2 (ord ++ [n]).
Proof.
  intros Hg K. set (l := deps_at dependents n). intros st.
  assert (n ∉ ord ∧ n ∉ queue) as [Hno Hnq].
  { pose proof (k_nodup _ _ _ K) as Hnd. apply NoDup_app in Hnd as (_ & H & Hq).
    apply NoDup_cons in Hq as [? _]. split; [|done]. intros Hin. apply (H n Hin). by left. }
  assert (∀ y, cnt y l = cnt n (deps y)) as Hc by (intros y; apply Hg).
  assert (∀ y, remaining ord y = remaining (ord ++ [n]) y + cnt n (deps y)) as Hr.
  { intros y. by apply remaining_snoc. }
  assert (∀ y, (Z.of_nat (cnt y l) <= deg_at deg y)%Z) as Hle.
  { intros y. rewrite Hc. destruct (decide (y ∈ dom ps)) as [Hy|Hy].
    - rewrite (k_deg _ _ _ K y Hy), Hr. lia.
    - rewrite (k_out _ _ _ K y Hy). assert (cnt n (deps y) = 0) as ->; [|lia].
      apply cnt_0. by intros ?%deps_dom. }
  destruct (relax_fold l deg queue) as [Hdeg (pushed & Hq & Hpush)].
  destruct (Hpush Hle) as [Hndp Hmemp]. change (foldl relax (deg, queue) l) with st in Hdeg, Hq.
  assert (∀ y, y ∈ pushed → y ∈ dom ps ∧ remaining ord y ≠ 0) as Hpnew.
  { intros y [Hyl Hyd]%Hmemp. assert (cnt n (deps y) ≠ 0) as Hne.
    { rewrite <- Hc. intros ?%cnt_0. done. }
    split; [|rewrite Hr; lia]. apply (deps_dom y n). apply dec_stable. by intros ?%cnt_0. }
  split.
  - intros x Hx. rewrite Hdeg, (k_deg _ _ _ K x Hx), Hr, Hc. lia.
  - intros x Hx. rewrite Hdeg, (k_out _ _ _ K x Hx). specialize (Hle x).
    rewrite (k_out _ _ _ K x Hx) in Hle. lia.
  - rewrite Hq. rewrite <- app_assoc. simpl.
    replace (ord ++ n :: queue ++ pushed)%list with ((ord ++ n :: queue) ++ pushed)%list
      by (by rewrite <- app_assoc).
    apply NoDup_app. split; [apply K|]. split; [|done].
    intros y Hy [_ Hyp]%Hpnew. by apply (k_mem _ _ _ K) in Hy as [_ ?].
  - intros x. rewrite Hq, !elem_of_app, list_elem_of_singleton, Hmemp.
    pose proof (k_mem _ _ _ K x) as Hm. rewrite elem_of_app, elem_of_cons in Hm.
    specialize (Hr x). split.
    + intros [Hx|[Hx|[Hl Hd]]].
      * destruct (proj1 Hm) as [? ?]; [naive_solver|]. split; [done|lia].
      * destruct (proj1 Hm) as [? ?]; [naive_solver|]. split; [done|lia].
      * assert (x ∈ pushed) as Hxp by (by apply Hmemp). apply Hpnew in Hxp as [Hxd _].
        split; [done|]. rewrite (k_deg _ _ _ K x Hxd), Hc in Hd. lia.
    + intros [Hxd Hx0]. destruct (decide (remaining ord x = 0)) as [E|E].
      * destruct (proj2 Hm) as [|[|]]; naive_solver.
      * right. right. split.
        -- apply dec_stable. intros Hn%cnt_0. rewrite Hc in Hn. lia.
        -- rewrite (k_deg _ _ _ K x Hxd), Hc. lia.
  - intros i x d Hi Hd. apply lookup_app_Some in Hi as [Hi|[Hlen Hi]].
    + rewrite take_app_le by (apply lookup_lt_Some in Hi; lia). by eapply (k_ord _ _ _ K).
    + apply list_lookup_singleton_Some in Hi as [Hi <-].
      assert (i = length ord) as -> by lia. rewrite take_app_length.
      eapply remaining_0; [|done].
      apply (k_mem _ _ _ K n). apply elem_of_app. right. by left.
Qed.

Lemma kahn_run dependents fuel deg queue ord :
  graph_ok dependents → kinv deg queue ord → (size ps ≤ fuel + length ord)%nat →
  ∃ deg' o, kahn fuel dependents deg queue ord = Some o ∧ kinv deg' [] o.
Proof.
  intros Hg. revert deg queue ord. induction fuel as [|fuel IH]; intros deg [|n queue] ord K Hf.
  - exists deg, ord. done.
  - apply kinv_length in K. simpl in *. lia.
  - exists deg, ord. done.
  - simpl. pose proof (kinv_step _ _ _ _ _ Hg K) as K'.
    destruct (foldl relax (deg, queue) (deps_at dependents n)) as [deg' q']. simpl in K'.
    apply (IH deg' q'); [done|]. rewrite length_app. simpl. lia.
Qed.
End Graph.

(** Every dependency of a registered plugin is registered. *)
Definition closed (ps : gmap string Plugin) : Prop :=
  ∀ x d, d ∈ deps ps x → d ∈ dom ps.

(** A set of plugins each of which depends on another of the set. *)
Definition cyclic (ps : gmap string Plugin) : Prop :=
  ∃ S : gset string, S ≠ ∅ ∧ S ⊆ dom ps ∧ ∀ x, x ∈ S → ∃ d, d ∈ deps ps x ∧ d ∈ S.

(** [x] comes after all its dependencies. *)
Definition deps_first (ps : gmap string Plugin) (ord : list string) : Prop :=
  ∀ i x d, ord !! i = Some x → d ∈ deps ps x → d ∈ take i ord.

Lemma first_missing_spec ps l :
  match first_missing ps l with
  | Some d => d ∈ l ∧ d ∉ dom ps
  | None => ∀ d, d ∈ l → d ∈ dom ps
  end.
Proof.
  induction l as [|d l IH]; simpl; [by intros d ?%elem_of_nil|].
  destruct (ps !! d) eqn:E.
  - apply elem_of_dom_2 in E. destruct (first_missing ps l); set_solver.
  - apply not_elem_of_dom in E. set_solver.
Qed.

Lemma check_deps_spec ps it :
  iter_order ps it →
  match check_deps ps it with
  | Some (n, d) => n ∈ dom ps ∧ d ∈ deps ps n ∧ d ∉ dom ps
  | None => closed ps
  end.
Proof.
  intros Hit. assert (∀ n p, (n, p) ∈ it → ps !! n = Some p) as Hin.
  { intros n p. by apply (iter_order_lookup _ _ _ _ Hit). }
  assert (match check_deps ps it with
          | Some (n, d) => ∃ p, (n, p) ∈ it ∧ d ∈ Dependencies p ∧ d ∉ dom ps
          | None => ∀ n p d, (n, p) ∈ it → d ∈ Dependencies p → d ∈ dom ps end) as H.
  { clear Hit Hin. induction it as [|[n p] it IH]; simpl; [by intros n p d ?%elem_of_nil|].
    pose proof (first_missing_spec ps (Dependencies p)) as Hm.
    destruct (first_missing ps (Dependencies p)); [set_solver|].
    destruct (check_deps ps it) as [[n' d']|]; set_solver. }
  destruct (check_deps ps it) as [[n d]|].
  - destruct H as (p & Hp & Hd & Hnd). apply Hin in Hp. unfold deps. rewrite Hp.
    split; [by eapply elem_of_dom_2|done].
  - intros x d. unfold deps. destruct (ps !! x) as [p|] eqn:E; [|by intros ?%elem_of_nil].
    apply (H x). by apply (iter_order_lookup _ _ _ _ Hit).
Qed.

Lemma kinv_init ps it :
  iters_ok ps it →
  let g := build_graph (it_edges it) (zero_degrees (it_zero it)) in
  graph_ok ps g.2 ∧ kinv ps g.1 (zero_queue (it_queue it)) [].
Proof.
  intros (_ & Hz & He & Hq) g. destruct (build_graph_spec ps _ _ Hz He) as (Hdeg & Hdom & Hg).
  fold g in Hq, Hdeg, Hdom, Hg. destruct (zero_queue_spec _ _ Hq) as [Hnd Hmem].
  split; [done|]. assert (∀ x, remaining ps [] x = length (deps ps x)) as Hr.
  { intros x. unfold remaining. induction (deps ps x) as [|d l IH]; [done|].
    rewrite filter_cons, decide_True by (by intros ?%elem_of_nil). simpl. f_equal. apply IH. }
  split; simpl.
  - intros x _. by rewrite Hdeg, Hr.
  - intros x Hx. rewrite Hdeg. unfold deps. by apply not_elem_of_dom in Hx as ->.
  - done.
  - intros x. rewrite Hmem, Hr. specialize (Hdeg x). unfold deg_at in Hdeg.
    rewrite <- Hdom, elem_of_dom. split.
    + intros E. rewrite E in Hdeg. simpl in Hdeg. split; [by eexists|lia].
    + intros [[z Hz'] E]. rewrite Hz' in *. simpl in Hdeg. f_equal. lia.
  - done.
Qed.

(** The outcome of the sort, on every branch. *)
Lemma topologicalSort_cases ps it :
  iters_ok ps it →
  match topologicalSort it ps with
  | Ok ord => closed ps ∧ NoDup ord ∧ (∀ x, x ∈ ord ↔ x ∈ dom ps) ∧ deps_first ps ord
  | Err (ErrMissingDep n d) => n ∈ dom ps ∧ d ∈ deps ps n ∧ d ∉ dom ps
  | Err ErrCyclicDep => closed ps ∧ cyclic ps
  | _ => False
  end.
Proof.
  intros Hit. unfold topologicalSort. pose proof (check_deps_spec ps _ (proj1 Hit)) as Hc.
  destruct (check_deps ps (it_check it)) as [[n d]|]; [done|].
  destruct (kinv_init ps it Hit) as [Hg K].
  destruct (build_graph _ _) as [deg g]. simpl in Hg, K.
  destruct (kahn_run ps g (size ps) deg _ [] Hg K) as (deg' & o & -> & K'); [simpl; lia|].
  pose proof (k_nodup _ _ _ _ K') as Hnd. pose proof (k_mem _ _ _ _ K') as Hm.
  rewrite app_nil_r in Hnd, Hm.
  assert (∀ x, x ∈ o → x ∈ dom ps) as Hsub by (intros x Hx; by apply Hm).
  case_bool_decide as Hlen.
  - split; [done|]. split; [done|]. split; [|exact (k_ord _ _ _ _ K')]. intros x. split; [apply Hsub|].
    intros Hx. assert (list_to_set o = dom ps) as Heq.
    { apply set_eq, set_subseteq_size_equiv.
      - intros y Hy. apply Hsub. by apply elem_of_list_to_set in Hy.
      - rewrite size_list_to_set, size_dom by done. lia. }
    rewrite <- Heq in Hx. by apply elem_of_list_to_set in Hx.
  - split; [done|]. exists (dom ps ∖ list_to_set o). split; [|split].
    + intros E. apply Hlen. assert (dom ps = list_to_set o) as Heq.
      { apply set_eq. intros y. rewrite elem_of_list_to_set. split; [|apply Hsub].
        intros Hy. apply dec_stable. intros Hn. set_solver. }
      rewrite <- size_dom, Heq, size_list_to_set by done. done.
    + set_solver.
    + intros x [Hx Hxo]%elem_of_difference. rewrite elem_of_list_to_set in Hxo.
      destruct (decide (remaining ps o x = 0)) as [E|E]; [by destruct Hxo; apply Hm|].
      unfold remaining in E. destruct (filter _ (deps ps x)) as [|d l] eqn:Ef; [done|].
      assert (d ∈ filter (λ d, d ∉ o) (deps ps x)) as Hd by (rewrite Ef; by left).
      apply list_elem_of_filter in Hd as [Hdo Hd]. exists d. split; [done|].
      apply elem_of_difference. rewrite elem_of_list_to_set. split; [by apply (Hc x)|done].
Qed.

(** An order in which dependencies come first excludes a cyclic set. *)
Lemma deps_first_acyclic ps ord :
  deps_first ps ord → (∀ x, x ∈ dom ps → x ∈ ord) → ¬ cyclic ps.
Proof.
  intros Hord Hall (S & Hne & Hsub & Hcyc).
  assert (∀ n i x, (i < n)%nat → ord !! i = Some x → x ∉ S) as H.
  { induction n as [|n IH]; intros i x Hi Hx HxS; [lia|].
    destruct (Hcyc x HxS) as (d & Hd & HdS). pose proof (Hord i x d Hx Hd) as Hin.
    apply list_elem_of_lookup in Hin as [j Hj]. apply lookup_take_Some in Hj as [Hj Hlt].
    eapply (IH j d); [lia|done|done]. }
  destruct (set_choose_L S Hne) as [x Hx].
  destruct (proj1 (list_elem_of_lookup ord x)) as [i Hi]; [by apply Hall, Hsub|].
  eapply (H (Datatypes.S i) i x); [lia|done|done].
Qed.

Lemma init_loop_spec ps names :
  (∀ x, x ∈ names → x ∈ dom ps) →
  let '(calls, r) := init_loop ps names in
  (∃ rest, names = (calls ++ rest)%list ∧
    match r with
    | Ok _ => rest = [] ∧ ∀ x p, x ∈ calls → ps !! x = Some p → Initialize_err p = None
    | Err e => ∃ pre x p err, calls = (pre ++ [x])%list ∧ e = ErrInitialize x err ∧
        ps !! x = Some p ∧ Initialize_err p = Some err ∧
        ∀ y q, y ∈ pre → ps !! y = Some q → Initialize_err q = None
    | Panic => False
    end).
Proof.
  induction names as [|n names IH]; intros Hdom; simpl.
  { exists []. split; [done|]. split; [done|]. by intros x p ?%elem_of_nil. }
  assert (n ∈ dom ps) as [p Hp]%elem_of_dom by (apply Hdom; by left). rewrite Hp.
  destruct (Initialize_err p) as [e|] eqn:He.
  - exists names. split; [done|]. exists [], n, p, e. repeat split; try done.
    by intros y q ?%elem_of_nil.
  - specialize (IH (λ x Hx, Hdom x (list_elem_of_further _ _ _ Hx))).
    destruct (init_loop ps names) as [calls r]. destruct IH as (rest & -> & IH).
    exists rest. split; [done|]. destruct r as [|e|]; [| |done].
    + destruct IH as [-> IH]. split; [done|]. intros x q [->|Hx]%elem_of_cons; [congruence|eauto].
    + destruct IH as (pre & x & q & err & -> & -> & Hq & Hqe & IH).
      exists (n :: pre), x, q, err. repeat split; try done.
      intros y q' [->|Hy]%elem_of_cons; [congruence|eauto].
Qed.

Lemma close_loop_spec ps names fe :
  (∀ x, x ∈ names → x ∈ dom ps) →
  close_loop ps names fe =
    (names, match fe with
            | Some e => Some e
            | None => head (omap (λ x, ps !! x ≫= Close_err) names)
            end).
Proof.
  revert fe. induction names as [|n names IH]; intros fe Hdom; simpl; [by destruct fe|].
  assert (n ∈ dom ps) as [p Hp]%elem_of_dom by (apply Hdom; by left). rewrite Hp. simpl.
  rewrite IH by (intros x Hx; apply Hdom; by right).
  destruct fe; [done|]. by destruct (Close_err p).
Qed.

(** ** Properties *)

(** A concrete manager: [caps] depends on [disco], [roster] on nothing. *)
Definition sample_plugins : gmap string Plugin :=
  list_to_map [("caps", mkPlugin "caps" ["disco"] None None);
               ("disco", mkPlugin "disco" [] None (Some "busy"));
               ("roster", mkPlugin "roster" [] None None)].

(** The iteration orders that follow the canonical enumeration of the maps. *)
Definition canonical_iters (ps : gmap string Plugin) : sort_iters :=
  mkIters (map_to_list ps) (map_to_list ps) (map_to_list ps)
    (map_to_list (build_graph (map_to_list ps) (zero_degrees (map_to_list ps))).1).

Lemma canonical_iters_ok ps : iters_ok ps (canonical_iters ps).
Proof. unfold iters_ok, iter_order. done. Qed.

(** C9: whatever order Go visits the maps in, [topologicalSort] always returns;
    it reports a missing dependency exactly when one exists, a cycle exactly when
    all dependencies are registered and some set of plugins depends on itself,
    and otherwise an order that lists every registered plugin once, each after
    all the plugins it depends on. *)
Theorem topologicalSort_exact ps it :
  iters_ok ps it →
  match topologicalSort it ps with
  | Ok ord => NoDup ord ∧ (∀ x, x ∈ ord ↔ x ∈ dom ps) ∧ deps_first ps ord
  | Err (ErrMissingDep n d) => n ∈ dom ps ∧ d ∈ deps ps n ∧ d ∉ dom ps
  | Err ErrCyclicDep => True
  | _ => False
  end ∧
  ((∃ ord, topologicalSort it ps = Ok ord) ↔ closed ps ∧ ¬ cyclic ps) ∧
  (topologicalSort it ps = Err ErrCyclicDep ↔ closed ps ∧ cyclic ps).
Proof.
  intros Hit. pose proof (topologicalSort_cases ps it Hit) as H.
  destruct (topologicalSort it ps) as [ord|[]|]; try done.
  - destruct H as (Hc & Hnd & Hm & Hord). split; [done|].
    assert (¬ cyclic ps) by (eapply deps_first_acyclic; [done|]; naive_solver).
    split; split; try done; [eauto|naive_solver].
  - destruct H as (? & Hd & Hn). split; [done|].
    assert (¬ closed ps) by (intros Hc; by eapply Hn, Hc).
    split; split; naive_solver.
  - destruct H as [Hc Hcyc]. split; [done|]. split; split; naive_solver.
Qed.

Lemma topologicalSort_exact_witness :
  topologicalSort (canonical_iters sample_plugins) sample_plugins = Ok ["roster"; "disco"; "caps"]
  ∧ closed sample_plugins ∧ ¬ cyclic sample_plugins.
Proof.
  assert (topologicalSort (canonical_iters sample_plugins) sample_plugins
          = Ok ["roster"; "disco"; "caps"]) as E by (vm_compute; reflexivity).
  split; [exact E|].
  apply (topologicalSort_exact sample_plugins (canonical_iters sample_plugins)).
  - apply canonical_iters_ok.
  - eexists. exact E.
Defined.

(** C10: [Initialize] calls the plugins in an order in which every plugin is
    called after all its dependencies, calls all of them when it succeeds and
    otherwise stops at the first plugin that fails, having succeeded on those
    before; [Close] then closes every registered plugin in the exact reverse of
    the initialisation order and returns the first error it meets. *)
Theorem Initialize_Close_order it m m' calls r :
  iters_ok (plugins m) it →
  Initialize it m = (m', (calls, r)) →
  (∀ i x d, calls !! i = Some x → d ∈ deps (plugins m) x → d ∈ take i calls) ∧
  match r with
  | Ok _ => calls = order m' ∧ (∀ x, x ∈ calls ↔ x ∈ dom (plugins m)) ∧
      (∀ x p, plugins m !! x = Some p → Initialize_err p = None) ∧
      Close m' = (rev calls, head (omap (λ x, plugins m !! x ≫= Close_err) (rev calls)))
  | Err (ErrInitialize n e) =>
      ∃ pre p, calls = (pre ++ [n])%list ∧ plugins m !! n = Some p ∧ Initialize_err p = Some e ∧
        ∀ y q, y ∈ pre → plugins m !! y = Some q → Initialize_err q = None
  | Err _ => calls = [] ∧ m' = m
  | Panic => False
  end.
Proof.
  intros Hit. unfold Initialize. pose proof (topologicalSort_cases _ _ Hit) as H.
  destruct (topologicalSort it (plugins m)) as [ord|e|]; [| |done].
  2:{ intros ?; simplify_eq. split; [done|]. by destruct e. }
  destruct H as (_ & Hnd & Hm & Hord).
  pose proof (init_loop_spec (plugins m) ord (λ x Hx, proj1 (Hm x) Hx)) as Hi.
  destruct (init_loop (plugins m) ord) as [c r'] eqn:E. intros ?; simplify_eq.
  destruct Hi as (rest & -> & Hi). split.
  { intros i x d Hi' Hd. specialize (Hord i x d). rewrite (lookup_app_l_Some _ _ _ _ Hi') in Hord.
    rewrite take_app_le in Hord by (apply lookup_lt_Some in Hi'; lia). by apply Hord. }
  destruct r as [|[]|]; try done; try (by destruct Hi as (? & ? & ? & ? & ? & ? & ?)).
  - destruct Hi as [-> Hi]. rewrite app_nil_r in *. split; [done|]. split; [done|].
    split; [intros x p Hp; apply (Hi x); [apply Hm; by eapply elem_of_dom_2|done]|].
    unfold Close. simpl. rewrite close_loop_spec; [done|].
    intros x Hx%list_elem_of_In%in_rev%list_elem_of_In. by apply Hm.
  - destruct Hi as (pre & x & p & err' & -> & ? & ? & ? & ?). simplify_eq. eauto 10.
Qed.

Lemma Initialize_Close_order_witness :
  ∃ m', Initialize (canonical_iters sample_plugins) (mkManager sample_plugins [])
          = (m', (["roster"; "disco"; "caps"], Ok tt)) ∧
        Close m' = (["caps"; "disco"; "roster"], Some "busy").
Proof.
  eexists. split; [vm_compute; reflexivity|].
  apply (Initialize_Close_order (canonical_iters sample_plugins) (mkManager sample_plugins [])
           _ ["roster"; "disco"; "caps"] (Ok tt)).
  - apply canonical_iters_ok.
  - vm_compute; reflexivity.
Defined.
