(* ===== verification/OmemoCrypto.v ===== *)
(** * OMEMO: primitives and key derivation
    (src/crypto/omemo/keys.go, kdf.go, aes_gcm.go, errors.go)

    The cryptographic primitives of Go's [crypto] packages and of
    [golang.org/x/crypto] are the operations of the class [Crypto]; what the code
    relies on is the class [CryptoLaws].  Everything the repository itself
    computes on top of them is defined here. *)

From Stdlib Require Import Ascii String NArith ZArith Zcong.
From S2P Require Import Prelude Bytes.

Open Scope list_scope.

Inductive omemo_error :=
  | ErrNoSession
  | ErrInvalidSignature
  | ErrInvalidMessage
  | ErrDuplicateMessage
  | ErrUntrustedIdentity
  | ErrNoPreKey
  | ErrInvalidKeyLength
  | ErrSkippedKeyLimit
  | ErrNoIdentity      (** "no local identity key pair" *)
  | ErrCrypto          (** an error of a crypto package *)
  | ErrRand.           (** an error of [crypto/rand] *)

#[global] Instance omemo_error_eq_dec : EqDecision omemo_error.
Proof. solve_decision. Defined.

(** ** Primitives *)

Class Crypto := {
  (** X25519: the public key of a private key, and the shared secret ([None]
      when [ECDH] returns an error, i.e. the all-zero output). *)
  x25519_pub : bytes → bytes;
  x25519 : bytes → bytes → option bytes;
  (** HMAC-SHA-256 of a key and a message. *)
  hmac_sha256 : bytes → bytes → bytes;
  (** HKDF-SHA-256: salt, input, info, length. *)
  hkdf_sha256 : bytes → bytes → bytes → nat → option bytes;
  (** AES-256-GCM with an empty additional data: ciphertext with the tag. *)
  gcm_seal : bytes → bytes → bytes → bytes;
  gcm_open : bytes → bytes → bytes → option bytes;
  (** Ed25519: the public key of a seed, signatures under a 64-byte private key
      (seed and public key). *)
  ed25519_pub : bytes → bytes;
  ed25519_sign : bytes → bytes → bytes;
  ed25519_verify : bytes → bytes → bytes → bool;
  sha512 : bytes → bytes
}.

Definition key32 (k : bytes) : Prop := length k = 32.

Class CryptoLaws `{Crypto} := {
  x25519_pub_length k : key32 k → key32 (x25519_pub k);
  x25519_comm a b : key32 a → key32 b → x25519 a (x25519_pub b) = x25519 b (x25519_pub a);
  x25519_honest a b : key32 a → key32 b → is_Some (x25519 a (x25519_pub b));
  x25519_length a p s : x25519 a p = Some s → key32 s;
  hmac_length k m : key32 (hmac_sha256 k m);
  hkdf_defined salt ikm info n : n ≤ 255 * 32 → is_Some (hkdf_sha256 salt ikm info n);
  hkdf_length salt ikm info n o : hkdf_sha256 salt ikm info n = Some o → length o = n;
  gcm_open_seal k n p : key32 k → length n = 12 → gcm_open k n (gcm_seal k n p) = Some p;
  gcm_seal_length k n p : length (gcm_seal k n p) = length p + 16;
  sha512_length m : length (sha512 m) = 64;
  ed25519_pub_length seed : key32 (ed25519_pub seed);
  ed25519_verify_sign seed m : key32 seed →
    ed25519_verify (ed25519_pub seed) m (ed25519_sign (seed ++ ed25519_pub seed) m) = true
}.

Section Primitives.
Context `{Crypto}.

(** [crypto/rand.Reader]: a tape of random bytes; a read that the tape cannot
    serve is an error. *)
Definition rand_read (n : nat) (tape : bytes) : option (bytes * bytes) :=
  if (n <=? length tape)%nat then Some (take n tape, drop n tape) else None.

(** *** keys.go *)

(** [GenerateX25519KeyPair]: a key of 32 random bytes. *)
Definition GenerateX25519KeyPair (tape : bytes) : bytes * res omemo_error bytes :=
  match rand_read 32 tape with
  | Some (k, tape') => (tape', Ok k)
  | None => (tape, Err ErrRand)
  end.

(** [ecdh.X25519().NewPrivateKey] checks the length. *)
Definition NewPrivateKey (b : bytes) : res omemo_error bytes :=
  if bool_decide (length b = 32) then Ok b else Err ErrCrypto.

(** [x25519DH]: [NewPublicKey] checks the length, [ECDH] may fail.  A nil
    [*ecdh.PrivateKey] is the empty key (a private key has 32 bytes), and using
    it panics. *)
Definition x25519DH (privateKey publicKeyBytes : bytes) : res omemo_error bytes :=
  if bool_decide (length publicKeyBytes = 32) then
    match privateKey with
    | [] => Panic
    | _ => match x25519 privateKey publicKeyBytes with
           | Some s => Ok s
           | None => Err ErrCrypto
           end
    end
  else Err ErrCrypto.

(** The field prime 2^255 - 19. *)
Definition p25519 : Z := (2 ^ 255 - 19)%Z.

(** [l[i] = f(l[i])] on an array that has an index [i]. *)
Definition set_byte (i : nat) (f : N → N) (l : bytes) : bytes :=
  match l !! i with Some b => <[i := ascii_of_N (f (N_of_ascii b))]> l | None => l end.

(** The first half of SHA-512 of the seed, clamped. *)
Definition clamped (seed : bytes) : bytes :=
  let h := sha512 seed in
  let h := set_byte 0 (λ b, N.land b 248) h in
  let h := set_byte 31 (λ b, N.land b 127) h in
  let h := set_byte 31 (λ b, N.lor b 64) h in
  take 32 h.

(** [edPriv.Seed()] is the first 32 bytes of the private key; slicing a shorter
    key panics. *)
Definition Ed25519PrivateKeyToX25519 (edPriv : bytes) : res omemo_error bytes :=
  if (length edPriv <? 32)%nat then Panic
  else NewPrivateKey (clamped (take 32 edPriv)).

(** Little-endian value of a byte string (the code reverses the bytes and uses
    [big.Int.SetBytes]) and its inverse on [n] bytes. *)
Fixpoint le_val (b : bytes) : Z :=
  match b with [] => 0%Z | a :: b' => (Z.of_N (N_of_ascii a) + 256 * le_val b')%Z end.

Fixpoint le_enc (n : nat) (z : Z) : bytes :=
  match n with
  | 0 => []
  | S n' => ascii_of_N (Z.to_N (z mod 256)) :: le_enc n' (z / 256)
  end.

(** [big.Int.ModInverse]: nil when there is no inverse. *)
Definition ModInverse (g n : Z) : option Z :=
  if (Z.gcd g n =? 1)%Z then Some (Z.invmod g n) else None.

(** The y coordinate with the sign bit of the last byte cleared. *)
Definition ed_y (edPub : bytes) : Z :=
  le_val (match edPub !! 31 with
          | Some b => <[31 := ascii_of_N (N.land (N_of_ascii b) 127)]> edPub
          | None => edPub
          end).

Definition Ed25519PublicKeyToX25519 (edPub : bytes) : res omemo_error bytes :=
  if bool_decide (length edPub ≠ 32) then Err ErrInvalidKeyLength
  else
    let y := ed_y edPub in
    let numerator := ((1 + y) mod p25519)%Z in
    let denominator := ((1 - y) mod p25519)%Z in
    match ModInverse denominator p25519 with
    | None => Err ErrInvalidKeyLength
    | Some denomInv => Ok (le_enc 32 ((numerator * denomInv) mod p25519)%Z)
    end.

Record IdentityKeyPair := mkIdentity { PrivateKey : bytes; PublicKey : bytes }.

(** [ed25519.GenerateKey]: a seed of 32 random bytes. *)
Definition GenerateIdentityKeyPair (tape : bytes) : bytes * res omemo_error IdentityKeyPair :=
  match rand_read 32 tape with
  | Some (seed, tape') => (tape', Ok (mkIdentity (seed ++ ed25519_pub seed) (ed25519_pub seed)))
  | None => (tape, Err ErrRand)
  end.

(** [ed25519.Sign] and [ed25519.Verify] panic on keys of the wrong length. *)
Definition Sign (privateKey message : bytes) : res omemo_error bytes :=
  if bool_decide (length privateKey = 64) then Ok (ed25519_sign privateKey message) else Panic.
Definition Verify (publicKey message sig : bytes) : res omemo_error bool :=
  if bool_decide (length publicKey = 32) then Ok (ed25519_verify publicKey message sig) else Panic.

(** *** kdf.go *)

Definition hkdfSHA256 (salt ikm info : bytes) (length : nat) : res omemo_error bytes :=
  match hkdf_sha256 salt ikm info length with Some o => Ok o | None => Err ErrCrypto end.

(** Message key and next chain key. *)
Definition chainKDF (chainKey : bytes) : bytes * bytes :=
  (hmac_sha256 chainKey [ascii_of_N 1], hmac_sha256 chainKey [ascii_of_N 2]).

Definition root_info : bytes := list_ascii_of_string "OMEMO Root Chain".

(** New root key and new chain key. *)
Definition rootKDF (rootKey dhOutput : bytes) : res omemo_error (bytes * bytes) :=
  res_bind (hkdfSHA256 rootKey dhOutput root_info 64)
    (λ out, Ok (take 32 out, drop 32 out)).

(** *** aes_gcm.go *)

Definition aesKeySize : nat := 32.
Definition aesNonceSize : nat := 12.
Definition aesTagSize : nat := 16.

(** Nonce and ciphertext with the tag; the nonce comes from the tape. *)
Definition aesGCMEncrypt (key plaintext tape : bytes) : bytes * res omemo_error (bytes * bytes) :=
  if bool_decide (length key ≠ aesKeySize) then (tape, Err ErrInvalidKeyLength)
  else match rand_read aesNonceSize tape with
       | None => (tape, Err ErrRand)
       | Some (nonce, tape') => (tape', Ok (nonce, gcm_seal key nonce plaintext))
       end.

Definition aesGCMDecrypt (key nonce ciphertext : bytes) : res omemo_error bytes :=
  if bool_decide (length key ≠ aesKeySize) then Err ErrInvalidKeyLength
  else if bool_decide (length nonce ≠ aesNonceSize) then Err ErrInvalidMessage
  else match gcm_open key nonce ciphertext with
       | Some p => Ok p
       | None => Err ErrInvalidMessage
       end.

(** ** Lemmas *)

Lemma rand_read_Some n tape k tape' :
  rand_read n tape = Some (k, tape') → length k = n ∧ tape = k ++ tape'.
Proof.
  unfold rand_read. destruct (Nat.leb_spec n (length tape)); [|done].
  intros ?; simplify_eq. split; [rewrite length_take; lia|by rewrite take_drop].
Qed.

Lemma rand_read_app n k tape : length k = n → rand_read n (k ++ tape) = Some (k, tape).
Proof.
  intros <-. unfold rand_read. rewrite length_app.
  destruct (Nat.leb_spec (length k) (length k + length tape)); [|lia].
  by rewrite take_app_length, drop_app_length.
Qed.

Lemma key32_not_nil (k : bytes) : key32 k → k ≠ [].
Proof. by intros Hk ->. Qed.

(** On a key that is not nil. *)
Lemma x25519DH_key a p :
  a ≠ [] → length p = 32 → x25519DH a p = match x25519 a p with Some s => Ok s | None => Err ErrCrypto end.
Proof. intros Ha Hp. unfold x25519DH. rewrite bool_decide_true by done. by destruct a. Qed.

Lemma length_le_enc n z : length (le_enc n z) = n.
Proof. revert z. induction n; intros z; simpl; congruence. Qed.

Lemma le_val_enc n z : le_val (le_enc n z) = (z mod 256 ^ Z.of_nat n)%Z.
Proof.
  revert z. induction n as [|n IH]; intros z.
  { simpl. by rewrite Z.mod_1_r. }
  cbn [le_enc le_val]. rewrite IH, N_ascii_embedding.
  2:{ pose proof (Z.mod_pos_bound z 256 ltac:(lia)). lia. }
  rewrite Z2N.id by (apply Z.mod_pos_bound; lia).
  rewrite Nat2Z.inj_succ, Z.pow_succ_r by lia.
  rewrite Z.rem_mul_r by lia. done.
Qed.

(** The birational equivalence of the two curves, for the keys of a seed: the
    converted Ed25519 public key is the X25519 public key of the converted
    private key. *)
Class IdentityLaws := {
  identity_converts seed : key32 seed →
    Ed25519PublicKeyToX25519 (ed25519_pub seed) = Ok (x25519_pub (clamped seed))
}.

Section Laws.
Context `{!CryptoLaws}.

Lemma length_set_byte i f l : length (set_byte i f l) = length l.
Proof. unfold set_byte. case_match; [apply length_insert|done]. Qed.

Lemma clamped_key32 seed : key32 (clamped seed).
Proof. unfold key32, clamped. rewrite length_take, !length_set_byte, sha512_length. done. Qed.

Lemma chainKDF_key32 ck : key32 (chainKDF ck).1 ∧ key32 (chainKDF ck).2.
Proof. split; apply hmac_length. Qed.

Lemma rootKDF_ok rk dh : ∃ rk' ck, rootKDF rk dh = Ok (rk', ck) ∧ key32 rk' ∧ key32 ck.
Proof.
  unfold rootKDF, hkdfSHA256. destruct (hkdf_defined rk dh root_info 64) as [o Ho]; [lia|].
  rewrite Ho. apply hkdf_length in Ho. simpl. eexists _, _. split; [done|].
  unfold key32. rewrite length_take, length_drop. lia.
Qed.

Lemma aesGCM_roundtrip key pt nonce tape :
  key32 key → length nonce = 12 →
  aesGCMEncrypt key pt (nonce ++ tape) = (tape, Ok (nonce, gcm_seal key nonce pt)) ∧
  aesGCMDecrypt key nonce (gcm_seal key nonce pt) = Ok pt.
Proof.
  unfold key32. intros Hk Hn. unfold aesGCMEncrypt, aesGCMDecrypt, aesKeySize, aesNonceSize.
  rewrite !(bool_decide_false (length key ≠ 32)), bool_decide_false by lia.
  rewrite rand_read_app, gcm_open_seal by done. done.
Qed.
End Laws.
End Primitives.

(** ** A toy instance

    Concrete functions with the laws, at which the theorems are instantiated:
    exclusive or for the key agreement, concatenation for the hashes and a tag
    that is the key for the cipher. *)
Module Toy.
Definition xor_byte (a b : ascii) : ascii := ascii_of_N (N.lxor (N_of_ascii a) (N_of_ascii b)).
Definition tag (k : bytes) : bytes := copy_into 16 k.

Definition open (k n c : bytes) : option bytes :=
  let m := length c - 16 in
  if bool_decide (drop m c = tag k) then Some (take m c) else None.

(** Two identities: the seeds that start with an A, and the others.  [y1] and
    [y2] are the Edwards coordinates whose images are the clamped keys. *)
Definition is_a (seed : bytes) : bool :=
  match seed with c :: _ => bool_decide (c = "A"%char) | [] => false end.
Definition y1 : Z := 41341704754383003055346636469933749792065322393965836150572637218227466987330.
Definition y2 : Z := 10174947204306818816768056750506491388956406668974581937691288214467186623034.

Definition crypto : Crypto := {|
  x25519_pub := λ k, k;
  x25519 := λ a p, Some (copy_into 32 (zip_with xor_byte a p));
  hmac_sha256 := λ k m, copy_into 32 (m ++ k);
  hkdf_sha256 := λ salt ikm info n, Some (copy_into n (ikm ++ salt ++ info));
  gcm_seal := λ k n p, p ++ tag k;
  gcm_open := open;
  ed25519_pub := λ seed, le_enc 32 (if is_a seed then y1 else y2);
  ed25519_sign := λ k m, copy_into 64 (drop 32 k ++ m);
  ed25519_verify := λ k m s, bool_decide (s = copy_into 64 (k ++ m));
  sha512 := λ m, replicate 64 (if is_a m then "@"%char else "H"%char)
|}.

Lemma xor_byte_comm a b : xor_byte a b = xor_byte b a.
Proof. unfold xor_byte. by rewrite N.lxor_comm. Qed.

Lemma zip_xor_comm (a b : bytes) : zip_with xor_byte a b = zip_with xor_byte b a.
Proof. revert b. induction a as [|x a IH]; intros [|y b]; simpl; auto. by rewrite xor_byte_comm, IH. Qed.

Lemma laws : @CryptoLaws crypto.
Proof.
  split; cbn [x25519_pub x25519 hmac_sha256 hkdf_sha256 gcm_seal gcm_open ed25519_pub ed25519_sign
              ed25519_verify sha512 crypto].
  - done.
  - intros a b _ _. by rewrite zip_xor_comm.
  - intros a b _ _. by eexists.
  - intros a p s ?; simplify_eq. apply length_copy_into.
  - intros k m. apply length_copy_into.
  - intros salt ikm info n _. by eexists.
  - intros salt ikm info n o ?; simplify_eq. apply length_copy_into.
  - intros k n p _ _. unfold open. rewrite length_app, (length_copy_into 16 k : length (tag k) = 16).
    replace (length p + 16 - 16) with (length p) by lia.
    rewrite drop_app_length, take_app_length, bool_decide_true by done. done.
  - intros k n p. rewrite length_app, (length_copy_into 16 k : length (tag k) = 16). done.
  - intros m. apply length_replicate.
  - intros seed. apply length_le_enc.
  - intros seed m Hs. apply bool_decide_eq_true_2. unfold key32 in Hs.
    by rewrite drop_app_length'.
Qed.

Lemma identity_laws : @IdentityLaws crypto.
Proof.
  split. intros seed _. unfold clamped. cbn [ed25519_pub sha512 x25519_pub crypto].
  destruct (is_a seed); by vm_compute.
Qed.
End Toy.
