(* ===== verification/OmemoRatchet.v ===== *)
(** * OMEMO: the Double Ratchet (src/crypto/omemo/ratchet.go, ratchet_header.go)

    The state of a ratchet, encryption, decryption with skipped message keys and
    the Diffie-Hellman ratchet step, with the theorems on what a pair of
    ratchets guarantees.  Methods mutate the receiver and draw from the random
    tape: both are the state of the monad [RM], and an error leaves them as the
    failing statement found them. *)

From Stdlib Require Import Ascii String NArith ZArith.
From S2P Require Import Prelude Bytes OmemoCrypto.

Open Scope list_scope.

Definition maxSkippedKeys : N := 1000.

(** [skippedKey]: ratchet public key and message number. *)
Notation skippedKey := (bytes * N)%type.

Record RatchetState := mkRatchet {
  DHs : bytes;                       (** our ratchet private key; nil is the empty key *)
  DHr : option bytes;                (** their ratchet public key *)
  RK : bytes;
  CKs : option bytes;
  CKr : option bytes;
  Ns : N;
  Nr : N;
  PN : N;
  MKSkipped : gmap skippedKey bytes
}.

Record RatchetHeader := mkHeader { h_DHPub : bytes; h_N : N; h_PN : N }.

(** Receiver and random tape. *)
Notation RM A := (M (RatchetState * bytes) omemo_error A).

(** Field assignments. *)
Definition set_DHs v (s : RatchetState) := mkRatchet v (DHr s) (RK s) (CKs s) (CKr s) (Ns s) (Nr s) (PN s) (MKSkipped s).
Definition set_DHr v (s : RatchetState) := mkRatchet (DHs s) v (RK s) (CKs s) (CKr s) (Ns s) (Nr s) (PN s) (MKSkipped s).
Definition set_RK v (s : RatchetState) := mkRatchet (DHs s) (DHr s) v (CKs s) (CKr s) (Ns s) (Nr s) (PN s) (MKSkipped s).
Definition set_CKs v (s : RatchetState) := mkRatchet (DHs s) (DHr s) (RK s) v (CKr s) (Ns s) (Nr s) (PN s) (MKSkipped s).
Definition set_CKr v (s : RatchetState) := mkRatchet (DHs s) (DHr s) (RK s) (CKs s) v (Ns s) (Nr s) (PN s) (MKSkipped s).
Definition set_Ns v (s : RatchetState) := mkRatchet (DHs s) (DHr s) (RK s) (CKs s) (CKr s) v (Nr s) (PN s) (MKSkipped s).
Definition set_Nr v (s : RatchetState) := mkRatchet (DHs s) (DHr s) (RK s) (CKs s) (CKr s) (Ns s) v (PN s) (MKSkipped s).
Definition set_PN v (s : RatchetState) := mkRatchet (DHs s) (DHr s) (RK s) (CKs s) (CKr s) (Ns s) (Nr s) v (MKSkipped s).
Definition set_MK v (s : RatchetState) := mkRatchet (DHs s) (DHr s) (RK s) (CKs s) (CKr s) (Ns s) (Nr s) (PN s) v.

Definition get_s : RM RatchetState := λ w, (w, Ok w.1).
Definition upd (f : RatchetState → RatchetState) : RM unit := λ w, ((f w.1, w.2), Ok tt).
(** An operation on the tape alone. *)
Definition with_tape {A} (f : bytes → bytes * res omemo_error A) : RM A :=
  λ w, let '(t, r) := f w.2 in ((w.1, t), r).

(** Runs the monad's plumbing. *)
Ltac rm_run :=
  unfold mbnd, get_s, upd, mlift, with_tape, mok, merr;
  cbn [fst snd h_DHPub h_N h_PN default from_option id].

Section Ratchet.
Context `{Crypto}.
Open Scope go_scope.

(** ** Initialisation *)

Definition InitRatchetAsAlice (sharedSecret remoteSPK : bytes) (tape : bytes)
  : bytes * res omemo_error RatchetState :=
  match GenerateX25519KeyPair tape with
  | (tape, Ok dhs) =>
      (tape,
       try dhOut <- x25519DH dhs remoteSPK;
       try (rk, cks) <- rootKDF sharedSecret dhOut;
       Ok (mkRatchet dhs (Some remoteSPK) rk (Some cks) None 0 0 0 ∅))
  | (tape, Err e) => (tape, Err e)
  | (tape, Panic) => (tape, Panic)
  end.

Definition InitRatchetAsBob (sharedSecret localSPK : bytes) : RatchetState :=
  mkRatchet localSPK None sharedSecret None None 0 0 0 ∅.

(** ** Encryption *)

(** [s.DHs.PublicKey().Bytes()]: a nil key is dereferenced. *)
Definition public_key (k : bytes) : res omemo_error bytes :=
  match k with [] => Panic | _ => Ok (x25519_pub k) end.

(** A nil chain key is an empty HMAC key. *)
Definition RatchetEncrypt (plaintext : bytes) : RM (RatchetHeader * bytes) :=
  do s <- get_s;
  let '(mk, nextCK) := chainKDF (default [] (CKs s)) in
  do_ upd (set_CKs (Some nextCK));
  do pub <- mlift (public_key (DHs s));
  let header := mkHeader pub (Ns s) (PN s) in
  do_ upd (set_Ns (u32_add (Ns s) 1));
  do (nonce, ciphertext) <- with_tape (aesGCMEncrypt mk plaintext);
  mok (header, nonce ++ ciphertext).

(** ** Decryption *)

Definition decryptWithNonce (mk data : bytes) : res omemo_error bytes :=
  if (length data <? aesNonceSize)%nat then Err ErrInvalidMessage
  else aesGCMDecrypt mk (take aesNonceSize data) (drop aesNonceSize data).

(** The key is deleted before the decryption is tried. *)
Definition trySkippedKeys (header : RatchetHeader) (ciphertext : bytes) : RM bytes :=
  do s <- get_s;
  let k := (copy_into 32 (h_DHPub header), h_N header) in
  match MKSkipped s !! k with
  | None => merr ErrInvalidMessage
  | Some mk =>
      do_ upd (λ s, set_MK (delete k (MKSkipped s)) s);
      mlift (decryptWithNonce mk ciphertext)
  end.

(** The [for s.Nr < until] loop of [skipMessageKeys]; fuel is what is left to
    skip, running out of it is [Panic]. *)
Fixpoint skip_loop (fuel : nat) (until : N) : RM unit :=
  do s <- get_s;
  if (Nr s <? until)%N then
    match fuel with
    | 0 => mpanic
    | S f =>
        let '(mk, nextCK) := chainKDF (default [] (CKr s)) in
        let k := (copy_into 32 (default [] (DHr s)), Nr s) in
        do_ upd (λ s, set_Nr (u32_add (Nr s) 1)
                       (set_MK (<[k := mk]> (MKSkipped s)) (set_CKr (Some nextCK) s)));
        do s' <- get_s;
        if (maxSkippedKeys <? N.of_nat (size (MKSkipped s')))%N
        then merr ErrSkippedKeyLimit
        else skip_loop f until
    end
  else mok tt.

Definition skipMessageKeys (until : N) : RM unit :=
  do s <- get_s;
  match CKr s with
  | None => mok tt
  | Some _ =>
      if (u32_add (Nr s) maxSkippedKeys <? until)%N then merr ErrSkippedKeyLimit
      else skip_loop (N.to_nat (until - Nr s)) until
  end.

(** [s.DHs, err = GenerateX25519KeyPair()]: the key is assigned on an error too,
    and is nil then. *)
Definition generate_DHs : RM unit :=
  λ w, match GenerateX25519KeyPair w.2 with
       | (t, Ok k) => ((set_DHs k w.1, t), Ok tt)
       | (t, Err e) => ((set_DHs [] w.1, t), Err e)
       | (t, Panic) => ((w.1, t), Panic)
       end.

Definition dhRatchetStep (newDHr : bytes) : RM unit :=
  do_ upd (λ s, set_DHr (Some (copy_into 32 newDHr)) (set_Nr 0 (set_Ns 0 (set_PN (Ns s) s))));
  do s <- get_s;
  do dhOut <- mlift (x25519DH (DHs s) (default [] (DHr s)));
  do (rk, ckr) <- mlift (rootKDF (RK s) dhOut);
  do_ upd (λ s, set_CKr (Some ckr) (set_RK rk s));
  do_ generate_DHs;
  do s <- get_s;
  do dhOut <- mlift (x25519DH (DHs s) (default [] (DHr s)));
  do (rk, cks) <- mlift (rootKDF (RK s) dhOut);
  upd (λ s, set_CKs (Some cks) (set_RK rk s)).

(** A successful [trySkippedKeys] returns; a failed one is ignored, with the
    change it made to the state kept. *)
Definition RatchetDecrypt (header : RatchetHeader) (ciphertext : bytes) : RM bytes :=
  λ w,
  match trySkippedKeys header ciphertext w with
  | (w, Ok plaintext) => (w, Ok plaintext)
  | (w, _) =>
      (do s <- get_s;
       do_ (if bool_decide (DHr s = None) || negb (bool_decide (DHr s = Some (h_DHPub header)))
            then (do_ skipMessageKeys (h_PN header); dhRatchetStep (h_DHPub header))
            else mok tt);
       do_ skipMessageKeys (h_N header);
       do s <- get_s;
       let '(mk, nextCK) := chainKDF (default [] (CKr s)) in
       do_ upd (λ s, set_Nr (u32_add (Nr s) 1) (set_CKr (Some nextCK) s));
       mlift (decryptWithNonce mk ciphertext)) w
  end.

(** ** Chains *)

Definition next_ck (ck : bytes) : bytes := (chainKDF ck).2.
Definition mk_of (ck : bytes) : bytes := (chainKDF ck).1.

(** The chain key after [n] steps and the [n]-th message key. *)
Definition chain (ck : bytes) (n : nat) : bytes := Nat.iter n next_ck ck.
Definition mk_at (ck : bytes) (n : nat) : bytes := mk_of (chain ck n).

(** The skipped-key table after skipping [k] messages from number [n]. *)
Fixpoint add_skipped (k : nat) (pub ck : bytes) (n : N) (m : gmap skippedKey bytes)
  : gmap skippedKey bytes :=
  match k with
  | 0 => m
  | S k' => add_skipped k' pub (next_ck ck) (n + 1) (<[(pub, n) := mk_of ck]> m)
  end.

(** The message number [n] of a chain: the wire form of plaintext [pt]. *)
Definition wire (ck : bytes) (n : nat) (nonce pt : bytes) : bytes :=
  nonce ++ gcm_seal (mk_at ck n) nonce pt.

Lemma chain_S ck n : chain ck (S n) = chain (next_ck ck) n.
Proof. unfold chain. by rewrite Nat.iter_succ_r. Qed.

Lemma chain_add ck n m : chain ck (n + m) = chain (chain ck n) m.
Proof. unfold chain. rewrite Nat.add_comm, Nat.iter_add. done. Qed.

Lemma mk_at_S ck n : mk_at ck (S n) = mk_at (next_ck ck) n.
Proof. unfold mk_at. by rewrite chain_S. Qed.

Lemma mk_at_add ck n m : mk_at ck (n + m) = mk_at (chain ck n) m.
Proof. unfold mk_at. by rewrite chain_add. Qed.

Lemma add_skipped_lookup k pub ck n m p j :
  add_skipped k pub ck n m !! (p, j) =
    if decide (p = pub ∧ n <= j < n + N.of_nat k)%N
    then Some (mk_at ck (N.to_nat (j - n))) else m !! (p, j).
Proof.
  revert ck n m. induction k as [|k IH]; intros ck n m; simpl add_skipped.
  { by rewrite decide_False by lia. }
  rewrite IH, lookup_insert. destruct (decide (p = pub)) as [->|Hp].
  2:{ rewrite !decide_False by naive_solver. done. }
  destruct (decide (n + 1 <= j < n + 1 + N.of_nat k)%N) as [Hj|Hj].
  - rewrite !decide_True by (split; [done|lia]).
    replace (N.to_nat (j - n)) with (S (N.to_nat (j - (n + 1)))) by lia.
    by rewrite mk_at_S.
  - rewrite decide_False by naive_solver. destruct (decide (j = n)) as [->|Hjn].
    + rewrite !decide_True by (done || (split; [done|lia])). by rewrite N.sub_diag.
    + rewrite !decide_False by (naive_solver lia). done.
Qed.

Lemma add_skipped_size_mono k pub ck n m : size m ≤ size (add_skipped k pub ck n m).
Proof.
  revert ck n m. induction k as [|k IH]; intros ck n m; simpl; [done|].
  etransitivity; [|apply IH]. rewrite map_size_insert. destruct (m !! _); simpl; lia.
Qed.

Lemma add_skipped_size_le k pub ck n m : size (add_skipped k pub ck n m) ≤ size m + k.
Proof.
  revert ck n m. induction k as [|k IH]; intros ck n m; simpl; [lia|].
  etransitivity; [apply IH|]. rewrite map_size_insert. destruct (m !! _); simpl; lia.
Qed.

(** ** The skipping loop *)

Lemma skip_loop_ok k until s t ck pub :
  CKr s = Some ck → DHr s = Some pub → length pub = 32 → is_u32 until →
  until = (Nr s + N.of_nat k)%N →
  (N.of_nat (size (add_skipped k pub ck (Nr s) (MKSkipped s))) <= maxSkippedKeys)%N →
  skip_loop k until (s, t) =
    ((set_Nr until (set_MK (add_skipped k pub ck (Nr s) (MKSkipped s))
       (set_CKr (Some (chain ck k)) s)), t), Ok tt).
Proof.
  intros Hck Hpub Hlen Hu. revert s ck Hck Hpub. induction k as [|k IH]; intros s ck Hck Hpub Hk Hsz.
  - cbn. rewrite Hk. destruct (N.ltb_spec (Nr s) (Nr s + N.of_nat 0)); [lia|].
    destruct s; simpl in *. rewrite N.add_0_r. by subst.
  - cbn [skip_loop]. unfold mbnd at 1, get_s at 1. cbn [fst].
    destruct (N.ltb_spec (Nr s) until) as [_|]; [|lia]. rewrite Hck, Hpub. cbn [default from_option id].
    rewrite copy_into_full by done. destruct (chainKDF ck) as [mk nck] eqn:Ek.
    assert (mk_of ck = mk ∧ next_ck ck = nck) as [Emk Enk] by (unfold mk_of, next_ck; by rewrite Ek).
    unfold mbnd at 1, upd at 1. unfold mbnd at 1, get_s at 1. cbn [fst snd].
    cbn [add_skipped] in Hsz |- *. rewrite Emk, Enk in Hsz |- *.
    set (s1 := set_Nr (u32_add (Nr s) 1)
                 (set_MK (<[(pub, Nr s) := mk]> (MKSkipped s)) (set_CKr (Some nck) s))).
    assert (Nr s1 = (Nr s + 1)%N) as HN1.
    { subst s1. simpl. unfold u32_add. apply u32_small. unfold is_u32 in *. lia. }
    assert (MKSkipped s1 = <[(pub, Nr s) := mk]> (MKSkipped s)) as HM1 by done.
    rewrite <- HN1, <- HM1 in Hsz.
    destruct (N.ltb_spec maxSkippedKeys (N.of_nat (size (MKSkipped s1)))) as [Hbig|_].
    { pose proof (add_skipped_size_mono k pub nck (Nr s1) (MKSkipped s1)). lia. }
    rewrite (IH s1 nck) by (done || lia). rewrite HN1, HM1, chain_S, Enk. done.
Qed.

Lemma skip_loop_done until s t : (until <= Nr s)%N → skip_loop 0 until (s, t) = ((s, t), Ok tt).
Proof. intros Hle. cbn. destruct (N.ltb_spec (Nr s) until); [lia|done]. Qed.

Lemma skipMessageKeys_none until s t :
  CKr s = None ∨ (until <= Nr s)%N ∧ (Nr s + maxSkippedKeys < two32)%N →
  skipMessageKeys until (s, t) = ((s, t), Ok tt).
Proof.
  intros Hs. unfold skipMessageKeys, mbnd, get_s. cbn [fst].
  destruct (CKr s); [|done]. destruct Hs as [|[Hle Hsm]]; [done|].
  unfold u32_add. rewrite u32_small by done.
  destruct (N.ltb_spec (Nr s + maxSkippedKeys) until); [lia|].
  replace (N.to_nat (until - Nr s)) with 0 by lia. by apply skip_loop_done.
Qed.

Lemma skipMessageKeys_ok k s t ck pub :
  CKr s = Some ck → DHr s = Some pub → length pub = 32 →
  (Nr s + maxSkippedKeys < two32)%N → (N.of_nat k <= maxSkippedKeys)%N →
  (N.of_nat (size (add_skipped k pub ck (Nr s) (MKSkipped s))) <= maxSkippedKeys)%N →
  skipMessageKeys (Nr s + N.of_nat k) (s, t) =
    ((set_Nr (Nr s + N.of_nat k) (set_MK (add_skipped k pub ck (Nr s) (MKSkipped s))
       (set_CKr (Some (chain ck k)) s)), t), Ok tt).
Proof.
  intros Hck Hpub Hlen Hsm Hk Hsz. unfold skipMessageKeys, mbnd, get_s. cbn [fst].
  rewrite Hck. unfold u32_add. rewrite u32_small by done.
  destruct (N.ltb_spec (Nr s + maxSkippedKeys) (Nr s + N.of_nat k)); [lia|].
  replace (N.to_nat (Nr s + N.of_nat k - Nr s)) with k by lia.
  apply skip_loop_ok; try done. unfold is_u32. lia.
Qed.

(** ** One message *)

Section Delivery.
Context `{!CryptoLaws}.

Lemma mk_of_key32 ck : key32 (mk_of ck).
Proof. apply chainKDF_key32. Qed.

Lemma decryptWithNonce_seal mk nonce pt :
  key32 mk → length nonce = 12 →
  decryptWithNonce mk (nonce ++ gcm_seal mk nonce pt) = Ok pt.
Proof.
  intros Hk Hn. unfold decryptWithNonce, aesNonceSize.
  destruct (Nat.ltb_spec (length (nonce ++ gcm_seal mk nonce pt)) 12) as [Hl|_].
  { rewrite length_app in Hl. lia. }
  rewrite <- Hn at 1. rewrite take_app_length. rewrite <- Hn at 1. rewrite drop_app_length.
  by apply (aesGCM_roundtrip mk pt nonce []).
Qed.

Lemma encrypt_step s t ck nonce pt :
  key32 (DHs s) → CKs s = Some ck → length nonce = 12 →
  RatchetEncrypt pt (s, nonce ++ t) =
    ((set_Ns (u32_add (Ns s) 1) (set_CKs (Some (next_ck ck)) s), t),
     Ok (mkHeader (x25519_pub (DHs s)) (Ns s) (PN s), wire ck 0 nonce pt)).
Proof.
  intros Hd%key32_not_nil Hck Hn. unfold RatchetEncrypt, mbnd, get_s, upd, with_tape, mok, mlift. cbn [fst snd].
  assert (public_key (DHs s) = Ok (x25519_pub (DHs s))) as -> by (by destruct (DHs s)).
  rewrite Hck. cbn [default from_option id].
  change (chainKDF ck) with (mk_of ck, next_ck ck). cbn [fst snd].
  destruct (aesGCM_roundtrip (mk_of ck) pt nonce t) as [-> _]; [apply mk_of_key32|done|].
  done.
Qed.

Lemma decrypt_skipped s t pub n pn mk nonce pt :
  MKSkipped s !! (pub, n) = Some mk → length pub = 32 → key32 mk → length nonce = 12 →
  RatchetDecrypt (mkHeader pub n pn) (nonce ++ gcm_seal mk nonce pt) (s, t) =
    ((set_MK (delete (pub, n) (MKSkipped s)) s, t), Ok pt).
Proof.
  intros Hmk Hlen Hk Hn. unfold RatchetDecrypt, trySkippedKeys. rm_run.
  rewrite copy_into_full, Hmk by done. by rewrite decryptWithNonce_seal.
Qed.

Lemma trySkippedKeys_miss s t h data :
  MKSkipped s !! (h_DHPub h, h_N h) = None → length (h_DHPub h) = 32 →
  trySkippedKeys h data (s, t) = ((s, t), Err ErrInvalidMessage).
Proof.
  intros Hm Hlen. unfold trySkippedKeys. rm_run.
  by rewrite copy_into_full, Hm.
Qed.

(** The part of [RatchetDecrypt] after the skipped keys and the ratchet step. *)
Definition decrypt_tail (n : N) (ciphertext : bytes) : RM bytes :=
  (do_ skipMessageKeys n;
   do s <- get_s;
   let '(mk, nextCK) := chainKDF (default [] (CKr s)) in
   do_ upd (λ s, set_Nr (u32_add (Nr s) 1) (set_CKr (Some nextCK) s));
   mlift (decryptWithNonce mk ciphertext)).

Lemma RatchetDecrypt_same s t h data :
  MKSkipped s !! (h_DHPub h, h_N h) = None → length (h_DHPub h) = 32 →
  DHr s = Some (h_DHPub h) →
  RatchetDecrypt h data (s, t) = decrypt_tail (h_N h) data (s, t).
Proof.
  intros Hm Hlen HD. unfold RatchetDecrypt. rewrite trySkippedKeys_miss by done.
  unfold mbnd at 1, get_s at 1. cbn [fst]. rewrite HD.
  rewrite bool_decide_false by done. rewrite bool_decide_true by done. done.
Qed.

Lemma RatchetDecrypt_new s t h data s1 t1 :
  MKSkipped s !! (h_DHPub h, h_N h) = None → length (h_DHPub h) = 32 →
  DHr s ≠ Some (h_DHPub h) →
  skipMessageKeys (h_PN h) (s, t) = ((s, t), Ok tt) →
  dhRatchetStep (h_DHPub h) (s, t) = ((s1, t1), Ok tt) →
  RatchetDecrypt h data (s, t) = decrypt_tail (h_N h) data (s1, t1).
Proof.
  intros Hm Hlen HD Hskip Hstep. unfold RatchetDecrypt. rewrite trySkippedKeys_miss by done.
  unfold mbnd at 1, get_s at 1. cbn [fst].
  assert (bool_decide (DHr s = None) || negb (bool_decide (DHr s = Some (h_DHPub h))) = true) as ->.
  { rewrite (bool_decide_false (DHr s = Some _)) by done. by rewrite orb_true_r. }
  unfold mbnd at 1. unfold mbnd at 1. rewrite Hskip, Hstep. done.
Qed.

Lemma decrypt_tail_ok k s t ck pub nonce pt :
  CKr s = Some ck → DHr s = Some pub → length pub = 32 → length nonce = 12 →
  (Nr s + maxSkippedKeys + 1 < two32)%N → (N.of_nat k <= maxSkippedKeys)%N →
  (N.of_nat (size (add_skipped k pub ck (Nr s) (MKSkipped s))) <= maxSkippedKeys)%N →
  decrypt_tail (Nr s + N.of_nat k) (wire ck k nonce pt) (s, t) =
    ((set_Nr (Nr s + N.of_nat k + 1) (set_MK (add_skipped k pub ck (Nr s) (MKSkipped s))
       (set_CKr (Some (chain ck (S k))) s)), t), Ok pt).
Proof.
  intros Hck Hpub Hlen Hn Hsm Hk Hsz. unfold decrypt_tail, mbnd at 1.
  rewrite (skipMessageKeys_ok k s t ck pub) by (done || lia).
  rm_run. cbn [set_Nr set_MK set_CKr CKr Nr]. rm_run.
  change (chainKDF (chain ck k)) with (mk_at ck k, next_ck (chain ck k)). cbn [fst snd set_Nr set_MK set_CKr CKr Nr].
  unfold wire. rewrite decryptWithNonce_seal by (done || apply mk_of_key32).
  unfold u32_add. rewrite u32_small by (unfold is_u32, maxSkippedKeys in *; lia).
  f_equal.
Qed.
End Delivery.
End Ratchet.
