(* ===== verification/OmemoDelivery.v ===== *)
(** * OMEMO: what a pair of ratchets guarantees

    Two theorems on the Double Ratchet of [OmemoRatchet]: messages of one sending
    chain are decrypted in whatever order (and with whatever losses) they
    arrive, and a conversation of any number of turns, with a Diffie-Hellman
    ratchet step at every change of direction, is decrypted completely.  The
    remaining theorems describe what the code does at the limits: the
    skipped-key bound, repeated messages, forged messages and encryption before
    a sending chain exists. *)

From Stdlib Require Import Ascii String NArith ZArith.
From S2P Require Import Prelude Bytes OmemoCrypto OmemoRatchet.

Open Scope list_scope.

Section Delivery.
Context `{Crypto} `{!CryptoLaws}.
Open Scope go_scope.

(** Encrypting and decrypting a list of messages one after the other. *)
Fixpoint encrypt_all (pts : list bytes) : RM (list (RatchetHeader * bytes)) :=
  match pts with
  | [] => mok []
  | pt :: pts' => do m <- RatchetEncrypt pt; do ms <- encrypt_all pts'; mok (m :: ms)
  end.

Fixpoint decrypt_all (msgs : list (RatchetHeader * bytes)) : RM (list bytes) :=
  match msgs with
  | [] => mok []
  | m :: ms => do pt <- RatchetDecrypt m.1 m.2; do pts <- decrypt_all ms; mok (pt :: pts)
  end.

(** Message number [i] of the chain that starts at [ck], sent under [pub]. *)
Definition msg_at (pub ck : bytes) (pn : N) (i : nat) (nonce pt : bytes) : RatchetHeader * bytes :=
  (mkHeader pub (N.of_nat i) pn, wire ck i nonce pt).

(** The messages of a whole chain from number [i] on. *)
Fixpoint chain_msgs (pub ck : bytes) (pn : N) (i : nat) (nonces pts : list bytes)
  : list (RatchetHeader * bytes) :=
  match nonces, pts with
  | nonce :: ns, pt :: ps => msg_at pub ck pn i nonce pt :: chain_msgs pub ck pn (S i) ns ps
  | _, _ => []
  end.

Lemma chain_msgs_length pub ck pn i nonces pts :
  length nonces = length pts → length (chain_msgs pub ck pn i nonces pts) = length pts.
Proof.
  revert i nonces. induction pts as [|p ps IH]; intros i [|n ns] Hl; simplify_eq/=; [done|].
  by rewrite IH.
Qed.

Definition nonces_ok (nonces : list bytes) : Prop := Forall (λ n : bytes, length n = 12) nonces.

(** What a sender with chain key [chain ck i] and message number [i] emits. *)
Lemma encrypt_all_spec pts nonces s t ck i :
  key32 (DHs s) → CKs s = Some (chain ck i) → Ns s = N.of_nat i →
  nonces_ok nonces → length nonces = length pts →
  (N.of_nat (i + length pts) < two32)%N →
  encrypt_all pts (s, concat nonces ++ t) =
    ((set_Ns (N.of_nat (i + length pts)) (set_CKs (Some (chain ck (i + length pts))) s), t),
     Ok (chain_msgs (x25519_pub (DHs s)) ck (PN s) i nonces pts)).
Proof.
  revert nonces s i. induction pts as [|pt pts IH]; intros [|nonce nonces] s i Hd Hck Hn Hno Hlen Hb;
    try done; simpl in Hlen.
  - simpl. rewrite Nat.add_0_r, <- Hck, <- Hn. by destruct s.
  - apply Forall_cons in Hno as [Hl Hno]. cbn [encrypt_all concat]. unfold mbnd at 1.
    rewrite <- app_assoc, (encrypt_step s _ (chain ck i)) by done. cbn [length] in Hb.
    unfold u32_add. rewrite Hn, u32_small by (unfold is_u32; lia).
    unfold mbnd at 1.
    rewrite (IH nonces _ (S i)); [|done|done|simpl; lia|done|lia|simpl; lia].
    cbn [chain_msgs mok length]. rewrite <- !plus_n_Sm. unfold msg_at, wire.
    rewrite <- (mk_at_add ck i 0), Nat.add_0_r. done.
Qed.

(** ** One chain, any order *)

(** The receiver has seen exactly the messages [deliv] of the chain of [pub]
    that starts at [ck]; [base] bounds the keys it keeps for other chains. *)
Record receiving (pub ck : bytes) (base : nat) (deliv : gset N) (s : RatchetState) : Prop := {
  r_DHr : DHr s = Some pub;
  r_CKr : CKr s = Some (chain ck (N.to_nat (Nr s)));
  r_keys : ∀ j, MKSkipped s !! (pub, j) =
    if decide (j < Nr s ∧ j ∉ deliv)%N then Some (mk_at ck (N.to_nat j)) else None;
  r_seen : ∀ j, j ∈ deliv → (j < Nr s)%N;
  r_size : (size (MKSkipped s) ≤ base + N.to_nat (Nr s))%nat
}.

Lemma receiving_old pub ck base deliv s t j pn nonce pt :
  receiving pub ck base deliv s → length pub = 32 → length nonce = 12 →
  (N.of_nat j < Nr s)%N → N.of_nat j ∉ deliv →
  ∃ s', RatchetDecrypt (mkHeader pub (N.of_nat j) pn) (wire ck j nonce pt) (s, t) = ((s', t), Ok pt)
    ∧ receiving pub ck base ({[N.of_nat j]} ∪ deliv) s' ∧ Nr s' = Nr s.
Proof.
  intros R Hp Hn Hj Hd. pose proof (r_keys _ _ _ _ _ R (N.of_nat j)) as Hk.
  rewrite decide_True, Nat2N.id in Hk by done.
  eexists. split; [by apply (decrypt_skipped s t pub (N.of_nat j) pn (mk_at ck j)); [..|apply hmac_length|]|]. split; [|done].
  split; cbn [set_MK DHr CKr Nr MKSkipped]; try apply R.
  - intros i. rewrite lookup_delete. case_decide as Hi.
    + simplify_eq. rewrite decide_False by set_solver. done.
    + rewrite (r_keys _ _ _ _ _ R). apply (decide_ext _ _).
      assert (i ≠ N.of_nat j) by congruence. set_solver.
  - intros i. rewrite elem_of_union, elem_of_singleton. intros [->|Hi]; [done|].
    by apply (r_seen _ _ _ _ _ R).
  - rewrite map_size_delete. pose proof (r_size _ _ _ _ _ R). destruct (MKSkipped s !! _); simpl; lia.
Qed.

Lemma receiving_new pub ck base deliv s t j pn nonce pt :
  receiving pub ck base deliv s → length pub = 32 → length nonce = 12 →
  (Nr s <= N.of_nat j)%N → (N.of_nat (base + j) <= maxSkippedKeys)%N →
  ∃ s', RatchetDecrypt (mkHeader pub (N.of_nat j) pn) (wire ck j nonce pt) (s, t) = ((s', t), Ok pt)
    ∧ receiving pub ck base ({[N.of_nat j]} ∪ deliv) s' ∧ Nr s' = (N.of_nat j + 1)%N.
Proof.
  intros R Hp Hn Hj Hb. pose proof (r_size _ _ _ _ _ R) as Hsz. unfold maxSkippedKeys in Hb.
  assert (∃ k, j = N.to_nat (Nr s) + k) as [k ->].
  { exists (j - N.to_nat (Nr s)). lia. }
  set (m := add_skipped k pub (chain ck (N.to_nat (Nr s))) (Nr s) (MKSkipped s)).
  assert (size m ≤ size (MKSkipped s) + k) as Hm by apply add_skipped_size_le.
  rewrite RatchetDecrypt_same; cbn [h_DHPub h_N]; [|rewrite (r_keys _ _ _ _ _ R)|done|apply R].
  2:{ rewrite decide_False by lia. done. }
  replace (N.of_nat (N.to_nat (Nr s) + k)) with (Nr s + N.of_nat k)%N by lia.
  replace (wire ck (N.to_nat (Nr s) + k) nonce pt)
    with (wire (chain ck (N.to_nat (Nr s))) k nonce pt)
    by (unfold wire; by rewrite mk_at_add).
  rewrite (decrypt_tail_ok k s t (chain ck (N.to_nat (Nr s))) pub); try done.
  2-5: first [apply R | unfold maxSkippedKeys, two32; lia].
  2:{ fold m. unfold maxSkippedKeys. lia. }
  fold m. eexists. split; [done|]. split; [|done].
  split; cbn [set_MK set_Nr set_CKr DHr CKr Nr MKSkipped]; try apply R.
  - rewrite <- chain_add. do 2 f_equal. lia.
  - intros i. subst m. rewrite add_skipped_lookup, (r_keys _ _ _ _ _ R i).
    destruct (decide (Nr s <= i < Nr s + N.of_nat k)%N) as [Hi|Hi].
    + assert (i ∉ deliv) by (intros Hin; apply (r_seen _ _ _ _ _ R) in Hin; lia).
      rewrite decide_True by (split; [done|lia]).
      rewrite decide_True by (split; [lia|]; set_solver by lia).
      rewrite <- mk_at_add. do 2 f_equal. lia.
    + rewrite decide_False by naive_solver. apply decide_ext.
      destruct (decide (i = Nr s + N.of_nat k)%N) as [->|Hne].
      * split; [lia|]. set_solver.
      * rewrite not_elem_of_union, not_elem_of_singleton. split; intros [? ?]; split; try done; lia || naive_solver lia.
  - intros i. rewrite elem_of_union, elem_of_singleton. intros [->|Hi]; [lia|].
    apply (r_seen _ _ _ _ _ R) in Hi. lia.
  - fold m. lia.
Qed.

Lemma receiving_any pub ck base deliv s t j pn nonce pt :
  receiving pub ck base deliv s → length pub = 32 → length nonce = 12 →
  N.of_nat j ∉ deliv → (N.of_nat (base + j) <= maxSkippedKeys)%N →
  ∃ s', RatchetDecrypt (mkHeader pub (N.of_nat j) pn) (wire ck j nonce pt) (s, t) = ((s', t), Ok pt)
    ∧ receiving pub ck base ({[N.of_nat j]} ∪ deliv) s'.
Proof.
  intros R Hp Hn Hd Hb. destruct (N.lt_ge_cases (N.of_nat j) (Nr s)).
  - edestruct receiving_old as (s' & ? & ? & _); eauto.
  - edestruct receiving_new as (s' & ? & ? & _); eauto.
Qed.

Lemma chain_msgs_lookup pub ck pn i nonces pts j nonce pt :
  nonces !! j = Some nonce → pts !! j = Some pt →
  chain_msgs pub ck pn i nonces pts !! j = Some (msg_at pub ck pn (i + j) nonce pt).
Proof.
  revert i nonces pts. induction j as [|j IH]; intros i [|n ns] [|q qs] Hn Hp; simplify_eq/=.
  - by rewrite Nat.add_0_r.
  - rewrite (IH (S i)) by done. by rewrite <- plus_n_Sm.
Qed.

(** Any selection of distinct messages of the chain is decrypted. *)
Lemma receiving_selection pub ck pn base nonces pts sel deliv s t :
  receiving pub ck base deliv s → length pub = 32 → nonces_ok nonces →
  length nonces = length pts → (N.of_nat (base + length pts) <= maxSkippedKeys + 1)%N →
  NoDup sel → Forall (λ j, j < length pts ∧ N.of_nat j ∉ deliv) sel →
  ∃ s' deliv', decrypt_all (omap (λ j, chain_msgs pub ck pn 0 nonces pts !! j) sel) (s, t)
      = ((s', t), Ok (omap (λ j, pts !! j) sel)) ∧ receiving pub ck base deliv' s'.
Proof.
  intros R Hp Hno Hlen Hb Hnd. revert deliv s R. induction sel as [|j sel IH]; intros deliv s R Hsel.
  { exists s, deliv. done. }
  apply NoDup_cons in Hnd as [Hj Hnd]. apply Forall_cons in Hsel as [[Hjl Hjd] Hsel].
  destruct (lookup_lt_is_Some_2 pts j Hjl) as [pt Hpt].
  destruct (lookup_lt_is_Some_2 nonces j) as [nonce Hnonce]; [lia|].
  assert (length nonce = 12) as Hn by (by eapply (Forall_lookup_1 _ _ _ _ Hno)).
  destruct (receiving_any pub ck base deliv s t j pn nonce pt) as (s1 & Hdec & R1); try done; [lia|].
  destruct (IH Hnd _ s1 R1) as (s' & deliv' & Hrest & R').
  { eapply Forall_impl; [by apply Forall_and; split; [exact Hsel|apply (Forall_forall (λ x, x ≠ j) sel); intros x Hx ->]|].
    intros x [[? ?] ?]. split; [done|]. rewrite not_elem_of_union, not_elem_of_singleton.
    split; [lia|done]. }
  exists s', deliv'. split; [|done]. simpl.
  rewrite (chain_msgs_lookup _ _ _ 0 _ _ _ _ _ Hnonce Hpt), Hpt. change (0 + j) with j. cbn [decrypt_all].
  unfold mbnd at 1, msg_at. cbn [fst snd]. rewrite Hdec. unfold mbnd at 1.
  unfold omap in Hrest. rewrite Hrest. done.
Qed.

(** ** Conversations *)

Lemma decrypt_in_order pub ck pn nonces pts s t i :
  DHr s = Some pub → length pub = 32 → CKr s = Some (chain ck i) → Nr s = N.of_nat i →
  MKSkipped s = ∅ → nonces_ok nonces → length nonces = length pts →
  (N.of_nat (i + length pts) + maxSkippedKeys < two32)%N →
  decrypt_all (chain_msgs pub ck pn i nonces pts) (s, t) =
    ((set_Nr (N.of_nat (i + length pts)) (set_CKr (Some (chain ck (i + length pts))) s), t), Ok pts).
Proof.
  intros HD Hp. revert nonces s i HD.
  induction pts as [|pt pts IH]; intros [|nonce nonces] s i HD Hck HN Hmk Hno Hlen Hb;
    try done; simpl in Hlen.
  - simpl. rewrite Nat.add_0_r, <- Hck, <- HN. by destruct s.
  - apply Forall_cons in Hno as [Hn Hno]. cbn [length] in Hb.
    cbn [chain_msgs decrypt_all]. unfold mbnd at 1, msg_at. cbn [fst snd].
    rewrite RatchetDecrypt_same; cbn [h_DHPub h_N]; [|by rewrite Hmk|done|done].
    replace (N.of_nat i) with (Nr s + N.of_nat 0)%N at 1 by lia.
    replace (wire ck i nonce pt) with (wire (chain ck i) 0 nonce pt)
      by (unfold wire; by rewrite <- mk_at_add, Nat.add_0_r).
    rewrite (decrypt_tail_ok 0 s t (chain ck i) pub); try done.
    2: unfold maxSkippedKeys in *; lia.
    2: cbn [add_skipped]; rewrite Hmk, map_size_empty; unfold maxSkippedKeys; lia.
    unfold mbnd at 1. cbn [add_skipped].
    rewrite (IH nonces _ (S i)); try done; [|simpl; lia..].
    cbn [mok length]. rewrite <- !plus_n_Sm. destruct s; simpl in *; subst. done.
Qed.

Lemma dhRatchetStep_ok s t f a dh1 rk1 ckr dh2 rk2 cks :
  key32 a → key32 f → key32 (DHs s) →
  x25519 (DHs s) (x25519_pub a) = Some dh1 → rootKDF (RK s) dh1 = Ok (rk1, ckr) →
  x25519 f (x25519_pub a) = Some dh2 → rootKDF rk1 dh2 = Ok (rk2, cks) →
  dhRatchetStep (x25519_pub a) (s, f ++ t) =
    ((mkRatchet f (Some (x25519_pub a)) rk2 (Some cks) (Some ckr) 0 0 (Ns s) (MKSkipped s), t), Ok tt).
Proof.
  intros Ha Hf Hs H1 K1 H2 K2. assert (length (x25519_pub a) = 32) as Hl by (by apply x25519_pub_length).
  unfold dhRatchetStep. rm_run. cbn [set_DHr set_Nr set_Ns set_PN DHs DHr RK default from_option id].
  rewrite copy_into_full by done. rewrite x25519DH_key by (by apply key32_not_nil || done).
  rewrite H1, K1. unfold generate_DHs, GenerateX25519KeyPair. cbn [fst snd]. rewrite rand_read_app by done.
  cbn [fst snd set_CKr set_RK set_DHs set_DHr DHs DHr RK default from_option id].
  rewrite x25519DH_key by (by apply key32_not_nil || done). rewrite H2, K2. done.
Qed.

(** [a] speaks next: [b] has not seen its current ratchet key, and the next
    ratchet step of [b] will derive [a]'s sending chain. *)
Record ahead (a b : RatchetState) : Prop := {
  ah_a : key32 (DHs a);
  ah_b : key32 (DHs b);
  ah_DHr : DHr a = Some (x25519_pub (DHs b));
  ah_new : DHr b ≠ Some (x25519_pub (DHs a));
  ah_key : ∃ dh ck, x25519 (DHs b) (x25519_pub (DHs a)) = Some dh ∧
             rootKDF (RK b) dh = Ok (RK a, ck) ∧ CKs a = Some ck;
  ah_Ns : Ns a = 0%N;
  ah_skip_a : MKSkipped a = ∅;
  ah_skip_b : MKSkipped b = ∅;
  ah_PN : CKr b = None ∨ (PN a <= Nr b ∧ Nr b + maxSkippedKeys < two32)%N;
  ah_Nr : CKr a = None ∨ (Ns b <= Nr a ∧ Nr a + maxSkippedKeys < two32)%N
}.

(** A turn: the plaintexts one side sends, the nonces it draws, and the ratchet
    key the other side draws on receipt. *)
Record turn := mkTurn { t_pts : list bytes; t_nonces : list bytes; t_key : bytes }.

Definition turn_ok (x : turn) : Prop :=
  t_pts x ≠ [] ∧ nonces_ok (t_nonces x) ∧ length (t_nonces x) = length (t_pts x) ∧
  key32 (t_key x) ∧ (N.of_nat (length (t_pts x)) + maxSkippedKeys < two32)%N.

Definition turn_tape (x : turn) : bytes := concat (t_nonces x) ++ t_key x.

(** Every new ratchet key differs from the one it replaces. *)
Fixpoint fresh (pub_speaker pub_listener : bytes) (keys : list bytes) : Prop :=
  match keys with
  | [] => True
  | k :: keys' => x25519_pub k ≠ pub_listener ∧ fresh (x25519_pub k) pub_speaker keys'
  end.

(** The speaker encrypts, the listener decrypts, then the roles change. *)
Fixpoint converse (turns : list (list bytes)) (a b : RatchetState) (tape : bytes)
  : res omemo_error (list (list bytes)) :=
  match turns with
  | [] => Ok []
  | pts :: ts =>
      match encrypt_all pts (a, tape) with
      | ((a', tape1), Ok msgs) =>
          match decrypt_all msgs (b, tape1) with
          | ((b', tape2), Ok out) =>
              res_bind (converse ts b' a' tape2) (λ rest, Ok (out :: rest))
          | (_, Err e) => Err e
          | (_, Panic) => Panic
          end
      | (_, Err e) => Err e
      | (_, Panic) => Panic
      end
  end.

(** The listener's ratchet step, before it reads the first message. *)
Lemma ahead_step a b f t dh ck :
  ahead a b → key32 f → x25519 (DHs b) (x25519_pub (DHs a)) = Some dh →
  rootKDF (RK b) dh = Ok (RK a, ck) →
  ∃ rk cks dh2, x25519 (DHs a) (x25519_pub f) = Some dh2 ∧ rootKDF (RK a) dh2 = Ok (rk, cks) ∧
    dhRatchetStep (x25519_pub (DHs a)) (b, f ++ t) =
      ((mkRatchet f (Some (x25519_pub (DHs a))) rk (Some cks) (Some ck) 0 0 (Ns b) ∅, t), Ok tt).
Proof.
  intros A Hf Hdh Hrk. destruct (x25519_honest (DHs a) f (ah_a _ _ A) Hf) as [dh2 H2].
  destruct (rootKDF_ok (RK a) dh2) as (rk & cks & Hk & _ & _). exists rk, cks, dh2.
  split; [done|]. split; [done|]. rewrite <- (ah_skip_b _ _ A).
  apply (dhRatchetStep_ok b t f (DHs a) dh (RK a) ck dh2); try done; [apply A|apply A|].
  rewrite x25519_comm; [done..|apply A].
Qed.

Lemma turn_delivered a b x t :
  ahead a b → turn_ok x → x25519_pub (t_key x) ≠ x25519_pub (DHs b) →
  ∃ a' b' msgs, encrypt_all (t_pts x) (a, turn_tape x ++ t) = ((a', t_key x ++ t), Ok msgs) ∧
    decrypt_all msgs (b, t_key x ++ t) = ((b', t), Ok (t_pts x)) ∧
    ahead b' a' ∧ DHs b' = t_key x ∧ DHs a' = DHs a.
Proof.
  intros A (Hne & Hno & Hlen & Hk & Hb) Hfresh. set (k := length (t_pts x)) in *.
  destruct (ah_key _ _ A) as (dh & ck & Hdh & Hrk & Hcks).
  destruct (ahead_step a b (t_key x) t dh ck A Hk Hdh Hrk) as (rk & cks & dh2 & H2 & K2 & Hstep).
  assert (length (x25519_pub (DHs a)) = 32) as Hl by (apply x25519_pub_length, A).
  set (pub := x25519_pub (DHs a)) in *.
  set (b1 := mkRatchet (t_key x) (Some pub) rk (Some cks) (Some ck) 0 0 (Ns b) ∅) in *.
  set (msgs := chain_msgs pub ck (PN a) 0 (t_nonces x) (t_pts x)).
  exists (set_Ns (N.of_nat k) (set_CKs (Some (chain ck k)) a)),
         (set_Nr (N.of_nat k) (set_CKr (Some (chain ck k)) b1)), msgs.
  split; [|split; [|split; [|done]]].
  - unfold turn_tape. rewrite <- app_assoc.
    rewrite (encrypt_all_spec _ _ a _ ck 0); [done|apply A|done|by rewrite (ah_Ns _ _ A)|done|done|].
    unfold maxSkippedKeys in Hb. lia.
  - assert (decrypt_all msgs (b, t_key x ++ t) = decrypt_all msgs (b1, t)) as ->.
    { subst msgs. destruct (t_pts x) as [|pt pts]; [done|].
      destruct (t_nonces x) as [|nonce nonces]; [done|]. cbn [chain_msgs decrypt_all].
      unfold mbnd at 1 3, msg_at. cbn [fst snd].
      rewrite (RatchetDecrypt_new b _ _ _ b1 t); cbn [h_DHPub h_N h_PN];
        [|by rewrite (ah_skip_b _ _ A)|done|apply A|apply skipMessageKeys_none, A|done].
      rewrite (RatchetDecrypt_same b1); done. }
    apply (decrypt_in_order pub ck (PN a) _ _ b1 t 0); done.
  - split; simpl; try done; try apply A.
    + rewrite (ah_DHr _ _ A). congruence.
    + eauto 10.
    + right. split; [lia|done].
Qed.

(** One message that opens a turn. *)
Lemma message_delivered a b f pt nonce :
  ahead a b → key32 f → length nonce = 12 → x25519_pub f ≠ x25519_pub (DHs b) →
  ∃ a' b' h c,
    (∀ t, RatchetEncrypt pt (a, nonce ++ t) = ((a', t), Ok (h, c))) ∧
    (∀ t, RatchetDecrypt h c (b, f ++ t) = ((b', t), Ok pt)) ∧
    ahead b' a' ∧ DHs b' = f ∧ DHs a' = DHs a.
Proof.
  intros A Hf Hn Hfresh. destruct (ah_key _ _ A) as (dh & ck & Hdh & Hrk & Hcks).
  assert (length (x25519_pub (DHs a)) = 32) as Hl by (apply x25519_pub_length, A).
  destruct (ahead_step a b f [] dh ck A Hf Hdh Hrk) as (rk & cks & dh2 & H2 & K2 & _).
  set (b1 := mkRatchet f (Some (x25519_pub (DHs a))) rk (Some cks) (Some ck) 0 0 (Ns b) ∅).
  exists (set_Ns 1 (set_CKs (Some (next_ck ck)) a)), (set_Nr 1 (set_CKr (Some (next_ck ck)) b1)),
    (mkHeader (x25519_pub (DHs a)) 0 (PN a)), (wire ck 0 nonce pt).
  split; [|split; [|split; [|done]]].
  - intros t. rewrite (encrypt_step a t ck nonce pt) by (done || apply A). by rewrite (ah_Ns _ _ A).
  - intros t. destruct (ahead_step a b f t dh ck A Hf Hdh Hrk) as (rk' & cks' & dh2' & H2' & K2' & Hst).
    assert (rk' = rk ∧ cks' = cks) as [-> ->] by (split; congruence).
    rewrite (RatchetDecrypt_new b _ _ _ b1 t); cbn [h_DHPub h_N h_PN];
      [|by rewrite (ah_skip_b _ _ A)|done|apply A|apply skipMessageKeys_none, A|done].
    by apply (decrypt_tail_ok 0 b1 t ck (x25519_pub (DHs a)) nonce pt).
  - split; simpl; try done; try apply A.
    + rewrite (ah_DHr _ _ A). congruence.
    + eauto 10.
    + by right.
Qed.

Lemma converse_ok ts a b rest :
  ahead a b → Forall turn_ok ts → fresh (x25519_pub (DHs a)) (x25519_pub (DHs b)) (t_key <$> ts) →
  converse (t_pts <$> ts) a b (concat (turn_tape <$> ts) ++ rest) = Ok (t_pts <$> ts).
Proof.
  revert a b. induction ts as [|x ts IH]; intros a b A Hok Hf; [done|].
  apply Forall_cons in Hok as [Hx Hok]. destruct Hf as [Hf1 Hf2]. cbn [fmap list_fmap concat converse].
  rewrite <- app_assoc.
  destruct (turn_delivered a b x (concat (turn_tape <$> ts) ++ rest) A Hx Hf1)
    as (a' & b' & msgs & -> & -> & A' & Hb' & Ha').
  change (list_fmap turn (list bytes) t_pts ts) with (t_pts <$> ts).
  rewrite IH; [done|done|done|]. by rewrite Hb', Ha'.
Qed.

Lemma init_ahead ss spk f t :
  key32 spk → key32 f →
  ∃ a, InitRatchetAsAlice ss (x25519_pub spk) (f ++ t) = (t, Ok a) ∧
       ahead a (InitRatchetAsBob ss spk) ∧ DHs a = f.
Proof.
  intros Hs Hf. unfold InitRatchetAsAlice, GenerateX25519KeyPair. rewrite rand_read_app by done.
  rewrite x25519DH_key by (by apply key32_not_nil || by apply x25519_pub_length).
  destruct (x25519_honest f spk Hf Hs) as [dh Hdh]. rewrite Hdh. cbn [res_bind].
  destruct (rootKDF_ok ss dh) as (rk & ck & Hk & _). rewrite Hk. cbn [res_bind].
  eexists. split; [done|]. split; [|done]. split; simpl; try done; try by left.
  rewrite (x25519_comm spk f) by done. eauto 10.
Qed.

(** ** The guarantees *)

Lemma receiving_start a b f t dh ck :
  ahead a b → key32 f → x25519 (DHs b) (x25519_pub (DHs a)) = Some dh →
  rootKDF (RK b) dh = Ok (RK a, ck) →
  ∃ b1, receiving (x25519_pub (DHs a)) ck 0 ∅ b1 ∧
    ∀ n data, RatchetDecrypt (mkHeader (x25519_pub (DHs a)) n (PN a)) data (b, f ++ t) =
              RatchetDecrypt (mkHeader (x25519_pub (DHs a)) n (PN a)) data (b1, t).
Proof.
  intros A Hf Hdh Hrk.
  destruct (ahead_step a b f t dh ck A Hf Hdh Hrk) as (rk & cks & dh2 & _ & _ & Hstep).
  assert (length (x25519_pub (DHs a)) = 32) as Hl by (apply x25519_pub_length, A).
  exists (mkRatchet f (Some (x25519_pub (DHs a))) rk (Some cks) (Some ck) 0 0 (Ns b) ∅).
  split; cycle 1.
  - intros n data. etransitivity; [|symmetry; by apply RatchetDecrypt_same].
    apply RatchetDecrypt_new; cbn [h_DHPub h_N h_PN];
      [by rewrite (ah_skip_b _ _ A)|done|apply A|apply skipMessageKeys_none, A|exact Hstep].
  - split; try done. intros j. simpl. by rewrite decide_False by lia.
Qed.

(** C21: a sender initialised by [InitRatchetAsAlice] encrypts a list of messages
    with [RatchetEncrypt]; the receiver initialised by [InitRatchetAsBob] from
    the same shared secret decrypts any selection of them, in any order and with
    any losses, to the plaintexts sent, as long as no more than [maxSkippedKeys]
    messages can be outstanding. *)
Theorem out_of_order_delivery ss spk f g pts nonces sel :
  key32 spk → key32 f → key32 g →
  nonces_ok nonces → length nonces = length pts →
  (N.of_nat (length pts) <= maxSkippedKeys + 1)%N →
  NoDup sel → Forall (λ j, j < length pts) sel →
  ∃ a a' msgs b' t',
    InitRatchetAsAlice ss (x25519_pub spk) (f ++ concat nonces ++ g) = (concat nonces ++ g, Ok a) ∧
    encrypt_all pts (a, concat nonces ++ g) = ((a', g), Ok msgs) ∧ length msgs = length pts ∧
    decrypt_all (omap (λ j, msgs !! j) sel) (InitRatchetAsBob ss spk, g) =
      ((b', t'), Ok (omap (λ j, pts !! j) sel)).
Proof.
  intros Hs Hf Hg Hno Hlen Hb Hnd Hsel.
  destruct (init_ahead ss spk f (concat nonces ++ g) Hs Hf) as (a & Hinit & A & _).
  destruct (ah_key _ _ A) as (dh & ck & Hdh & Hrk & Hcks).
  destruct (receiving_start a _ g [] dh ck A Hg Hdh Hrk) as (b1 & R & Hstart).
  rewrite app_nil_r in Hstart. set (b := InitRatchetAsBob ss spk) in *.
  set (msgs := chain_msgs (x25519_pub (DHs a)) ck (PN a) 0 nonces pts) in *.
  destruct (receiving_selection _ _ (PN a) 0 nonces pts sel ∅ b1 [] R) as (b' & dl & Hdec & _); try done.
  { apply x25519_pub_length, A. }
  { eapply Forall_impl; [exact Hsel|]. intros j Hj. split; [done|]. set_solver. }
  fold msgs in Hdec.
  assert (∃ b' t', decrypt_all (omap (λ j, msgs !! j) sel) (b, g) =
                    ((b', t'), Ok (omap (λ j, pts !! j) sel))) as (b2 & t2 & Hb2).
  { destruct sel as [|j sel]; [by eexists _, _|]. eexists b', []. rewrite <- Hdec.
    apply Forall_cons in Hsel as [Hj _].
    destruct (lookup_lt_is_Some_2 pts j Hj) as [pt Hpt].
    destruct (lookup_lt_is_Some_2 nonces j) as [nonce Hnonce]; [lia|].
    simpl. unfold msgs. rewrite (chain_msgs_lookup _ _ _ 0 _ _ _ _ _ Hnonce Hpt).
    cbn [decrypt_all]. unfold mbnd, msg_at. cbn [fst snd]. by rewrite Hstart. }
  eexists a, _, msgs, b2, t2. split; [done|]. split; [|split].
  - rewrite (encrypt_all_spec _ _ a _ ck 0); [done|apply A|done|by rewrite (ah_Ns _ _ A)|done|done|].
    unfold maxSkippedKeys, two32 in *. lia.
  - by apply chain_msgs_length.
  - done.
Qed.

(** C6: whatever is said in turn is understood: starting from the two
    initialisations of a shared secret, the parties alternate; each turn is any
    non-empty list of plaintexts, every change of direction makes the listener
    perform a Diffie-Hellman ratchet step with a key drawn from the tape, and
    every message of every turn is decrypted to its plaintext.  The only
    requirement on the keys is that a new ratchet key differs from the one it
    replaces. *)
Theorem double_ratchet_conversation ss spk f ts rest :
  key32 spk → key32 f → Forall turn_ok ts → fresh (x25519_pub f) (x25519_pub spk) (t_key <$> ts) →
  ∃ a, InitRatchetAsAlice ss (x25519_pub spk) (f ++ concat (turn_tape <$> ts) ++ rest)
         = (concat (turn_tape <$> ts) ++ rest, Ok a) ∧
    converse (t_pts <$> ts) a (InitRatchetAsBob ss spk) (concat (turn_tape <$> ts) ++ rest)
      = Ok (t_pts <$> ts).
Proof.
  intros Hs Hf Hok Hfr. destruct (init_ahead ss spk f (concat (turn_tape <$> ts) ++ rest) Hs Hf) as (a & Hi & A & HD).
  exists a. split; [exact Hi|]. apply converse_ok; [done|done|]. by rewrite HD.
Qed.

(** ** Limits *)

Definition keys_of (w : RatchetState * bytes) : nat := size (MKSkipped w.1).

Lemma skip_loop_bound fuel until s t w r :
  is_u32 until → (until - Nr s <= N.of_nat fuel)%N → skip_loop fuel until (s, t) = (w, r) →
  r ≠ Panic ∧ (keys_of w ≤ Nat.max 1001 (size (MKSkipped s) + 1))%nat ∧
  (r = Ok tt → (keys_of w ≤ 1000)%nat ∨ MKSkipped w.1 = MKSkipped s).
Proof.
  intros Hu. revert s. induction fuel as [|fuel IH]; intros s Hfuel Hrun;
    cbn [skip_loop] in Hrun; unfold mbnd at 1, get_s at 1 in Hrun; cbn [fst] in Hrun;
    destruct (N.ltb_spec (Nr s) until) as [Hlt|Hge]; try lia;
    try (unfold mok in Hrun; simplify_eq; unfold keys_of; simpl; split; [done|]; split; [lia|]; by right).
  destruct (chainKDF _) as [mk nck]. unfold mbnd at 1, upd at 1 in Hrun.
  unfold mbnd at 1, get_s at 1 in Hrun. cbn [fst snd] in Hrun.
  set (s1 := set_Nr _ _) in Hrun.
  assert (size (MKSkipped s1) ≤ size (MKSkipped s) + 1) as Hs1.
  { unfold s1. simpl. rewrite map_size_insert. destruct (MKSkipped s !! _); simpl; lia. }
  assert (Nr s1 = (Nr s + 1)%N) as HN1.
  { unfold s1. simpl. unfold u32_add. apply u32_small. unfold is_u32 in *. lia. }
  destruct (N.ltb_spec maxSkippedKeys (N.of_nat (size (MKSkipped s1)))) as [Hbig|Hsm];
    unfold maxSkippedKeys in *.
  - unfold merr in Hrun. simplify_eq. unfold keys_of. simpl fst. split; [done|]. split; [lia|done].
  - apply IH in Hrun as (Hr & Hk & Hok); [|lia]. split; [done|]. split; [lia|].
    intros Hr'. left. destruct (Hok Hr') as [?|HM]; [done|]. unfold keys_of. rewrite HM. lia.
Qed.

Lemma skipMessageKeys_bound until s t w r :
  is_u32 until → skipMessageKeys until (s, t) = (w, r) →
  r ≠ Panic ∧ (keys_of w ≤ Nat.max 1001 (size (MKSkipped s) + 1))%nat ∧
  (r = Ok tt → (keys_of w ≤ 1000)%nat ∨ MKSkipped w.1 = MKSkipped s).
Proof.
  intros Hu. unfold skipMessageKeys, mbnd, get_s. cbn [fst].
  assert (∀ r', r' ≠ Panic → ((s, t), r') = (w, r) → r ≠ Panic ∧
    (keys_of w ≤ Nat.max 1001 (size (MKSkipped s) + 1))%nat ∧
    (r = Ok tt → (keys_of w ≤ 1000)%nat ∨ MKSkipped w.1 = MKSkipped s)) as Hsame.
  { intros r' Hr' ?. simplify_eq. unfold keys_of. simpl. split; [done|]. split; [lia|]. by right. }
  destruct (CKr s); [|by apply Hsame]. destruct (_ <? until)%N; [by apply Hsame|].
  apply skip_loop_bound; [done|lia].
Qed.

Lemma skip_loop_DHs fuel until w w' r : skip_loop fuel until w = (w', r) → DHs w'.1 = DHs w.1.
Proof.
  revert w. induction fuel as [|fuel IH]; intros [s t]; cbn [skip_loop]; rm_run; destruct (Nr s <? until)%N;
    try (by intros [= <- <-]). destruct (chainKDF _) as [mk nck]. case_match; [by intros [= <- <-]|].
  intros E. by apply IH in E.
Qed.

Lemma skipMessageKeys_DHs until s t w r : skipMessageKeys until (s, t) = (w, r) → DHs w.1 = DHs s.
Proof.
  unfold skipMessageKeys. rm_run. destruct (CKr s); [|by intros [= <- <-]]. case_match; [by intros [= <- <-]|].
  intros E. by apply skip_loop_DHs in E.
Qed.

Lemma trySkippedKeys_DHs h data s t w r : trySkippedKeys h data (s, t) = (w, r) → DHs w.1 = DHs s.
Proof. unfold trySkippedKeys. rm_run. by case_match; intros [= <- <-]. Qed.

Lemma dhRatchetStep_keeps pub s t w r :
  dhRatchetStep pub (s, t) = (w, r) → (r = Panic → DHs s = []) ∧ MKSkipped w.1 = MKSkipped s.
Proof.
  unfold dhRatchetStep, generate_DHs, x25519DH, rootKDF, hkdfSHA256, GenerateX25519KeyPair. rm_run.
  intros Hrun. repeat (case_match; simplify_eq/=; try done).
  all: by match goal with E : rand_read _ _ = _ |- _ => apply rand_read_Some in E as [? _] end.
Qed.

Lemma decryptWithNonce_total mk data : decryptWithNonce mk data ≠ Panic.
Proof. unfold decryptWithNonce, aesGCMDecrypt. repeat case_match; done. Qed.

Lemma decrypt_tail_bound n data s t w r :
  is_u32 n → decrypt_tail n data (s, t) = (w, r) →
  r ≠ Panic ∧ (keys_of w ≤ Nat.max 1001 (size (MKSkipped s) + 1))%nat.
Proof.
  intros Hn. unfold decrypt_tail, mbnd at 1.
  destruct (skipMessageKeys n (s, t)) as [[s1 t1] r1] eqn:E.
  apply skipMessageKeys_bound in E as (Hr & Hk & _); [|done].
  destruct r1 as [[]|e|]; [|intros ?; simplify_eq; done..].
  rm_run. destruct (chainKDF _) as [mk nck]. intros ?. simplify_eq.
  split; [apply decryptWithNonce_total|done].
Qed.

Lemma trySkippedKeys_shrinks h data s t w r :
  trySkippedKeys h data (s, t) = (w, r) → (keys_of w ≤ size (MKSkipped s))%nat ∧ r ≠ Panic.
Proof.
  unfold trySkippedKeys. rm_run. destruct (MKSkipped s !! _) as [mk|] eqn:E; intros ?; simplify_eq;
    unfold keys_of; cbn [fst set_MK MKSkipped]; [|done].
  split; [|apply decryptWithNonce_total]. rewrite map_size_delete_Some by done. lia.
Qed.

(** The Diffie-Hellman part of [RatchetDecrypt]. *)
Definition ratchet_turn (h : RatchetHeader) : RM unit :=
  do s <- get_s;
  if bool_decide (DHr s = None) || negb (bool_decide (DHr s = Some (h_DHPub h)))
  then (do_ skipMessageKeys (h_PN h); dhRatchetStep (h_DHPub h))
  else mok tt.

Lemma RatchetDecrypt_split h data w :
  RatchetDecrypt h data w =
    match trySkippedKeys h data w with
    | (w, Ok plaintext) => (w, Ok plaintext)
    | (w, _) => (do_ ratchet_turn h; decrypt_tail (h_N h) data) w
    end.
Proof. reflexivity. Qed.

Lemma ratchet_turn_bound h s t w r :
  is_u32 (h_PN h) → ratchet_turn h (s, t) = (w, r) →
  (r = Panic → DHs s = []) ∧ (keys_of w ≤ Nat.max 1001 (size (MKSkipped s) + 1))%nat ∧
  (r = Ok tt → (keys_of w ≤ 1000)%nat ∨ MKSkipped w.1 = MKSkipped s).
Proof.
  intros Hp. unfold ratchet_turn, mbnd at 1, get_s at 1. cbn [fst].
  destruct (_ || _); cycle 1.
  { unfold mok. intros ?; simplify_eq. unfold keys_of. simpl. split; [done|]. split; [lia|by right]. }
  unfold mbnd at 1. destruct (skipMessageKeys (h_PN h) (s, t)) as [[s1 t1] r1] eqn:E.
  pose proof (skipMessageKeys_DHs _ _ _ _ _ E) as HD. cbn [fst] in HD.
  apply skipMessageKeys_bound in E as (Hr & Hk & Hok); [|done].
  destruct r1 as [[]|e|]; [|intros ?; simplify_eq; done..].
  intros Hd. apply dhRatchetStep_keeps in Hd as [Hd1 Hd2]. unfold keys_of in *. rewrite Hd2. split; [|auto].
  intros Hp'. rewrite <- HD. by apply Hd1.
Qed.

(** C36: [RatchetDecrypt] is total on every header and ciphertext, its skipping
    loops included, on every state whose ratchet key is not nil (a failed key
    generation leaves it nil, and the next ratchet step panics), and one call
    never lets the table of skipped keys grow beyond 1001 entries, or by more than
    one entry when it is already larger. *)
Theorem RatchetDecrypt_bounded h data s t w r :
  is_u32 (h_N h) → is_u32 (h_PN h) → RatchetDecrypt h data (s, t) = (w, r) →
  (r = Panic → DHs s = []) ∧ (keys_of w ≤ Nat.max 1001 (size (MKSkipped s) + 1))%nat.
Proof.
  intros HN HP. rewrite RatchetDecrypt_split.
  destruct (trySkippedKeys h data (s, t)) as [[s1 t1] r1] eqn:E1. pose proof (trySkippedKeys_DHs _ _ _ _ _ _ E1) as HD.
  apply trySkippedKeys_shrinks in E1 as [Hs1 Hr1]. unfold keys_of in Hs1. cbn [fst] in Hs1, HD.
  destruct r1 as [pt|e|]; [intros ?; simplify_eq; unfold keys_of; simpl; split; [done|lia]| |done].
  unfold mbnd. destruct (ratchet_turn h (s1, t1)) as [[s2 t2] r2] eqn:E2.
  apply ratchet_turn_bound in E2 as (Hr2 & Hk2 & Hok2); [|done]. unfold keys_of in Hk2, Hok2.
  rewrite HD in Hr2. cbn [fst] in Hk2, Hok2.
  destruct r2 as [[]|e2|]; [|intros ?; simplify_eq; unfold keys_of; cbn [fst]; split; [by auto|lia]..].
  intros E3. apply decrypt_tail_bound in E3 as [Hr3 Hk3]; [|done]. split; [done|].
  destruct (Hok2 eq_refl) as [?|HM]; [lia|]. rewrite HM in Hk3. lia.
Qed.

(** The limit is checked after the key has been stored, and the error keeps
    what was stored: once the table holds [maxSkippedKeys] keys, every further
    header that skips a message is answered with [ErrSkippedKeyLimit] and still
    adds one key. *)
Theorem skip_limit_overrun h data s t ck pub :
  DHr s = Some pub → length pub = 32 → CKr s = Some ck → h_DHPub h = pub →
  (N.of_nat (size (MKSkipped s)) >= maxSkippedKeys)%N →
  (Nr s < h_N h <= Nr s + maxSkippedKeys)%N → (Nr s + maxSkippedKeys < two32)%N →
  MKSkipped s !! (pub, Nr s) = None → MKSkipped s !! (pub, h_N h) = None →
  RatchetDecrypt h data (s, t) =
    ((set_Nr (Nr s + 1) (set_MK (<[(pub, Nr s) := mk_of ck]> (MKSkipped s))
       (set_CKr (Some (next_ck ck)) s)), t), Err ErrSkippedKeyLimit) ∧
  size (<[(pub, Nr s) := mk_of ck]> (MKSkipped s)) = S (size (MKSkipped s)).
Proof.
  intros HD Hl Hck Hh Hfull HN Hsm Hnew Hmiss. rewrite map_size_insert_None by done. split; [|done].
  rewrite RatchetDecrypt_same; rewrite ?Hh; try done. unfold decrypt_tail, mbnd at 1.
  unfold skipMessageKeys, mbnd at 1, get_s at 1. cbn [fst]. rewrite Hck.
  unfold u32_add at 1. rewrite u32_small by done.
  destruct (N.ltb_spec (Nr s + maxSkippedKeys) (h_N h)); [lia|].
  destruct (N.to_nat (h_N h - Nr s)) as [|k] eqn:Ek; [lia|]. cbn [skip_loop]. rm_run.
  destruct (N.ltb_spec (Nr s) (h_N h)); [|lia]. rewrite Hck, HD. cbn [default from_option id].
  change (chainKDF ck) with (mk_of ck, next_ck ck). rewrite copy_into_full by done.
  cbn [fst snd set_Nr set_MK set_CKr MKSkipped].
  rewrite map_size_insert_None by done.
  destruct (N.ltb_spec maxSkippedKeys (N.of_nat (S (size (MKSkipped s))))); [|lia].
  unfold u32_add. rewrite u32_small; [done|]. unfold is_u32, maxSkippedKeys, two32 in *. lia.
Qed.

(** Nothing is authenticated before the state moves: a header under the
    current ratchet key whose number has already been reached, with any
    ciphertext whatsoever (a replay or a forgery), advances the receiving chain
    by one message, and the genuine message that was due is afterwards opened
    with the key of its successor. *)
Theorem unauthenticated_advance h data s t ck pub pn nonce pt :
  DHr s = Some pub → length pub = 32 → CKr s = Some ck → h_DHPub h = pub →
  (h_N h <= Nr s)%N → (Nr s + 1 + maxSkippedKeys < two32)%N →
  MKSkipped s !! (pub, h_N h) = None → MKSkipped s !! (pub, Nr s) = None →
  ∃ s', RatchetDecrypt h data (s, t) = ((s', t), decryptWithNonce (mk_at ck 0) data) ∧
    s' = set_Nr (Nr s + 1) (set_CKr (Some (next_ck ck)) s) ∧
    (RatchetDecrypt (mkHeader pub (Nr s) pn) (wire ck 0 nonce pt) (s', t)).2 =
      decryptWithNonce (mk_at ck 1) (wire ck 0 nonce pt).
Proof.
  intros HD Hl Hck Hh HN Hsm Hm1 Hm2.
  assert (∀ n d s1 c1, DHr s1 = Some pub → CKr s1 = Some c1 → (n <= Nr s1)%N →
    (Nr s1 + maxSkippedKeys < two32)%N →
    decrypt_tail n d (s1, t) = ((set_Nr (Nr s1 + 1) (set_CKr (Some (next_ck c1)) s1), t),
                                decryptWithNonce (mk_of c1) d)) as Htail.
  { intros n d s1 c1 HD1 Hc1 Hn1 Hsm1. unfold decrypt_tail, mbnd at 1.
    rewrite skipMessageKeys_none by auto. rm_run. rewrite Hc1. cbn [default from_option id].
    change (chainKDF c1) with (mk_of c1, next_ck c1). cbn [fst snd].
    unfold u32_add. rewrite u32_small; [done|]. unfold is_u32, maxSkippedKeys, two32 in *. lia. }
  unfold maxSkippedKeys in *.
  eexists. split; [|split; [reflexivity|]].
  - rewrite RatchetDecrypt_same; rewrite ?Hh; try done. apply Htail; [done|done|done|]. lia.
  - rewrite RatchetDecrypt_same; try done. cbn [h_N].
    rewrite (Htail _ _ _ (next_ck ck)); [done|done|done|simpl; lia|simpl; lia].
Qed.
End Delivery.

(** ** Instances on concrete keys and messages *)

Module Example.
#[local] Existing Instance Toy.crypto.
#[local] Existing Instance Toy.laws.

Definition key (c : ascii) : bytes := replicate 32 c.
Definition nonce (c : ascii) : bytes := replicate 12 c.
Definition text (s : string) : bytes := list_ascii_of_string s.

Definition secret := key "s".
Definition nonces := [nonce "0"; nonce "1"; nonce "2"].
Definition pts := [text "zero"; text "one"; text "two"].
Definition turns :=
  [mkTurn pts nonces (key "b");
   mkTurn [text "reply"] [nonce "3"] (key "c");
   mkTurn [text "again"; text "bye"] [nonce "4"; nonce "5"] (key "d")].

(** A receiver that has a receiving chain and nothing skipped. *)
Definition receiver := mkRatchet (key "r") (Some (key "p")) (key "k") None (Some (key "c")) 0 5 0 ∅.

(** A receiver whose table is full of keys of another ratchet key. *)
Definition full := set_MK (list_to_map ((λ n, ((key "q", N.of_nat n), key "m")) <$> seq 0 1000)) receiver.

Lemma turns_ok : Forall turn_ok turns.
Proof. repeat constructor; done. Qed.

Lemma out_of_order_delivery_witness :
  ∃ a a' msgs b' t',
    InitRatchetAsAlice secret (x25519_pub (key "p")) (key "a" ++ concat nonces ++ key "b") = (concat nonces ++ key "b", Ok a) ∧
    encrypt_all pts (a, concat nonces ++ key "b") = ((a', key "b"), Ok msgs) ∧ length msgs = 3 ∧
    decrypt_all (omap (λ j, msgs !! j) [2; 0]) (InitRatchetAsBob secret (key "p"), key "b") =
      ((b', t'), Ok [text "two"; text "zero"]).
Proof.
  refine (out_of_order_delivery secret (key "p") (key "a") (key "b") pts nonces [2; 0] _ _ _ _ _ _ _ _);
    [done|done|done|repeat constructor|done|done| |].
  - apply (bool_decide_unpack (NoDup [2; 0])). by vm_compute.
  - repeat constructor.
Defined.

Lemma double_ratchet_conversation_witness :
  ∃ a, InitRatchetAsAlice secret (x25519_pub (key "p")) (key "a" ++ concat (turn_tape <$> turns) ++ [])
         = (concat (turn_tape <$> turns) ++ [], Ok a) ∧
    converse (t_pts <$> turns) a (InitRatchetAsBob secret (key "p")) (concat (turn_tape <$> turns) ++ [])
      = Ok [pts; [text "reply"]; [text "again"; text "bye"]].
Proof.
  refine (double_ratchet_conversation secret (key "p") (key "a") turns [] _ _ _ _);
    [done|done|apply turns_ok|]. repeat split; discriminate.
Defined.

Lemma RatchetDecrypt_bounded_witness :
  (RatchetDecrypt (mkHeader (key "p") 7 0) [] (full, [])).2 ≠ Panic ∧
  (keys_of (RatchetDecrypt (mkHeader (key "p") 7 0) [] (full, [])).1
    ≤ Nat.max 1001 (size (MKSkipped full) + 1))%nat.
Proof.
  destruct (RatchetDecrypt_bounded (mkHeader (key "p") 7 0) [] full [] _ _ eq_refl eq_refl (surjective_pairing _)) as [Hp Hk].
  split; [|exact Hk]. intros E. discriminate (Hp E).
Defined.

Lemma full_size : size (MKSkipped full) = 1000.
Proof. by vm_compute. Qed.

Lemma skip_limit_overrun_witness :
  RatchetDecrypt (mkHeader (key "p") 7 0) [] (full, []) =
    ((set_Nr (Nr full + 1) (set_MK (<[(key "p", Nr full) := mk_of (key "c")]> (MKSkipped full))
       (set_CKr (Some (next_ck (key "c"))) full)), []), Err ErrSkippedKeyLimit) ∧
  size (<[(key "p", Nr full) := mk_of (key "c")]> (MKSkipped full)) = S (size (MKSkipped full)).
Proof.
  apply (skip_limit_overrun (mkHeader (key "p") 7 0) [] full [] (key "c") (key "p"));
    [reflexivity..|by rewrite full_size|done|done|by vm_compute|by vm_compute].
Defined.

Lemma unauthenticated_advance_witness :
  ∃ s', RatchetDecrypt (mkHeader (key "p") 5 0) (text "forged message") (receiver, []) =
          ((s', []), Err ErrInvalidMessage) ∧
    s' = set_Nr 6 (set_CKr (Some (next_ck (key "c"))) receiver) ∧
    (RatchetDecrypt (mkHeader (key "p") 5 0) (wire (key "c") 0 (nonce "n") (text "hi")) (s', [])).2 =
      Err ErrInvalidMessage.
Proof.
  refine (unauthenticated_advance (mkHeader (key "p") 5 0) (text "forged message") receiver []
           (key "c") (key "p") 0 (nonce "n") (text "hi") _ _ _ _ _ _ _ _); done.
Defined.
End Example.
