(* ===== verification/OmemoCodec.v ===== *)
(** * OMEMO: binary encodings
    (src/crypto/omemo/ratchet_header.go, ratchet.go, session.go)

    [MarshalBinary] and [UnmarshalBinary] of ratchet headers, ratchet states and
    sessions.  Decoders read with [bytes.Reader], whose reads may be short, into
    a receiver that keeps what was decoded before an error.  The theorems: what
    is encoded is decoded, for every iteration order of the skipped-key map, and
    every state the ratchet operations reach is of the shape the encoding
    supports. *)

From Stdlib Require Import Ascii String NArith ZArith.
From S2P Require Import Prelude Bytes OmemoCrypto OmemoRatchet OmemoDelivery.

Open Scope list_scope.
Open Scope go_scope.

(** ** Headers *)

Definition ratchetHeaderSize : nat := 40.

Definition Header_MarshalBinary (h : RatchetHeader) : res omemo_error bytes :=
  if bool_decide (length (h_DHPub h) ≠ 32) then Err ErrInvalidKeyLength
  else Ok (h_DHPub h ++ be32 (h_N h) ++ be32 (h_PN h)).

Definition Header_UnmarshalBinary (data : bytes) : res omemo_error RatchetHeader :=
  if bool_decide (length data ≠ ratchetHeaderSize) then Err ErrInvalidMessage
  else Ok (mkHeader (take 32 data) (read32 (drop 32 data)) (read32 (drop 36 data))).

(** ** Ratchet states *)

Definition writeOptionalKey (key : option bytes) : bytes :=
  match key with
  | Some k => byte_of 1 :: k
  | None => [byte_of 0]
  end.

Definition skipped_entry (e : skippedKey * bytes) : bytes :=
  e.1.1 ++ be32 e.1.2 ++ e.2.

(** [order] is the order in which the map iteration visits the skipped keys; a
    nil [DHs] (here the empty key) is dereferenced. *)
Definition Ratchet_MarshalBinary (order : list (skippedKey * bytes)) (s : RatchetState)
  : res omemo_error bytes :=
  match DHs s with
  | [] => Panic
  | _ =>
      Ok (DHs s ++ writeOptionalKey (DHr s) ++ RK s ++
          writeOptionalKey (CKs s) ++ writeOptionalKey (CKr s) ++
          be32 (Ns s) ++ be32 (Nr s) ++ be32 (PN s) ++
          be32 (N.of_nat (size (MKSkipped s))) ++ concat (skipped_entry <$> order))
  end.

(** The second component of the state is the [bytes.Reader]. *)

(** [r.Read(buf)], any error being wrapped in [ErrInvalidMessage]. *)
Definition rd (buf : bytes) : RM bytes :=
  λ w, match read_buf buf w.2 with
       | Some (b, r) => ((w.1, r), Ok b)
       | None => (w, Err ErrInvalidMessage)
       end.

Definition rd_byte : RM ascii :=
  λ w, match read_byte w.2 with
       | Some (b, r) => ((w.1, r), Ok b)
       | None => (w, Err ErrInvalidMessage)
       end.

Definition readOptionalKey : RM (option bytes) :=
  do flag <- rd_byte;
  if bool_decide (flag = byte_of 0) then mok None
  else do key <- rd (zeros 32); mok (Some key).

(** The [for range count] loop over the skipped keys, with the four-byte buffer
    [b] it shares with the counters.  Every round reads at least one byte, so
    the fuel [S (length r)] never runs out. *)
Fixpoint read_skipped (fuel : nat) (count : N) (b : bytes) : RM unit :=
  if (count =? 0)%N then mok tt
  else match fuel with
       | 0 => mpanic
       | S f =>
           do dhPub <- rd (zeros 32);
           do b <- rd b;
           do mk <- rd (zeros 32);
           do_ upd (λ s, set_MK (<[(dhPub, read32 b) := mk]> (MKSkipped s)) s);
           read_skipped f (count - 1) b
       end.

Definition Ratchet_UnmarshalBinary : RM unit :=
  do dhsBytes <- rd (zeros 32);
  do dhs <- mlift (NewPrivateKey dhsBytes);
  do_ upd (set_DHs dhs);
  do flag <- rd_byte;
  do_ (if bool_decide (flag = byte_of 1)
       then (do dhr <- rd (zeros 32); upd (set_DHr (Some dhr)))
       else mok tt);
  do rk <- rd (zeros 32);
  do_ upd (set_RK rk);
  do cks <- readOptionalKey;
  do_ upd (set_CKs cks);
  do ckr <- readOptionalKey;
  do_ upd (set_CKr ckr);
  do b <- rd (zeros 4);
  do_ upd (set_Ns (read32 b));
  do b <- rd b;
  do_ upd (set_Nr (read32 b));
  do b <- rd b;
  do_ upd (set_PN (read32 b));
  do b <- rd b;
  do_ upd (set_MK ∅);
  λ w, read_skipped (S (length w.2)) (read32 b) b w.

(** [&RatchetState{}]. *)
Definition zero_ratchet : RatchetState := mkRatchet [] None [] None None 0 0 0 ∅.

(** ** Sessions *)

Record PendingPreKey := mkPending {
  PreKeyID : option N;
  p_SignedPreKeyID : N;
  EphemeralPubKey : bytes
}.

Record Session := mkSession {
  Ratchet : RatchetState;
  RemoteIdentity : bytes;
  s_PendingPreKey : option PendingPreKey
}.

Definition Session_MarshalBinary (order : list (skippedKey * bytes)) (s : Session)
  : res omemo_error bytes :=
  try ratchetData <- Ratchet_MarshalBinary order (Ratchet s);
  Ok (RemoteIdentity s ++
      match s_PendingPreKey s with
      | Some ppk =>
          byte_of 1 ::
          match PreKeyID ppk with
          | Some id => byte_of 1 :: be32 id
          | None => [byte_of 0]
          end ++ be32 (p_SignedPreKeyID ppk) ++ EphemeralPubKey ppk
      | None => [byte_of 0]
      end ++ ratchetData).

(** [data[pos]]. *)
Definition index (data : bytes) (pos : nat) : res omemo_error ascii :=
  match data !! pos with Some b => Ok b | None => Panic end.

(** The pending pre-key, from position [pos]; the result has the new position. *)
Definition read_pending (data : bytes) (pos : nat) : res omemo_error (PendingPreKey * nat) :=
  try preKeyFlag <- index data pos;
  let pos := S pos in
  try (id, pos) <-
    (if bool_decide (preKeyFlag = byte_of 1) then
       if (length data <? pos + 4)%nat then Err ErrInvalidMessage
       else Ok (Some (read32 (drop pos data)), pos + 4)
     else Ok (None, pos));
  if (length data <? pos + 4)%nat then Err ErrInvalidMessage else
  let spk := read32 (drop pos data) in
  let pos := pos + 4 in
  if (length data <? pos + 32)%nat then Err ErrInvalidMessage else
  Ok (mkPending id spk (take 32 (drop pos data)), pos + 32).

(** On a fresh [&Session{}], the way every caller uses it. *)
Definition Session_UnmarshalBinary (data : bytes) : res omemo_error Session :=
  if (length data <? 33)%nat then Err ErrInvalidMessage else
  let remote := take 32 data in
  try pendingFlag <- index data 32;
  try (pending, pos) <-
    (if bool_decide (pendingFlag = byte_of 1)
     then (try (ppk, pos) <- read_pending data 33; Ok (Some ppk, pos))
     else Ok (None, 33));
  match Ratchet_UnmarshalBinary (zero_ratchet, drop pos data) with
  | ((r, _), Ok _) => Ok (mkSession r remote pending)
  | (_, Err e) => Err e
  | (_, Panic) => Panic
  end.

(** ** Well-formed states *)

Definition opt32 (o : option bytes) : Prop := match o with Some k => key32 k | None => True end.

Definition entry_ok (k : skippedKey) (mk : bytes) : Prop := key32 k.1 ∧ is_u32 k.2 ∧ key32 mk.

(** [lost]: a failed key generation has left the ratchet key nil. *)
Record ratchet_wf_if (lost : bool) (s : RatchetState) : Prop := {
  wf_DHs : if lost then DHs s = [] else key32 (DHs s);
  wf_DHr : opt32 (DHr s);
  wf_RK : key32 (RK s);
  wf_CKs : opt32 (CKs s);
  wf_CKr : opt32 (CKr s);
  wf_Ns : is_u32 (Ns s);
  wf_Nr : is_u32 (Nr s);
  wf_PN : is_u32 (PN s);
  wf_skipped : map_Forall entry_ok (MKSkipped s)
}.
Arguments wf_DHs {_} _ _.
Arguments wf_DHr {_} _ _.
Arguments wf_RK {_} _ _.
Arguments wf_CKs {_} _ _.
Arguments wf_CKr {_} _ _.
Arguments wf_Ns {_} _ _.
Arguments wf_Nr {_} _ _.
Arguments wf_PN {_} _ _.
Arguments wf_skipped {_} _ _.
Notation ratchet_wf := (ratchet_wf_if false).

Record session_wf (s : Session) : Prop := {
  wf_ratchet : ratchet_wf (Ratchet s);
  wf_size : (N.of_nat (size (MKSkipped (Ratchet s))) < two32)%N;
  wf_remote : key32 (RemoteIdentity s);
  wf_pending : match s_PendingPreKey s with
               | Some p => match PreKeyID p with Some i => is_u32 i | None => True end ∧
                           is_u32 (p_SignedPreKeyID p) ∧ key32 (EphemeralPubKey p)
               | None => True
               end
}.

(** ** Reading what was written *)

Lemma rd_app buf src s r :
  length src = length buf → src ≠ [] → rd buf (s, src ++ r) = ((s, r), Ok src).
Proof. intros Hl Hne. unfold rd. simpl. by rewrite read_buf_exact. Qed.

Lemma rd32 k s r : key32 k → rd (zeros 32) (s, k ++ r) = ((s, r), Ok k).
Proof. intros Hk. apply rd_app; [done|]. by intros ->. Qed.

Lemma rd_u32 v s r buf : length buf = 4 → rd buf (s, be32 v ++ r) = ((s, r), Ok (be32 v)).
Proof. intros Hb. by apply rd_app. Qed.

Lemma readOptionalKey_app o s r :
  opt32 o → readOptionalKey (s, writeOptionalKey o ++ r) = ((s, r), Ok o).
Proof.
  intros Ho. destruct o as [k|]; [|done]. simpl in Ho. unfold readOptionalKey, mbnd at 1.
  cbn [writeOptionalKey app rd_byte read_byte fst snd].
  rewrite bool_decide_false by done. unfold mbnd. by rewrite rd32.
Qed.

Lemma read32_be32' v : is_u32 v → read32 (be32 v) = v.
Proof. intros Hv. rewrite <- (app_nil_r (be32 v)). by apply read32_be32. Qed.

(** Inserting entries one after the other. *)
Definition insert_all (l : list (skippedKey * bytes)) (m : gmap skippedKey bytes) :=
  fold_left (λ m e, <[e.1 := e.2]> m) l m.

Lemma insert_all_union l m : NoDup l.*1 → insert_all l m = list_to_map l ∪ m.
Proof.
  revert m. induction l as [|[k v] l IH]; intros m Hnd; cbn.
  - by rewrite (left_id_L ∅ (∪)).
  - apply NoDup_cons in Hnd as [Hk Hnd]. fold (insert_all l (<[k:=v]> m)). rewrite IH by done.
    rewrite <- insert_union_l. rewrite insert_union_r; [done|]. by apply not_elem_of_list_to_map_1.
Qed.

Lemma read_skipped_app l fuel b s r :
  Forall (λ e, entry_ok e.1 e.2) l → length b = 4 → length l ≤ fuel →
  read_skipped fuel (N.of_nat (length l)) b (s, concat (skipped_entry <$> l) ++ r) =
    ((set_MK (insert_all l (MKSkipped s)) s, r), Ok tt).
Proof.
  intros Hl. revert fuel b s. induction Hl as [|[[p n] mk] l (Hp & Hn & Hmk) _ IH];
    intros fuel b s Hb Hf.
  { by destruct fuel, s. }
  destruct fuel as [|fuel]; [simpl in Hf; lia|]. cbn [fst snd] in Hp, Hn, Hmk.
  cbn [read_skipped length]. destruct (N.eqb_spec (N.of_nat (S (length l))) 0); [lia|].
  cbn [fmap list_fmap concat]. unfold skipped_entry at 1. cbn [fst snd]. rewrite <- !app_assoc.
  unfold mbnd at 1. rewrite rd32 by done. unfold mbnd at 1. rewrite rd_u32 by done.
  unfold mbnd at 1. rewrite rd32 by done. unfold mbnd at 1, upd at 1. cbn [fst snd].
  replace (N.of_nat (S (length l)) - 1)%N with (N.of_nat (length l)) by lia.
  rewrite IH by (done || (simpl in Hf; lia)).
  by rewrite (read32_be32' n).
Qed.

Lemma skipped_entries_length l r :
  (length l ≤ length (concat (skipped_entry <$> l) ++ r))%nat.
Proof.
  rewrite length_app. induction l as [|[[p n] mk] l IH]; [simpl; lia|].
  cbn [fmap list_fmap concat length]. unfold skipped_entry at 1.
  rewrite !length_app, length_be32. lia.
Qed.

(** [UnmarshalBinary] of an encoded state, followed by anything. *)
Lemma Ratchet_Unmarshal_Marshal s order data rest :
  ratchet_wf s → (N.of_nat (size (MKSkipped s)) < two32)%N → iter_order (MKSkipped s) order →
  Ratchet_MarshalBinary order s = Ok data →
  Ratchet_UnmarshalBinary (zero_ratchet, data ++ rest) = ((s, rest), Ok tt).
Proof.
  intros W Hsz Hord Hm. unfold Ratchet_MarshalBinary in Hm.
  pose proof (wf_DHs _ W) as HDs. unfold key32 in HDs.
  destruct (DHs s) eqn:ED; [done|]. rewrite <- ED in *. 
  match type of Hm with Ok ?x = _ => assert (data = x) as -> by congruence end. clear Hm.
  rewrite <- !app_assoc.
  unfold Ratchet_UnmarshalBinary. unfold mbnd at 1. rewrite rd32 by done.
  unfold mbnd at 1, mlift at 1, NewPrivateKey. rewrite bool_decide_true by done.
  unfold mbnd at 1, upd at 1. cbn [fst snd].
  set (rest1 := RK s ++ _).
  assert (∀ k, (do flag <- rd_byte;
     do_ (if bool_decide (flag = byte_of 1)
       then (do dhr <- rd (zeros 32); upd (set_DHr (Some dhr))) else mok tt); k)
     (set_DHs (DHs s) zero_ratchet, writeOptionalKey (DHr s) ++ rest1) =
     k (set_DHr (DHr s) (set_DHs (DHs s) zero_ratchet), rest1) :> (_ * res omemo_error unit)) as ->.
  { intros k. pose proof (wf_DHr _ W) as HDr. destruct (DHr s) as [d|]; [|done].
    unfold mbnd at 1. cbn [writeOptionalKey app rd_byte read_byte fst snd].
    rewrite bool_decide_true by done. unfold mbnd at 1. unfold mbnd at 1. by rewrite rd32. }
  unfold rest1. unfold mbnd at 1. rewrite rd32 by apply W. unfold mbnd at 1, upd at 1. cbn [fst snd].
  do 2 (unfold mbnd at 1; rewrite readOptionalKey_app by apply W;
        unfold mbnd at 1, upd at 1; cbn [fst snd]).
  do 3 (unfold mbnd at 1; rewrite rd_u32 by done; rewrite read32_be32' by apply W;
        unfold mbnd at 1, upd at 1; cbn [fst snd]).
  unfold mbnd at 1. rewrite rd_u32, read32_be32' by done. unfold mbnd at 1, upd at 1. cbn [fst snd].
  pose proof (iter_order_length _ _ Hord) as Hlen. rewrite <- Hlen.
  rewrite read_skipped_app; [| |done|pose proof (skipped_entries_length order rest); lia].
  - rewrite insert_all_union by (by eapply iter_order_NoDup_fst).
    rewrite (iter_order_list_to_map _ _ Hord). simpl. rewrite (right_id_L ∅ (∪)). by destruct s.
  - apply Forall_forall. intros [k v] Hin. apply (wf_skipped _ W).
    by apply (iter_order_lookup _ _ _ _ Hord).
Qed.

(** ** Decoding is total *)

Lemma nopanic_rd buf : nopanic (rd buf).
Proof. intros w. unfold rd. by destruct (read_buf buf w.2) as [[? ?]|]. Qed.
Lemma nopanic_rd_byte : nopanic rd_byte.
Proof. intros w. unfold rd_byte. by destruct (read_byte w.2) as [[? ?]|]. Qed.
Lemma nopanic_upd f : nopanic (upd f).
Proof. done. Qed.
#[local] Hint Resolve nopanic_rd nopanic_rd_byte nopanic_upd : go.

Lemma rd_consumes buf w w' b :
  rd buf w = (w', Ok b) → buf ≠ [] → w'.1 = w.1 ∧ (length w'.2 < length w.2)%nat.
Proof.
  unfold rd, read_buf. destruct w as [s [|c r]]; simpl; intros ? Hb; simplify_eq. simpl.
  split; [done|]. rewrite length_drop. destruct buf; simpl; [done|lia].
Qed.

Lemma rd_shrinks buf w w' b : rd buf w = (w', Ok b) → (length w'.2 ≤ length w.2)%nat.
Proof.
  unfold rd, read_buf. destruct w as [s [|c r]]; simpl; intros ?; simplify_eq. simpl.
  rewrite length_drop. simpl. lia.
Qed.

Lemma read_skipped_total fuel count b w :
  (length w.2 < fuel)%nat → (read_skipped fuel count b w).2 ≠ Panic.
Proof.
  revert count b w. induction fuel as [|fuel IH]; intros count b w Hf; [lia|].
  cbn [read_skipped]. destruct (count =? 0)%N; [done|].
  unfold mbnd at 1. pose proof (nopanic_rd (zeros 32) w).
  destruct (rd (zeros 32) w) as [w1 [d|e|]] eqn:E1; [|done|done].
  apply rd_consumes in E1 as [_ E1]; [|done].
  unfold mbnd at 1. pose proof (nopanic_rd b w1).
  destruct (rd b w1) as [w2 [b'|e|]] eqn:E2; [|done|done]. apply rd_shrinks in E2.
  unfold mbnd at 1. pose proof (nopanic_rd (zeros 32) w2).
  destruct (rd (zeros 32) w2) as [w3 [mk|e|]] eqn:E3; [|done|done]. apply rd_shrinks in E3.
  unfold mbnd at 1, upd at 1. apply IH. simpl. lia.
Qed.

Lemma Ratchet_UnmarshalBinary_total : nopanic Ratchet_UnmarshalBinary.
Proof.
  unfold Ratchet_UnmarshalBinary, readOptionalKey.
  repeat first
    [ apply nopanic_bind; [|intros ?]
    | progress auto with go
    | case_match
    | apply nopanic_lift; unfold NewPrivateKey ]; try done.
  intros w. apply read_skipped_total. lia.
Qed.

(** ** The guarantees *)

Lemma Header_decode_encode h hb :
  Header_MarshalBinary h = Ok hb → is_u32 (h_N h) → is_u32 (h_PN h) →
  length hb = ratchetHeaderSize ∧ Header_UnmarshalBinary hb = Ok h.
Proof.
  unfold Header_MarshalBinary, Header_UnmarshalBinary, ratchetHeaderSize.
  destruct h as [d n pn]; cbn [h_DHPub h_N h_PN]. case_bool_decide as Hd; [done|].
  intros E Hn Hp. assert (length d = 32) as Hl by lia.
  match type of E with Ok ?x = _ => assert (hb = x) as -> by congruence end. clear E.
  assert (length (d ++ be32 n ++ be32 pn) = 40) as Hlen by (rewrite !length_app, !length_be32; lia).
  split; [done|]. rewrite bool_decide_false by auto.
  rewrite take_app_length', (drop_app_length' d), read32_be32 by done. do 2 f_equal.
  rewrite app_assoc, drop_app_length' by (rewrite length_app, length_be32; lia).
  by rewrite read32_be32'.
Qed.

Lemma Header_encode_decode data :
  length data = ratchetHeaderSize →
  res_bind (Header_UnmarshalBinary data) Header_MarshalBinary = Ok data.
Proof.
  unfold Header_MarshalBinary, Header_UnmarshalBinary, ratchetHeaderSize.
  intros Hl. rewrite bool_decide_false by auto. cbn [res_bind h_DHPub h_N h_PN].
  rewrite bool_decide_false by (rewrite length_take; lia). f_equal.
  assert (∀ n, n + 4 ≤ 40 → be32 (read32 (drop n data)) = take 4 (drop n data)) as Hr.
  { intros n Hn. rewrite <- (be32_read32 (take 4 (drop n data))) by (rewrite length_take, length_drop; lia).
    f_equal. destruct (drop n data) as [|a [|b [|c [|d l]]]] eqn:E; try done;
      apply (f_equal length) in E; rewrite length_drop in E; simpl in E; lia. }
  rewrite !Hr by lia. change 36 with (32 + 4) at 1. rewrite <- drop_drop.
  rewrite (take_ge (drop 4 _)) by (rewrite !length_drop; lia). by rewrite !take_drop.
Qed.

(** Ratchet headers and 40-byte strings are in bijection: [UnmarshalBinary]
    inverts [MarshalBinary] on every header with a 32-byte key and 32-bit
    counters, and every 40-byte string is the encoding of the header it decodes
    to; any other length is refused. *)
Theorem Header_roundtrip :
  (∀ h, key32 (h_DHPub h) → is_u32 (h_N h) → is_u32 (h_PN h) →
     res_bind (Header_MarshalBinary h) Header_UnmarshalBinary = Ok h) ∧
  (∀ data, length data = ratchetHeaderSize →
     res_bind (Header_UnmarshalBinary data) Header_MarshalBinary = Ok data) ∧
  (∀ data, length data ≠ ratchetHeaderSize → Header_UnmarshalBinary data = Err ErrInvalidMessage).
Proof.
  split; [|split].
  - intros h Hd Hn Hp. destruct (Header_MarshalBinary h) as [hb|e|] eqn:E.
    + by apply Header_decode_encode in E as [_ ?].
    + unfold Header_MarshalBinary in E. unfold key32 in Hd. case_bool_decide; [lia|done].
    + unfold Header_MarshalBinary in E. by case_bool_decide.
  - apply Header_encode_decode.
  - intros data Hl. unfold Header_UnmarshalBinary. by rewrite bool_decide_true.
Qed.

Lemma read_pending_encoded remote ppk rest pk :
  length remote = 32 → key32 (EphemeralPubKey ppk) → is_u32 (p_SignedPreKeyID ppk) →
  match PreKeyID ppk with Some i => is_u32 i | None => True end →
  pk = match PreKeyID ppk with Some id => byte_of 1 :: be32 id | None => [byte_of 0] end →
  read_pending (remote ++ byte_of 1 :: (pk ++ be32 (p_SignedPreKeyID ppk) ++ EphemeralPubKey ppk) ++ rest) 33 =
    Ok (ppk, 69 + length pk).
Proof.
  intros Hr He Hs Hi Hpk. unfold key32 in He. destruct ppk as [id spk eph]; cbn [PreKeyID p_SignedPreKeyID EphemeralPubKey] in *.
  set (data := remote ++ _). unfold read_pending, index.
  assert (∀ n, data !! (n + 33) = ((pk ++ be32 spk ++ eph) ++ rest) !! n) as Hat.
  { intros n. unfold data. rewrite lookup_app_r by lia. replace (n + 33 - length remote) with (S n) by lia. done. }
  assert (∀ l m, 33 + length l = m → ∀ r, (pk ++ be32 spk ++ eph) ++ rest = l ++ r → drop m data = r) as Hdrop.
  { intros l m Hm r Heq. unfold data. rewrite Heq.
    replace m with (length (remote ++ [byte_of 1] ++ l)) by (rewrite !length_app; simpl; lia).
    replace (remote ++ byte_of 1 :: l ++ r) with ((remote ++ [byte_of 1] ++ l) ++ r) by (by rewrite <- !app_assoc).
    apply drop_app_length. }
  assert (length data = 69 + length pk + length rest) as Hlen.
  { unfold data. rewrite length_app. cbn [length]. rewrite !length_app, length_be32. lia. }
  rewrite (Hat 0 : data !! 33 = _). destruct id as [i|]; subst pk; cbn [app lookup list_lookup res_bind];
    rewrite ?(bool_decide_true (byte_of 1 = byte_of 1)), ?(bool_decide_false (byte_of 0 = byte_of 1)) by done;
    cbn [length] in Hlen; rewrite ?length_be32 in Hlen; cbn [res_bind Nat.add].
  - rewrite !(proj2 (Nat.ltb_ge _ _)) by lia. cbn [res_bind Nat.add].
    rewrite !(proj2 (Nat.ltb_ge _ _)) by lia.
    rewrite (Hdrop [byte_of 1] 34 eq_refl (be32 i ++ be32 spk ++ eph ++ rest)) by (by rewrite <- !app_assoc).
    rewrite (Hdrop (byte_of 1 :: be32 i) 38 eq_refl (be32 spk ++ eph ++ rest)) by (by rewrite <- !app_assoc).
    rewrite (Hdrop (byte_of 1 :: be32 i ++ be32 spk) 42 eq_refl (eph ++ rest)) by (cbn; by rewrite <- !app_assoc).
    rewrite !read32_be32 by done. by rewrite take_app_length'.
  - rewrite !(proj2 (Nat.ltb_ge _ _)) by lia.
    rewrite (Hdrop [byte_of 0] 34 eq_refl (be32 spk ++ eph ++ rest)) by (by rewrite <- !app_assoc).
    rewrite (Hdrop (byte_of 0 :: be32 spk) 38 eq_refl (eph ++ rest)) by (by rewrite <- !app_assoc).
    rewrite !read32_be32 by done. by rewrite take_app_length'.
Qed.

Lemma Session_decode_encode s order :
  session_wf s → iter_order (MKSkipped (Ratchet s)) order →
  ∃ data, Session_MarshalBinary order s = Ok data ∧ Session_UnmarshalBinary data = Ok s.
Proof.
  intros W Hord. unfold Session_MarshalBinary.
  destruct (Ratchet_MarshalBinary order (Ratchet s)) as [rd|e|] eqn:Em;
    [|by unfold Ratchet_MarshalBinary in Em; destruct (DHs (Ratchet s))
     |unfold Ratchet_MarshalBinary in Em; pose proof (wf_DHs _ (wf_ratchet _ W)) as Hd;
      by destruct (DHs (Ratchet s))].
  cbn [res_bind]. eexists. split; [reflexivity|].
  pose proof (λ rest, Ratchet_Unmarshal_Marshal _ _ _ rest (wf_ratchet _ W) (wf_size _ W) Hord Em) as Hr.
  specialize (Hr []). rewrite app_nil_r in Hr.
  pose proof (wf_remote _ W) as Hrem. pose proof (wf_pending _ W) as Hpend. unfold key32 in Hrem.
  destruct s as [r remote pend]; cbn [Ratchet RemoteIdentity s_PendingPreKey] in *.
  unfold Session_UnmarshalBinary, index.
  destruct pend as [ppk|]; cbn [app].
  - destruct Hpend as (Hi & Hs & He). set (pk := match PreKeyID ppk with Some _ => _ | None => _ end).
    set (data := remote ++ _).
    assert (length data = 69 + length pk + length rd) as Hlen.
    { unfold data, key32 in *. rewrite length_app. cbn [length]. rewrite !length_app, length_be32. lia. }
    rewrite (proj2 (Nat.ltb_ge _ _)) by lia.
    replace (data !! 32) with (Some (byte_of 1)) by (unfold data; by rewrite lookup_app_r, Hrem by lia).
    cbn [res_bind]. rewrite bool_decide_true by done.
    unfold data. rewrite (read_pending_encoded remote ppk rd pk) by done. fold data. cbn [res_bind].
    replace (drop (69 + length pk) data) with rd; cycle 1.
    { unfold data, key32 in *. symmetry.
      replace (remote ++ byte_of 1 :: (pk ++ be32 (p_SignedPreKeyID ppk) ++ EphemeralPubKey ppk) ++ rd)
        with ((remote ++ byte_of 1 :: pk ++ be32 (p_SignedPreKeyID ppk) ++ EphemeralPubKey ppk) ++ rd)
        by (by rewrite <- (app_assoc remote)).
      apply drop_app_length'. rewrite length_app. cbn [length]. rewrite !length_app, length_be32. lia. }
    rewrite Hr. unfold data. by rewrite take_app_length'.
  - rewrite (proj2 (Nat.ltb_ge _ _)) by (rewrite length_app; simpl; lia).
    rewrite lookup_app_r, Hrem by lia. cbn [Nat.sub lookup list_lookup res_bind].
    rewrite bool_decide_false by done. cbn [res_bind].
    replace (remote ++ byte_of 0 :: rd) with ((remote ++ [byte_of 0]) ++ rd) at 1 by (by rewrite <- app_assoc).
    rewrite drop_app_length' by (rewrite length_app; simpl; lia). rewrite Hr.
    by rewrite take_app_length'.
Qed.


(** A stored session is restored: for every well-formed session, every
    iteration order of its skipped-key map and whatever the encoding is,
    [UnmarshalBinary] of [MarshalBinary] gives the session back. *)
Theorem Session_roundtrip s order :
  session_wf s → iter_order (MKSkipped (Ratchet s)) order →
  res_bind (Session_MarshalBinary order s) Session_UnmarshalBinary = Ok s.
Proof. intros W Hord. by destruct (Session_decode_encode s order W Hord) as (data & -> & ?). Qed.

Lemma read_pending_panic data pos :
  read_pending data pos = Panic ↔ (length data ≤ pos)%nat.
Proof.
  unfold read_pending, index. destruct (data !! pos) as [b|] eqn:E; cbn [res_bind].
  - apply lookup_lt_Some in E. split; [|lia].
    repeat case_match; simplify_eq/=; repeat case_match; done.
  - apply lookup_ge_None in E. done.
Qed.

(** [Session.UnmarshalBinary] reads the pre-key flag without checking that it
    is there: it panics exactly on the 33-byte inputs whose pending flag is 1,
    and returns normally on every other input. *)
Theorem Session_UnmarshalBinary_panics data :
  Session_UnmarshalBinary data = Panic ↔ length data = 33 ∧ data !! 32 = Some (byte_of 1).
Proof.
  unfold Session_UnmarshalBinary. destruct (Nat.ltb_spec (length data) 33) as [Hs|Hl].
  { split; [done|lia]. }
  unfold index. destruct (lookup_lt_is_Some_2 data 32) as [b Hb]; [lia|]. rewrite Hb. cbn [res_bind].
  assert (∀ r remote p, match Ratchet_UnmarshalBinary r with
    | ((r0, _), Ok _) => Ok (mkSession r0 remote p) | (_, Err e) => Err e | (_, Panic) => Panic end
    ≠ Panic) as Hnp.
  { intros r remote p. pose proof (Ratchet_UnmarshalBinary_total r).
    by destruct (Ratchet_UnmarshalBinary r) as [[? ?] [?|?|]]. }
  case_bool_decide as Hb1; [|cbn [res_bind]; split; [by intros ?%Hnp|naive_solver]].
  subst b. pose proof (read_pending_panic data 33) as Hp.
  destruct (read_pending data 33) as [[ppk pos]|e|]; cbn [res_bind].
  - split; [by intros ?%Hnp|]. intros [Heq _]. destruct Hp as [_ Hp]. by specialize (Hp ltac:(lia)).
  - split; [done|]. intros [Heq _]. destruct Hp as [_ Hp]. by specialize (Hp ltac:(lia)).
  - split; [|done]. split; [|done]. destruct Hp as [Hp _]. specialize (Hp eq_refl). lia.
Qed.

(** ** The operations keep states well formed *)

Section Wellformed.
Context `{Crypto} `{!CryptoLaws}.

(** The invariant on the pair of ratchet and tape. *)
Definition ratchet_ok (s : RatchetState) : Prop := ∃ lost, ratchet_wf_if lost s.
Definition wfw (w : RatchetState * bytes) : Prop := ratchet_ok w.1.

Lemma ratchet_ok_wf s : ratchet_ok s → DHs s ≠ [] → ratchet_wf s.
Proof. intros [[] W] Hd; [|done]. by destruct Hd; apply W. Qed.

Lemma safe_get_s : safe wfw get_s ratchet_ok.
Proof. intros w Hw. split; [done|]. by intros a [= <-]. Qed.

Lemma safe_upd f : (∀ lost s, ratchet_wf_if lost s → ratchet_wf_if lost (f s)) → safe wfw (upd f) (λ _, True).
Proof. intros Hf w [lost Hw]. split; [exists lost; by apply Hf|done]. Qed.

Lemma safe_tape {A} (f : bytes → bytes * res omemo_error A) Q :
  (∀ t t' a, f t = (t', Ok a) → Q a) → safe wfw (with_tape f) Q.
Proof.
  intros Hf [s t] Hw. unfold with_tape. simpl. destruct (f t) as [t' r] eqn:E.
  split; [done|]. simpl. intros a ->. eauto.
Qed.

Lemma chainKDF_safe ck mk nck : chainKDF ck = (mk, nck) → key32 mk ∧ key32 nck.
Proof. intros E. pose proof (chainKDF_key32 ck) as Hk. by rewrite E in Hk. Qed.

Lemma rootKDF_safe rk dh p : rootKDF rk dh = Ok p → key32 p.1 ∧ key32 p.2.
Proof. intros E. destruct (rootKDF_ok rk dh) as (rk' & ck & E' & ? & ?). rewrite E' in E. by simplify_eq. Qed.

Lemma generate_safe t t' k : GenerateX25519KeyPair t = (t', Ok k) → key32 k.
Proof.
  unfold GenerateX25519KeyPair. destruct (rand_read 32 t) as [[k' t1]|] eqn:E; intros ?; simplify_eq.
  by apply rand_read_Some in E as [? _].
Qed.

Lemma safe_generate_DHs : safe wfw generate_DHs (λ _, True).
Proof.
  intros [s t] [lost []]. split; [|done]. unfold generate_DHs. cbn [snd].
  destruct (GenerateX25519KeyPair t) as [t' [k|e|]] eqn:E; [apply generate_safe in E; by exists false|by exists true|by exists lost].
Qed.

Ltac wf_upd := apply safe_upd; intros ? ? []; split; simpl; auto with go.

Lemma skip_loop_safe fuel until : safe wfw (skip_loop fuel until) (λ _, True).
Proof.
  induction fuel as [|fuel IH]; cbn [skip_loop];
    (eapply safe_bind; [apply safe_get_s|intros s W]);
    (destruct (Nr s <? until)%N; [|auto with go]); [auto with go|].
  destruct (chainKDF _) as [mk nck] eqn:E. apply chainKDF_safe in E as [Hmk Hck].
  eapply safe_bind with (Q := λ _, True).
  - wf_upd; try apply u32_is_u32. apply map_Forall_insert_2; [|done].
    split; [apply length_copy_into|]. split; [by destruct W as [? []]|done].
  - intros _ _. eapply safe_bind; [apply safe_get_s|]. intros s' _. case_match; auto with go.
Qed.

Lemma skipMessageKeys_safe until : safe wfw (skipMessageKeys until) (λ _, True).
Proof.
  unfold skipMessageKeys. eapply safe_bind; [apply safe_get_s|]. intros s _.
  destruct (CKr s); [|auto with go]. case_match; [auto with go|apply skip_loop_safe].
Qed.

Lemma dhRatchetStep_safe pub : safe wfw (dhRatchetStep pub) (λ _, True).
Proof.
  unfold dhRatchetStep. eapply safe_bind with (Q := λ _, True).
  { wf_upd; [apply length_copy_into|done..]. }
  intros _ _. eapply safe_bind; [apply safe_get_s|]. intros s _.
  eapply safe_bind with (Q := λ _, True); [by auto with go|]. intros dh _.
  eapply safe_bind with (Q := λ p, key32 p.1 ∧ key32 p.2); [apply safe_lift, rootKDF_safe|].
  intros [rk ckr] [Hrk Hckr]. eapply safe_bind with (Q := λ _, True); [by wf_upd|]. intros _ _.
  eapply safe_bind; [apply safe_generate_DHs|]. intros _ _.
  eapply safe_bind; [apply safe_get_s|]. intros s2 _.
  eapply safe_bind with (Q := λ _, True); [by auto with go|]. intros dh2 _.
  eapply safe_bind with (Q := λ p, key32 p.1 ∧ key32 p.2); [apply safe_lift, rootKDF_safe|].
  intros [rk2 cks] [Hrk2 Hcks]. by wf_upd.
Qed.

Lemma RatchetEncrypt_safe pt : safe wfw (RatchetEncrypt pt)
  (λ m, key32 (h_DHPub m.1) ∧ is_u32 (h_N m.1) ∧ is_u32 (h_PN m.1)).
Proof.
  unfold RatchetEncrypt. eapply safe_bind; [apply safe_get_s|]. intros s W.
  destruct (chainKDF _) as [mk nck] eqn:E. apply chainKDF_safe in E as [Hmk Hck].
  eapply safe_bind with (Q := λ _, True); [by wf_upd|]. intros _ _.
  eapply safe_bind with (Q := key32).
  { apply safe_lift. unfold public_key. destruct W as [[] W]; [by rewrite (wf_DHs _ W)|].
    intros pub Hp. pose proof (wf_DHs _ W) as Hk. destruct (DHs s); [done|]. injection Hp as <-. by apply x25519_pub_length. }
  intros pub Hpub. destruct W as [lost W].
  eapply safe_bind with (Q := λ _, True); [wf_upd; apply u32_is_u32|]. intros _ _.
  eapply safe_bind with (Q := λ _, True); [by apply safe_tape|]. intros [nonce c] _.
  apply safe_ok. simpl. split; [done|]. split; apply W.
Qed.

Lemma trySkippedKeys_safe h data : safe wfw (trySkippedKeys h data) (λ _, True).
Proof.
  unfold trySkippedKeys. eapply safe_bind; [apply safe_get_s|]. intros s W.
  case_match; [|auto with go]. eapply safe_bind with (Q := λ _, True); [|by auto with go].
  wf_upd. by apply map_Forall_delete.
Qed.

Lemma RatchetDecrypt_safe h data : safe wfw (RatchetDecrypt h data) (λ _, True).
Proof.
  intros w Hw. unfold RatchetDecrypt. destruct (trySkippedKeys_safe h data w Hw) as [Hw1 _].
  destruct (trySkippedKeys h data w) as [w1 r1]. cbn [fst snd] in Hw1.
  destruct r1 as [pt|e|]; [done|..]; apply (safe_bind wfw _ _ ratchet_ok _); try done; try apply safe_get_s;
    intros s _;
    (eapply safe_bind with (Q := λ _, True);
      [case_match; [eapply safe_bind; [apply skipMessageKeys_safe|intros _ _; apply dhRatchetStep_safe]
                   |by auto with go]|]);
    intros _ _; (eapply safe_bind; [apply skipMessageKeys_safe|]); intros _ _;
    (eapply safe_bind; [apply safe_get_s|]); intros s2 _;
    destruct (chainKDF _) as [mk nck] eqn:E; apply chainKDF_safe in E as [Hmk Hck];
    (eapply safe_bind with (Q := λ _, True); [|by auto with go]); wf_upd; apply u32_is_u32.
Qed.

Lemma dhRatchetStep_DHs pub s t w r :
  dhRatchetStep pub (s, t) = (w, r) →
  (DHs s = [] → DHs w.1 = [] ∧ r ≠ Err ErrRand) ∧ (DHs s ≠ [] → DHs w.1 = [] ↔ r = Err ErrRand).
Proof.
  unfold dhRatchetStep, generate_DHs, x25519DH, rootKDF, hkdfSHA256, GenerateX25519KeyPair. rm_run.
  intros Hrun. repeat (case_match; simplify_eq/=; try done).
  all: by match goal with E : rand_read _ _ = _ |- _ => apply rand_read_Some in E as [? _] end.
Qed.

Lemma decryptWithNonce_rand mk data : decryptWithNonce mk data ≠ Err ErrRand.
Proof. unfold decryptWithNonce, aesGCMDecrypt. repeat case_match; done. Qed.

Lemma skip_loop_rand fuel until w : (skip_loop fuel until w).2 ≠ Err ErrRand.
Proof.
  revert w. induction fuel as [|fuel IH]; intros [s t]; cbn [skip_loop]; rm_run;
    (destruct (Nr s <? until)%N; [|done]); [done|]. destruct (chainKDF _) as [mk nck]. case_match; [done|apply IH].
Qed.

Lemma skipMessageKeys_rand until w : (skipMessageKeys until w).2 ≠ Err ErrRand.
Proof.
  unfold skipMessageKeys. rm_run. destruct (CKr w.1); [|done]. case_match; [done|]. apply skip_loop_rand.
Qed.

(** [s'] is [s] with its ratchet key lost exactly when [r] is a failure of the
    random source. *)
Definition key_kept {A} (s s' : RatchetState) (r : res omemo_error A) : Prop :=
  (DHs s = [] → DHs s' = [] ∧ r ≠ Err ErrRand) ∧ (DHs s ≠ [] → DHs s' = [] ↔ r = Err ErrRand).

Lemma key_kept_same {A} s s' (r : res omemo_error A) : DHs s' = DHs s → r ≠ Err ErrRand → key_kept s s' r.
Proof. intros E Hr. unfold key_kept. rewrite E. naive_solver. Qed.

Lemma key_kept_then {A} s s1 s' (r : res omemo_error A) :
  key_kept s s1 (Ok tt) → DHs s' = DHs s1 → r ≠ Err ErrRand → key_kept s s' r.
Proof. unfold key_kept. intros Hk -> Hr. naive_solver. Qed.

Lemma ratchet_turn_key h s t w r : ratchet_turn h (s, t) = (w, r) → key_kept s w.1 r.
Proof.
  unfold ratchet_turn, mbnd at 1, get_s at 1. cbn [fst]. destruct (_ || _); [|by intros [= <- <-]; apply key_kept_same].
  unfold mbnd at 1. pose proof (skipMessageKeys_rand (h_PN h) (s, t)) as Hr.
  destruct (skipMessageKeys (h_PN h) (s, t)) as [[s1 t1] r1] eqn:E. apply skipMessageKeys_DHs in E. cbn [fst snd] in *.
  destruct r1; [|intros [= <- <-]; apply key_kept_same; [done|congruence]..].
  unfold key_kept. rewrite <- E. apply dhRatchetStep_DHs.
Qed.

Lemma decrypt_tail_key n data s t w r : decrypt_tail n data (s, t) = (w, r) → DHs w.1 = DHs s ∧ r ≠ Err ErrRand.
Proof.
  unfold decrypt_tail, mbnd at 1. pose proof (skipMessageKeys_rand n (s, t)) as Hr.
  destruct (skipMessageKeys n (s, t)) as [[s1 t1] r1] eqn:E. apply skipMessageKeys_DHs in E. cbn [fst snd] in *.
  destruct r1; [|intros [= <- <-]; split; [done|congruence]..].
  rm_run. destruct (chainKDF _) as [mk nck]. intros [= <- <-]. split; [done|apply decryptWithNonce_rand].
Qed.

Lemma RatchetDecrypt_key h data s t w r : RatchetDecrypt h data (s, t) = (w, r) → key_kept s w.1 r.
Proof.
  rewrite RatchetDecrypt_split. destruct (trySkippedKeys h data (s, t)) as [[s1 t1] r1] eqn:E1.
  apply trySkippedKeys_DHs in E1. cbn [fst] in E1.
  destruct r1 as [pt|e|]; [by intros [= <- <-]; apply key_kept_same|..].
  all: unfold mbnd; destruct (ratchet_turn h (s1, t1)) as [[s2 t2] r2] eqn:E2; apply ratchet_turn_key in E2; cbn [fst] in E2.
  all: assert (key_kept s s2 r2) as Hk by (unfold key_kept in *; by rewrite <- E1).
  all: destruct r2 as [[]|e2|]; [|intros [= <- <-]; unfold key_kept in *; naive_solver..].
  all: intros [? ?]%decrypt_tail_key; by eapply key_kept_then.
Qed.

(** The states (with the random tape) that operations reach: initialisation by
    either side, encryption of anything, decryption of anything, whatever the
    result, and new randomness.  The flag records whether the random source has
    failed in a decryption. *)
Inductive reachable : bool → RatchetState * bytes → Prop :=
  | reach_alice ss pub t t' a : InitRatchetAsAlice ss pub t = (t', Ok a) → reachable false (a, t')
  | reach_bob ss k t : key32 ss → key32 k → reachable false (InitRatchetAsBob ss k, t)
  | reach_encrypt lost pt w : reachable lost w → reachable lost (RatchetEncrypt pt w).1
  | reach_decrypt lost h data w : reachable lost w →
      reachable (lost || bool_decide ((RatchetDecrypt h data w).2 = Err ErrRand)) (RatchetDecrypt h data w).1
  | reach_random lost s t t' : reachable lost (s, t) → reachable lost (s, t').

Lemma InitRatchetAsAlice_wf ss pub t t' a :
  InitRatchetAsAlice ss pub t = (t', Ok a) → ratchet_wf a.
Proof.
  unfold InitRatchetAsAlice. destruct (GenerateX25519KeyPair t) as [t1 [k|e|]] eqn:E; intros Ha; [|done|done].
  apply generate_safe in E. injection Ha as _ Ha. unfold x25519DH in Ha. case_bool_decide; [|done].
  destruct k as [|b k]; [done|]. destruct (x25519 (b :: k) pub); [|done]. cbn [res_bind] in Ha.
  destruct (rootKDF ss _) as [[rk cks]|e|] eqn:Ek; simplify_eq/=. apply rootKDF_safe in Ek as [? ?].
  by split.
Qed.

Lemma RatchetEncrypt_DHs pt w : DHs (RatchetEncrypt pt w).1.1 = DHs w.1.
Proof.
  unfold RatchetEncrypt. rm_run. destruct (chainKDF _) as [mk nck]. destruct (public_key _); [|done..].
  by destruct (aesGCMEncrypt _ _ _) as [t [[]| |]].
Qed.

Lemma RatchetEncrypt_wf pt w w' m :
  ratchet_wf w.1 → RatchetEncrypt pt w = (w', Ok m) →
  ratchet_wf w'.1 ∧ key32 (h_DHPub m.1) ∧ is_u32 (h_N m.1) ∧ is_u32 (h_PN m.1).
Proof.
  intros W E. destruct (RatchetEncrypt_safe pt w) as [Wa Hm]; [by exists false|].
  pose proof (RatchetEncrypt_DHs pt w) as HD. rewrite E in *. cbn [fst snd] in *. split; [|by apply Hm].
  apply ratchet_ok_wf; [done|]. rewrite HD. by apply key32_not_nil, (wf_DHs _ W).
Qed.

Lemma RatchetDecrypt_wf h data w w' pt :
  ratchet_wf w.1 → RatchetDecrypt h data w = (w', Ok pt) → ratchet_wf w'.1.
Proof.
  destruct w as [s t]. intros W E. destruct (RatchetDecrypt_safe h data (s, t)) as [Wa _]; [by exists false|].
  pose proof (RatchetDecrypt_key h data s t _ _ E) as [_ HD]. rewrite E in Wa. apply ratchet_ok_wf; [done|].
  intros Hn. apply HD in Hn; [done|]. by apply key32_not_nil, (wf_DHs _ W).
Qed.

Lemma reachable_wf lost w : reachable lost w → ratchet_wf_if lost w.1.
Proof.
  assert (∀ (lost : bool) s, ratchet_ok s → (if lost then DHs s = [] else DHs s ≠ []) → ratchet_wf_if lost s) as Hok.
  { intros [] s Hs Hd; [|by apply ratchet_ok_wf]. destruct Hs as [[] W]; [done|].
    by destruct (key32_not_nil _ (wf_DHs _ W)). }
  assert (∀ (lost : bool) s, ratchet_wf_if lost s → if lost then DHs s = [] else DHs s ≠ []) as Hd.
  { intros [] s W; [apply W|]. by apply key32_not_nil, (wf_DHs _ W). }
  induction 1 as [ss pub t t' a Ha|ss k t Hs Hk|lost pt w _ IH|lost h data [s t] _ IH|lost s t t' _ IH].
  - by apply InitRatchetAsAlice_wf in Ha.
  - by split.
  - apply Hok; [apply RatchetEncrypt_safe; by exists lost|]. rewrite RatchetEncrypt_DHs. by apply Hd.
  - apply Hok; [apply RatchetDecrypt_safe; by exists lost|]. apply Hd in IH. cbn [fst] in IH.
    destruct (RatchetDecrypt h data (s, t)) as [w' r] eqn:E. apply RatchetDecrypt_key in E as [E1 E2]. cbn [fst snd].
    destruct lost; cbn [orb]; [by apply E1|]. case_bool_decide; naive_solver.
  - done.
Qed.

(** C22: storage of the states that initialisation and any sequence of encryptions
    and decryptions reach, failed ones included.  As long as no decryption has
    failed for want of randomness, the state can be stored and is restored
    exactly, in whatever order the skipped keys are written.  A decryption that
    fails to generate its new ratchet key leaves that key nil for good, and
    storing the state then panics. *)
Theorem reachable_survives_storage lost w order :
  reachable lost w → (N.of_nat (size (MKSkipped w.1)) < two32)%N → iter_order (MKSkipped w.1) order →
  if lost then Ratchet_MarshalBinary order w.1 = Panic
  else ∃ data, Ratchet_MarshalBinary order w.1 = Ok data ∧
         Ratchet_UnmarshalBinary (zero_ratchet, data) = ((w.1, []), Ok tt).
Proof.
  intros Hr Hsz Hord. apply reachable_wf in Hr. pose proof (wf_DHs _ Hr) as Hd. destruct lost.
  { unfold Ratchet_MarshalBinary. by rewrite Hd. }
  destruct (Ratchet_MarshalBinary order w.1) as [data|e|] eqn:E.
  - exists data. split; [done|]. rewrite <- (app_nil_r data) at 1.
    by eapply Ratchet_Unmarshal_Marshal.
  - unfold Ratchet_MarshalBinary in E. by destruct (DHs w.1).
  - unfold Ratchet_MarshalBinary in E. by destruct (DHs w.1).
Qed.
End Wellformed.

(** ** Instances *)

Module CodecExample.
#[local] Existing Instance Toy.crypto.
#[local] Existing Instance Toy.laws.

Definition key (c : ascii) : bytes := replicate 32 c.
Definition e1 : skippedKey * bytes := ((key "p", 3%N), key "m").
Definition e2 : skippedKey * bytes := ((key "p", 4%N), key "n").
Definition session : Session :=
  mkSession (mkRatchet (key "d") (Some (key "r")) (key "k") None (Some (key "c")) 1 70000 2
               (<[e1.1 := e1.2]> {[e2.1 := e2.2]}))
            (key "i") (Some (mkPending (Some 7%N) 1 (key "e"))).

Lemma session_ok : session_wf session.
Proof.
  split; [split|..]; try done.
  apply map_Forall_insert_2; [done|]. by apply map_Forall_singleton.
Qed.

(** Either order of the two skipped keys is an iteration order of the map. *)
Lemma Session_roundtrip_witness :
  res_bind (Session_MarshalBinary [e2; e1] session) Session_UnmarshalBinary = Ok session.
Proof.
  apply (Session_roundtrip session [e2; e1]); [apply session_ok|].
  apply (bool_decide_unpack (_ ≡ₚ _)). by vm_compute.
Defined.

Definition bob : RatchetState * bytes := (InitRatchetAsBob (key "s") (key "b"), key "f").

(** A decryption for which no randomness is left. *)
Definition starved : RatchetState * bytes :=
  (RatchetDecrypt (mkHeader (key "p") 0 0) [] (InitRatchetAsBob (key "s") (key "b"), [])).1.

Lemma reachable_survives_storage_witness :
  (∃ data, Ratchet_MarshalBinary [] bob.1 = Ok data ∧
    Ratchet_UnmarshalBinary (zero_ratchet, data) = ((bob.1, []), Ok tt)) ∧
  Ratchet_MarshalBinary [] starved.1 = Panic.
Proof.
  split.
  - apply (reachable_survives_storage false bob []); [by apply reach_bob|done|].
    apply (bool_decide_unpack (_ ≡ₚ _)). by vm_compute.
  - apply (reachable_survives_storage true starved []); [|done|apply (bool_decide_unpack (_ ≡ₚ _)); by vm_compute].
    pose proof (reach_decrypt false (mkHeader (key "p") 0 0) [] (InitRatchetAsBob (key "s") (key "b"), [])) as Hs.
    rewrite bool_decide_true in Hs by by vm_compute. apply Hs. by apply reach_bob.
Defined.
End CodecExample.
