(* ===== verification/OmemoX3dh.v ===== *)
(** * OMEMO: X3DH key agreement and sessions
    (src/crypto/omemo/x3dh.go, bundle.go, session.go)

    The agreement of initiator and responder, the bundle the initiator works
    from, and the sessions built on it, with the theorem that both sides derive
    the same secret and sessions whose ratchets fit together. *)

From Stdlib Require Import Ascii String NArith ZArith Zcong.
From S2P Require Import Prelude Bytes OmemoCrypto OmemoRatchet OmemoDelivery OmemoCodec.

Open Scope list_scope.
Open Scope go_scope.

Record BundlePreKey := mkBundlePreKey { bp_ID : N; bp_PublicKey : bytes }.

Record Bundle := mkBundle {
  IdentityKey : bytes;
  SignedPreKey : bytes;
  SignedPreKeyID : N;
  SignedPreKeySignature : bytes;
  PreKeys : list BundlePreKey
}.

Record X3DHResult := mkX3DH {
  SharedSecret : bytes;
  x_EphemeralPubKey : bytes;
  UsedPreKeyID : option N
}.

Definition x3dhSalt : bytes := zeros 32.
Definition x3dhPad : bytes := replicate 32 (ascii_of_N 255).
Definition x3dh_info : bytes := list_ascii_of_string "OMEMO X3DH".

Section X3dh.
Context `{Crypto}.

(** The part of [X3DHInitiate] after the ephemeral key has been drawn. *)
Definition initiate_with (localIdentity : IdentityKeyPair) (remoteBundle : Bundle) (ephemeralKey : bytes)
  : res omemo_error X3DHResult :=
  try localX25519 <- Ed25519PrivateKeyToX25519 (PrivateKey localIdentity);
  try remoteX25519Pub <- Ed25519PublicKeyToX25519 (IdentityKey remoteBundle);
  try dh1 <- x25519DH localX25519 (SignedPreKey remoteBundle);
  try dh2 <- x25519DH ephemeralKey remoteX25519Pub;
  try dh3 <- x25519DH ephemeralKey (SignedPreKey remoteBundle);
  let ikm := x3dhPad ++ dh1 ++ dh2 ++ dh3 in
  try (ikm, usedPreKeyID) <-
    match PreKeys remoteBundle with
    | opk :: _ =>
        try dh4 <- x25519DH ephemeralKey (bp_PublicKey opk);
        Ok (ikm ++ dh4, Some (bp_ID opk))
    | [] => Ok (ikm, None)
    end;
  try sk <- hkdfSHA256 x3dhSalt ikm x3dh_info 32;
  Ok (mkX3DH sk (x25519_pub ephemeralKey) usedPreKeyID).

Definition X3DHInitiate (localIdentity : IdentityKeyPair) (remoteBundle : Bundle) (tape : bytes)
  : bytes * res omemo_error X3DHResult :=
  match Verify (IdentityKey remoteBundle) (SignedPreKey remoteBundle) (SignedPreKeySignature remoteBundle) with
  | Ok true =>
      match GenerateX25519KeyPair tape with
      | (tape, Ok ephemeralKey) => (tape, initiate_with localIdentity remoteBundle ephemeralKey)
      | (tape, Err e) => (tape, Err e)
      | (tape, Panic) => (tape, Panic)
      end
  | Ok false => (tape, Err ErrInvalidSignature)
  | Err e => (tape, Err e)
  | Panic => (tape, Panic)
  end.

(** [localOPK] is nil when no one-time pre-key was used. *)
Definition X3DHRespond (localIdentity : IdentityKeyPair) (localSPK : bytes) (localOPK : option bytes)
    (remoteIdentityKey ephemeralPubKey : bytes) : res omemo_error bytes :=
  try remoteX25519Pub <- Ed25519PublicKeyToX25519 remoteIdentityKey;
  try localX25519 <- Ed25519PrivateKeyToX25519 (PrivateKey localIdentity);
  try dh1 <- x25519DH localSPK remoteX25519Pub;
  try dh2 <- x25519DH localX25519 ephemeralPubKey;
  try dh3 <- x25519DH localSPK ephemeralPubKey;
  let ikm := x3dhPad ++ dh1 ++ dh2 ++ dh3 in
  try ikm <-
    match localOPK with
    | Some opk => try dh4 <- x25519DH opk ephemeralPubKey; Ok (ikm ++ dh4)
    | None => Ok ikm
    end;
  hkdfSHA256 x3dhSalt ikm x3dh_info 32.

(** ** Sessions *)

Definition InitSessionAsAlice (localIdentity : IdentityKeyPair) (remoteBundle : Bundle) (tape : bytes)
  : bytes * res omemo_error Session :=
  match X3DHInitiate localIdentity remoteBundle tape with
  | (tape, Ok x) =>
      match InitRatchetAsAlice (SharedSecret x) (SignedPreKey remoteBundle) tape with
      | (tape, Ok ratchet) =>
          (tape, Ok (mkSession ratchet (IdentityKey remoteBundle)
             (Some (mkPending (UsedPreKeyID x) (SignedPreKeyID remoteBundle) (x_EphemeralPubKey x)))))
      | (tape, Err e) => (tape, Err e)
      | (tape, Panic) => (tape, Panic)
      end
  | (tape, Err e) => (tape, Err e)
  | (tape, Panic) => (tape, Panic)
  end.

Definition InitSessionAsBob (localIdentity : IdentityKeyPair) (localSPK : bytes) (localOPK : option bytes)
    (remoteIdentityKey ephemeralPubKey : bytes) : res omemo_error Session :=
  try sharedSecret <- X3DHRespond localIdentity localSPK localOPK remoteIdentityKey ephemeralPubKey;
  Ok (mkSession (InitRatchetAsBob sharedSecret localSPK) remoteIdentityKey None).

(** The methods of a session, on the session and the tape. *)
Notation SM A := (M (Session * bytes) omemo_error A).

Definition on_ratchet {A} (m : RM A) : SM A :=
  λ w, let '((r, t), res) := m (Ratchet w.1, w.2) in
       ((mkSession r (RemoteIdentity w.1) (s_PendingPreKey w.1), t), res).

Definition Session_Encrypt (plaintext : bytes) : SM (RatchetHeader * bytes * bool) :=
  do (header, ciphertext) <- on_ratchet (RatchetEncrypt plaintext);
  λ w, (w, Ok (header, ciphertext, bool_decide (is_Some (s_PendingPreKey w.1)))).

Definition Session_Decrypt (header : RatchetHeader) (ciphertext : bytes) : SM bytes :=
  do plaintext <- on_ratchet (RatchetDecrypt header ciphertext);
  λ w, ((mkSession (Ratchet w.1) (RemoteIdentity w.1) None, w.2), Ok plaintext).

(** ** Agreement *)

Section Agreement.
Context `{!CryptoLaws} `{!IdentityLaws}.

(** An identity as [GenerateIdentityKeyPair] makes it. *)
Definition identity_of (seed : bytes) : IdentityKeyPair :=
  mkIdentity (seed ++ ed25519_pub seed) (ed25519_pub seed).

(** The bundle of the identity [seed] with signed pre-key [spk] and one-time
    pre-keys [opks]. *)
Definition bundle_of (seed spk : bytes) (spk_id : N) (opks : list (N * bytes)) : Bundle :=
  mkBundle (ed25519_pub seed) (x25519_pub spk) spk_id
    (ed25519_sign (seed ++ ed25519_pub seed) (x25519_pub spk))
    ((λ o, mkBundlePreKey o.1 (x25519_pub o.2)) <$> opks).

Lemma x25519DH_honest a b :
  key32 a → key32 b →
  ∃ s, x25519DH a (x25519_pub b) = Ok s ∧ x25519DH b (x25519_pub a) = Ok s ∧ key32 s.
Proof.
  intros Ha Hb. destruct (x25519_honest a b Ha Hb) as [s Hs]. exists s.
  rewrite !x25519DH_key by (by apply key32_not_nil || by apply x25519_pub_length).
  rewrite (x25519_comm b a), Hs by done. split; [done|]. split; [done|]. by eapply x25519_length.
Qed.

Lemma seed_private seed : key32 seed →
  Ed25519PrivateKeyToX25519 (seed ++ ed25519_pub seed) = Ok (clamped seed).
Proof.
  intros Hs. unfold Ed25519PrivateKeyToX25519. unfold key32 in Hs.
  rewrite (proj2 (Nat.ltb_ge _ _)) by (rewrite length_app; lia).
  rewrite take_app_length' by done. unfold NewPrivateKey. rewrite bool_decide_true; [done|].
  apply clamped_key32.
Qed.

Lemma hkdf_total salt ikm info n : n ≤ 255 * 32 →
  ∃ o, hkdfSHA256 salt ikm info n = Ok o ∧ length o = n.
Proof.
  intros Hn. unfold hkdfSHA256. destruct (hkdf_defined salt ikm info n Hn) as [o Ho]. rewrite Ho.
  exists o. split; [done|]. by eapply hkdf_length.
Qed.

Lemma initiate_respond seedA seedB spk spk_id opks ek :
  key32 seedA → key32 seedB → key32 spk → key32 ek → Forall (λ o, key32 o.2) opks →
  ∃ sk, initiate_with (identity_of seedA) (bundle_of seedB spk spk_id opks) ek =
          Ok (mkX3DH sk (x25519_pub ek) (fst <$> head opks)) ∧
    X3DHRespond (identity_of seedB) spk (snd <$> head opks) (ed25519_pub seedA) (x25519_pub ek) = Ok sk
    ∧ key32 sk.
Proof.
  intros HA HB Hs He Ho. unfold initiate_with, X3DHRespond, identity_of, bundle_of.
  cbn [PrivateKey IdentityKey SignedPreKey PreKeys].
  rewrite !seed_private, !identity_converts by done. cbn [res_bind].
  destruct (x25519DH_honest (clamped seedA) spk) as (d1 & E1 & E1' & _); [apply clamped_key32|done|].
  destruct (x25519DH_honest ek (clamped seedB)) as (d2 & E2 & E2' & _); [done|apply clamped_key32|].
  destruct (x25519DH_honest ek spk) as (d3 & E3 & E3' & _); [done|done|].
  rewrite E1, E1', E2, E2', E3, E3'. cbn [res_bind].
  destruct opks as [|[i opk] opks]; cbn [fmap list_fmap head option_fmap option_map fst snd].
  - destruct (hkdf_total x3dhSalt (x3dhPad ++ d1 ++ d2 ++ d3) x3dh_info 32) as (o & Eo & Hl); [lia|].
    exists o. cbn [res_bind]. by rewrite Eo.
  - apply Forall_cons in Ho as [Hopk _]. cbn [snd] in Hopk.
    destruct (x25519DH_honest ek opk) as (d4 & E4 & E4' & _); [done|done|].
    cbn [bp_PublicKey bp_ID]. rewrite E4, E4'. cbn [res_bind].
    destruct (hkdf_total x3dhSalt ((x3dhPad ++ d1 ++ d2 ++ d3) ++ d4) x3dh_info 32) as (o & Eo & Hl); [lia|].
    exists o. by rewrite Eo.
Qed.

Lemma Verify_bundle seed spk spk_id opks :
  key32 seed →
  Verify (IdentityKey (bundle_of seed spk spk_id opks)) (SignedPreKey (bundle_of seed spk spk_id opks))
    (SignedPreKeySignature (bundle_of seed spk spk_id opks)) = Ok true.
Proof.
  intros Hs. unfold Verify, bundle_of. cbn [IdentityKey SignedPreKey SignedPreKeySignature].
  rewrite bool_decide_true by apply ed25519_pub_length. by rewrite ed25519_verify_sign.
Qed.

Lemma InitSessionAsAlice_ok seedA seedB spk spk_id opks ek f rest :
  key32 seedA → key32 seedB → key32 spk → key32 ek → key32 f → Forall (λ o, key32 o.2) opks →
  ∃ sk a,
    InitSessionAsAlice (identity_of seedA) (bundle_of seedB spk spk_id opks) (ek ++ f ++ rest) =
      (rest, Ok (mkSession a (ed25519_pub seedB)
                   (Some (mkPending (fst <$> head opks) spk_id (x25519_pub ek))))) ∧
    InitSessionAsBob (identity_of seedB) spk (snd <$> head opks) (ed25519_pub seedA) (x25519_pub ek) =
      Ok (mkSession (InitRatchetAsBob sk spk) (ed25519_pub seedA) None) ∧
    key32 sk ∧ ahead a (InitRatchetAsBob sk spk) ∧ DHs a = f ∧
    InitRatchetAsAlice sk (x25519_pub spk) (f ++ rest) = (rest, Ok a).
Proof.
  intros HA HB Hs He Hf Ho.
  destruct (initiate_respond seedA seedB spk spk_id opks ek) as (sk & Ei & Er & Hk); try done.
  destruct (init_ahead sk spk f rest Hs Hf) as (a & Ea & A & HD). exists sk, a.
  split; [|split; [|done]].
  - unfold InitSessionAsAlice, X3DHInitiate. rewrite Verify_bundle by done.
    unfold GenerateX25519KeyPair. rewrite rand_read_app by done. rewrite Ei.
    cbn [SharedSecret SignedPreKey bundle_of]. by rewrite Ea.
  - unfold InitSessionAsBob. by rewrite Er.
Qed.

(** The initiator that works from a responder's bundle and the responder that
    is told the initiator's identity, the ephemeral key and the used pre-key
    derive sessions that understand each other: the initiator's session records
    exactly what the responder has to be told, and any conversation that starts
    with the initiator is decrypted completely. *)
Theorem X3DH_sessions_converse seedA seedB spk spk_id opks ek f ts rest :
  key32 seedA → key32 seedB → key32 spk → key32 ek → key32 f → Forall (λ o, key32 o.2) opks →
  Forall turn_ok ts → fresh (x25519_pub f) (x25519_pub spk) (t_key <$> ts) →
  ∃ a b,
    InitSessionAsAlice (identity_of seedA) (bundle_of seedB spk spk_id opks) (ek ++ f ++ rest) = (rest, Ok a) ∧
    s_PendingPreKey a = Some (mkPending (fst <$> head opks) spk_id (x25519_pub ek)) ∧
    RemoteIdentity a = PublicKey (identity_of seedB) ∧
    InitSessionAsBob (identity_of seedB) spk (snd <$> head opks) (PublicKey (identity_of seedA))
      (x25519_pub ek) = Ok b ∧
    converse (t_pts <$> ts) (Ratchet a) (Ratchet b) (concat (turn_tape <$> ts)) = Ok (t_pts <$> ts).
Proof.
  intros HA HB Hs He Hf Ho Hok Hfr.
  destruct (InitSessionAsAlice_ok seedA seedB spk spk_id opks ek f rest)
    as (sk & a & Ea & Eb & Hk & A & HD & _); try done.
  eexists _, _. split; [exact Ea|]. split; [done|]. split; [done|]. split; [exact Eb|].
  cbn [Ratchet]. rewrite <- (app_nil_r (concat _)). apply converse_ok; [done|done|].
  by rewrite HD.
Qed.

Lemma Ed25519PublicKeyToX25519_total k : Ed25519PublicKeyToX25519 k ≠ Panic.
Proof.
  unfold Ed25519PublicKeyToX25519. case_bool_decide; [done|]. by destruct (ModInverse _ _).
Qed.
Lemma x25519DH_total a p : key32 a → x25519DH a p ≠ Panic.
Proof. intros Ha. unfold x25519DH. case_bool_decide; [|done]. destruct a as [|b a]; [done|]. by destruct (x25519 (b :: a) p). Qed.
Lemma hkdfSHA256_total salt ikm info n : hkdfSHA256 salt ikm info n ≠ Panic.
Proof. unfold hkdfSHA256. by destruct (hkdf_sha256 salt ikm info n). Qed.

(** A bundle whose identity key does not have 32 bytes makes the initiator
    panic instead of reporting an error, and nothing else does. *)
Theorem X3DHInitiate_panics seed bundle tape :
  key32 seed →
  (X3DHInitiate (identity_of seed) bundle tape).2 = Panic ↔ length (IdentityKey bundle) ≠ 32.
Proof.
  intros Hs. unfold X3DHInitiate, Verify. case_bool_decide as Hl; [|done].
  split; [|done]. intros Hp. exfalso. revert Hp.
  destruct (ed25519_verify _ _ _); [|done].
  unfold GenerateX25519KeyPair. destruct (rand_read 32 tape) as [[ek t']|] eqn:Er; [|done]. cbn [snd].
  apply rand_read_Some in Er as [Her _]. pose proof (clamped_key32 seed) as Hcl.
  unfold initiate_with, identity_of. cbn [PrivateKey]. rewrite seed_private by done. cbn [res_bind].
  repeat first
    [ apply res_bind_total; [apply Ed25519PublicKeyToX25519_total || by apply x25519DH_total
                             || apply hkdfSHA256_total|intros ?]
    | done ].
  apply res_bind_total.
  - case_match; [done|]. apply res_bind_total; [by apply x25519DH_total|done].
  - intros [ikm used]. apply res_bind_total; [apply hkdfSHA256_total|done].
Qed.
End Agreement.

(** [Ed25519PublicKeyToX25519] computes the birational map u = (1+y)/(1-y)
    modulo p = 2^255-19: on a 32-byte key whose denominator is invertible the
    result is the canonical 32-byte encoding of the u with u (1-y) = 1+y (mod p);
    it reports an error on every other input. *)
Theorem Ed25519PublicKeyToX25519_spec edPub :
  let y := ed_y edPub in
  if bool_decide (length edPub = 32 ∧ Z.gcd ((1 - y) mod p25519) p25519 = 1%Z) then
    ∃ out, Ed25519PublicKeyToX25519 edPub = Ok out ∧ length out = 32 ∧
      (0 <= le_val out < p25519)%Z ∧
      ((le_val out * (1 - y)) mod p25519 = (1 + y) mod p25519)%Z
  else Ed25519PublicKeyToX25519 edPub = Err ErrInvalidKeyLength.
Proof.
  intros y. unfold Ed25519PublicKeyToX25519, ModInverse. fold y. case_bool_decide as Hc.
  - destruct Hc as [Hl Hg]. rewrite bool_decide_false by auto.
    rewrite (proj2 (Z.eqb_eq _ _) Hg). eexists. split; [done|]. split; [apply length_le_enc|].
    set (d := ((1 - y) mod p25519)%Z) in *. set (n := ((1 + y) mod p25519)%Z).
    assert (0 < p25519)%Z as Hp by (unfold p25519; lia).
    pose proof (Z.mod_pos_bound (n * Z.invmod d p25519) p25519 Hp) as Hu.
    assert (p25519 < 256 ^ Z.of_nat 32)%Z as Hbig by (unfold p25519; lia).
    rewrite le_val_enc, (Z.mod_small (_ mod p25519) (256 ^ _)) by lia. split; [done|].
    rewrite Zmult_mod_idemp_l.
    replace (n * Z.invmod d p25519 * (1 - y))%Z with (n * (Z.invmod d p25519 * (1 - y)))%Z by lia.
    rewrite <- Zmult_mod_idemp_r, <- (Zmult_mod_idemp_r (1 - y)). fold d.
    rewrite Z.invmod_coprime' by done. rewrite Z.mul_1_r.
    unfold n. by rewrite Zmod_mod.
  - case_bool_decide as Hl; [done|]. destruct (Z.eqb_spec (Z.gcd ((1 - y) mod p25519) p25519) 1); [|done].
    by destruct Hc.
Qed.
End X3dh.
Notation SM A := (M (Session * bytes) omemo_error A).

(** ** Instances *)

Module X3dhExample.
#[local] Existing Instance Toy.crypto.
#[local] Existing Instance Toy.laws.
#[local] Existing Instance Toy.identity_laws.

Definition key (c : ascii) : bytes := replicate 32 c.
Definition turns :=
  [mkTurn [[]] [replicate 12 "n"%char] (key "x"); mkTurn [key "y"] [replicate 12 "o"%char] (key "z")].

Lemma X3DH_sessions_converse_witness :
  ∃ a b,
    InitSessionAsAlice (identity_of (key "A")) (bundle_of (key "B") (key "s") 1 [(7%N, key "o")])
      (key "e" ++ key "f" ++ []) = ([], Ok a) ∧
    s_PendingPreKey a = Some (mkPending (Some 7%N) 1 (x25519_pub (key "e"))) ∧
    RemoteIdentity a = PublicKey (identity_of (key "B")) ∧
    InitSessionAsBob (identity_of (key "B")) (key "s") (Some (key "o"))
      (PublicKey (identity_of (key "A"))) (x25519_pub (key "e")) = Ok b ∧
    converse (t_pts <$> turns) (Ratchet a) (Ratchet b) (concat (turn_tape <$> turns)) = Ok (t_pts <$> turns).
Proof.
  apply (X3DH_sessions_converse (key "A") (key "B") (key "s") 1 [(7%N, key "o")] (key "e") (key "f") turns []);
    try done; repeat constructor; discriminate.
Defined.

Lemma X3DHInitiate_panics_witness :
  (X3DHInitiate (identity_of (key "A")) (mkBundle [] [] 0 [] []) []).2 = Panic.
Proof. by apply (X3DHInitiate_panics (key "A") (mkBundle [] [] 0 [] []) []). Defined.
End X3dhExample.
