(* ===== verification/OmemoStore.v ===== *)
(** * OMEMO: the key store and the local bundle
    (src/crypto/omemo/store.go, memory_store.go, bundle.go, address.go)

    The [Store] interface is a class; [StoreLaws] is what its clients rely on,
    stated on an abstract view of the stored data: every write succeeds and
    changes one entry of the view, every read returns the entry.  [MemoryStore]
    is an instance.  [GenerateBundle] is written, and verified, against the
    interface. *)

From Stdlib Require Import Ascii String NArith ZArith.
From S2P Require Import Prelude Bytes OmemoCrypto OmemoRatchet OmemoDelivery OmemoCodec OmemoX3dh.

Open Scope list_scope.
Open Scope go_scope.

(** [Address]: JID and device identifier. *)
Notation Address := (string * N)%type.

Record PreKeyRecord := mkPreKey { pk_ID : N; pk_PrivateKey : bytes; pk_PublicKey : bytes }.
Record SignedPreKeyRecord := mkSignedPreKey {
  spk_ID : N; spk_PrivateKey : bytes; spk_PublicKey : bytes; spk_Signature : bytes
}.

Class Store (S : Type) := {
  GetIdentityKeyPair : S → res omemo_error (option IdentityKeyPair);
  SaveIdentityKeyPair : IdentityKeyPair → S → S * res omemo_error unit;
  GetLocalDeviceID : S → res omemo_error N;
  GetRemoteIdentity : Address → S → res omemo_error (option bytes);
  SaveRemoteIdentity : Address → bytes → S → S * res omemo_error unit;
  IsTrusted : Address → bytes → S → res omemo_error bool;
  GetPreKey : N → S → res omemo_error PreKeyRecord;
  SavePreKey : PreKeyRecord → S → S * res omemo_error unit;
  RemovePreKey : N → S → S * res omemo_error unit;
  GetSignedPreKey : N → S → res omemo_error SignedPreKeyRecord;
  SaveSignedPreKey : SignedPreKeyRecord → S → S * res omemo_error unit;
  GetSession : Address → S → res omemo_error bytes;
  SaveSession : Address → bytes → S → S * res omemo_error unit;
  ContainsSession : Address → S → res omemo_error bool
}.

(** ** The contract *)

Record store_view := mkView {
  v_identity : option IdentityKeyPair;
  v_device : N;
  v_remote : gmap Address bytes;
  v_prekeys : gmap N PreKeyRecord;
  v_spks : gmap N SignedPreKeyRecord;
  v_sessions : gmap Address bytes
}.

Definition vset_identity i v := mkView i (v_device v) (v_remote v) (v_prekeys v) (v_spks v) (v_sessions v).
Definition vset_remote r v := mkView (v_identity v) (v_device v) r (v_prekeys v) (v_spks v) (v_sessions v).
Definition vset_prekeys p v := mkView (v_identity v) (v_device v) (v_remote v) p (v_spks v) (v_sessions v).
Definition vset_spks p v := mkView (v_identity v) (v_device v) (v_remote v) (v_prekeys v) p (v_sessions v).
Definition vset_sessions ss v := mkView (v_identity v) (v_device v) (v_remote v) (v_prekeys v) (v_spks v) ss.

(** A lookup that fails with [e]. *)
Definition or_err {A} (e : omemo_error) (o : option A) : res omemo_error A :=
  match o with Some a => Ok a | None => Err e end.

Section Contract.
Context {S : Type} `{Store S} (view : S → store_view).

(** A write that succeeds and acts on the view as [f]. *)
Definition writes (op : S → S * res omemo_error unit) (f : store_view → store_view) : Prop :=
  ∀ s, ∃ s', op s = (s', Ok tt) ∧ view s' = f (view s).

Class StoreLaws := {
  law_GetIdentityKeyPair s : GetIdentityKeyPair s = Ok (v_identity (view s));
  law_SaveIdentityKeyPair i : writes (SaveIdentityKeyPair i) (vset_identity (Some i));
  law_GetLocalDeviceID s : GetLocalDeviceID s = Ok (v_device (view s));
  law_GetRemoteIdentity a s : GetRemoteIdentity a s = Ok (v_remote (view s) !! a);
  law_SaveRemoteIdentity a k :
    writes (SaveRemoteIdentity a k) (λ v, vset_remote (<[a := k]> (v_remote v)) v);
  law_IsTrusted a k s : IsTrusted a k s = Ok (match v_remote (view s) !! a with
                                              | Some k' => bool_decide (k' = k) | None => true end);
  law_GetPreKey i s : GetPreKey i s = or_err ErrNoPreKey (v_prekeys (view s) !! i);
  law_SavePreKey r : writes (SavePreKey r) (λ v, vset_prekeys (<[pk_ID r := r]> (v_prekeys v)) v);
  law_RemovePreKey i : writes (RemovePreKey i) (λ v, vset_prekeys (delete i (v_prekeys v)) v);
  law_GetSignedPreKey i s : GetSignedPreKey i s = or_err ErrNoPreKey (v_spks (view s) !! i);
  law_SaveSignedPreKey r : writes (SaveSignedPreKey r) (λ v, vset_spks (<[spk_ID r := r]> (v_spks v)) v);
  law_GetSession a s : GetSession a s = or_err ErrNoSession (v_sessions (view s) !! a);
  law_SaveSession a d : writes (SaveSession a d) (λ v, vset_sessions (<[a := d]> (v_sessions v)) v);
  law_ContainsSession a s : ContainsSession a s = Ok (bool_decide (is_Some (v_sessions (view s) !! a)))
}.
End Contract.
Arguments StoreLaws S {_} view.

(** ** [MemoryStore] *)

Module MemoryStore.
Record t := mk {
  identityKey : option IdentityKeyPair;
  deviceID : N;
  remoteKeys : gmap Address bytes;
  preKeys : gmap N PreKeyRecord;
  signedPreKeys : gmap N SignedPreKeyRecord;
  sessions : gmap Address bytes
}.

Definition NewMemoryStore (deviceID : N) : t := mk None deviceID ∅ ∅ ∅ ∅.

Definition GetIdentityKeyPair (s : t) : res omemo_error (option IdentityKeyPair) := Ok (identityKey s).
Definition SaveIdentityKeyPair (ikp : IdentityKeyPair) (s : t) : t * res omemo_error unit :=
  (mk (Some ikp) (deviceID s) (remoteKeys s) (preKeys s) (signedPreKeys s) (sessions s), Ok tt).
Definition GetLocalDeviceID (s : t) : res omemo_error N := Ok (deviceID s).
Definition GetRemoteIdentity (addr : Address) (s : t) : res omemo_error (option bytes) :=
  match remoteKeys s !! addr with None => Ok None | Some key => Ok (Some key) end.
Definition SaveRemoteIdentity (addr : Address) (key : bytes) (s : t) : t * res omemo_error unit :=
  (mk (identityKey s) (deviceID s) (<[addr := key]> (remoteKeys s)) (preKeys s) (signedPreKeys s)
      (sessions s), Ok tt).
Definition IsTrusted (addr : Address) (key : bytes) (s : t) : res omemo_error bool :=
  match remoteKeys s !! addr with
  | None => Ok true
  | Some existing => Ok (bool_decide (existing = key))
  end.
Definition GetPreKey (id : N) (s : t) : res omemo_error PreKeyRecord :=
  match preKeys s !! id with None => Err ErrNoPreKey | Some pk => Ok pk end.
Definition SavePreKey (record : PreKeyRecord) (s : t) : t * res omemo_error unit :=
  (mk (identityKey s) (deviceID s) (remoteKeys s) (<[pk_ID record := record]> (preKeys s))
      (signedPreKeys s) (sessions s), Ok tt).
Definition RemovePreKey (id : N) (s : t) : t * res omemo_error unit :=
  (mk (identityKey s) (deviceID s) (remoteKeys s) (delete id (preKeys s)) (signedPreKeys s)
      (sessions s), Ok tt).
Definition GetSignedPreKey (id : N) (s : t) : res omemo_error SignedPreKeyRecord :=
  match signedPreKeys s !! id with None => Err ErrNoPreKey | Some spk => Ok spk end.
Definition SaveSignedPreKey (record : SignedPreKeyRecord) (s : t) : t * res omemo_error unit :=
  (mk (identityKey s) (deviceID s) (remoteKeys s) (preKeys s)
      (<[spk_ID record := record]> (signedPreKeys s)) (sessions s), Ok tt).
Definition GetSession (addr : Address) (s : t) : res omemo_error bytes :=
  match sessions s !! addr with None => Err ErrNoSession | Some data => Ok data end.
Definition SaveSession (addr : Address) (data : bytes) (s : t) : t * res omemo_error unit :=
  (mk (identityKey s) (deviceID s) (remoteKeys s) (preKeys s) (signedPreKeys s)
      (<[addr := data]> (sessions s)), Ok tt).
Definition ContainsSession (addr : Address) (s : t) : res omemo_error bool :=
  Ok (bool_decide (is_Some (sessions s !! addr))).

Definition view (s : t) : store_view :=
  mkView (identityKey s) (deviceID s) (remoteKeys s) (preKeys s) (signedPreKeys s) (sessions s).
End MemoryStore.

#[export] Instance memory_store : Store MemoryStore.t := {
  GetIdentityKeyPair := MemoryStore.GetIdentityKeyPair;
  SaveIdentityKeyPair := MemoryStore.SaveIdentityKeyPair;
  GetLocalDeviceID := MemoryStore.GetLocalDeviceID;
  GetRemoteIdentity := MemoryStore.GetRemoteIdentity;
  SaveRemoteIdentity := MemoryStore.SaveRemoteIdentity;
  IsTrusted := MemoryStore.IsTrusted;
  GetPreKey := MemoryStore.GetPreKey;
  SavePreKey := MemoryStore.SavePreKey;
  RemovePreKey := MemoryStore.RemovePreKey;
  GetSignedPreKey := MemoryStore.GetSignedPreKey;
  SaveSignedPreKey := MemoryStore.SaveSignedPreKey;
  GetSession := MemoryStore.GetSession;
  SaveSession := MemoryStore.SaveSession;
  ContainsSession := MemoryStore.ContainsSession
}.

Lemma memory_store_laws : StoreLaws MemoryStore.t MemoryStore.view.
Proof.
  split; intros; first [reflexivity | by intros ?; eexists | idtac]; simpl;
    unfold MemoryStore.GetRemoteIdentity, MemoryStore.IsTrusted, MemoryStore.GetPreKey,
      MemoryStore.GetSignedPreKey, MemoryStore.GetSession; by case_match.
Qed.
#[export] Existing Instance memory_store_laws.

(** ** Bundles *)

Section Bundles.
Context `{Crypto} {S : Type} `{Store S}.

(** Store and tape. *)
Notation BM A := (M (S * bytes) omemo_error A).

Definition b_tape {A} (f : bytes → bytes * res omemo_error A) : BM A :=
  λ w, let '(t, r) := f w.2 in ((w.1, t), r).
Definition b_read {A} (f : S → res omemo_error A) : BM A := λ w, (w, f w.1).
Definition b_write (f : S → S * res omemo_error unit) : BM unit :=
  λ w, let '(s, r) := f w.1 in ((s, w.2), r).

Definition generateSignedPreKey (ikp : IdentityKeyPair) (id : N) : BM SignedPreKeyRecord :=
  do key <- b_tape GenerateX25519KeyPair;
  let pubBytes := x25519_pub key in
  do sig <- mlift (Sign (PrivateKey ikp) pubBytes);
  mok (mkSignedPreKey id key pubBytes sig).

Definition generatePreKey (id : N) : BM PreKeyRecord :=
  do key <- b_tape GenerateX25519KeyPair;
  mok (mkPreKey id key (x25519_pub key)).

(** The [for i := range preKeyCount] loop, from [i]. *)
Fixpoint generate_prekeys (n i : nat) : BM (list BundlePreKey) :=
  match n with
  | 0 => mok []
  | Datatypes.S n' =>
      do pk <- generatePreKey (u32 (N.of_nat (i + 1)));
      do_ b_write (SavePreKey pk);
      do rest <- generate_prekeys n' (Datatypes.S i);
      mok (mkBundlePreKey (pk_ID pk) (pk_PublicKey pk) :: rest)
  end.

Definition GenerateBundle (preKeyCount : nat) : BM Bundle :=
  do ikp <- b_read GetIdentityKeyPair;
  do ikp <- match ikp with
            | Some ikp => mok ikp
            | None =>
                do ikp <- b_tape GenerateIdentityKeyPair;
                do_ b_write (SaveIdentityKeyPair ikp);
                mok ikp
            end;
  do spk <- generateSignedPreKey ikp 1;
  do_ b_write (SaveSignedPreKey spk);
  do preKeys <- generate_prekeys preKeyCount 0;
  mok (mkBundle (PublicKey ikp) (spk_PublicKey spk) (spk_ID spk) (spk_Signature spk) preKeys).

(** ** What a generated bundle is *)

Section Spec.
Context `{!CryptoLaws} (view : S → store_view) `{!StoreLaws S view}.

(** One-time pre-keys with their identifiers. *)
Fixpoint number (i : nat) (opks : list bytes) : list (N * bytes) :=
  match opks with
  | [] => []
  | k :: ks => (N.of_nat (i + 1), k) :: number (Datatypes.S i) ks
  end.

Definition prekey_record (o : N * bytes) : PreKeyRecord := mkPreKey o.1 o.2 (x25519_pub o.2).

Definition save_all (l : list (N * bytes)) (m : gmap N PreKeyRecord) : gmap N PreKeyRecord :=
  fold_left (λ m o, <[o.1 := prekey_record o]> m) l m.

Lemma save_all_fresh l m j : j ∉ l.*1 → save_all l m !! j = m !! j.
Proof.
  revert m. induction l as [|o l IH]; intros m Hj; [done|]. cbn in *.
  apply not_elem_of_cons in Hj as [Hne Hj]. fold (save_all l (<[o.1:=prekey_record o]> m)).
  rewrite IH, lookup_insert_ne by done. done.
Qed.

Lemma number_fst_ge i l j : j ∈ (number i l).*1 → (N.of_nat i < j)%N.
Proof.
  revert i. induction l as [|k l IH]; intros i; cbn; [by rewrite elem_of_nil|].
  rewrite elem_of_cons. intros [->|Hj]; [lia|]. apply IH in Hj. lia.
Qed.

Lemma save_all_head i k ks m :
  save_all (number i (k :: ks)) m !! N.of_nat (i + 1) = Some (prekey_record (N.of_nat (i + 1), k)).
Proof.
  cbn [number save_all fold_left fst]. fold (save_all (number (Datatypes.S i) ks)
    (<[N.of_nat (i + 1):=prekey_record (N.of_nat (i + 1), k)]> m)).
  rewrite save_all_fresh, lookup_insert_eq; [done|]. intros Hin%number_fst_ge. lia.
Qed.

Lemma generate_prekeys_spec opks i s t :
  Forall key32 opks → (N.of_nat (i + length opks) < two32)%N →
  ∃ s', generate_prekeys (length opks) i (s, concat opks ++ t) =
          ((s', t), Ok ((λ o, mkBundlePreKey o.1 (x25519_pub o.2)) <$> number i opks)) ∧
    view s' = vset_prekeys (save_all (number i opks) (v_prekeys (view s))) (view s).
Proof.
  intros Hk. revert i s. induction Hk as [|k ks Hk Hks IH]; intros i s Hb.
  { exists s. split; [done|]. by destruct (view s). }
  cbn [generate_prekeys length concat]. unfold generatePreKey at 1. rewrite <- app_assoc.
  unfold mbnd at 1, mbnd at 1, b_tape at 1, GenerateX25519KeyPair. cbn [fst snd].
  rewrite rand_read_app by done. cbn [mok]. cbn [length] in Hb.
  rewrite u32_small by (unfold is_u32; lia).
  destruct (law_SavePreKey view (prekey_record (N.of_nat (i + 1), k)) s) as (s1 & E1 & V1).
  unfold mbnd at 1, b_write. cbn [fst snd].
  unfold prekey_record in E1. cbn [fst snd] in E1. rewrite E1.
  destruct (IH (Datatypes.S i) s1) as (s2 & E2 & V2); [lia|].
  unfold mbnd. rewrite E2. exists s2. split; [done|]. rewrite V2, V1. done.
Qed.

Lemma GenerateBundle_fresh n s seed spk opks t :
  v_identity (view s) = None → key32 seed → key32 spk → Forall key32 opks → length opks = n →
  (N.of_nat n < two32)%N →
  ∃ s' spkr, GenerateBundle n (s, seed ++ spk ++ concat opks ++ t) =
      ((s', t), Ok (bundle_of seed spk 1 (number 0 opks))) ∧
    spk_PrivateKey spkr = spk ∧
    view s' = vset_prekeys (save_all (number 0 opks) (v_prekeys (view s)))
                (vset_spks (<[1%N := spkr]> (v_spks (view s)))
                   (vset_identity (Some (identity_of seed)) (view s))).
Proof.
  intros Hid Hseed Hspk Hopks <- Hb. unfold GenerateBundle, b_read, mbnd at 1.
  cbn [fst]. rewrite (law_GetIdentityKeyPair view), Hid.
  unfold mbnd at 1, mbnd at 1, b_tape at 1, GenerateIdentityKeyPair. cbn [fst snd].
  rewrite rand_read_app by done. fold (identity_of seed).
  destruct (law_SaveIdentityKeyPair view (identity_of seed) s) as (s1 & E1 & V1).
  unfold mbnd at 1, b_write at 1. cbn [fst snd]. rewrite E1. cbn [mok].
  unfold generateSignedPreKey, mbnd at 1, mbnd at 1, b_tape, GenerateX25519KeyPair. cbn [fst snd].
  rewrite rand_read_app by done. unfold mbnd at 1, mlift, Sign.
  rewrite bool_decide_true; cycle 1.
  { cbn [PrivateKey identity_of]. rewrite length_app, ed25519_pub_length. unfold key32 in Hseed. lia. }
  set (spkr := mkSignedPreKey _ _ _ _).
  destruct (law_SaveSignedPreKey view spkr s1) as (s2 & E2 & V2). cbn [mok].
  unfold mbnd at 1, b_write at 1. cbn [fst snd]. rewrite E2.
  destruct (generate_prekeys_spec opks 0 s2 t) as (s3 & E3 & V3); [done|done|].
  unfold mbnd. rewrite E3. exists s3, spkr. split; [done|]. split; [done|]. by rewrite V3, V2, V1.
Qed.
End Spec.
End Bundles.
