(* ===== verification/OmemoManager.v ===== *)
(** * OMEMO: the manager (src/crypto/omemo/manager.go, message.go)

    [Manager] over any implementation of the [Store] interface: session lookup
    and creation, encryption for several recipients, decryption of ordinary and
    of pre-key messages.  The sessions the manager holds are pointers that the
    ratchet mutates: an operation on a session writes the entry of [sessions]
    back on every exit, failed ones included.  The theorem is end to end: from
    two generated key bundles, through the first pre-key message, to any number
    of replies, with either manager restarted from its store in between. *)

From Stdlib Require Import Ascii String NArith ZArith.
From S2P Require Import Prelude Bytes OmemoCrypto OmemoRatchet OmemoDelivery OmemoCodec OmemoX3dh OmemoStore.

Open Scope list_scope.
Open Scope go_scope.

Record MessageKey := mkMessageKey { DeviceID : N; Data : bytes; IsPreKey : bool }.

Record EncryptedMessage := mkEncrypted {
  SenderDeviceID : N;
  Keys : list MessageKey;
  IV : bytes;
  Payload : bytes
}.

Record Manager (S : Type) := mkManager {
  m_store : S;
  m_bundles : gmap Address Bundle;
  m_sessions : gmap Address Session
}.
Arguments mkManager {S}.
Arguments m_store {S}.
Arguments m_bundles {S}.
Arguments m_sessions {S}.

Section Manager.
Context `{Crypto} {S : Type} `{Store S}.

(** Manager and tape. *)
Notation world := (Manager S * bytes)%type.
Notation MM A := (M world omemo_error A).

(** The order in which a map iteration visits the skipped keys of a session,
    which may depend on anything. *)
Variable order : world → gmap skippedKey bytes → list (skippedKey * bytes).

Definition NewManager (store : S) : Manager S := mkManager store ∅ ∅.

Definition ProcessBundle (addr : Address) (bundle : Bundle) (m : Manager S) : Manager S :=
  mkManager (m_store m) (<[addr := bundle]> (m_bundles m)) (m_sessions m).

(** Access to the parts of the world. *)
Definition s_read {A} (f : S → res omemo_error A) : MM A := λ w, (w, f (m_store w.1)).
Definition s_write (f : S → S * res omemo_error unit) : MM unit :=
  λ w, let '(s, r) := f (m_store w.1) in
       ((mkManager s (m_bundles w.1) (m_sessions w.1), w.2), r).
Definition m_tape {A} (f : bytes → bytes * res omemo_error A) : MM A :=
  λ w, let '(t, r) := f w.2 in ((w.1, t), r).
Definition put_session (addr : Address) (s : Session) : MM unit :=
  λ w, ((mkManager (m_store w.1) (m_bundles w.1) (<[addr := s]> (m_sessions w.1)), w.2), Ok tt).
Definition put_bundle (addr : Address) (b : Bundle) : MM unit :=
  λ w, ((mkManager (m_store w.1) (<[addr := b]> (m_bundles w.1)) (m_sessions w.1), w.2), Ok tt).

(** A method of the session [s] that [sessions[addr]] points to: the result and
    the session afterwards. *)
Definition on_session {A} (addr : Address) (s : Session) (m : SM A) : MM (A * Session) :=
  λ w, let '((s', t), r) := m (s, w.2) in
       let m' := mkManager (m_store w.1) (m_bundles w.1) (<[addr := s']> (m_sessions w.1)) in
       ((m', t), res_bind r (λ a, Ok (a, s'))).

Definition Manager_GenerateBundle (preKeyCount : nat) : MM Bundle :=
  λ w, let '((s, t), r) := GenerateBundle preKeyCount (m_store w.1, w.2) in
       ((mkManager s (m_bundles w.1) (m_sessions w.1), t), r).

Definition saveSession (addr : Address) (session : Session) : MM unit :=
  λ w, (do data <- mlift (Session_MarshalBinary (order w (MKSkipped (Ratchet session))) session);
        s_write (SaveSession addr data)) w.

(** Sessions from memory, else from the store; a stored session that does not
    decode is ignored, unless decoding panics. *)
Definition load_session (addr : Address) : MM (option Session) :=
  λ w, match m_sessions w.1 !! addr with
       | Some session => (w, Ok (Some session))
       | None =>
           match GetSession addr (m_store w.1) with
           | Ok data =>
               match Session_UnmarshalBinary data with
               | Ok session => (do_ put_session addr session; mok (Some session)) w
               | Err _ => (w, Ok None)
               | Panic => (w, Panic)
               end
           | Err _ => (w, Ok None)
           | Panic => (w, Panic)
           end
       end.

Definition get_identity : MM IdentityKeyPair :=
  do ikp <- s_read GetIdentityKeyPair;
  match ikp with Some ikp => mok ikp | None => merr ErrNoIdentity end.

Definition getOrCreateSession (addr : Address) : MM Session :=
  do existing <- load_session addr;
  match existing with
  | Some session => mok session
  | None =>
      do w <- mget;
      match m_bundles w.1 !! addr with
      | None => merr ErrNoSession
      | Some bundle =>
          do ikp <- get_identity;
          do session <- m_tape (InitSessionAsAlice ikp bundle);
          do_ s_write (SaveRemoteIdentity addr (IdentityKey bundle));
          do_ put_bundle addr (mkBundle (IdentityKey bundle) (SignedPreKey bundle)
                 (SignedPreKeyID bundle) (SignedPreKeySignature bundle) (tail (PreKeys bundle)));
          do_ put_session addr session;
          mok session
      end
  end.

(** The responder's session is made from the sender's bundle, without a one-time
    pre-key and with a nil ephemeral key. *)
Definition createSessionFromPreKeyMessage (sender : Address) : MM Session :=
  do w <- mget;
  match m_bundles w.1 !! sender with
  | None => merr ErrNoSession
  | Some bundle =>
      do ikp <- get_identity;
      do spkRecord <- s_read (GetSignedPreKey (SignedPreKeyID bundle));
      do spkPrivate <- mlift (NewPrivateKey (spk_PrivateKey spkRecord));
      do session <- mlift (InitSessionAsBob ikp spkPrivate None (IdentityKey bundle) []);
      do_ s_write (SaveRemoteIdentity sender (IdentityKey bundle));
      do_ put_session sender session;
      mok session
  end.

Definition getOrCreateSessionForDecrypt (sender : Address) (isPreKey : bool) : MM Session :=
  do existing <- load_session sender;
  match existing with
  | Some session => mok session
  | None => if isPreKey then createSessionFromPreKeyMessage sender else merr ErrNoSession
  end.

(** ** Encryption *)

(** One round of the loop over the recipients. *)
Definition encrypt_for (keyMaterial : bytes) (addr : Address) : MM MessageKey :=
  do session <- getOrCreateSession addr;
  do ((header, ct, isPreKey), session) <- on_session addr session (Session_Encrypt keyMaterial);
  do headerBytes <- mlift (Header_MarshalBinary header);
  do_ saveSession addr session;
  mok (mkMessageKey addr.2 (headerBytes ++ ct) isPreKey).

Fixpoint encrypt_keys (keyMaterial : bytes) (recipients : list Address) : MM (list MessageKey) :=
  match recipients with
  | [] => mok []
  | addr :: rest =>
      do k <- encrypt_for keyMaterial addr;
      do ks <- encrypt_keys keyMaterial rest;
      mok (k :: ks)
  end.

Definition read_random (n : nat) (tape : bytes) : bytes * res omemo_error bytes :=
  match rand_read n tape with
  | Some (b, tape') => (tape', Ok b)
  | None => (tape, Err ErrRand)
  end.

Definition Encrypt (plaintext : bytes) (recipients : list Address) : MM EncryptedMessage :=
  do messageKey <- m_tape (read_random 32);
  do (iv, fullCiphertext) <- m_tape (aesGCMEncrypt messageKey plaintext);
  if (length fullCiphertext <? aesTagSize)%nat then merr ErrInvalidMessage else
  let n := length fullCiphertext - aesTagSize in
  let keyMaterial := messageKey ++ drop n fullCiphertext in
  do deviceID <- s_read GetLocalDeviceID;
  do keys <- encrypt_keys keyMaterial recipients;
  mok (mkEncrypted deviceID keys iv (take n fullCiphertext)).

(** ** Decryption *)

(** The key addressed to this device, its header and its ciphertext. *)
Definition our_key (msg : EncryptedMessage) : MM (MessageKey * RatchetHeader * bytes) :=
  do deviceID <- s_read GetLocalDeviceID;
  match list_find (λ k, DeviceID k = deviceID) (Keys msg) with
  | None => merr ErrInvalidMessage
  | Some (_, ourKey) =>
      if (length (Data ourKey) <? ratchetHeaderSize)%nat then merr ErrInvalidMessage else
      do header <- mlift (Header_UnmarshalBinary (take ratchetHeaderSize (Data ourKey)));
      mok (ourKey, header, drop ratchetHeaderSize (Data ourKey))
  end.

(** Ratchet decryption of the key material, then of the payload. *)
Definition decrypt_with (sender : Address) (session : Session) (header : RatchetHeader)
    (ratchetCiphertext : bytes) (msg : EncryptedMessage) : MM bytes :=
  do (keyMaterial, session) <- on_session sender session (Session_Decrypt header ratchetCiphertext);
  if bool_decide (length keyMaterial ≠ 48) then merr ErrInvalidMessage else
  do plaintext <- mlift (aesGCMDecrypt (take 32 keyMaterial) (IV msg) (Payload msg ++ drop 32 keyMaterial));
  do_ saveSession sender session;
  mok plaintext.

Definition Decrypt (sender : Address) (msg : EncryptedMessage) : MM bytes :=
  do (ourKey, header, ratchetCiphertext) <- our_key msg;
  do session <- getOrCreateSessionForDecrypt sender (IsPreKey ourKey);
  decrypt_with sender session header ratchetCiphertext msg.

(** The error of [RemovePreKey] is ignored. *)
Definition take_prekey (usedPreKeyID : option N) : MM (option bytes) :=
  match usedPreKeyID with
  | None => mok None
  | Some id =>
      do opkRecord <- s_read (GetPreKey id);
      do opkPrivate <- mlift (NewPrivateKey (pk_PrivateKey opkRecord));
      λ w, let '(w', r) := s_write (RemovePreKey id) w in
           (w', match r with Panic => Panic | _ => Ok (Some opkPrivate) end)
  end.

Definition DecryptPreKeyMessage (sender : Address) (senderIdentityKey ephemeralPubKey : bytes)
    (usedPreKeyID : option N) (signedPreKeyID : N) (msg : EncryptedMessage) : MM bytes :=
  do ikp <- get_identity;
  do spkRecord <- s_read (GetSignedPreKey signedPreKeyID);
  do spkPrivate <- mlift (NewPrivateKey (spk_PrivateKey spkRecord));
  do opkPrivate <- take_prekey usedPreKeyID;
  do session <- mlift (InitSessionAsBob ikp spkPrivate opkPrivate senderIdentityKey ephemeralPubKey);
  do_ s_write (SaveRemoteIdentity sender senderIdentityKey);
  do_ put_session sender session;
  do (ourKey, header, ratchetCiphertext) <- our_key msg;
  decrypt_with sender session header ratchetCiphertext msg.

(** ** Sessions in memory and in the store *)

Section Correct.
Context `{!CryptoLaws} `{!IdentityLaws} (view : S → store_view) `{!StoreLaws S view}.
Hypothesis order_ok : ∀ w m, iter_order m (order w m).

Definition device (m : Manager S) : N := v_device (view (m_store m)).

(** The store of [m] holds the session [s] of [addr]. *)
Definition stored (m : Manager S) (addr : Address) (s : Session) : Prop :=
  ∃ data, v_sessions (view (m_store m)) !! addr = Some data ∧ Session_UnmarshalBinary data = Ok s.

(** [m] has the session [s] of [addr], in its store and, unless it was restarted
    since, in memory. *)
Definition knows (m : Manager S) (addr : Address) (s : Session) : Prop :=
  stored m addr s ∧ (m_sessions m !! addr = Some s ∨ m_sessions m !! addr = None).

Lemma load_session_known m t addr s :
  knows m addr s →
  ∃ m', load_session addr (m, t) = ((m', t), Ok (Some s)) ∧ m_store m' = m_store m.
Proof.
  intros [(data & Hd & Hu) [Hs|Hs]]; unfold load_session; cbn [fst]; rewrite Hs.
  - by exists m.
  - rewrite (law_GetSession view), Hd. cbn [or_err]. rewrite Hu. by eexists.
Qed.

Lemma saveSession_ok m t addr s :
  session_wf s → m_sessions m !! addr = Some s →
  ∃ m', saveSession addr s (m, t) = ((m', t), Ok tt) ∧ knows m' addr s ∧ device m' = device m.
Proof.
  intros W Hs. unfold saveSession.
  pose proof (Session_decode_encode s _ W (order_ok (m, t) (MKSkipped (Ratchet s)))) as (data & E & Hu).
  unfold mbnd at 1, mlift at 1. rewrite E. unfold s_write. cbn [fst snd].
  destruct (law_SaveSession view addr data (m_store m)) as (s' & E' & V). rewrite E'.
  eexists. split; [done|]. unfold knows, stored, device. cbn [m_store m_sessions]. rewrite V. split.
  - split; [|by left]. exists data. cbn [v_sessions vset_sessions]. by rewrite lookup_insert_eq.
  - done.
Qed.

(** Replacing the ratchet of a session. *)
Definition with_ratchet (r : RatchetState) (s : Session) : Session :=
  mkSession r (RemoteIdentity s) (s_PendingPreKey s).
Definition replied (r : RatchetState) (s : Session) : Session := mkSession r (RemoteIdentity s) None.

Lemma encrypt_for_ok addr km s m t0 m1 nonce t a' h c :
  getOrCreateSession addr (m, t0) = ((m1, nonce ++ t), Ok s) →
  RatchetEncrypt km (Ratchet s, nonce ++ t) = ((a', t), Ok (h, c)) →
  key32 (h_DHPub h) → session_wf (with_ratchet a' s) →
  ∃ m' hb, encrypt_for km addr (m, t0) =
      ((m', t), Ok (mkMessageKey addr.2 (hb ++ c) (bool_decide (is_Some (s_PendingPreKey s))))) ∧
    Header_MarshalBinary h = Ok hb ∧
    knows m' addr (with_ratchet a' s) ∧ device m' = device m1.
Proof.
  intros Hget Henc Hh W. unfold encrypt_for, mbnd at 1. rewrite Hget.
  unfold mbnd at 1, on_session, Session_Encrypt, mbnd at 1, on_ratchet. cbn [fst snd].
  rewrite Henc. cbn [fst snd res_bind Ratchet RemoteIdentity s_PendingPreKey].
  unfold Header_MarshalBinary. unfold mbnd at 1, mlift. rewrite bool_decide_false by auto.
  fold (with_ratchet a' s).
  destruct (saveSession_ok (mkManager (m_store m1) (m_bundles m1)
    (<[addr:=with_ratchet a' s]> (m_sessions m1))) t addr (with_ratchet a' s) W) as (m' & E & Hk & Hd).
  { cbn [m_sessions]. by rewrite lookup_insert_eq. }
  unfold mbnd. rewrite E. by eexists _, _.
Qed.

(** The key material and the payload of a message. *)
Definition material (mk iv pt : bytes) : bytes := mk ++ drop (length pt) (gcm_seal mk iv pt).
Definition payload (mk iv pt : bytes) : bytes := take (length pt) (gcm_seal mk iv pt).

Lemma material_length mk iv pt : key32 mk → length (material mk iv pt) = 48.
Proof.
  unfold key32, material. intros Hk. rewrite length_app, length_drop, gcm_seal_length. lia.
Qed.

Lemma Encrypt_ok addr mk iv pt s m t0 m1 nonce t a' h c :
  key32 mk → length iv = 12 →
  getOrCreateSession addr (m, t0) = ((m1, nonce ++ t), Ok s) →
  RatchetEncrypt (material mk iv pt) (Ratchet s, nonce ++ t) = ((a', t), Ok (h, c)) →
  key32 (h_DHPub h) → session_wf (with_ratchet a' s) →
  ∃ m' hb, Encrypt pt [addr] (m, mk ++ iv ++ t0) =
      ((m', t), Ok (mkEncrypted (device m)
         [mkMessageKey addr.2 (hb ++ c) (bool_decide (is_Some (s_PendingPreKey s)))] iv (payload mk iv pt))) ∧
    Header_MarshalBinary h = Ok hb ∧ knows m' addr (with_ratchet a' s) ∧ device m' = device m1.
Proof.
  intros Hmk Hiv Hget Henc Hh W.
  destruct (encrypt_for_ok addr (material mk iv pt) s m t0 m1 nonce t a' h c)
    as (m' & hb & E & Hhb & Hk & Hd); try done.
  exists m', hb. split; [|done]. unfold Encrypt, mbnd at 1, m_tape at 1, read_random. cbn [fst snd].
  rewrite rand_read_app by done. unfold mbnd at 1, m_tape. cbn [fst snd].
  destruct (aesGCM_roundtrip mk pt iv t0 Hmk Hiv) as [-> _].
  rewrite gcm_seal_length. unfold aesTagSize. rewrite (proj2 (Nat.ltb_ge _ _)) by lia.
  replace (length pt + 16 - 16) with (length pt) by lia.
  unfold mbnd at 1, s_read. cbn [fst]. rewrite (law_GetLocalDeviceID view).
  fold (material mk iv pt). cbn [encrypt_keys]. unfold mbnd at 1, mbnd at 1. rewrite E. done.
Qed.

Lemma our_key_ok m t msg dev h hb c p :
  device m = dev → Keys msg = [mkMessageKey dev (hb ++ c) p] → Header_MarshalBinary h = Ok hb →
  is_u32 (h_N h) → is_u32 (h_PN h) →
  our_key msg (m, t) = ((m, t), Ok (mkMessageKey dev (hb ++ c) p, h, c)).
Proof.
  intros Hdev Hk Hm HN HP. unfold our_key, mbnd at 1, s_read. cbn [fst].
  rewrite (law_GetLocalDeviceID view), Hk. unfold device in Hdev. rewrite Hdev.
  cbn [list_find]. rewrite decide_True by done.
  destruct (Header_decode_encode h hb Hm HN HP) as [Hl Hu].
  cbn [Data]. rewrite (proj2 (Nat.ltb_ge _ _)) by (rewrite length_app; lia).
  rewrite take_app_length', drop_app_length' by done. unfold mbnd, mlift. by rewrite Hu.
Qed.

Lemma decrypt_with_ok addr s m t f b' h c mk iv pt msg :
  RatchetDecrypt h c (Ratchet s, f ++ t) = ((b', t), Ok (material mk iv pt)) →
  key32 mk → length iv = 12 → IV msg = iv → Payload msg = payload mk iv pt →
  session_wf (replied b' s) →
  ∃ m', decrypt_with addr s h c msg (m, f ++ t) = ((m', t), Ok pt) ∧
    knows m' addr (replied b' s) ∧ device m' = device m.
Proof.
  intros Hdec Hmk Hiv EIV EP W. unfold decrypt_with, mbnd at 1, on_session, Session_Decrypt, mbnd at 1, on_ratchet.
  cbn [fst snd]. rewrite Hdec. cbn [fst snd res_bind Ratchet RemoteIdentity s_PendingPreKey].
  rewrite bool_decide_false by (rewrite material_length by done; auto).
  assert (take 32 (material mk iv pt) = mk ∧
          drop 32 (material mk iv pt) = drop (length pt) (gcm_seal mk iv pt)) as [-> ->].
  { unfold material, key32 in *. by rewrite take_app_length', drop_app_length'. }
  rewrite EIV, EP. unfold payload. rewrite take_drop. unfold mbnd at 1, mlift.
  destruct (aesGCM_roundtrip mk pt iv [] Hmk Hiv) as [_ ->].
  fold (replied b' s).
  destruct (saveSession_ok (mkManager (m_store m) (m_bundles m)
    (<[addr:=replied b' s]> (m_sessions m))) t addr (replied b' s) W) as (m' & E & Hk & Hd).
  { cbn [m_sessions]. by rewrite lookup_insert_eq. }
  unfold mbnd. rewrite E. by eexists.
Qed.

(** ** A dialogue of two managers *)

(** One message and its reception: the plaintext, the randomness drawn (message
    key, initialisation vector and ratchet nonce by the sender, ratchet key by
    the receiver), and whether sender and receiver are restarted from their
    stores before. *)
Record exchange := mkExchange {
  e_pt : bytes; e_mk : bytes; e_iv : bytes; e_nonce : bytes; e_key : bytes;
  e_restart_sender : bool; e_restart_receiver : bool
}.

Definition exchange_ok (e : exchange) : Prop :=
  key32 (e_mk e) ∧ length (e_iv e) = 12 ∧ length (e_nonce e) = 12 ∧ key32 (e_key e).

Definition maybe_restart (b : bool) (m : Manager S) : Manager S :=
  if b then NewManager (m_store m) else m.

(** [mA] (device [addrA]) speaks first, to [mB] (device [addrB]); then the roles
    change. *)
Fixpoint dialogue (es : list exchange) (mA mB : Manager S) (addrA addrB : Address)
  : res omemo_error (list bytes) :=
  match es with
  | [] => Ok []
  | e :: es' =>
      match Encrypt (e_pt e) [addrB] (maybe_restart (e_restart_sender e) mA, e_mk e ++ e_iv e ++ e_nonce e) with
      | ((mA', _), Ok msg) =>
          match Decrypt addrA msg (maybe_restart (e_restart_receiver e) mB, e_key e) with
          | ((mB', _), Ok pt) => res_bind (dialogue es' mB' mA' addrB addrA) (λ r, Ok (pt :: r))
          | (_, Err x) => Err x
          | (_, Panic) => Panic
          end
      | (_, Err x) => Err x
      | (_, Panic) => Panic
      end
  end.

Record linked (mA mB : Manager S) (addrA addrB : Address) (sA sB : Session) : Prop := {
  l_A : knows mA addrB sA;
  l_B : knows mB addrA sB;
  l_devA : device mA = addrA.2;
  l_devB : device mB = addrB.2;
  l_wfA : session_wf sA;
  l_wfB : session_wf sB;
  l_ahead : ahead (Ratchet sA) (Ratchet sB)
}.

Lemma knows_restart b m addr s : knows m addr s → knows (maybe_restart b m) addr s.
Proof. intros [? ?]. by destruct b; split; auto. Qed.

Lemma device_restart b m : device (maybe_restart b m) = device m.
Proof. by destruct b. Qed.

Lemma linked_restart b1 b2 mA mB addrA addrB sA sB :
  linked mA mB addrA addrB sA sB →
  linked (maybe_restart b1 mA) (maybe_restart b2 mB) addrA addrB sA sB.
Proof. intros []. split; rewrite ?device_restart; auto using knows_restart. Qed.

Lemma getOrCreateSession_known m t addr s :
  knows m addr s →
  ∃ m', getOrCreateSession addr (m, t) = ((m', t), Ok s) ∧ m_store m' = m_store m.
Proof.
  intros Hk. destruct (load_session_known m t addr s Hk) as (m' & E & Hs). exists m'. split; [|done].
  unfold getOrCreateSession, mbnd. by rewrite E.
Qed.

(** A well-formed session stays so when its ratchet moves to a well-formed state
    without skipped keys. *)
Lemma session_wf_move s r p :
  session_wf s → ratchet_wf r → MKSkipped r = ∅ → p = s_PendingPreKey s ∨ p = None →
  session_wf (mkSession r (RemoteIdentity s) p).
Proof.
  intros [] Hr He Hp. split; cbn [Ratchet RemoteIdentity s_PendingPreKey]; [done| |done|].
  - by rewrite He, map_size_empty.
  - by destruct Hp as [->| ->].
Qed.

Lemma exchange_step e mA mB addrA addrB sA sB :
  linked mA mB addrA addrB sA sB → exchange_ok e →
  x25519_pub (e_key e) ≠ x25519_pub (DHs (Ratchet sB)) →
  ∃ mA' mB' msg sA' sB',
    Encrypt (e_pt e) [addrB] (mA, e_mk e ++ e_iv e ++ e_nonce e) = ((mA', []), Ok msg) ∧
    Decrypt addrA msg (mB, e_key e) = ((mB', []), Ok (e_pt e)) ∧
    linked mB' mA' addrB addrA sB' sA' ∧
    DHs (Ratchet sB') = e_key e ∧ DHs (Ratchet sA') = DHs (Ratchet sA).
Proof.
  intros L (Hmk & Hiv & Hn & Hk) Hf.
  destruct (message_delivered (Ratchet sA) (Ratchet sB) (e_key e)
    (material (e_mk e) (e_iv e) (e_pt e)) (e_nonce e) (l_ahead _ _ _ _ _ _ L)) as
    (a' & b' & h & c & He & Hd & A & HDb & HDa); try done.
  destruct (RatchetEncrypt_wf _ (Ratchet sA, e_nonce e ++ []) _ _ (wf_ratchet _ (l_wfA _ _ _ _ _ _ L)) (He []))
    as (Wa & Hh & HN & HP).
  pose proof (RatchetDecrypt_wf h c (Ratchet sB, e_key e ++ []) _ _ (wf_ratchet _ (l_wfB _ _ _ _ _ _ L)) (Hd [])) as Wb.
  cbn [fst] in *.
  destruct (getOrCreateSession_known mA (e_nonce e ++ []) addrB sA (l_A _ _ _ _ _ _ L)) as (m1 & Eg & Es).
  assert (session_wf (with_ratchet a' sA)) as WA.
  { apply session_wf_move; [apply L|done|apply A|by left]. }
  destruct (Encrypt_ok addrB (e_mk e) (e_iv e) (e_pt e) sA mA _ m1 _ [] a' h c Hmk Hiv Eg (He _) Hh WA)
    as (mA' & hb & EE & Hhb & HkA & HdA).
  rewrite app_nil_r in EE.
  assert (session_wf (replied b' sB)) as WB.
  { apply session_wf_move; [apply L|done|apply A|by right]. }
  destruct (load_session_known mB (e_key e ++ []) addrA sB (l_B _ _ _ _ _ _ L)) as (m2 & El & Es2).
  set (msg := mkEncrypted _ _ _ _) in EE.
  destruct (decrypt_with_ok addrA sB m2 [] (e_key e) b' h c (e_mk e) (e_iv e) (e_pt e) msg)
    as (mB' & ED & HkB & HdB); try done.
  exists mA', mB', msg, (with_ratchet a' sA), (replied b' sB). split; [done|]. split; [|split; [|done]].
  - rewrite <- (app_nil_r (e_key e)). unfold Decrypt, mbnd at 1. rewrite (our_key_ok mB _ msg addrB.2 h hb c (bool_decide (is_Some (s_PendingPreKey sA))));
      [|apply L|done..].
    unfold getOrCreateSessionForDecrypt. unfold mbnd at 1, mbnd at 1. rewrite El. exact ED.
  - split; try done.
    + rewrite HdB. unfold device. rewrite Es2. apply L.
    + rewrite HdA. unfold device. rewrite Es. apply L.
Qed.

Lemma dialogue_ok es mA mB addrA addrB sA sB :
  linked mA mB addrA addrB sA sB → Forall exchange_ok es →
  fresh (x25519_pub (DHs (Ratchet sA))) (x25519_pub (DHs (Ratchet sB))) (e_key <$> es) →
  dialogue es mA mB addrA addrB = Ok (e_pt <$> es).
Proof.
  revert mA mB addrA addrB sA sB.
  induction es as [|e es IH]; intros mA mB addrA addrB sA sB L Hok Hf; [done|].
  apply Forall_cons in Hok as [He Hok]. destruct Hf as [Hf1 Hf2].
  destruct (exchange_step e _ _ _ _ _ _ (linked_restart (e_restart_sender e) (e_restart_receiver e) _ _ _ _ _ _ L) He Hf1)
    as (mA' & mB' & msg & sA' & sB' & EE & ED & L' & HB & HA).
  cbn [dialogue]. rewrite EE, ED, (IH _ _ _ _ _ _ L'); [done|done|]. by rewrite HB, HA.
Qed.

(** ** First contact *)

Lemma getOrCreateSession_new m t0 t addr ikp bundle s :
  m_sessions m !! addr = None → v_sessions (view (m_store m)) !! addr = None →
  m_bundles m !! addr = Some bundle → v_identity (view (m_store m)) = Some ikp →
  InitSessionAsAlice ikp bundle t0 = (t, Ok s) →
  ∃ m', getOrCreateSession addr (m, t0) = ((m', t), Ok s) ∧ device m' = device m.
Proof.
  intros Hs Hst Hb Hi Hinit. unfold getOrCreateSession, mbnd at 1, load_session. cbn [fst].
  rewrite Hs, (law_GetSession view), Hst. cbn [or_err]. unfold mbnd at 1, mget. cbn [fst]. rewrite Hb.
  unfold mbnd at 1, get_identity, mbnd at 1, s_read. cbn [fst].
  rewrite (law_GetIdentityKeyPair view), Hi. cbn [mok].
  unfold mbnd at 1, m_tape. cbn [fst snd]. rewrite Hinit.
  destruct (law_SaveRemoteIdentity view addr (IdentityKey bundle) (m_store m)) as (st & E & V).
  unfold mbnd at 1, s_write. cbn [fst snd]. rewrite E. eexists. split; [done|].
  unfold device. cbn [m_store fst]. by rewrite V.
Qed.

Lemma take_prekey_ok m t o :
  match o with
  | Some (i, k) => key32 k ∧ v_prekeys (view (m_store m)) !! i = Some (prekey_record (i, k))
  | None => True
  end →
  ∃ m', take_prekey (fst <$> o) (m, t) = ((m', t), Ok (snd <$> o)) ∧ device m' = device m.
Proof.
  destruct o as [[i k]|]; cbn [fmap option_fmap option_map fst snd]; [|by exists m].
  intros [Hk Hl]. unfold take_prekey, mbnd at 1, s_read. cbn [fst].
  rewrite (law_GetPreKey view), Hl. cbn [or_err pk_PrivateKey prekey_record fst snd].
  unfold mbnd at 1, mlift, NewPrivateKey. rewrite bool_decide_true by done.
  unfold s_write. cbn [fst snd].
  destruct (law_RemovePreKey view i (m_store m)) as (st & E & V). rewrite E.
  eexists. split; [done|]. unfold device. cbn [m_store]. by rewrite V.
Qed.

(** The responder's side, up to the decryption. *)
Lemma DecryptPreKeyMessage_ok m t f addr ikp spkr spk o idkey eph spk_id msg s h hb c p mk iv pt b' :
  v_identity (view (m_store m)) = Some ikp →
  v_spks (view (m_store m)) !! spk_id = Some spkr → spk_PrivateKey spkr = spk → key32 spk →
  match o with
  | Some (i, k) => key32 k ∧ v_prekeys (view (m_store m)) !! i = Some (prekey_record (i, k))
  | None => True
  end →
  InitSessionAsBob ikp spk (snd <$> o) idkey eph = Ok s →
  Keys msg = [mkMessageKey (device m) (hb ++ c) p] → Header_MarshalBinary h = Ok hb →
  is_u32 (h_N h) → is_u32 (h_PN h) →
  RatchetDecrypt h c (Ratchet s, f ++ t) = ((b', t), Ok (material mk iv pt)) →
  key32 mk → length iv = 12 → IV msg = iv → Payload msg = payload mk iv pt →
  session_wf (replied b' s) →
  ∃ m', DecryptPreKeyMessage addr idkey eph (fst <$> o) spk_id msg (m, f ++ t) = ((m', t), Ok pt) ∧
    knows m' addr (replied b' s) ∧ device m' = device m.
Proof.
  intros Hi Hspk Hpriv Hk Ho Hinit Hkeys Hhb HN HP Hdec Hmk Hiv EIV EP W.
  unfold DecryptPreKeyMessage, get_identity. unfold mbnd at 1, mbnd at 1, s_read at 1. cbn [fst].
  rewrite (law_GetIdentityKeyPair view), Hi. cbn [mok].
  unfold mbnd at 1, s_read at 1. cbn [fst]. rewrite (law_GetSignedPreKey view), Hspk. cbn [or_err].
  unfold mbnd at 1, mlift at 1, NewPrivateKey. rewrite Hpriv, bool_decide_true by done.
  destruct (take_prekey_ok m (f ++ t) o Ho) as (m1 & E1 & D1). unfold mbnd at 1. rewrite E1.
  unfold mbnd at 1, mlift at 1. rewrite Hinit.
  destruct (law_SaveRemoteIdentity view addr idkey (m_store m1)) as (st & E2 & V2).
  unfold mbnd at 1, s_write at 1. cbn [fst snd]. rewrite E2.
  unfold mbnd at 1, put_session at 1. cbn [fst snd m_store m_bundles m_sessions].
  set (m2 := mkManager _ _ _).
  assert (device m2 = device m) as D2.
  { unfold device, m2. cbn [m_store]. rewrite V2. exact D1. }
  unfold mbnd at 1. rewrite (our_key_ok m2 _ msg (device m) h hb c p) by done.
  destruct (decrypt_with_ok addr s m2 t f b' h c mk iv pt msg) as (m' & ED & HkB & HdB); try done.
  exists m'. split; [exact ED|]. split; [done|]. by rewrite HdB.
Qed.

Lemma bob_session_wf sk spk id : key32 sk → key32 spk → key32 id →
  session_wf (mkSession (InitRatchetAsBob sk spk) id None).
Proof. intros Hk Hs Hid. by split. Qed.

Lemma head_number_record opks m :
  match head (number 0 opks) with
  | Some (i, k) => key32 k ∧ save_all (number 0 opks) m !! i = Some (prekey_record (i, k))
  | None => True
  end ∨ ¬ Forall key32 opks.
Proof.
  destruct opks as [|k ks]; [by left|]. destruct (decide (length k = 32)) as [Hk|Hk].
  - left. cbn [number head]. split; [done|]. apply (save_all_head 0).
  - right. intros Hall. by apply Forall_cons in Hall as [? _].
Qed.

Lemma number_Forall i opks : Forall key32 opks → Forall (λ o, key32 o.2) (number i opks).
Proof. intros Hk. revert i. induction Hk; intros i; cbn [number]; by constructor. Qed.

(** The randomness a party draws in [GenerateBundle]. *)
Record party := mkParty { p_seed : bytes; p_spk : bytes; p_opks : list bytes }.
Definition party_ok (p : party) : Prop :=
  key32 (p_seed p) ∧ key32 (p_spk p) ∧ Forall key32 (p_opks p) ∧
  (N.of_nat (length (p_opks p)) < two32)%N.
Definition party_tape (p : party) : bytes := p_seed p ++ p_spk p ++ concat (p_opks p).
Definition party_bundle (p : party) : Bundle := bundle_of (p_seed p) (p_spk p) 1 (number 0 (p_opks p)).

(** The manager of a party after [GenerateBundle]. *)
Record ready (p : party) (m : Manager S) : Prop := {
  rd_identity : v_identity (view (m_store m)) = Some (identity_of (p_seed p));
  rd_spk : ∃ spkr, v_spks (view (m_store m)) !! 1%N = Some spkr ∧ spk_PrivateKey spkr = p_spk p;
  rd_opk : match head (number 0 (p_opks p)) with
           | Some (i, k) => key32 k ∧ v_prekeys (view (m_store m)) !! i = Some (prekey_record (i, k))
           | None => True
           end
}.

Lemma Manager_GenerateBundle_ready p s :
  party_ok p → v_identity (view s) = None →
  ∃ m, Manager_GenerateBundle (length (p_opks p)) (NewManager s, party_tape p) =
         ((m, []), Ok (party_bundle p)) ∧
    ready p m ∧ m_sessions m = ∅ ∧ device m = v_device (view s) ∧
    v_sessions (view (m_store m)) = v_sessions (view s).
Proof.
  intros (Hs & Hk & Ho & Hn) Hid. unfold Manager_GenerateBundle, party_tape, NewManager. cbn [fst snd m_store].
  destruct (GenerateBundle_fresh view (length (p_opks p)) s (p_seed p) (p_spk p) (p_opks p) [])
    as (s' & spkr & E & Hpriv & V); try done.
  rewrite app_nil_r in E. rewrite E. eexists. split; [done|]. unfold device. cbn [m_store m_sessions].
  rewrite V. split; [|done]. split; cbn [m_store]; rewrite V.
  - done.
  - exists spkr. split; [|done]. cbn. by rewrite lookup_insert_eq.
  - cbn [v_prekeys vset_prekeys]. by destruct (head_number_record (p_opks p) (v_prekeys (view s))).
Qed.

(** The first message, from its sender's bundle of the receiver to the
    receiver's pre-key decryption. *)
Lemma first_contact pA pB mA mB addrA addrB e ek f :
  party_ok pA → party_ok pB → exchange_ok e → key32 ek → key32 f →
  ready pA mA → ready pB mB → device mA = addrA.2 → device mB = addrB.2 →
  m_sessions mA !! addrB = None → v_sessions (view (m_store mA)) !! addrB = None →
  x25519_pub (e_key e) ≠ x25519_pub (p_spk pB) →
  ∃ mA' mB' msg sA sB,
    Encrypt (e_pt e) [addrB] (ProcessBundle addrB (party_bundle pB) mA,
      e_mk e ++ e_iv e ++ ek ++ f ++ e_nonce e) = ((mA', []), Ok msg) ∧
    DecryptPreKeyMessage addrA (IdentityKey (party_bundle pA)) (x25519_pub ek)
      (bp_ID <$> head (PreKeys (party_bundle pB))) (SignedPreKeyID (party_bundle pB)) msg (mB, e_key e)
      = ((mB', []), Ok (e_pt e)) ∧
    linked mB' mA' addrB addrA sB sA ∧ DHs (Ratchet sB) = e_key e ∧ DHs (Ratchet sA) = f.
Proof.
  intros (HsA & HkA & HoA & _) (HsB & HkB & HoB & _) (Hmk & Hiv & Hn & Hk) Hek Hf RA RB DA DB Hm Hv Hfr.
  destruct (InitSessionAsAlice_ok (p_seed pA) (p_seed pB) (p_spk pB) 1 (number 0 (p_opks pB)) ek f
    (e_nonce e ++ [])) as (sk & a & Ea & Eb & Hsk & A & HD & Ha); try done; [by apply number_Forall|].
  destruct (message_delivered _ _ (e_key e) (material (e_mk e) (e_iv e) (e_pt e)) (e_nonce e) A)
    as (a' & b' & h & c & He & Hd & A' & HDb & HDa); try done.
  set (sA0 := mkSession a _ _) in Ea. set (sB0 := mkSession (InitRatchetAsBob sk (p_spk pB)) _ None) in Eb.
  assert (ratchet_wf a) as Wa0 by (by eapply InitRatchetAsAlice_wf).
  assert (session_wf sB0) as WB0 by (by apply bob_session_wf; [..|apply ed25519_pub_length]).
  destruct (RatchetEncrypt_wf _ (a, e_nonce e ++ []) _ _ Wa0 (He [])) as (Wa & Hh & HN & HP).
  pose proof (RatchetDecrypt_wf h c (Ratchet sB0, e_key e ++ []) _ _ (wf_ratchet _ WB0) (Hd [])) as Wb.
  cbn [fst] in *.
  assert (session_wf (with_ratchet a' sA0)) as WA.
  { split; cbn [Ratchet with_ratchet RemoteIdentity s_PendingPreKey sA0]; [done| |apply ed25519_pub_length|].
    - by rewrite (ah_skip_b _ _ A'), map_size_empty.
    - split; [|split; [done|by apply x25519_pub_length]]. by destruct (p_opks pB). }
  assert (session_wf (replied b' sB0)) as WB.
  { apply session_wf_move; [done|done|apply A'|by right]. }
  destruct (getOrCreateSession_new (ProcessBundle addrB (party_bundle pB) mA) (ek ++ f ++ e_nonce e ++ []) (e_nonce e ++ [])
    addrB (identity_of (p_seed pA)) (party_bundle pB) sA0) as (m1 & Eg & D1); try done; [|apply RA|].
  { cbn [m_bundles ProcessBundle]. by rewrite lookup_insert_eq. }
  destruct (Encrypt_ok addrB (e_mk e) (e_iv e) (e_pt e) sA0 _ _ m1 (e_nonce e) [] a' h c Hmk Hiv Eg (He _) Hh WA)
    as (mA' & hb & EE & Hhb & HKA & HdA).
  rewrite app_nil_r in EE. set (msg := mkEncrypted _ _ _ _) in EE.
  destruct (rd_spk _ _ RB) as (spkr & Hspkr & Hpriv).
  destruct (DecryptPreKeyMessage_ok mB [] (e_key e) addrA (identity_of (p_seed pB)) spkr (p_spk pB)
    (head (number 0 (p_opks pB))) (ed25519_pub (p_seed pA)) (x25519_pub ek) 1 msg sB0 h hb c true
    (e_mk e) (e_iv e) (e_pt e) b') as (mB' & ED & HKB & HdB); try done; [apply RB|apply RB|by rewrite DB|].
  rewrite app_nil_r in ED.
  exists mA', mB', msg, (with_ratchet a' sA0), (replied b' sB0). split; [done|]. split; [|split].
  - cbn [party_bundle bundle_of IdentityKey SignedPreKeyID PreKeys]. rewrite <- ED. f_equal.
    by destruct (p_opks pB).
  - split; try done; [by rewrite HdB|rewrite HdA, D1; done].
  - cbn [Ratchet with_ratchet replied]. by rewrite HDb, HDa, HD.
Qed.

(** ** The guarantees *)

(** C5: end to end.  Two parties generate their bundles into fresh stores; the
    first one encrypts a message for the second from its bundle; the second
    decrypts it with [DecryptPreKeyMessage], told the sender's identity key, the
    ephemeral key and the used pre-keys; then they answer each other in turn,
    any number of times, either of them being restarted from its store whenever
    one likes.  Every plaintext arrives. *)
Theorem manager_end_to_end pA pB sA sB addrA addrB e ek f es :
  party_ok pA → party_ok pB → exchange_ok e → key32 ek → key32 f → Forall exchange_ok es →
  v_identity (view sA) = None → v_identity (view sB) = None →
  v_device (view sA) = addrA.2 → v_device (view sB) = addrB.2 →
  v_sessions (view sA) !! addrB = None →
  fresh (x25519_pub f) (x25519_pub (p_spk pB)) (e_key e :: (e_key <$> es)) →
  ∃ mA bA mB bB mA' mB' msg,
    Manager_GenerateBundle (length (p_opks pA)) (NewManager sA, party_tape pA) = ((mA, []), Ok bA) ∧
    Manager_GenerateBundle (length (p_opks pB)) (NewManager sB, party_tape pB) = ((mB, []), Ok bB) ∧
    Encrypt (e_pt e) [addrB] (ProcessBundle addrB bB mA, e_mk e ++ e_iv e ++ ek ++ f ++ e_nonce e)
      = ((mA', []), Ok msg) ∧
    DecryptPreKeyMessage addrA (IdentityKey bA) (x25519_pub ek) (bp_ID <$> head (PreKeys bB))
      (SignedPreKeyID bB) msg (mB, e_key e) = ((mB', []), Ok (e_pt e)) ∧
    dialogue es mB' mA' addrB addrA = Ok (e_pt <$> es).
Proof.
  intros HA HB He Hek Hf Hes IA IB DA DB Hst [Hf1 Hf2].
  destruct (Manager_GenerateBundle_ready pA sA HA IA) as (mA & EA & RA & SA & DA' & VA).
  destruct (Manager_GenerateBundle_ready pB sB HB IB) as (mB & EB & RB & _ & DB' & _).
  destruct (first_contact pA pB mA mB addrA addrB e ek f)
    as (mA' & mB' & msg & s1 & s2 & EE & ED & L & HDB & HDA); try done;
    [congruence|congruence|by rewrite SA|by rewrite VA|].
  exists mA, (party_bundle pA), mB, (party_bundle pB), mA', mB', msg.
  do 4 (split; [done|]). apply (dialogue_ok es mB' mA' addrB addrA s2 s1); [done|done|].
  by rewrite HDB, HDA.
Qed.

(** [Decrypt] cannot start a session: for a pre-key message of a sender with
    no session, in memory or stored, [createSessionFromPreKeyMessage] passes a nil
    ephemeral key to the key agreement, so that no message is ever decrypted on
    that path, whatever the stores and bundles hold. *)
Theorem Decrypt_prekey_never sender msg m t pt :
  m_sessions m !! sender = None → v_sessions (view (m_store m)) !! sender = None →
  (Decrypt sender msg (m, t)).2 ≠ Ok pt.
Proof.
  intros Hm Hv. unfold Decrypt, mbnd at 1.
  assert ((our_key msg (m, t)).1 = (m, t)) as Hw.
  { unfold our_key, mbnd, s_read, mlift, merr, mok. cbn [fst]. repeat case_match; simplify_eq; done. }
  destruct (our_key msg (m, t)) as [w [[[k h] c]|x|]] eqn:E; [|done|done]. cbn [fst] in Hw. subst w.
  unfold getOrCreateSessionForDecrypt. unfold mbnd at 1, mbnd at 1, load_session. cbn [fst].
  rewrite Hm, (law_GetSession view), Hv. cbn [or_err].
  destruct (IsPreKey k); [|done]. unfold createSessionFromPreKeyMessage, mbnd at 1, mget. cbn [fst].
  destruct (m_bundles m !! sender) as [b|]; [|done].
  unfold get_identity. unfold mbnd at 1, mbnd at 1, s_read at 1. cbn [fst].
  destruct (GetIdentityKeyPair (m_store m)) as [[i|]|x|]; [|done..]. cbn [mok].
  unfold mbnd at 1, s_read at 1. cbn [fst].
  destruct (GetSignedPreKey (SignedPreKeyID b) (m_store m)) as [r|x|]; [|done..].
  unfold mbnd at 1, mlift at 1. destruct (NewPrivateKey (spk_PrivateKey r)) as [k'|x|]; [|done..].
  unfold mbnd at 1, mlift at 1. unfold InitSessionAsBob, X3DHRespond.
  destruct (Ed25519PublicKeyToX25519 (IdentityKey b)) as [u|x|]; [|done..]. cbn [res_bind].
  destruct (Ed25519PrivateKeyToX25519 (PrivateKey i)) as [l|x|]; [|done..]. cbn [res_bind].
  destruct (x25519DH k' u) as [d1|x|]; [|done..]. cbn [res_bind].
  assert (x25519DH l [] = Err ErrCrypto) as ->; [|done].
  unfold x25519DH. by rewrite bool_decide_false.
Qed.

(** The identity key the store has for [addr]. *)
Definition remote_is (addr : Address) (key : bytes) (w : world) : Prop :=
  v_remote (view (m_store w.1)) !! addr = Some key.

Lemma our_key_remote addr key msg : safe (remote_is addr key) (our_key msg) (λ _, True).
Proof.
  intros w Hw. split; [|done].
  unfold our_key, mbnd, s_read, mlift, merr, mok. repeat case_match; simplify_eq; done.
Qed.

Lemma decrypt_with_remote addr key sender s h c msg :
  safe (remote_is addr key) (decrypt_with sender s h c msg) (λ _, True).
Proof.
  unfold decrypt_with. eapply safe_bind with (Q := λ _, True).
  { intros [m t] Hw. split; [|done]. unfold on_session. cbn [fst snd].
    by destruct (Session_Decrypt h c (s, t)) as [[s' t'] r]. }
  intros [km s'] _. case_match; [auto with go|]. eapply safe_bind with (Q := λ _, True); [by auto with go|].
  intros pt _. eapply safe_bind with (Q := λ _, True); [|by auto with go].
  intros [m t] Hw. split; [|done]. unfold saveSession, mbnd, mlift. cbn [fst].
  destruct (Session_MarshalBinary _ s') as [data|x|]; [|done..]. unfold s_write. cbn [fst snd].
  destruct (law_SaveSession view sender data (m_store m)) as (st & E & V). rewrite E.
  unfold remote_is in *. cbn [fst m_store]. by rewrite V.
Qed.

(** The identity key presented in a pre-key message is stored as the trusted
    one, whatever the store had for the sender: after [DecryptPreKeyMessage]
    returns a plaintext, [IsTrusted] accepts that key, even if it rejected it
    before. *)
Theorem DecryptPreKeyMessage_trusts sender idkey eph used spk_id msg w w' pt :
  DecryptPreKeyMessage sender idkey eph used spk_id msg w = (w', Ok pt) →
  IsTrusted sender idkey (m_store w'.1) = Ok true.
Proof.
  unfold DecryptPreKeyMessage. unfold mbnd at 1.
  destruct (get_identity w) as [w1 [ikp|x|]]; [|done..]. unfold mbnd at 1, s_read at 1.
  destruct (GetSignedPreKey spk_id (m_store w1.1)) as [r|x|]; [|done..].
  unfold mbnd at 1, mlift at 1. destruct (NewPrivateKey _) as [k|x|]; [|done..].
  unfold mbnd at 1. destruct (take_prekey used w1) as [w2 [o|x|]]; [|done..].
  unfold mbnd at 1, mlift at 1. destruct (InitSessionAsBob _ _ _ _ _) as [s|x|]; [|done..].
  unfold mbnd at 1, s_write at 1.
  destruct (law_SaveRemoteIdentity view sender idkey (m_store w2.1)) as (st & E2 & V2). rewrite E2.
  unfold mbnd at 1, put_session at 1. cbn [fst snd m_store m_bundles m_sessions].
  set (w3 := (mkManager _ _ _, w2.2)). assert (remote_is sender idkey w3) as H3.
  { unfold remote_is, w3. cbn [fst m_store]. rewrite V2. cbn. by rewrite lookup_insert_eq. }
  unfold mbnd at 1. pose proof (our_key_remote sender idkey msg w3 H3) as [H4 _].
  destruct (our_key msg w3) as [w4 [[[k4 h4] c4]|x|]]; [|done..]. cbn [fst] in H4.
  intros Hrun. pose proof (decrypt_with_remote sender idkey sender s h4 c4 msg w4 H4) as [H5 _].
  rewrite Hrun in H5. cbn [fst] in H5. rewrite (law_IsTrusted view). unfold remote_is in H5. rewrite H5.
  by rewrite bool_decide_true.
Qed.
End Correct.
End Manager.

(** ** Instances *)

Module ManagerExample.
#[local] Existing Instance Toy.crypto.
#[local] Existing Instance Toy.laws.
#[local] Existing Instance Toy.identity_laws.

Definition key (c : ascii) : bytes := replicate 32 c.
Definition n12 (c : ascii) : bytes := replicate 12 c.
Definition text (s : string) : bytes := list_ascii_of_string s.
Definition alice : Address := ("alice@example.org"%string, 11%N).
Definition bob : Address := ("bob@example.org"%string, 22%N).
Definition pA := mkParty (key "A") (key "1") [].
Definition pB := mkParty (key "B") (key "2") [key "3"; key "4"].
Definition storeA := MemoryStore.NewMemoryStore 11.
Definition storeB := MemoryStore.NewMemoryStore 22.
Definition hello := mkExchange (text "hello") (key "m") (n12 "i") (n12 "n") (key "b") false false.
Definition replies :=
  [mkExchange (text "hi alice") (key "o") (n12 "p") (n12 "q") (key "r") false true;
   mkExchange (text "") (key "s") (n12 "t") (n12 "u") (key "v") true false].
Definition order (w : Manager MemoryStore.t * bytes) (m : gmap skippedKey bytes) := map_to_list m.

Lemma order_is_order w m : iter_order m (order w m).
Proof. unfold iter_order, order. reflexivity. Qed.

Lemma manager_end_to_end_witness :
  ∃ mA bA mB bB mA' mB' msg,
    Manager_GenerateBundle 0 (NewManager storeA, party_tape pA) = ((mA, []), Ok bA) ∧
    Manager_GenerateBundle 2 (NewManager storeB, party_tape pB) = ((mB, []), Ok bB) ∧
    Encrypt order (text "hello") [bob]
      (ProcessBundle bob bB mA, key "m" ++ n12 "i" ++ key "e" ++ key "f" ++ n12 "n") = ((mA', []), Ok msg) ∧
    DecryptPreKeyMessage order alice (IdentityKey bA) (x25519_pub (key "e")) (bp_ID <$> head (PreKeys bB))
      (SignedPreKeyID bB) msg (mB, key "b") = ((mB', []), Ok (text "hello")) ∧
    dialogue order replies mB' mA' bob alice = Ok [text "hi alice"; text ""].
Proof.
  apply (manager_end_to_end order MemoryStore.view order_is_order pA pB storeA storeB alice bob hello
           (key "e") (key "f") replies); try done; repeat constructor; discriminate.
Defined.

(** A responder that already has another identity key for the sender. *)
Definition responder :=
  (Manager_GenerateBundle 2
     (NewManager (MemoryStore.SaveRemoteIdentity alice (key "x") storeB).1, party_tape pB)).1.1.
Definition initiator := (Manager_GenerateBundle 0 (NewManager storeA, party_tape pA)).1.1.
Definition first_message := match
  (Encrypt order (text "hello") [bob] (ProcessBundle bob (party_bundle pB) initiator,
     key "m" ++ n12 "i" ++ key "e" ++ key "f" ++ n12 "n")).2 with
  | Ok msg => msg | _ => mkEncrypted 0 [] [] [] end.
Definition reception :=
  DecryptPreKeyMessage order alice (IdentityKey (party_bundle pA)) (key "e") (Some 1%N) 1
    first_message (responder, key "b").

Lemma DecryptPreKeyMessage_trusts_witness :
  IsTrusted alice (IdentityKey (party_bundle pA)) (m_store responder) = Ok false ∧
  IsTrusted alice (IdentityKey (party_bundle pA)) (m_store reception.1.1) = Ok true.
Proof.
  split; [by vm_compute|].
  apply (DecryptPreKeyMessage_trusts order MemoryStore.view alice (IdentityKey (party_bundle pA)) (key "e")
           (Some 1%N) 1 first_message (responder, key "b") reception.1 (text "hello")).
  fold reception. rewrite (surjective_pairing reception) at 1. by vm_compute.
Defined.

Lemma Decrypt_prekey_never_witness :
  (Decrypt order alice first_message (ProcessBundle alice (party_bundle pA) responder, key "b")).2
    ≠ Ok (text "hello").
Proof.
  by apply (Decrypt_prekey_never order MemoryStore.view).
Defined.
End ManagerExample.
