(* ===== verification/Storage.v ===== *)
(** * Storage: data and contract (src/storage/*.go)

    The records the stores keep, the operations of the nine store interfaces as
    one type of calls, and the contract as an abstract machine: a flat map per
    interface, the effect of every call on it and what the answer may be.  A
    listing answers with the values at the keys of one owner, each exactly once,
    in any order. *)

From Stdlib Require Import Ascii String ZArith.
From stdpp Require Import pretty.
From S2P Require Import Prelude Bytes.

Open Scope list_scope.

Inductive storage_error := ErrNotFound | ErrUserExists | ErrAuthFailed.
#[global] Instance storage_error_eq_dec : EqDecision storage_error.
Proof. solve_decision. Defined.

(** [time.Time] as nanoseconds since the zero time. *)
Notation time := Z.
Definition IsZero (t : time) : bool := (t =? 0)%Z.

(** ** Records *)

Record User := mkUser {
  Username : string; Password : string; Salt : string; Iterations : Z;
  ServerKey : string; StoredKey : string; u_CreatedAt : time; u_UpdatedAt : time
}.

Record RosterItem := mkRosterItem {
  r_UserJID : string; ContactJID : string; r_Name : string;
  Subscription : string; Ask : string; Groups : list string
}.

Record OfflineMessage := mkOffline {
  o_ID : string; o_UserJID : string; o_FromJID : string; o_Data : bytes; o_CreatedAt : time
}.

Record ArchivedMessage := mkArchived {
  a_ID : string; a_UserJID : string; a_WithJID : string; a_FromJID : string;
  a_Data : bytes; a_CreatedAt : time
}.

Record MAMQuery := mkQuery {
  q_UserJID : string; q_WithJID : string; q_Start : time; q_End : time;
  q_AfterID : string; q_BeforeID : string; q_Max : Z
}.

Record MAMResult := mkMAMResult {
  Messages : list ArchivedMessage; Complete : bool; First : string; Last : string; Count : Z
}.

Record MUCRoom := mkRoom {
  m_RoomJID : string; m_Name : string; Description : string; Subject : string;
  m_Password : string; Public : bool; Persistent : bool; MaxUsers : Z
}.

Record MUCAffiliation := mkAffiliation {
  f_RoomJID : string; f_UserJID : string; Affiliation : string; Reason : string
}.

Record PubSubNode := mkNode {
  n_Host : string; n_NodeID : string; n_Name : string; n_Type : string;
  Config : option (gmap string string); Creator : string
}.

Record PubSubItem := mkItem {
  i_Host : string; i_NodeID : string; i_ItemID : string; Publisher : string;
  i_Payload : bytes; i_CreatedAt : time
}.

Record PubSubSubscription := mkSubscription {
  s_Host : string; s_NodeID : string; s_JID : string; SubID : string; s_State : string
}.

Record Bookmark := mkBookmark {
  b_UserJID : string; b_RoomJID : string; b_Name : string; Nick : string;
  b_Password : string; Autojoin : bool
}.

(** ** Calls and answers *)

Inductive call :=
  | CCreateUser (u : User) | CGetUser (name : string) | CUpdateUser (u : User)
  | CDeleteUser (name : string) | CUserExists (name : string)
  | CAuthenticate (name password : string)
  | CUpsertRosterItem (i : RosterItem) | CGetRosterItem (user contact : string)
  | CGetRosterItems (user : string) | CDeleteRosterItem (user contact : string)
  | CGetRosterVersion (user : string) | CSetRosterVersion (user version : string)
  | CBlockJID (user jid : string) | CUnblockJID (user jid : string)
  | CIsBlocked (user jid : string) | CGetBlockedJIDs (user : string)
  | CSetVCard (user : string) (data : bytes) | CGetVCard (user : string) | CDeleteVCard (user : string)
  | CStoreOfflineMessage (m : OfflineMessage) | CGetOfflineMessages (user : string)
  | CDeleteOfflineMessages (user : string) | CCountOfflineMessages (user : string)
  | CArchiveMessage (m : ArchivedMessage) | CQueryMessages (q : MAMQuery)
  | CDeleteMessageArchive (user : string)
  | CCreateRoom (r : MUCRoom) | CGetRoom (room : string) | CUpdateRoom (r : MUCRoom)
  | CDeleteRoom (room : string) | CListRooms
  | CSetAffiliation (a : MUCAffiliation) | CGetAffiliation (room user : string)
  | CGetAffiliations (room : string) | CRemoveAffiliation (room user : string)
  | CCreateNode (n : PubSubNode) | CGetNode (host node : string) | CDeleteNode (host node : string)
  | CListNodes (host : string)
  | CUpsertItem (i : PubSubItem) | CGetItem (host node item : string)
  | CGetItems (host node : string) | CDeleteItem (host node item : string)
  | CSubscribe (s : PubSubSubscription) | CUnsubscribe (host node jid : string)
  | CGetSubscription (host node jid : string) | CGetSubscriptions (host node : string)
  | CGetUserSubscriptions (host jid : string)
  | CSetBookmark (b : Bookmark) | CGetBookmark (user room : string)
  | CGetBookmarks (user : string) | CDeleteBookmark (user room : string).

(** [AFailed] is an error of the backend itself: a failed system call, a document
    that cannot be encoded or decoded. *)
Inductive answer :=
  | AUnit | AErr (e : storage_error) | AFailed | APanic | ABool (b : bool) | AStr (s : string) | ABytes (b : bytes)
  | ACount (n : Z) | AStrs (l : list string)
  | AUser (u : User) | ARoster (i : RosterItem) | ARosters (l : list RosterItem)
  | AOffline (l : list OfflineMessage) | AMAM (r : MAMResult)
  | ARoom (r : MUCRoom) | ARooms (l : list MUCRoom)
  | AAff (a : MUCAffiliation) | AAffs (l : list MUCAffiliation)
  | ANode (n : PubSubNode) | ANodes (l : list PubSubNode)
  | AItem (i : PubSubItem) | AItems (l : list PubSubItem)
  | ASub (s : PubSubSubscription) | ASubs (l : list PubSubSubscription)
  | ABookmark (b : Bookmark) | ABookmarks (l : list Bookmark).

(** ** Archive queries *)

(** The part of the archive a query is about, by the identifiers: after the first
    message with [AfterID] (all of it when the identifier is empty, nothing when
    it is not there), and before the next message with [BeforeID]. *)
Fixpoint after_id (id : string) (l : list ArchivedMessage) : list ArchivedMessage :=
  match l with
  | [] => []
  | m :: l' => if bool_decide (a_ID m = id) then l' else after_id id l'
  end.

Fixpoint before_id (id : string) (l : list ArchivedMessage) : list ArchivedMessage :=
  match l with
  | [] => []
  | m :: l' => if bool_decide (a_ID m = id) then [] else m :: before_id id l'
  end.

Definition in_page (q : MAMQuery) (l : list ArchivedMessage) : list ArchivedMessage :=
  let l := if bool_decide (q_AfterID q = ""%string) then l else after_id (q_AfterID q) l in
  if bool_decide (q_BeforeID q = ""%string) then l else before_id (q_BeforeID q) l.

(** The filters on correspondent and time, and the requested size. *)
Definition selected (q : MAMQuery) (m : ArchivedMessage) : Prop :=
  (q_WithJID q = ""%string ∨ a_WithJID m = q_WithJID q) ∧
  (q_Start q = 0%Z ∨ (q_Start q <= a_CreatedAt m)%Z) ∧
  (q_End q = 0%Z ∨ (a_CreatedAt m <= q_End q)%Z).
#[global] Instance selected_dec q m : Decision (selected q m).
Proof. apply _. Defined.

Definition page_size (q : MAMQuery) : nat :=
  if bool_decide (q_Max q <= 0)%Z then 100 else Z.to_nat (q_Max q).

Definition mam_answer (q : MAMQuery) (l : list ArchivedMessage) : MAMResult :=
  let all := filter (selected q) (in_page q l) in
  let page := take (page_size q) all in
  mkMAMResult page (bool_decide (length all ≤ page_size q)%nat)
    (default ""%string (a_ID <$> head page)) (default ""%string (a_ID <$> last page))
    (Z.of_nat (length page)).

(** A page made of one message more than asked for. *)
Lemma page_of_prefix {A} n (all : list A) :
  let got := take (S n) all in
  (Z.of_nat (length got) <=? Z.of_nat n)%Z = bool_decide (length all ≤ n)%nat ∧
  (if (Z.of_nat n <? Z.of_nat (length got))%Z then take n got else got) = take n all.
Proof.
  intros got. assert (length got = Nat.min (S n) (length all)) as Hl by apply length_take. split.
  - destruct (Z.leb_spec (Z.of_nat (length got)) (Z.of_nat n)); case_bool_decide; done || lia.
  - destruct (Z.ltb_spec (Z.of_nat n) (Z.of_nat (length got))).
    + unfold got. rewrite take_take. f_equal. lia.
    + unfold got in *. rewrite !take_ge; [done|lia..].
Qed.

(** ** The abstract machine *)

Record spec := mkSpec {
  sp_users : gmap string User;
  sp_roster : gmap (string * string) RosterItem;
  sp_versions : gmap string string;
  sp_blocked : gmap (string * string) bool;
  sp_vcards : gmap string bytes;
  sp_offline : gmap string (list OfflineMessage);
  sp_mam : gmap string (list ArchivedMessage);
  sp_counter : Z;
  sp_rooms : gmap string MUCRoom;
  sp_affs : gmap (string * string) MUCAffiliation;
  sp_nodes : gmap (string * string) PubSubNode;
  sp_items : gmap (string * string * string) PubSubItem;
  sp_subs : gmap (string * string * string) PubSubSubscription;
  sp_bookmarks : gmap (string * string) Bookmark
}.

(** Field updates. *)
Definition put_users v (a : spec) := mkSpec v (sp_roster a) (sp_versions a) (sp_blocked a) (sp_vcards a) (sp_offline a) (sp_mam a) (sp_counter a) (sp_rooms a) (sp_affs a) (sp_nodes a) (sp_items a) (sp_subs a) (sp_bookmarks a).
Definition put_roster v (a : spec) := mkSpec (sp_users a) v (sp_versions a) (sp_blocked a) (sp_vcards a) (sp_offline a) (sp_mam a) (sp_counter a) (sp_rooms a) (sp_affs a) (sp_nodes a) (sp_items a) (sp_subs a) (sp_bookmarks a).
Definition put_versions v (a : spec) := mkSpec (sp_users a) (sp_roster a) v (sp_blocked a) (sp_vcards a) (sp_offline a) (sp_mam a) (sp_counter a) (sp_rooms a) (sp_affs a) (sp_nodes a) (sp_items a) (sp_subs a) (sp_bookmarks a).
Definition put_blocked v (a : spec) := mkSpec (sp_users a) (sp_roster a) (sp_versions a) v (sp_vcards a) (sp_offline a) (sp_mam a) (sp_counter a) (sp_rooms a) (sp_affs a) (sp_nodes a) (sp_items a) (sp_subs a) (sp_bookmarks a).
Definition put_vcards v (a : spec) := mkSpec (sp_users a) (sp_roster a) (sp_versions a) (sp_blocked a) v (sp_offline a) (sp_mam a) (sp_counter a) (sp_rooms a) (sp_affs a) (sp_nodes a) (sp_items a) (sp_subs a) (sp_bookmarks a).
Definition put_offline v (a : spec) := mkSpec (sp_users a) (sp_roster a) (sp_versions a) (sp_blocked a) (sp_vcards a) v (sp_mam a) (sp_counter a) (sp_rooms a) (sp_affs a) (sp_nodes a) (sp_items a) (sp_subs a) (sp_bookmarks a).
Definition put_mam v (a : spec) := mkSpec (sp_users a) (sp_roster a) (sp_versions a) (sp_blocked a) (sp_vcards a) (sp_offline a) v (sp_counter a) (sp_rooms a) (sp_affs a) (sp_nodes a) (sp_items a) (sp_subs a) (sp_bookmarks a).
Definition put_counter v (a : spec) := mkSpec (sp_users a) (sp_roster a) (sp_versions a) (sp_blocked a) (sp_vcards a) (sp_offline a) (sp_mam a) v (sp_rooms a) (sp_affs a) (sp_nodes a) (sp_items a) (sp_subs a) (sp_bookmarks a).
Definition put_rooms v (a : spec) := mkSpec (sp_users a) (sp_roster a) (sp_versions a) (sp_blocked a) (sp_vcards a) (sp_offline a) (sp_mam a) (sp_counter a) v (sp_affs a) (sp_nodes a) (sp_items a) (sp_subs a) (sp_bookmarks a).
Definition put_affs v (a : spec) := mkSpec (sp_users a) (sp_roster a) (sp_versions a) (sp_blocked a) (sp_vcards a) (sp_offline a) (sp_mam a) (sp_counter a) (sp_rooms a) v (sp_nodes a) (sp_items a) (sp_subs a) (sp_bookmarks a).
Definition put_nodes v (a : spec) := mkSpec (sp_users a) (sp_roster a) (sp_versions a) (sp_blocked a) (sp_vcards a) (sp_offline a) (sp_mam a) (sp_counter a) (sp_rooms a) (sp_affs a) v (sp_items a) (sp_subs a) (sp_bookmarks a).
Definition put_items v (a : spec) := mkSpec (sp_users a) (sp_roster a) (sp_versions a) (sp_blocked a) (sp_vcards a) (sp_offline a) (sp_mam a) (sp_counter a) (sp_rooms a) (sp_affs a) (sp_nodes a) v (sp_subs a) (sp_bookmarks a).
Definition put_subs v (a : spec) := mkSpec (sp_users a) (sp_roster a) (sp_versions a) (sp_blocked a) (sp_vcards a) (sp_offline a) (sp_mam a) (sp_counter a) (sp_rooms a) (sp_affs a) (sp_nodes a) (sp_items a) v (sp_bookmarks a).
Definition put_bookmarks v (a : spec) := mkSpec (sp_users a) (sp_roster a) (sp_versions a) (sp_blocked a) (sp_vcards a) (sp_offline a) (sp_mam a) (sp_counter a) (sp_rooms a) (sp_affs a) (sp_nodes a) (sp_items a) (sp_subs a) v.

(** [l] has the values of [f], each once, in any order. *)
Definition lists {V} (f : string → option V) (l : list V) : Prop :=
  ∃ kl : list (string * V), l = kl.*2 ∧ NoDup kl.*1 ∧ ∀ k v, (k, v) ∈ kl ↔ f k = Some v.

Definition earlier (i j : PubSubItem) : Prop := (i_CreatedAt i <= i_CreatedAt j)%Z.

(** A timestamp that is filled in when the caller left it zero. *)
Definition stamp (now t : time) : time := if IsZero t then now else t.

(** [int64] increment. *)
Definition i64_succ (z : Z) : Z := ((z + 1 + 2 ^ 63) mod 2 ^ 64 - 2 ^ 63)%Z.

Section Spec.
Variable now : time.

Definition answers (r : answer) : answer → Prop := λ x, x = r.
Definition or_missing {A} (o : option A) (f : A → answer) : answer → Prop :=
  answers (match o with Some v => f v | None => AErr ErrNotFound end).

(** A call that needs the entry to be there. *)
Definition on_entry {A} (o : option A) (a a' : spec) : spec * (answer → Prop) :=
  match o with Some _ => (a', answers AUnit) | None => (a, answers (AErr ErrNotFound)) end.

Definition new_user (u : User) : User :=
  mkUser (Username u) (Password u) (Salt u) (Iterations u) (ServerKey u) (StoredKey u) now now.
Definition updated_user (u : User) : User :=
  mkUser (Username u) (Password u) (Salt u) (Iterations u) (ServerKey u) (StoredKey u) (u_CreatedAt u) now.
Definition stamped_offline (m : OfflineMessage) : OfflineMessage :=
  mkOffline (o_ID m) (o_UserJID m) (o_FromJID m) (o_Data m) (stamp now (o_CreatedAt m)).
Definition stamped_item (i : PubSubItem) : PubSubItem :=
  mkItem (i_Host i) (i_NodeID i) (i_ItemID i) (Publisher i) (i_Payload i) (stamp now (i_CreatedAt i)).

(** The stored form of an archived message, and the counter after it. *)
Definition archived (counter : Z) (m : ArchivedMessage) : ArchivedMessage * Z :=
  let at' := stamp now (a_CreatedAt m) in
  if bool_decide (a_ID m = ""%string)
  then (mkArchived (pretty (i64_succ counter)) (a_UserJID m) (a_WithJID m) (a_FromJID m) (a_Data m) at',
        i64_succ counter)
  else (mkArchived (a_ID m) (a_UserJID m) (a_WithJID m) (a_FromJID m) (a_Data m) at', counter).

Definition spec_call (c : call) (a : spec) : spec * (answer → Prop) :=
  match c with
  | CCreateUser u =>
      match sp_users a !! Username u with
      | Some _ => (a, answers (AErr ErrUserExists))
      | None => (put_users (<[Username u := new_user u]> (sp_users a)) a, answers AUnit)
      end
  | CGetUser n => (a, or_missing (sp_users a !! n) AUser)
  | CUpdateUser u => on_entry (sp_users a !! Username u) a
                       (put_users (<[Username u := updated_user u]> (sp_users a)) a)
  | CDeleteUser n => on_entry (sp_users a !! n) a (put_users (delete n (sp_users a)) a)
  | CUserExists n => (a, answers (ABool (bool_decide (is_Some (sp_users a !! n)))))
  | CAuthenticate n p =>
      (a, answers (if bool_decide (Password <$> sp_users a !! n = Some p)
                   then ABool true else AErr ErrAuthFailed))
  | CUpsertRosterItem i => (put_roster (<[(r_UserJID i, ContactJID i) := i]> (sp_roster a)) a, answers AUnit)
  | CGetRosterItem u c => (a, or_missing (sp_roster a !! (u, c)) ARoster)
  | CGetRosterItems u => (a, λ r, ∃ l, r = ARosters l ∧ lists (λ c, sp_roster a !! (u, c)) l)
  | CDeleteRosterItem u c => on_entry (sp_roster a !! (u, c)) a (put_roster (delete (u, c) (sp_roster a)) a)
  | CGetRosterVersion u => (a, answers (AStr (default ""%string (sp_versions a !! u))))
  | CSetRosterVersion u v => (put_versions (<[u := v]> (sp_versions a)) a, answers AUnit)
  | CBlockJID u j => (put_blocked (<[(u, j) := true]> (sp_blocked a)) a, answers AUnit)
  | CUnblockJID u j => (put_blocked (delete (u, j) (sp_blocked a)) a, answers AUnit)
  | CIsBlocked u j => (a, answers (ABool (default false (sp_blocked a !! (u, j)))))
  | CGetBlockedJIDs u =>
      (a, λ r, ∃ l, r = AStrs l ∧ NoDup l ∧ ∀ j, j ∈ l ↔ is_Some (sp_blocked a !! (u, j)))
  | CSetVCard u d => (put_vcards (<[u := d]> (sp_vcards a)) a, answers AUnit)
  | CGetVCard u => (a, or_missing (sp_vcards a !! u) ABytes)
  | CDeleteVCard u => on_entry (sp_vcards a !! u) a (put_vcards (delete u (sp_vcards a)) a)
  | CStoreOfflineMessage m =>
      (put_offline (<[o_UserJID m := default [] (sp_offline a !! o_UserJID m) ++ [stamped_offline m]]>
                      (sp_offline a)) a, answers AUnit)
  | CGetOfflineMessages u => (a, answers (AOffline (default [] (sp_offline a !! u))))
  | CDeleteOfflineMessages u => (put_offline (delete u (sp_offline a)) a, answers AUnit)
  | CCountOfflineMessages u =>
      (a, answers (ACount (Z.of_nat (length (default [] (sp_offline a !! u))))))
  | CArchiveMessage m =>
      let '(m', n) := archived (sp_counter a) m in
      (put_counter n (put_mam (<[a_UserJID m := default [] (sp_mam a !! a_UserJID m) ++ [m']]> (sp_mam a)) a),
       answers AUnit)
  | CQueryMessages q => (a, answers (AMAM (mam_answer q (default [] (sp_mam a !! q_UserJID q)))))
  | CDeleteMessageArchive u => (put_mam (delete u (sp_mam a)) a, answers AUnit)
  | CCreateRoom r =>
      match sp_rooms a !! m_RoomJID r with
      | Some _ => (a, answers (AErr ErrUserExists))
      | None => (put_rooms (<[m_RoomJID r := r]> (sp_rooms a)) a, answers AUnit)
      end
  | CGetRoom r => (a, or_missing (sp_rooms a !! r) ARoom)
  | CUpdateRoom r => on_entry (sp_rooms a !! m_RoomJID r) a (put_rooms (<[m_RoomJID r := r]> (sp_rooms a)) a)
  | CDeleteRoom r => on_entry (sp_rooms a !! r) a
      (put_rooms (delete r (sp_rooms a)) (put_affs (filter (λ kv, kv.1.1 ≠ r) (sp_affs a)) a))
  | CListRooms => (a, λ r, ∃ l, r = ARooms l ∧ lists (λ j, sp_rooms a !! j) l)
  | CSetAffiliation f => (put_affs (<[(f_RoomJID f, f_UserJID f) := f]> (sp_affs a)) a, answers AUnit)
  | CGetAffiliation r u => (a, or_missing (sp_affs a !! (r, u)) AAff)
  | CGetAffiliations r => (a, λ x, ∃ l, x = AAffs l ∧ lists (λ u, sp_affs a !! (r, u)) l)
  | CRemoveAffiliation r u => (put_affs (delete (r, u) (sp_affs a)) a, answers AUnit)
  | CCreateNode n =>
      match sp_nodes a !! (n_Host n, n_NodeID n) with
      | Some _ => (a, answers (AErr ErrUserExists))
      | None => (put_nodes (<[(n_Host n, n_NodeID n) := n]> (sp_nodes a)) a, answers AUnit)
      end
  | CGetNode h n => (a, or_missing (sp_nodes a !! (h, n)) ANode)
  | CDeleteNode h n => on_entry (sp_nodes a !! (h, n)) a
      (put_nodes (delete (h, n) (sp_nodes a))
        (put_items (filter (λ kv, kv.1.1 ≠ (h, n)) (sp_items a))
          (put_subs (filter (λ kv, kv.1.1 ≠ (h, n)) (sp_subs a)) a)))
  | CListNodes h => (a, λ r, ∃ l, r = ANodes l ∧ lists (λ n, sp_nodes a !! (h, n)) l)
  | CUpsertItem i =>
      (put_items (<[(i_Host i, i_NodeID i, i_ItemID i) := stamped_item i]> (sp_items a)) a, answers AUnit)
  | CGetItem h n i => (a, or_missing (sp_items a !! (h, n, i)) AItem)
  | CGetItems h n =>
      (a, λ r, ∃ l, r = AItems l ∧ Sorted earlier l ∧ lists (λ i, sp_items a !! (h, n, i)) l)
  | CDeleteItem h n i => on_entry (sp_items a !! (h, n, i)) a (put_items (delete (h, n, i) (sp_items a)) a)
  | CSubscribe s => (put_subs (<[(s_Host s, s_NodeID s, s_JID s) := s]> (sp_subs a)) a, answers AUnit)
  | CUnsubscribe h n j => (put_subs (delete (h, n, j) (sp_subs a)) a, answers AUnit)
  | CGetSubscription h n j => (a, or_missing (sp_subs a !! (h, n, j)) ASub)
  | CGetSubscriptions h n => (a, λ r, ∃ l, r = ASubs l ∧ lists (λ j, sp_subs a !! (h, n, j)) l)
  | CGetUserSubscriptions h j => (a, λ r, ∃ l, r = ASubs l ∧ lists (λ n, sp_subs a !! (h, n, j)) l)
  | CSetBookmark b => (put_bookmarks (<[(b_UserJID b, b_RoomJID b) := b]> (sp_bookmarks a)) a, answers AUnit)
  | CGetBookmark u r => (a, or_missing (sp_bookmarks a !! (u, r)) ABookmark)
  | CGetBookmarks u => (a, λ x, ∃ l, x = ABookmarks l ∧ lists (λ r, sp_bookmarks a !! (u, r)) l)
  | CDeleteBookmark u r => on_entry (sp_bookmarks a !! (u, r)) a
      (put_bookmarks (delete (u, r) (sp_bookmarks a)) a)
  end.
End Spec.

(** A run: calls with the time of each, and the answers observed. *)
Fixpoint spec_run (a : spec) (calls : list (time * call)) (rs : list answer) : Prop :=
  match calls, rs with
  | [], [] => True
  | (now, c) :: cs, r :: rs' => (spec_call now c a).2 r ∧ spec_run (spec_call now c a).1 cs rs'
  | _, _ => False
  end.

Definition spec_init : spec := mkSpec ∅ ∅ ∅ ∅ ∅ ∅ ∅ 0 ∅ ∅ ∅ ∅ ∅ ∅.
