(* ===== verification/MemoryStorage.v ===== *)
(** * The in-memory store (src/storage/memory/memory.go)

    Every operation of [memory.Store] on its nested maps, and the refinement
    theorem: any sequence of calls is answered the way the abstract machine of
    [Storage] allows.  The mutex makes each operation atomic; [time.Now()] and
    the order of a map iteration are arguments of the operations that use
    them.  The records are copied on the way in and out, so values model them. *)

From Stdlib Require Import Ascii String ZArith.
From stdpp Require Import pretty.
From S2P Require Import Prelude Bytes Storage.

Open Scope list_scope.
Open Scope go_scope.

Record Store := mkStore {
  users : gmap string User;
  rosterItems : gmap string (gmap string RosterItem);
  rosterVersions : gmap string string;
  blocked : gmap string (gmap string bool);
  vcards : gmap string bytes;
  offlineMsgs : gmap string (list OfflineMessage);
  mamMessages : gmap string (list ArchivedMessage);
  mamIDCounter : Z;
  mucRooms : gmap string MUCRoom;
  mucAffiliations : gmap string (gmap string MUCAffiliation);
  pubsubNodes : gmap string (gmap string PubSubNode);
  pubsubItems : gmap string (gmap string (gmap string PubSubItem));
  pubsubSubscriptions : gmap string (gmap string (gmap string PubSubSubscription));
  bookmarks : gmap string (gmap string Bookmark)
}.

(** Field updates. *)
Definition set_users v (s : Store) := mkStore v (rosterItems s) (rosterVersions s) (blocked s) (vcards s) (offlineMsgs s) (mamMessages s) (mamIDCounter s) (mucRooms s) (mucAffiliations s) (pubsubNodes s) (pubsubItems s) (pubsubSubscriptions s) (bookmarks s).
Definition set_rosterItems v (s : Store) := mkStore (users s) v (rosterVersions s) (blocked s) (vcards s) (offlineMsgs s) (mamMessages s) (mamIDCounter s) (mucRooms s) (mucAffiliations s) (pubsubNodes s) (pubsubItems s) (pubsubSubscriptions s) (bookmarks s).
Definition set_rosterVersions v (s : Store) := mkStore (users s) (rosterItems s) v (blocked s) (vcards s) (offlineMsgs s) (mamMessages s) (mamIDCounter s) (mucRooms s) (mucAffiliations s) (pubsubNodes s) (pubsubItems s) (pubsubSubscriptions s) (bookmarks s).
Definition set_blocked v (s : Store) := mkStore (users s) (rosterItems s) (rosterVersions s) v (vcards s) (offlineMsgs s) (mamMessages s) (mamIDCounter s) (mucRooms s) (mucAffiliations s) (pubsubNodes s) (pubsubItems s) (pubsubSubscriptions s) (bookmarks s).
Definition set_vcards v (s : Store) := mkStore (users s) (rosterItems s) (rosterVersions s) (blocked s) v (offlineMsgs s) (mamMessages s) (mamIDCounter s) (mucRooms s) (mucAffiliations s) (pubsubNodes s) (pubsubItems s) (pubsubSubscriptions s) (bookmarks s).
Definition set_offlineMsgs v (s : Store) := mkStore (users s) (rosterItems s) (rosterVersions s) (blocked s) (vcards s) v (mamMessages s) (mamIDCounter s) (mucRooms s) (mucAffiliations s) (pubsubNodes s) (pubsubItems s) (pubsubSubscriptions s) (bookmarks s).
Definition set_mamMessages v (s : Store) := mkStore (users s) (rosterItems s) (rosterVersions s) (blocked s) (vcards s) (offlineMsgs s) v (mamIDCounter s) (mucRooms s) (mucAffiliations s) (pubsubNodes s) (pubsubItems s) (pubsubSubscriptions s) (bookmarks s).
Definition set_mamIDCounter v (s : Store) := mkStore (users s) (rosterItems s) (rosterVersions s) (blocked s) (vcards s) (offlineMsgs s) (mamMessages s) v (mucRooms s) (mucAffiliations s) (pubsubNodes s) (pubsubItems s) (pubsubSubscriptions s) (bookmarks s).
Definition set_mucRooms v (s : Store) := mkStore (users s) (rosterItems s) (rosterVersions s) (blocked s) (vcards s) (offlineMsgs s) (mamMessages s) (mamIDCounter s) v (mucAffiliations s) (pubsubNodes s) (pubsubItems s) (pubsubSubscriptions s) (bookmarks s).
Definition set_mucAffiliations v (s : Store) := mkStore (users s) (rosterItems s) (rosterVersions s) (blocked s) (vcards s) (offlineMsgs s) (mamMessages s) (mamIDCounter s) (mucRooms s) v (pubsubNodes s) (pubsubItems s) (pubsubSubscriptions s) (bookmarks s).
Definition set_pubsubNodes v (s : Store) := mkStore (users s) (rosterItems s) (rosterVersions s) (blocked s) (vcards s) (offlineMsgs s) (mamMessages s) (mamIDCounter s) (mucRooms s) (mucAffiliations s) v (pubsubItems s) (pubsubSubscriptions s) (bookmarks s).
Definition set_pubsubItems v (s : Store) := mkStore (users s) (rosterItems s) (rosterVersions s) (blocked s) (vcards s) (offlineMsgs s) (mamMessages s) (mamIDCounter s) (mucRooms s) (mucAffiliations s) (pubsubNodes s) v (pubsubSubscriptions s) (bookmarks s).
Definition set_pubsubSubscriptions v (s : Store) := mkStore (users s) (rosterItems s) (rosterVersions s) (blocked s) (vcards s) (offlineMsgs s) (mamMessages s) (mamIDCounter s) (mucRooms s) (mucAffiliations s) (pubsubNodes s) (pubsubItems s) v (bookmarks s).
Definition set_bookmarks v (s : Store) := mkStore (users s) (rosterItems s) (rosterVersions s) (blocked s) (vcards s) (offlineMsgs s) (mamMessages s) (mamIDCounter s) (mucRooms s) (mucAffiliations s) (pubsubNodes s) (pubsubItems s) (pubsubSubscriptions s) v.

(** The order in which a [range] over a map visits its entries: an arbitrary
    permutation of them. *)
Record iteration := mkIteration { visit : ∀ V : Type, gmap string V → list (string * V) }.
Arguments visit _ {V} _.
Definition iteration_ok (it : iteration) : Prop := ∀ V (m : gmap string V), iter_order m (visit it m).

Notation SE A := (M Store storage_error A).

(** [m[k]] on a map of maps: a missing inner map is nil, which reads as empty. *)
Definition inner {V} (m : gmap string (gmap string V)) (k : string) : gmap string V := default ∅ (m !! k).

(** [if m[a] == nil { m[a] = make(...) }; m[a][b] = v]. *)
Definition nput {V} (a b : string) (v : V) (m : gmap string (gmap string V)) :=
  <[a := <[b := v]> (inner m a)]> m.

(** The value at [m[a][b]], looked up with the two-step [ok] idiom. *)
Definition nget {V} (m : gmap string (gmap string V)) (a b : string) : option V :=
  m !! a ≫= λ m', m' !! b.

(** [if inner, ok := m[a]; ok { delete(inner, b) }]. *)
Definition ndel {V} (a b : string) (m : gmap string (gmap string V)) :=
  match m !! a with Some m' => <[a := delete b m']> m | None => m end.

Definition found {A} (o : option A) : res storage_error A :=
  match o with Some a => Ok a | None => Err ErrNotFound end.

Definition initLocked : Store → Store :=
  λ s, mkStore ∅ ∅ ∅ ∅ ∅ ∅ ∅ (mamIDCounter s) ∅ ∅ ∅ ∅ ∅ ∅.
Definition New : Store := initLocked (mkStore ∅ ∅ ∅ ∅ ∅ ∅ ∅ 0 ∅ ∅ ∅ ∅ ∅ ∅).
Definition Init : SE unit := mmodify initLocked.

(** ** UserStore *)

Definition CreateUser (now : time) (user : User) : SE unit :=
  do s <- mget;
  match users s !! Username user with
  | Some _ => merr ErrUserExists
  | None =>
      let u := mkUser (Username user) (Password user) (Salt user) (Iterations user)
                 (ServerKey user) (StoredKey user) now now in
      mput (set_users (<[Username user := u]> (users s)) s)
  end.

Definition GetUser (username : string) (s : Store) : res storage_error User := found (users s !! username).

Definition UpdateUser (now : time) (user : User) : SE unit :=
  do s <- mget;
  match users s !! Username user with
  | None => merr ErrNotFound
  | Some _ =>
      let u := mkUser (Username user) (Password user) (Salt user) (Iterations user)
                 (ServerKey user) (StoredKey user) (u_CreatedAt user) now in
      mput (set_users (<[Username user := u]> (users s)) s)
  end.

Definition DeleteUser (username : string) : SE unit :=
  do s <- mget;
  match users s !! username with
  | None => merr ErrNotFound
  | Some _ => mput (set_users (delete username (users s)) s)
  end.

Definition UserExists (username : string) (s : Store) : bool := bool_decide (is_Some (users s !! username)).

Definition Authenticate (username password : string) (s : Store) : res storage_error bool :=
  match users s !! username with
  | None => Err ErrAuthFailed
  | Some u => if bool_decide (Password u ≠ password) then Err ErrAuthFailed else Ok true
  end.

(** ** RosterStore *)

Definition UpsertRosterItem (item : RosterItem) : SE unit :=
  mmodify (λ s, set_rosterItems (nput (r_UserJID item) (ContactJID item) item (rosterItems s)) s).

Definition GetRosterItem (userJID contactJID : string) (s : Store) : res storage_error RosterItem :=
  found (nget (rosterItems s) userJID contactJID).

Definition GetRosterItems (it : iteration) (userJID : string) (s : Store) : list RosterItem :=
  (visit it (inner (rosterItems s) userJID)).*2.

Definition DeleteRosterItem (userJID contactJID : string) : SE unit :=
  do s <- mget;
  match rosterItems s !! userJID with
  | None => merr ErrNotFound
  | Some items =>
      match items !! contactJID with
      | None => merr ErrNotFound
      | Some _ => mput (set_rosterItems (<[userJID := delete contactJID items]> (rosterItems s)) s)
      end
  end.

Definition GetRosterVersion (userJID : string) (s : Store) : string := default ""%string (rosterVersions s !! userJID).
Definition SetRosterVersion (userJID version : string) : SE unit :=
  mmodify (λ s, set_rosterVersions (<[userJID := version]> (rosterVersions s)) s).

(** ** BlockingStore *)

Definition BlockJID (userJID blockedJID : string) : SE unit :=
  mmodify (λ s, set_blocked (nput userJID blockedJID true (blocked s)) s).
Definition UnblockJID (userJID blockedJID : string) : SE unit :=
  mmodify (λ s, set_blocked (ndel userJID blockedJID (blocked s)) s).
Definition IsBlocked (userJID blockedJID : string) (s : Store) : bool :=
  match blocked s !! userJID with
  | None => false
  | Some m => default false (m !! blockedJID)
  end.
Definition GetBlockedJIDs (it : iteration) (userJID : string) (s : Store) : list string :=
  (visit it (inner (blocked s) userJID)).*1.

(** ** VCardStore *)

Definition SetVCard (userJID : string) (data : bytes) : SE unit :=
  mmodify (λ s, set_vcards (<[userJID := data]> (vcards s)) s).
Definition GetVCard (userJID : string) (s : Store) : res storage_error bytes := found (vcards s !! userJID).
Definition DeleteVCard (userJID : string) : SE unit :=
  do s <- mget;
  match vcards s !! userJID with
  | None => merr ErrNotFound
  | Some _ => mput (set_vcards (delete userJID (vcards s)) s)
  end.

(** ** OfflineStore *)

Definition StoreOfflineMessage (now : time) (msg : OfflineMessage) : SE unit :=
  let cp := if IsZero (o_CreatedAt msg)
            then mkOffline (o_ID msg) (o_UserJID msg) (o_FromJID msg) (o_Data msg) now else msg in
  mmodify (λ s, set_offlineMsgs
    (<[o_UserJID msg := default [] (offlineMsgs s !! o_UserJID msg) ++ [cp]]> (offlineMsgs s)) s).
Definition GetOfflineMessages (userJID : string) (s : Store) : list OfflineMessage :=
  default [] (offlineMsgs s !! userJID).
Definition DeleteOfflineMessages (userJID : string) : SE unit :=
  mmodify (λ s, set_offlineMsgs (delete userJID (offlineMsgs s)) s).
Definition CountOfflineMessages (userJID : string) (s : Store) : Z :=
  Z.of_nat (length (default [] (offlineMsgs s !! userJID))).

(** ** MAMStore *)

Definition ArchiveMessage (now : time) (msg : ArchivedMessage) : SE unit :=
  mmodify (λ s,
    let cp := if IsZero (a_CreatedAt msg)
              then mkArchived (a_ID msg) (a_UserJID msg) (a_WithJID msg) (a_FromJID msg) (a_Data msg) now
              else msg in
    let '(s, cp) :=
      if bool_decide (a_ID cp = ""%string) then
        let s := set_mamIDCounter (i64_succ (mamIDCounter s)) s in
        (s, mkArchived (pretty (mamIDCounter s)) (a_UserJID cp) (a_WithJID cp) (a_FromJID cp)
              (a_Data cp) (a_CreatedAt cp))
      else (s, cp) in
    set_mamMessages (<[a_UserJID msg := default [] (mamMessages s !! a_UserJID msg) ++ [cp]]> (mamMessages s)) s).

(** The loop of [QueryMessages]. *)
Fixpoint query_loop (q : MAMQuery) (afterIDFound : bool) (msgs : list ArchivedMessage) : list ArchivedMessage :=
  match msgs with
  | [] => []
  | msg :: rest =>
      if negb afterIDFound then
        query_loop q (bool_decide (a_ID msg = q_AfterID q)) rest
      else if negb (bool_decide (q_BeforeID q = ""%string)) && bool_decide (a_ID msg = q_BeforeID q) then []
      else if negb (bool_decide (q_WithJID q = ""%string)) && negb (bool_decide (a_WithJID msg = q_WithJID q))
        then query_loop q true rest
      else if negb (IsZero (q_Start q)) && (a_CreatedAt msg <? q_Start q)%Z then query_loop q true rest
      else if negb (IsZero (q_End q)) && (q_End q <? a_CreatedAt msg)%Z then query_loop q true rest
      else msg :: query_loop q true rest
  end.

Definition QueryMessages (q : MAMQuery) (s : Store) : MAMResult :=
  let msgs := default [] (mamMessages s !! q_UserJID q) in
  let filtered := query_loop q (bool_decide (q_AfterID q = ""%string)) msgs in
  let max := if (q_Max q <=? 0)%Z then 100%Z else q_Max q in
  let complete := (Z.of_nat (length filtered) <=? max)%Z in
  let filtered := if (max <? Z.of_nat (length filtered))%Z then take (Z.to_nat max) filtered else filtered in
  mkMAMResult filtered complete
    (match filtered with m :: _ => a_ID m | [] => ""%string end)
    (match last filtered with Some m => a_ID m | None => ""%string end)
    (Z.of_nat (length filtered)).

Definition DeleteMessageArchive (userJID : string) : SE unit :=
  mmodify (λ s, set_mamMessages (delete userJID (mamMessages s)) s).

(** ** MUCRoomStore *)

Definition CreateRoom (room : MUCRoom) : SE unit :=
  do s <- mget;
  match mucRooms s !! m_RoomJID room with
  | Some _ => merr ErrUserExists
  | None => mput (set_mucRooms (<[m_RoomJID room := room]> (mucRooms s)) s)
  end.
Definition GetRoom (roomJID : string) (s : Store) : res storage_error MUCRoom := found (mucRooms s !! roomJID).
Definition UpdateRoom (room : MUCRoom) : SE unit :=
  do s <- mget;
  match mucRooms s !! m_RoomJID room with
  | None => merr ErrNotFound
  | Some _ => mput (set_mucRooms (<[m_RoomJID room := room]> (mucRooms s)) s)
  end.
Definition DeleteRoom (roomJID : string) : SE unit :=
  do s <- mget;
  match mucRooms s !! roomJID with
  | None => merr ErrNotFound
  | Some _ => mput (set_mucAffiliations (delete roomJID (mucAffiliations s))
                     (set_mucRooms (delete roomJID (mucRooms s)) s))
  end.
Definition ListRooms (it : iteration) (s : Store) : list MUCRoom := (visit it (mucRooms s)).*2.

Definition SetAffiliation (aff : MUCAffiliation) : SE unit :=
  mmodify (λ s, set_mucAffiliations (nput (f_RoomJID aff) (f_UserJID aff) aff (mucAffiliations s)) s).
Definition GetAffiliation (roomJID userJID : string) (s : Store) : res storage_error MUCAffiliation :=
  found (nget (mucAffiliations s) roomJID userJID).
Definition GetAffiliations (it : iteration) (roomJID : string) (s : Store) : list MUCAffiliation :=
  (visit it (inner (mucAffiliations s) roomJID)).*2.
Definition RemoveAffiliation (roomJID userJID : string) : SE unit :=
  mmodify (λ s, set_mucAffiliations (ndel roomJID userJID (mucAffiliations s)) s).

(** ** PubSubStore *)

Definition CreateNode (node : PubSubNode) : SE unit :=
  do_ mmodify (λ s, match pubsubNodes s !! n_Host node with
                    | None => set_pubsubNodes (<[n_Host node := ∅]> (pubsubNodes s)) s
                    | Some _ => s
                    end);
  do s <- mget;
  match nget (pubsubNodes s) (n_Host node) (n_NodeID node) with
  | Some _ => merr ErrUserExists
  | None => mput (set_pubsubNodes (nput (n_Host node) (n_NodeID node) node (pubsubNodes s)) s)
  end.
Definition GetNode (host nodeID : string) (s : Store) : res storage_error PubSubNode :=
  found (nget (pubsubNodes s) host nodeID).
Definition DeleteNode (host nodeID : string) : SE unit :=
  do s <- mget;
  match pubsubNodes s !! host with
  | None => merr ErrNotFound
  | Some nodes =>
      match nodes !! nodeID with
      | None => merr ErrNotFound
      | Some _ =>
          do_ mput (set_pubsubNodes (<[host := delete nodeID nodes]> (pubsubNodes s)) s);
          do_ mmodify (λ s, set_pubsubItems (ndel host nodeID (pubsubItems s)) s);
          mmodify (λ s, set_pubsubSubscriptions (ndel host nodeID (pubsubSubscriptions s)) s)
      end
  end.
Definition ListNodes (it : iteration) (host : string) (s : Store) : list PubSubNode :=
  (visit it (inner (pubsubNodes s) host)).*2.

(** Three levels of maps: host, node, item or subscriber. *)
Definition nput3 {V} (a b c : string) (v : V) (m : gmap string (gmap string (gmap string V))) :=
  <[a := nput b c v (inner m a)]> m.
Definition nget3 {V} (m : gmap string (gmap string (gmap string V))) (a b c : string) : option V :=
  m !! a ≫= λ m', nget m' b c.
Definition ndel3 {V} (a b c : string) (m : gmap string (gmap string (gmap string V))) :=
  match m !! a with Some m' => <[a := ndel b c m']> m | None => m end.

Definition UpsertItem (now : time) (item : PubSubItem) : SE unit :=
  let cp := if IsZero (i_CreatedAt item)
            then mkItem (i_Host item) (i_NodeID item) (i_ItemID item) (Publisher item) (i_Payload item) now
            else item in
  mmodify (λ s, set_pubsubItems (nput3 (i_Host item) (i_NodeID item) (i_ItemID item) cp (pubsubItems s)) s).
Definition GetItem (host nodeID itemID : string) (s : Store) : res storage_error PubSubItem :=
  found (nget3 (pubsubItems s) host nodeID itemID).

(** [sort.Slice] is not stable, but the order of equal elements before sorting is
    that of the map iteration, which is arbitrary: a stable sort of any
    iteration order has the same possible results. *)
#[global] Instance earlier_dec i j : Decision (earlier i j).
Proof. unfold earlier. apply _. Defined.
#[global] Instance earlier_total : Total earlier.
Proof. intros i j. unfold earlier. lia. Qed.
Definition GetItems (it : iteration) (host nodeID : string) (s : Store) : list PubSubItem :=
  match pubsubItems s !! host with
  | None => []
  | Some hostItems => merge_sort earlier ((visit it (inner hostItems nodeID)).*2)
  end.
Definition DeleteItem (host nodeID itemID : string) : SE unit :=
  do s <- mget;
  match nget (pubsubItems s) host nodeID with
  | None => merr ErrNotFound
  | Some nodeItems =>
      match nodeItems !! itemID with
      | None => merr ErrNotFound
      | Some _ => mput (set_pubsubItems (ndel3 host nodeID itemID (pubsubItems s)) s)
      end
  end.

Definition Subscribe (sub : PubSubSubscription) : SE unit :=
  mmodify (λ s, set_pubsubSubscriptions
    (nput3 (s_Host sub) (s_NodeID sub) (s_JID sub) sub (pubsubSubscriptions s)) s).
Definition Unsubscribe (host nodeID jid : string) : SE unit :=
  mmodify (λ s, set_pubsubSubscriptions (ndel3 host nodeID jid (pubsubSubscriptions s)) s).
Definition GetSubscription (host nodeID jid : string) (s : Store) : res storage_error PubSubSubscription :=
  found (nget3 (pubsubSubscriptions s) host nodeID jid).
Definition GetSubscriptions (it : iteration) (host nodeID : string) (s : Store) : list PubSubSubscription :=
  match pubsubSubscriptions s !! host with
  | None => []
  | Some hostSubs => (visit it (inner hostSubs nodeID)).*2
  end.
Definition GetUserSubscriptions (it : iteration) (host jid : string) (s : Store) : list PubSubSubscription :=
  match pubsubSubscriptions s !! host with
  | None => []
  | Some hostSubs => omap (λ kv, kv.2 !! jid) (visit it hostSubs)
  end.

(** ** BookmarkStore *)

Definition SetBookmark (bm : Bookmark) : SE unit :=
  mmodify (λ s, set_bookmarks (nput (b_UserJID bm) (b_RoomJID bm) bm (bookmarks s)) s).
Definition GetBookmark (userJID roomJID : string) (s : Store) : res storage_error Bookmark :=
  found (nget (bookmarks s) userJID roomJID).
Definition GetBookmarks (it : iteration) (userJID : string) (s : Store) : list Bookmark :=
  (visit it (inner (bookmarks s) userJID)).*2.
Definition DeleteBookmark (userJID roomJID : string) : SE unit :=
  do s <- mget;
  match bookmarks s !! userJID with
  | None => merr ErrNotFound
  | Some userBm =>
      match userBm !! roomJID with
      | None => merr ErrNotFound
      | Some _ => mput (set_bookmarks (<[userJID := delete roomJID userBm]> (bookmarks s)) s)
      end
  end.

(** ** Calls *)

(** The answer to a call that returns a value or an error, and to one that only
    reports an error. *)
Definition value {A} (f : A → answer) (r : res storage_error A) : answer :=
  match r with Ok a => f a | Err e => AErr e | Panic => APanic end.
Definition effect (m : SE unit) (s : Store) : Store * answer :=
  let '(s', r) := m s in (s', value (λ _, AUnit) r).

Definition exec (now : time) (it : iteration) (c : call) (s : Store) : Store * answer :=
  match c with
  | CCreateUser u => effect (CreateUser now u) s
  | CGetUser n => (s, value AUser (GetUser n s))
  | CUpdateUser u => effect (UpdateUser now u) s
  | CDeleteUser n => effect (DeleteUser n) s
  | CUserExists n => (s, ABool (UserExists n s))
  | CAuthenticate n p => (s, value ABool (Authenticate n p s))
  | CUpsertRosterItem i => effect (UpsertRosterItem i) s
  | CGetRosterItem u c => (s, value ARoster (GetRosterItem u c s))
  | CGetRosterItems u => (s, ARosters (GetRosterItems it u s))
  | CDeleteRosterItem u c => effect (DeleteRosterItem u c) s
  | CGetRosterVersion u => (s, AStr (GetRosterVersion u s))
  | CSetRosterVersion u v => effect (SetRosterVersion u v) s
  | CBlockJID u j => effect (BlockJID u j) s
  | CUnblockJID u j => effect (UnblockJID u j) s
  | CIsBlocked u j => (s, ABool (IsBlocked u j s))
  | CGetBlockedJIDs u => (s, AStrs (GetBlockedJIDs it u s))
  | CSetVCard u d => effect (SetVCard u d) s
  | CGetVCard u => (s, value ABytes (GetVCard u s))
  | CDeleteVCard u => effect (DeleteVCard u) s
  | CStoreOfflineMessage m => effect (StoreOfflineMessage now m) s
  | CGetOfflineMessages u => (s, AOffline (GetOfflineMessages u s))
  | CDeleteOfflineMessages u => effect (DeleteOfflineMessages u) s
  | CCountOfflineMessages u => (s, ACount (CountOfflineMessages u s))
  | CArchiveMessage m => effect (ArchiveMessage now m) s
  | CQueryMessages q => (s, AMAM (QueryMessages q s))
  | CDeleteMessageArchive u => effect (DeleteMessageArchive u) s
  | CCreateRoom r => effect (CreateRoom r) s
  | CGetRoom r => (s, value ARoom (GetRoom r s))
  | CUpdateRoom r => effect (UpdateRoom r) s
  | CDeleteRoom r => effect (DeleteRoom r) s
  | CListRooms => (s, ARooms (ListRooms it s))
  | CSetAffiliation a => effect (SetAffiliation a) s
  | CGetAffiliation r u => (s, value AAff (GetAffiliation r u s))
  | CGetAffiliations r => (s, AAffs (GetAffiliations it r s))
  | CRemoveAffiliation r u => effect (RemoveAffiliation r u) s
  | CCreateNode n => effect (CreateNode n) s
  | CGetNode h n => (s, value ANode (GetNode h n s))
  | CDeleteNode h n => effect (DeleteNode h n) s
  | CListNodes h => (s, ANodes (ListNodes it h s))
  | CUpsertItem i => effect (UpsertItem now i) s
  | CGetItem h n i => (s, value AItem (GetItem h n i s))
  | CGetItems h n => (s, AItems (GetItems it h n s))
  | CDeleteItem h n i => effect (DeleteItem h n i) s
  | CSubscribe b => effect (Subscribe b) s
  | CUnsubscribe h n j => effect (Unsubscribe h n j) s
  | CGetSubscription h n j => (s, value ASub (GetSubscription h n j s))
  | CGetSubscriptions h n => (s, ASubs (GetSubscriptions it h n s))
  | CGetUserSubscriptions h j => (s, ASubs (GetUserSubscriptions it h j s))
  | CSetBookmark b => effect (SetBookmark b) s
  | CGetBookmark u r => (s, value ABookmark (GetBookmark u r s))
  | CGetBookmarks u => (s, ABookmarks (GetBookmarks it u s))
  | CDeleteBookmark u r => effect (DeleteBookmark u r) s
  end.

(** The answers to a sequence of calls, each at its time and with its iteration
    order. *)
Fixpoint run (s : Store) (calls : list (time * iteration * call)) : list answer :=
  match calls with
  | [] => []
  | (now, it, c) :: cs => let '(s', r) := exec now it c s in r :: run s' cs
  end.

(** ** Nested maps *)

Lemma nget_inner {V} (m : gmap string (gmap string V)) a b : nget m a b = inner m a !! b.
Proof. unfold nget, inner. by destruct (m !! a). Qed.

Lemma nget_nput {V} (m : gmap string (gmap string V)) a b v a' b' :
  nget (nput a b v m) a' b' = if decide ((a, b) = (a', b')) then Some v else nget m a' b'.
Proof.
  rewrite !nget_inner. unfold nput, inner. rewrite lookup_insert.
  destruct (decide (a = a')) as [->|Ha]; simpl.
  - rewrite lookup_insert. repeat case_decide; naive_solver.
  - rewrite decide_False by naive_solver. done.
Qed.

Lemma nget_ndel {V} (m : gmap string (gmap string V)) a b a' b' :
  nget (ndel a b m) a' b' = if decide ((a, b) = (a', b')) then None else nget m a' b'.
Proof.
  unfold ndel, nget. destruct (m !! a) as [mi|] eqn:E.
  - rewrite lookup_insert. destruct (decide (a = a')) as [->|Ha]; simpl.
    + rewrite lookup_delete, E. simpl. repeat case_decide; naive_solver.
    + rewrite decide_False by naive_solver. done.
  - case_decide; simplify_eq; [by rewrite E|done].
Qed.

Lemma nget_insert {V} (m : gmap string (gmap string V)) a mi a' b' :
  nget (<[a := mi]> m) a' b' = if decide (a = a') then mi !! b' else nget m a' b'.
Proof. unfold nget. rewrite lookup_insert. by case_decide. Qed.

Lemma nget_delete {V} (m : gmap string (gmap string V)) a a' b' :
  nget (delete a m) a' b' = if decide (a = a') then None else nget m a' b'.
Proof. unfold nget. rewrite lookup_delete. by case_decide. Qed.

Lemma nget3_nput3 {V} (m : gmap string (gmap string (gmap string V))) a b c v a' b' c' :
  nget3 (nput3 a b c v m) a' b' c' = if decide ((a, b, c) = (a', b', c')) then Some v else nget3 m a' b' c'.
Proof.
  unfold nput3, nget3, inner. rewrite lookup_insert. destruct (decide (a = a')) as [->|Ha]; simpl.
  - rewrite nget_nput. destruct (m !! a') as [mi|]; simpl; repeat case_decide; naive_solver.
  - rewrite decide_False by naive_solver. done.
Qed.

Lemma nget3_ndel3 {V} (m : gmap string (gmap string (gmap string V))) a b c a' b' c' :
  nget3 (ndel3 a b c m) a' b' c' = if decide ((a, b, c) = (a', b', c')) then None else nget3 m a' b' c'.
Proof.
  unfold ndel3, nget3. destruct (m !! a) as [mi|] eqn:E.
  - rewrite lookup_insert. destruct (decide (a = a')) as [->|Ha]; simpl.
    + rewrite nget_ndel, E. simpl. repeat case_decide; naive_solver.
    + rewrite decide_False by naive_solver. done.
  - case_decide; simplify_eq; [by rewrite E|done].
Qed.

(** Removing a whole inner map. *)
Lemma nget3_ndel {V} (m : gmap string (gmap string (gmap string V))) a b a' b' c' :
  nget3 (ndel a b m) a' b' c' = if decide ((a, b) = (a', b')) then None else nget3 m a' b' c'.
Proof.
  assert (∀ x : gmap string (gmap string (gmap string V)),
    nget3 x a' b' c' = nget x a' b' ≫= λ m'', m'' !! c') as Hx.
  { intros x. unfold nget3, nget. by destruct (x !! a'). }
  rewrite !Hx, nget_ndel. by case_decide.
Qed.

Lemma filter_first_lookup {K V} `{Countable K} (m : gmap (K * string) V) (r : K) k :
  filter (λ kv, kv.1.1 ≠ r) m !! k = if decide (r = k.1) then None else m !! k.
Proof.
  rewrite map_lookup_filter. destruct (m !! k) as [v|]; simpl; [|by case_decide].
  case_guard; repeat case_decide; naive_solver.
Qed.

(** ** Listings *)

Lemma visit_lists {V} it (m : gmap string V) f :
  iteration_ok it → (∀ k, f k = m !! k) → lists f (visit it m).*2.
Proof.
  intros Hit Hf. exists (visit it m). split; [done|]. split.
  - eapply iter_order_NoDup_fst, Hit.
  - intros k v. rewrite Hf. eapply iter_order_lookup, Hit.
Qed.

Lemma lists_permutation {V} (f : string → option V) l l' : lists f l → l ≡ₚ l' → lists f l'.
Proof.
  intros (kl & -> & Hnd & Hkl) Hp. symmetry in Hp.
  destruct (Permutation_map_inv snd kl Hp) as (kl' & -> & Hp').
  exists kl'. split; [done|]. symmetry in Hp'. split.
  - by rewrite Hp'.
  - intros k v. by rewrite Hp'.
Qed.

(** ** Archive queries *)

Lemma query_loop_selected q l :
  query_loop q true l =
    filter (selected q) (if bool_decide (q_BeforeID q = ""%string) then l else before_id (q_BeforeID q) l).
Proof.
  induction l as [|m l IH]; [by case_bool_decide|]. cbn [query_loop negb]. rewrite IH. clear IH.
  destruct (bool_decide (q_BeforeID q = ""%string)) eqn:Eb; cbn [negb andb before_id];
    [|destruct (bool_decide (a_ID m = q_BeforeID q)); [done|]];
    rewrite filter_cons; unfold selected, IsZero;
    destruct (Z.eqb_spec (q_Start q) 0), (Z.eqb_spec (q_End q) 0),
      (Z.ltb_spec (a_CreatedAt m) (q_Start q)), (Z.ltb_spec (q_End q) (a_CreatedAt m));
    repeat case_bool_decide; cbn [negb andb];
    first [rewrite decide_True by (repeat split; tauto || lia); done
          |rewrite decide_False by (intros (? & ? & ?); naive_solver lia); done].
Qed.

Lemma query_loop_after q l :
  q_AfterID q ≠ ""%string → query_loop q false l = query_loop q true (after_id (q_AfterID q) l).
Proof.
  intros Hne. induction l as [|m l IH]; [done|]. cbn [query_loop negb after_id].
  by case_bool_decide.
Qed.

Lemma QueryMessages_spec q s :
  QueryMessages q s = mam_answer q (default [] (mamMessages s !! q_UserJID q)).
Proof.
  unfold QueryMessages, mam_answer, in_page, page_size. set (l := default [] _).
  assert (query_loop q (bool_decide (q_AfterID q = ""%string)) l = filter (selected q) (in_page q l)) as ->.
  { unfold in_page. case_bool_decide as Ha; [apply query_loop_selected|].
    by rewrite query_loop_after, query_loop_selected. }
  unfold in_page. set (all := filter _ _).
  assert (∀ (n : nat) (x : Z), x = Z.of_nat n →
    (if (x <? Z.of_nat (length all))%Z then take (Z.to_nat x) all else all) = take n all ∧
    (Z.of_nat (length all) <=? x)%Z = bool_decide (length all ≤ n)%nat) as Hpage.
  { intros n x ->. rewrite Nat2Z.id. split.
    - destruct (Z.ltb_spec (Z.of_nat n) (Z.of_nat (length all))); [done|]. rewrite take_ge; [done|lia].
    - destruct (Z.leb_spec (Z.of_nat (length all)) (Z.of_nat n)); case_bool_decide; done || lia. }
  destruct (Z.leb_spec (q_Max q) 0) as [Hm|Hm].
  - rewrite (bool_decide_true (q_Max q <= 0)%Z) by done.
    destruct (Hpage 100 100%Z eq_refl) as [-> ->]. f_equal; [by destruct (take 100 all)|by destruct (last (take 100 all))].
  - rewrite (bool_decide_false (q_Max q <= 0)%Z) by lia.
    destruct (Hpage (Z.to_nat (q_Max q)) (q_Max q)) as [-> ->]; [lia|].
    set (n := Z.to_nat (q_Max q)). f_equal; [by destruct (take n all)|by destruct (last (take n all))].
Qed.

(** ** Refinement *)

Record refines (s : Store) (a : spec) : Prop := {
  rf_users : users s = sp_users a;
  rf_roster u c : nget (rosterItems s) u c = sp_roster a !! (u, c);
  rf_versions : rosterVersions s = sp_versions a;
  rf_blocked u j : nget (blocked s) u j = sp_blocked a !! (u, j);
  rf_vcards : vcards s = sp_vcards a;
  rf_offline : offlineMsgs s = sp_offline a;
  rf_mam : mamMessages s = sp_mam a;
  rf_counter : mamIDCounter s = sp_counter a;
  rf_rooms : mucRooms s = sp_rooms a;
  rf_affs r u : nget (mucAffiliations s) r u = sp_affs a !! (r, u);
  rf_nodes h n : nget (pubsubNodes s) h n = sp_nodes a !! (h, n);
  rf_items h n i : nget3 (pubsubItems s) h n i = sp_items a !! (h, n, i);
  rf_subs h n j : nget3 (pubsubSubscriptions s) h n j = sp_subs a !! (h, n, j);
  rf_bookmarks u r : nget (bookmarks s) u r = sp_bookmarks a !! (u, r)
}.

(** Unfolds both sides of a step. *)
Ltac sim_unfold :=
  cbn [exec spec_call]; unfold effect, value, on_entry, or_missing, answers, found, mbnd, mget, mput, merr, mmodify.

(** The relation after an update: lookups in updated maps are reduced to the
    relation before it. *)
Ltac sim_rel R :=
  split; simpl; intros;
  rewrite ?nget_nput, ?nget_ndel, ?nget_delete, ?nget_insert, ?nget3_nput3, ?nget3_ndel3, ?nget3_ndel,
    ?lookup_insert, ?lookup_delete, ?filter_first_lookup,
    ?(rf_users _ _ R), ?(rf_roster _ _ R), ?(rf_versions _ _ R), ?(rf_blocked _ _ R), ?(rf_vcards _ _ R),
    ?(rf_offline _ _ R), ?(rf_mam _ _ R), ?(rf_counter _ _ R), ?(rf_rooms _ _ R), ?(rf_affs _ _ R),
    ?(rf_nodes _ _ R), ?(rf_items _ _ R), ?(rf_subs _ _ R), ?(rf_bookmarks _ _ R); simpl; auto.

(** A listing of the inner map of one owner. *)
Lemma inner_lists {V} it (m : gmap string (gmap string V)) (f : string → string → option V) u :
  iteration_ok it → (∀ a b, nget m a b = f a b) → lists (f u) (visit it (inner m u)).*2.
Proof. intros Hit Hf. apply visit_lists; [done|]. intros k. by rewrite <- Hf, nget_inner. Qed.

Section Simulation.
Context (now : time) (it : iteration) (s : Store) (a : spec).
Hypotheses (Hit : iteration_ok it) (R : refines s a).

(** The call [c] keeps the relation and gets an allowed answer. *)
Definition simulated (c : call) : Prop :=
  refines (exec now it c s).1 (spec_call now c a).1 ∧ (spec_call now c a).2 (exec now it c s).2.

Lemma sim_CreateUser u : simulated (CCreateUser u).
Proof.
  unfold simulated. sim_unfold. unfold CreateUser. sim_unfold. rewrite <- (rf_users _ _ R).
  destruct (users s !! _); simpl; (split; [sim_rel R|done]).
Qed.
Lemma sim_GetUser n : simulated (CGetUser n).
Proof. unfold simulated. sim_unfold. unfold GetUser, found. rewrite (rf_users _ _ R). by destruct (_ !! _). Qed.
Lemma sim_UpdateUser u : simulated (CUpdateUser u).
Proof.
  unfold simulated. sim_unfold. unfold UpdateUser. sim_unfold. rewrite <- (rf_users _ _ R).
  destruct (users s !! _); simpl; (split; [sim_rel R|done]).
Qed.
Lemma sim_DeleteUser n : simulated (CDeleteUser n).
Proof.
  unfold simulated. sim_unfold. unfold DeleteUser. sim_unfold. rewrite <- (rf_users _ _ R).
  destruct (users s !! _); simpl; (split; [sim_rel R|done]).
Qed.
Lemma sim_UserExists n : simulated (CUserExists n).
Proof. unfold simulated. sim_unfold. unfold UserExists. by rewrite (rf_users _ _ R). Qed.
Lemma sim_Authenticate n p : simulated (CAuthenticate n p).
Proof.
  unfold simulated. sim_unfold. unfold Authenticate. rewrite (rf_users _ _ R). split; [done|]. simpl.
  destruct (sp_users a !! n) as [u|]; simpl; [|done]. repeat case_bool_decide; naive_solver.
Qed.

(** An unconditional update. *)
Ltac sim_update D := unfold simulated; sim_unfold; unfold D; sim_unfold; simpl; split; [sim_rel R|done].
(** A read of one entry. *)
Ltac sim_read D :=
  unfold simulated; sim_unfold; unfold D, found; split; [done|]; simpl;
  rewrite ?(rf_users _ _ R), ?(rf_roster _ _ R), ?(rf_versions _ _ R), ?(rf_vcards _ _ R), ?(rf_offline _ _ R),
    ?(rf_rooms _ _ R), ?(rf_affs _ _ R), ?(rf_nodes _ _ R), ?(rf_items _ _ R), ?(rf_subs _ _ R),
    ?(rf_bookmarks _ _ R); repeat case_match; simplify_eq; done.

Lemma sim_UpsertRosterItem i : simulated (CUpsertRosterItem i).
Proof. sim_update UpsertRosterItem. Qed.
Lemma sim_GetRosterItem u c : simulated (CGetRosterItem u c).
Proof. sim_read GetRosterItem. Qed.
Lemma sim_GetRosterItems u : simulated (CGetRosterItems u).
Proof.
  split; [done|]. eexists. split; [done|].
  apply (inner_lists it _ (λ u c, sp_roster a !! (u, c)) u Hit), R.
Qed.

Lemma nget_delete_inner {V} (m : gmap string (gmap string V)) u c mi :
  m !! u = Some mi → <[u := delete c mi]> m = ndel u c m.
Proof. intros E. unfold ndel. by rewrite E. Qed.

Lemma sim_DeleteRosterItem u c : simulated (CDeleteRosterItem u c).
Proof.
  unfold simulated. sim_unfold. unfold DeleteRosterItem. sim_unfold.
  pose proof (rf_roster _ _ R u c) as Hc. unfold nget in Hc. rewrite <- Hc.
  destruct (rosterItems s !! u) as [mi|] eqn:E; simpl; [|done]. destruct (mi !! c); simpl; [|done]. rewrite (nget_delete_inner _ _ _ _ E). split; [sim_rel R|done].
Qed.
Lemma sim_GetRosterVersion u : simulated (CGetRosterVersion u).
Proof. sim_read GetRosterVersion. Qed.
Lemma sim_SetRosterVersion u v : simulated (CSetRosterVersion u v).
Proof. sim_update SetRosterVersion. Qed.

Lemma sim_BlockJID u j : simulated (CBlockJID u j).
Proof. sim_update BlockJID. Qed.
Lemma sim_UnblockJID u j : simulated (CUnblockJID u j).
Proof. sim_update UnblockJID. Qed.
Lemma sim_IsBlocked u j : simulated (CIsBlocked u j).
Proof.
  unfold simulated. sim_unfold. unfold IsBlocked. split; [done|]. simpl.
  rewrite <- (rf_blocked _ _ R). unfold nget. by destruct (blocked s !! u).
Qed.
Lemma sim_GetBlockedJIDs u : simulated (CGetBlockedJIDs u).
Proof.
  split; [done|]. eexists. split; [done|]. unfold GetBlockedJIDs. split; [eapply iter_order_NoDup_fst, Hit|].
  intros j. rewrite <- (rf_blocked _ _ R), nget_inner, list_elem_of_fmap. split.
  - intros ([k v] & -> & Hin). eapply iter_order_lookup in Hin; [by exists v|apply Hit].
  - intros [v Hv]. exists (j, v). split; [done|]. by eapply iter_order_lookup; [apply Hit|].
Qed.

Lemma sim_SetVCard u d : simulated (CSetVCard u d).
Proof. sim_update SetVCard. Qed.
Lemma sim_GetVCard u : simulated (CGetVCard u).
Proof. sim_read GetVCard. Qed.
Lemma sim_DeleteVCard u : simulated (CDeleteVCard u).
Proof.
  unfold simulated. sim_unfold. unfold DeleteVCard. sim_unfold. rewrite <- (rf_vcards _ _ R).
  destruct (vcards s !! _); simpl; (split; [sim_rel R|done]).
Qed.

Lemma sim_StoreOfflineMessage m : simulated (CStoreOfflineMessage m).
Proof.
  unfold simulated. sim_unfold. unfold StoreOfflineMessage. sim_unfold. simpl. split; [sim_rel R|done].
  unfold stamped_offline, stamp. destruct (IsZero _); [done|]. by destruct m.
Qed.
Lemma sim_GetOfflineMessages u : simulated (CGetOfflineMessages u).
Proof. sim_read GetOfflineMessages. Qed.
Lemma sim_DeleteOfflineMessages u : simulated (CDeleteOfflineMessages u).
Proof. sim_update DeleteOfflineMessages. Qed.
Lemma sim_CountOfflineMessages u : simulated (CCountOfflineMessages u).
Proof. sim_read CountOfflineMessages. Qed.

Lemma sim_ArchiveMessage m : simulated (CArchiveMessage m).
Proof.
  unfold simulated. sim_unfold. unfold ArchiveMessage, archived. sim_unfold. simpl.
  unfold stamp. destruct m as [id u w f d t]. simpl.
  destruct (IsZero t); simpl; case_bool_decide; simpl; (split; [sim_rel R|done]).
Qed.
Lemma sim_QueryMessages q : simulated (CQueryMessages q).
Proof.
  split; [done|]. simpl. unfold answers. by rewrite QueryMessages_spec, (rf_mam _ _ R).
Qed.
Lemma sim_DeleteMessageArchive u : simulated (CDeleteMessageArchive u).
Proof. sim_update DeleteMessageArchive. Qed.

Lemma sim_CreateRoom r : simulated (CCreateRoom r).
Proof.
  unfold simulated. sim_unfold. unfold CreateRoom. sim_unfold. rewrite <- (rf_rooms _ _ R).
  destruct (mucRooms s !! _); simpl; (split; [sim_rel R|done]).
Qed.
Lemma sim_GetRoom r : simulated (CGetRoom r).
Proof. sim_read GetRoom. Qed.
Lemma sim_UpdateRoom r : simulated (CUpdateRoom r).
Proof.
  unfold simulated. sim_unfold. unfold UpdateRoom. sim_unfold. rewrite <- (rf_rooms _ _ R).
  destruct (mucRooms s !! _); simpl; (split; [sim_rel R|done]).
Qed.
Lemma sim_DeleteRoom r : simulated (CDeleteRoom r).
Proof.
  unfold simulated. sim_unfold. unfold DeleteRoom. sim_unfold. rewrite <- (rf_rooms _ _ R).
  destruct (mucRooms s !! _); simpl; (split; [sim_rel R|done]).
Qed.
Lemma sim_ListRooms : simulated CListRooms.
Proof.
  split; [done|]. eexists. split; [done|]. apply visit_lists; [done|]. intros k. by rewrite (rf_rooms _ _ R).
Qed.
Lemma sim_SetAffiliation f : simulated (CSetAffiliation f).
Proof. sim_update SetAffiliation. Qed.
Lemma sim_GetAffiliation r u : simulated (CGetAffiliation r u).
Proof. sim_read GetAffiliation. Qed.
Lemma sim_GetAffiliations r : simulated (CGetAffiliations r).
Proof.
  split; [done|]. eexists. split; [done|].
  apply (inner_lists it _ (λ r u, sp_affs a !! (r, u)) r Hit), R.
Qed.
Lemma sim_RemoveAffiliation r u : simulated (CRemoveAffiliation r u).
Proof. sim_update RemoveAffiliation. Qed.

(** Making an empty inner map does not change any entry. *)
Lemma nget_touch {V} (m : gmap string (gmap string V)) h a' b' :
  m !! h = None → nget (<[h := ∅]> m) a' b' = nget m a' b'.
Proof. intros E. rewrite nget_insert. case_decide as Hd; [|done]. subst. unfold nget. by rewrite E. Qed.

Lemma sim_CreateNode n : simulated (CCreateNode n).
Proof.
  unfold simulated. sim_unfold. unfold CreateNode. sim_unfold. rewrite <- (rf_nodes _ _ R).
  set (s1 := match pubsubNodes s !! n_Host n with None => _ | Some _ => s end).
  assert (refines s1 a) as R1.
  { unfold s1. destruct (pubsubNodes s !! n_Host n) as [mi|] eqn:E; [done|].
    split; simpl; try apply R. intros h k. rewrite nget_touch by done. apply R. }
  assert (nget (pubsubNodes s1) (n_Host n) (n_NodeID n) = nget (pubsubNodes s) (n_Host n) (n_NodeID n)) as ->.
  { by rewrite (rf_nodes _ _ R1), (rf_nodes _ _ R). }
  destruct (nget (pubsubNodes s) _ _); simpl; (split; [|done]); [done|]. sim_rel R1.
Qed.
Lemma sim_GetNode h n : simulated (CGetNode h n).
Proof. sim_read GetNode. Qed.
Lemma sim_DeleteNode h n : simulated (CDeleteNode h n).
Proof.
  unfold simulated. sim_unfold. unfold DeleteNode. sim_unfold.
  pose proof (rf_nodes _ _ R h n) as Hc. unfold nget in Hc. rewrite <- Hc.
  destruct (pubsubNodes s !! h) as [mi|] eqn:E; simpl; [|done]. destruct (mi !! n); simpl; [|done].
  rewrite (nget_delete_inner _ _ _ _ E). split; [sim_rel R|done].
Qed.
Lemma sim_ListNodes h : simulated (CListNodes h).
Proof.
  split; [done|]. eexists. split; [done|].
  apply (inner_lists it _ (λ h n, sp_nodes a !! (h, n)) h Hit), R.
Qed.

Lemma sim_UpsertItem i : simulated (CUpsertItem i).
Proof.
  unfold simulated. sim_unfold. unfold UpsertItem. sim_unfold. simpl. split; [|done].
  assert ((if IsZero (i_CreatedAt i) then mkItem (i_Host i) (i_NodeID i) (i_ItemID i) (Publisher i) (i_Payload i) now
           else i) = stamped_item now i) as ->; [|sim_rel R].
  unfold stamped_item, stamp. destruct (IsZero _); [done|]. by destruct i.
Qed.
Lemma sim_GetItem h n i : simulated (CGetItem h n i).
Proof. sim_read GetItem. Qed.

Lemma nget3_inner {V} (m : gmap string (gmap string (gmap string V))) h n i mh :
  m !! h = Some mh → nget3 m h n i = inner mh n !! i.
Proof. intros E. unfold nget3. rewrite E. simpl. apply nget_inner. Qed.

Lemma nget3_none {V} (m : gmap string (gmap string (gmap string V))) h n i :
  m !! h = None → nget3 m h n i = None.
Proof. intros E. unfold nget3. by rewrite E. Qed.

Lemma lists_nil {V} (f : string → option V) : (∀ k, f k = None) → lists f [].
Proof.
  intros Hf. exists []. split; [done|]. split; [constructor|]. intros k v. rewrite Hf.
  split; [by intros ?%elem_of_nil|done].
Qed.

Lemma sim_GetItems h n : simulated (CGetItems h n).
Proof.
  split; [done|]. eexists. split; [done|]. unfold GetItems.
  destruct (pubsubItems s !! h) as [mh|] eqn:E.
  - split.
    + apply (Sorted_merge_sort earlier).
    + eapply lists_permutation; [|symmetry; apply merge_sort_Permutation].
      apply visit_lists; [done|]. intros k. by rewrite <- (rf_items _ _ R), (nget3_inner _ _ _ _ _ E).
  - split; [constructor|]. apply lists_nil. intros k. by rewrite <- (rf_items _ _ R), nget3_none.
Qed.
Lemma sim_DeleteItem h n i : simulated (CDeleteItem h n i).
Proof.
  unfold simulated. sim_unfold. unfold DeleteItem. sim_unfold.
  pose proof (rf_items _ _ R h n i) as Hc. unfold nget3 in Hc. rewrite <- Hc.
  unfold nget at 1 3. unfold nget in Hc |- *. destruct (pubsubItems s !! h) as [mh|]; simpl in *; [|done].
  destruct (mh !! n) as [mi|]; simpl in *; [|done]. destruct (mi !! i); simpl; [|done].
  split; [sim_rel R|done].
Qed.

Lemma sim_Subscribe b : simulated (CSubscribe b).
Proof. sim_update Subscribe. Qed.
Lemma sim_Unsubscribe h n j : simulated (CUnsubscribe h n j).
Proof. sim_update Unsubscribe. Qed.
Lemma sim_GetSubscription h n j : simulated (CGetSubscription h n j).
Proof. sim_read GetSubscription. Qed.
Lemma sim_GetSubscriptions h n : simulated (CGetSubscriptions h n).
Proof.
  split; [done|]. eexists. split; [done|]. unfold GetSubscriptions.
  destruct (pubsubSubscriptions s !! h) as [mh|] eqn:E.
  - apply visit_lists; [done|]. intros k. by rewrite <- (rf_subs _ _ R), (nget3_inner _ _ _ _ _ E).
  - apply lists_nil. intros k. by rewrite <- (rf_subs _ _ R), nget3_none.
Qed.

(** The subscriptions of one user over the nodes of a host. *)
Lemma omap_lists {V} (mh : gmap string (gmap string V)) j :
  lists (λ n, nget mh n j) (omap (λ kv, kv.2 !! j) (visit it mh)).
Proof.
  pose proof (iter_order_NoDup_fst _ _ (Hit _ mh)) as Hnd. pose proof (λ k v, iter_order_lookup mh _ k v (Hit _ mh)) as Hin.
  exists (omap (λ kv, (λ v, (kv.1, v)) <$> kv.2 !! j) (visit it mh)). split; [|split].
  - clear. induction (visit it mh) as [|[k m] l IH]; [done|]. cbn. destruct (m !! j); cbn; by rewrite <- ?IH.
  - clear -Hnd. induction (visit it mh) as [|[k m] l IH]; [constructor|]. cbn in *. apply NoDup_cons in Hnd as [Hk Hnd].
    destruct (m !! j); cbn; [|by apply IH]. constructor; [|by apply IH].
    intros (? & -> & ([k' m'] & Hx & Hl)%list_elem_of_omap)%list_elem_of_fmap. apply Hk.
    cbn in *. destruct (m' !! j); simplify_eq/=. apply list_elem_of_fmap. by exists (k', m').
  - intros k v. rewrite list_elem_of_omap. unfold nget. split.
    + intros ([k' m'] & Hl & Hx). cbn in *. destruct (m' !! j) eqn:Ej; simplify_eq/=.
      apply Hin in Hl. by rewrite Hl.
    + intros Hg. destruct (mh !! k) as [m'|] eqn:E; [|done]. exists (k, m'). simpl in *.
      split; [by apply Hin|]. by rewrite Hg.
Qed.

Lemma sim_GetUserSubscriptions h j : simulated (CGetUserSubscriptions h j).
Proof.
  split; [done|]. eexists. split; [done|]. unfold GetUserSubscriptions.
  destruct (pubsubSubscriptions s !! h) as [mh|] eqn:E.
  - destruct (omap_lists mh j) as (kl & -> & Hnd & Hkl). exists kl. split; [done|]. split; [done|].
    intros k v. rewrite Hkl, <- (rf_subs _ _ R). unfold nget3. by rewrite E.
  - apply lists_nil. intros k. by rewrite <- (rf_subs _ _ R), nget3_none.
Qed.

Lemma sim_SetBookmark b : simulated (CSetBookmark b).
Proof. sim_update SetBookmark. Qed.
Lemma sim_GetBookmark u r : simulated (CGetBookmark u r).
Proof. sim_read GetBookmark. Qed.
Lemma sim_GetBookmarks u : simulated (CGetBookmarks u).
Proof.
  split; [done|]. eexists. split; [done|].
  apply (inner_lists it _ (λ u r, sp_bookmarks a !! (u, r)) u Hit), R.
Qed.
Lemma sim_DeleteBookmark u r : simulated (CDeleteBookmark u r).
Proof.
  unfold simulated. sim_unfold. unfold DeleteBookmark. sim_unfold.
  pose proof (rf_bookmarks _ _ R u r) as Hc. unfold nget in Hc. rewrite <- Hc.
  destruct (bookmarks s !! u) as [mi|] eqn:E; simpl; [|done]. destruct (mi !! r); simpl; [|done].
  rewrite (nget_delete_inner _ _ _ _ E). split; [sim_rel R|done].
Qed.
End Simulation.

Lemma exec_simulates now it s a c :
  iteration_ok it → refines s a →
  refines (exec now it c s).1 (spec_call now c a).1 ∧ (spec_call now c a).2 (exec now it c s).2.
Proof.
  intros Hit R. change (simulated now it s a c).
  destruct c; eauto using sim_CreateUser, sim_GetUser, sim_UpdateUser, sim_DeleteUser, sim_UserExists,
    sim_Authenticate, sim_UpsertRosterItem, sim_GetRosterItem, sim_GetRosterItems, sim_DeleteRosterItem,
    sim_GetRosterVersion, sim_SetRosterVersion, sim_BlockJID, sim_UnblockJID, sim_IsBlocked,
    sim_GetBlockedJIDs, sim_SetVCard, sim_GetVCard, sim_DeleteVCard, sim_StoreOfflineMessage,
    sim_GetOfflineMessages, sim_DeleteOfflineMessages, sim_CountOfflineMessages, sim_ArchiveMessage,
    sim_QueryMessages, sim_DeleteMessageArchive, sim_CreateRoom, sim_GetRoom, sim_UpdateRoom,
    sim_DeleteRoom, sim_ListRooms, sim_SetAffiliation, sim_GetAffiliation, sim_GetAffiliations,
    sim_RemoveAffiliation, sim_CreateNode, sim_GetNode, sim_DeleteNode, sim_ListNodes, sim_UpsertItem,
    sim_GetItem, sim_GetItems, sim_DeleteItem, sim_Subscribe, sim_Unsubscribe, sim_GetSubscription,
    sim_GetSubscriptions, sim_GetUserSubscriptions, sim_SetBookmark, sim_GetBookmark,
    sim_GetBookmarks, sim_DeleteBookmark.
Qed.

Lemma run_refines s a calls :
  refines s a → Forall (λ x, iteration_ok x.1.2) calls →
  spec_run a ((λ x, (x.1.1, x.2)) <$> calls) (run s calls).
Proof.
  intros R Hit. revert s a R. induction Hit as [|[[now it] c] cs Hi _ IH]; intros s a R; [done|].
  cbn [run fmap list_fmap fst snd]. destruct (exec_simulates now it s a c Hi R) as [R' Ha].
  destruct (exec now it c s) as [s' r]. split; [done|]. by apply IH.
Qed.

Lemma New_refines : refines New spec_init.
Proof. by split. Qed.

(** ** Guarantees *)

(** C3: the in-memory store implements the storage contract: every sequence of
    calls to its nine interfaces, whatever the times and the iteration orders of
    its maps, is answered as the abstract machine over flat maps allows; in
    particular no call panics, a value written is the value read, and a listing
    has every entry of its owner exactly once. *)
Theorem memory_store_refines calls :
  Forall (λ x, iteration_ok x.1.2) calls →
  spec_run spec_init ((λ x, (x.1.1, x.2)) <$> calls) (run New calls).
Proof. apply run_refines, New_refines. Qed.

(** *** Paging through an archive *)

(** A client that asks for the next page, after the last message of the page
    before, until a page is complete. *)
Definition next_page (q : MAMQuery) (last : string) : MAMQuery :=
  mkQuery (q_UserJID q) (q_WithJID q) (q_Start q) (q_End q) last (q_BeforeID q) (q_Max q).

Fixpoint paging (fuel : nat) (q : MAMQuery) (s : Store) : option (list ArchivedMessage) :=
  match fuel with
  | 0 => None
  | S f =>
      let r := QueryMessages q s in
      if Complete r then Some (Messages r)
      else (λ rest, Messages r ++ rest) <$> paging f (next_page q (Last r)) s
  end.

(** Archiving messages one after the other. *)
Fixpoint archive_all (msgs : list (time * ArchivedMessage)) (s : Store) : Store :=
  match msgs with
  | [] => s
  | (now, m) :: rest => archive_all rest (ArchiveMessage now m s).1
  end.

Lemma page_size_pos q : (0 < page_size q)%nat.
Proof. unfold page_size. case_bool_decide; lia. Qed.

Lemma after_id_app l1 m l2 :
  a_ID m ∉ a_ID <$> l1 → after_id (a_ID m) (l1 ++ m :: l2) = l2.
Proof.
  induction l1 as [|x l1 IH]; cbn; [by rewrite bool_decide_true|].
  intros Hn%not_elem_of_cons. destruct Hn as [Hne Hn]. rewrite bool_decide_false by done. by apply IH.
Qed.

(** A selected sublist splits the list it was selected from. *)
Lemma filter_take_split (q : MAMQuery) n l m rest :
  filter (selected q) l = take n (filter (selected q) l) ++ rest →
  last (take n (filter (selected q) l)) = Some m →
  ∃ l1 l2, l = l1 ++ m :: l2 ∧ filter (selected q) l2 = drop n (filter (selected q) l).
Proof.
  intros _. revert n. induction l as [|x l IH]; intros n Hl; [by destruct n|].
  rewrite filter_cons in Hl |- *. case_decide as Hx.
  - destruct n as [|n]; [done|]. cbn [take] in Hl. destruct (take n (filter (selected q) l)) as [|y p] eqn:E.
    + injection Hl as ->. exists [], l. split; [done|]. cbn [drop].
      destruct n; [done|]. by destruct (filter (selected q) l).
    + rewrite last_cons_cons, <- E in Hl. destruct (IH n Hl) as (l1 & l2 & -> & H2).
      exists (x :: l1), l2. by split.
  - destruct (IH n Hl) as (l1 & l2 & -> & H2). exists (x :: l1), l2. by split.
Qed.

Lemma paging_suffix fuel q s l P R :
  default [] (mamMessages s !! q_UserJID q) = l → l = P ++ R → in_page q l = R →
  q_BeforeID q = ""%string → NoDup (a_ID <$> l) → ""%string ∉ a_ID <$> l →
  (length (filter (selected q) R) < fuel)%nat →
  paging fuel q s = Some (filter (selected q) R).
Proof.
  revert q P R. induction fuel as [|fuel IH]; intros q P R Hl HPR Hin Hb Hnd Hne Hf; [lia|].
  cbn [paging]. rewrite QueryMessages_spec, Hl. unfold mam_answer. rewrite Hin. cbn [Complete Messages Last].
  set (all := filter (selected q) R) in *. pose proof (page_size_pos q) as Hpos. set (n := page_size q) in *.
  case_bool_decide as Hc; [by rewrite take_ge|].
  destruct (last (take n all)) as [m|] eqn:Em; cycle 1.
  { apply last_None in Em. apply (f_equal length) in Em. rewrite length_take in Em. simpl in Em. lia. }
  destruct (filter_take_split q n R m (drop n all)) as (l1 & l2 & HR & H2); [by rewrite take_drop|done|].
  fold all in H2. cbn [fmap option_fmap option_map default from_option id].
  assert (l = (P ++ l1) ++ m :: l2) as Hl2 by (by rewrite HPR, HR, <- app_assoc).
  rewrite (IH (next_page q (a_ID m)) ((P ++ l1) ++ [m]) l2); [|done| | |done|done|done|].
  - assert (filter (selected (next_page q (a_ID m))) l2 = filter (selected q) l2) as -> by reflexivity.
    cbn. by rewrite H2, take_drop.
  - rewrite Hl2. by rewrite <- !app_assoc.
  - unfold in_page. cbn [next_page q_AfterID q_BeforeID]. rewrite Hb, (bool_decide_true (""%string = ""%string)) by done.
    rewrite bool_decide_false.
    + rewrite Hl2. apply after_id_app. rewrite Hl2, fmap_app in Hnd. apply NoDup_app in Hnd as (_ & Hnd & _).
      intros Hin'. eapply Hnd; [exact Hin'|]. by left.
    + intros He. apply Hne. rewrite Hl2, <- He, fmap_app. apply elem_of_app. right. by left.
  - assert (filter (selected (next_page q (a_ID m))) l2 = filter (selected q) l2) as -> by reflexivity.
    rewrite H2, length_drop. lia.
Qed.

(** The identifiers a store hands out are not empty. *)
Lemma pretty_N_go_ne x t : t ≠ ""%string → pretty_N_go x t ≠ ""%string.
Proof.
  revert t. induction (N.lt_wf_0 x) as [x _ IH]; intros t Ht.
  assert (x = 0 ∨ 0 < x)%N as [->|Hx] by lia; [by rewrite pretty_N_go_0|].
  rewrite pretty_N_go_step by done. apply IH; [by apply N.div_lt|done].
Qed.

Lemma pretty_Z_ne (z : Z) : pretty z ≠ ""%string.
Proof.
  destruct z as [|p|p]; [done| |done]. unfold pretty, pretty_Z, pretty, pretty_positive, pretty, pretty_N.
  case_decide; [done|]. rewrite pretty_N_go_step by lia. by apply pretty_N_go_ne.
Qed.

(** What the archive of [u] gets from messages without identifiers, the counter
    being [c] before: its messages in order, numbered, with their time filled
    in. *)
Fixpoint numbered (c : nat) (u : string) (msgs : list (time * ArchivedMessage)) : list ArchivedMessage :=
  match msgs with
  | [] => []
  | (now, m) :: rest =>
      (if bool_decide (a_UserJID m = u)
       then [mkArchived (pretty (Z.of_nat (S c))) u (a_WithJID m) (a_FromJID m) (a_Data m) (stamp now (a_CreatedAt m))]
       else []) ++ numbered (S c) u rest
  end.

Lemma numbered_ids c u msgs x : x ∈ numbered c u msgs → ∃ i, (c < i)%nat ∧ a_ID x = pretty (Z.of_nat i).
Proof.
  revert c. induction msgs as [|[now m] msgs IH]; intros c; cbn [numbered]; [by intros ?%elem_of_nil|].
  rewrite elem_of_app. intros [Hx|Hx].
  - case_bool_decide; [|by apply elem_of_nil in Hx]. apply list_elem_of_singleton in Hx as ->. exists (S c). split; [lia|done].
  - apply IH in Hx as (i & ? & ?). exists i. split; [lia|done].
Qed.

Lemma numbered_NoDup c u msgs : NoDup (a_ID <$> numbered c u msgs).
Proof.
  revert c. induction msgs as [|[now m] msgs IH]; intros c; cbn [numbered]; [constructor|].
  rewrite fmap_app. apply NoDup_app. split; [case_bool_decide; [apply NoDup_singleton|constructor]|].
  split; [|apply IH]. intros y Hy (x & -> & (i & Hi & Hid)%numbered_ids)%list_elem_of_fmap.
  case_bool_decide; [|by apply elem_of_nil in Hy]. apply list_elem_of_singleton in Hy. cbn in Hy.
  rewrite Hid in Hy. apply (inj pretty) in Hy. lia.
Qed.

Lemma numbered_nonempty c u msgs : ""%string ∉ a_ID <$> numbered c u msgs.
Proof.
  intros (x & Hx & (i & _ & Hid)%numbered_ids)%list_elem_of_fmap.
  apply (pretty_Z_ne (Z.of_nat i)). congruence.
Qed.

Lemma numbered_length c u msgs : (length (numbered c u msgs) ≤ length msgs)%nat.
Proof.
  revert c. induction msgs as [|[now m] msgs IH]; intros c; cbn [numbered length]; [lia|].
  rewrite length_app. specialize (IH (S c)). case_bool_decide; simpl; lia.
Qed.

Lemma archive_all_numbered msgs s u c :
  mamIDCounter s = Z.of_nat c → Forall (λ x, a_ID x.2 = ""%string) msgs →
  (Z.of_nat (c + length msgs) < 2 ^ 63)%Z →
  default [] (mamMessages (archive_all msgs s) !! u) = default [] (mamMessages s !! u) ++ numbered c u msgs.
Proof.
  intros Hc Hids. revert s c Hc. induction Hids as [|[now m] msgs Hm _ IH]; intros s c Hc Hb.
  { cbn. by rewrite app_nil_r. }
  cbn [archive_all numbered length snd] in *. destruct m as [id us w f d t]. simpl in Hm. subst id.
  assert (i64_succ (mamIDCounter s) = Z.of_nat (S c)) as Hsucc.
  { unfold i64_succ. rewrite Hc, Z.mod_small; lia. }
  rewrite (IH _ (S c)); [| |lia]; cycle 1.
  { unfold ArchiveMessage, mmodify. simpl. destruct (IsZero t); simpl; exact Hsucc. }
  unfold ArchiveMessage, mmodify, stamp. cbn [a_UserJID a_CreatedAt a_ID a_WithJID a_FromJID a_Data fst].
  destruct (IsZero t); cbn [a_UserJID a_CreatedAt a_ID a_WithJID a_FromJID a_Data];
    rewrite bool_decide_true by done; cbn [set_mamMessages set_mamIDCounter mamMessages mamIDCounter];
    rewrite lookup_insert, Hsucc; case_decide as Hu; case_bool_decide; try done; simplify_eq; cbn [default from_option id];
    by rewrite <- app_assoc.
Qed.

(** C35: paging through the in-memory store is complete and terminates: after any
    messages without identifiers, which the store then numbers, have been archived
    in a new store, a client that queries an archive page by page, following
    the last identifier of each page, gets after finitely many pages exactly the
    messages of that user which the filters select, each once and in the order
    they were archived. *)
Theorem archive_paging msgs q :
  Forall (λ x, a_ID x.2 = ""%string) msgs → (Z.of_nat (length msgs) < 2 ^ 63)%Z →
  q_AfterID q = ""%string → q_BeforeID q = ""%string →
  paging (S (length msgs)) q (archive_all msgs New) =
    Some (filter (selected q) (numbered 0 (q_UserJID q) msgs)).
Proof.
  intros Hids Hlen Ha Hb. set (l := numbered 0 (q_UserJID q) msgs).
  apply (paging_suffix _ q _ l [] l).
  - by rewrite (archive_all_numbered msgs New (q_UserJID q) 0).
  - done.
  - unfold in_page. by rewrite Ha, Hb, !bool_decide_true.
  - done.
  - apply numbered_NoDup.
  - apply numbered_nonempty.
  - pose proof (numbered_length 0 (q_UserJID q) msgs). fold l in H.
    assert (length (filter (selected q) l) ≤ length l)%nat by apply length_filter. lia.
Qed.

(** [Count] is the size of the page returned, not a total: when the answer is
    not complete it is smaller than the number of messages that match. *)
Theorem QueryMessages_count q s :
  let r := QueryMessages q s in
  Count r = Z.of_nat (length (Messages r)) ∧
  (Complete r = false →
   (Count r < Z.of_nat (length (filter (selected q) (in_page q (default [] (mamMessages s !! q_UserJID q))))))%Z).
Proof.
  cbn zeta. rewrite QueryMessages_spec. unfold mam_answer. cbn [Count Messages Complete]. split; [done|].
  intros Hc%bool_decide_eq_false. rewrite length_take. lia.
Qed.

(** ** Instances *)

Module MemoryExample.
Definition it : iteration := mkIteration (λ V m, map_to_list m).
Lemma it_ok : iteration_ok it.
Proof. intros V m. unfold iter_order, it, visit. reflexivity. Qed.

Definition alice := "alice@example.org"%string.
Definition bob := "bob@example.org"%string.
Definition user := mkUser "alice" "secret" "" 0 "" "" 0 0.

Definition calls : list (time * iteration * call) :=
  [(5%Z, it, CCreateUser user); (6%Z, it, CCreateUser user); (7%Z, it, CAuthenticate "alice" "wrong");
   (8%Z, it, CUpsertRosterItem (mkRosterItem alice bob "Bob" "both" "" [])); (9%Z, it, CGetRosterItems alice);
   (9%Z, it, CDeleteRosterItem bob alice)].

Lemma memory_store_refines_witness :
  run New calls = [AUnit; AErr ErrUserExists; AErr ErrAuthFailed; AUnit;
                   ARosters [mkRosterItem alice bob "Bob" "both" "" []]; AErr ErrNotFound] ∧
  spec_run spec_init ((λ x, (x.1.1, x.2)) <$> calls) (run New calls).
Proof.
  split; [by vm_compute|]. apply (memory_store_refines calls).
  repeat constructor; apply it_ok.
Defined.

Definition msg (w : string) (t : time) := mkArchived "" alice w bob [] t.
Definition msgs : list (time * ArchivedMessage) := [(3%Z, msg bob 1); (4%Z, msg "carol" 0); (5%Z, msg bob 0); (6%Z, msg bob 9)].
Definition query := mkQuery alice bob 0 8 "" "" 1.

Lemma archive_paging_witness :
  paging 5 query (archive_all msgs New) =
    Some [mkArchived "1" alice bob bob [] 1; mkArchived "3" alice bob bob [] 5].
Proof.
  assert (filter (selected query) (numbered 0 alice msgs) =
    [mkArchived "1" alice bob bob [] 1; mkArchived "3" alice bob bob [] 5]) as <- by (by vm_compute).
  apply (archive_paging msgs query); [repeat constructor|done|done|done].
Defined.
End MemoryExample.
