(* ===== verification/StorageJson.v ===== *)
(** * JSON documents of the stored records (encoding/json, as src/storage/file uses it)

    What [json.MarshalIndent] writes for a stored value and what
    [json.Unmarshal] reads back, as values: a JSON document is a tree, a struct
    an object with one member per exported field, a map an object whose keys are
    in byte order, a [[]byte] its base64 form.  The standard library replaces
    every byte that is not part of a valid UTF-8 sequence by U+FFFD, and refuses
    a time outside the years 0 to 9999.  The class [Json] states the round trip
    that the file backend relies on. *)

From Stdlib Require Import Ascii String ZArith.
From S2P Require Import Prelude GoStrings Bytes Base64 Storage.

Open Scope list_scope.

Inductive json :=
  | JNull
  | JBool (b : bool)
  | JInt (z : Z)
  | JStr (s : string)
  | JTime (t : time)
  | JArr (l : list json)
  | JObj (l : list (string * json)).

(** ** Strings: invalid bytes become U+FFFD *)

Definition replacement : string :=
  String (ascii_of_N 239) (String (ascii_of_N 191) (String (ascii_of_N 189) EmptyString)).

Fixpoint coerce (s : string) : string :=
  match s with
  | EmptyString => EmptyString
  | String b0 s1 =>
      if in_range 0 127 b0 then String b0 (coerce s1)
      else match s1 with
      | EmptyString => replacement
      | String b1 s2 =>
          if in_range 194 223 b0 && cont b1 then String b0 (String b1 (coerce s2))
          else match s2 with
          | EmptyString => replacement +:+ coerce s1
          | String b2 s3 =>
              if in_range 224 239 b0 &&
                 ((if bool_decide (N_of_ascii b0 = 224%N) then in_range 160 191 b1
                   else if bool_decide (N_of_ascii b0 = 237%N) then in_range 128 159 b1
                   else cont b1) && cont b2)
              then String b0 (String b1 (String b2 (coerce s3)))
              else match s3 with
              | EmptyString => replacement +:+ coerce s1
              | String b3 s4 =>
                  if in_range 240 244 b0 &&
                     ((if bool_decide (N_of_ascii b0 = 240%N) then in_range 144 191 b1
                       else if bool_decide (N_of_ascii b0 = 244%N) then in_range 128 143 b1
                       else cont b1) && cont b2 && cont b3)
                  then String b0 (String b1 (String b2 (String b3 (coerce s4))))
                  else replacement +:+ coerce s1
              end
          end
      end
  end.

Lemma ValidString_runes s : ValidString s = true ↔ is_Some (utf8_runes s).
Proof. unfold ValidString. destruct (utf8_runes s); [by eauto|]. split; [done|by intros [? ?]]. Qed.

Lemma coerce_valid s : ValidString s = true → coerce s = s.
Proof.
  rewrite ValidString_runes. remember (String.length s) as n eqn:Hn. revert s Hn.
  induction (lt_wf n) as [n _ IH]. intros [|b0 s1] -> H; [done|].
  cbn [coerce utf8_runes] in *.
  destruct (in_range 0 127 b0). { f_equal. eapply IH; [|done|]; [simpl; lia|by rewrite fmap_is_Some in H]. }
  destruct s1 as [|b1 s2]; [by destruct H|].
  destruct (in_range 194 223 b0) eqn:E2; cbn [andb].
  { destruct (cont b1); [|by destruct H]. do 2 f_equal.
    eapply IH; [|done|]; [simpl; lia|by rewrite fmap_is_Some in H]. }
  destruct s2 as [|b2 s3]; [by destruct H|].
  destruct (in_range 224 239 b0) eqn:E3; cbn [andb].
  { case_match; [|by destruct H]. do 3 f_equal.
    eapply IH; [|done|]; [simpl; lia|by rewrite fmap_is_Some in H]. }
  destruct s3 as [|b3 s4]; [by destruct H|].
  destruct (in_range 240 244 b0) eqn:E4; cbn [andb]; [|by destruct H].
  case_match; [|by destruct H]. do 4 f_equal.
  eapply IH; [|done|]; [simpl; lia|by rewrite fmap_is_Some in H].
Qed.

(** ** Times: [Time.MarshalJSON] refuses years outside 0 to 9999 *)

Definition year_ok (t : time) : bool :=
  ((-366 * 86400 * 10 ^ 9 <=? t) && (t <? 3652059 * 86400 * 10 ^ 9))%Z.

(** ** Leaves *)

Definition e_str (s : string) : json := JStr (coerce s).
Definition d_str (j : json) : option string :=
  match j with JStr s => Some s | JNull => Some ""%string | _ => None end.
Definition d_int (j : json) : option Z :=
  match j with JInt z => Some z | JNull => Some 0%Z | _ => None end.
Definition d_bool (j : json) : option bool :=
  match j with JBool b => Some b | JNull => Some false | _ => None end.
Definition e_bytes (b : bytes) : json := JStr (EncodeToString b).
Definition d_bytes (j : json) : option bytes :=
  match j with JStr s => DecodeString s | JNull => Some [] | _ => None end.
Definition e_time (t : time) : option json := if year_ok t then Some (JTime t) else None.
Definition d_time (j : json) : option time :=
  match j with JTime t => Some t | JNull => Some 0%Z | _ => None end.

(** The members of an object; [null] leaves the struct as it is.  A member that
    is there twice counts with its last value. *)
Definition members (j : json) : option (list (string * json)) :=
  match j with JObj l => Some l | JNull => Some [] | _ => None end.

Fixpoint member (k : string) (l : list (string * json)) : option json :=
  match l with
  | [] => None
  | (k', j) :: l' => match member k l' with Some x => Some x | None => if decide (k' = k) then Some j else None end
  end.

Definition field {A} (dec : json → option A) (zero : A) (k : string) (l : list (string * json)) : option A :=
  match member k l with Some j => dec j | None => Some zero end.

(** ** The round trip of a type *)

Class Json (T : Type) := {
  marshal : T → option json;
  unmarshal : json → option T;
  json_ok : T → Prop;
  json_roundtrip x : json_ok x → ∃ j, marshal x = Some j ∧ unmarshal j = Some x
}.

(** *** Slices *)

Definition marshal_list {T} `{Json T} (l : list T) : option json := JArr <$> mapM marshal l.
Definition unmarshal_list {T} `{Json T} (j : json) : option (list T) :=
  match j with JArr l => mapM unmarshal l | JNull => Some [] | _ => None end.

Lemma mapM_roundtrip {A B} (f : A → option B) (g : B → option A) l :
  Forall (λ x, ∃ y, f x = Some y ∧ g y = Some x) l → ∃ l', mapM f l = Some l' ∧ mapM g l' = Some l.
Proof.
  induction 1 as [|x l (y & Hy & Hx) _ (l' & Hl & Hl')]; [by exists []|].
  exists (y :: l'). simpl. by rewrite Hy, Hl, Hx, Hl'.
Qed.

#[export] Program Instance json_list {T} `{Json T} : Json (list T) := {
  marshal := marshal_list; unmarshal := unmarshal_list; json_ok := Forall json_ok
}.
Next Obligation.
  intros T ? l Hl. destruct (mapM_roundtrip (marshal (T := T)) unmarshal l) as (l' & H1 & H2).
  { eapply Forall_impl; [exact Hl|]. apply json_roundtrip. }
  exists (JArr l'). unfold marshal_list. by rewrite H1.
Qed.

(** *** Maps; [None] is the nil map *)

Notation gomap V := (option (gmap string V)).

Definition key_le {V} (a b : string * V) : Prop := String.leb a.1 b.1 = true.
#[global] Instance key_le_dec {V} (a b : string * V) : Decision (key_le a b).
Proof. unfold key_le. apply _. Defined.

Definition marshal_map {V} `{Json V} (m : gomap V) : option json :=
  match m with
  | None => Some JNull
  | Some m => JObj <$> mapM (λ kv, pair (coerce kv.1) <$> marshal kv.2) (merge_sort key_le (map_to_list m))
  end.

Definition unmarshal_map {V} `{Json V} (j : json) : option (gomap V) :=
  match j with
  | JNull => Some None
  | JObj l => Some ∘ foldl (λ m kv, <[kv.1 := kv.2]> m) ∅ <$> mapM (λ kv, pair kv.1 <$> unmarshal kv.2) l
  | _ => None
  end.

Lemma foldl_insert_iter {V} (m : gmap string V) l :
  iter_order m l → foldl (λ m kv, <[kv.1 := kv.2]> m) ∅ l = m.
Proof.
  intros Hl. transitivity (list_to_map (M := gmap string V) (reverse l)).
  { clear Hl. rewrite <- (reverse_involutive l) at 1. induction (reverse l) as [|[k v] r IH]; [done|].
    rewrite reverse_cons, foldl_snoc. simpl. by rewrite IH. }
  apply iter_order_list_to_map. unfold iter_order in *. by rewrite reverse_Permutation.
Qed.

#[export] Program Instance json_map {V} `{Json V} : Json (gomap V) := {
  marshal := marshal_map; unmarshal := unmarshal_map;
  json_ok := λ o, ∃ m, o = Some m ∧ map_Forall (λ k v, ValidString k = true ∧ json_ok v) m
}.
Next Obligation.
  intros V ? o (m & -> & Hm). cbn [marshal_map].
  set (l := merge_sort key_le (map_to_list m)).
  assert (iter_order m l) as Hl by apply merge_sort_Permutation.
  destruct (mapM_roundtrip (λ kv : string * V, pair (coerce kv.1) <$> marshal kv.2)
              (λ kv : string * json, pair kv.1 <$> unmarshal kv.2) l) as (l' & H1 & H2).
  { apply Forall_forall. intros [k v] Hkv. apply (iter_order_lookup m l k v Hl) in Hkv.
    destruct (Hm k v Hkv) as [Hk (j & Hj & Hv)%json_roundtrip]. exists (k, j). simpl.
    by rewrite Hj, Hv, coerce_valid. }
  exists (JObj l'). rewrite H1. split; [done|]. cbn [unmarshal_map]. rewrite H2. simpl.
  unfold compose. by rewrite (foldl_insert_iter m l Hl).
Qed.

Arguments unmarshal_list : simpl never.
Arguments unmarshal_map : simpl never.

(** ** The stored types *)

Notation valid s := (ValidString s = true).

#[export] Program Instance json_bool : Json bool := {
  marshal := λ b, Some (JBool b); unmarshal := d_bool; json_ok := λ _, True
}.
Next Obligation. intros b _. by exists (JBool b). Qed.

#[export] Program Instance json_string : Json string := {
  marshal := λ s, Some (e_str s); unmarshal := d_str; json_ok := λ s, valid s
}.
Next Obligation. intros s Hs. exists (e_str s). unfold e_str. by rewrite coerce_valid. Qed.

(** A struct's object reads back as the struct. *)
Ltac struct_roundtrip :=
  intros; unfold e_str, e_bytes, e_time in *; simpl in *;
  repeat match goal with H : _ ∧ _ |- _ => destruct H end;
  repeat match goal with H : year_ok _ = true |- _ => rewrite H; clear H end;
  simpl; eexists; split; [reflexivity|]; cbn;
  repeat match goal with H : ValidString ?s = true |- _ => rewrite !(coerce_valid s H); clear H end;
  unfold field; simpl; rewrite ?DecodeString_EncodeToString; simpl.

Definition marshal_User (u : User) : option json :=
  c ← e_time (u_CreatedAt u); d ← e_time (u_UpdatedAt u);
  Some (JObj [("Username", e_str (Username u)); ("Password", e_str (Password u)); ("Salt", e_str (Salt u));
              ("Iterations", JInt (Iterations u)); ("ServerKey", e_str (ServerKey u));
              ("StoredKey", e_str (StoredKey u)); ("CreatedAt", c); ("UpdatedAt", d)])%string.
Definition unmarshal_User (j : json) : option User :=
  l ← members j;
  n ← field d_str ""%string "Username"%string l; p ← field d_str ""%string "Password"%string l;
  s ← field d_str ""%string "Salt"%string l; i ← field d_int 0%Z "Iterations"%string l;
  sk ← field d_str ""%string "ServerKey"%string l; st ← field d_str ""%string "StoredKey"%string l;
  c ← field d_time 0%Z "CreatedAt"%string l; d ← field d_time 0%Z "UpdatedAt"%string l;
  Some (mkUser n p s i sk st c d).
Definition User_ok (u : User) : Prop :=
  valid (Username u) ∧ valid (Password u) ∧ valid (Salt u) ∧ valid (ServerKey u) ∧ valid (StoredKey u) ∧
  year_ok (u_CreatedAt u) = true ∧ year_ok (u_UpdatedAt u) = true.
#[export] Program Instance json_User : Json User := {
  marshal := marshal_User; unmarshal := unmarshal_User; json_ok := User_ok
}.
Next Obligation. intros []. unfold User_ok, marshal_User. struct_roundtrip. done. Qed.

Definition marshal_RosterItem (i : RosterItem) : option json :=
  g ← marshal (Groups i);
  Some (JObj [("UserJID", e_str (r_UserJID i)); ("ContactJID", e_str (ContactJID i)); ("Name", e_str (r_Name i));
              ("Subscription", e_str (Subscription i)); ("Ask", e_str (Ask i)); ("Groups", g)])%string.
Definition unmarshal_RosterItem (j : json) : option RosterItem :=
  l ← members j;
  u ← field d_str ""%string "UserJID"%string l; c ← field d_str ""%string "ContactJID"%string l;
  n ← field d_str ""%string "Name"%string l; s ← field d_str ""%string "Subscription"%string l;
  a ← field d_str ""%string "Ask"%string l; g ← field unmarshal [] "Groups"%string l;
  Some (mkRosterItem u c n s a g).
Definition RosterItem_ok (i : RosterItem) : Prop :=
  valid (r_UserJID i) ∧ valid (ContactJID i) ∧ valid (r_Name i) ∧ valid (Subscription i) ∧ valid (Ask i) ∧
  json_ok (Groups i).
#[export] Program Instance json_RosterItem : Json RosterItem := {
  marshal := marshal_RosterItem; unmarshal := unmarshal_RosterItem; json_ok := RosterItem_ok
}.
Next Obligation.
  intros [u c n s a g]. unfold RosterItem_ok, marshal_RosterItem. intros (? & ? & ? & ? & ? & Hg).
  destruct (json_roundtrip g Hg) as (j & Hj & Hj'). cbn [Groups]. rewrite Hj. clear Hj. simpl in *.
  struct_roundtrip. by rewrite Hj'.
Qed.

Definition marshal_Offline (m : OfflineMessage) : option json :=
  c ← e_time (o_CreatedAt m);
  Some (JObj [("ID", e_str (o_ID m)); ("UserJID", e_str (o_UserJID m)); ("FromJID", e_str (o_FromJID m));
              ("Data", e_bytes (o_Data m)); ("CreatedAt", c)])%string.
Definition unmarshal_Offline (j : json) : option OfflineMessage :=
  l ← members j;
  i ← field d_str ""%string "ID"%string l; u ← field d_str ""%string "UserJID"%string l;
  f ← field d_str ""%string "FromJID"%string l; d ← field d_bytes [] "Data"%string l;
  c ← field d_time 0%Z "CreatedAt"%string l;
  Some (mkOffline i u f d c).
Definition Offline_ok (m : OfflineMessage) : Prop :=
  valid (o_ID m) ∧ valid (o_UserJID m) ∧ valid (o_FromJID m) ∧ year_ok (o_CreatedAt m) = true.
#[export] Program Instance json_Offline : Json OfflineMessage := {
  marshal := marshal_Offline; unmarshal := unmarshal_Offline; json_ok := Offline_ok
}.
Next Obligation. intros []. unfold Offline_ok, marshal_Offline. struct_roundtrip. done. Qed.

Definition marshal_Archived (m : ArchivedMessage) : option json :=
  c ← e_time (a_CreatedAt m);
  Some (JObj [("ID", e_str (a_ID m)); ("UserJID", e_str (a_UserJID m)); ("WithJID", e_str (a_WithJID m));
              ("FromJID", e_str (a_FromJID m)); ("Data", e_bytes (a_Data m)); ("CreatedAt", c)])%string.
Definition unmarshal_Archived (j : json) : option ArchivedMessage :=
  l ← members j;
  i ← field d_str ""%string "ID"%string l; u ← field d_str ""%string "UserJID"%string l;
  w ← field d_str ""%string "WithJID"%string l; f ← field d_str ""%string "FromJID"%string l;
  d ← field d_bytes [] "Data"%string l; c ← field d_time 0%Z "CreatedAt"%string l;
  Some (mkArchived i u w f d c).
Definition Archived_ok (m : ArchivedMessage) : Prop :=
  valid (a_ID m) ∧ valid (a_UserJID m) ∧ valid (a_WithJID m) ∧ valid (a_FromJID m) ∧
  year_ok (a_CreatedAt m) = true.
#[export] Program Instance json_Archived : Json ArchivedMessage := {
  marshal := marshal_Archived; unmarshal := unmarshal_Archived; json_ok := Archived_ok
}.
Next Obligation. intros []. unfold Archived_ok, marshal_Archived. struct_roundtrip. done. Qed.

Definition marshal_Room (r : MUCRoom) : option json :=
  Some (JObj [("RoomJID", e_str (m_RoomJID r)); ("Name", e_str (m_Name r)); ("Description", e_str (Description r));
              ("Subject", e_str (Subject r)); ("Password", e_str (m_Password r)); ("Public", JBool (Public r));
              ("Persistent", JBool (Persistent r)); ("MaxUsers", JInt (MaxUsers r))])%string.
Definition unmarshal_Room (j : json) : option MUCRoom :=
  l ← members j;
  r ← field d_str ""%string "RoomJID"%string l; n ← field d_str ""%string "Name"%string l;
  d ← field d_str ""%string "Description"%string l; s ← field d_str ""%string "Subject"%string l;
  p ← field d_str ""%string "Password"%string l; u ← field d_bool false "Public"%string l;
  e ← field d_bool false "Persistent"%string l; m ← field d_int 0%Z "MaxUsers"%string l;
  Some (mkRoom r n d s p u e m).
Definition Room_ok (r : MUCRoom) : Prop :=
  valid (m_RoomJID r) ∧ valid (m_Name r) ∧ valid (Description r) ∧ valid (Subject r) ∧ valid (m_Password r).
#[export] Program Instance json_Room : Json MUCRoom := {
  marshal := marshal_Room; unmarshal := unmarshal_Room; json_ok := Room_ok
}.
Next Obligation. intros []. unfold Room_ok, marshal_Room. struct_roundtrip. done. Qed.

Definition marshal_Affiliation (a : MUCAffiliation) : option json :=
  Some (JObj [("RoomJID", e_str (f_RoomJID a)); ("UserJID", e_str (f_UserJID a));
              ("Affiliation", e_str (Affiliation a)); ("Reason", e_str (Reason a))])%string.
Definition unmarshal_Affiliation (j : json) : option MUCAffiliation :=
  l ← members j;
  r ← field d_str ""%string "RoomJID"%string l; u ← field d_str ""%string "UserJID"%string l;
  a ← field d_str ""%string "Affiliation"%string l; e ← field d_str ""%string "Reason"%string l;
  Some (mkAffiliation r u a e).
Definition Affiliation_ok (a : MUCAffiliation) : Prop :=
  valid (f_RoomJID a) ∧ valid (f_UserJID a) ∧ valid (Affiliation a) ∧ valid (Reason a).
#[export] Program Instance json_Affiliation : Json MUCAffiliation := {
  marshal := marshal_Affiliation; unmarshal := unmarshal_Affiliation; json_ok := Affiliation_ok
}.
Next Obligation. intros []. unfold Affiliation_ok, marshal_Affiliation. struct_roundtrip. done. Qed.

Definition marshal_Node (n : PubSubNode) : option json :=
  c ← marshal (Config n);
  Some (JObj [("Host", e_str (n_Host n)); ("NodeID", e_str (n_NodeID n)); ("Name", e_str (n_Name n));
              ("Type", e_str (n_Type n)); ("Config", c); ("Creator", e_str (Creator n))])%string.
Definition unmarshal_Node (j : json) : option PubSubNode :=
  l ← members j;
  h ← field d_str ""%string "Host"%string l; n ← field d_str ""%string "NodeID"%string l;
  m ← field d_str ""%string "Name"%string l; t ← field d_str ""%string "Type"%string l;
  c ← field unmarshal None "Config"%string l; r ← field d_str ""%string "Creator"%string l;
  Some (mkNode h n m t c r).
Definition Node_ok (n : PubSubNode) : Prop :=
  valid (n_Host n) ∧ valid (n_NodeID n) ∧ valid (n_Name n) ∧ valid (n_Type n) ∧ valid (Creator n) ∧
  (Config n = None ∨ json_ok (Config n)).
#[export] Program Instance json_Node : Json PubSubNode := {
  marshal := marshal_Node; unmarshal := unmarshal_Node; json_ok := Node_ok
}.
Next Obligation.
  intros [h n m t c r]. unfold Node_ok, marshal_Node. intros (? & ? & ? & ? & ? & Hc). cbn [Config] in *.
  assert (∃ j, marshal c = Some j ∧ unmarshal j = Some c) as (j & Hj & Hj').
  { destruct Hc as [->|Hc]; [by exists JNull|by apply json_roundtrip]. }
  rewrite Hj. clear Hj Hc. simpl in *. struct_roundtrip. by rewrite Hj'.
Qed.

Definition marshal_Item (i : PubSubItem) : option json :=
  c ← e_time (i_CreatedAt i);
  Some (JObj [("Host", e_str (i_Host i)); ("NodeID", e_str (i_NodeID i)); ("ItemID", e_str (i_ItemID i));
              ("Publisher", e_str (Publisher i)); ("Payload", e_bytes (i_Payload i)); ("CreatedAt", c)])%string.
Definition unmarshal_Item (j : json) : option PubSubItem :=
  l ← members j;
  h ← field d_str ""%string "Host"%string l; n ← field d_str ""%string "NodeID"%string l;
  i ← field d_str ""%string "ItemID"%string l; p ← field d_str ""%string "Publisher"%string l;
  d ← field d_bytes [] "Payload"%string l; c ← field d_time 0%Z "CreatedAt"%string l;
  Some (mkItem h n i p d c).
Definition Item_ok (i : PubSubItem) : Prop :=
  valid (i_Host i) ∧ valid (i_NodeID i) ∧ valid (i_ItemID i) ∧ valid (Publisher i) ∧
  year_ok (i_CreatedAt i) = true.
#[export] Program Instance json_Item : Json PubSubItem := {
  marshal := marshal_Item; unmarshal := unmarshal_Item; json_ok := Item_ok
}.
Next Obligation. intros []. unfold Item_ok, marshal_Item. struct_roundtrip. done. Qed.

Definition marshal_Subscription (s : PubSubSubscription) : option json :=
  Some (JObj [("Host", e_str (s_Host s)); ("NodeID", e_str (s_NodeID s)); ("JID", e_str (s_JID s));
              ("SubID", e_str (SubID s)); ("State", e_str (s_State s))])%string.
Definition unmarshal_Subscription (j : json) : option PubSubSubscription :=
  l ← members j;
  h ← field d_str ""%string "Host"%string l; n ← field d_str ""%string "NodeID"%string l;
  i ← field d_str ""%string "JID"%string l; b ← field d_str ""%string "SubID"%string l;
  t ← field d_str ""%string "State"%string l;
  Some (mkSubscription h n i b t).
Definition Subscription_ok (s : PubSubSubscription) : Prop :=
  valid (s_Host s) ∧ valid (s_NodeID s) ∧ valid (s_JID s) ∧ valid (SubID s) ∧ valid (s_State s).
#[export] Program Instance json_Subscription : Json PubSubSubscription := {
  marshal := marshal_Subscription; unmarshal := unmarshal_Subscription; json_ok := Subscription_ok
}.
Next Obligation. intros []. unfold Subscription_ok, marshal_Subscription. struct_roundtrip. done. Qed.

Definition marshal_Bookmark (b : Bookmark) : option json :=
  Some (JObj [("UserJID", e_str (b_UserJID b)); ("RoomJID", e_str (b_RoomJID b)); ("Name", e_str (b_Name b));
              ("Nick", e_str (Nick b)); ("Password", e_str (b_Password b)); ("Autojoin", JBool (Autojoin b))])%string.
Definition unmarshal_Bookmark (j : json) : option Bookmark :=
  l ← members j;
  u ← field d_str ""%string "UserJID"%string l; r ← field d_str ""%string "RoomJID"%string l;
  n ← field d_str ""%string "Name"%string l; k ← field d_str ""%string "Nick"%string l;
  p ← field d_str ""%string "Password"%string l; a ← field d_bool false "Autojoin"%string l;
  Some (mkBookmark u r n k p a).
Definition Bookmark_ok (b : Bookmark) : Prop :=
  valid (b_UserJID b) ∧ valid (b_RoomJID b) ∧ valid (b_Name b) ∧ valid (Nick b) ∧ valid (b_Password b).
#[export] Program Instance json_Bookmark : Json Bookmark := {
  marshal := marshal_Bookmark; unmarshal := unmarshal_Bookmark; json_ok := Bookmark_ok
}.
Next Obligation. intros []. unfold Bookmark_ok, marshal_Bookmark. struct_roundtrip. done. Qed.
