(* ===== verification/FileStorage.v ===== *)
(** * The file store (src/storage/file/file.go)

    Every operation of [file.Store] over a file system: thirteen directories
    below the base directory, files by name, each a JSON document or (for
    vCards) raw bytes.  A file name longer than 255 bytes or with a NUL byte is
    refused by the system; other I/O failures are not modelled.  The mutex makes
    each operation atomic; [time.Now()] and the iteration order of maps are
    arguments.  A document in which a record is replaced by [null], which the
    store never writes, is read as malformed.

    [FileRefinement] proves the store against the contract of [Storage], and
    shows where file names and restarts break it. *)

From Stdlib Require Import Ascii String ZArith.
From stdpp Require Import pretty.
From S2P Require Import Prelude GoStrings Bytes Storage MemoryStorage StorageJson.

Open Scope list_scope.
Open Scope go_scope.

(** ** The file system below the base directory *)

Inductive content := Doc (j : json) | Raw (b : bytes).

(** What [os.IsNotExist] distinguishes. *)
Inductive os_error := ENOENT | EOTHER.

Inductive file_error := FStorage (e : storage_error) | FOs (e : os_error) | FJson.

(** [mamCounter] is a variable of the process. *)
Record Store := mkFiles { tree : gmap string (gmap string content); mamCounter : Z }.

Notation FE A := (M Store file_error A).
Notation FR A := (res file_error A).

(** Directory and file name. *)
Notation path_name := (string * string)%type.

Definition name_ok (n : string) : bool :=
  (String.length n <=? 255)%nat && negb (has_byte zero_byte n).

Definition lookup_file (s : Store) (p : path_name) : option content := tree s !! p.1 ≫= λ dir, dir !! p.2.

Definition ReadFile (p : path_name) (s : Store) : res os_error content :=
  if negb (name_ok p.2) then Err EOTHER
  else match lookup_file s p with Some c => Ok c | None => Err ENOENT end.

Definition set_dir (d : string) (files : gmap string content) (s : Store) : Store :=
  mkFiles (<[d := files]> (tree s)) (mamCounter s).

Definition WriteFile (p : path_name) (c : content) : FE unit :=
  do s <- mget;
  if negb (name_ok p.2) then merr (FOs EOTHER)
  else match tree s !! p.1 with
  | None => merr (FOs ENOENT)
  | Some files => mput (set_dir p.1 (<[p.2 := c]> files) s)
  end.

Definition Remove (p : path_name) : FE unit :=
  do s <- mget;
  if negb (name_ok p.2) then merr (FOs EOTHER)
  else match tree s !! p.1 with
  | None => merr (FOs ENOENT)
  | Some files =>
      match files !! p.2 with
      | None => merr (FOs ENOENT)
      | Some _ => mput (set_dir p.1 (delete p.2 files) s)
      end
  end.

(** [os.ReadDir]: the names of the entries, in order. *)
Definition name_le (a b : string) : Prop := String.leb a b = true.
#[global] Instance name_le_dec a b : Decision (name_le a b).
Proof. unfold name_le. apply _. Defined.

Definition ReadDir (d : string) (s : Store) : res os_error (list string) :=
  match tree s !! d with
  | None => Err ENOENT
  | Some files => Ok (merge_sort name_le (map_to_list files).*1)
  end.

(** [os.MkdirAll] of one directory. *)
Definition MkdirAll (d : string) : FE unit :=
  mmodify (λ s, match tree s !! d with Some _ => s | None => set_dir d ∅ s end).

(** A call whose error is dropped. *)
Definition ignore (m : FE unit) : FE unit := λ s, ((m s).1, Ok tt).

(** ** The store and its file helpers *)

Definition New : Store := mkFiles ∅ 0.

Definition init_dirs : list string :=
  ["users"; "roster"; "roster_versions"; "blocking"; "vcards"; "offline"; "mam"; "muc_rooms";
   "muc_affiliations"; "pubsub_nodes"; "pubsub_items"; "pubsub_subscriptions"; "bookmarks"]%string.

Fixpoint init_loop (ds : list string) : FE unit :=
  match ds with [] => mok tt | d :: ds' => do_ MkdirAll d; init_loop ds' end.
Definition Init : FE unit := init_loop init_dirs.

(** [filepath.Join]: a name without separators that is not a dot name is a plain
    entry of its directory. *)
Definition path (dir name : string) : path_name := (dir, name).

Definition writeJSON {T} `{Json T} (p : path_name) (v : T) : FE unit :=
  match marshal v with None => merr FJson | Some data => WriteFile p (Doc data) end.

Definition readJSON {T} `{Json T} (p : path_name) (s : Store) : FR T :=
  match ReadFile p s with
  | Err ENOENT => Err (FStorage ErrNotFound)
  | Err e => Err (FOs e)
  | Ok (Doc j) => match unmarshal j with Some v => Ok v | None => Err FJson end
  | Ok (Raw _) => Err FJson
  | Panic => Panic
  end.

Definition exists_ (p : path_name) (s : Store) : bool := is_ok (ReadFile p s).

Definition problematic (c : ascii) : bool :=
  existsb (Ascii.eqb c) ["/"; "\"; ":"; "*"; "?"; ascii_of_N 34; "<"; ">"; "|"]%char.

Fixpoint safeFileName (name : string) : string :=
  match name with
  | EmptyString => EmptyString
  | String c rest => String (if problematic c then "_"%char else c) (safeFileName rest)
  end.

(** [v] when the file does not exist. *)
Definition or_missing_file {A} (v : A) (r : FR A) : FR A :=
  match r with Err (FStorage ErrNotFound) => Ok v | _ => r end.

(** Go maps that may be nil: reading and deleting are allowed, writing panics. *)
Definition gget {V} (m : gomap V) (k : string) : option V := m ≫= λ m', m' !! k.
Definition gset {V} (k : string) (v : V) (m : gomap V) : FR (gomap V) :=
  match m with None => Panic | Some m' => Ok (Some (<[k := v]> m')) end.
Definition gdel {V} (k : string) (m : gomap V) : gomap V := delete k <$> m.
Definition gvisit {V} (it : iteration) (m : gomap V) : list (string * V) :=
  match m with None => [] | Some m' => visit it m' end.

Definition ffound {A} (o : option A) : FR A :=
  match o with Some a => Ok a | None => Err (FStorage ErrNotFound) end.

(** ** UserStore *)

Definition userPath (username : string) : path_name := path "users" (safeFileName username +:+ ".json").

(** The caller's record is stamped in place and written. *)
Definition CreateUser (now : time) (user : User) : FE unit :=
  do s <- mget;
  let p := userPath (Username user) in
  if exists_ p s then merr (FStorage ErrUserExists)
  else
    let user := mkUser (Username user) (Password user) (Salt user) (Iterations user)
                  (ServerKey user) (StoredKey user) now now in
    writeJSON p user.

Definition GetUser (username : string) (s : Store) : FR User := readJSON (userPath username) s.

Definition UpdateUser (now : time) (user : User) : FE unit :=
  do s <- mget;
  let p := userPath (Username user) in
  if negb (exists_ p s) then merr (FStorage ErrNotFound)
  else
    let user := mkUser (Username user) (Password user) (Salt user) (Iterations user)
                  (ServerKey user) (StoredKey user) (u_CreatedAt user) now in
    writeJSON p user.

Definition DeleteUser (username : string) : FE unit :=
  do s <- mget;
  let p := userPath username in
  if negb (exists_ p s) then merr (FStorage ErrNotFound) else Remove p.

Definition UserExists (username : string) (s : Store) : bool := exists_ (userPath username) s.

Definition Authenticate (username password : string) (s : Store) : FR bool :=
  match readJSON (T := User) (userPath username) s with
  | Ok user => if bool_decide (Password user ≠ password) then Err (FStorage ErrAuthFailed) else Ok true
  | Err _ => Err (FStorage ErrAuthFailed)
  | Panic => Panic
  end.

(** ** RosterStore *)

Record rosterFile := mkRosterFile { Items : gomap RosterItem }.

#[export] Program Instance json_rosterFile : Json rosterFile := {
  marshal := λ rf, (λ m, JObj [("items"%string, m)]) <$> marshal (Items rf);
  unmarshal := λ j, l ← members j; m ← field unmarshal None "items"%string l; Some (mkRosterFile m);
  json_ok := λ rf, json_ok (Items rf)
}.
Next Obligation.
  intros [m] Hm. destruct (json_roundtrip m Hm) as (j & Hj & Hj'). cbn [Items]. rewrite Hj.
  eexists. split; [done|]. cbn. unfold field. simpl in *. by rewrite Hj'.
Qed.

Definition rosterPath (userJID : string) : path_name := path "roster" (safeFileName userJID +:+ ".json").

Definition loadRoster (userJID : string) (s : Store) : FR rosterFile :=
  try rf <- or_missing_file (mkRosterFile (Some ∅)) (readJSON (rosterPath userJID) s);
  Ok (match Items rf with None => mkRosterFile (Some ∅) | Some _ => rf end).

Definition UpsertRosterItem (item : RosterItem) : FE unit :=
  do s <- mget;
  do rf <- mlift (loadRoster (r_UserJID item) s);
  do items <- mlift (gset (ContactJID item) item (Items rf));
  writeJSON (rosterPath (r_UserJID item)) (mkRosterFile items).

Definition GetRosterItem (userJID contactJID : string) (s : Store) : FR RosterItem :=
  try rf <- loadRoster userJID s; ffound (gget (Items rf) contactJID).

Definition GetRosterItems (it : iteration) (userJID : string) (s : Store) : FR (list RosterItem) :=
  try rf <- loadRoster userJID s; Ok ((gvisit it (Items rf)).*2).

Definition DeleteRosterItem (userJID contactJID : string) : FE unit :=
  do s <- mget;
  do rf <- mlift (loadRoster userJID s);
  match gget (Items rf) contactJID with
  | None => merr (FStorage ErrNotFound)
  | Some _ => writeJSON (rosterPath userJID) (mkRosterFile (gdel contactJID (Items rf)))
  end.

Definition rosterVersionPath (userJID : string) : path_name :=
  path "roster_versions" (safeFileName userJID +:+ ".json").
Definition GetRosterVersion (userJID : string) (s : Store) : FR string :=
  or_missing_file ""%string (readJSON (rosterVersionPath userJID) s).
Definition SetRosterVersion (userJID version : string) : FE unit :=
  writeJSON (rosterVersionPath userJID) version.

(** ** BlockingStore *)

Definition blockingPath (userJID : string) : path_name := path "blocking" (safeFileName userJID +:+ ".json").
Definition loadBlocked (userJID : string) (s : Store) : FR (gomap bool) :=
  or_missing_file (Some ∅) (readJSON (blockingPath userJID) s).

Definition BlockJID (userJID blockedJID : string) : FE unit :=
  do s <- mget;
  do blocked <- mlift (loadBlocked userJID s);
  do blocked <- mlift (gset blockedJID true blocked);
  writeJSON (blockingPath userJID) blocked.
Definition UnblockJID (userJID blockedJID : string) : FE unit :=
  do s <- mget;
  do blocked <- mlift (loadBlocked userJID s);
  writeJSON (blockingPath userJID) (gdel blockedJID blocked).
Definition IsBlocked (userJID blockedJID : string) (s : Store) : FR bool :=
  try blocked <- loadBlocked userJID s; Ok (default false (gget blocked blockedJID)).
Definition GetBlockedJIDs (it : iteration) (userJID : string) (s : Store) : FR (list string) :=
  try blocked <- loadBlocked userJID s; Ok ((gvisit it blocked).*1).

(** ** VCardStore *)

Definition vcardPath (userJID : string) : path_name := path "vcards" (safeFileName userJID +:+ ".xml").
Definition SetVCard (userJID : string) (data : bytes) : FE unit := WriteFile (vcardPath userJID) (Raw data).
Definition GetVCard (userJID : string) (s : Store) : FR bytes :=
  match ReadFile (vcardPath userJID) s with
  | Err ENOENT => Err (FStorage ErrNotFound)
  | Err e => Err (FOs e)
  | Ok (Raw data) => Ok data
  | Ok (Doc _) => Err FJson
  | Panic => Panic
  end.
Definition DeleteVCard (userJID : string) : FE unit :=
  do s <- mget;
  let p := vcardPath userJID in
  if negb (exists_ p s) then merr (FStorage ErrNotFound) else Remove p.

(** ** OfflineStore *)

Definition offlinePath (userJID : string) : path_name := path "offline" (safeFileName userJID +:+ ".json").
Definition loadOffline (userJID : string) (s : Store) : FR (list OfflineMessage) :=
  or_missing_file [] (readJSON (offlinePath userJID) s).

Definition StoreOfflineMessage (now : time) (msg : OfflineMessage) : FE unit :=
  do s <- mget;
  do msgs <- mlift (loadOffline (o_UserJID msg) s);
  let cp := if IsZero (o_CreatedAt msg)
            then mkOffline (o_ID msg) (o_UserJID msg) (o_FromJID msg) (o_Data msg) now else msg in
  writeJSON (offlinePath (o_UserJID msg)) (msgs ++ [cp]).
Definition GetOfflineMessages (userJID : string) (s : Store) : FR (list OfflineMessage) :=
  loadOffline userJID s.
Definition DeleteOfflineMessages (userJID : string) : FE unit :=
  do s <- mget;
  let p := offlinePath userJID in
  if negb (exists_ p s) then mok tt else Remove p.
Definition CountOfflineMessages (userJID : string) (s : Store) : FR Z :=
  try msgs <- loadOffline userJID s; Ok (Z.of_nat (length msgs)).

(** ** MAMStore *)

Definition mamPath (userJID : string) : path_name := path "mam" (safeFileName userJID +:+ ".json").
Definition loadMAM (userJID : string) (s : Store) : FR (list ArchivedMessage) :=
  or_missing_file [] (readJSON (mamPath userJID) s).

Definition ArchiveMessage (now : time) (msg : ArchivedMessage) : FE unit :=
  do s <- mget;
  do msgs <- mlift (loadMAM (a_UserJID msg) s);
  let cp := if IsZero (a_CreatedAt msg)
            then mkArchived (a_ID msg) (a_UserJID msg) (a_WithJID msg) (a_FromJID msg) (a_Data msg) now
            else msg in
  do cp <- (if bool_decide (a_ID cp = ""%string) then
              do_ mmodify (λ s, mkFiles (tree s) (i64_succ (mamCounter s)));
              do s <- mget;
              mok (mkArchived (pretty (mamCounter s)) (a_UserJID cp) (a_WithJID cp) (a_FromJID cp)
                     (a_Data cp) (a_CreatedAt cp))
            else mok cp);
  writeJSON (mamPath (a_UserJID msg)) (msgs ++ [cp]).

(** The loop over the loaded messages. *)
Fixpoint query_loop (q : MAMQuery) (afterIDFound : bool) (msgs : list ArchivedMessage) : list ArchivedMessage :=
  match msgs with
  | [] => []
  | msg :: rest =>
      if negb afterIDFound then
        query_loop q (bool_decide (a_ID msg = q_AfterID q)) rest
      else if negb (bool_decide (q_BeforeID q = ""%string)) && bool_decide (a_ID msg = q_BeforeID q) then []
      else if negb (bool_decide (q_WithJID q = ""%string)) && negb (bool_decide (a_WithJID msg = q_WithJID q))
        then query_loop q true rest
      else if negb (IsZero (q_Start q)) && (a_CreatedAt msg <? q_Start q)%Z then query_loop q true rest
      else if negb (IsZero (q_End q)) && (q_End q <? a_CreatedAt msg)%Z then query_loop q true rest
      else msg :: query_loop q true rest
  end.

Definition QueryMessages (q : MAMQuery) (s : Store) : FR MAMResult :=
  try msgs <- loadMAM (q_UserJID q) s;
  let filtered := query_loop q (bool_decide (q_AfterID q = ""%string)) msgs in
  let max := if (q_Max q <=? 0)%Z then 100%Z else q_Max q in
  let complete := (Z.of_nat (length filtered) <=? max)%Z in
  let filtered := if (max <? Z.of_nat (length filtered))%Z then take (Z.to_nat max) filtered else filtered in
  Ok (mkMAMResult filtered complete
        (match filtered with m :: _ => a_ID m | [] => ""%string end)
        (match last filtered with Some m => a_ID m | None => ""%string end)
        (Z.of_nat (length filtered))).

Definition DeleteMessageArchive (userJID : string) : FE unit :=
  do s <- mget;
  let p := mamPath userJID in
  if negb (exists_ p s) then mok tt else Remove p.

(** ** MUCRoomStore *)

Definition mucRoomPath (roomJID : string) : path_name := path "muc_rooms" (safeFileName roomJID +:+ ".json").
Definition mucAffPath (roomJID : string) : path_name :=
  path "muc_affiliations" (safeFileName roomJID +:+ ".json").

Definition CreateRoom (room : MUCRoom) : FE unit :=
  do s <- mget;
  let p := mucRoomPath (m_RoomJID room) in
  if exists_ p s then merr (FStorage ErrUserExists) else writeJSON p room.
Definition GetRoom (roomJID : string) (s : Store) : FR MUCRoom := readJSON (mucRoomPath roomJID) s.
Definition UpdateRoom (room : MUCRoom) : FE unit :=
  do s <- mget;
  let p := mucRoomPath (m_RoomJID room) in
  if negb (exists_ p s) then merr (FStorage ErrNotFound) else writeJSON p room.
Definition DeleteRoom (roomJID : string) : FE unit :=
  do s <- mget;
  let p := mucRoomPath roomJID in
  if negb (exists_ p s) then merr (FStorage ErrNotFound)
  else
    do_ ignore (Remove (mucAffPath roomJID));
    Remove p.

(** The documents of a directory that can be read. *)
Definition readable {T} `{Json T} (d : string) (s : Store) (names : list string) : list T :=
  omap (λ n, match readJSON (T := T) (path d n) s with Ok v => Some v | _ => None end) names.

Definition ListRooms (s : Store) : FR (list MUCRoom) :=
  match ReadDir "muc_rooms" s with
  | Ok entries => Ok (readable "muc_rooms" s entries)
  | Err e => Err (FOs e)
  | Panic => Panic
  end.

Definition loadAffs (roomJID : string) (s : Store) : FR (gomap MUCAffiliation) :=
  or_missing_file (Some ∅) (readJSON (mucAffPath roomJID) s).
Definition SetAffiliation (aff : MUCAffiliation) : FE unit :=
  do s <- mget;
  do affs <- mlift (loadAffs (f_RoomJID aff) s);
  do affs <- mlift (gset (f_UserJID aff) aff affs);
  writeJSON (mucAffPath (f_RoomJID aff)) affs.
Definition GetAffiliation (roomJID userJID : string) (s : Store) : FR MUCAffiliation :=
  try affs <- loadAffs roomJID s; ffound (gget affs userJID).
Definition GetAffiliations (it : iteration) (roomJID : string) (s : Store) : FR (list MUCAffiliation) :=
  try affs <- loadAffs roomJID s; Ok ((gvisit it affs).*2).
Definition RemoveAffiliation (roomJID userJID : string) : FE unit :=
  do s <- mget;
  do affs <- mlift (loadAffs roomJID s);
  writeJSON (mucAffPath roomJID) (gdel userJID affs).

(** ** PubSubStore *)

Definition pair_name (host nodeID : string) : string :=
  safeFileName host +:+ "_" +:+ safeFileName nodeID +:+ ".json".
Definition pubsubNodePath (host nodeID : string) : path_name := path "pubsub_nodes" (pair_name host nodeID).
Definition pubsubItemsPath (host nodeID : string) : path_name := path "pubsub_items" (pair_name host nodeID).
Definition pubsubSubsPath (host nodeID : string) : path_name :=
  path "pubsub_subscriptions" (pair_name host nodeID).

Definition CreateNode (node : PubSubNode) : FE unit :=
  do s <- mget;
  let p := pubsubNodePath (n_Host node) (n_NodeID node) in
  if exists_ p s then merr (FStorage ErrUserExists) else writeJSON p node.
Definition GetNode (host nodeID : string) (s : Store) : FR PubSubNode := readJSON (pubsubNodePath host nodeID) s.
Definition DeleteNode (host nodeID : string) : FE unit :=
  do s <- mget;
  let p := pubsubNodePath host nodeID in
  if negb (exists_ p s) then merr (FStorage ErrNotFound)
  else
    do_ ignore (Remove (pubsubItemsPath host nodeID));
    do_ ignore (Remove (pubsubSubsPath host nodeID));
    Remove p.

(** [len(name) > len(prefix) && name[:len(prefix)] == prefix]. *)
Definition of_host (host name : string) : bool :=
  let prefix := safeFileName host +:+ "_" in
  (String.length prefix <? String.length name)%nat && HasPrefix name prefix.

Definition ListNodes (host : string) (s : Store) : FR (list PubSubNode) :=
  match ReadDir "pubsub_nodes" s with
  | Ok entries => Ok (readable "pubsub_nodes" s (filter (λ n, of_host host n = true) entries))
  | Err e => Err (FOs e)
  | Panic => Panic
  end.

Definition loadPubsubItems (host nodeID : string) (s : Store) : FR (gomap PubSubItem) :=
  or_missing_file (Some ∅) (readJSON (pubsubItemsPath host nodeID) s).
Definition UpsertItem (now : time) (item : PubSubItem) : FE unit :=
  do s <- mget;
  do items <- mlift (loadPubsubItems (i_Host item) (i_NodeID item) s);
  let cp := if IsZero (i_CreatedAt item)
            then mkItem (i_Host item) (i_NodeID item) (i_ItemID item) (Publisher item) (i_Payload item) now
            else item in
  do items <- mlift (gset (i_ItemID item) cp items);
  writeJSON (pubsubItemsPath (i_Host item) (i_NodeID item)) items.
Definition GetItem (host nodeID itemID : string) (s : Store) : FR PubSubItem :=
  try items <- loadPubsubItems host nodeID s; ffound (gget items itemID).
Definition GetItems (it : iteration) (host nodeID : string) (s : Store) : FR (list PubSubItem) :=
  try items <- loadPubsubItems host nodeID s; Ok (merge_sort earlier ((gvisit it items).*2)).
Definition DeleteItem (host nodeID itemID : string) : FE unit :=
  do s <- mget;
  do items <- mlift (loadPubsubItems host nodeID s);
  match gget items itemID with
  | None => merr (FStorage ErrNotFound)
  | Some _ => writeJSON (pubsubItemsPath host nodeID) (gdel itemID items)
  end.

Definition loadPubsubSubs (host nodeID : string) (s : Store) : FR (gomap PubSubSubscription) :=
  or_missing_file (Some ∅) (readJSON (pubsubSubsPath host nodeID) s).
Definition Subscribe (sub : PubSubSubscription) : FE unit :=
  do s <- mget;
  do subs <- mlift (loadPubsubSubs (s_Host sub) (s_NodeID sub) s);
  do subs <- mlift (gset (s_JID sub) sub subs);
  writeJSON (pubsubSubsPath (s_Host sub) (s_NodeID sub)) subs.
Definition Unsubscribe (host nodeID jid : string) : FE unit :=
  do s <- mget;
  do subs <- mlift (loadPubsubSubs host nodeID s);
  writeJSON (pubsubSubsPath host nodeID) (gdel jid subs).
Definition GetSubscription (host nodeID jid : string) (s : Store) : FR PubSubSubscription :=
  try subs <- loadPubsubSubs host nodeID s; ffound (gget subs jid).
Definition GetSubscriptions (it : iteration) (host nodeID : string) (s : Store) : FR (list PubSubSubscription) :=
  try subs <- loadPubsubSubs host nodeID s; Ok ((gvisit it subs).*2).
Definition GetUserSubscriptions (host jid : string) (s : Store) : FR (list PubSubSubscription) :=
  match ReadDir "pubsub_subscriptions" s with
  | Ok entries =>
      Ok (omap (λ subs : gomap PubSubSubscription, gget subs jid)
            (readable "pubsub_subscriptions" s (filter (λ n, of_host host n = true) entries)))
  | Err ENOENT => Ok []
  | Err e => Err (FOs e)
  | Panic => Panic
  end.

(** ** BookmarkStore *)

Definition bookmarkPath (userJID : string) : path_name := path "bookmarks" (safeFileName userJID +:+ ".json").
Definition loadBookmarks (userJID : string) (s : Store) : FR (gomap Bookmark) :=
  or_missing_file (Some ∅) (readJSON (bookmarkPath userJID) s).
Definition SetBookmark (bm : Bookmark) : FE unit :=
  do s <- mget;
  do bms <- mlift (loadBookmarks (b_UserJID bm) s);
  do bms <- mlift (gset (b_RoomJID bm) bm bms);
  writeJSON (bookmarkPath (b_UserJID bm)) bms.
Definition GetBookmark (userJID roomJID : string) (s : Store) : FR Bookmark :=
  try bms <- loadBookmarks userJID s; ffound (gget bms roomJID).
Definition GetBookmarks (it : iteration) (userJID : string) (s : Store) : FR (list Bookmark) :=
  try bms <- loadBookmarks userJID s; Ok ((gvisit it bms).*2).
Definition DeleteBookmark (userJID roomJID : string) : FE unit :=
  do s <- mget;
  do bms <- mlift (loadBookmarks userJID s);
  match gget bms roomJID with
  | None => merr (FStorage ErrNotFound)
  | Some _ => writeJSON (bookmarkPath userJID) (gdel roomJID bms)
  end.

(** ** Calls *)

Definition fvalue {A} (f : A → answer) (r : FR A) : answer :=
  match r with Ok a => f a | Err (FStorage e) => AErr e | Err _ => AFailed | Panic => APanic end.
Definition feffect (m : FE unit) (s : Store) : Store * answer :=
  let '(s', r) := m s in (s', fvalue (λ _, AUnit) r).

Definition exec (now : time) (it : iteration) (c : call) (s : Store) : Store * answer :=
  match c with
  | CCreateUser u => feffect (CreateUser now u) s
  | CGetUser n => (s, fvalue AUser (GetUser n s))
  | CUpdateUser u => feffect (UpdateUser now u) s
  | CDeleteUser n => feffect (DeleteUser n) s
  | CUserExists n => (s, ABool (UserExists n s))
  | CAuthenticate n p => (s, fvalue ABool (Authenticate n p s))
  | CUpsertRosterItem i => feffect (UpsertRosterItem i) s
  | CGetRosterItem u c => (s, fvalue ARoster (GetRosterItem u c s))
  | CGetRosterItems u => (s, fvalue ARosters (GetRosterItems it u s))
  | CDeleteRosterItem u c => feffect (DeleteRosterItem u c) s
  | CGetRosterVersion u => (s, fvalue AStr (GetRosterVersion u s))
  | CSetRosterVersion u v => feffect (SetRosterVersion u v) s
  | CBlockJID u j => feffect (BlockJID u j) s
  | CUnblockJID u j => feffect (UnblockJID u j) s
  | CIsBlocked u j => (s, fvalue ABool (IsBlocked u j s))
  | CGetBlockedJIDs u => (s, fvalue AStrs (GetBlockedJIDs it u s))
  | CSetVCard u d => feffect (SetVCard u d) s
  | CGetVCard u => (s, fvalue ABytes (GetVCard u s))
  | CDeleteVCard u => feffect (DeleteVCard u) s
  | CStoreOfflineMessage m => feffect (StoreOfflineMessage now m) s
  | CGetOfflineMessages u => (s, fvalue AOffline (GetOfflineMessages u s))
  | CDeleteOfflineMessages u => feffect (DeleteOfflineMessages u) s
  | CCountOfflineMessages u => (s, fvalue ACount (CountOfflineMessages u s))
  | CArchiveMessage m => feffect (ArchiveMessage now m) s
  | CQueryMessages q => (s, fvalue AMAM (QueryMessages q s))
  | CDeleteMessageArchive u => feffect (DeleteMessageArchive u) s
  | CCreateRoom r => feffect (CreateRoom r) s
  | CGetRoom r => (s, fvalue ARoom (GetRoom r s))
  | CUpdateRoom r => feffect (UpdateRoom r) s
  | CDeleteRoom r => feffect (DeleteRoom r) s
  | CListRooms => (s, fvalue ARooms (ListRooms s))
  | CSetAffiliation a => feffect (SetAffiliation a) s
  | CGetAffiliation r u => (s, fvalue AAff (GetAffiliation r u s))
  | CGetAffiliations r => (s, fvalue AAffs (GetAffiliations it r s))
  | CRemoveAffiliation r u => feffect (RemoveAffiliation r u) s
  | CCreateNode n => feffect (CreateNode n) s
  | CGetNode h n => (s, fvalue ANode (GetNode h n s))
  | CDeleteNode h n => feffect (DeleteNode h n) s
  | CListNodes h => (s, fvalue ANodes (ListNodes h s))
  | CUpsertItem i => feffect (UpsertItem now i) s
  | CGetItem h n i => (s, fvalue AItem (GetItem h n i s))
  | CGetItems h n => (s, fvalue AItems (GetItems it h n s))
  | CDeleteItem h n i => feffect (DeleteItem h n i) s
  | CSubscribe b => feffect (Subscribe b) s
  | CUnsubscribe h n j => feffect (Unsubscribe h n j) s
  | CGetSubscription h n j => (s, fvalue ASub (GetSubscription h n j s))
  | CGetSubscriptions h n => (s, fvalue ASubs (GetSubscriptions it h n s))
  | CGetUserSubscriptions h j => (s, fvalue ASubs (GetUserSubscriptions h j s))
  | CSetBookmark b => feffect (SetBookmark b) s
  | CGetBookmark u r => (s, fvalue ABookmark (GetBookmark u r s))
  | CGetBookmarks u => (s, fvalue ABookmarks (GetBookmarks it u s))
  | CDeleteBookmark u r => feffect (DeleteBookmark u r) s
  end.

(** The answers to a sequence of calls of one process. *)
Fixpoint run (s : Store) (calls : list (time * iteration * call)) : list answer :=
  match calls with
  | [] => []
  | (now, it, c) :: cs => let '(s', r) := exec now it c s in r :: run s' cs
  end.

(** The store after [New] and [Init] on an empty directory; a new process on the
    same directory finds its files, and its counter at zero. *)
Definition fresh : Store := (Init New).1.
Definition restart (s : Store) : Store := (Init (mkFiles (tree s) 0)).1.
