(* ===== verification/FileRefinement.v ===== *)
(** * The file store against the storage contract (src/storage/file/file.go)

    Under a naming discipline, distinct keys having distinct file names, every
    sequence of calls and restarts of the file store is answered as the abstract
    machine of [Storage] allows.  The last part shows that the discipline is
    needed, and what a restart does to archive identifiers. *)

From Stdlib Require Import Ascii String ZArith.
From stdpp Require Import pretty.
From S2P Require Import Prelude GoStrings Bytes Storage MemoryStorage StorageJson FileStorage.

Open Scope list_scope.
Open Scope go_scope.

(** ** What the contents of a file stand for *)

Definition doc_is {T} `{Json T} (c : option content) (o : option T) : Prop :=
  match o with
  | None => c = None
  | Some x => json_ok x ∧ ∃ j, c = Some (Doc j) ∧ unmarshal j = Some x
  end.

Definition map_is {V} `{Json V} (c : option content) (f : string → option V) : Prop :=
  ∃ o : option (gomap V), doc_is c o ∧ ∀ k, (o ≫= λ m, gget m k) = f k.

(** The roster file wraps its map in an object. *)
Definition roster_is (c : option content) (f : string → option RosterItem) : Prop :=
  ∃ o : option rosterFile, doc_is c o ∧ ∀ k, (o ≫= λ rf, gget (Items rf) k) = f k.

Definition list_is {T} `{Json T} (c : option content) (l : list T) : Prop :=
  ∃ o : option (list T), doc_is c o ∧ default [] o = l.

Definition raw_is (c : option content) (o : option bytes) : Prop := c = Raw <$> o.

(** ** Changes of one file *)

Definition upd (s : Store) (p : path_name) (c : option content) (s' : Store) : Prop :=
  (∀ q, lookup_file s' q = if decide (p = q) then c else lookup_file s q) ∧
  (∀ d, is_Some (tree s !! d) → is_Some (tree s' !! d)) ∧ mamCounter s' = mamCounter s.

Lemma upd_set_dir s d n files o (c := o) :
  tree s !! d = Some files →
  upd s (d, n) c (set_dir d (partial_alter (λ _, c) n files) s).
Proof.
  intros Hd. split; [|split; [|done]].
  - intros [d' n']. unfold lookup_file, set_dir. simpl. rewrite lookup_insert.
    destruct (decide (d = d')) as [->|Hne]; simpl.
    + rewrite lookup_partial_alter, Hd. simpl. repeat case_decide; naive_solver.
    + rewrite decide_False by naive_solver. done.
  - intros d'. simpl. rewrite lookup_insert. case_decide; eauto.
Qed.

Lemma WriteFile_upd s p c :
  name_ok p.2 = true → is_Some (tree s !! p.1) → ∃ s', WriteFile p c s = (s', Ok tt) ∧ upd s p (Some c) s'.
Proof.
  destruct p as [d n]. intros Hn [files Hd]. simpl in *. unfold WriteFile. go_unfold. simpl. rewrite Hn, Hd. simpl.
  eexists. split; [done|]. by apply (upd_set_dir s d n files (Some c)).
Qed.

Lemma Remove_upd s p :
  name_ok p.2 = true → is_Some (lookup_file s p) → ∃ s', Remove p s = (s', Ok tt) ∧ upd s p None s'.
Proof.
  destruct p as [d n]. unfold lookup_file, Remove. go_unfold. simpl. intros Hn [c Hc]. rewrite Hn. simpl.
  destruct (tree s !! d) as [files|] eqn:Hd; simpl in *; [|done]. rewrite Hc.
  eexists. split; [done|]. by apply (upd_set_dir s d n files None).
Qed.

Lemma upd_absent s p : lookup_file s p = None → upd s p None s.
Proof.
  intros Hp. split; [|done]. intros q. case_decide; [by subst|done].
Qed.

(** A removal whose error is dropped leaves the file absent either way. *)
Lemma ignore_Remove_upd s p :
  name_ok p.2 = true → ∃ s', ignore (Remove p) s = (s', Ok tt) ∧ upd s p None s'.
Proof.
  intros Hn. unfold ignore. destruct (lookup_file s p) as [c|] eqn:Hc.
  - destruct (Remove_upd s p Hn) as (s' & -> & Hu); [by eauto|]. by exists s'.
  - exists s. split; [|by apply upd_absent]. f_equal. destruct p as [d n]. unfold Remove, lookup_file in *.
    go_unfold. simpl in *. rewrite Hn. simpl. destruct (tree s !! d) as [files|]; [|done]. simpl in Hc. by rewrite Hc.
Qed.

Lemma writeJSON_upd {T} `{Json T} s p (v : T) :
  json_ok v → name_ok p.2 = true → is_Some (tree s !! p.1) →
  ∃ s' c, writeJSON p v s = (s', Ok tt) ∧ upd s p c s' ∧ doc_is c (Some v).
Proof.
  intros Hv Hn Hd. destruct (json_roundtrip v Hv) as (j & Hj & Hj'). unfold writeJSON. rewrite Hj.
  destruct (WriteFile_upd s p (Doc j) Hn Hd) as (s' & Hw & Hu). exists s', (Some (Doc j)).
  split; [done|]. split; [done|]. split; [done|]. by exists j.
Qed.

Lemma readJSON_is {T} `{Json T} s p (o : option T) :
  name_ok p.2 = true → doc_is (lookup_file s p) o →
  readJSON p s = match o with Some v => Ok v | None => Err (FStorage ErrNotFound) end.
Proof.
  intros Hn Hd. unfold readJSON, ReadFile. rewrite Hn. simpl. destruct o as [v|]; simpl in Hd.
  - destruct Hd as (_ & j & -> & Hj). by rewrite Hj.
  - by rewrite Hd.
Qed.

Lemma exists_is {T} `{Json T} s p (o : option T) :
  name_ok p.2 = true → doc_is (lookup_file s p) o → exists_ p s = bool_decide (is_Some o).
Proof.
  intros Hn Hd. unfold exists_, ReadFile. rewrite Hn. simpl. destruct o as [v|]; simpl in Hd.
  - destruct Hd as (_ & j & -> & Hj). done.
  - by rewrite Hd.
Qed.

Lemma doc_is_present {T} `{Json T} c (o : option T) : doc_is c o → is_Some c ↔ is_Some o.
Proof.
  destruct o; simpl; [intros (_ & j & -> & _); split; eauto|intros ->; split; by intros [? ?]].
Qed.

(** One family of files, one per key, seen through a predicate on contents. *)
Lemma family_update {K A} (holds : option content → A → Prop) (pth : K → path_name) (P : K → Prop)
    (F F' : K → A) s s' k0 c :
  (∀ k, P k → pth k0 = pth k → k0 = k) → upd s (pth k0) c s' → holds c (F' k0) →
  (∀ k x, k0 ≠ k → holds x (F k) → holds x (F' k)) →
  (∀ k, P k → holds (lookup_file s (pth k)) (F k)) → ∀ k, P k → holds (lookup_file s' (pth k)) (F' k).
Proof.
  intros Hinj [Hu _] Hc HF Hs k Hk. rewrite Hu. case_decide as Hp.
  - by rewrite <- (Hinj k Hk Hp).
  - apply HF; [|by apply Hs]. by intros ->.
Qed.

(** ** Reading and changing map documents *)

Section MapDoc.
Context {V} `{Json V}.

Definition loaded (f : string → option V) (m : gmap string V) : Prop :=
  map_Forall (λ k v, valid k ∧ json_ok v) m ∧ ∀ k, m !! k = f k.

Lemma map_is_load s p f :
  name_ok p.2 = true → map_is (lookup_file s p) f →
  ∃ m, or_missing_file (Some ∅) (readJSON (T := gomap V) p s) = Ok (Some m) ∧ loaded f m.
Proof.
  intros Hn (o & Ho & Hf). rewrite (readJSON_is s p o Hn Ho). destruct o as [mm|]; simpl in *.
  - destruct Ho as [(m & -> & Hm) _]. exists m. done.
  - exists ∅. split; [done|]. split; [apply map_Forall_empty|]. intros k. by rewrite <- Hf, lookup_empty.
Qed.

Lemma map_is_store c (m : gmap string V) f :
  doc_is c (Some (Some m)) → (∀ k, m !! k = f k) → map_is c f.
Proof. intros Hd Hf. by exists (Some (Some m)). Qed.

Lemma map_is_absent f : (∀ k, f k = None) → map_is None f.
Proof. intros Hf. exists None. split; [done|]. intros k. by rewrite Hf. Qed.

Lemma map_is_ext c f f' : map_is c f → (∀ k, f k = f' k) → map_is c f'.
Proof. intros (o & Ho & Hf) He. exists o. split; [done|]. intros k. by rewrite Hf. Qed.

Lemma loaded_insert_ok f m k v :
  loaded f m → valid k → json_ok v → json_ok (Some (<[k := v]> m) : gomap V).
Proof. intros [Hm _] Hk Hv. exists (<[k:=v]> m). split; [done|]. by apply map_Forall_insert_2. Qed.

Lemma loaded_delete_ok f m k : loaded f m → json_ok (Some (delete k m) : gomap V).
Proof. intros [Hm _]. exists (delete k m). split; [done|]. by apply map_Forall_delete. Qed.

Lemma loaded_lists it f m : iteration_ok it → loaded f m → lists f (visit it m).*2.
Proof. intros Hit [_ Hf]. by apply visit_lists. Qed.
End MapDoc.

Lemma list_is_load {T} `{Json T} s p (l : list T) :
  name_ok p.2 = true → list_is (lookup_file s p) l →
  or_missing_file [] (readJSON p s) = Ok l ∧ Forall json_ok l.
Proof.
  intros Hn (o & Ho & Hl). rewrite (readJSON_is s p o Hn Ho). destruct o as [x|]; simpl in *; subst l; [|done].
  split; [done|]. apply Ho.
Qed.

Lemma roster_is_load u s f :
  name_ok (rosterPath u).2 = true → roster_is (lookup_file s (rosterPath u)) f →
  ∃ m, loadRoster u s = Ok (mkRosterFile (Some m)) ∧ loaded f m.
Proof.
  intros Hn (o & Ho & Hf). unfold loadRoster. rewrite (readJSON_is s _ o Hn Ho). destruct o as [[mm]|]; simpl in *.
  - destruct Ho as [(m & -> & Hm) _]. exists m. done.
  - exists ∅. split; [done|]. split; [apply map_Forall_empty|]. intros k. by rewrite <- Hf, lookup_empty.
Qed.

Lemma visit_keys {V} it (m : gmap string V) k :
  iteration_ok it → NoDup (visit it m).*1 ∧ (k ∈ (visit it m).*1 ↔ is_Some (m !! k)).
Proof.
  intros Hit. split; [eapply iter_order_NoDup_fst, Hit|]. rewrite list_elem_of_fmap. split.
  - intros ([k' v] & -> & Hv). exists v. by apply (iter_order_lookup m _ k' v (Hit V m)).
  - intros [v Hv]. exists (k, v). split; [done|]. by apply (iter_order_lookup m _ k v (Hit V m)).
Qed.

(** *** Families of documents, maps and lists under a change of one file *)

Section Families.
Context {K : Type} `{Countable K}.
Variables (pth : K → path_name) (P : K → Prop) (s s' : Store) (k0 : K) (c : option content).
Hypothesis Hinj : ∀ k, P k → pth k0 = pth k → k0 = k.
Hypothesis Hu : upd s (pth k0) c s'.

Lemma docs_insert {T} `{Json T} (m : gmap K T) v :
  doc_is c (Some v) → (∀ k, P k → doc_is (lookup_file s (pth k)) (m !! k)) →
  ∀ k, P k → doc_is (lookup_file s' (pth k)) (<[k0 := v]> m !! k).
Proof.
  intros Hc Hm. apply (family_update doc_is pth P (λ k, m !! k) (λ k, <[k0 := v]> m !! k) s s' k0 c); auto.
  - by rewrite lookup_insert_eq.
  - intros k x Hne. by rewrite lookup_insert_ne.
Qed.

Lemma docs_delete {T} `{Json T} (m : gmap K T) :
  c = None → (∀ k, P k → doc_is (lookup_file s (pth k)) (m !! k)) →
  ∀ k, P k → doc_is (lookup_file s' (pth k)) (delete k0 m !! k).
Proof.
  intros Hc Hm. apply (family_update doc_is pth P (λ k, m !! k) (λ k, delete k0 m !! k) s s' k0 c); auto.
  - by rewrite lookup_delete_eq.
  - intros k x Hne. by rewrite lookup_delete_ne.
Qed.

Lemma raws_update (m m' : gmap K bytes) :
  raw_is c (m' !! k0) → (∀ k, k0 ≠ k → m' !! k = m !! k) →
  (∀ k, P k → raw_is (lookup_file s (pth k)) (m !! k)) → ∀ k, P k → raw_is (lookup_file s' (pth k)) (m' !! k).
Proof.
  intros Hc Hm. apply (family_update raw_is pth P (λ k, m !! k) (λ k, m' !! k) s s' k0 c); auto.
  intros k x Hne. by rewrite Hm.
Qed.

Lemma maps_update {V} `{Json V} (m m' : gmap (K * string) V) :
  map_is c (λ i, m' !! (k0, i)) → (∀ k i, k0 ≠ k → m' !! (k, i) = m !! (k, i)) →
  (∀ k, P k → map_is (lookup_file s (pth k)) (λ i, m !! (k, i))) →
  ∀ k, P k → map_is (lookup_file s' (pth k)) (λ i, m' !! (k, i)).
Proof.
  intros Hc Hm. apply (family_update map_is pth P (λ k i, m !! (k, i)) (λ k i, m' !! (k, i)) s s' k0 c); auto.
  intros k x Hne Hx. eapply map_is_ext; [exact Hx|]. intros i. by rewrite Hm.
Qed.

Lemma rosters_update (m m' : gmap (K * string) RosterItem) :
  roster_is c (λ i, m' !! (k0, i)) → (∀ k i, k0 ≠ k → m' !! (k, i) = m !! (k, i)) →
  (∀ k, P k → roster_is (lookup_file s (pth k)) (λ i, m !! (k, i))) →
  ∀ k, P k → roster_is (lookup_file s' (pth k)) (λ i, m' !! (k, i)).
Proof.
  intros Hc Hm. apply (family_update roster_is pth P (λ k i, m !! (k, i)) (λ k i, m' !! (k, i)) s s' k0 c); auto.
  intros k x Hne (o & Ho & Hf). exists o. split; [done|]. intros i. by rewrite Hm.
Qed.

Lemma lists_update {T} `{Json T} (m m' : gmap K (list T)) :
  list_is c (default [] (m' !! k0)) → (∀ k, k0 ≠ k → m' !! k = m !! k) →
  (∀ k, P k → list_is (lookup_file s (pth k)) (default [] (m !! k))) →
  ∀ k, P k → list_is (lookup_file s' (pth k)) (default [] (m' !! k)).
Proof.
  intros Hc Hm. apply (family_update list_is pth P (λ k, default [] (m !! k)) (λ k, default [] (m' !! k)) s s' k0 c);
    auto.
  intros k x Hne. by rewrite Hm.
Qed.
End Families.

(** *** Listings of a directory *)

Lemma listing {T} (read : string → option T) (fn : string → string) (f : string → option T) ns :
  NoDup ns → (∀ n v, n ∈ ns → read n = Some v → ∃ k, n = fn k ∧ f k = Some v) →
  (∀ k v, f k = Some v → fn k ∈ ns ∧ read (fn k) = Some v) →
  (∀ k k', is_Some (f k) → is_Some (f k') → fn k = fn k' → k = k') → lists f (omap read ns).
Proof.
  intros Hnd Hread Hf Hinj.
  assert (∃ kl, omap read ns = kl.*2 ∧ (∀ k v, (k, v) ∈ kl → f k = Some v ∧ fn k ∈ ns) ∧
    (∀ k v, f k = Some v → fn k ∈ ns → (k, v) ∈ kl) ∧ NoDup kl.*1) as (kl & He & H1 & H2 & H3).
  { assert (∀ k v, f k = Some v → read (fn k) = Some v) as Hr by (by intros; apply Hf). clear Hf.
    induction Hnd as [|n ns Hn _ IH].
    { exists []. split; [done|]. split; [by intros ? ? ?%elem_of_nil|]. split; [|constructor].
      intros k v _ []%elem_of_nil. }
    destruct IH as (kl & He & H1 & H2 & H3); [by intros; apply Hread; [right|]|].
    cbn. destruct (read n) as [v|] eqn:Er.
    - destruct (Hread n v) as (k & -> & Hk); [by left|done|]. exists ((k, v) :: kl). cbn. rewrite He.
      split; [done|]. split; [|split].
      + intros k' v' [[= -> ->]|[? ?]%H1]%elem_of_cons; split; auto; by constructor.
      + intros k' v' Hv' [Heq|Hin]%elem_of_cons.
        * assert (k' = k) as -> by (apply Hinj; eauto).
          assert (v' = v) as -> by congruence. by left.
        * right. by apply H2.
      + constructor; [|done]. intros ([k' v'] & -> & [_ ?]%H1)%list_elem_of_fmap. by apply Hn.
    - exists kl. split; [done|]. split; [|split; [|done]].
      + intros k v [? ?]%H1. split; [done|by right].
      + intros k v Hv [Heq|Hin]%elem_of_cons; [|by apply H2].
        apply Hr in Hv. congruence. }
  exists kl. split; [done|]. split; [done|]. intros k v. split; [by intros [? _]%H1|].
  intros Hv. apply H2; [done|]. by apply (Hf k v).
Qed.

Lemma omap_omap {A B C} (f : A → option B) (g : B → option C) (l : list A) : omap g (omap f l) = omap (λ x, f x ≫= g) l.
Proof. induction l as [|x l IH]; [done|]. cbn. destruct (f x) as [y|]; cbn; [|done]. destruct (g y); by rewrite IH. Qed.

(** *** Generated identifiers are ASCII *)

Lemma ascii_valid str : (∀ c, has_byte c str = true → (N_of_ascii c < 128)%N) → valid str.
Proof.
  rewrite ValidString_runes. induction str as [|c str IH]; intros Ha; [by eexists|]. cbn [utf8_runes].
  assert (in_range 0 127 c = true) as ->.
  { unfold in_range. apply andb_true_iff. rewrite !N.leb_le.
    assert (N_of_ascii c < 128)%N by (apply Ha; simpl; by rewrite bool_decide_true). lia. }
  apply fmap_is_Some, IH. intros c' Hc'. apply Ha. simpl. by rewrite Hc', orb_true_r.
Qed.

Lemma pretty_N_go_ascii x t :
  (∀ c, has_byte c t = true → (N_of_ascii c < 128)%N) →
  ∀ c, has_byte c (pretty_N_go x t) = true → (N_of_ascii c < 128)%N.
Proof.
  revert t. induction (N.lt_wf_0 x) as [x _ IH]; intros t Ht.
  assert (x = 0 ∨ 0 < x)%N as [->|Hx] by lia; [by rewrite pretty_N_go_0|].
  rewrite pretty_N_go_step by done. apply IH; [by apply N.div_lt|].
  intros c. simpl. rewrite orb_true_iff, bool_decide_eq_true. intros [<-|?]; [|by apply Ht].
  unfold pretty_N_char. repeat case_match; done.
Qed.

Lemma pretty_valid (z : Z) : valid (pretty z).
Proof.
  assert (∀ n : N, ∀ c, has_byte c (pretty n) = true → (N_of_ascii c < 128)%N) as Hn.
  { intros n c. unfold pretty, pretty_N. case_decide; [|by apply pretty_N_go_ascii].
    simpl. rewrite orb_false_r, bool_decide_eq_true. by intros <-. }
  apply ascii_valid. intros c. destruct z as [|p|p].
  - simpl. rewrite orb_false_r, bool_decide_eq_true. by intros <-.
  - apply (Hn (Npos p)).
  - simpl. rewrite orb_true_iff, bool_decide_eq_true. intros [<-|?]; [done|]. by apply (Hn (Npos p)).
Qed.

(** ** File names *)

Lemma str_app_inv_suffix (a b t : string) : a +:+ t = b +:+ t → a = b.
Proof.
  revert b. induction a as [|x a IH]; intros [|y b] He; [done| | |].
  - apply (f_equal String.length) in He. simpl in He. rewrite length_str_app in He. lia.
  - apply (f_equal String.length) in He. simpl in He. rewrite length_str_app in He. lia.
  - injection He as -> He. f_equal. by apply IH.
Qed.

(** The first occurrence of [c] splits a string in one way. *)
Lemma str_split_at c a b x y :
  has_byte c a = false → has_byte c b = false → a +:+ String c x = b +:+ String c y → a = b ∧ x = y.
Proof.
  revert b. induction a as [|u a IH]; intros [|v b] Ha Hb He; simpl in *; simplify_eq.
  - done.
  - by rewrite bool_decide_true in Hb.
  - by rewrite bool_decide_true in Ha.
  - apply orb_false_iff in Ha as [_ Ha], Hb as [_ Hb]. destruct (IH b Ha Hb) as [-> ->]; done.
Qed.

Section Refinement.
Variables owner host node : string → Prop.

(** The discipline on the keys a program uses: users, JIDs and rooms in [owner],
    pubsub services in [host], node identifiers in [node].  Names of files must
    fit the file system and be distinct, and the name of a service must not
    contain an underscore. *)
Record naming : Prop := {
  owner_inj x y : owner x → owner y → safeFileName x = safeFileName y → x = y;
  owner_fits x : owner x → name_ok (safeFileName x +:+ ".json") = true ∧ name_ok (safeFileName x +:+ ".xml") = true;
  host_inj x y : host x → host y → safeFileName x = safeFileName y → x = y;
  host_plain h : host h → has_byte "_" (safeFileName h) = false;
  node_inj x y : node x → node y → safeFileName x = safeFileName y → x = y;
  pair_fits h n : host h → node n → name_ok (pair_name h n) = true
}.

Definition is_pair (p : string * string) : Prop := host p.1 ∧ node p.2.

(** The keys of a call obey the discipline, its texts are UTF-8 and its times
    have a year JSON can carry. *)
Definition call_ok (now : time) (c : call) : Prop :=
  match c with
  | CCreateUser u => owner (Username u) ∧ User_ok (new_user now u)
  | CUpdateUser u => owner (Username u) ∧ User_ok (updated_user now u)
  | CGetUser n | CDeleteUser n | CUserExists n | CAuthenticate n _ => owner n
  | CUpsertRosterItem i => owner (r_UserJID i) ∧ RosterItem_ok i
  | CGetRosterItem u _ | CDeleteRosterItem u _ | CGetRosterItems u | CGetRosterVersion u => owner u
  | CSetRosterVersion u v => owner u ∧ valid v
  | CBlockJID u j => owner u ∧ valid j
  | CUnblockJID u _ | CIsBlocked u _ | CGetBlockedJIDs u => owner u
  | CSetVCard u _ | CGetVCard u | CDeleteVCard u => owner u
  | CStoreOfflineMessage m => owner (o_UserJID m) ∧ Offline_ok (stamped_offline now m)
  | CGetOfflineMessages u | CDeleteOfflineMessages u | CCountOfflineMessages u => owner u
  | CArchiveMessage m =>
      owner (a_UserJID m) ∧ valid (a_ID m) ∧ valid (a_UserJID m) ∧ valid (a_WithJID m) ∧ valid (a_FromJID m) ∧
      year_ok (stamp now (a_CreatedAt m)) = true
  | CQueryMessages q => owner (q_UserJID q)
  | CDeleteMessageArchive u => owner u
  | CCreateRoom r | CUpdateRoom r => owner (m_RoomJID r) ∧ Room_ok r
  | CGetRoom r | CDeleteRoom r => owner r
  | CListRooms => True
  | CSetAffiliation f => owner (f_RoomJID f) ∧ Affiliation_ok f
  | CGetAffiliation r _ | CRemoveAffiliation r _ | CGetAffiliations r => owner r
  | CCreateNode n => is_pair (n_Host n, n_NodeID n) ∧ Node_ok n
  | CGetNode h n | CDeleteNode h n => is_pair (h, n)
  | CListNodes h | CGetUserSubscriptions h _ => host h
  | CUpsertItem i => is_pair (i_Host i, i_NodeID i) ∧ Item_ok (stamped_item now i)
  | CGetItem h n _ | CDeleteItem h n _ | CGetItems h n => is_pair (h, n)
  | CSubscribe b => is_pair (s_Host b, s_NodeID b) ∧ Subscription_ok b
  | CUnsubscribe h n _ | CGetSubscription h n _ | CGetSubscriptions h n => is_pair (h, n)
  | CSetBookmark b => owner (b_UserJID b) ∧ Bookmark_ok b
  | CGetBookmark u _ | CGetBookmarks u | CDeleteBookmark u _ => owner u
  end.

(** The directory tree holds exactly what the abstract state has. *)
Record frefines (s : Store) (a : spec) : Prop := {
  f_dirs d : d ∈ init_dirs → is_Some (tree s !! d);
  f_counter : mamCounter s = sp_counter a;
  f_users u : owner u → doc_is (lookup_file s (userPath u)) (sp_users a !! u);
  f_roster u : owner u → roster_is (lookup_file s (rosterPath u)) (λ c, sp_roster a !! (u, c));
  f_versions u : owner u → doc_is (lookup_file s (rosterVersionPath u)) (sp_versions a !! u);
  f_blocked u : owner u → map_is (lookup_file s (blockingPath u)) (λ j, sp_blocked a !! (u, j));
  f_vcards u : owner u → raw_is (lookup_file s (vcardPath u)) (sp_vcards a !! u);
  f_offline u : owner u → list_is (lookup_file s (offlinePath u)) (default [] (sp_offline a !! u));
  f_mam u : owner u → list_is (lookup_file s (mamPath u)) (default [] (sp_mam a !! u));
  f_rooms r : owner r → doc_is (lookup_file s (mucRoomPath r)) (sp_rooms a !! r);
  f_affs r : owner r → map_is (lookup_file s (mucAffPath r)) (λ u, sp_affs a !! (r, u));
  f_nodes p : is_pair p → doc_is (lookup_file s (pubsubNodePath p.1 p.2)) (sp_nodes a !! p);
  f_items p : is_pair p → map_is (lookup_file s (pubsubItemsPath p.1 p.2)) (λ i, sp_items a !! (p, i));
  f_subs p : is_pair p → map_is (lookup_file s (pubsubSubsPath p.1 p.2)) (λ j, sp_subs a !! (p, j));
  f_bookmarks u : owner u → map_is (lookup_file s (bookmarkPath u)) (λ r, sp_bookmarks a !! (u, r));
  f_room_files n : is_Some (lookup_file s ("muc_rooms"%string, n)) → ∃ k, owner k ∧ n = safeFileName k +:+ ".json";
  f_node_files n : is_Some (lookup_file s ("pubsub_nodes"%string, n)) → ∃ p, is_pair p ∧ n = pair_name p.1 p.2;
  f_sub_files n : is_Some (lookup_file s ("pubsub_subscriptions"%string, n)) → ∃ p, is_pair p ∧ n = pair_name p.1 p.2;
  f_room_keys k : is_Some (sp_rooms a !! k) → owner k;
  f_node_keys p : is_Some (sp_nodes a !! p) → is_pair p;
  f_sub_keys p j : is_Some (sp_subs a !! (p, j)) → is_pair p
}.

Hypothesis N : naming.

Lemma json_inj d x y : owner x → owner y → path d (safeFileName x +:+ ".json") = path d (safeFileName y +:+ ".json") → x = y.
Proof. intros Hx Hy [= He%str_app_inv_suffix]. by apply (owner_inj N). Qed.

Lemma xml_inj d x y : owner x → owner y → path d (safeFileName x +:+ ".xml") = path d (safeFileName y +:+ ".xml") → x = y.
Proof. intros Hx Hy [= He%str_app_inv_suffix]. by apply (owner_inj N). Qed.

Lemma pair_name_inj p q : is_pair p → is_pair q → pair_name p.1 p.2 = pair_name q.1 q.2 → p = q.
Proof.
  destruct p as [h n], q as [h' n']. intros [Hh Hn] [Hh' Hn']. simpl in *. unfold pair_name. intros He.
  apply str_split_at in He as [He1 He2]; [|by apply (host_plain N)..].
  apply str_app_inv_suffix in He2. f_equal; [by apply (host_inj N)|by apply (node_inj N)].
Qed.

Lemma pair_inj d p q : is_pair p → is_pair q → path d (pair_name p.1 p.2) = path d (pair_name q.1 q.2) → p = q.
Proof. intros Hp Hq [= He]. by apply pair_name_inj. Qed.

Lemma fits_json x : owner x → name_ok (safeFileName x +:+ ".json") = true.
Proof. apply N. Qed.
Lemma fits_xml x : owner x → name_ok (safeFileName x +:+ ".xml") = true.
Proof. apply N. Qed.
Lemma fits_pair p : is_pair p → name_ok (pair_name p.1 p.2) = true.
Proof. intros [? ?]. by apply N. Qed.

Ltac spec_simpl :=
  cbn [put_users put_roster put_versions put_blocked put_vcards put_offline put_mam put_counter put_rooms put_affs
       put_nodes put_items put_subs put_bookmarks
       sp_users sp_roster sp_versions sp_blocked sp_vcards sp_offline sp_mam sp_counter sp_rooms sp_affs
       sp_nodes sp_items sp_subs sp_bookmarks fst snd] in *.

(** ** Writing and removing one file *)

Section Changes.
Variables (s : Store) (a : spec).
Hypothesis R : frefines s a.

(** The parts of the relation that a change of one file in another directory, or
    of another part of the abstract state, leaves alone. *)
Ltac frame Hu :=
  destruct R; split; spec_simpl; intros;
  try solve
    [ apply (proj1 (proj2 Hu)); by auto
    | rewrite (proj2 (proj2 Hu)); by auto
    | rewrite (proj1 Hu), decide_False by (intros [=]); by auto
    | match goal with H : is_Some (lookup_file _ _) |- _ => rewrite (proj1 Hu), decide_False in H by (intros [=]) end;
      by auto
    | by eauto ].

Lemma dir_there d : bool_decide (d ∈ init_dirs) = true → is_Some (tree s !! d).
Proof. intros Hd%bool_decide_eq_true. by apply R. Qed.

(** *** Reading *)

Lemma user_exists u : owner u → exists_ (userPath u) s = bool_decide (is_Some (sp_users a !! u)).
Proof. intros Hu. exact (exists_is s (userPath u) _ (fits_json u Hu) (f_users s a R u Hu)). Qed.
Lemma user_read u : owner u → readJSON (userPath u) s = ffound (sp_users a !! u).
Proof. intros Hu. exact (readJSON_is s (userPath u) _ (fits_json u Hu) (f_users s a R u Hu)). Qed.

Lemma version_exists u : owner u → exists_ (rosterVersionPath u) s = bool_decide (is_Some (sp_versions a !! u)).
Proof. intros Hu. exact (exists_is s (rosterVersionPath u) _ (fits_json u Hu) (f_versions s a R u Hu)). Qed.
Lemma version_read u : owner u → readJSON (rosterVersionPath u) s = ffound (sp_versions a !! u).
Proof. intros Hu. exact (readJSON_is s (rosterVersionPath u) _ (fits_json u Hu) (f_versions s a R u Hu)). Qed.

Lemma room_exists u : owner u → exists_ (mucRoomPath u) s = bool_decide (is_Some (sp_rooms a !! u)).
Proof. intros Hu. exact (exists_is s (mucRoomPath u) _ (fits_json u Hu) (f_rooms s a R u Hu)). Qed.
Lemma room_read u : owner u → readJSON (mucRoomPath u) s = ffound (sp_rooms a !! u).
Proof. intros Hu. exact (readJSON_is s (mucRoomPath u) _ (fits_json u Hu) (f_rooms s a R u Hu)). Qed.

Lemma node_exists h n : is_pair (h, n) → exists_ (pubsubNodePath h n) s = bool_decide (is_Some (sp_nodes a !! (h, n))).
Proof. intros Hp. exact (exists_is s (pubsubNodePath h n) _ (fits_pair (h, n) Hp) (f_nodes s a R (h, n) Hp)). Qed.
Lemma node_read h n : is_pair (h, n) → readJSON (pubsubNodePath h n) s = ffound (sp_nodes a !! (h, n)).
Proof. intros Hp. exact (readJSON_is s (pubsubNodePath h n) _ (fits_pair (h, n) Hp) (f_nodes s a R (h, n) Hp)). Qed.

Lemma blocked_load u :
  owner u → ∃ m, loadBlocked u s = Ok (Some m) ∧ loaded (λ i, sp_blocked a !! (u, i)) m.
Proof. intros Hu. exact (map_is_load s (blockingPath u) _ (fits_json u Hu) (f_blocked s a R u Hu)). Qed.

Lemma affs_load u :
  owner u → ∃ m, loadAffs u s = Ok (Some m) ∧ loaded (λ i, sp_affs a !! (u, i)) m.
Proof. intros Hu. exact (map_is_load s (mucAffPath u) _ (fits_json u Hu) (f_affs s a R u Hu)). Qed.

Lemma bookmarks_load u :
  owner u → ∃ m, loadBookmarks u s = Ok (Some m) ∧ loaded (λ i, sp_bookmarks a !! (u, i)) m.
Proof. intros Hu. exact (map_is_load s (bookmarkPath u) _ (fits_json u Hu) (f_bookmarks s a R u Hu)). Qed.

Lemma items_load h n :
  is_pair (h, n) → ∃ m, loadPubsubItems h n s = Ok (Some m) ∧
    loaded (λ i, sp_items a !! (h, n, i)) m.
Proof. intros Hp. exact (map_is_load s (pubsubItemsPath h n) _ (fits_pair (h, n) Hp) (f_items s a R (h, n) Hp)). Qed.

Lemma subs_load h n :
  is_pair (h, n) → ∃ m, loadPubsubSubs h n s = Ok (Some m) ∧
    loaded (λ j, sp_subs a !! (h, n, j)) m.
Proof. intros Hp. exact (map_is_load s (pubsubSubsPath h n) _ (fits_pair (h, n) Hp) (f_subs s a R (h, n) Hp)). Qed.

Lemma roster_load u :
  owner u → ∃ m, loadRoster u s = Ok (mkRosterFile (Some m)) ∧
    loaded (λ c, sp_roster a !! (u, c)) m.
Proof. intros Hu. exact (roster_is_load u s _ (fits_json u Hu) (f_roster s a R u Hu)). Qed.

Lemma offline_load u :
  owner u → loadOffline u s = Ok (default [] (sp_offline a !! u)) ∧ Forall json_ok (default [] (sp_offline a !! u)).
Proof. intros Hu. exact (list_is_load s (offlinePath u) _ (fits_json u Hu) (f_offline s a R u Hu)). Qed.

Lemma mam_load u :
  owner u → loadMAM u s = Ok (default [] (sp_mam a !! u)) ∧ Forall json_ok (default [] (sp_mam a !! u)).
Proof. intros Hu. exact (list_is_load s (mamPath u) _ (fits_json u Hu) (f_mam s a R u Hu)). Qed.

Lemma vcard_read u : owner u → ReadFile (vcardPath u) s = match sp_vcards a !! u with Some d => Ok (Raw d) | None => Err ENOENT end.
Proof.
  intros Hu. unfold ReadFile. cbn [vcardPath path snd]. rewrite (fits_xml u Hu), (f_vcards s a R u Hu). simpl.
  by destruct (sp_vcards a !! u).
Qed.

(** *** Single documents: accounts, versions, rooms, nodes *)

Lemma store_user u v :
  owner u → json_ok v →
  ∃ s', writeJSON (userPath u) v s = (s', Ok tt) ∧ frefines s' (put_users (<[u := v]> (sp_users a)) a).
Proof.
  intros Hu Hv.
  destruct (writeJSON_upd s (userPath u) v Hv (fits_json u Hu)) as (s' & c & Hw & Hup & Hc); [by apply dir_there|].
  exists s'. split; [done|]. frame Hup.
  eapply (docs_insert userPath owner s s' u c); eauto using json_inj.
Qed.

Lemma store_version u v :
  owner u → json_ok v →
  ∃ s', writeJSON (rosterVersionPath u) v s = (s', Ok tt) ∧ frefines s' (put_versions (<[u := v]> (sp_versions a)) a).
Proof.
  intros Hu Hv.
  destruct (writeJSON_upd s (rosterVersionPath u) v Hv (fits_json u Hu)) as (s' & c & Hw & Hup & Hc);
    [by apply dir_there|].
  exists s'. split; [done|]. frame Hup.
  eapply (docs_insert rosterVersionPath owner s s' u c); eauto using json_inj.
Qed.

Lemma store_room u v :
  owner u → json_ok v →
  ∃ s', writeJSON (mucRoomPath u) v s = (s', Ok tt) ∧ frefines s' (put_rooms (<[u := v]> (sp_rooms a)) a).
Proof.
  intros Hu Hv.
  destruct (writeJSON_upd s (mucRoomPath u) v Hv (fits_json u Hu)) as (s' & c & Hw & Hup & Hc); [by apply dir_there|].
  exists s'. split; [done|]. frame Hup.
  - eapply (docs_insert mucRoomPath owner s s' u c); eauto using json_inj.
  - rewrite (proj1 Hup) in *. case_decide as Hp; [|by auto]. injection Hp as <-. by exists u.
  - rewrite lookup_insert in *. case_decide; subst; eauto.
Qed.

Lemma store_node h n v :
  is_pair (h, n) → json_ok v →
  ∃ s', writeJSON (pubsubNodePath h n) v s = (s', Ok tt) ∧ frefines s' (put_nodes (<[(h, n) := v]> (sp_nodes a)) a).
Proof.
  intros Hp Hv.
  destruct (writeJSON_upd s (pubsubNodePath h n) v Hv (fits_pair (h, n) Hp)) as (s' & c & Hw & Hup & Hc);
    [by apply dir_there|].
  exists s'. split; [done|]. frame Hup.
  - eapply (docs_insert (λ q, pubsubNodePath q.1 q.2) is_pair s s' (h, n) c); eauto using pair_inj.
  - rewrite (proj1 Hup) in *. case_decide as He; [|by auto]. injection He as <-. by exists (h, n).
  - rewrite lookup_insert in *. case_decide; subst; eauto.
Qed.
(** *** Maps: block lists, affiliations, bookmarks, items, subscriptions, rosters *)

Lemma store_blocked (u : string) (m : gmap string bool) (m' : gmap (string * string) bool) :
  owner u → json_ok (Some m) → (∀ i, m !! i = m' !! (u, i)) → (∀ k i, u ≠ k → m' !! (k, i) = sp_blocked a !! (k, i)) →
  ∃ s', writeJSON (blockingPath u) (Some m) s = (s', Ok tt) ∧ frefines s' (put_blocked m' a).
Proof.
  intros Hu Hv Hm Hne.
  destruct (writeJSON_upd s (blockingPath u) (Some m) Hv (fits_json u Hu)) as (s' & c & Hw & Hup & Hc);
    [by apply dir_there|].
  exists s'. split; [done|]. frame Hup.
  eapply (maps_update blockingPath owner s s' u c); eauto using json_inj, map_is_store.
Qed.

Lemma store_affs (u : string) (m : gmap string MUCAffiliation) (m' : gmap (string * string) MUCAffiliation) :
  owner u → json_ok (Some m) → (∀ i, m !! i = m' !! (u, i)) → (∀ k i, u ≠ k → m' !! (k, i) = sp_affs a !! (k, i)) →
  ∃ s', writeJSON (mucAffPath u) (Some m) s = (s', Ok tt) ∧ frefines s' (put_affs m' a).
Proof.
  intros Hu Hv Hm Hne.
  destruct (writeJSON_upd s (mucAffPath u) (Some m) Hv (fits_json u Hu)) as (s' & c & Hw & Hup & Hc);
    [by apply dir_there|].
  exists s'. split; [done|]. frame Hup.
  eapply (maps_update mucAffPath owner s s' u c); eauto using json_inj, map_is_store.
Qed.

Lemma store_bookmarks (u : string) (m : gmap string Bookmark) (m' : gmap (string * string) Bookmark) :
  owner u → json_ok (Some m) → (∀ i, m !! i = m' !! (u, i)) → (∀ k i, u ≠ k → m' !! (k, i) = sp_bookmarks a !! (k, i)) →
  ∃ s', writeJSON (bookmarkPath u) (Some m) s = (s', Ok tt) ∧ frefines s' (put_bookmarks m' a).
Proof.
  intros Hu Hv Hm Hne.
  destruct (writeJSON_upd s (bookmarkPath u) (Some m) Hv (fits_json u Hu)) as (s' & c & Hw & Hup & Hc);
    [by apply dir_there|].
  exists s'. split; [done|]. frame Hup.
  eapply (maps_update bookmarkPath owner s s' u c); eauto using json_inj, map_is_store.
Qed.

Lemma store_items (h n : string) (m : gmap string PubSubItem) (m' : gmap (string * string * string) PubSubItem) :
  is_pair (h, n) → json_ok (Some m) → (∀ i, m !! i = m' !! (h, n, i)) → (∀ k i, (h, n) ≠ k → m' !! (k, i) = sp_items a !! (k, i)) →
  ∃ s', writeJSON (pubsubItemsPath h n) (Some m) s = (s', Ok tt) ∧ frefines s' (put_items m' a).
Proof.
  intros Hp Hv Hm Hne.
  destruct (writeJSON_upd s (pubsubItemsPath h n) (Some m) Hv (fits_pair (h, n) Hp)) as (s' & c & Hw & Hup & Hc);
    [by apply dir_there|].
  exists s'. split; [done|]. frame Hup.
  eapply (maps_update (λ q, pubsubItemsPath q.1 q.2) is_pair s s' (h, n) c); eauto using pair_inj, map_is_store.
Qed.

Lemma store_subs (h n : string) (m : gmap string PubSubSubscription) (m' : gmap (string * string * string) PubSubSubscription) :
  is_pair (h, n) → json_ok (Some m) → (∀ i, m !! i = m' !! (h, n, i)) → (∀ k i, (h, n) ≠ k → m' !! (k, i) = sp_subs a !! (k, i)) →
  ∃ s', writeJSON (pubsubSubsPath h n) (Some m) s = (s', Ok tt) ∧ frefines s' (put_subs m' a).
Proof.
  intros Hp Hv Hm Hne.
  destruct (writeJSON_upd s (pubsubSubsPath h n) (Some m) Hv (fits_pair (h, n) Hp)) as (s' & c & Hw & Hup & Hc);
    [by apply dir_there|].
  exists s'. split; [done|]. frame Hup.
  - eapply (maps_update (λ q, pubsubSubsPath q.1 q.2) is_pair s s' (h, n) c); eauto using pair_inj, map_is_store.
  - rewrite (proj1 Hup) in *. case_decide as He; [|by auto]. injection He as <-. by exists (h, n).
  - destruct (decide ((h, n) = p)) as [<-|Hd]; [done|]. rewrite Hne in * by done. eauto.
Qed.

Lemma store_roster (u : string) (m : gmap string RosterItem) (m' : gmap (string * string) RosterItem) :
  owner u → json_ok (Some m) → (∀ i, m !! i = m' !! (u, i)) → (∀ k i, u ≠ k → m' !! (k, i) = sp_roster a !! (k, i)) →
  ∃ s', writeJSON (rosterPath u) (mkRosterFile (Some m)) s = (s', Ok tt) ∧ frefines s' (put_roster m' a).
Proof.
  intros Hu Hv Hm Hne.
  destruct (writeJSON_upd s (rosterPath u) (mkRosterFile (Some m))) as (s' & c & Hw & Hup & Hc);
    [done|by apply fits_json|by apply dir_there|].
  exists s'. split; [done|]. frame Hup.
  eapply (rosters_update rosterPath owner s s' u c); eauto using json_inj. by exists (Some (mkRosterFile (Some m))).
Qed.

(** *** Lists and raw files: offline messages, archives, vCards *)

Lemma store_offline u (l : list OfflineMessage) :
  owner u → json_ok l →
  ∃ s', writeJSON (offlinePath u) l s = (s', Ok tt) ∧ frefines s' (put_offline (<[u := l]> (sp_offline a)) a).
Proof.
  intros Hu Hv.
  destruct (writeJSON_upd s (offlinePath u) l Hv (fits_json u Hu)) as (s' & c & Hw & Hup & Hc); [by apply dir_there|].
  exists s'. split; [done|]. frame Hup.
  eapply (lists_update offlinePath owner s s' u _) with (m := sp_offline a); eauto using json_inj.
  - rewrite lookup_insert_eq. by exists (Some l).
  - intros k Hne. by rewrite lookup_insert_ne.
Qed.

Lemma store_mam u (l : list ArchivedMessage) :
  owner u → json_ok l →
  ∃ s', writeJSON (mamPath u) l s = (s', Ok tt) ∧ frefines s' (put_mam (<[u := l]> (sp_mam a)) a).
Proof.
  intros Hu Hv.
  destruct (writeJSON_upd s (mamPath u) l Hv (fits_json u Hu)) as (s' & c & Hw & Hup & Hc); [by apply dir_there|].
  exists s'. split; [done|]. frame Hup.
  eapply (lists_update mamPath owner s s' u _) with (m := sp_mam a); eauto using json_inj.
  - rewrite lookup_insert_eq. by exists (Some l).
  - intros k Hne. by rewrite lookup_insert_ne.
Qed.

Lemma store_vcard u d :
  owner u →
  ∃ s', WriteFile (vcardPath u) (Raw d) s = (s', Ok tt) ∧ frefines s' (put_vcards (<[u := d]> (sp_vcards a)) a).
Proof.
  intros Hu. destruct (WriteFile_upd s (vcardPath u) (Raw d) (fits_xml u Hu)) as (s' & Hw & Hup); [by apply dir_there|].
  exists s'. split; [done|]. frame Hup.
  eapply (raws_update vcardPath owner s s' u _) with (m := sp_vcards a); eauto using xml_inj.
  - by rewrite lookup_insert_eq.
  - intros k Hne. by rewrite lookup_insert_ne.
Qed.

(** *** Removals *)

Lemma remove_user u :
  owner u → is_Some (sp_users a !! u) →
  ∃ s', Remove (userPath u) s = (s', Ok tt) ∧ frefines s' (put_users (delete u (sp_users a)) a).
Proof.
  intros Hu Hs. destruct (Remove_upd s (userPath u) (fits_json u Hu)) as (s' & Hw & Hup).
  { by apply (doc_is_present _ _ (f_users s a R u Hu)). }
  exists s'. split; [done|]. frame Hup. eapply (docs_delete userPath owner s s' u); eauto using json_inj.
Qed.

Lemma remove_vcard u :
  owner u → is_Some (sp_vcards a !! u) →
  ∃ s', Remove (vcardPath u) s = (s', Ok tt) ∧ frefines s' (put_vcards (delete u (sp_vcards a)) a).
Proof.
  intros Hu [d Hd]. destruct (Remove_upd s (vcardPath u) (fits_xml u Hu)) as (s' & Hw & Hup).
  { rewrite (f_vcards s a R u Hu), Hd. by eauto. }
  exists s'. split; [done|]. frame Hup. eapply (raws_update vcardPath owner s s' u _) with (m := sp_vcards a); eauto using xml_inj.
  - by rewrite lookup_delete_eq.
  - intros k Hne. by rewrite lookup_delete_ne.
Qed.

Lemma remove_list_frame {T} `{Json T} u (m : gmap string (list T)) c :
  c = None → list_is c (default [] (delete u m !! u)).
Proof. intros ->. exists None. split; [done|]. by rewrite lookup_delete_eq. Qed.

Lemma remove_offline u :
  owner u → is_Some (lookup_file s (offlinePath u)) →
  ∃ s', Remove (offlinePath u) s = (s', Ok tt) ∧ frefines s' (put_offline (delete u (sp_offline a)) a).
Proof.
  intros Hu Hs. destruct (Remove_upd s (offlinePath u) (fits_json u Hu) Hs) as (s' & Hw & Hup).
  exists s'. split; [done|]. frame Hup.
  eapply (lists_update offlinePath owner s s' u _) with (m := sp_offline a); eauto using json_inj, remove_list_frame.
  intros k Hne. by rewrite lookup_delete_ne.
Qed.

Lemma remove_mam u :
  owner u → is_Some (lookup_file s (mamPath u)) →
  ∃ s', Remove (mamPath u) s = (s', Ok tt) ∧ frefines s' (put_mam (delete u (sp_mam a)) a).
Proof.
  intros Hu Hs. destruct (Remove_upd s (mamPath u) (fits_json u Hu) Hs) as (s' & Hw & Hup).
  exists s'. split; [done|]. frame Hup.
  eapply (lists_update mamPath owner s s' u _) with (m := sp_mam a); eauto using json_inj, remove_list_frame.
  intros k Hne. by rewrite lookup_delete_ne.
Qed.

Lemma remove_room u :
  owner u → is_Some (sp_rooms a !! u) →
  ∃ s', Remove (mucRoomPath u) s = (s', Ok tt) ∧ frefines s' (put_rooms (delete u (sp_rooms a)) a).
Proof.
  intros Hu Hs. destruct (Remove_upd s (mucRoomPath u) (fits_json u Hu)) as (s' & Hw & Hup).
  { by apply (doc_is_present _ _ (f_rooms s a R u Hu)). }
  exists s'. split; [done|]. frame Hup.
  - eapply (docs_delete mucRoomPath owner s s' u); eauto using json_inj.
  - rewrite (proj1 Hup) in *. case_decide; [by destruct H|by auto].
  - rewrite lookup_delete in *. case_decide; [by destruct H|eauto].
Qed.

Lemma remove_node h n :
  is_pair (h, n) → is_Some (sp_nodes a !! (h, n)) →
  ∃ s', Remove (pubsubNodePath h n) s = (s', Ok tt) ∧ frefines s' (put_nodes (delete (h, n) (sp_nodes a)) a).
Proof.
  intros Hp Hs. destruct (Remove_upd s (pubsubNodePath h n) (fits_pair (h, n) Hp)) as (s' & Hw & Hup).
  { by apply (doc_is_present _ _ (f_nodes s a R (h, n) Hp)). }
  exists s'. split; [done|]. frame Hup.
  - eapply (docs_delete (λ q, pubsubNodePath q.1 q.2) is_pair s s' (h, n)); eauto using pair_inj.
  - rewrite (proj1 Hup) in *. case_decide; [by destruct H|by auto].
  - rewrite lookup_delete in *. case_decide; [by destruct H|eauto].
Qed.

Lemma remove_affs u :
  owner u →
  ∃ s', ignore (Remove (mucAffPath u)) s = (s', Ok tt) ∧
        frefines s' (put_affs (filter (λ kv, kv.1.1 ≠ u) (sp_affs a)) a).
Proof.
  intros Hu. destruct (ignore_Remove_upd s (mucAffPath u) (fits_json u Hu)) as (s' & Hw & Hup).
  exists s'. split; [done|]. frame Hup.
  eapply (maps_update mucAffPath owner s s' u _) with (m := sp_affs a); eauto using json_inj.
  - apply map_is_absent. intros k. by rewrite filter_first_lookup, decide_True.
  - intros k i Hne. by rewrite filter_first_lookup, decide_False.
Qed.

Lemma remove_items h n :
  is_pair (h, n) →
  ∃ s', ignore (Remove (pubsubItemsPath h n)) s = (s', Ok tt) ∧
        frefines s' (put_items (filter (λ kv, kv.1.1 ≠ (h, n)) (sp_items a)) a).
Proof.
  intros Hp. destruct (ignore_Remove_upd s (pubsubItemsPath h n) (fits_pair (h, n) Hp)) as (s' & Hw & Hup).
  exists s'. split; [done|]. frame Hup.
  eapply (maps_update (λ q, pubsubItemsPath q.1 q.2) is_pair s s' (h, n) _) with (m := sp_items a); eauto using pair_inj.
  - apply map_is_absent. intros k. by rewrite filter_first_lookup, decide_True.
  - intros k i Hne. by rewrite filter_first_lookup, decide_False.
Qed.

Lemma remove_subs h n :
  is_pair (h, n) →
  ∃ s', ignore (Remove (pubsubSubsPath h n)) s = (s', Ok tt) ∧
        frefines s' (put_subs (filter (λ kv, kv.1.1 ≠ (h, n)) (sp_subs a)) a).
Proof.
  intros Hp. destruct (ignore_Remove_upd s (pubsubSubsPath h n) (fits_pair (h, n) Hp)) as (s' & Hw & Hup).
  exists s'. split; [done|]. frame Hup.
  - eapply (maps_update (λ q, pubsubSubsPath q.1 q.2) is_pair s s' (h, n) _) with (m := sp_subs a); eauto using pair_inj.
    + apply map_is_absent. intros k. by rewrite filter_first_lookup, decide_True.
    + intros k i Hne. by rewrite filter_first_lookup, decide_False.
  - rewrite (proj1 Hup) in *. case_decide; [by destruct H|by auto].
  - rewrite filter_first_lookup in *. case_decide; [by destruct H|eauto].
Qed.
End Changes.

(** ** One call *)

Section Simulation.
Variables (now : time) (it : iteration) (s : Store) (a : spec).
Hypothesis Hit : iteration_ok it.
Hypothesis R : frefines s a.

Definition fsim (c : call) : Prop :=
  call_ok now c →
  frefines (exec now it c s).1 (spec_call now c a).1 ∧ (spec_call now c a).2 (exec now it c s).2.

(** [open op] exposes the body of an operation at the state [s]. *)
Ltac open op :=
  unfold fsim; cbn [exec spec_call call_ok]; unfold feffect, op, mbnd, mget, mput, mlift, merr, mok, res_bind;
  cbv beta iota zeta.
Ltac open_read op := unfold fsim; cbn [exec spec_call call_ok fst snd]; unfold op.

Lemma file_sim_CreateUser u : fsim (CCreateUser u).
Proof.
  open CreateUser. intros [Ho Hok]. rewrite (user_exists s a R _ Ho).
  destruct (sp_users a !! Username u) as [x|] eqn:E; [by split|].
  rewrite bool_decide_false by (by intros [? ?]).
  destruct (store_user s a R (Username u) (new_user now u) Ho Hok) as (s' & Hw & HR). unfold new_user in Hw. by rewrite Hw.
Qed.

Lemma file_sim_GetUser n : fsim (CGetUser n).
Proof. open_read GetUser. intros Ho. split; [done|]. rewrite (user_read s a R _ Ho). by destruct (sp_users a !! n). Qed.

Lemma file_sim_UpdateUser u : fsim (CUpdateUser u).
Proof.
  open UpdateUser. intros [Ho Hok]. rewrite (user_exists s a R _ Ho).
  destruct (sp_users a !! Username u) as [x|] eqn:E; simpl; [|by split].
  destruct (store_user s a R (Username u) (updated_user now u) Ho Hok) as (s' & Hw & HR). unfold updated_user in Hw. by rewrite Hw.
Qed.

Lemma file_sim_DeleteUser n : fsim (CDeleteUser n).
Proof.
  open DeleteUser. intros Ho. rewrite (user_exists s a R _ Ho).
  destruct (sp_users a !! n) as [x|] eqn:E; simpl; [|by split].
  by destruct (remove_user s a R n Ho) as (s' & -> & HR); [rewrite E|].
Qed.

Lemma file_sim_UserExists n : fsim (CUserExists n).
Proof. open_read UserExists. intros Ho. split; [done|]. by rewrite (user_exists s a R _ Ho). Qed.

Lemma file_sim_Authenticate n p : fsim (CAuthenticate n p).
Proof.
  open_read Authenticate. intros Ho. split; [done|]. rewrite (user_read s a R _ Ho).
  destruct (sp_users a !! n) as [x|]; simpl; [|done].
  repeat case_bool_decide; simplify_eq; done.
Qed.

(** Inserting into and deleting from a map document follows the flat map. *)
Lemma inner_insert {K V} `{Countable K} `{Json V} (m : gmap string V) (f : gmap (K * string) V) (k : K) (i : string) (v : V) :
  loaded (λ i, f !! (k, i)) m → (∀ j, <[i := v]> m !! j = <[(k, i) := v]> f !! (k, j)) ∧
  (∀ k' j, k ≠ k' → <[(k, i) := v]> f !! (k', j) = f !! (k', j)).
Proof.
  intros [_ Hf]. split.
  - intros j. rewrite !lookup_insert, Hf. repeat case_decide; naive_solver.
  - intros k' j Hne. rewrite lookup_insert_ne by congruence. done.
Qed.

Lemma inner_delete {K V} `{Countable K} `{Json V} (m : gmap string V) (f : gmap (K * string) V) (k : K) (i : string) :
  loaded (λ i, f !! (k, i)) m → (∀ j, delete i m !! j = delete (k, i) f !! (k, j)) ∧
  (∀ k' j, k ≠ k' → delete (k, i) f !! (k', j) = f !! (k', j)).
Proof.
  intros [_ Hf]. split.
  - intros j. rewrite !lookup_delete, Hf. repeat case_decide; naive_solver.
  - intros k' j Hne. rewrite lookup_delete_ne by congruence. done.
Qed.

Lemma file_sim_UpsertRosterItem i : fsim (CUpsertRosterItem i).
Proof.
  open UpsertRosterItem. intros [Ho Hok]. destruct (roster_load s a R _ Ho) as (m & -> & Hm). cbn [Items gset].
  destruct (inner_insert _ _ _ (ContactJID i) i Hm) as [H1 H2].
  by destruct (store_roster s a R _ _ _ Ho (loaded_insert_ok _ _ _ _ Hm (proj1 (proj2 Hok)) Hok) H1 H2) as (s' & -> & HR).
Qed.

Lemma file_sim_GetRosterItem u c : fsim (CGetRosterItem u c).
Proof.
  open_read GetRosterItem. intros Ho. split; [done|]. destruct (roster_load s a R _ Ho) as (m & -> & _ & Hm).
  cbn. rewrite Hm. by destruct (sp_roster a !! (u, c)).
Qed.

Lemma file_sim_GetRosterItems u : fsim (CGetRosterItems u).
Proof.
  open_read GetRosterItems. intros Ho. split; [done|]. destruct (roster_load s a R _ Ho) as (m & -> & Hm).
  eexists. split; [done|]. eapply loaded_lists; done.
Qed.

Lemma file_sim_DeleteRosterItem u c : fsim (CDeleteRosterItem u c).
Proof.
  open DeleteRosterItem. intros Ho. destruct (roster_load s a R _ Ho) as (m & -> & Hm). cbn.
  rewrite (proj2 Hm). destruct (sp_roster a !! (u, c)) as [x|] eqn:E; cbn; [|by split].
  destruct (inner_delete _ _ _ c Hm) as [H1 H2].
  by destruct (store_roster s a R _ _ _ Ho (loaded_delete_ok _ _ _ Hm) H1 H2) as (s' & -> & HR).
Qed.

Lemma file_sim_GetRosterVersion u : fsim (CGetRosterVersion u).
Proof.
  open_read GetRosterVersion. intros Ho. split; [done|]. rewrite (version_read s a R _ Ho).
  by destruct (sp_versions a !! u).
Qed.

Lemma file_sim_SetRosterVersion u v : fsim (CSetRosterVersion u v).
Proof.
  open SetRosterVersion. intros [Ho Hv]. by destruct (store_version s a R u v Ho Hv) as (s' & -> & HR).
Qed.
Lemma file_sim_BlockJID u j : fsim (CBlockJID u j).
Proof.
  open BlockJID. intros [Ho Hj]. destruct (blocked_load s a R _ Ho) as (m & -> & Hm). cbn [gset].
  destruct (inner_insert _ _ _ j true Hm) as [H1 H2].
  by destruct (store_blocked s a R _ _ _ Ho (loaded_insert_ok _ _ _ true Hm Hj I) H1 H2) as (s' & -> & HR).
Qed.

Lemma file_sim_UnblockJID u j : fsim (CUnblockJID u j).
Proof.
  open UnblockJID. intros Ho. destruct (blocked_load s a R _ Ho) as (m & -> & Hm). cbn [gdel fmap option_fmap option_map].
  destruct (inner_delete _ _ _ j Hm) as [H1 H2].
  by destruct (store_blocked s a R _ _ _ Ho (loaded_delete_ok _ _ _ Hm) H1 H2) as (s' & -> & HR).
Qed.

Lemma file_sim_IsBlocked u j : fsim (CIsBlocked u j).
Proof.
  open_read IsBlocked. intros Ho. split; [done|]. destruct (blocked_load s a R _ Ho) as (m & -> & _ & Hm).
  cbn. by rewrite Hm.
Qed.

Lemma file_sim_GetBlockedJIDs u : fsim (CGetBlockedJIDs u).
Proof.
  open_read GetBlockedJIDs. intros Ho. split; [done|]. destruct (blocked_load s a R _ Ho) as (m & -> & _ & Hm).
  eexists. split; [done|]. cbn. split; [by apply visit_keys|]. intros j. by rewrite <- Hm; apply visit_keys.
Qed.

Lemma file_sim_SetVCard u d : fsim (CSetVCard u d).
Proof. open SetVCard. intros Ho. by destruct (store_vcard s a R u d Ho) as (s' & -> & HR). Qed.

Lemma file_sim_GetVCard u : fsim (CGetVCard u).
Proof. open_read GetVCard. intros Ho. split; [done|]. rewrite (vcard_read s a R _ Ho). by destruct (sp_vcards a !! u). Qed.

Lemma file_sim_DeleteVCard u : fsim (CDeleteVCard u).
Proof.
  open DeleteVCard. intros Ho. unfold exists_. rewrite (vcard_read s a R _ Ho).
  destruct (sp_vcards a !! u) as [x|] eqn:E; simpl; [|by split].
  by destruct (remove_vcard s a R u Ho) as (s' & -> & HR); [rewrite E|].
Qed.

Lemma file_sim_StoreOfflineMessage m : fsim (CStoreOfflineMessage m).
Proof.
  open StoreOfflineMessage. intros [Ho Hok]. destruct (offline_load s a R _ Ho) as [-> Hl].
  assert ((if IsZero (o_CreatedAt m) then mkOffline (o_ID m) (o_UserJID m) (o_FromJID m) (o_Data m) now else m)
          = stamped_offline now m) as ->.
  { unfold stamped_offline, stamp. destruct m as [? ? ? ? t]; simpl. by destruct (IsZero t). }
  destruct (store_offline s a R _ (default [] (sp_offline a !! o_UserJID m) ++ [stamped_offline now m]) Ho)
    as (s' & -> & HR); [|by split].
  apply Forall_app. split; [done|]. by constructor.
Qed.

Lemma file_sim_GetOfflineMessages u : fsim (CGetOfflineMessages u).
Proof. open_read GetOfflineMessages. intros Ho. split; [done|]. by destruct (offline_load s a R _ Ho) as [-> _]. Qed.

Lemma file_sim_CountOfflineMessages u : fsim (CCountOfflineMessages u).
Proof. open_read CountOfflineMessages. intros Ho. split; [done|]. by destruct (offline_load s a R _ Ho) as [-> _]. Qed.

Lemma exists_lookup p : name_ok p.2 = true → exists_ p s = bool_decide (is_Some (lookup_file s p)).
Proof. intros Hn. unfold exists_, ReadFile. rewrite Hn. simpl. by destruct (lookup_file s p). Qed.

(** Deleting a list whose file is not there changes nothing. *)
Lemma file_sim_DeleteOfflineMessages u : fsim (CDeleteOfflineMessages u).
Proof.
  open DeleteOfflineMessages. intros Ho. rewrite (exists_lookup (offlinePath u) (fits_json u Ho)).
  case_bool_decide as Hs; simpl.
  - by destruct (remove_offline s a R u Ho Hs) as (s' & -> & HR).
  - split; [|done]. assert (lookup_file s (offlinePath u) = None) as Hn by (by apply eq_None_not_Some).
    pose proof (upd_absent s _ Hn) as Hup. destruct R; split; spec_simpl; auto.
    eapply (lists_update offlinePath owner s s u _) with (m := sp_offline a);
      eauto using json_inj, remove_list_frame. intros k Hne. by rewrite lookup_delete_ne.
Qed.

Lemma file_sim_DeleteMessageArchive u : fsim (CDeleteMessageArchive u).
Proof.
  open DeleteMessageArchive. intros Ho. rewrite (exists_lookup (mamPath u) (fits_json u Ho)).
  case_bool_decide as Hs; simpl.
  - by destruct (remove_mam s a R u Ho Hs) as (s' & -> & HR).
  - split; [|done]. assert (lookup_file s (mamPath u) = None) as Hn by (by apply eq_None_not_Some).
    pose proof (upd_absent s _ Hn) as Hup. destruct R; split; spec_simpl; auto.
    eapply (lists_update mamPath owner s s u _) with (m := sp_mam a);
      eauto using json_inj, remove_list_frame. intros k Hne. by rewrite lookup_delete_ne.
Qed.

Lemma query_loop_same q b l : query_loop q b l = MemoryStorage.query_loop q b l.
Proof. revert b. induction l as [|m l IH]; intros b; [done|]. cbn. by rewrite !IH. Qed.

Lemma file_sim_QueryMessages q : fsim (CQueryMessages q).
Proof.
  open_read QueryMessages. intros Ho. split; [done|]. destruct (mam_load s a R _ Ho) as [-> _]. cbn [res_bind fvalue].
  rewrite query_loop_same. set (l := default [] _).
  pose proof (QueryMessages_spec q (mkStore ∅ ∅ ∅ ∅ ∅ ∅ {[q_UserJID q := l]} 0 ∅ ∅ ∅ ∅ ∅ ∅)) as Hq.
  unfold MemoryStorage.QueryMessages in Hq. cbn [mamMessages] in Hq. rewrite lookup_singleton_eq in Hq.
  cbn [default from_option id] in Hq. unfold answers. f_equal. exact Hq.
Qed.

Lemma file_sim_CreateRoom r : fsim (CCreateRoom r).
Proof.
  open CreateRoom. intros [Ho Hok]. rewrite (room_exists s a R _ Ho).
  destruct (sp_rooms a !! m_RoomJID r) as [x|] eqn:E; [by split|].
  rewrite bool_decide_false by (by intros [? ?]). by destruct (store_room s a R _ r Ho Hok) as (s' & -> & HR).
Qed.

Lemma file_sim_GetRoom r : fsim (CGetRoom r).
Proof. open_read GetRoom. intros Ho. split; [done|]. rewrite (room_read s a R _ Ho). by destruct (sp_rooms a !! r). Qed.

Lemma file_sim_UpdateRoom r : fsim (CUpdateRoom r).
Proof.
  open UpdateRoom. intros [Ho Hok]. rewrite (room_exists s a R _ Ho).
  destruct (sp_rooms a !! m_RoomJID r) as [x|] eqn:E; simpl; [|by split].
  by destruct (store_room s a R _ r Ho Hok) as (s' & -> & HR).
Qed.

Lemma file_sim_DeleteRoom r : fsim (CDeleteRoom r).
Proof.
  open DeleteRoom. intros Ho. rewrite (room_exists s a R _ Ho).
  destruct (sp_rooms a !! r) as [x|] eqn:E; [|by split]. rewrite bool_decide_true by done. cbn [negb on_entry].
  destruct (remove_affs s a R r Ho) as (s1 & -> & R1).
  by destruct (remove_room s1 _ R1 r Ho) as (s2 & -> & R2); [cbn; rewrite E|].
Qed.

Lemma file_sim_SetAffiliation f : fsim (CSetAffiliation f).
Proof.
  open SetAffiliation. intros [Ho Hok]. destruct (affs_load s a R _ Ho) as (m & -> & Hm). cbn [gset].
  destruct (inner_insert _ _ _ (f_UserJID f) f Hm) as [H1 H2].
  by destruct (store_affs s a R _ _ _ Ho (loaded_insert_ok _ _ _ _ Hm (proj1 (proj2 Hok)) Hok) H1 H2) as (s' & -> & HR).
Qed.

Lemma file_sim_GetAffiliation r u : fsim (CGetAffiliation r u).
Proof.
  open_read GetAffiliation. intros Ho. split; [done|]. destruct (affs_load s a R _ Ho) as (m & -> & _ & Hm).
  cbn. rewrite Hm. by destruct (sp_affs a !! (r, u)).
Qed.

Lemma file_sim_GetAffiliations r : fsim (CGetAffiliations r).
Proof.
  open_read GetAffiliations. intros Ho. split; [done|]. destruct (affs_load s a R _ Ho) as (m & -> & Hm).
  eexists. split; [done|]. eapply loaded_lists; done.
Qed.

Lemma file_sim_RemoveAffiliation r u : fsim (CRemoveAffiliation r u).
Proof.
  open RemoveAffiliation. intros Ho. destruct (affs_load s a R _ Ho) as (m & -> & Hm).
  cbn [gdel fmap option_fmap option_map]. destruct (inner_delete _ _ _ u Hm) as [H1 H2].
  by destruct (store_affs s a R _ _ _ Ho (loaded_delete_ok _ _ _ Hm) H1 H2) as (s' & -> & HR).
Qed.

Lemma file_sim_CreateNode n : fsim (CCreateNode n).
Proof.
  open CreateNode. intros [Ho Hok]. rewrite (node_exists s a R _ _ Ho).
  destruct (sp_nodes a !! (n_Host n, n_NodeID n)) as [x|] eqn:E; [by split|].
  rewrite bool_decide_false by (by intros [? ?]). by destruct (store_node s a R _ _ n Ho Hok) as (s' & -> & HR).
Qed.

Lemma file_sim_GetNode h n : fsim (CGetNode h n).
Proof.
  open_read GetNode. intros Ho. split; [done|]. rewrite (node_read s a R _ _ Ho). by destruct (sp_nodes a !! (h, n)).
Qed.

Lemma file_sim_DeleteNode h n : fsim (CDeleteNode h n).
Proof.
  open DeleteNode. intros Ho. rewrite (node_exists s a R _ _ Ho).
  destruct (sp_nodes a !! (h, n)) as [x|] eqn:E; [|by split]. rewrite bool_decide_true by done. cbn [negb on_entry].
  destruct (remove_items s a R h n Ho) as (s1 & -> & R1). destruct (remove_subs s1 _ R1 h n Ho) as (s2 & -> & R2).
  by destruct (remove_node s2 _ R2 h n Ho) as (s3 & -> & R3); [cbn; rewrite E|].
Qed.

Lemma file_sim_UpsertItem i : fsim (CUpsertItem i).
Proof.
  open UpsertItem. intros [Ho Hok]. destruct (items_load s a R _ _ Ho) as (m & -> & Hm). cbn [gset].
  assert ((if IsZero (i_CreatedAt i)
           then mkItem (i_Host i) (i_NodeID i) (i_ItemID i) (Publisher i) (i_Payload i) now else i)
          = stamped_item now i) as ->.
  { unfold stamped_item, stamp. destruct i as [? ? ? ? ? t]; simpl. by destruct (IsZero t). }
  destruct (inner_insert _ _ _ (i_ItemID i) (stamped_item now i) Hm) as [H1 H2].
  by destruct (store_items s a R _ _ _ _ Ho (loaded_insert_ok _ _ (i_ItemID i) (stamped_item now i) Hm (proj1 (proj2 (proj2 Hok))) Hok) H1 H2)
    as (s' & -> & HR).
Qed.

Lemma file_sim_GetItem h n i : fsim (CGetItem h n i).
Proof.
  open_read GetItem. intros Ho. split; [done|]. destruct (items_load s a R _ _ Ho) as (m & -> & _ & Hm).
  cbn. rewrite Hm. by destruct (sp_items a !! (h, n, i)).
Qed.

Lemma file_sim_GetItems h n : fsim (CGetItems h n).
Proof.
  open_read GetItems. intros Ho. split; [done|]. destruct (items_load s a R _ _ Ho) as (m & -> & Hm).
  eexists. split; [done|]. split; [apply Sorted_merge_sort, _|].
  eapply lists_permutation; [by eapply loaded_lists|]. symmetry. apply merge_sort_Permutation.
Qed.

Lemma file_sim_DeleteItem h n i : fsim (CDeleteItem h n i).
Proof.
  open DeleteItem. intros Ho. destruct (items_load s a R _ _ Ho) as (m & -> & Hm). cbn.
  rewrite (proj2 Hm). destruct (sp_items a !! (h, n, i)) as [x|] eqn:E; cbn; [|by split].
  destruct (inner_delete _ _ _ i Hm) as [H1 H2].
  by destruct (store_items s a R _ _ _ _ Ho (loaded_delete_ok _ _ _ Hm) H1 H2) as (s' & -> & HR).
Qed.

Lemma file_sim_Subscribe b : fsim (CSubscribe b).
Proof.
  open Subscribe. intros [Ho Hok]. destruct (subs_load s a R _ _ Ho) as (m & -> & Hm). cbn [gset].
  destruct (inner_insert _ _ _ (s_JID b) b Hm) as [H1 H2].
  by destruct (store_subs s a R _ _ _ _ Ho (loaded_insert_ok _ _ _ _ Hm (proj1 (proj2 (proj2 Hok))) Hok) H1 H2)
    as (s' & -> & HR).
Qed.

Lemma file_sim_Unsubscribe h n j : fsim (CUnsubscribe h n j).
Proof.
  open Unsubscribe. intros Ho. destruct (subs_load s a R _ _ Ho) as (m & -> & Hm).
  cbn [gdel fmap option_fmap option_map]. destruct (inner_delete _ _ _ j Hm) as [H1 H2].
  by destruct (store_subs s a R _ _ _ _ Ho (loaded_delete_ok _ _ _ Hm) H1 H2) as (s' & -> & HR).
Qed.

Lemma file_sim_GetSubscription h n j : fsim (CGetSubscription h n j).
Proof.
  open_read GetSubscription. intros Ho. split; [done|]. destruct (subs_load s a R _ _ Ho) as (m & -> & _ & Hm).
  cbn. rewrite Hm. by destruct (sp_subs a !! (h, n, j)).
Qed.

Lemma file_sim_GetSubscriptions h n : fsim (CGetSubscriptions h n).
Proof.
  open_read GetSubscriptions. intros Ho. split; [done|]. destruct (subs_load s a R _ _ Ho) as (m & -> & Hm).
  eexists. split; [done|]. eapply loaded_lists; done.
Qed.

Lemma file_sim_SetBookmark b : fsim (CSetBookmark b).
Proof.
  open SetBookmark. intros [Ho Hok]. destruct (bookmarks_load s a R _ Ho) as (m & -> & Hm). cbn [gset].
  destruct (inner_insert _ _ _ (b_RoomJID b) b Hm) as [H1 H2].
  by destruct (store_bookmarks s a R _ _ _ Ho (loaded_insert_ok _ _ _ _ Hm (proj1 (proj2 Hok)) Hok) H1 H2)
    as (s' & -> & HR).
Qed.

Lemma file_sim_GetBookmark u r : fsim (CGetBookmark u r).
Proof.
  open_read GetBookmark. intros Ho. split; [done|]. destruct (bookmarks_load s a R _ Ho) as (m & -> & _ & Hm).
  cbn. rewrite Hm. by destruct (sp_bookmarks a !! (u, r)).
Qed.

Lemma file_sim_GetBookmarks u : fsim (CGetBookmarks u).
Proof.
  open_read GetBookmarks. intros Ho. split; [done|]. destruct (bookmarks_load s a R _ Ho) as (m & -> & Hm).
  eexists. split; [done|]. eapply loaded_lists; done.
Qed.

Lemma file_sim_DeleteBookmark u r : fsim (CDeleteBookmark u r).
Proof.
  open DeleteBookmark. intros Ho. destruct (bookmarks_load s a R _ Ho) as (m & -> & Hm). cbn.
  rewrite (proj2 Hm). destruct (sp_bookmarks a !! (u, r)) as [x|] eqn:E; cbn; [|by split].
  destruct (inner_delete _ _ _ r Hm) as [H1 H2].
  by destruct (store_bookmarks s a R _ _ _ Ho (loaded_delete_ok _ _ _ Hm) H1 H2) as (s' & -> & HR).
Qed.

(** *** Archiving *)

Lemma counter_frefines n : frefines (mkFiles (tree s) n) (put_counter n a).
Proof. destruct R. split; spec_simpl; auto. Qed.

Lemma file_sim_ArchiveMessage m : fsim (CArchiveMessage m).
Proof.
  open ArchiveMessage. intros (Ho & Hi & Hu & Hw & Hf & Ht). destruct (mam_load s a R _ Ho) as [-> Hl].
  set (cp := if IsZero (a_CreatedAt m) then _ else m).
  assert (cp = mkArchived (a_ID m) (a_UserJID m) (a_WithJID m) (a_FromJID m) (a_Data m) (stamp now (a_CreatedAt m))) as ->.
  { unfold cp, stamp. destruct m as [? ? ? ? ? t]; simpl. by destruct (IsZero t). }
  unfold archived. cbn [a_ID a_UserJID a_WithJID a_FromJID a_Data a_CreatedAt].
  case_bool_decide as He; unfold mmodify; cbv beta iota; cbn [mamCounter tree].
  - set (c := i64_succ (mamCounter s)). pose proof (counter_frefines c) as R1.
    assert (i64_succ (sp_counter a) = c) as -> by (unfold c; by rewrite (f_counter s a R)).
    edestruct (store_mam _ _ R1 (a_UserJID m)) as (s' & -> & HR); [done| |by split].
    apply Forall_app. split; [done|]. repeat constructor; simpl; auto using pretty_valid.
  - edestruct (store_mam s a R (a_UserJID m)) as (s' & -> & HR); [done| |split; [|done]].
    + apply Forall_app. split; [done|]. by repeat constructor.
    + exact HR.
Qed.

(** *** Directory listings *)

Lemma ReadDir_spec d :
  is_Some (tree s !! d) →
  ∃ ns, ReadDir d s = Ok ns ∧ NoDup ns ∧ ∀ n, n ∈ ns ↔ is_Some (lookup_file s (d, n)).
Proof.
  intros [files Hd]. unfold ReadDir, lookup_file. simpl. rewrite Hd. eexists. split; [done|].
  assert (merge_sort name_le (map_to_list files).*1 ≡ₚ (map_to_list files).*1) as Hp by apply merge_sort_Permutation.
  split; [rewrite Hp; apply NoDup_fst_map_to_list|]. intros n. rewrite Hp, list_elem_of_fmap. simpl. split.
  - intros ([k v] & -> & Hv%elem_of_map_to_list). eauto.
  - intros [v Hv]. exists (n, v). split; [done|]. by apply elem_of_map_to_list.
Qed.

Lemma file_sim_ListRooms : fsim CListRooms.
Proof.
  open_read ListRooms. intros _. split; [done|].
  destruct (ReadDir_spec "muc_rooms") as (ns & -> & Hnd & Hns); [by eapply dir_there|].
  eexists. split; [done|]. unfold readable. apply (listing _ (λ k, safeFileName k +:+ ".json")); [done|..].
  - intros n v Hn. destruct (f_room_files s a R n) as (k & Hk & ->); [by apply Hns|].
    fold (mucRoomPath k). rewrite (room_read s a R k Hk). destruct (sp_rooms a !! k) eqn:E; simpl; [|done].
    intros [= ->]. eauto.
  - intros k v Hv. assert (owner k) as Hk by (apply (f_room_keys s a R); eauto).
    fold (mucRoomPath k). rewrite (room_read s a R k Hk), Hv. split; [|done]. apply Hns.
    apply (doc_is_present _ _ (f_rooms s a R k Hk)). eauto.
  - intros k k' [v Hv] [v' Hv'] He. eapply (json_inj "muc_rooms"); [eapply (f_room_keys s a R); eauto..|]. by rewrite He.
Qed.

Lemma of_host_pair h p : host h → is_pair p → of_host h (pair_name p.1 p.2) = true ↔ h = p.1.
Proof.
  destruct p as [h' n]. intros Hh [Hh' Hn]. simpl in *. unfold of_host, HasPrefix, pair_name.
  rewrite andb_true_iff, prefix_spec, Nat.ltb_lt. split.
  - intros [_ (t & Ht)]. rewrite str_app_assoc in Ht. simpl in Ht. apply str_split_at in Ht as [He _];
      [|by apply (host_plain N)..]. by apply (host_inj N).
  - intros ->. split; [rewrite !length_str_app; simpl; lia|].
    exists (safeFileName n +:+ ".json"). by rewrite str_app_assoc.
Qed.

Lemma file_sim_ListNodes h : fsim (CListNodes h).
Proof.
  open_read ListNodes. intros Hh. split; [done|].
  destruct (ReadDir_spec "pubsub_nodes") as (ns & -> & Hnd & Hns); [by eapply dir_there|].
  eexists. split; [done|]. unfold readable. apply (listing _ (pair_name h)); [by apply NoDup_filter|..].
  - intros n v [Hof Hn]%list_elem_of_filter. destruct (f_node_files s a R n) as ([h' m] & Hp & ->); [by apply Hns|].
    apply (of_host_pair h (h', m) Hh Hp) in Hof. simpl in Hof. subst h'. simpl.
    fold (pubsubNodePath h m).
    rewrite (node_read s a R h m Hp). destruct (sp_nodes a !! (h, m)) eqn:E; simpl; [|done]. intros [= ->]. eauto.
  - intros m v Hv. assert (is_pair (h, m)) as Hp by (apply (f_node_keys s a R); eauto).
    fold (pubsubNodePath h m). rewrite (node_read s a R h m Hp), Hv. split; [|done].
    apply list_elem_of_filter. split; [by apply (of_host_pair h (h, m))|]. apply Hns.
    apply (doc_is_present _ _ (f_nodes s a R (h, m) Hp)). eauto.
  - intros m m' [v Hv] [v' Hv'] He. eassert ((h, m) = (h, m')) as Hpp; [|congruence].
    eapply pair_name_inj; [eapply (f_node_keys s a R); eauto..|done].
Qed.


Lemma file_sim_GetUserSubscriptions h j : fsim (CGetUserSubscriptions h j).
Proof.
  open_read GetUserSubscriptions. intros Hh. split; [done|].
  destruct (ReadDir_spec "pubsub_subscriptions") as (ns & -> & Hnd & Hns); [by eapply dir_there|].
  eexists. split; [done|]. unfold readable. rewrite omap_omap. apply (listing _ (pair_name h)); [by apply NoDup_filter|..].
  - intros n v [Hof Hn]%list_elem_of_filter. destruct (f_sub_files s a R n) as ([h' m] & Hp & ->); [by apply Hns|].
    apply (of_host_pair h (h', m) Hh Hp) in Hof. simpl in Hof. subst h'. simpl.
    fold (pubsubSubsPath h m). destruct (f_subs s a R (h, m) Hp) as (o & Ho & Hf). cbn [fst snd] in Ho.
    rewrite (readJSON_is s (pubsubSubsPath h m) o (fits_pair (h, m) Hp) Ho). destruct o as [mm|]; simpl in *; [|done].
    intros Hv. exists m. split; [done|]. by rewrite <- Hf.
  - intros m v Hv. assert (is_pair (h, m)) as Hp by (eapply (f_sub_keys s a R); eauto).
    fold (pubsubSubsPath h m). destruct (f_subs s a R (h, m) Hp) as (o & Ho & Hf). cbn [fst snd] in Ho.
    rewrite <- Hf in Hv. destruct o as [mm|]; simpl in Hv; [|done]. split.
    + apply list_elem_of_filter. split; [by apply (of_host_pair h (h, m))|]. apply Hns.
      apply (doc_is_present _ _ Ho). eauto.
    + by rewrite (readJSON_is s (pubsubSubsPath h m) _ (fits_pair (h, m) Hp) Ho).
  - intros m m' [v Hv] [v' Hv'] He. eassert ((h, m) = (h, m')) as Hpp; [|congruence].
    eapply pair_name_inj; [eapply (f_sub_keys s a R); eauto..|done].
Qed.

Lemma fexec_simulates c : fsim c.
Proof.
  destruct c; eauto using file_sim_CreateUser, file_sim_GetUser, file_sim_UpdateUser, file_sim_DeleteUser, file_sim_UserExists,
    file_sim_Authenticate, file_sim_UpsertRosterItem, file_sim_GetRosterItem, file_sim_GetRosterItems, file_sim_DeleteRosterItem,
    file_sim_GetRosterVersion, file_sim_SetRosterVersion, file_sim_BlockJID, file_sim_UnblockJID, file_sim_IsBlocked,
    file_sim_GetBlockedJIDs, file_sim_SetVCard, file_sim_GetVCard, file_sim_DeleteVCard, file_sim_StoreOfflineMessage,
    file_sim_GetOfflineMessages, file_sim_DeleteOfflineMessages, file_sim_CountOfflineMessages, file_sim_ArchiveMessage,
    file_sim_QueryMessages, file_sim_DeleteMessageArchive, file_sim_CreateRoom, file_sim_GetRoom, file_sim_UpdateRoom,
    file_sim_DeleteRoom, file_sim_ListRooms, file_sim_SetAffiliation, file_sim_GetAffiliation, file_sim_GetAffiliations,
    file_sim_RemoveAffiliation, file_sim_CreateNode, file_sim_GetNode, file_sim_DeleteNode, file_sim_ListNodes, file_sim_UpsertItem,
    file_sim_GetItem, file_sim_GetItems, file_sim_DeleteItem, file_sim_Subscribe, file_sim_Unsubscribe, file_sim_GetSubscription,
    file_sim_GetSubscriptions, file_sim_GetUserSubscriptions, file_sim_SetBookmark, file_sim_GetBookmark,
    file_sim_GetBookmarks, file_sim_DeleteBookmark.
Qed.
End Simulation.
End Refinement.

(** ** Runs with restarts *)

Inductive fevent := FCall (now : time) (it : iteration) (c : call) | FRestart.

Definition file_step (e : fevent) (s : Store) : Store * list answer :=
  match e with
  | FCall now it c => let '(s', r) := exec now it c s in (s', [r])
  | FRestart => (restart s, [])
  end.

Fixpoint file_run (s : Store) (es : list fevent) : list answer :=
  match es with [] => [] | e :: es' => let '(s', rs) := file_step e s in rs ++ file_run s' es' end.

Fixpoint file_state (s : Store) (es : list fevent) : Store :=
  match es with [] => s | e :: es' => file_state (file_step e s).1 es' end.

(** A restart of the abstract machine only forgets the counter. *)
Fixpoint spec_events (a : spec) (es : list fevent) (rs : list answer) : Prop :=
  match es with
  | [] => rs = []
  | FCall now it c :: es' =>
      ∃ r rs', rs = r :: rs' ∧ (spec_call now c a).2 r ∧ spec_events (spec_call now c a).1 es' rs'
  | FRestart :: es' => spec_events (put_counter 0 a) es' rs
  end.

Fixpoint spec_state (a : spec) (es : list fevent) : spec :=
  match es with
  | [] => a
  | FCall now it c :: es' => spec_state (spec_call now c a).1 es'
  | FRestart :: es' => spec_state (put_counter 0 a) es'
  end.

Definition event_ok (owner host node : string → Prop) (e : fevent) : Prop :=
  match e with FCall now it c => iteration_ok it ∧ call_ok owner host node now c | FRestart => True end.

Lemma file_init_loop_spec ds s :
  ∃ s', init_loop ds s = (s', Ok tt) ∧ (∀ p, lookup_file s' p = lookup_file s p) ∧ mamCounter s' = mamCounter s ∧
        ∀ d, d ∈ ds ∨ is_Some (tree s !! d) → is_Some (tree s' !! d).
Proof.
  revert s. induction ds as [|d ds IH]; intros s.
  { exists s. split; [done|]. split; [done|]. split; [done|]. intros d [[]%elem_of_nil|?]; done. }
  set (s1 := match tree s !! d with Some _ => s | None => set_dir d ∅ s end).
  assert (∀ p, lookup_file s1 p = lookup_file s p) as H1.
  { intros [d' n]. unfold s1, lookup_file. destruct (tree s !! d) eqn:E; [done|]. simpl.
    rewrite lookup_insert. case_decide; subst; [by rewrite E|done]. }
  assert (∀ d', d = d' ∨ is_Some (tree s !! d') → is_Some (tree s1 !! d')) as H2.
  { intros d' Hd. unfold s1. destruct (tree s !! d) eqn:E; simpl.
    - destruct Hd as [<-|?]; [by rewrite E|done].
    - rewrite lookup_insert. case_decide; [done|]. by destruct Hd. }
  destruct (IH s1) as (s' & He & Hl & Hc & Hd). exists s'. split; [|split; [|split]].
  - cbn [init_loop]. unfold mbnd, MkdirAll, mmodify. by fold s1.
  - intros p. by rewrite Hl, H1.
  - rewrite Hc. unfold s1. by destruct (tree s !! d).
  - intros d' [[->|?]%elem_of_cons|?]; apply Hd; auto.
Qed.

Lemma Init_spec s :
  (∀ p, lookup_file (Init s).1 p = lookup_file s p) ∧ mamCounter (Init s).1 = mamCounter s ∧
  ∀ d, d ∈ init_dirs → is_Some (tree (Init s).1 !! d).
Proof. unfold Init. destruct (file_init_loop_spec init_dirs s) as (s' & -> & Hl & Hc & Hd). simpl. eauto. Qed.

Lemma fresh_absent p : lookup_file fresh p = None.
Proof. unfold fresh. by rewrite (proj1 (Init_spec New)). Qed.

Lemma fresh_refines owner host node : frefines owner host node fresh spec_init.
Proof.
  split; intros; rewrite ?fresh_absent in *; cbn [spec_init sp_users sp_roster sp_versions sp_blocked sp_vcards
    sp_offline sp_mam sp_counter sp_rooms sp_affs sp_nodes sp_items sp_subs sp_bookmarks] in *; rewrite ?lookup_empty in *;
    try done; try (by apply map_is_absent); try (by exists None); try (by destruct H).
  by apply Init_spec.
Qed.

Lemma restart_refines owner host node s a :
  frefines owner host node s a → frefines owner host node (restart s) (put_counter 0 a).
Proof.
  intros R. pose proof (counter_frefines owner host node s a R 0) as [].
  unfold restart. destruct (Init_spec (mkFiles (tree s) 0)) as (Hl & Hc & Hd).
  split; intros; rewrite ?Hl in *; rewrite ?Hc; eauto.
Qed.

Lemma file_events_refine owner host node es s a :
  naming owner host node → frefines owner host node s a → Forall (event_ok owner host node) es →
  spec_events a es (file_run s es) ∧ frefines owner host node (file_state s es) (spec_state a es).
Proof.
  intros N R Hes. revert s a R. induction Hes as [|e es He _ IH]; intros s a R; [done|].
  destruct e as [now it c|]; cbn [file_run file_state file_step spec_events spec_state] in *.
  - destruct He as [Hit Hok]. destruct (fexec_simulates owner host node N now it s a Hit R c Hok) as [R' Ha].
    destruct (exec now it c s) as [s' r]. cbn [fst snd app] in *. destruct (IH s' _ R') as [Hs HR].
    split; [|done]. by exists r, (file_run s' es).
  - apply IH. by apply restart_refines.
Qed.

(** ** Guarantees *)

(** C2: the file store implements the storage contract and survives restarts:
    under the naming discipline, every sequence of calls to its nine interfaces,
    with the process restarted at any points, is answered as the abstract machine
    over flat maps allows, a restart only setting the archive counter back to
    zero; no call panics or fails with an I/O or encoding error. *)
Theorem file_store_refines owner host node es :
  naming owner host node → Forall (event_ok owner host node) es →
  spec_events spec_init es (file_run fresh es).
Proof. intros N Hes. by apply (file_events_refine owner host node es fresh spec_init N (fresh_refines _ _ _) Hes). Qed.

(** *** The two backends agree *)

Inductive same_answer : answer → answer → Prop :=
  | same_refl r : same_answer r r
  | same_strs l l' : l ≡ₚ l' → same_answer (AStrs l) (AStrs l')
  | same_rosters l l' : l ≡ₚ l' → same_answer (ARosters l) (ARosters l')
  | same_rooms l l' : l ≡ₚ l' → same_answer (ARooms l) (ARooms l')
  | same_affs l l' : l ≡ₚ l' → same_answer (AAffs l) (AAffs l')
  | same_nodes l l' : l ≡ₚ l' → same_answer (ANodes l) (ANodes l')
  | same_items l l' : l ≡ₚ l' → same_answer (AItems l) (AItems l')
  | same_subs l l' : l ≡ₚ l' → same_answer (ASubs l) (ASubs l')
  | same_bookmarks l l' : l ≡ₚ l' → same_answer (ABookmarks l) (ABookmarks l').

Lemma lists_unique {V} (f : string → option V) l l' : lists f l → lists f l' → l ≡ₚ l'.
Proof.
  intros (kl & -> & Hnd & Hkl) (kl' & -> & Hnd' & Hkl'). apply fmap_Permutation, NoDup_Permutation.
  - by eapply NoDup_fmap_1.
  - by eapply NoDup_fmap_1.
  - intros [k v]. by rewrite Hkl, Hkl'.
Qed.

Lemma spec_call_determines now c a r r' :
  (spec_call now c a).2 r → (spec_call now c a).2 r' → same_answer r r'.
Proof.
  destruct c; cbn [spec_call snd]; unfold answers, or_missing, on_entry;
    try (repeat case_match; cbn [snd]; intros -> ->; constructor);
    try (intros (l & -> & Hl) (l' & -> & Hl'); constructor; by eapply lists_unique).
  - intros (l & -> & Hnd & Hl) (l' & -> & Hnd' & Hl'). constructor. apply NoDup_Permutation; [done..|].
    intros x. by rewrite Hl, Hl'.
  - intros (l & -> & _ & Hl) (l' & -> & _ & Hl'). constructor. by eapply lists_unique.
Qed.

Lemma spec_run_determines a calls rs rs' :
  spec_run a calls rs → spec_run a calls rs' → Forall2 same_answer rs rs'.
Proof.
  revert a rs rs'. induction calls as [|[now c] calls IH]; intros a [|r rs] [|r' rs'] H H'; try done.
  destruct H as [H1 H2], H' as [H1' H2']. constructor; [by eapply spec_call_determines|by eapply IH].
Qed.

Lemma file_run_refines owner host node calls s a :
  naming owner host node → frefines owner host node s a →
  Forall (λ x, iteration_ok x.1.2 ∧ call_ok owner host node x.1.1 x.2) calls →
  spec_run a ((λ x, (x.1.1, x.2)) <$> calls) (run s calls).
Proof.
  intros N R Hc. revert s a R. induction Hc as [|[[now it] c] cs [Hit Hok] _ IH]; intros s a R; [done|].
  cbn [run fmap list_fmap fst snd] in *. destruct (fexec_simulates owner host node N now it s a Hit R c Hok) as [R' Ha].
  destruct (exec now it c s) as [s' r]. split; [done|]. by apply IH.
Qed.

(** C7: the in-memory and the file backend are interchangeable under the naming
    discipline: every sequence of calls that names users, hosts and nodes with
    distinct and valid file names and holds records that JSON can carry is answered
    alike, call by call, up to the order of the entries in a listing. *)
Theorem backends_agree owner host node calls :
  naming owner host node →
  Forall (λ x, iteration_ok x.1.2 ∧ call_ok owner host node x.1.1 x.2) calls →
  Forall2 same_answer (MemoryStorage.run MemoryStorage.New calls) (run fresh calls).
Proof.
  intros N Hc. eapply spec_run_determines.
  - apply run_refines; [apply New_refines|]. eapply Forall_impl; [exact Hc|]. by intros x [? _].
  - by apply (file_run_refines owner host node calls fresh spec_init N (fresh_refines _ _ _)).
Qed.

(** *** What breaks without the discipline *)

Lemma name_ok_xml x : name_ok (x +:+ ".json") = true → name_ok (x +:+ ".xml") = true.
Proof.
  unfold name_ok. rewrite !andb_true_iff, !negb_true_iff, !Nat.leb_le, !length_str_app, !has_byte_app, !orb_false_iff.
  simpl. intros [? [? _]]. split; [lia|]. by split.
Qed.

Lemma naming_single u : name_ok (safeFileName u +:+ ".json") = true → naming (λ x, x = u) (λ _, False) (λ _, False).
Proof. intros Hn. split; try done; try (by intros; subst). intros x ->. auto using name_ok_xml. Qed.

Definition account (u p : string) : User := mkUser u p "" 0 "" "" 0 0.

(** The discipline is needed: two usernames with the same file name share one
    account.  After the first is created, the second, which was never created,
    exists and authenticates with the first one's password, which the contract
    forbids. *)
Theorem colliding_names_share_an_account u v p now it :
  u ≠ v → safeFileName u = safeFileName v → name_ok (safeFileName u +:+ ".json") = true →
  User_ok (new_user now (account u p)) → iteration_ok it →
  let calls := [(now, it, CCreateUser (account u p)); (now, it, CUserExists v); (now, it, CAuthenticate v p)] in
  run fresh calls = [AUnit; ABool true; ABool true] ∧
  ¬ spec_run spec_init ((λ x, (x.1.1, x.2)) <$> calls) (run fresh calls).
Proof.
  intros Hne Hsame Hfit Hok Hit calls.
  assert (run fresh calls = [AUnit; ABool true; ABool true]) as Hrun.
  { set (ucalls := [(now, it, CCreateUser (account u p)); (now, it, CUserExists u); (now, it, CAuthenticate u p)]).
    assert (run fresh calls = run fresh ucalls) as ->.
    { unfold calls, ucalls. cbn [run exec]. destruct (feffect (CreateUser now (account u p)) fresh) as [s' r].
      unfold UserExists, Authenticate, userPath. by rewrite Hsame. }
    pose proof (file_run_refines (λ x, x = u) (λ _, False) (λ _, False) ucalls fresh spec_init
      (naming_single u Hfit) (fresh_refines _ _ _)) as H.
    assert (Forall2 same_answer (run fresh ucalls) [AUnit; ABool true; ABool true]) as Hs.
    { eapply spec_run_determines; [apply H; repeat constructor; simpl; auto; apply Hok|].
      cbn. unfold spec_call. cbn. rewrite !lookup_empty. cbn. rewrite !lookup_insert_eq. cbn.
      by rewrite !bool_decide_true by eauto. }
    clear H. repeat match goal with H : Forall2 _ ?l _ |- ?l = _ => inversion H; clear H; subst
                    | H : Forall2 _ _ _ |- _ => inversion H; clear H; subst
                    | H : same_answer _ _ |- _ => inversion H; clear H; subst end. done. }
  split; [done|]. rewrite Hrun. cbn. unfold spec_call. cbn. rewrite !lookup_empty. cbn. rewrite !lookup_insert_ne by done.
  intros (_ & H & _). done.
Qed.

(** A client paging through an archive of the file store. *)
Fixpoint fpaging (fuel : nat) (q : MAMQuery) (s : Store) : option (list ArchivedMessage) :=
  match fuel with
  | 0 => None
  | S f =>
      match QueryMessages q s with
      | Ok r => if Complete r then Some (Messages r)
                else (λ rest, Messages r ++ rest) <$> fpaging f (next_page q (Last r)) s
      | _ => None
      end
  end.

Definition page_after (u id : string) : MAMQuery := mkQuery u "" 0 0 id "" 1.

(** One page of the archive with repeated identifiers. *)
Lemma repeated_ids_page u s w1 f1 d1 t1 w2 f2 d2 t2 w3 f3 d3 t3 w4 f4 d4 t4 id id' m :
  loadMAM u s = Ok [mkArchived "1" u w1 f1 d1 t1; mkArchived "2" u w2 f2 d2 t2;
                    mkArchived "1" u w3 f3 d3 t3; mkArchived "2" u w4 f4 d4 t4] →
  (id, id', m) ∈ [(""%string, "1"%string, mkArchived "1" u w1 f1 d1 t1);
                  ("1"%string, "2"%string, mkArchived "2" u w2 f2 d2 t2);
                  ("2"%string, "1"%string, mkArchived "1" u w3 f3 d3 t3)] →
  QueryMessages (page_after u id) s = Ok (mkMAMResult [m] false id' id' 1).
Proof.
  intros Hl Hin. unfold QueryMessages, page_after. cbn [q_UserJID]. rewrite Hl. clear Hl.
  repeat (apply elem_of_cons in Hin as [[= -> -> ->]|Hin]; [by vm_compute|]). by apply elem_of_nil in Hin.
Qed.

Lemma repeated_ids_loop u s w1 f1 d1 t1 w2 f2 d2 t2 w3 f3 d3 t3 w4 f4 d4 t4 fuel :
  loadMAM u s = Ok [mkArchived "1" u w1 f1 d1 t1; mkArchived "2" u w2 f2 d2 t2;
                    mkArchived "1" u w3 f3 d3 t3; mkArchived "2" u w4 f4 d4 t4] →
  fpaging fuel (page_after u "1") s = None ∧ fpaging fuel (page_after u "2") s = None ∧
  fpaging fuel (page_after u "") s = None.
Proof.
  intros Hl. pose proof (repeated_ids_page u s _ _ _ _ _ _ _ _ _ _ _ _ _ _ _ _ "" "1" _ Hl ltac:(by left)) as H0.
  pose proof (repeated_ids_page u s _ _ _ _ _ _ _ _ _ _ _ _ _ _ _ _ "1" "2" _ Hl ltac:(right; by left)) as H1.
  pose proof (repeated_ids_page u s _ _ _ _ _ _ _ _ _ _ _ _ _ _ _ _ "2" "1" _ Hl ltac:(do 2 right; by left)) as H2.
  induction fuel as [|fuel (IH1 & IH2 & IH0)]; [done|]. cbn [fpaging]. rewrite H0, H1, H2. cbn [Complete Messages Last].
  change (next_page (page_after u "") "1") with (page_after u "1").
  change (next_page (page_after u "1") "2") with (page_after u "2").
  change (next_page (page_after u "2") "1") with (page_after u "1"). by rewrite IH1, IH2.
Qed.

(** The counter starts again after a restart, so generated identifiers repeat:
    two messages archived before and two after a restart have the identifiers 1,
    2, 1, 2, and a client that pages through them one by one, following the last
    identifier, never reaches the end of the archive. *)
Theorem restart_paging_diverges u it w1 f1 d1 t1 w2 f2 d2 t2 w3 f3 d3 t3 w4 f4 d4 t4 n1 n2 n3 n4 fuel :
  let m1 := mkArchived "" u w1 f1 d1 t1 in let m2 := mkArchived "" u w2 f2 d2 t2 in
  let m3 := mkArchived "" u w3 f3 d3 t3 in let m4 := mkArchived "" u w4 f4 d4 t4 in
  let es := [FCall n1 it (CArchiveMessage m1); FCall n2 it (CArchiveMessage m2); FRestart;
             FCall n3 it (CArchiveMessage m3); FCall n4 it (CArchiveMessage m4)] in
  name_ok (safeFileName u +:+ ".json") = true →
  Forall (event_ok (λ x, x = u) (λ _, False) (λ _, False)) es →
  fpaging fuel (page_after u "") (file_state fresh es) = None.
Proof.
  intros m1 m2 m3 m4 es Hfit Hes.
  destruct (file_events_refine _ _ _ es fresh spec_init (naming_single u Hfit) (fresh_refines _ _ _) Hes) as [_ R].
  destruct (mam_load _ _ _ (naming_single u Hfit) _ _ R u eq_refl) as [Hl _].
  set (s := file_state fresh es) in *. clearbody s. clear R Hes.
  unfold es, m1, m2, m3, m4 in Hl. cbn [spec_state spec_call] in Hl. unfold archived in Hl.
  cbn [a_ID a_UserJID a_WithJID a_FromJID a_Data a_CreatedAt] in Hl.
  rewrite (bool_decide_true (""%string = ""%string)) in Hl by done.
  cbn [fst put_counter put_mam sp_mam sp_counter spec_init] in Hl.
  rewrite !lookup_insert_eq, lookup_empty in Hl. cbn [default from_option id app] in Hl.
  by apply (repeated_ids_loop u s _ _ _ _ _ _ _ _ _ _ _ _ _ _ _ _ fuel Hl).
Qed.

(** ** Instances *)

Lemma NoDup_fmap_inj {A B} (f : A → B) l :
  NoDup (f <$> l) → ∀ x y, x ∈ l → y ∈ l → f x = f y → x = y.
Proof.
  induction l as [|z l IH]; [by intros _ x y []%elem_of_nil|]. cbn. intros [Hz Hnd]%NoDup_cons x y Hx Hy He.
  apply elem_of_cons in Hx as [->|Hx], Hy as [->|Hy]; [done| | |by apply IH].
  - destruct Hz. rewrite He. by apply list_elem_of_fmap_2.
  - destruct Hz. rewrite <- He. by apply list_elem_of_fmap_2.
Qed.

Module FileExample.
Definition it : iteration := mkIteration (λ V m, map_to_list m).
Lemma file_it_ok : iteration_ok it.
Proof. intros V m. unfold iter_order, it, visit. reflexivity. Qed.

Definition owners : list string := ["alice"; "alice@example.org"; "bob@example.org"; "room@muc.example.org"].
Definition hosts : list string := ["pubsub.example.org"; "alice@example.org"].
Definition nodes : list string := ["urn:xmpp:avatar:data"; "news"].

Lemma example_naming : naming (λ x, x ∈ owners) (λ x, x ∈ hosts) (λ x, x ∈ nodes).
Proof.
  split.
  - apply NoDup_fmap_inj, (bool_decide_unpack _). by vm_compute.
  - apply Forall_forall. repeat constructor.
  - apply NoDup_fmap_inj, (bool_decide_unpack _). by vm_compute.
  - apply Forall_forall. by repeat constructor.
  - apply NoDup_fmap_inj, (bool_decide_unpack _). by vm_compute.
  - intros h n Hh Hn. revert n Hn. apply Forall_forall. revert h Hh. apply Forall_forall. by repeat constructor.
Qed.

Definition alice := "alice@example.org"%string.
Definition bob := "bob@example.org"%string.
Definition day : time := (737000 * 86400 * 10 ^ 9)%Z.

Definition events : list fevent :=
  [FCall day it (CCreateUser (account "alice" "secret")); FRestart;
   FCall day it (CAuthenticate "alice" "secret"); FCall day it (CCreateUser (account "alice" "other"));
   FCall day it (CUpsertRosterItem (mkRosterItem alice bob "Bob" "both" "" ["friends"%string]));
   FCall day it (CUpsertItem (mkItem "pubsub.example.org" "urn:xmpp:avatar:data" "1" bob [] 0)); FRestart;
   FCall day it (CGetRosterItems alice); FCall day it (CGetItem "pubsub.example.org" "urn:xmpp:avatar:data" "1")].

Lemma events_ok : Forall (event_ok (λ x, x ∈ owners) (λ x, x ∈ hosts) (λ x, x ∈ nodes)) events.
Proof.
  repeat (constructor; [first [exact I | split; [exact file_it_ok|]; cbn; repeat split; try (apply (bool_decide_unpack _); by vm_compute);
    try (by vm_compute); repeat constructor]|]). constructor.
Qed.

Lemma file_store_refines_witness :
  file_run fresh events =
    [AUnit; ABool true; AErr ErrUserExists; AUnit; AUnit;
     ARosters [mkRosterItem alice bob "Bob" "both" "" ["friends"%string]];
     AItem (mkItem "pubsub.example.org" "urn:xmpp:avatar:data" "1" bob [] day)] ∧
  spec_events spec_init events (file_run fresh events).
Proof.
  split; [by vm_compute|]. exact (file_store_refines _ _ _ events example_naming events_ok).
Defined.

Definition calls : list (time * iteration * call) :=
  [(day, it, CCreateUser (account "alice" "secret")); (day, it, CCreateRoom (mkRoom "room@muc.example.org" "" "" "" "" true true 0));
   (day, it, CListRooms); (day, it, CDeleteUser "alice"); (day, it, CGetUser "alice")].

Lemma backends_agree_witness :
  Forall2 same_answer (MemoryStorage.run MemoryStorage.New calls) (run fresh calls).
Proof.
  apply (backends_agree _ _ _ calls example_naming).
  repeat (constructor; [split; [exact file_it_ok|]; cbn; repeat split; try (apply (bool_decide_unpack _); by vm_compute);
    try (by vm_compute)|]). constructor.
Defined.

Lemma colliding_names_share_an_account_witness :
  run fresh [(day, it, CCreateUser (account "alice_" "pw")); (day, it, CUserExists "alice*"); (day, it, CAuthenticate "alice*" "pw")] =
    [AUnit; ABool true; ABool true].
Proof.
  refine (proj1 (colliding_names_share_an_account "alice_" "alice*" "pw" day it _ _ _ _ file_it_ok));
    [discriminate|by vm_compute|by vm_compute|by vm_compute].
Defined.

Lemma restart_paging_diverges_witness :
  fpaging 100 (page_after alice "")
    (file_state fresh
       [FCall day it (CArchiveMessage (mkArchived "" alice bob bob [] 0));
        FCall day it (CArchiveMessage (mkArchived "" alice bob bob [] 0)); FRestart;
        FCall day it (CArchiveMessage (mkArchived "" alice bob bob [] 0));
        FCall day it (CArchiveMessage (mkArchived "" alice bob bob [] 0))]) = None.
Proof.
  apply (restart_paging_diverges alice it bob bob [] 0 bob bob [] 0 bob bob [] 0 bob bob [] 0 day day day day 100);
    [by vm_compute|].
  repeat (constructor; [first [exact I | split; [exact file_it_ok|]; by vm_compute]|]). constructor.
Defined.

(** The name of a service may not contain an underscore: the nodes of the service
    [a_b] are listed for the service [a], and a node may be found under another
    service's name. *)
Example listing_crosses_services :
  run fresh [(day, it, CCreateNode (mkNode "a_b" "c" "" "leaf" None "")); (day, it, CListNodes "a");
             (day, it, CGetNode "a" "b_c")] =
    [AUnit; ANodes [mkNode "a_b" "c" "" "leaf" None ""]; ANode (mkNode "a_b" "c" "" "leaf" None "")].
Proof. by vm_compute. Qed.
End FileExample.
