(* ===== verification/RedisStorage.v ===== *)
(** * The Redis store (src/storage/redis/redis.go)

    Every operation of [redis.Store] as the commands it sends.  The Redis server
    and its client library are the class [Redis]: a server is anything that
    answers commands; [RedisLaws] states the documented behaviour of the
    commands the store uses, on the server's keyspace.  [keyspace_server] is the
    server that holds nothing but its keyspace.  The operations of one process
    run one after the other here: the store has no lock, so commands of
    concurrent calls may interleave on the server (see [update_revives]).

    [RedisRefinement] proves the store against the contract of [Storage]. *)

From Stdlib Require Import Ascii String ZArith.
From S2P Require Import Prelude GoStrings Bytes Storage MemoryStorage StorageJson.

Open Scope list_scope.
Open Scope go_scope.

(** ** Values and commands of a Redis server *)

(** What is stored as a string: the text of a JSON document or other bytes. *)
Inductive text := Json_text (j : json) | Raw_text (b : bytes).

Inductive rvalue :=
  | RStr (t : text)
  | RHash (h : gmap string text)
  | RSet (m : gset string)
  | RList (l : list text)
  | RZSet (z : gmap string Z).

Notation keyspace := (gmap string rvalue).

Inductive command :=
  | KSetNX (k : string) (v : text) | KSet (k : string) (v : text) | KGet (k : string)
  | KExists (k : string) | KDel (k : string)
  | KHSet (k f : string) (v : text) | KHGet (k f : string) | KHGetAll (k : string)
  | KHDel (k f : string) | KHKeys (k : string)
  | KSAdd (k m : string) | KSRem (k m : string) | KSIsMember (k m : string) | KSMembers (k : string)
  | KRPush (k : string) (v : text) | KLRange (k : string) | KLLen (k : string)
  | KZAdd (k : string) (score : Z) (m : string) | KZRangeByScore (k : string) | KZRange (k : string).

(** [YNil] is the client library's [redis.Nil]; [YFail] any other error. *)
Inductive reply :=
  | YOk | YNil | YFail | YInt (n : Z) | YBool (b : bool) | YText (t : text)
  | YMap (m : gmap string text) | YStrs (l : list string) | YTexts (l : list text).

Class Redis (R : Type) := rdo : command → R → R * reply.

(** *** The documented behaviour *)

(** A key that holds nothing reads as the empty hash, set, list or sorted set;
    an aggregate that becomes empty is removed. *)
Definition hash_at (m : keyspace) (k : string) : gmap string text :=
  match m !! k with Some (RHash h) => h | _ => ∅ end.
Definition set_at (m : keyspace) (k : string) : gset string :=
  match m !! k with Some (RSet s) => s | _ => ∅ end.
Definition list_at (m : keyspace) (k : string) : list text :=
  match m !! k with Some (RList l) => l | _ => [] end.
Definition zset_at (m : keyspace) (k : string) : gmap string Z :=
  match m !! k with Some (RZSet z) => z | _ => ∅ end.

Definition put_hash (k : string) (h : gmap string text) (m : keyspace) : keyspace :=
  if bool_decide (h = ∅) then delete k m else <[k := RHash h]> m.
Definition put_set (k : string) (s : gset string) (m : keyspace) : keyspace :=
  if bool_decide (s = ∅) then delete k m else <[k := RSet s]> m.

(** A sorted set is ordered by score, members with the same score by their bytes. *)
Definition zle (a b : string * Z) : Prop := (a.2 < b.2)%Z ∨ (a.2 = b.2 ∧ str_le a.1 b.1).
#[global] Instance zle_dec a b : Decision (zle a b).
Proof. unfold zle. apply _. Defined.

Inductive kind := KStr | KHash | KSetT | KListT | KZSet.
Definition kind_of (v : rvalue) : kind :=
  match v with RStr _ => KStr | RHash _ => KHash | RSet _ => KSetT | RList _ => KListT | RZSet _ => KZSet end.
(** The kind of value a command needs at its key. *)
Definition needs (c : command) : option (string * kind) :=
  match c with
  | KGet k => Some (k, KStr)
  | KHSet k _ _ | KHGet k _ | KHGetAll k | KHDel k _ | KHKeys k => Some (k, KHash)
  | KSAdd k _ | KSRem k _ | KSIsMember k _ | KSMembers k => Some (k, KSetT)
  | KRPush k _ | KLRange k | KLLen k => Some (k, KListT)
  | KZAdd k _ _ | KZRangeByScore k | KZRange k => Some (k, KZSet)
  | KSetNX _ _ | KSet _ _ | KExists _ | KDel _ => None
  end.
Definition typed (m : keyspace) (k : string) (t : kind) : Prop :=
  match m !! k with Some v => kind_of v = t | None => True end.
Definition right_type (c : command) (m : keyspace) : Prop :=
  match needs c with Some (k, t) => typed m k t | None => True end.

Definition effect (c : command) (m : keyspace) : keyspace :=
  match c with
  | KSetNX k v => match m !! k with Some _ => m | None => <[k := RStr v]> m end
  | KSet k v => <[k := RStr v]> m
  | KDel k => delete k m
  | KHSet k f v => <[k := RHash (<[f := v]> (hash_at m k))]> m
  | KHDel k f => put_hash k (delete f (hash_at m k)) m
  | KSAdd k x => <[k := RSet ({[x]} ∪ set_at m k)]> m
  | KSRem k x => put_set k (set_at m k ∖ {[x]}) m
  | KRPush k v => <[k := RList (list_at m k ++ [v])]> m
  | KZAdd k sc x => <[k := RZSet (<[x := sc]> (zset_at m k))]> m
  | KGet _ | KExists _ | KHGet _ _ | KHGetAll _ | KHKeys _ | KSIsMember _ _ | KSMembers _
  | KLRange _ | KLLen _ | KZRangeByScore _ | KZRange _ => m
  end.

Definition found01 {A} (o : option A) : reply := YInt (match o with Some _ => 1 | None => 0 end).

(** The reply, in any order where none is documented. *)
Definition replies (c : command) (m : keyspace) (y : reply) : Prop :=
  match c with
  | KSetNX k _ => y = YBool (match m !! k with Some _ => false | None => true end)
  | KSet _ _ => y = YOk
  | KGet k => y = match m !! k with Some (RStr t) => YText t | _ => YNil end
  | KExists k | KDel k => y = found01 (m !! k)
  | KHSet k f _ => ∃ n, y = YInt n
  | KHGet k f => y = match hash_at m k !! f with Some t => YText t | None => YNil end
  | KHGetAll k => y = YMap (hash_at m k)
  | KHDel k f => y = found01 (hash_at m k !! f)
  | KHKeys k => ∃ l, y = YStrs l ∧ NoDup l ∧ ∀ x, x ∈ l ↔ is_Some (hash_at m k !! x)
  | KSAdd _ _ | KSRem _ _ | KRPush _ _ | KZAdd _ _ _ => ∃ n, y = YInt n
  | KSIsMember k x => y = YBool (bool_decide (x ∈ set_at m k))
  | KSMembers k => ∃ l, y = YStrs l ∧ NoDup l ∧ ∀ x, x ∈ l ↔ x ∈ set_at m k
  | KLRange k => y = YTexts (list_at m k)
  | KLLen k => y = YInt (Z.of_nat (length (list_at m k)))
  | KZRangeByScore k | KZRange k => y = YStrs (merge_sort zle (map_to_list (zset_at m k))).*1
  end.

(** A server that is reachable and behaves as documented. *)
Class RedisLaws (R : Type) `{Redis R} (contents : R → keyspace) :=
  redis_law c r : right_type c (contents r) →
    contents (rdo c r).1 = effect c (contents r) ∧ replies c (contents r) (rdo c r).2.

(** ** The store *)

Inductive redis_error := RStorage (e : storage_error) | RRedis | RJson.

Section Store.
Context {R : Type} `{Redis R}.

Notation RM A := (M R redis_error A).

(** [Init] asks the server for a sign of life. *)
Definition Init (ping : R → bool) : RM unit := fun r => (r, if ping r then Ok tt else Err RRedis).

(** A command and the shape of its result; a reply of any other shape is an error. *)
Definition cmd {A} (c : command) (f : reply → option A) : RM A :=
  λ r, let '(r', y) := rdo c r in (r', match f y with Some a => Ok a | None => Err RRedis end).

Definition SetNX k v : RM bool := cmd (KSetNX k v) (λ y, match y with YBool b => Some b | _ => None end).
Definition Set_ k v : RM unit := cmd (KSet k v) (λ y, match y with YOk => Some tt | _ => None end).
(** [redis.Nil] is a result of its own. *)
Definition nullable (y : reply) : option (option text) :=
  match y with YText t => Some (Some t) | YNil => Some None | _ => None end.
Definition Get k : RM (option text) := cmd (KGet k) nullable.
Definition HGet k f : RM (option text) := cmd (KHGet k f) nullable.
Definition number (y : reply) : option Z := match y with YInt n => Some n | _ => None end.
Definition Exists k : RM Z := cmd (KExists k) number.
Definition Del k : RM Z := cmd (KDel k) number.
Definition HSet k f v : RM Z := cmd (KHSet k f v) number.
Definition HDel k f : RM Z := cmd (KHDel k f) number.
Definition HGetAll k : RM (gmap string text) := cmd (KHGetAll k) (λ y, match y with YMap m => Some m | _ => None end).
Definition strings (y : reply) : option (list string) := match y with YStrs l => Some l | _ => None end.
Definition HKeys k : RM (list string) := cmd (KHKeys k) strings.
Definition SMembers k : RM (list string) := cmd (KSMembers k) strings.
Definition SAdd k x : RM Z := cmd (KSAdd k x) number.
Definition SRem k x : RM Z := cmd (KSRem k x) number.
Definition SIsMember k x : RM bool := cmd (KSIsMember k x) (λ y, match y with YBool b => Some b | _ => None end).
Definition RPush k v : RM Z := cmd (KRPush k v) number.
Definition LRange k : RM (list text) := cmd (KLRange k) (λ y, match y with YTexts l => Some l | _ => None end).
Definition LLen k : RM Z := cmd (KLLen k) number.
Definition ZRangeByScore k : RM (list string) := cmd (KZRangeByScore k) strings.
Definition ZRange k : RM (list string) := cmd (KZRange k) strings.

(** [pipe.Exec]: all commands are sent; the first error is returned. *)
Definition reply_failed (y : reply) : bool := match y with YFail => true | _ => false end.
Fixpoint pipeline (cs : list command) : RM unit :=
  match cs with
  | [] => mok tt
  | c :: cs' =>
      λ r, let '(r', y) := rdo c r in
           let '(r'', x) := pipeline cs' r' in (r'', if reply_failed y then Err RRedis else x)
  end.

(** A command whose result is dropped, errors included. *)
Definition drop {A} (p : RM A) : RM unit := λ r, ((p r).1, Ok tt).

(** *** Keys *)

Definition userKey (username : string) : string := "xmpp:user:" +:+ username.
Definition rosterKey (userJID : string) : string := "xmpp:roster:" +:+ userJID.
Definition rosterVerKey (userJID : string) : string := "xmpp:roster_ver:" +:+ userJID.
Definition blockedKey (userJID : string) : string := "xmpp:blocked:" +:+ userJID.
Definition vcardKey (userJID : string) : string := "xmpp:vcard:" +:+ userJID.
Definition offlineKey (userJID : string) : string := "xmpp:offline:" +:+ userJID.
Definition mamKey (userJID : string) : string := "xmpp:mam:" +:+ userJID.
Definition mamMsgKey (userJID id : string) : string := "xmpp:mam_msg:" +:+ userJID +:+ ":" +:+ id.
Definition mucRoomKey (roomJID : string) : string := "xmpp:muc_room:" +:+ roomJID.
Definition mucRoomsSetKey : string := "xmpp:muc_rooms".
Definition mucAffKey (roomJID : string) : string := "xmpp:muc_aff:" +:+ roomJID.
Definition pubsubNodeKey (host nodeID : string) : string := "xmpp:ps_node:" +:+ host +:+ ":" +:+ nodeID.
Definition pubsubNodesKey (host : string) : string := "xmpp:ps_nodes:" +:+ host.
Definition pubsubItemKey (host nodeID itemID : string) : string :=
  "xmpp:ps_item:" +:+ host +:+ ":" +:+ nodeID +:+ ":" +:+ itemID.
Definition pubsubItemsKey (host nodeID : string) : string := "xmpp:ps_items:" +:+ host +:+ ":" +:+ nodeID.
Definition pubsubSubsKey (host nodeID : string) : string := "xmpp:ps_subs:" +:+ host +:+ ":" +:+ nodeID.
Definition pubsubUserSubsKey (host jid : string) : string := "xmpp:ps_usubs:" +:+ host +:+ ":" +:+ jid.
Definition bookmarkKey (userJID : string) : string := "xmpp:bookmarks:" +:+ userJID.

(** *** JSON: the error of [json.Marshal] is dropped, an unencodable value is
    stored as the empty string. *)
Definition marshal_text {T} `{Json T} (v : T) : text :=
  match marshal v with Some j => Json_text j | None => Raw_text [] end.
Definition unmarshal_text {T} `{Json T} (t : text) : res redis_error T :=
  match t with
  | Json_text j => match unmarshal j with Some v => Ok v | None => Err RJson end
  | Raw_text _ => Err RJson
  end.

(** A value read by its key or field: [redis.Nil] is [ErrNotFound]. *)
Definition decode {T} `{Json T} (o : option text) : RM T :=
  match o with None => merr (RStorage ErrNotFound) | Some t => mlift (unmarshal_text t) end.

(** [make([]*T, 0, len(data)); for _, v := range data]: all or the first error. *)
Fixpoint decode_all {T} `{Json T} (l : list text) : res redis_error (list T) :=
  match l with
  | [] => Ok []
  | t :: l' => try v <- unmarshal_text t; try vs <- decode_all l'; Ok (v :: vs)
  end.

(** [if n == 0 { return ErrNotFound }]. *)
Definition need_one (n : Z) : RM unit := if (n =? 0)%Z then merr (RStorage ErrNotFound) else mok tt.

(** *** UserStore *)

Definition CreateUser (user : User) : RM unit :=
  do ok <- SetNX (userKey (Username user)) (marshal_text user);
  if negb ok then merr (RStorage ErrUserExists) else mok tt.

Definition GetUser (username : string) : RM User := do o <- Get (userKey username); decode o.

Definition UpdateUser (now : time) (user : User) : RM unit :=
  let key := userKey (Username user) in
  do exists_ <- Exists key;
  do_ need_one exists_;
  let user := mkUser (Username user) (Password user) (Salt user) (Iterations user)
                (ServerKey user) (StoredKey user) (u_CreatedAt user) now in
  Set_ key (marshal_text user).

Definition DeleteUser (username : string) : RM unit := do n <- Del (userKey username); need_one n.

Definition UserExists (username : string) : RM bool :=
  do n <- Exists (userKey username); mok (0 <? n)%Z.

Definition Authenticate (username password : string) : RM bool :=
  λ r, match GetUser username r with
       | (r', Ok user) => (r', if bool_decide (Password user ≠ password) then Err (RStorage ErrAuthFailed) else Ok true)
       | (r', Err (RStorage ErrNotFound)) => (r', Err (RStorage ErrAuthFailed))
       | (r', Err e) => (r', Err e)
       | (r', Panic) => (r', Panic)
       end.

(** *** RosterStore *)

Definition UpsertRosterItem (item : RosterItem) : RM unit :=
  do_ HSet (rosterKey (r_UserJID item)) (ContactJID item) (marshal_text item); mok tt.
Definition GetRosterItem (userJID contactJID : string) : RM RosterItem :=
  do o <- HGet (rosterKey userJID) contactJID; decode o.
Definition GetRosterItems (it : iteration) (userJID : string) : RM (list RosterItem) :=
  do data <- HGetAll (rosterKey userJID); mlift (decode_all (visit it data).*2).
Definition DeleteRosterItem (userJID contactJID : string) : RM unit :=
  do n <- HDel (rosterKey userJID) contactJID; need_one n.

(** A value that was stored as it is. *)
Definition raw_of (t : text) : RM bytes := match t with Raw_text b => mok b | Json_text _ => merr RJson end.

Definition GetRosterVersion (userJID : string) : RM string :=
  do o <- Get (rosterVerKey userJID);
  match o with
  | None => mok ""%string
  | Some t => do b <- raw_of t; mok (string_of_list_ascii b)
  end.
Definition SetRosterVersion (userJID version : string) : RM unit :=
  Set_ (rosterVerKey userJID) (Raw_text (list_ascii_of_string version)).

(** *** BlockingStore *)

Definition BlockJID (userJID blockedJID : string) : RM unit := do_ SAdd (blockedKey userJID) blockedJID; mok tt.
Definition UnblockJID (userJID blockedJID : string) : RM unit := do_ SRem (blockedKey userJID) blockedJID; mok tt.
Definition IsBlocked (userJID blockedJID : string) : RM bool := SIsMember (blockedKey userJID) blockedJID.
Definition GetBlockedJIDs (userJID : string) : RM (list string) := SMembers (blockedKey userJID).

(** *** VCardStore *)

Definition SetVCard (userJID : string) (data : bytes) : RM unit := Set_ (vcardKey userJID) (Raw_text data).
Definition GetVCard (userJID : string) : RM bytes :=
  do o <- Get (vcardKey userJID);
  match o with None => merr (RStorage ErrNotFound) | Some t => raw_of t end.
Definition DeleteVCard (userJID : string) : RM unit := do n <- Del (vcardKey userJID); need_one n.

(** *** OfflineStore *)

Definition StoreOfflineMessage (msg : OfflineMessage) : RM unit :=
  do_ RPush (offlineKey (o_UserJID msg)) (marshal_text msg); mok tt.
Definition GetOfflineMessages (userJID : string) : RM (list OfflineMessage) :=
  do data <- LRange (offlineKey userJID); mlift (decode_all data).
Definition DeleteOfflineMessages (userJID : string) : RM unit := do_ Del (offlineKey userJID); mok tt.
Definition CountOfflineMessages (userJID : string) : RM Z := LLen (offlineKey userJID).

(** *** MAMStore *)

(** [time.UnixNano], at the width of [int64]. *)
Definition unix_epoch : Z := 62135596800000000000.
Definition i64 (z : Z) : Z := ((z + 2 ^ 63) mod 2 ^ 64 - 2 ^ 63)%Z.
Definition UnixNano (t : time) : Z := i64 (t - unix_epoch).

(** [float64] of an [int64]: the nearest number of 53 significant bits, the even
    one of two. *)
Definition float64 (z : Z) : Z :=
  let a := Z.abs z in
  let e := Z.max 0 (Z.log2 a - 52) in
  let q := Z.shiftr a e in
  let rest := (a - Z.shiftl q e)%Z in
  let half := Z.shiftr (Z.shiftl 1 e) 1 in
  let q' := if (0 <? e)%Z && ((half <? rest)%Z || ((rest =? half)%Z && Z.odd q)) then (q + 1)%Z else q in
  (Z.sgn z * Z.shiftl q' e)%Z.

Definition score (t : time) : Z := float64 (UnixNano t).

Definition stamped_message (now : time) (m : ArchivedMessage) : ArchivedMessage :=
  mkArchived (a_ID m) (a_UserJID m) (a_WithJID m) (a_FromJID m) (a_Data m) (stamp now (a_CreatedAt m)).

Definition ArchiveMessage (now : time) (msg : ArchivedMessage) : RM unit :=
  let msg := if IsZero (a_CreatedAt msg)
             then mkArchived (a_ID msg) (a_UserJID msg) (a_WithJID msg) (a_FromJID msg) (a_Data msg) now
             else msg in
  pipeline [KZAdd (mamKey (a_UserJID msg)) (score (a_CreatedAt msg)) (a_ID msg);
            KSet (mamMsgKey (a_UserJID msg) (a_ID msg)) (marshal_text msg)].

(** The loop over the identifiers, with the messages collected so far. *)
Fixpoint query_loop (q : MAMQuery) (max : Z) (afterIDFound : bool) (msgs : list ArchivedMessage)
    (ids : list string) : RM (list ArchivedMessage) :=
  match ids with
  | [] => mok msgs
  | id :: rest =>
      if negb afterIDFound then query_loop q max (bool_decide (id = q_AfterID q)) msgs rest
      else if negb (bool_decide (q_BeforeID q = ""%string)) && bool_decide (id = q_BeforeID q) then mok msgs
      else
        do o <- Get (mamMsgKey (q_UserJID q) id);
        match o with
        | None => query_loop q max true msgs rest
        | Some data =>
            do msg <- mlift (unmarshal_text (T := ArchivedMessage) data);
            if negb (bool_decide (q_WithJID q = ""%string)) && negb (bool_decide (a_WithJID msg = q_WithJID q))
            then query_loop q max true msgs rest
            else if negb (IsZero (q_Start q)) && (a_CreatedAt msg <? q_Start q)%Z
            then query_loop q max true msgs rest
            else if negb (IsZero (q_End q)) && (q_End q <? a_CreatedAt msg)%Z
            then query_loop q max true msgs rest
            else
              let msgs := msgs ++ [msg] in
              if (max <? Z.of_nat (length msgs))%Z then mok msgs else query_loop q max true msgs rest
        end
  end.

Definition QueryMessages (q : MAMQuery) : RM MAMResult :=
  let max := if (q_Max q <=? 0)%Z then 100%Z else q_Max q in
  do ids <- ZRangeByScore (mamKey (q_UserJID q));
  do msgs <- query_loop q max (bool_decide (q_AfterID q = ""%string)) [] ids;
  let complete := (Z.of_nat (length msgs) <=? max)%Z in
  let msgs := if (max <? Z.of_nat (length msgs))%Z then take (Z.to_nat max) msgs else msgs in
  mok (mkMAMResult msgs complete
         (match msgs with m :: _ => a_ID m | [] => ""%string end)
         (match last msgs with Some m => a_ID m | None => ""%string end)
         (Z.of_nat (length msgs))).

Definition DeleteMessageArchive (userJID : string) : RM unit :=
  do ids <- ZRange (mamKey userJID);
  pipeline (map (λ id, KDel (mamMsgKey userJID id)) ids ++ [KDel (mamKey userJID)]).

(** *** MUCRoomStore *)

Definition CreateRoom (room : MUCRoom) : RM unit :=
  do ok <- SetNX (mucRoomKey (m_RoomJID room)) (marshal_text room);
  if negb ok then merr (RStorage ErrUserExists)
  else drop (SAdd mucRoomsSetKey (m_RoomJID room)).
Definition GetRoom (roomJID : string) : RM MUCRoom := do o <- Get (mucRoomKey roomJID); decode o.
Definition UpdateRoom (room : MUCRoom) : RM unit :=
  let key := mucRoomKey (m_RoomJID room) in
  do exists_ <- Exists key;
  do_ need_one exists_;
  Set_ key (marshal_text room).
Definition DeleteRoom (roomJID : string) : RM unit :=
  do n <- Del (mucRoomKey roomJID);
  do_ need_one n;
  do_ drop (SRem mucRoomsSetKey roomJID);
  drop (Del (mucAffKey roomJID)).

(** [for _, x := range xs { v, err := get(x); if err != nil { continue }; ... }]. *)
Fixpoint collect {A B} (get : A → RM B) (l : list A) : RM (list B) :=
  match l with
  | [] => mok []
  | x :: l' =>
      λ r, let '(r', v) := get x r in
           match v with
           | Ok v => (do vs <- collect get l'; mok (v :: vs)) r'
           | Err _ => collect get l' r'
           | Panic => (r', Panic)
           end
  end.

Definition ListRooms : RM (list MUCRoom) := do jids <- SMembers mucRoomsSetKey; collect GetRoom jids.
Definition SetAffiliation (aff : MUCAffiliation) : RM unit :=
  do_ HSet (mucAffKey (f_RoomJID aff)) (f_UserJID aff) (marshal_text aff); mok tt.
Definition GetAffiliation (roomJID userJID : string) : RM MUCAffiliation :=
  do o <- HGet (mucAffKey roomJID) userJID; decode o.
Definition GetAffiliations (it : iteration) (roomJID : string) : RM (list MUCAffiliation) :=
  do data <- HGetAll (mucAffKey roomJID); mlift (decode_all (visit it data).*2).
Definition RemoveAffiliation (roomJID userJID : string) : RM unit :=
  do_ HDel (mucAffKey roomJID) userJID; mok tt.

(** *** PubSubStore *)

Definition CreateNode (node : PubSubNode) : RM unit :=
  do ok <- SetNX (pubsubNodeKey (n_Host node) (n_NodeID node)) (marshal_text node);
  if negb ok then merr (RStorage ErrUserExists)
  else drop (SAdd (pubsubNodesKey (n_Host node)) (n_NodeID node)).
Definition GetNode (host nodeID : string) : RM PubSubNode := do o <- Get (pubsubNodeKey host nodeID); decode o.

(** [ids, _ := s.rdb.SMembers(...).Result()]: nil on an error. *)
Definition or_nil {A} (p : RM (list A)) : RM (list A) :=
  λ r, let '(r', x) := p r in (r', match x with Err _ => Ok [] | _ => x end).

Definition DeleteNode (host nodeID : string) : RM unit :=
  do n <- Del (pubsubNodeKey host nodeID);
  do_ need_one n;
  do_ drop (SRem (pubsubNodesKey host) nodeID);
  do itemIDs <- or_nil (SMembers (pubsubItemsKey host nodeID));
  let pipe := map (λ itemID, KDel (pubsubItemKey host nodeID itemID)) itemIDs ++ [KDel (pubsubItemsKey host nodeID)] in
  do subJIDs <- or_nil (HKeys (pubsubSubsKey host nodeID));
  let pipe := pipe ++ map (λ jid, KSRem (pubsubUserSubsKey host jid) nodeID) subJIDs in
  pipeline (pipe ++ [KDel (pubsubSubsKey host nodeID)]).
Definition ListNodes (host : string) : RM (list PubSubNode) :=
  do nodeIDs <- SMembers (pubsubNodesKey host); collect (GetNode host) nodeIDs.

Definition UpsertItem (now : time) (item : PubSubItem) : RM unit :=
  let item := if IsZero (i_CreatedAt item)
              then mkItem (i_Host item) (i_NodeID item) (i_ItemID item) (Publisher item) (i_Payload item) now
              else item in
  pipeline [KSet (pubsubItemKey (i_Host item) (i_NodeID item) (i_ItemID item)) (marshal_text item);
            KSAdd (pubsubItemsKey (i_Host item) (i_NodeID item)) (i_ItemID item)].
Definition GetItem (host nodeID itemID : string) : RM PubSubItem :=
  do o <- Get (pubsubItemKey host nodeID itemID); decode o.
Definition GetItems (host nodeID : string) : RM (list PubSubItem) :=
  do itemIDs <- SMembers (pubsubItemsKey host nodeID); collect (GetItem host nodeID) itemIDs.
Definition DeleteItem (host nodeID itemID : string) : RM unit :=
  do n <- Del (pubsubItemKey host nodeID itemID);
  do_ need_one n;
  drop (SRem (pubsubItemsKey host nodeID) itemID).

Definition Subscribe (sub : PubSubSubscription) : RM unit :=
  pipeline [KHSet (pubsubSubsKey (s_Host sub) (s_NodeID sub)) (s_JID sub) (marshal_text sub);
            KSAdd (pubsubUserSubsKey (s_Host sub) (s_JID sub)) (s_NodeID sub)].
Definition Unsubscribe (host nodeID jid : string) : RM unit :=
  pipeline [KHDel (pubsubSubsKey host nodeID) jid; KSRem (pubsubUserSubsKey host jid) nodeID].
Definition GetSubscription (host nodeID jid : string) : RM PubSubSubscription :=
  do o <- HGet (pubsubSubsKey host nodeID) jid; decode o.
Definition GetSubscriptions (it : iteration) (host nodeID : string) : RM (list PubSubSubscription) :=
  do data <- HGetAll (pubsubSubsKey host nodeID); mlift (decode_all (visit it data).*2).
Definition GetUserSubscriptions (host jid : string) : RM (list PubSubSubscription) :=
  do nodeIDs <- SMembers (pubsubUserSubsKey host jid); collect (λ nodeID, GetSubscription host nodeID jid) nodeIDs.

(** *** BookmarkStore *)

Definition SetBookmark (bm : Bookmark) : RM unit :=
  do_ HSet (bookmarkKey (b_UserJID bm)) (b_RoomJID bm) (marshal_text bm); mok tt.
Definition GetBookmark (userJID roomJID : string) : RM Bookmark :=
  do o <- HGet (bookmarkKey userJID) roomJID; decode o.
Definition GetBookmarks (it : iteration) (userJID : string) : RM (list Bookmark) :=
  do data <- HGetAll (bookmarkKey userJID); mlift (decode_all (visit it data).*2).
Definition DeleteBookmark (userJID roomJID : string) : RM unit :=
  do n <- HDel (bookmarkKey userJID) roomJID; need_one n.

(** ** Calls *)

Definition answer_of {A} (f : A → answer) (r : res redis_error A) : answer :=
  match r with Ok a => f a | Err (RStorage e) => AErr e | Err _ => AFailed | Panic => APanic end.
Definition run1 {A} (f : A → answer) (p : RM A) : R → R * answer :=
  λ r, let '(r', x) := p r in (r', answer_of f x).
Notation unit_of := (λ _ : unit, AUnit).

Definition exec (now : time) (it : iteration) (c : call) : R → R * answer :=
  match c with
  | CCreateUser u => run1 unit_of (CreateUser u)
  | CGetUser n => run1 AUser (GetUser n)
  | CUpdateUser u => run1 unit_of (UpdateUser now u)
  | CDeleteUser n => run1 unit_of (DeleteUser n)
  | CUserExists n => run1 ABool (UserExists n)
  | CAuthenticate n p => run1 ABool (Authenticate n p)
  | CUpsertRosterItem i => run1 unit_of (UpsertRosterItem i)
  | CGetRosterItem u c => run1 ARoster (GetRosterItem u c)
  | CGetRosterItems u => run1 ARosters (GetRosterItems it u)
  | CDeleteRosterItem u c => run1 unit_of (DeleteRosterItem u c)
  | CGetRosterVersion u => run1 AStr (GetRosterVersion u)
  | CSetRosterVersion u v => run1 unit_of (SetRosterVersion u v)
  | CBlockJID u j => run1 unit_of (BlockJID u j)
  | CUnblockJID u j => run1 unit_of (UnblockJID u j)
  | CIsBlocked u j => run1 ABool (IsBlocked u j)
  | CGetBlockedJIDs u => run1 AStrs (GetBlockedJIDs u)
  | CSetVCard u d => run1 unit_of (SetVCard u d)
  | CGetVCard u => run1 ABytes (GetVCard u)
  | CDeleteVCard u => run1 unit_of (DeleteVCard u)
  | CStoreOfflineMessage m => run1 unit_of (StoreOfflineMessage m)
  | CGetOfflineMessages u => run1 AOffline (GetOfflineMessages u)
  | CDeleteOfflineMessages u => run1 unit_of (DeleteOfflineMessages u)
  | CCountOfflineMessages u => run1 ACount (CountOfflineMessages u)
  | CArchiveMessage m => run1 unit_of (ArchiveMessage now m)
  | CQueryMessages q => run1 AMAM (QueryMessages q)
  | CDeleteMessageArchive u => run1 unit_of (DeleteMessageArchive u)
  | CCreateRoom r => run1 unit_of (CreateRoom r)
  | CGetRoom r => run1 ARoom (GetRoom r)
  | CUpdateRoom r => run1 unit_of (UpdateRoom r)
  | CDeleteRoom r => run1 unit_of (DeleteRoom r)
  | CListRooms => run1 ARooms ListRooms
  | CSetAffiliation a => run1 unit_of (SetAffiliation a)
  | CGetAffiliation r u => run1 AAff (GetAffiliation r u)
  | CGetAffiliations r => run1 AAffs (GetAffiliations it r)
  | CRemoveAffiliation r u => run1 unit_of (RemoveAffiliation r u)
  | CCreateNode n => run1 unit_of (CreateNode n)
  | CGetNode h n => run1 ANode (GetNode h n)
  | CDeleteNode h n => run1 unit_of (DeleteNode h n)
  | CListNodes h => run1 ANodes (ListNodes h)
  | CUpsertItem i => run1 unit_of (UpsertItem now i)
  | CGetItem h n i => run1 AItem (GetItem h n i)
  | CGetItems h n => run1 AItems (GetItems h n)
  | CDeleteItem h n i => run1 unit_of (DeleteItem h n i)
  | CSubscribe b => run1 unit_of (Subscribe b)
  | CUnsubscribe h n j => run1 unit_of (Unsubscribe h n j)
  | CGetSubscription h n j => run1 ASub (GetSubscription h n j)
  | CGetSubscriptions h n => run1 ASubs (GetSubscriptions it h n)
  | CGetUserSubscriptions h j => run1 ASubs (GetUserSubscriptions h j)
  | CSetBookmark b => run1 unit_of (SetBookmark b)
  | CGetBookmark u r => run1 ABookmark (GetBookmark u r)
  | CGetBookmarks u => run1 ABookmarks (GetBookmarks it u)
  | CDeleteBookmark u r => run1 unit_of (DeleteBookmark u r)
  end.

(** The answers to a sequence of calls. *)
Fixpoint run (r : R) (calls : list (time * iteration * call)) : list answer :=
  match calls with
  | [] => []
  | (now, it, c) :: cs => let '(r', x) := exec now it c r in x :: run r' cs
  end.
End Store.

#[global] Arguments userKey : simpl never.
#[global] Arguments rosterKey : simpl never.
#[global] Arguments rosterVerKey : simpl never.
#[global] Arguments blockedKey : simpl never.
#[global] Arguments vcardKey : simpl never.
#[global] Arguments offlineKey : simpl never.
#[global] Arguments mamKey : simpl never.
#[global] Arguments mamMsgKey : simpl never.
#[global] Arguments mucRoomKey : simpl never.
#[global] Arguments mucRoomsSetKey : simpl never.
#[global] Arguments mucAffKey : simpl never.
#[global] Arguments pubsubNodeKey : simpl never.
#[global] Arguments pubsubNodesKey : simpl never.
#[global] Arguments pubsubItemKey : simpl never.
#[global] Arguments pubsubItemsKey : simpl never.
#[global] Arguments pubsubSubsKey : simpl never.
#[global] Arguments pubsubUserSubsKey : simpl never.
#[global] Arguments bookmarkKey : simpl never.

(** ** A server that is its keyspace *)

Definition default_reply (c : command) (m : keyspace) : reply :=
  match c with
  | KSetNX k _ => YBool (match m !! k with Some _ => false | None => true end)
  | KSet _ _ => YOk
  | KGet k => match m !! k with Some (RStr t) => YText t | _ => YNil end
  | KExists k | KDel k => found01 (m !! k)
  | KHSet k f _ => YInt (match hash_at m k !! f with Some _ => 0 | None => 1 end)
  | KHGet k f => match hash_at m k !! f with Some t => YText t | None => YNil end
  | KHGetAll k => YMap (hash_at m k)
  | KHDel k f => found01 (hash_at m k !! f)
  | KHKeys k => YStrs (map_to_list (hash_at m k)).*1
  | KSAdd k x => YInt (if bool_decide (x ∈ set_at m k) then 0 else 1)
  | KSRem k x => YInt (if bool_decide (x ∈ set_at m k) then 1 else 0)
  | KSIsMember k x => YBool (bool_decide (x ∈ set_at m k))
  | KSMembers k => YStrs (elements (set_at m k))
  | KRPush k _ => YInt (Z.of_nat (length (list_at m k)) + 1)
  | KLRange k => YTexts (list_at m k)
  | KLLen k => YInt (Z.of_nat (length (list_at m k)))
  | KZAdd k _ x => YInt (match zset_at m k !! x with Some _ => 0 | None => 1 end)
  | KZRangeByScore k | KZRange k => YStrs (merge_sort zle (map_to_list (zset_at m k))).*1
  end.

(** A command on a key of another kind fails. *)
#[export] Instance keyspace_server : Redis keyspace := λ c m,
  match needs c with
  | Some (k, t) => match m !! k with
                   | Some v => if match kind_of v, t with KStr, KStr | KHash, KHash | KSetT, KSetT | KListT, KListT | KZSet, KZSet => true | _, _ => false end
                               then (effect c m, default_reply c m) else (m, YFail)
                   | None => (effect c m, default_reply c m)
                   end
  | None => (effect c m, default_reply c m)
  end.

#[export] Instance keyspace_laws : RedisLaws keyspace id.
Proof.
  intros c m Ht. assert (rdo c m = (effect c m, default_reply c m)) as ->.
  { unfold rdo, keyspace_server, right_type, typed, id in *. destruct (needs c) as [[k t]|]; [|done].
    destruct (m !! k) as [v|]; [|done]. rewrite <- Ht. by destruct v. }
  split; [done|]. unfold id. destruct c; cbn [replies default_reply snd]; eauto.
  - exists (map_to_list (hash_at m k)).*1. split; [done|]. split; [apply NoDup_fst_map_to_list|]. intros x.
    rewrite list_elem_of_fmap. split.
    + intros ([k' v] & -> & Hv%elem_of_map_to_list). by exists v.
    + intros [v Hv%elem_of_map_to_list]. by exists (x, v).
  - exists (elements (set_at m k)). split; [done|]. split; [apply NoDup_elements|]. intros x. apply elem_of_elements.
Qed.
