(* ===== verification/RedisRefinement.v ===== *)
(** * The Redis store against the storage contract (src/storage/redis/redis.go)

    Over any server that behaves as documented, every sequence of calls of the
    Redis store is answered as [redis_spec] allows: the abstract machine of
    [Storage] with the four calls in which this backend differs from the others.
    Keys that are built from several names need a naming discipline (hosts, item
    identifiers and archive owners without a colon), and the last part shows why.
    The proofs go through a small weakest-precondition calculus on the keyspace. *)

From Stdlib Require Import Ascii String ZArith.
From S2P Require Import Prelude GoStrings Bytes Storage MemoryStorage StorageJson RedisStorage.

Open Scope list_scope.
Open Scope go_scope.

(** ** Keys: the family of a key is its text up to the second colon *)

Fixpoint upto_colon (s : string) : string :=
  match s with
  | EmptyString => EmptyString
  | String c s' => if bool_decide (c = ":"%char) then EmptyString else String c (upto_colon s')
  end.
Definition tag (k : string) : string := upto_colon (str_drop 5 k).

Lemma tag_ne k k' : tag k ≠ tag k' → k ≠ k'.
Proof. by intros H ->. Qed.

Notation no_colon s := (has_byte ":"%char s = false).

Lemma first_colon u u' x x' :
  no_colon u → no_colon u' → u +:+ String ":" x = u' +:+ String ":" x' → u = u' ∧ x = x'.
Proof.
  revert u'. induction u as [|c u IH]; intros [|c' u']; cbn; intros Hu Hu' E.
  - by injection E as ->.
  - injection E as <- _. done.
  - injection E as -> _. done.
  - injection E as <- E. apply orb_false_iff in Hu as [_ Hu], Hu' as [_ Hu'].
    by destruct (IH u' Hu Hu' E) as [-> ->].
Qed.

Lemma last_colon u u' x x' :
  no_colon x → no_colon x' → u +:+ String ":" x = u' +:+ String ":" x' → u = u' ∧ x = x'.
Proof.
  intros Hx Hx'. revert u'. induction u as [|c u IH]; intros [|c' u']; cbn; intros E.
  - by injection E as ->.
  - injection E as <- ->. rewrite has_byte_app in Hx. cbn in Hx. by rewrite orb_true_r in Hx.
  - injection E as -> <-. rewrite has_byte_app in Hx'. cbn in Hx'. by rewrite orb_true_r in Hx'.
  - injection E as <- E. by destruct (IH u' E) as [-> ->].
Qed.

Lemma prefix_inj p x y : p +:+ x = p +:+ y → x = y.
Proof. induction p as [|c p IH]; cbn; [done|]. intros [= E]. by apply IH. Qed.

Lemma mamMsgKey_inj u i u' i' :
  no_colon u → no_colon u' → mamMsgKey u i = mamMsgKey u' i' → u = u' ∧ i = i'.
Proof. intros Hu Hu' E%prefix_inj. by apply first_colon. Qed.
Lemma host_key_inj (key : string → string → string) p h n h' n' :
  (∀ x y, key x y = p +:+ x +:+ String ":" y) →
  no_colon h → no_colon h' → key h n = key h' n' → h = h' ∧ n = n'.
Proof. intros Hk Hu Hu'. rewrite !Hk. intros E%prefix_inj. by apply first_colon. Qed.
Definition pubsubNodeKey_inj h n h' n' := host_key_inj pubsubNodeKey "xmpp:ps_node:" h n h' n' (λ x y, eq_refl).
Definition pubsubItemsKey_inj h n h' n' := host_key_inj pubsubItemsKey "xmpp:ps_items:" h n h' n' (λ x y, eq_refl).
Definition pubsubSubsKey_inj h n h' n' := host_key_inj pubsubSubsKey "xmpp:ps_subs:" h n h' n' (λ x y, eq_refl).
Definition pubsubUserSubsKey_inj h n h' n' := host_key_inj pubsubUserSubsKey "xmpp:ps_usubs:" h n h' n' (λ x y, eq_refl).
Lemma pubsubItemKey_inj h n i h' n' i' :
  no_colon h → no_colon h' → no_colon i → no_colon i' →
  pubsubItemKey h n i = pubsubItemKey h' n' i' → h = h' ∧ n = n' ∧ i = i'.
Proof.
  intros Hh Hh' Hi Hi' E%prefix_inj. cbn in E. apply first_colon in E as [-> E]; [|done..].
  by destruct (last_colon n n' i i' Hi Hi' E) as [-> ->].
Qed.

(** ** What a command changes *)

Definition key_of (c : command) : string :=
  match c with
  | KSetNX k _ | KSet k _ | KGet k | KExists k | KDel k | KHSet k _ _ | KHGet k _ | KHGetAll k | KHDel k _
  | KHKeys k | KSAdd k _ | KSRem k _ | KSIsMember k _ | KSMembers k | KRPush k _ | KLRange k | KLLen k
  | KZAdd k _ _ | KZRangeByScore k | KZRange k => k
  end.

Lemma effect_other c m k : key_of c ≠ k → effect c m !! k = m !! k.
Proof.
  intros Hk. destruct c; cbn in *; unfold put_hash, put_set; repeat case_match;
    rewrite ?lookup_insert_ne, ?lookup_delete_ne by done; done.
Qed.

Definition effects (cs : list command) (m : keyspace) : keyspace := foldl (λ m c, effect c m) m cs.

Lemma effects_other cs m k : Forall (λ c, key_of c ≠ k) cs → effects cs m !! k = m !! k.
Proof.
  revert m. induction cs as [|c cs IH]; intros m; [done|]. intros [Hc Hcs]%Forall_cons.
  unfold effects in *. cbn. rewrite IH by done. by apply effect_other.
Qed.

Lemma effects_app cs cs' m : effects (cs ++ cs') m = effects cs' (effects cs m).
Proof. unfold effects. by rewrite foldl_app. Qed.

(** ** Values at a key *)

Definition text_is {T} `{Json T} (t : text) (v : T) : Prop := ∃ j, t = Json_text j ∧ unmarshal j = Some v.

Lemma marshal_text_is {T} `{Json T} (v : T) : json_ok v → text_is (marshal_text v) v.
Proof. intros (j & Hj & Hv)%json_roundtrip. exists j. unfold marshal_text. by rewrite Hj. Qed.

Lemma unmarshal_text_is {T} `{Json T} t (v : T) : text_is t v → unmarshal_text t = Ok v.
Proof. intros (j & -> & Hj). cbn. by rewrite Hj. Qed.

Definition opt_text_is {T} `{Json T} (t : option text) (v : option T) : Prop :=
  match v with Some v => ∃ t', t = Some t' ∧ text_is t' v | None => t = None end.

Definition str_is {T} `{Json T} (x : option rvalue) (v : option T) : Prop :=
  match v with Some v => ∃ t, x = Some (RStr t) ∧ text_is t v | None => x = None end.
Definition raw_is (x : option rvalue) (v : option bytes) : Prop := x = RStr ∘ Raw_text <$> v.

Definition as_hash (x : option rvalue) : gmap string text := match x with Some (RHash h) => h | _ => ∅ end.
Definition as_set (x : option rvalue) : gset string := match x with Some (RSet s) => s | _ => ∅ end.
Definition has_kind (x : option rvalue) (t : kind) : Prop := match x with Some v => kind_of v = t | None => True end.

Definition hash_is {T} `{Json T} (x : option rvalue) (f : string → option T) : Prop :=
  has_kind x KHash ∧ ∀ y, opt_text_is (as_hash x !! y) (f y).
Definition set_is (x : option rvalue) (P : string → Prop) : Prop :=
  has_kind x KSetT ∧ ∀ y, y ∈ as_set x ↔ P y.
Definition list_is {T} `{Json T} (x : option rvalue) (l : list T) : Prop :=
  match x with
  | Some (RList ts) => Forall2 text_is ts l
  | None => l = []
  | Some _ => False
  end.

Lemma str_is_set {T} `{Json T} (v : T) : json_ok v → str_is (Some (RStr (marshal_text v))) (Some v).
Proof. intros Hv%marshal_text_is. by exists (marshal_text v). Qed.
Lemma str_is_kind {T} `{Json T} x (v : option T) : str_is x v → has_kind x KStr.
Proof. destruct v; cbn; [by intros (? & -> & _)|by intros ->]. Qed.

Lemma hash_is_ext {T} `{Json T} x f f' : hash_is x f → (∀ y, f y = f' y) → hash_is x f'.
Proof. intros [Hk Hf] He. split; [done|]. intros y. by rewrite <- He. Qed.
Lemma set_is_ext x P P' : set_is x P → (∀ y, P y ↔ P' y) → set_is x P'.
Proof. intros [Hk Hf] He. split; [done|]. intros y. by rewrite <- He. Qed.

Lemma hash_is_insert {T} `{Json T} m k y (v : T) f :
  json_ok v → hash_is (m !! k) f →
  hash_is (effect (KHSet k y (marshal_text v)) m !! k) (λ z, if decide (y = z) then Some v else f z).
Proof.
  intros Hv [_ Hf]. cbn. rewrite lookup_insert_eq. split; [done|]. intros z. cbn. rewrite lookup_insert. case_decide.
  - exists (marshal_text v). split; [done|]. by apply marshal_text_is.
  - apply Hf.
Qed.
Lemma hash_is_delete {T} `{Json T} m k y (f : string → option T) :
  hash_is (m !! k) f → hash_is (effect (KHDel k y) m !! k) (λ z, if decide (y = z) then None else f z).
Proof.
  intros [_ Hf]. cbn. unfold put_hash, hash_at. change (match m !! k with Some (RHash h) => h | _ => ∅ end) with (as_hash (m !! k)).
  assert (∀ z, opt_text_is (delete y (as_hash (m !! k)) !! z) (if decide (y = z) then None else f z)) as Hd.
  { intros z. rewrite lookup_delete. case_decide; [done|apply Hf]. }
  case_bool_decide as E.
  - rewrite lookup_delete_eq. split; [done|]. intros z. specialize (Hd z). by rewrite E in Hd.
  - rewrite lookup_insert_eq. split; [done|]. exact Hd.
Qed.
Lemma set_is_add m k y P :
  set_is (m !! k) P → set_is (effect (KSAdd k y) m !! k) (λ z, z = y ∨ P z).
Proof.
  intros [_ Hf]. cbn. rewrite lookup_insert_eq. split; [done|]. intros z. cbn.
  rewrite elem_of_union, elem_of_singleton. by rewrite <- (Hf z).
Qed.
Lemma set_is_remove m k y P :
  set_is (m !! k) P → set_is (effect (KSRem k y) m !! k) (λ z, z ≠ y ∧ P z).
Proof.
  intros [_ Hf]. cbn. unfold put_set, set_at. change (match m !! k with Some (RSet s) => s | _ => ∅ end) with (as_set (m !! k)).
  assert (∀ z, z ∈ as_set (m !! k) ∖ {[y]} ↔ z ≠ y ∧ P z) as Hd.
  { intros z. rewrite elem_of_difference, elem_of_singleton, (Hf z). tauto. }
  case_bool_decide as E.
  - rewrite lookup_delete_eq. split; [done|]. intros z. specialize (Hd z). by rewrite E in Hd.
  - rewrite lookup_insert_eq. split; [done|]. exact Hd.
Qed.
Lemma set_is_none P : (∀ y, ¬ P y) → set_is None P.
Proof. intros HP. split; [done|]. intros y. cbn. specialize (HP y). set_solver. Qed.
Lemma hash_is_none {T} `{Json T} (f : string → option T) : (∀ y, f y = None) → hash_is None f.
Proof. intros Hf. split; [done|]. intros y. by rewrite Hf. Qed.

(** ** Weakest preconditions over the keyspace *)

Section Wp.
Context {R : Type} `{!Redis R} {contents : R → keyspace} `{!RedisLaws R contents}.

Notation RM A := (M R redis_error A).

Notation wp := (wp contents).

Lemma wp_drop {A} (p : RM A) m (Q : res redis_error unit → keyspace → Prop) :
  wp p m (λ _ m', Q (Ok tt) m') → wp (drop p) m Q.
Proof. intros Hp r Hr. exact (Hp r Hr). Qed.
Lemma wp_or_nil {A} (p : RM (list A)) m Q :
  wp p m (λ x m', Q (match x with Err _ => Ok [] | _ => x end) m') → wp (or_nil p) m Q.
Proof. intros Hp r Hr. specialize (Hp r Hr). unfold or_nil. by destruct (p r). Qed.

(** A command: what it needs, what it replies and what it does. *)
Lemma wp_cmd {A} c (f : reply → option A) m Q :
  right_type c m →
  (∀ y, replies c m y → Q (match f y with Some a => Ok a | None => Err RRedis end) (effect c m)) →
  wp (cmd c f) m Q.
Proof.
  intros Ht HQ r <-. destruct (redis_law c r Ht) as [He Hy]. unfold cmd. destruct (rdo c r) as [r' y]. cbn in *.
  rewrite He. by apply HQ.
Qed.

Lemma wp_Get k m Q :
  has_kind (m !! k) KStr → Q (Ok (match m !! k with Some (RStr t) => Some t | _ => None end)) m → wp (Get k) m Q.
Proof. intros Hk HQ. apply wp_cmd; [exact Hk|]. cbn. intros y ->. by destruct (m !! k) as [[]|]. Qed.

(** Reading a document by its key. *)
Lemma wp_Get_decode {T} `{Json T} k m (o : option T) (Q : res redis_error T → keyspace → Prop) :
  str_is (m !! k) o → Q (match o with Some v => Ok v | None => Err (RStorage ErrNotFound) end) m →
  wp (do o <- Get k; decode o) m Q.
Proof.
  intros Ho HQ. apply wp_bind, wp_Get; [by eapply str_is_kind|]. destruct o as [v|]; cbn in Ho.
  - destruct Ho as (t & -> & Ht). cbn. apply wp_lift. by rewrite (unmarshal_text_is _ _ Ht).
  - rewrite Ho. by apply wp_err.
Qed.

Lemma wp_HGet_decode {T} `{Json T} k y m (f : string → option T) (Q : res redis_error T → keyspace → Prop) :
  hash_is (m !! k) f → Q (match f y with Some v => Ok v | None => Err (RStorage ErrNotFound) end) m →
  wp (do o <- HGet k y; decode o) m Q.
Proof.
  intros [Hk Hf] HQ. apply wp_bind, wp_cmd; [exact Hk|]. cbn. unfold hash_at. intros ? ->. specialize (Hf y).
  change (match m !! k with Some (RHash h) => h | _ => ∅ end) with (as_hash (m !! k)).
  destruct (f y) as [v|]; cbn in Hf.
  - destruct Hf as (t & -> & Ht). cbn. apply wp_lift. by rewrite (unmarshal_text_is _ _ Ht).
  - rewrite Hf. by apply wp_err.
Qed.

Lemma wp_SetNX k v m Q :
  Q (Ok (match m !! k with Some _ => false | None => true end))
    (match m !! k with Some _ => m | None => <[k := RStr v]> m end) → wp (SetNX k v) m Q.
Proof. intros HQ. apply wp_cmd; [done|]. cbn. by intros y ->. Qed.

(** Creating a document: whether it was there, and the keyspace with it. *)
Lemma wp_create_doc {T A} `{Json T} k (v : T) (o : option T) m (p : bool → RM A) Q :
  str_is (m !! k) o →
  (match o with Some _ => wp (p false) m Q | None => wp (p true) (effect (KSet k (marshal_text v)) m) Q end) →
  wp (do ok <- SetNX k (marshal_text v); p ok) m Q.
Proof.
  intros Ho HQ. apply wp_bind, wp_SetNX. destruct o; cbn in Ho; [destruct Ho as (t' & -> & _)|rewrite Ho]; exact HQ.
Qed.

Lemma wp_Set k v m Q : Q (Ok tt) (effect (KSet k v) m) → wp (Set_ k v) m Q.
Proof. intros HQ. apply wp_cmd; [done|]. cbn. by intros y ->. Qed.
Lemma wp_Exists k m Q : Q (Ok (match m !! k with Some _ => 1 | None => 0 end)%Z) m → wp (Exists k) m Q.
Proof. intros HQ. apply wp_cmd; [done|]. cbn. by intros y ->. Qed.
Lemma wp_Del k m Q : Q (Ok (match m !! k with Some _ => 1 | None => 0 end)%Z) (effect (KDel k) m) → wp (Del k) m Q.
Proof. intros HQ. apply wp_cmd; [done|]. cbn. by intros y ->. Qed.

(** A change that needs the entry to be there. *)
Lemma wp_Exists_need {T A} `{Json T} k (o : option T) m (p : RM A) Q :
  str_is (m !! k) o →
  (match o with Some _ => wp p m Q | None => Q (Err (RStorage ErrNotFound)) m end) →
  wp (do n <- Exists k; do_ need_one n; p) m Q.
Proof.
  intros Ho HQ. apply wp_bind, wp_Exists, wp_bind. unfold need_one.
  destruct o; cbn in Ho; [destruct Ho as (t' & -> & _)|rewrite Ho]; cbn; [by apply wp_ok|by apply wp_err].
Qed.
Lemma wp_Del_need {T A} `{Json T} k (o : option T) m (p : RM A) Q :
  str_is (m !! k) o →
  (match o with Some _ => wp p (effect (KDel k) m) Q | None => Q (Err (RStorage ErrNotFound)) m end) →
  wp (do n <- Del k; do_ need_one n; p) m Q.
Proof.
  intros Ho HQ. apply wp_bind, wp_Del, wp_bind. unfold need_one.
  destruct o; cbn in Ho; [destruct Ho as (t' & -> & _); cbn; by apply wp_ok|].
  rewrite Ho. cbn. apply wp_err. by rewrite delete_id.
Qed.

Lemma wp_HSet k f v m Q :
  has_kind (m !! k) KHash → Q (Ok tt) (effect (KHSet k f v) m) → wp (do_ HSet k f v; mok tt) m Q.
Proof. intros Hk HQ. apply wp_bind, wp_cmd; [exact Hk|]. intros y (n & ->). cbn. by apply wp_ok. Qed.
Lemma wp_HDel_need {T} `{Json T} k y m (f : string → option T) Q :
  hash_is (m !! k) f →
  Q (match f y with Some _ => Ok tt | None => Err (RStorage ErrNotFound) end) (effect (KHDel k y) m) →
  wp (do n <- HDel k y; need_one n) m Q.
Proof.
  intros [Hk Hf] HQ. apply wp_bind, wp_cmd; [exact Hk|]. cbn. unfold hash_at, found01. intros ? ->. specialize (Hf y).
  change (match m !! k with Some (RHash h) => h | _ => ∅ end) with (as_hash (m !! k)). unfold need_one.
  destruct (f y); cbn in Hf; [destruct Hf as (? & -> & _); cbn; by apply wp_ok|rewrite Hf; cbn; by apply wp_err].
Qed.
Lemma wp_HDel k y m Q :
  has_kind (m !! k) KHash → Q (Ok tt) (effect (KHDel k y) m) → wp (do_ HDel k y; mok tt) m Q.
Proof. intros Hk HQ. apply wp_bind, wp_cmd; [exact Hk|]. cbn. intros ? ->. cbn. by apply wp_ok. Qed.

Lemma wp_SAdd k y m Q : has_kind (m !! k) KSetT → (∀ n, Q (Ok n) (effect (KSAdd k y) m)) → wp (SAdd k y) m Q.
Proof. intros Hk HQ. apply wp_cmd; [exact Hk|]. intros ? (n & ->). apply HQ. Qed.
Lemma wp_SRem k y m Q : has_kind (m !! k) KSetT → (∀ n, Q (Ok n) (effect (KSRem k y) m)) → wp (SRem k y) m Q.
Proof. intros Hk HQ. apply wp_cmd; [exact Hk|]. intros ? (n & ->). apply HQ. Qed.
Lemma wp_SMembers k m P Q :
  set_is (m !! k) P → (∀ l, NoDup l → (∀ y, y ∈ l ↔ P y) → Q (Ok l) m) → wp (SMembers k) m Q.
Proof.
  intros [Hk HP] HQ. apply wp_cmd; [exact Hk|]. cbn. intros ? (l & -> & Hn & Hl). apply HQ; [done|].
  intros y. rewrite Hl. apply HP.
Qed.
Lemma wp_HKeys {T} `{Json T} k m (f : string → option T) Q :
  hash_is (m !! k) f → (∀ l, NoDup l → (∀ y, y ∈ l ↔ is_Some (f y)) → Q (Ok l) m) → wp (HKeys k) m Q.
Proof.
  intros [Hk Hf] HQ. apply wp_cmd; [exact Hk|]. cbn. intros ? (l & -> & Hn & Hl). apply HQ; [done|].
  intros y. rewrite Hl. specialize (Hf y). unfold hash_at.
  change (match m !! k with Some (RHash h) => h | _ => ∅ end) with (as_hash (m !! k)).
  destruct (f y); cbn in Hf; [destruct Hf as (? & -> & _); by split; eauto|rewrite Hf; by split; intros [? ?]].
Qed.

(** *** Pipelines *)

Fixpoint pipe_typed (cs : list command) (m : keyspace) : Prop :=
  match cs with [] => True | c :: cs' => right_type c m ∧ pipe_typed cs' (effect c m) end.

Lemma replies_not_failed c m y : replies c m y → reply_failed y = false.
Proof.
  destruct c; cbn; intros Hy; repeat match goal with H : ∃ _, _ |- _ => destruct H | H : _ ∧ _ |- _ => destruct H end;
    subst y; try done; repeat case_match; done.
Qed.

Lemma wp_pipeline cs m Q : pipe_typed cs m → Q (Ok tt) (effects cs m) → wp (pipeline cs) m Q.
Proof.
  revert m. induction cs as [|c cs IH]; intros m; [intros _; by apply wp_ok|]. intros [Hc Hcs] HQ r <-.
  destruct (redis_law c r Hc) as [He Hy%replies_not_failed]. cbn. destruct (rdo c r) as [r' y]. cbn in *. rewrite Hy.
  specialize (IH _ Hcs HQ r' He). by destruct (pipeline cs r').
Qed.

(** *** Listings *)

Lemma wp_collect {A B} (get : A → RM B) (f : A → option B) l m Q :
  (∀ x Q', x ∈ l → Q' (match f x with Some v => Ok v | None => Err (RStorage ErrNotFound) end) m → wp (get x) m Q') →
  Q (Ok (omap f l)) m → wp (collect get l) m Q.
Proof.
  revert Q. induction l as [|x l IH]; intros Q Hget HQ; [by apply wp_ok|]. intros r Hr. cbn.
  assert (∀ Q, Q (Ok (omap f l)) m → wp (collect get l) m Q) as IH' by (intros Q'; apply IH; intros; apply Hget; [by right|done]).
  specialize (Hget x (λ v m', m' = m ∧ v = match f x with Some v => Ok v | None => Err (RStorage ErrNotFound) end)
                (list_elem_of_here _ _) (conj eq_refl eq_refl) r Hr).
  destruct (get x r) as [r' v]. cbn in Hget, HQ. destruct Hget as [Hm ->]. destruct (f x) as [v|]; [|by apply IH'].
  unfold mbnd. specialize (IH' (λ o m', m' = m ∧ o = Ok (omap f l)) (conj eq_refl eq_refl) r' Hm).
  destruct (collect get l r') as [r'' o]. cbn in IH'. destruct IH' as [Hm' ->]. cbn. by rewrite Hm'.
Qed.
End Wp.

Lemma omap_lists_keys {T} (f : string → option T) l :
  NoDup l → (∀ y, y ∈ l ↔ is_Some (f y)) → lists f (omap f l).
Proof.
  intros Hn Hl. exists (omap (λ y, pair y <$> f y) l). split_and!.
  - clear. induction l as [|y l IH]; cbn; [done|]. destruct (f y); cbn; [by rewrite <- IH|done].
  - clear Hl. induction Hn as [|y l Hy Hn IH]; cbn; [constructor|]. destruct (f y) as [v|]; cbn; [|done].
    constructor; [|done]. intros ([k v'] & -> & (z & Hz & Hzv)%list_elem_of_omap)%list_elem_of_fmap. cbn in Hy.
    by destruct (f z); cbn in Hzv; simplify_eq.
  - intros k v. rewrite list_elem_of_omap. split.
    + intros (y & _ & Hy). by destruct (f y) eqn:E; cbn in Hy; simplify_eq.
    + intros Hk. exists k. split; [apply Hl; eauto|]. by rewrite Hk.
Qed.

Lemma decode_all_is {T} `{Json T} ts (vs : list T) : Forall2 text_is ts vs → decode_all ts = Ok vs.
Proof. induction 1 as [|t v ts vs Ht Hts IH]; cbn; [done|]. by rewrite (unmarshal_text_is _ _ Ht), IH. Qed.

Lemma hash_listing {T} `{Json T} it x (f : string → option T) :
  iteration_ok it → hash_is x f → ∃ l, decode_all (visit it (as_hash x)).*2 = Ok l ∧ lists f l.
Proof.
  intros Hit [_ Hf]. set (kl := visit it (as_hash x)). assert (iter_order (as_hash x) kl) as Hkl by apply Hit.
  exists (omap f kl.*1). split.
  - apply decode_all_is. assert (∀ k t, (k, t) ∈ kl → as_hash x !! k = Some t) as Hin
      by (intros k t; apply (iter_order_lookup _ kl k t Hkl)).
    clear Hkl. revert Hin. generalize kl. intros l. induction l as [|[k t] l IH]; intros Hin; cbn; [done|].
    specialize (Hf k) as Hk. rewrite (Hin k t) in Hk by (left; done).
    destruct (f k) as [v|]; cbn in Hk; [|done]. destruct Hk as (t' & [= <-] & Ht). constructor; [done|].
    apply IH. intros k' t'' Hk'. apply Hin. by right.
  - apply omap_lists_keys; [by eapply iter_order_NoDup_fst|]. intros y. rewrite list_elem_of_fmap. specialize (Hf y). split.
    + intros ([k t] & -> & Hk%(iter_order_lookup _ kl _ _ Hkl)). cbn in *. rewrite Hk in Hf. destruct (f k); [eauto|done].
    + intros [v Hv]. rewrite Hv in Hf. destruct Hf as (t & Hy & _). exists (y, t). split; [done|].
      by apply (iter_order_lookup _ kl _ _ Hkl).
Qed.

(** ** Archives: sorted by the rounded time and the identifier, which is a key *)

Definition zentry (x : ArchivedMessage) : string * Z := (a_ID x, score (a_CreatedAt x)).
Definition mam_le (x y : ArchivedMessage) : Prop := zle (zentry x) (zentry y).

#[export] Instance mam_le_dec : RelDecision mam_le.
Proof. intros x y. unfold mam_le. apply _. Defined.
#[export] Instance zle_trans : Transitive zle.
Proof. intros [a x] [b y] [c z]. unfold zle. cbn. intros [?|[-> ?]] [?|[<- ?]]; [left; lia|by left..|]. right. split; [done|]. by etrans. Qed.
#[export] Instance zle_total : Total zle.
Proof.
  intros [a x] [b y]. unfold zle. cbn. destruct (Z.lt_trichotomy x y) as [?|[->|?]]; [by left; left| |by right; left].
  destruct (total str_le a b); [left|right]; right; done.
Qed.
#[export] Instance zle_antisymm : AntiSymm eq zle.
Proof.
  intros [a x] [b y]. unfold zle. cbn. intros [?|[-> Hab]] [?|[? Hba]]; try lia. f_equal. by apply (anti_symm str_le).
Qed.
#[export] Instance mam_le_trans : Transitive mam_le.
Proof. intros x y z. unfold mam_le. apply zle_trans. Qed.
#[export] Instance mam_le_total : Total mam_le.
Proof. intros x y. unfold mam_le. apply zle_total. Qed.

(** What archiving does to an archive: a message with the identifier is replaced. *)
Definition place (x : ArchivedMessage) (l : list ArchivedMessage) : list ArchivedMessage :=
  merge_sort mam_le (x :: filter (λ y, a_ID y ≠ a_ID x) l).

Definition by_id (l : list ArchivedMessage) : gmap string ArchivedMessage :=
  list_to_map ((λ x, (a_ID x, x)) <$> l).

Lemma by_id_perm l l' : NoDup (a_ID <$> l) → l ≡ₚ l' → by_id l = by_id l'.
Proof.
  intros Hn Hp. apply list_to_map_proper; [|by rewrite Hp]. by rewrite <- list_fmap_compose.
Qed.

Lemma by_id_lookup l id x :
  NoDup (a_ID <$> l) → by_id l !! id = Some x ↔ x ∈ l ∧ a_ID x = id.
Proof.
  intros Hn. unfold by_id. rewrite <- elem_of_list_to_map by (by rewrite <- list_fmap_compose).
  rewrite list_elem_of_fmap. split; [by intros (y & [= -> ->] & Hy)|]. intros [Hx <-]. by exists x.
Qed.

Lemma by_id_filter l id : NoDup (a_ID <$> l) → by_id (filter (λ y, a_ID y ≠ id) l) = delete id (by_id l).
Proof.
  intros Hn. assert (NoDup (a_ID <$> filter (λ y, a_ID y ≠ id) l)) as Hn'.
  { eapply sublist_NoDup; [exact Hn|]. apply fmap_sublist, sublist_filter. }
  apply map_eq. intros k. apply option_eq. intros x.
  rewrite (by_id_lookup _ _ _ Hn'), list_elem_of_filter, lookup_delete_Some, (by_id_lookup _ _ _ Hn). naive_solver.
Qed.

Lemma place_perm x l : place x l ≡ₚ x :: filter (λ y, a_ID y ≠ a_ID x) l.
Proof. apply merge_sort_Permutation. Qed.

Lemma place_ids x l : NoDup (a_ID <$> l) → NoDup (a_ID <$> place x l).
Proof.
  intros Hn. rewrite place_perm. cbn. constructor.
  - intros (y & Hy & [Hf _]%list_elem_of_filter)%list_elem_of_fmap. by apply Hf.
  - eapply sublist_NoDup; [exact Hn|]. apply fmap_sublist, sublist_filter.
Qed.

Lemma by_id_place x l : NoDup (a_ID <$> l) → by_id (place x l) = <[a_ID x := x]> (by_id l).
Proof.
  intros Hn. rewrite (by_id_perm _ _ (place_ids x l Hn) (place_perm x l)).
  change (by_id (x :: filter (λ y, a_ID y ≠ a_ID x) l)) with (<[a_ID x := x]> (by_id (filter (λ y, a_ID y ≠ a_ID x) l))).
  by rewrite (by_id_filter _ _ Hn), insert_delete_eq.
Qed.

Definition as_zset (x : option rvalue) : gmap string Z := match x with Some (RZSet z) => z | _ => ∅ end.

Record archive_is (m : keyspace) (u : string) (l : list ArchivedMessage) : Prop := {
  ar_kind : has_kind (m !! mamKey u) KZSet;
  ar_scores : as_zset (m !! mamKey u) = (λ x, score (a_CreatedAt x)) <$> by_id l;
  ar_docs id : str_is (m !! mamMsgKey u id) (by_id l !! id);
  ar_sorted : Sorted mam_le l;
  ar_ids : NoDup (a_ID <$> l)
}.

Lemma archive_order m u l :
  archive_is m u l → (merge_sort zle (map_to_list (zset_at m (mamKey u)))).*1 = a_ID <$> l.
Proof.
  intros [_ Hz _ Hs Hn]. unfold zset_at. change (match m !! mamKey u with Some (RZSet z) => z | _ => ∅ end) with (as_zset (m !! mamKey u)).
  rewrite Hz. assert (merge_sort zle (map_to_list ((λ x, score (a_CreatedAt x)) <$> by_id l)) = zentry <$> l) as ->.
  - apply (Sorted_unique zle); [apply Sorted_merge_sort, _| |].
    + eapply Sorted_fmap; [|exact Hs]. done.
    + rewrite merge_sort_Permutation, map_to_list_fmap. unfold by_id.
      rewrite map_to_list_to_map by (by rewrite <- list_fmap_compose). by rewrite <- list_fmap_compose.
  - by rewrite <- list_fmap_compose.
Qed.

(** ** The contract as this backend keeps it

    Users and offline messages keep the times the caller gave them, archives
    are ordered by time and identifier, and items come in no particular order. *)
Definition redis_spec (now : time) (c : call) (a : spec) : spec * (answer → Prop) :=
  match c with
  | CCreateUser u =>
      match sp_users a !! Username u with
      | Some _ => (a, answers (AErr ErrUserExists))
      | None => (put_users (<[Username u := u]> (sp_users a)) a, answers AUnit)
      end
  | CStoreOfflineMessage x =>
      (put_offline (<[o_UserJID x := default [] (sp_offline a !! o_UserJID x) ++ [x]]> (sp_offline a)) a, answers AUnit)
  | CArchiveMessage x =>
      (put_mam (<[a_UserJID x := place (stamped_message now x) (default [] (sp_mam a !! a_UserJID x))]> (sp_mam a)) a,
       answers AUnit)
  | CGetItems h n => (a, λ r, ∃ l, r = AItems l ∧ lists (λ i, sp_items a !! (h, n, i)) l)
  | _ => spec_call now c a
  end.

(** The naming discipline, and records that JSON can hold. *)
Definition call_ok (now : time) (c : call) : Prop :=
  match c with
  | CCreateUser u => json_ok u
  | CUpdateUser u => json_ok (updated_user now u)
  | CUpsertRosterItem i => json_ok i
  | CStoreOfflineMessage x => json_ok x
  | CArchiveMessage x => json_ok (stamped_message now x) ∧ no_colon (a_UserJID x)
  | CQueryMessages q => no_colon (q_UserJID q)
  | CDeleteMessageArchive u => no_colon u
  | CCreateRoom r | CUpdateRoom r => json_ok r
  | CSetAffiliation f => json_ok f
  | CCreateNode n => json_ok n ∧ no_colon (n_Host n)
  | CGetNode h _ | CDeleteNode h _ | CListNodes h | CGetItems h _ | CUnsubscribe h _ _ | CGetSubscription h _ _
  | CGetSubscriptions h _ | CGetUserSubscriptions h _ => no_colon h
  | CUpsertItem i => json_ok (stamped_item now i) ∧ no_colon (i_Host i) ∧ no_colon (i_ItemID i)
  | CGetItem h _ i | CDeleteItem h _ i => no_colon h ∧ no_colon i
  | CSubscribe s => json_ok s ∧ no_colon (s_Host s)
  | CSetBookmark b => json_ok b
  | _ => True
  end.

(** ** What the keyspace stands for: one relation per interface *)

Definition users_rep (m : keyspace) (x : gmap string User) : Prop := ∀ u, str_is (m !! userKey u) (x !! u).
Definition roster_rep (m : keyspace) (x : gmap (string * string) RosterItem) : Prop :=
  ∀ u, hash_is (m !! rosterKey u) (λ c, x !! (u, c)).
Definition versions_rep (m : keyspace) (x : gmap string string) : Prop :=
  ∀ u, raw_is (m !! rosterVerKey u) (list_ascii_of_string <$> x !! u).
Record blocked_rep (m : keyspace) (x : gmap (string * string) bool) : Prop := {
  bl_set u : set_is (m !! blockedKey u) (λ j, is_Some (x !! (u, j)));
  bl_true k v : x !! k = Some v → v = true }.
Definition vcards_rep (m : keyspace) (x : gmap string bytes) : Prop := ∀ u, raw_is (m !! vcardKey u) (x !! u).
Definition offline_rep (m : keyspace) (x : gmap string (list OfflineMessage)) : Prop :=
  ∀ u, list_is (m !! offlineKey u) (default [] (x !! u)).
Definition mam_rep (m : keyspace) (x : gmap string (list ArchivedMessage)) : Prop :=
  ∀ u, no_colon u → archive_is m u (default [] (x !! u)).
Record rooms_rep (m : keyspace) (x : gmap string MUCRoom) : Prop := {
  rm_docs r : str_is (m !! mucRoomKey r) (x !! r);
  rm_set : set_is (m !! mucRoomsSetKey) (λ r, is_Some (x !! r)) }.
Definition affs_rep (m : keyspace) (x : gmap (string * string) MUCAffiliation) : Prop :=
  ∀ r, hash_is (m !! mucAffKey r) (λ u, x !! (r, u)).
Record nodes_rep (m : keyspace) (x : gmap (string * string) PubSubNode) : Prop := {
  nd_docs h n : no_colon h → str_is (m !! pubsubNodeKey h n) (x !! (h, n));
  nd_set h : set_is (m !! pubsubNodesKey h) (λ n, is_Some (x !! (h, n))) }.
Record items_rep (m : keyspace) (x : gmap (string * string * string) PubSubItem) : Prop := {
  it_docs h n i : no_colon h → no_colon i → str_is (m !! pubsubItemKey h n i) (x !! (h, n, i));
  it_ids h n i : is_Some (x !! (h, n, i)) → no_colon i;
  it_set h n : no_colon h → set_is (m !! pubsubItemsKey h n) (λ i, is_Some (x !! (h, n, i))) }.
Record subs_rep (m : keyspace) (x : gmap (string * string * string) PubSubSubscription) : Prop := {
  sb_docs h n : no_colon h → hash_is (m !! pubsubSubsKey h n) (λ j, x !! (h, n, j));
  sb_set h j : no_colon h → set_is (m !! pubsubUserSubsKey h j) (λ n, is_Some (x !! (h, n, j))) }.
Definition bookmarks_rep (m : keyspace) (x : gmap (string * string) Bookmark) : Prop :=
  ∀ u, hash_is (m !! bookmarkKey u) (λ r, x !! (u, r)).

Record rep (m : keyspace) (a : spec) : Prop := {
  rp_users : users_rep m (sp_users a); rp_roster : roster_rep m (sp_roster a);
  rp_versions : versions_rep m (sp_versions a); rp_blocked : blocked_rep m (sp_blocked a);
  rp_vcards : vcards_rep m (sp_vcards a); rp_offline : offline_rep m (sp_offline a);
  rp_mam : mam_rep m (sp_mam a); rp_rooms : rooms_rep m (sp_rooms a); rp_affs : affs_rep m (sp_affs a);
  rp_nodes : nodes_rep m (sp_nodes a); rp_items : items_rep m (sp_items a); rp_subs : subs_rep m (sp_subs a);
  rp_bookmarks : bookmarks_rep m (sp_bookmarks a) }.

(** *** The keys of the other families are left alone *)

Definition same_on (tags : list string) (m m' : keyspace) : Prop :=
  ∀ k, tag k ∈ tags → m' !! k = m !! k.
Definition keeps_but (tags : list string) (m m' : keyspace) : Prop :=
  ∀ k, tag k ∉ tags → m' !! k = m !! k.

Lemma keeps_same tags tags' m m' :
  keeps_but tags m m' → forallb (λ t, negb (bool_decide (t ∈ tags))) tags' = true → same_on tags' m m'.
Proof.
  intros Hk Hd k Hin. apply Hk. intros Hin'. rewrite forallb_forall in Hd.
  apply list_elem_of_In, Hd in Hin. by rewrite bool_decide_true in Hin.
Qed.

(** Keys of different families differ. *)
Ltac tags := apply tag_ne; cbn [key_of]; vm_compute; discriminate.

Section Frames.
Variables (m m' : keyspace).
Lemma users_frame x : same_on ["user"] m m' → users_rep m x → users_rep m' x.
Proof. intros Hs H u. rewrite Hs; [apply H|by left]. Qed.
Lemma roster_frame x : same_on ["roster"] m m' → roster_rep m x → roster_rep m' x.
Proof. intros Hs H u. rewrite Hs; [apply H|by left]. Qed.
Lemma versions_frame x : same_on ["roster_ver"] m m' → versions_rep m x → versions_rep m' x.
Proof. intros Hs H u. rewrite Hs; [apply H|by left]. Qed.
Lemma blocked_frame x : same_on ["blocked"] m m' → blocked_rep m x → blocked_rep m' x.
Proof. intros Hs [H1 H2]. split; [|done]. intros u. rewrite Hs; [apply H1|by left]. Qed.
Lemma vcards_frame x : same_on ["vcard"] m m' → vcards_rep m x → vcards_rep m' x.
Proof. intros Hs H u. rewrite Hs; [apply H|by left]. Qed.
Lemma offline_frame x : same_on ["offline"] m m' → offline_rep m x → offline_rep m' x.
Proof. intros Hs H u. rewrite Hs; [apply H|by left]. Qed.
Lemma archive_frame u l :
  m' !! mamKey u = m !! mamKey u → (∀ id, m' !! mamMsgKey u id = m !! mamMsgKey u id) →
  archive_is m u l → archive_is m' u l.
Proof. intros Hk Hd [H1 H2 H3 H4 H5]. split; rewrite ?Hk; try done. intros id. by rewrite Hd. Qed.
Lemma mam_frame x : same_on ["mam"; "mam_msg"] m m' → mam_rep m x → mam_rep m' x.
Proof.
  intros Hs H u Hu. apply archive_frame; [..|by apply H]; [|intros id]; apply Hs; [by left|]. right. by left.
Qed.
Lemma rooms_frame x : same_on ["muc_room"; "muc_rooms"] m m' → rooms_rep m x → rooms_rep m' x.
Proof. intros Hs [H1 H2]. split; [intros r|]; rewrite Hs; [apply H1|by left|apply H2|]. right. by left. Qed.
Lemma affs_frame x : same_on ["muc_aff"] m m' → affs_rep m x → affs_rep m' x.
Proof. intros Hs H u. rewrite Hs; [apply H|by left]. Qed.
Lemma nodes_frame x : same_on ["ps_node"; "ps_nodes"] m m' → nodes_rep m x → nodes_rep m' x.
Proof. intros Hs [H1 H2]. split; intros; rewrite Hs; [by apply H1|by left|by apply H2|]. right. by left. Qed.
Lemma items_frame x : same_on ["ps_item"; "ps_items"] m m' → items_rep m x → items_rep m' x.
Proof. intros Hs [H1 H2 H3]. split; [|done|]; intros; rewrite Hs; [by apply H1|by left|by apply H3|]. right. by left. Qed.
Lemma subs_frame x : same_on ["ps_subs"; "ps_usubs"] m m' → subs_rep m x → subs_rep m' x.
Proof. intros Hs [H1 H2]. split; intros; rewrite Hs; [by apply H1|by left|by apply H2|]. right. by left. Qed.
Lemma bookmarks_frame x : same_on ["bookmarks"] m m' → bookmarks_rep m x → bookmarks_rep m' x.
Proof. intros Hs H u. rewrite Hs; [apply H|by left]. Qed.
End Frames.

(** A change of one interface's keys to a state that stands for [x']. *)
Ltac frames R :=
  split; cbn [sp_users sp_roster sp_versions sp_blocked sp_vcards sp_offline sp_mam sp_counter sp_rooms sp_affs
              sp_nodes sp_items sp_subs sp_bookmarks
              put_users put_roster put_versions put_blocked put_vcards put_offline put_mam put_counter put_rooms
              put_affs put_nodes put_items put_subs put_bookmarks];
  try assumption;
  match goal with
  | |- users_rep _ _ => eapply users_frame; [|exact (rp_users _ _ R)]
  | |- roster_rep _ _ => eapply roster_frame; [|exact (rp_roster _ _ R)]
  | |- versions_rep _ _ => eapply versions_frame; [|exact (rp_versions _ _ R)]
  | |- blocked_rep _ _ => eapply blocked_frame; [|exact (rp_blocked _ _ R)]
  | |- vcards_rep _ _ => eapply vcards_frame; [|exact (rp_vcards _ _ R)]
  | |- offline_rep _ _ => eapply offline_frame; [|exact (rp_offline _ _ R)]
  | |- mam_rep _ _ => eapply mam_frame; [|exact (rp_mam _ _ R)]
  | |- rooms_rep _ _ => eapply rooms_frame; [|exact (rp_rooms _ _ R)]
  | |- affs_rep _ _ => eapply affs_frame; [|exact (rp_affs _ _ R)]
  | |- nodes_rep _ _ => eapply nodes_frame; [|exact (rp_nodes _ _ R)]
  | |- items_rep _ _ => eapply items_frame; [|exact (rp_items _ _ R)]
  | |- subs_rep _ _ => eapply subs_frame; [|exact (rp_subs _ _ R)]
  | |- bookmarks_rep _ _ => eapply bookmarks_frame; [|exact (rp_bookmarks _ _ R)]
  end;
  (eapply keeps_same; [eassumption|vm_compute; reflexivity]).

Section Changes.
Variables (m m' : keyspace) (a : spec).
Hypothesis R : rep m a.
Lemma rep_users x : keeps_but ["user"] m m' → users_rep m' x → rep m' (put_users x a).
Proof. intros. frames R. Qed.
Lemma rep_roster x : keeps_but ["roster"] m m' → roster_rep m' x → rep m' (put_roster x a).
Proof. intros. frames R. Qed.
Lemma rep_versions x : keeps_but ["roster_ver"] m m' → versions_rep m' x → rep m' (put_versions x a).
Proof. intros. frames R. Qed.
Lemma rep_blocked x : keeps_but ["blocked"] m m' → blocked_rep m' x → rep m' (put_blocked x a).
Proof. intros. frames R. Qed.
Lemma rep_vcards x : keeps_but ["vcard"] m m' → vcards_rep m' x → rep m' (put_vcards x a).
Proof. intros. frames R. Qed.
Lemma rep_offline x : keeps_but ["offline"] m m' → offline_rep m' x → rep m' (put_offline x a).
Proof. intros. frames R. Qed.
Lemma rep_mam x : keeps_but ["mam"; "mam_msg"] m m' → mam_rep m' x → rep m' (put_mam x a).
Proof. intros. frames R. Qed.
Lemma rep_rooms x : keeps_but ["muc_room"; "muc_rooms"] m m' → rooms_rep m' x → rep m' (put_rooms x a).
Proof. intros. frames R. Qed.
Lemma rep_affs x : keeps_but ["muc_aff"] m m' → affs_rep m' x → rep m' (put_affs x a).
Proof. intros. frames R. Qed.
Lemma rep_nodes x : keeps_but ["ps_node"; "ps_nodes"] m m' → nodes_rep m' x → rep m' (put_nodes x a).
Proof. intros. frames R. Qed.
Lemma rep_items x : keeps_but ["ps_item"; "ps_items"] m m' → items_rep m' x → rep m' (put_items x a).
Proof. intros. frames R. Qed.
Lemma rep_subs x : keeps_but ["ps_subs"; "ps_usubs"] m m' → subs_rep m' x → rep m' (put_subs x a).
Proof. intros. frames R. Qed.
Lemma rep_bookmarks x : keeps_but ["bookmarks"] m m' → bookmarks_rep m' x → rep m' (put_bookmarks x a).
Proof. intros. frames R. Qed.
End Changes.

(** Which keys a sequence of commands leaves alone. *)
Lemma keeps_effects tags cs m : Forall (λ c, tag (key_of c) ∈ tags) cs → keeps_but tags m (effects cs m).
Proof.
  intros Hcs k Hk. apply effects_other. eapply Forall_impl; [exact Hcs|]. cbn. intros c Hc <-. by apply Hk.
Qed.
Lemma keeps_effect tags c m : tag (key_of c) ∈ tags → keeps_but tags m (effect c m).
Proof. intros Hc. apply (keeps_effects tags [c]). by constructor. Qed.

Lemma keeps_two tags c d m :
  tag (key_of c) ∈ tags → tag (key_of d) ∈ tags → keeps_but tags m (effect d (effect c m)).
Proof. intros Hc Hd. apply (keeps_effects tags [c; d]). by repeat constructor. Qed.

(** Two keys of a family are the same key only for the same name. *)
Lemma effect_own {K} (key : K → string) k0 k c m :
  (key k0 = key k → k0 = k) → key_of c = key k0 → k0 ≠ k → effect c m !! key k = m !! key k.
Proof. intros Hi Hc Hne. apply effect_other. rewrite Hc. by intros E%Hi. Qed.

(** One family of keys, one per name, under a command on one of them. *)
Lemma fam {K A} (P : option rvalue → A → Prop) (key : K → string) (D : K → Prop) (F F' : K → A) m u c :
  (∀ k, D k → key u = key k → u = k) → key_of c = key u → P (effect c m !! key u) (F' u) →
  (∀ k v, u ≠ k → P v (F k) → P v (F' k)) →
  (∀ k, D k → P (m !! key k) (F k)) → ∀ k, D k → P (effect c m !! key k) (F' k).
Proof.
  intros Hi Hc Hu HF Hm k Hk. destruct (decide (key u = key k)) as [E|E].
  - apply (Hi k Hk) in E as <-. done.
  - rewrite effect_other by (by rewrite Hc). apply HF; [by intros ->|]. by apply Hm.
Qed.

Section Puts.
Variables (m : keyspace).

Lemma docs_put {K A} `{Countable K} (P : option rvalue → option A → Prop) (key : K → string) (D : K → Prop)
    (x : gmap K A) u c o :
  (∀ k, D k → key u = key k → u = k) → key_of c = key u → P (effect c m !! key u) o →
  (∀ k, D k → P (m !! key k) (x !! k)) → ∀ k, D k → P (effect c m !! key k) (partial_alter (λ _, o) u x !! k).
Proof.
  intros Hi Hc Hu Hm. apply (fam P key D (λ k, x !! k) (λ k, partial_alter (λ _, o) u x !! k) m u c); try done.
  - by rewrite lookup_partial_alter_eq.
  - intros k v Hne. by rewrite lookup_partial_alter_ne.
Qed.

Lemma hash_put {K T} `{Countable K, Json T} (key : K → string) (D : K → Prop) (x : gmap (K * string) T) u y c o :
  (∀ k, D k → key u = key k → u = k) → key_of c = key u →
  hash_is (effect c m !! key u) (λ z, if decide (y = z) then o else x !! (u, z)) →
  (∀ k, D k → hash_is (m !! key k) (λ z, x !! (k, z))) →
  ∀ k, D k → hash_is (effect c m !! key k) (λ z, partial_alter (λ _, o) (u, y) x !! (k, z)).
Proof.
  intros Hi Hc Hu Hm.
  apply (fam hash_is key D (λ k z, x !! (k, z)) (λ k z, partial_alter (λ _, o) (u, y) x !! (k, z)) m u c); try done.
  - eapply hash_is_ext; [exact Hu|]. intros z. cbn. rewrite lookup_partial_alter. repeat case_decide; naive_solver.
  - intros k v Hne Hv. eapply hash_is_ext; [exact Hv|]. intros z. cbn. rewrite lookup_partial_alter_ne by naive_solver. done.
Qed.
End Puts.

Lemma user_put m x u c o :
  users_rep m x → key_of c = userKey u → str_is (effect c m !! userKey u) o →
  users_rep (effect c m) (partial_alter (λ _, o) u x).
Proof.
  intros Hm Hc Ho k. apply (docs_put m str_is userKey (λ _, True) x u c o); try done. by intros ? _ ?%prefix_inj.
Qed.
Lemma roster_put m x u y c o :
  roster_rep m x → key_of c = rosterKey u →
  hash_is (effect c m !! rosterKey u) (λ z, if decide (y = z) then o else x !! (u, z)) →
  roster_rep (effect c m) (partial_alter (λ _, o) (u, y) x).
Proof.
  intros Hm Hc Ho k. apply (hash_put m rosterKey (λ _, True) x u y c o); try done. by intros ? _ ?%prefix_inj.
Qed.
Lemma version_put m x u v :
  versions_rep m x → versions_rep (effect (KSet (rosterVerKey u) (Raw_text (list_ascii_of_string v))) m) (<[u := v]> x).
Proof.
  intros Hm k. apply (docs_put m (λ w o, raw_is w (list_ascii_of_string <$> o)) rosterVerKey (λ _, True) x u _ (Some v)); try done.
  - by intros ? _ ?%prefix_inj.
  - cbn. by rewrite lookup_insert_eq.
Qed.
Lemma vcard_put m x u c o :
  vcards_rep m x → key_of c = vcardKey u → raw_is (effect c m !! vcardKey u) o →
  vcards_rep (effect c m) (partial_alter (λ _, o) u x).
Proof.
  intros Hm Hc Ho k. apply (docs_put m raw_is vcardKey (λ _, True) x u c o); try done. by intros ? _ ?%prefix_inj.
Qed.
Lemma offline_put m x u c o :
  offline_rep m x → key_of c = offlineKey u → list_is (effect c m !! offlineKey u) (default [] o) →
  offline_rep (effect c m) (partial_alter (λ _, o) u x).
Proof.
  intros Hm Hc Ho k. apply (docs_put m (λ w o, list_is w (default [] o)) offlineKey (λ _, True) x u c o); try done.
  by intros ? _ ?%prefix_inj.
Qed.
Lemma aff_put m x u y c o :
  affs_rep m x → key_of c = mucAffKey u →
  hash_is (effect c m !! mucAffKey u) (λ z, if decide (y = z) then o else x !! (u, z)) →
  affs_rep (effect c m) (partial_alter (λ _, o) (u, y) x).
Proof.
  intros Hm Hc Ho k. apply (hash_put m mucAffKey (λ _, True) x u y c o); try done. by intros ? _ ?%prefix_inj.
Qed.
Lemma bookmark_put m x u y c o :
  bookmarks_rep m x → key_of c = bookmarkKey u →
  hash_is (effect c m !! bookmarkKey u) (λ z, if decide (y = z) then o else x !! (u, z)) →
  bookmarks_rep (effect c m) (partial_alter (λ _, o) (u, y) x).
Proof.
  intros Hm Hc Ho k. apply (hash_put m bookmarkKey (λ _, True) x u y c o); try done. by intros ? _ ?%prefix_inj.
Qed.
Lemma block_put m x u y c o :
  blocked_rep m x → key_of c = blockedKey u → (∀ v, o = Some v → v = true) →
  set_is (effect c m !! blockedKey u) (λ z, if decide (y = z) then is_Some o else is_Some (x !! (u, z))) →
  blocked_rep (effect c m) (partial_alter (λ _, o) (u, y) x).
Proof.
  intros [Hm Ht] Hc Hv Ho. split.
  - intros k. apply (fam set_is blockedKey (λ _, True) (λ k z, is_Some (x !! (k, z)))
                       (λ k z, is_Some (partial_alter (λ _, o) (u, y) x !! (k, z))) m u c); try done.
    + by intros ? _ ?%prefix_inj.
    + eapply set_is_ext; [exact Ho|]. intros z. rewrite lookup_partial_alter. repeat case_decide; naive_solver.
    + intros k' v Hne Hk'. eapply set_is_ext; [exact Hk'|]. intros z. cbn. by rewrite lookup_partial_alter_ne by naive_solver.
  - intros k v. rewrite lookup_partial_alter. case_decide; [apply Hv|apply Ht].
Qed.

(** *** Documents with an index: the document and the index change together *)

Lemma room_put m x r c ci o :
  rooms_rep m x → key_of c = mucRoomKey r → str_is (effect c m !! mucRoomKey r) o →
  (ci = KSAdd mucRoomsSetKey r ∧ is_Some o) ∨ (ci = KSRem mucRoomsSetKey r ∧ o = None) →
  rooms_rep (effect ci (effect c m)) (partial_alter (λ _, o) r x).
Proof.
  intros [Hd Hs] Hc Ho Hci. assert (key_of ci = mucRoomsSetKey) as Hk by (destruct Hci as [[-> _]|[-> _]]; done).
  split.
  - intros k. rewrite effect_other by (rewrite Hk; tags).
    apply (docs_put m str_is mucRoomKey (λ _, True) x r c o); try done. by intros ? _ ?%prefix_inj.
  - assert (set_is (effect c m !! mucRoomsSetKey) (λ y, is_Some (x !! y))) as Hs'
      by (rewrite effect_other; [done|rewrite Hc; tags]).
    destruct Hci as [[-> Hv]|[-> ->]]; [eapply set_is_ext; [by apply set_is_add|]|eapply set_is_ext; [by apply set_is_remove|]];
      intros y; cbn; rewrite lookup_partial_alter; case_decide; naive_solver.
Qed.
Lemma room_update m x r c o :
  rooms_rep m x → key_of c = mucRoomKey r → str_is (effect c m !! mucRoomKey r) o → is_Some (x !! r) → is_Some o →
  rooms_rep (effect c m) (partial_alter (λ _, o) r x).
Proof.
  intros [Hd Hs] Hc Ho Hx Hs'. split.
  - intros k. apply (docs_put m str_is mucRoomKey (λ _, True) x r c o); try done. by intros ? _ ?%prefix_inj.
  - rewrite effect_other by (rewrite Hc; tags). eapply set_is_ext; [exact Hs|]. intros y. cbn.
    rewrite lookup_partial_alter. case_decide; naive_solver.
Qed.

Lemma node_put m x h n c ci o :
  no_colon h → nodes_rep m x → key_of c = pubsubNodeKey h n → str_is (effect c m !! pubsubNodeKey h n) o →
  (ci = KSAdd (pubsubNodesKey h) n ∧ is_Some o) ∨ (ci = KSRem (pubsubNodesKey h) n ∧ o = None) →
  nodes_rep (effect ci (effect c m)) (partial_alter (λ _, o) (h, n) x).
Proof.
  intros Hh [Hd Hs] Hc Ho Hci. assert (key_of ci = pubsubNodesKey h) as Hk by (destruct Hci as [[-> _]|[-> _]]; done).
  split.
  - intros h' n' Hh'. rewrite effect_other by (rewrite Hk; tags).
    apply (docs_put m str_is (λ k, pubsubNodeKey k.1 k.2) (λ k, no_colon k.1) x (h, n) c o) with (k := (h', n')); try done.
    + intros [h1 n1] H1 E. cbn [fst snd] in *. by apply pubsubNodeKey_inj in E as [-> ->].
    + intros [h1 n1] H1. by apply Hd.
  - intros h'. apply (fam set_is pubsubNodesKey (λ _, True) (λ k z, is_Some (x !! (k, z)))
             (λ k z, is_Some (partial_alter (λ _, o) (h, n) x !! (k, z))) (effect c m) h ci) with (k := h').
    + by intros ? _ ?%prefix_inj.
    + done.
    + assert (set_is (effect c m !! pubsubNodesKey h) (λ y, is_Some (x !! (h, y)))) as Hs'
        by (rewrite effect_other; [done|rewrite Hc; tags]).
      destruct Hci as [[-> Hv]|[-> ->]]; [eapply set_is_ext; [by apply set_is_add|]|eapply set_is_ext; [by apply set_is_remove|]];
        intros y; cbn; rewrite lookup_partial_alter; case_decide; naive_solver.
    + intros k v Hne Hv. eapply set_is_ext; [exact Hv|]. intros z. cbn. by rewrite lookup_partial_alter_ne by naive_solver.
    + intros k _. rewrite effect_other; [done|rewrite Hc; tags].
    + done.
Qed.

Lemma item_put m x h n i c ci o :
  no_colon h → no_colon i → items_rep m x → key_of c = pubsubItemKey h n i →
  str_is (effect c m !! pubsubItemKey h n i) o →
  (ci = KSAdd (pubsubItemsKey h n) i ∧ is_Some o) ∨ (ci = KSRem (pubsubItemsKey h n) i ∧ o = None) →
  items_rep (effect ci (effect c m)) (partial_alter (λ _, o) (h, n, i) x).
Proof.
  intros Hh Hi [Hd Hids Hs] Hc Ho Hci.
  assert (key_of ci = pubsubItemsKey h n) as Hk by (destruct Hci as [[-> _]|[-> _]]; done). split.
  - intros h' n' i' Hh' Hi'. rewrite effect_other by (rewrite Hk; tags).
    apply (docs_put m str_is (λ k, pubsubItemKey k.1.1 k.1.2 k.2) (λ k, no_colon k.1.1 ∧ no_colon k.2) x (h, n, i) c o) with (k := (h', n', i')); try done.
    + intros [[h1 n1] i1] [H1 H2] E. cbn [fst snd] in *. by apply pubsubItemKey_inj in E as (-> & -> & ->).
    + intros [[h1 n1] i1] [H1 H2]. by apply Hd.
  - intros h' n' i'. rewrite lookup_partial_alter. case_decide as E; [by injection E as _ _ <-|apply Hids].
  - intros h' n' Hh'.
    apply (fam set_is (λ k, pubsubItemsKey k.1 k.2) (λ k, no_colon k.1) (λ k z, is_Some (x !! (k, z)))
             (λ k z, is_Some (partial_alter (λ _, o) (h, n, i) x !! (k, z))) (effect c m) (h, n) ci) with (k := (h', n')).
    + intros [h1 n1] H1 E. cbn [fst snd] in *. by apply pubsubItemsKey_inj in E as [-> ->].
    + done.
    + cbn [fst snd]. assert (set_is (effect c m !! pubsubItemsKey h n) (λ y, is_Some (x !! (h, n, y)))) as Hs'
        by (rewrite effect_other; [by apply Hs|rewrite Hc; tags]).
      destruct Hci as [[-> Hv]|[-> ->]]; [eapply set_is_ext; [by apply set_is_add|]|eapply set_is_ext; [by apply set_is_remove|]];
        intros y; cbn; rewrite lookup_partial_alter; case_decide; naive_solver.
    + intros k v Hne Hv. eapply set_is_ext; [exact Hv|]. intros z. cbn. by rewrite lookup_partial_alter_ne by naive_solver.
    + intros [h1 n1] H1. cbn [fst snd] in *. rewrite effect_other; [by apply Hs|rewrite Hc; tags].
    + done.
Qed.

Lemma sub_put m x h n j c ci o :
  no_colon h → subs_rep m x → key_of c = pubsubSubsKey h n →
  hash_is (effect c m !! pubsubSubsKey h n) (λ z, if decide (j = z) then o else x !! (h, n, z)) →
  (ci = KSAdd (pubsubUserSubsKey h j) n ∧ is_Some o) ∨ (ci = KSRem (pubsubUserSubsKey h j) n ∧ o = None) →
  subs_rep (effect ci (effect c m)) (partial_alter (λ _, o) (h, n, j) x).
Proof.
  intros Hh [Hd Hs] Hc Ho Hci.
  assert (key_of ci = pubsubUserSubsKey h j) as Hk by (destruct Hci as [[-> _]|[-> _]]; done). split.
  - intros h' n' Hh'. rewrite effect_other by (rewrite Hk; tags).
    apply (hash_put m (λ k, pubsubSubsKey k.1 k.2) (λ k, no_colon k.1) x (h, n) j c o) with (k := (h', n')); try done.
    + intros [h1 n1] H1 E. cbn [fst snd] in *. by apply pubsubSubsKey_inj in E as [-> ->].
    + intros [h1 n1] H1. by apply Hd.
  - intros h' j' Hh'.
    apply (fam set_is (λ k, pubsubUserSubsKey k.1 k.2) (λ k, no_colon k.1) (λ k z, is_Some (x !! (k.1, z, k.2)))
             (λ k z, is_Some (partial_alter (λ _, o) (h, n, j) x !! (k.1, z, k.2))) (effect c m) (h, j) ci) with (k := (h', j')).
    + intros [h1 n1] H1 E. cbn [fst snd] in *. by apply pubsubUserSubsKey_inj in E as [-> ->].
    + done.
    + cbn [fst snd]. assert (set_is (effect c m !! pubsubUserSubsKey h j) (λ y, is_Some (x !! (h, y, j)))) as Hs'
        by (rewrite effect_other; [by apply Hs|rewrite Hc; tags]).
      destruct Hci as [[-> Hv]|[-> ->]]; [eapply set_is_ext; [by apply set_is_add|]|eapply set_is_ext; [by apply set_is_remove|]];
        intros y; cbn; rewrite lookup_partial_alter; case_decide; naive_solver.
    + intros [h1 j1] v Hne Hv. eapply set_is_ext; [exact Hv|]. intros z. cbn. by rewrite lookup_partial_alter_ne by naive_solver.
    + intros [h1 n1] H1. cbn [fst snd] in *. rewrite effect_other; [by apply Hs|rewrite Hc; tags].
    + done.
Qed.

(** *** Removing a node or an archive *)

Lemma effects_dels ks m k : effects (map KDel ks) m !! k = if bool_decide (k ∈ ks) then None else m !! k.
Proof.
  revert m. induction ks as [|k0 ks IH]; intros m; [done|]. unfold effects in *. cbn. rewrite IH. clear IH.
  destruct (decide (k = k0)) as [->|Hne].
  - rewrite lookup_delete_eq, (bool_decide_true (k0 ∈ k0 :: ks)) by (by left). by case_bool_decide.
  - rewrite lookup_delete_ne by done. repeat case_bool_decide; set_solver.
Qed.

Lemma pipe_dels ks m : pipe_typed (map KDel ks) m.
Proof. revert m. induction ks as [|k ks IH]; intros m; cbn; [done|]. by split. Qed.
Lemma pipe_app cs cs' m : pipe_typed cs m → pipe_typed cs' (effects cs m) → pipe_typed (cs ++ cs') m.
Proof.
  revert m. induction cs as [|c cs IH]; intros m; [done|]. intros [Hc Hcs] Hcs'. split; [done|]. by apply IH.
Qed.

Lemma items_clear m x h n ids :
  no_colon h → items_rep m x → (∀ i, i ∈ ids ↔ is_Some (x !! (h, n, i))) →
  items_rep (effects (map KDel (map (pubsubItemKey h n) ids ++ [pubsubItemsKey h n])) m)
    (filter (λ kv, kv.1.1 ≠ (h, n)) x).
Proof.
  intros Hh [Hd Hids Hs] Hl. split.
  - intros h' n' i' Hh' Hi'. rewrite effects_dels, filter_first_lookup. cbn [fst]. case_decide as E.
    + injection E as <- <-. destruct (decide (i' ∈ ids)) as [Hi|Hi].
      * rewrite bool_decide_true; [done|]. apply elem_of_app. left. by apply (list_elem_of_fmap_2 (pubsubItemKey h n)).
      * assert (x !! (h, n, i') = None) as Hx by (apply eq_None_not_Some; by rewrite <- Hl).
        specialize (Hd h n i' Hh Hi'). rewrite Hx in Hd. cbn in Hd |- *. rewrite Hd. by case_bool_decide.
    + rewrite bool_decide_false; [by apply Hd|]. intros [(i & Ei & Hi)%list_elem_of_In%in_map_iff|Ek%list_elem_of_singleton]%elem_of_app.
      * apply pubsubItemKey_inj in Ei as (-> & -> & _); [done..| |done]. apply (Hids h n), Hl. by apply list_elem_of_In.
      * exfalso. revert Ek. tags.
  - intros h' n' i'. rewrite filter_first_lookup. case_decide; [by intros []|apply Hids].
  - intros h' n' Hh'. rewrite effects_dels. case_bool_decide as E.
    + apply set_is_none. intros i. rewrite filter_first_lookup. cbn [fst]. case_decide as E'; [by intros []|].
      apply elem_of_app in E as [(i' & Ei & _)%list_elem_of_In%in_map_iff|Ek%list_elem_of_singleton]; [exfalso; revert Ei; tags|].
      apply pubsubItemsKey_inj in Ek as [-> ->]; [done..].
    + eapply set_is_ext; [by apply Hs|]. intros i. rewrite filter_first_lookup. cbn [fst]. case_decide as E'; [|done].
      destruct E. injection E' as <- <-. apply elem_of_app. right. by left.
Qed.

Lemma effects_srems h n js (F : string → string → string → Prop) m :
  no_colon h → (∀ h' j', no_colon h' → set_is (m !! pubsubUserSubsKey h' j') (F h' j')) →
  pipe_typed (map (λ j, KSRem (pubsubUserSubsKey h j) n) js) m ∧
  ∀ h' j', no_colon h' →
    set_is (effects (map (λ j, KSRem (pubsubUserSubsKey h j) n) js) m !! pubsubUserSubsKey h' j')
      (λ z, F h' j' z ∧ ¬ (h' = h ∧ j' ∈ js ∧ z = n)).
Proof.
  intros Hh. revert m F. induction js as [|j js IH]; intros m F Hm.
  { split; [done|]. intros h' j' Hh'. eapply set_is_ext; [by apply Hm|]. set_solver. }
  assert (∀ h' j', no_colon h' → set_is (effect (KSRem (pubsubUserSubsKey h j) n) m !! pubsubUserSubsKey h' j')
                     (λ z, F h' j' z ∧ ¬ (h' = h ∧ j' = j ∧ z = n))) as Hm'.
  { intros h' j' Hh'. destruct (decide (pubsubUserSubsKey h j = pubsubUserSubsKey h' j')) as [E|E].
    - apply pubsubUserSubsKey_inj in E as [-> ->]; [|done..]. eapply set_is_ext; [apply set_is_remove, Hm; done|]. naive_solver.
    - rewrite effect_other by done. eapply set_is_ext; [by apply Hm|]. naive_solver. }
  destruct (IH _ _ Hm') as [Ht Hs]. split.
  - split; [|exact Ht]. by apply Hm.
  - intros h' j' Hh'. eapply set_is_ext; [by apply Hs|]. intros z. cbn. rewrite elem_of_cons. tauto.
Qed.

Lemma subs_clear m x h n js :
  no_colon h → subs_rep m x → (∀ j, j ∈ js ↔ is_Some (x !! (h, n, j))) →
  let cs := map (λ j, KSRem (pubsubUserSubsKey h j) n) js ++ [KDel (pubsubSubsKey h n)] in
  pipe_typed cs m ∧ subs_rep (effects cs m) (filter (λ kv, kv.1.1 ≠ (h, n)) x).
Proof.
  intros Hh [Hd Hs] Hl cs. destruct (effects_srems h n js (λ h' j' z, is_Some (x !! (h', z, j'))) m Hh Hs) as [Ht Hs'].
  split; [by apply pipe_app|]. unfold cs. split.
  - intros h' n' Hh'. rewrite effects_app. change (effects [?c] ?k) with (effect c k). cbn [effect].
    destruct (decide (pubsubSubsKey h n = pubsubSubsKey h' n')) as [E|E].
    + rewrite E, lookup_delete_eq. apply pubsubSubsKey_inj in E as [-> ->]; [|done..].
      apply hash_is_none. intros j. rewrite filter_first_lookup. by rewrite decide_True.
    + rewrite lookup_delete_ne by done. rewrite effects_other.
      * eapply hash_is_ext; [by apply Hd|]. intros j. cbn. rewrite filter_first_lookup. rewrite decide_False; [done|].
        cbn. by intros [= -> ->].
      * apply Forall_forall. intros c (j & -> & _)%list_elem_of_fmap. cbn [key_of]. tags.
  - intros h' j' Hh'. rewrite effects_app. change (effects [?c] ?k) with (effect c k).
    rewrite effect_other by tags. eapply set_is_ext; [by apply Hs'|]. intros z. cbn. rewrite filter_first_lookup. cbn.
    case_decide as E.
    + injection E as <- <-. split; [|by intros []]. intros [Hz Hn]. destruct Hn. split_and!; [done| |done]. by apply Hl.
    + split; [tauto|]. intros Hz. split; [done|]. intros (-> & _ & ->). done.
Qed.

Lemma mam_put m x u msg :
  no_colon u → json_ok msg → a_UserJID msg = u → mam_rep m x →
  mam_rep (effects [KZAdd (mamKey u) (score (a_CreatedAt msg)) (a_ID msg); KSet (mamMsgKey u (a_ID msg)) (marshal_text msg)] m)
    (<[u := place msg (default [] (x !! u))]> x).
Proof.
  intros Hu Hj Hm Hx u' Hu'. change (effects [?c; ?d] ?k) with (effect d (effect c k)).
  destruct (decide (u = u')) as [<-|Hne].
  - rewrite lookup_insert_eq. cbn [from_option id]. destruct (Hx u Hu) as [Hk Hz Hd Hs Hn]. split.
    + rewrite effect_other by tags. cbn [effect]. by rewrite lookup_insert_eq.
    + rewrite effect_other by tags. cbn [effect]. rewrite lookup_insert_eq. cbn [as_zset].
      change (zset_at m (mamKey u)) with (as_zset (m !! mamKey u)). by rewrite Hz, by_id_place, fmap_insert.
    + intros id. rewrite by_id_place by done. cbn [effect]. destruct (decide (a_ID msg = id)) as [<-|Hid].
      * rewrite !lookup_insert_eq. by apply str_is_set.
      * rewrite !lookup_insert_ne by first [done|tags|by intros [_ ?]%mamMsgKey_inj]. apply Hd.
    + apply Sorted_merge_sort, _.
    + by apply place_ids.
  - rewrite lookup_insert_ne by done. eapply archive_frame; [..|by apply Hx]; cbn [effect].
    + by rewrite !lookup_insert_ne by first [tags|by intros ?%prefix_inj].
    + intros id. by rewrite !lookup_insert_ne by first [tags|by intros [? _]%mamMsgKey_inj].
Qed.

Lemma mam_clear m x u ids :
  no_colon u → mam_rep m x → ids = a_ID <$> default [] (x !! u) →
  mam_rep (effects (map KDel (map (mamMsgKey u) ids ++ [mamKey u])) m) (delete u x).
Proof.
  intros Hu Hx Hids u' Hu'. destruct (decide (u = u')) as [<-|Hne].
  - rewrite lookup_delete_eq. cbn [from_option id]. destruct (Hx u Hu) as [Hk Hz Hd Hs Hn]. split; try by constructor.
    + rewrite effects_dels, bool_decide_true; [done|]. apply elem_of_app. right. by left.
    + rewrite effects_dels, bool_decide_true; [done|]. apply elem_of_app. right. by left.
    + intros id. rewrite effects_dels. case_bool_decide as E; [done|]. specialize (Hd id).
      destruct (by_id (default [] (x !! u)) !! id) as [y|] eqn:Ey; [|exact Hd]. destruct E.
      apply by_id_lookup in Ey as [Hy <-]; [|done]. apply elem_of_app. left.
      apply (list_elem_of_fmap_2 (mamMsgKey u)). rewrite Hids. by apply (list_elem_of_fmap_2 a_ID).
  - rewrite lookup_delete_ne by done. eapply archive_frame; [..|by apply Hx].
    + rewrite effects_dels, bool_decide_false; [done|].
      intros [(i & Ei & _)%list_elem_of_In%in_map_iff|Ek%list_elem_of_singleton]%elem_of_app; [exfalso; revert Ei; tags|].
      by apply prefix_inj in Ek.
    + intros id. rewrite effects_dels, bool_decide_false; [done|].
      intros [(i & Ei & _)%list_elem_of_In%in_map_iff|Ek%list_elem_of_singleton]%elem_of_app; [|exfalso; revert Ek; tags].
      by apply mamMsgKey_inj in Ei as [? _].
Qed.

(** ** Simulation *)

Section Simulation.
Context {R : Type} `{!Redis R} {contents : R → keyspace} `{!RedisLaws R contents}.
Variables (now : time) (it : iteration).
Hypothesis it_ok : iteration_ok it.

Notation wp := (wp contents).

Definition sim (c : call) : Prop := ∀ r a,
  rep (contents r) a → call_ok now c →
  let '(r', x) := exec now it c r in (redis_spec now c a).2 x ∧ rep (contents r') (redis_spec now c a).1.

Lemma redis_sim_intro {A} (f : A → answer) (p : M R redis_error A) c :
  exec now it c = run1 f p →
  (∀ m a, rep m a → call_ok now c →
     wp p m (λ x m', (redis_spec now c a).2 (answer_of f x) ∧ rep m' (redis_spec now c a).1)) → sim c.
Proof.
  intros He Hp r a Hr Hok. rewrite He. specialize (Hp _ _ Hr Hok r eq_refl). unfold run1. by destruct (p r).
Qed.

(** *** Archive queries *)

Lemma wp_query_loop q n l found msgs m Q :
  (∀ x, x ∈ l → str_is (m !! mamMsgKey (q_UserJID q) (a_ID x)) (Some x)) → (length msgs ≤ n)%nat →
  Q (Ok (msgs ++ take (S n - length msgs) (MemoryStorage.query_loop q found l))) m →
  wp (query_loop q (Z.of_nat n) found msgs (a_ID <$> l)) m Q.
Proof.
  revert found msgs Q. induction l as [|x l IH]; intros found msgs Q Hd Hlen HQ.
  { cbn [MemoryStorage.query_loop] in HQ. apply wp_ok. by rewrite take_nil, app_nil_r in HQ. }
  assert (∀ y, y ∈ l → str_is (m !! mamMsgKey (q_UserJID q) (a_ID y)) (Some y)) as Hd' by (intros; apply Hd; by right).
  cbn [query_loop fmap list_fmap MemoryStorage.query_loop] in *. destruct found; cbn [negb] in *; [|by apply IH].
  destruct (negb (bool_decide (q_BeforeID q = ""%string)) && bool_decide (a_ID x = q_BeforeID q)) eqn:Eb.
  { rewrite take_nil, app_nil_r in HQ. by apply wp_ok. }
  apply wp_bind, wp_Get; [apply (str_is_kind _ (Some x)), Hd; by left|]. destruct (Hd x) as (t & -> & Ht); [by left|]. cbv iota beta.
  apply wp_bind, wp_lift. rewrite (unmarshal_text_is _ _ Ht). cbv iota beta.
  repeat match goal with |- wp (if ?b then _ else _) _ _ => destruct b eqn:?; [by apply IH|] end.
  replace (S n - length msgs)%nat with (S (n - length msgs)) in HQ by lia. cbn [take] in HQ.
  rewrite cons_middle, app_assoc in HQ.
  assert (length (msgs ++ [x]) = S (length msgs)) as Hl by (rewrite length_app; cbn; lia).
  destruct (Z.ltb_spec (Z.of_nat n) (Z.of_nat (length (msgs ++ [x])))) as [Hn|Hn].
  - apply wp_ok. replace (n - length msgs)%nat with 0%nat in HQ by lia. by rewrite app_nil_r in HQ.
  - apply IH; [done|lia|]. by replace (S n - length (msgs ++ [x]))%nat with (n - length msgs)%nat by lia.
Qed.

Lemma wp_QueryMessages q m l Q :
  archive_is m (q_UserJID q) l → Q (Ok (mam_answer q l)) m → wp (QueryMessages q) m Q.
Proof.
  intros Ha HQ. unfold QueryMessages. set (n := page_size q).
  assert ((if (q_Max q <=? 0)%Z then 100%Z else q_Max q) = Z.of_nat n) as ->.
  { unfold n, page_size. destruct (Z.leb_spec (q_Max q) 0); case_bool_decide; lia. }
  apply wp_bind, wp_cmd; [exact (ar_kind _ _ _ Ha)|]. cbn [replies strings effect]. intros y ->.
  rewrite (archive_order _ _ _ Ha). cbv iota beta. apply wp_bind, wp_query_loop; [|cbn; lia|].
  { intros x Hx. pose proof (ar_docs _ _ _ Ha (a_ID x)) as Hd.
    by rewrite (proj2 (by_id_lookup l (a_ID x) x (ar_ids _ _ _ Ha))) in Hd. }
  cbn [app length]. rewrite Nat.sub_0_r. apply wp_ok.
  replace (MemoryStorage.query_loop q (bool_decide (q_AfterID q = ""%string)) l) with (filter (selected q) (in_page q l)).
  2:{ unfold in_page. destruct (decide (q_AfterID q = ""%string)) as [E|E].
      - rewrite !(bool_decide_true _ E). by rewrite query_loop_selected.
      - rewrite !(bool_decide_false _ E). by rewrite query_loop_after, query_loop_selected. }
  rewrite Nat2Z.id. destruct (page_of_prefix n (filter (selected q) (in_page q l))) as [-> ->].
  unfold mam_answer in HQ. fold n in HQ. set (p := take n _) in *.
  assert (match p with x :: _ => a_ID x | [] => ""%string end = default ""%string (a_ID <$> head p)) as -> by (by destruct p).
  assert (match last p with Some x => a_ID x | None => ""%string end = default ""%string (a_ID <$> last p)) as ->
    by (by destruct (last p)). done.
Qed.

(** *** Listings *)

Lemma wp_hash_listing {T} `{Json T} k m (f : string → option T) Q :
  hash_is (m !! k) f → (∀ l, lists f l → Q (Ok l) m) →
  wp (do data <- HGetAll k; mlift (decode_all (visit it data).*2)) m Q.
Proof.
  intros Hf HQ. apply wp_bind, wp_cmd; [apply Hf|]. cbn [replies effect]. intros y ->. cbv iota beta.
  destruct (hash_listing it _ f it_ok Hf) as (l & Hl & Hls). apply wp_lift.
  change (hash_at m k) with (as_hash (m !! k)). rewrite Hl. by apply HQ.
Qed.

Lemma wp_indexed {T} k m (f : string → option T) (get : string → M R redis_error T) Q :
  set_is (m !! k) (λ y, is_Some (f y)) →
  (∀ y Q', is_Some (f y) → Q' (match f y with Some v => Ok v | None => Err (RStorage ErrNotFound) end) m → wp (get y) m Q') →
  (∀ l, lists f l → Q (Ok l) m) →
  wp (do ys <- SMembers k; collect get ys) m Q.
Proof.
  intros Hs Hget HQ. apply wp_bind. eapply wp_SMembers; [exact Hs|]. intros l Hn Hl. cbv beta iota.
  apply (wp_collect get f); [intros x Q' Hx; apply Hget; by apply Hl|]. by apply HQ, omap_lists_keys.
Qed.

(** *** Per call *)

Tactic Notation "start" reference(D) := eapply redis_sim_intro; [reflexivity|]; intros m a Hr Hok; unfold D; cbn [call_ok] in Hok.
Ltac show := cbn [redis_spec spec_call fst snd answer_of]; unfold on_entry, or_missing, answers.
Ltac tagged := cbn [key_of]; vm_compute; set_solver.
Ltac keeps := apply keeps_effect; tagged.
Ltac keeps2 := apply keeps_two; tagged.
(** A command that only writes one document. *)
Ltac set_doc := cbn [effect]; rewrite lookup_insert_eq; by apply str_is_set.
Ltac del_doc := cbn [effect]; by rewrite lookup_delete_eq.

Lemma redis_CreateUser u : sim (CCreateUser u).
Proof.
  start CreateUser. eapply wp_create_doc; [exact (rp_users _ _ Hr (Username u))|]. show. destruct (sp_users a !! Username u).
  - by apply wp_err.
  - apply wp_ok. split; [done|]. eapply rep_users; [exact Hr|keeps|]. apply user_put; [apply Hr|done|set_doc].
Qed.
Lemma redis_GetUser n : sim (CGetUser n).
Proof.
  start GetUser. eapply wp_Get_decode; [exact (rp_users _ _ Hr n)|]. show. split; [|done]. by destruct (sp_users a !! n).
Qed.
Lemma redis_UpdateUser u : sim (CUpdateUser u).
Proof.
  start UpdateUser. eapply (wp_Exists_need (T := User)); [exact (rp_users _ _ Hr (Username u))|]. show. destruct (sp_users a !! Username u); [|done].
  apply wp_Set. split; [done|]. eapply rep_users; [exact Hr|keeps|]. apply user_put; [apply Hr|done|set_doc].
Qed.
Lemma redis_DeleteUser n : sim (CDeleteUser n).
Proof.
  start DeleteUser. apply wp_bind, wp_Del. cbv iota beta. pose proof (rp_users _ _ Hr n) as Hd. show. unfold need_one.
  destruct (sp_users a !! n) as [u|]; cbn in Hd.
  - destruct Hd as (t & -> & _). apply wp_ok. split; [done|]. eapply rep_users; [exact Hr|keeps|].
    apply user_put; [apply Hr|done|del_doc].
  - rewrite Hd. apply wp_err. split; [done|]. cbn [effect]. by rewrite delete_id.
Qed.
Lemma redis_UserExists n : sim (CUserExists n).
Proof.
  start UserExists. apply wp_bind, wp_Exists, wp_ok. show. split; [|done]. pose proof (rp_users _ _ Hr n) as Hd.
  destruct (sp_users a !! n) as [u|]; cbn in Hd; [destruct Hd as (t & -> & _); by rewrite bool_decide_true by eauto|].
  rewrite Hd, bool_decide_false; [done|by intros []].
Qed.
Lemma redis_Authenticate n p : sim (CAuthenticate n p).
Proof.
  start Authenticate. intros r Hr'. pose proof (rp_users _ _ Hr n) as Hd.
  pose proof (wp_Get_decode (userKey n) m _ (λ x m', m' = m ∧ x = match sp_users a !! n with Some v => Ok v | None => Err (RStorage ErrNotFound) end)
                Hd (conj eq_refl eq_refl) r Hr') as Hg. fold (GetUser (R := R) n) in Hg.
  unfold Authenticate. destruct (GetUser n r) as [r' x]. cbn [fst snd] in Hg. destruct Hg as [Hc ->].
  destruct (sp_users a !! n) as [u|] eqn:Eu; cbn [fst snd]; (split; [|by rewrite Hc]); show; rewrite Eu; cbn [fmap option_fmap option_map].
  - repeat case_bool_decide; naive_solver.
  - by rewrite bool_decide_false.
Qed.

(** *** Hashes *)

Lemma redis_UpsertRosterItem i : sim (CUpsertRosterItem i).
Proof.
  start UpsertRosterItem. pose proof (rp_roster _ _ Hr (r_UserJID i)) as Hh. apply wp_HSet; [apply Hh|]. split; [done|].
  eapply rep_roster; [exact Hr|keeps|]. apply roster_put; [apply Hr|done|by apply hash_is_insert].
Qed.
Lemma redis_GetRosterItem u c : sim (CGetRosterItem u c).
Proof.
  start GetRosterItem. eapply wp_HGet_decode; [exact (rp_roster _ _ Hr u)|]. show. split; [|done]. by destruct (sp_roster a !! (u, c)).
Qed.
Lemma redis_GetRosterItems u : sim (CGetRosterItems u).
Proof. start GetRosterItems. apply (wp_hash_listing _ _ _ _ (rp_roster _ _ Hr u)). show. by eauto. Qed.
Lemma redis_DeleteRosterItem u c : sim (CDeleteRosterItem u c).
Proof.
  start DeleteRosterItem. pose proof (rp_roster _ _ Hr u) as Hh. eapply (wp_HDel_need (T := RosterItem)); [exact Hh|]. show.
  assert (rep (effect (KHDel (rosterKey u) c) m) (put_roster (delete (u, c) (sp_roster a)) a)) as Hd.
  { eapply rep_roster; [exact Hr|keeps|]. apply roster_put; [apply Hr|done|by apply hash_is_delete]. }
  destruct (sp_roster a !! (u, c)) eqn:E; split; [done|done|done|]. rewrite delete_id in Hd by done. by destruct a.
Qed.
Lemma redis_GetRosterVersion u : sim (CGetRosterVersion u).
Proof.
  start GetRosterVersion. pose proof (rp_versions _ _ Hr u) as Hd. unfold raw_is in Hd.
  apply wp_bind, wp_Get; rewrite Hd; [by destruct (sp_versions a !! u)|]. show.
  destruct (sp_versions a !! u) as [v|]; cbn; [|by apply wp_ok]. apply wp_bind, wp_ok, wp_ok. split; [|done].
  cbn. by rewrite string_of_list_ascii_of_string.
Qed.
Lemma redis_SetRosterVersion u v : sim (CSetRosterVersion u v).
Proof. start SetRosterVersion. apply wp_Set. split; [done|]. eapply rep_versions; [exact Hr|keeps|]. apply version_put, Hr. Qed.

(** *** Sets *)

Lemma redis_BlockJID u j : sim (CBlockJID u j).
Proof.
  start BlockJID. pose proof (bl_set _ _ (rp_blocked _ _ Hr) u) as Hs. apply wp_bind, wp_SAdd; [apply Hs|]. intros n. apply wp_ok.
  split; [done|]. eapply rep_blocked; [exact Hr|keeps|]. apply block_put; [apply Hr|done|by intros v [= <-]|].
  eapply set_is_ext; [by apply set_is_add|]. intros z. cbn. case_decide; naive_solver.
Qed.
Lemma redis_UnblockJID u j : sim (CUnblockJID u j).
Proof.
  start UnblockJID. pose proof (bl_set _ _ (rp_blocked _ _ Hr) u) as Hs. apply wp_bind, wp_SRem; [apply Hs|]. intros n. apply wp_ok.
  split; [done|]. eapply rep_blocked; [exact Hr|keeps|]. apply block_put; [apply Hr|done|done|].
  eapply set_is_ext; [by apply set_is_remove|]. intros z. cbn. case_decide; naive_solver.
Qed.
Lemma redis_IsBlocked u j : sim (CIsBlocked u j).
Proof.
  start IsBlocked. destruct (bl_set _ _ (rp_blocked _ _ Hr) u) as [Hk Hs]. apply wp_cmd; [exact Hk|]. cbn [replies effect].
  intros y ->. show. split; [|done]. f_equal. specialize (Hs j). change (set_at m (blockedKey u)) with (as_set (m !! blockedKey u)).
  pose proof (bl_true _ _ (rp_blocked _ _ Hr) (u, j)) as Ht. destruct (sp_blocked a !! (u, j)) as [v|].
  - rewrite (Ht v eq_refl), bool_decide_true by (apply Hs; eauto). done.
  - rewrite bool_decide_false; [done|]. by intros []%Hs.
Qed.
Lemma redis_GetBlockedJIDs u : sim (CGetBlockedJIDs u).
Proof.
  start GetBlockedJIDs. eapply wp_SMembers; [exact (bl_set _ _ (rp_blocked _ _ Hr) u)|]. intros l Hn Hl. show. by eauto 6.
Qed.

(** *** vCards and offline messages *)

Lemma redis_SetVCard u d : sim (CSetVCard u d).
Proof.
  start SetVCard. apply wp_Set. split; [done|]. eapply rep_vcards; [exact Hr|keeps|].
  apply vcard_put; [apply Hr|done|]. cbn [effect]. by rewrite lookup_insert_eq.
Qed.
Lemma redis_GetVCard u : sim (CGetVCard u).
Proof.
  start GetVCard. pose proof (rp_vcards _ _ Hr u) as Hd. unfold raw_is in Hd.
  apply wp_bind, wp_Get; rewrite Hd; [by destruct (sp_vcards a !! u)|]. show.
  destruct (sp_vcards a !! u) as [v|]; cbn; [by apply wp_ok|by apply wp_err].
Qed.
Lemma redis_DeleteVCard u : sim (CDeleteVCard u).
Proof.
  start DeleteVCard. apply wp_bind, wp_Del. cbv iota beta. pose proof (rp_vcards _ _ Hr u) as Hd. unfold raw_is in Hd. show. unfold need_one.
  destruct (sp_vcards a !! u) as [v|]; rewrite Hd; cbn [fmap option_fmap option_map].
  - apply wp_ok. split; [done|]. eapply rep_vcards; [exact Hr|keeps|]. apply vcard_put; [apply Hr|done|del_doc].
  - apply wp_err. split; [done|]. cbn [effect]. by rewrite delete_id.
Qed.
Lemma offline_kind u m a : rep m a → has_kind (m !! offlineKey u) KListT.
Proof. intros Hr. pose proof (rp_offline _ _ Hr u) as Hl. destruct (m !! offlineKey u) as [[]|]; cbn in Hl; done. Qed.
Lemma redis_StoreOfflineMessage x : sim (CStoreOfflineMessage x).
Proof.
  start StoreOfflineMessage. apply wp_bind, wp_cmd; [exact (offline_kind _ _ _ Hr)|]. cbn [replies]. intros y (n & ->). apply wp_ok.
  split; [done|]. eapply rep_offline; [exact Hr|keeps|]. apply offline_put; [apply Hr|done|].
  cbn [effect]. rewrite lookup_insert_eq. cbn. unfold list_at.
  pose proof (rp_offline _ _ Hr (o_UserJID x)) as Hl. unfold list_is in Hl.
  destruct (m !! offlineKey (o_UserJID x)) as [[]|]; try done; [|rewrite Hl]; apply Forall2_app; try done;
    constructor; [by apply marshal_text_is|done|by apply marshal_text_is|done].
Qed.
Lemma redis_GetOfflineMessages u : sim (CGetOfflineMessages u).
Proof.
  start GetOfflineMessages. apply wp_bind, wp_cmd; [exact (offline_kind _ _ _ Hr)|]. cbn [replies effect]. intros y ->. apply wp_lift.
  show. split; [|done]. pose proof (rp_offline _ _ Hr u) as Hl. unfold list_is in Hl. unfold list_at.
  destruct (m !! offlineKey u) as [[]|]; try done; [by rewrite (decode_all_is _ _ Hl)|by rewrite Hl].
Qed.
Lemma redis_DeleteOfflineMessages u : sim (CDeleteOfflineMessages u).
Proof.
  start DeleteOfflineMessages. apply wp_bind, wp_Del, wp_ok. split; [done|]. eapply rep_offline; [exact Hr|keeps|].
  apply offline_put; [apply Hr|done|]. cbn [effect]. by rewrite lookup_delete_eq.
Qed.
Lemma redis_CountOfflineMessages u : sim (CCountOfflineMessages u).
Proof.
  start CountOfflineMessages. apply wp_cmd; [exact (offline_kind _ _ _ Hr)|]. cbn [replies effect]. intros y ->. cbn [number]. show.
  split; [|done]. pose proof (rp_offline _ _ Hr u) as Hl. unfold list_is in Hl. unfold list_at.
  destruct (m !! offlineKey u) as [[]|]; try done; [by rewrite (Forall2_length _ _ _ Hl)|by rewrite Hl].
Qed.

(** *** Archives *)

Lemma redis_ArchiveMessage x : sim (CArchiveMessage x).
Proof.
  start ArchiveMessage. destruct Hok as [Hj Hu].
  assert ((if IsZero (a_CreatedAt x) then mkArchived (a_ID x) (a_UserJID x) (a_WithJID x) (a_FromJID x) (a_Data x) now else x) =
          stamped_message now x) as -> by (unfold stamped_message, stamp; destruct x; cbn; by case_match).
  pose proof (mam_put m (sp_mam a) (a_UserJID x) (stamped_message now x) Hu Hj eq_refl (rp_mam _ _ Hr)) as Hm.
  apply wp_pipeline; [split; [exact (ar_kind _ _ _ (rp_mam _ _ Hr _ Hu))|done]|]. split; [done|].
  eapply rep_mam; [exact Hr|keeps2|exact Hm].
Qed.
Lemma redis_QueryMessages q : sim (CQueryMessages q).
Proof.
  eapply redis_sim_intro; [reflexivity|]. intros m a Hr Hok. by eapply wp_QueryMessages; [exact (rp_mam _ _ Hr _ Hok)|].
Qed.
Lemma redis_DeleteMessageArchive u : sim (CDeleteMessageArchive u).
Proof.
  start DeleteMessageArchive. pose proof (rp_mam _ _ Hr _ Hok) as Ha.
  apply wp_bind, wp_cmd; [exact (ar_kind _ _ _ Ha)|]. cbn [replies strings effect]. intros y ->.
  rewrite (archive_order _ _ _ Ha). cbv iota beta.
  set (ids := a_ID <$> _). assert (map (λ id, KDel (mamMsgKey u id)) ids ++ [KDel (mamKey u)] =
    map KDel (map (mamMsgKey u) ids ++ [mamKey u])) as Hcs by (by rewrite map_app, map_map).
  apply wp_pipeline; rewrite Hcs; [apply pipe_dels|]. split; [done|]. eapply rep_mam; [exact Hr| |by apply mam_clear; [|apply Hr|]].
  apply keeps_effects, Forall_forall. intros c (k & -> & Hk)%list_elem_of_fmap.
  apply elem_of_app in Hk as [(i & -> & _)%list_elem_of_fmap|Hk]; [tagged|]. apply list_elem_of_singleton in Hk as ->. tagged.
Qed.

(** *** Rooms *)

Lemma redis_CreateRoom v : sim (CCreateRoom v).
Proof.
  start CreateRoom. eapply wp_create_doc; [exact (rm_docs _ _ (rp_rooms _ _ Hr) (m_RoomJID v))|]. show.
  destruct (sp_rooms a !! m_RoomJID v) eqn:E; [by apply wp_err|]. cbn [negb]. apply wp_drop, wp_SAdd.
  { rewrite effect_other by tags. apply (rm_set _ _ (rp_rooms _ _ Hr)). }
  intros n. split; [done|]. eapply rep_rooms; [exact Hr|keeps2|].
  apply room_put; [apply Hr|done|set_doc|by left; eauto].
Qed.
Lemma redis_GetRoom r : sim (CGetRoom r).
Proof.
  start GetRoom. eapply wp_Get_decode; [exact (rm_docs _ _ (rp_rooms _ _ Hr) r)|]. show. split; [|done]. by destruct (sp_rooms a !! r).
Qed.
Lemma redis_UpdateRoom v : sim (CUpdateRoom v).
Proof.
  start UpdateRoom. eapply (wp_Exists_need (T := MUCRoom)); [exact (rm_docs _ _ (rp_rooms _ _ Hr) (m_RoomJID v))|]. show.
  destruct (sp_rooms a !! m_RoomJID v) eqn:E; [|done]. apply wp_Set. split; [done|].
  eapply rep_rooms; [exact Hr|keeps|]. apply room_update; [apply Hr|done|set_doc|by rewrite E|done].
Qed.
Lemma affs_clear m x r : affs_rep m x → affs_rep (effect (KDel (mucAffKey r)) m) (filter (λ kv, kv.1.1 ≠ r) x).
Proof.
  intros Hm k. apply (fam hash_is mucAffKey (λ _, True) (λ k u, x !! (k, u)) (λ k u, filter (λ kv, kv.1.1 ≠ r) x !! (k, u)) m r); try done.
  - by intros ? _ ?%prefix_inj.
  - cbn [effect]. rewrite lookup_delete_eq. apply hash_is_none. intros y. rewrite filter_first_lookup. by rewrite decide_True.
  - intros k' v Hne Hv. eapply hash_is_ext; [exact Hv|]. intros y. cbn. by rewrite filter_first_lookup, decide_False.
Qed.
Lemma redis_DeleteRoom r : sim (CDeleteRoom r).
Proof.
  start DeleteRoom. eapply (wp_Del_need (T := MUCRoom)); [exact (rm_docs _ _ (rp_rooms _ _ Hr) r)|]. show.
  destruct (sp_rooms a !! r) eqn:E; [|done]. apply wp_bind, wp_drop, wp_SRem.
  { rewrite effect_other by tags. apply (rm_set _ _ (rp_rooms _ _ Hr)). }
  intros n. apply wp_drop, wp_Del. split; [done|].
  cbn [fst]. change (put_rooms ?x (put_affs ?y a)) with (put_affs y (put_rooms x a)).
  eapply rep_affs; [|keeps|].
  - eapply rep_rooms; [exact Hr|keeps2|].
    apply room_put; [apply Hr|done|del_doc|by right].
  - apply affs_clear. eapply affs_frame; [|exact (rp_affs _ _ Hr)].
    eapply (keeps_same ["muc_room"; "muc_rooms"]); [|by vm_compute].
    keeps2.
Qed.
Lemma redis_ListRooms : sim CListRooms.
Proof.
  start ListRooms. apply (wp_indexed _ _ (λ r, sp_rooms a !! r) _ _ (rm_set _ _ (rp_rooms _ _ Hr))).
  - intros r Q' _ HQ. unfold GetRoom. by eapply wp_Get_decode; [exact (rm_docs _ _ (rp_rooms _ _ Hr) r)|].
  - intros l Hl. show. by eauto.
Qed.
Lemma redis_SetAffiliation f : sim (CSetAffiliation f).
Proof.
  start SetAffiliation. pose proof (rp_affs _ _ Hr (f_RoomJID f)) as Hh. apply wp_HSet; [apply Hh|]. split; [done|].
  eapply rep_affs; [exact Hr|keeps|]. apply aff_put; [apply Hr|done|by apply hash_is_insert].
Qed.
Lemma redis_GetAffiliation r u : sim (CGetAffiliation r u).
Proof.
  start GetAffiliation. eapply wp_HGet_decode; [exact (rp_affs _ _ Hr r)|]. show. split; [|done]. by destruct (sp_affs a !! (r, u)).
Qed.
Lemma redis_GetAffiliations r : sim (CGetAffiliations r).
Proof. start GetAffiliations. apply (wp_hash_listing _ _ _ _ (rp_affs _ _ Hr r)). show. by eauto. Qed.
Lemma redis_RemoveAffiliation r u : sim (CRemoveAffiliation r u).
Proof.
  start RemoveAffiliation. pose proof (rp_affs _ _ Hr r) as Hh. apply wp_HDel; [apply Hh|]. split; [done|].
  eapply rep_affs; [exact Hr|keeps|]. apply aff_put; [apply Hr|done|by apply hash_is_delete].
Qed.

(** *** Publish-subscribe *)

Lemma redis_CreateNode v : sim (CCreateNode v).
Proof.
  start CreateNode. destruct Hok as [Hj Hh]. eapply wp_create_doc; [exact (nd_docs _ _ (rp_nodes _ _ Hr) _ (n_NodeID v) Hh)|]. show.
  destruct (sp_nodes a !! (n_Host v, n_NodeID v)) eqn:E; [by apply wp_err|]. cbn [negb]. apply wp_drop, wp_SAdd.
  { rewrite effect_other by tags. apply (nd_set _ _ (rp_nodes _ _ Hr)). }
  intros n. split; [done|]. eapply rep_nodes; [exact Hr|keeps2|].
  apply node_put; [done|apply Hr|done|set_doc|by left; eauto].
Qed.
Lemma redis_GetNode h n : sim (CGetNode h n).
Proof.
  start GetNode. eapply wp_Get_decode; [exact (nd_docs _ _ (rp_nodes _ _ Hr) h n Hok)|]. show. split; [|done].
  by destruct (sp_nodes a !! (h, n)).
Qed.
Lemma redis_DeleteNode h n : sim (CDeleteNode h n).
Proof.
  start DeleteNode. eapply (wp_Del_need (T := PubSubNode)); [exact (nd_docs _ _ (rp_nodes _ _ Hr) h n Hok)|]. show.
  destruct (sp_nodes a !! (h, n)) eqn:E; [|done]. apply wp_bind, wp_drop, wp_SRem.
  { rewrite effect_other by tags. apply (nd_set _ _ (rp_nodes _ _ Hr)). }
  intros z. set (m1 := effect (KSRem _ _) _).
  assert (rep m1 (put_nodes (delete (h, n) (sp_nodes a)) a)) as Hr1.
  { eapply rep_nodes; [exact Hr|keeps2|]. apply node_put; [done|apply Hr|done|del_doc|by right]. }
  clearbody m1. set (a1 := put_nodes _ _) in Hr1.
  apply wp_bind, wp_or_nil. eapply wp_SMembers; [exact (it_set _ _ (rp_items _ _ Hr1) h n Hok)|]. intros ids _ Hids. cbv beta iota.
  apply wp_bind, wp_or_nil. eapply (wp_HKeys (T := PubSubSubscription)); [exact (sb_docs _ _ (rp_subs _ _ Hr1) h n Hok)|].
  intros js _ Hjs. cbv beta iota.
  assert (map (λ i, KDel (pubsubItemKey h n i)) ids ++ [KDel (pubsubItemsKey h n)] =
    map KDel (map (pubsubItemKey h n) ids ++ [pubsubItemsKey h n])) as Hcs by (by rewrite map_app, map_map).
  assert (rep (effects (map KDel (map (pubsubItemKey h n) ids ++ [pubsubItemsKey h n])) m1)
            (put_items (filter (λ kv, kv.1.1 ≠ (h, n)) (sp_items a)) a1)) as Hr2.
  { eapply rep_items; [exact Hr1| |by apply items_clear; [|apply Hr1|]].
    apply keeps_effects, Forall_forall. intros c (k & -> & Hk)%list_elem_of_fmap.
    apply elem_of_app in Hk as [(i & -> & _)%list_elem_of_fmap|Hk]; [tagged|]. apply list_elem_of_singleton in Hk as ->. tagged. }
  destruct (subs_clear _ _ h n js Hok (rp_subs _ _ Hr2) Hjs) as [Ht Hs].
  apply wp_pipeline; rewrite Hcs, <- app_assoc; [apply pipe_app; [apply pipe_dels|exact Ht]|]. split; [done|].
  rewrite effects_app. cbn [fst].
  change (put_nodes ?x (put_items ?y (put_subs ?w a))) with (put_subs w (put_items y (put_nodes x a))).
  eapply rep_subs; [exact Hr2| |exact Hs].
  apply keeps_effects, Forall_forall. intros c Hc. apply elem_of_app in Hc as [(j & -> & _)%list_elem_of_fmap|Hc]; [tagged|].
  apply list_elem_of_singleton in Hc as ->. tagged.
Qed.
Lemma redis_ListNodes h : sim (CListNodes h).
Proof.
  start ListNodes. apply (wp_indexed _ _ (λ n, sp_nodes a !! (h, n)) _ _ (nd_set _ _ (rp_nodes _ _ Hr) h)).
  - intros n Q' _ HQ. unfold GetNode. by eapply wp_Get_decode; [exact (nd_docs _ _ (rp_nodes _ _ Hr) h n Hok)|].
  - intros l Hl. show. by eauto.
Qed.
Lemma redis_UpsertItem i : sim (CUpsertItem i).
Proof.
  start UpsertItem. destruct Hok as (Hj & Hh & Hi).
  assert ((if IsZero (i_CreatedAt i) then mkItem (i_Host i) (i_NodeID i) (i_ItemID i) (Publisher i) (i_Payload i) now else i) =
          stamped_item now i) as -> by (unfold stamped_item, stamp; destruct i; cbn; by case_match).
  apply wp_pipeline.
  { split; [done|]. split; [|done]. unfold right_type. cbn [needs]. unfold typed. rewrite effect_other by tags.
    apply (it_set _ _ (rp_items _ _ Hr)). done. }
  split; [done|]. eapply rep_items; [exact Hr|keeps2|].
  apply (item_put m (sp_items a) (i_Host i) (i_NodeID i) (i_ItemID i) (KSet _ _) (KSAdd _ _) (Some (stamped_item now i)));
    [done|done|apply Hr|done|set_doc|by left; eauto].
Qed.
Lemma redis_GetItem h n i : sim (CGetItem h n i).
Proof.
  start GetItem. destruct Hok as [Hh Hi]. eapply wp_Get_decode; [exact (it_docs _ _ (rp_items _ _ Hr) h n i Hh Hi)|]. show.
  split; [|done]. by destruct (sp_items a !! (h, n, i)).
Qed.
Lemma redis_GetItems h n : sim (CGetItems h n).
Proof.
  start GetItems. apply (wp_indexed _ _ (λ i, sp_items a !! (h, n, i)) _ _ (it_set _ _ (rp_items _ _ Hr) h n Hok)).
  - intros i Q' Hi HQ. unfold GetItem. apply (it_ids _ _ (rp_items _ _ Hr)) in Hi.
    by eapply wp_Get_decode; [exact (it_docs _ _ (rp_items _ _ Hr) h n i Hok Hi)|].
  - intros l Hl. show. by eauto.
Qed.
Lemma redis_DeleteItem h n i : sim (CDeleteItem h n i).
Proof.
  start DeleteItem. destruct Hok as [Hh Hi]. eapply (wp_Del_need (T := PubSubItem)); [exact (it_docs _ _ (rp_items _ _ Hr) h n i Hh Hi)|].
  show. destruct (sp_items a !! (h, n, i)) eqn:E; [|done]. apply wp_drop, wp_SRem.
  { rewrite effect_other by tags. by apply (it_set _ _ (rp_items _ _ Hr)). }
  intros z. split; [done|]. eapply rep_items; [exact Hr|keeps2|]. apply item_put; [done|done|apply Hr|done|del_doc|by right].
Qed.
Lemma redis_Subscribe b : sim (CSubscribe b).
Proof.
  start Subscribe. destruct Hok as [Hj Hh]. pose proof (sb_docs _ _ (rp_subs _ _ Hr) (s_Host b) (s_NodeID b) Hh) as Hd.
  apply wp_pipeline.
  { split; [apply Hd|]. split; [|done]. unfold right_type. cbn [needs]. unfold typed. rewrite effect_other by tags.
    by apply (sb_set _ _ (rp_subs _ _ Hr)). }
  split; [done|]. eapply rep_subs; [exact Hr|keeps2|].
  apply (sub_put m (sp_subs a) (s_Host b) (s_NodeID b) (s_JID b) (KHSet _ _ _) (KSAdd _ _) (Some b));
    [done|apply Hr|done|by apply hash_is_insert|by left; eauto].
Qed.
Lemma redis_Unsubscribe h n j : sim (CUnsubscribe h n j).
Proof.
  start Unsubscribe. pose proof (sb_docs _ _ (rp_subs _ _ Hr) h n Hok) as Hd. apply wp_pipeline.
  { split; [apply Hd|]. split; [|done]. unfold right_type. cbn [needs]. unfold typed. rewrite effect_other by tags.
    by apply (sb_set _ _ (rp_subs _ _ Hr)). }
  split; [done|]. eapply rep_subs; [exact Hr|keeps2|].
  apply (sub_put m (sp_subs a) h n j (KHDel _ _) (KSRem _ _) None); [done|apply Hr|done|by apply hash_is_delete|by right].
Qed.
Lemma redis_GetSubscription h n j : sim (CGetSubscription h n j).
Proof.
  start GetSubscription. eapply wp_HGet_decode; [exact (sb_docs _ _ (rp_subs _ _ Hr) h n Hok)|]. show. split; [|done].
  by destruct (sp_subs a !! (h, n, j)).
Qed.
Lemma redis_GetSubscriptions h n : sim (CGetSubscriptions h n).
Proof. start GetSubscriptions. apply (wp_hash_listing _ _ _ _ (sb_docs _ _ (rp_subs _ _ Hr) h n Hok)). show. by eauto. Qed.
Lemma redis_GetUserSubscriptions h j : sim (CGetUserSubscriptions h j).
Proof.
  start GetUserSubscriptions. apply (wp_indexed _ _ (λ n, sp_subs a !! (h, n, j)) _ _ (sb_set _ _ (rp_subs _ _ Hr) h j Hok)).
  - intros n Q' _ HQ. unfold GetSubscription. by eapply wp_HGet_decode; [exact (sb_docs _ _ (rp_subs _ _ Hr) h n Hok)|].
  - intros l Hl. show. by eauto.
Qed.

(** *** Bookmarks *)

Lemma redis_SetBookmark b : sim (CSetBookmark b).
Proof.
  start SetBookmark. pose proof (rp_bookmarks _ _ Hr (b_UserJID b)) as Hh. apply wp_HSet; [apply Hh|]. split; [done|].
  eapply rep_bookmarks; [exact Hr|keeps|]. apply bookmark_put; [apply Hr|done|by apply hash_is_insert].
Qed.
Lemma redis_GetBookmark u r : sim (CGetBookmark u r).
Proof.
  start GetBookmark. eapply wp_HGet_decode; [exact (rp_bookmarks _ _ Hr u)|]. show. split; [|done]. by destruct (sp_bookmarks a !! (u, r)).
Qed.
Lemma redis_GetBookmarks u : sim (CGetBookmarks u).
Proof. start GetBookmarks. apply (wp_hash_listing _ _ _ _ (rp_bookmarks _ _ Hr u)). show. by eauto. Qed.
Lemma redis_DeleteBookmark u r : sim (CDeleteBookmark u r).
Proof.
  start DeleteBookmark. pose proof (rp_bookmarks _ _ Hr u) as Hh. eapply (wp_HDel_need (T := Bookmark)); [exact Hh|]. show.
  assert (rep (effect (KHDel (bookmarkKey u) r) m) (put_bookmarks (delete (u, r) (sp_bookmarks a)) a)) as Hd.
  { eapply rep_bookmarks; [exact Hr|keeps|]. apply bookmark_put; [apply Hr|done|by apply hash_is_delete]. }
  destruct (sp_bookmarks a !! (u, r)) eqn:E; split; [done|done|done|]. rewrite delete_id in Hd by done. by destruct a.
Qed.
End Simulation.

Section Runs.
Context {R : Type} `{!Redis R} {contents : R → keyspace} `{!RedisLaws R contents}.

Lemma redis_simulates now it c : iteration_ok it → sim (contents := contents) now it c.
Proof.
  intros Hit. destruct c.
  all: first
    [ apply redis_CreateUser | apply redis_GetUser | apply redis_UpdateUser | apply redis_DeleteUser | apply redis_UserExists
    | apply redis_Authenticate | apply redis_UpsertRosterItem | apply redis_GetRosterItem | by apply redis_GetRosterItems
    | apply redis_DeleteRosterItem | apply redis_GetRosterVersion | apply redis_SetRosterVersion | apply redis_BlockJID
    | apply redis_UnblockJID | apply redis_IsBlocked | apply redis_GetBlockedJIDs | apply redis_SetVCard | apply redis_GetVCard
    | apply redis_DeleteVCard | apply redis_StoreOfflineMessage | apply redis_GetOfflineMessages | apply redis_DeleteOfflineMessages
    | apply redis_CountOfflineMessages | apply redis_ArchiveMessage | apply redis_QueryMessages | apply redis_DeleteMessageArchive
    | apply redis_CreateRoom | apply redis_GetRoom | apply redis_UpdateRoom | apply redis_DeleteRoom | apply redis_ListRooms
    | apply redis_SetAffiliation | apply redis_GetAffiliation | by apply redis_GetAffiliations | apply redis_RemoveAffiliation
    | apply redis_CreateNode | apply redis_GetNode | apply redis_DeleteNode | apply redis_ListNodes | apply redis_UpsertItem
    | apply redis_GetItem | apply redis_GetItems | apply redis_DeleteItem | apply redis_Subscribe | apply redis_Unsubscribe
    | apply redis_GetSubscription | by apply redis_GetSubscriptions | apply redis_GetUserSubscriptions | apply redis_SetBookmark
    | apply redis_GetBookmark | by apply redis_GetBookmarks | apply redis_DeleteBookmark ]; done.
Qed.

(** A run: calls with the time of each, and the answers observed. *)
Fixpoint redis_run (a : spec) (calls : list (time * iteration * call)) (rs : list answer) : Prop :=
  match calls, rs with
  | [], [] => True
  | (now, _, c) :: cs, x :: rs' => (redis_spec now c a).2 x ∧ redis_run (redis_spec now c a).1 cs rs'
  | _, _ => False
  end.

Definition good (e : time * iteration * call) : Prop := iteration_ok e.1.2 ∧ call_ok e.1.1 e.2.

Fixpoint final (r : R) (calls : list (time * iteration * call)) : R :=
  match calls with [] => r | (now, it, c) :: cs => final (exec now it c r).1 cs end.
Fixpoint spec_final (a : spec) (calls : list (time * iteration * call)) : spec :=
  match calls with [] => a | (now, _, c) :: cs => spec_final (redis_spec now c a).1 cs end.

Lemma redis_run_rep r a calls :
  rep (contents r) a → Forall good calls →
  redis_run a calls (run r calls) ∧ rep (contents (final r calls)) (spec_final a calls).
Proof.
  revert r a. induction calls as [|[[now it] c] cs IH]; intros r a Hr; [done|]. intros [[Hit Hok] Hcs]%Forall_cons.
  pose proof (redis_simulates now it c Hit r a Hr Hok) as Hs. cbn in *. destruct (exec now it c r) as [r' x]. cbn in *.
  destruct Hs as [Hx Hr']. destruct (IH _ _ Hr' Hcs). done.
Qed.

Lemma redis_rep_empty : rep ∅ spec_init.
Proof.
  split; try (intros k; apply lookup_empty); cbn.
  - intros u. split; [done|]. intros y. cbn. by rewrite !lookup_empty.
  - split; [|intros k v H; by rewrite lookup_empty in H]. intros u. apply set_is_none. intros y. rewrite lookup_empty. by intros [].
  - intros u. by rewrite !lookup_empty.
  - intros u Hu. split; rewrite ?lookup_empty; try done; try (by constructor); intros id; by rewrite !lookup_empty.
  - split; [intros r; by rewrite !lookup_empty|]. apply set_is_none. intros y. rewrite lookup_empty. by intros [].
  - intros u. split; [done|]. intros y. cbn. by rewrite !lookup_empty.
  - split; [intros h n _; by rewrite !lookup_empty|]. intros h. apply set_is_none. intros y. rewrite lookup_empty. by intros [].
  - split; [intros h n i _ _; by rewrite !lookup_empty|intros h n i; rewrite lookup_empty; by intros []|].
    intros h n _. apply set_is_none. intros y. rewrite lookup_empty. by intros [].
  - split; [intros h n _; split; [done|]; intros y; cbn; by rewrite !lookup_empty|].
    intros h n _. apply set_is_none. intros y. rewrite lookup_empty. by intros [].
  - intros u. split; [done|]. intros y. cbn. by rewrite !lookup_empty.
Qed.

(** *** When the differences cannot be seen *)

(** Calls on which Redis answers as the abstract machine itself: new users and
    offline messages with the times the machine would set, archived messages with
    new identifiers that come last in the order of the archive, and no listing of
    items (which Redis gives in no particular order). *)
Definition redis_portable (now : time) (c : call) (a : spec) : Prop :=
  match c with
  | CCreateUser u => new_user now u = u
  | CStoreOfflineMessage x => stamped_offline now x = x
  | CArchiveMessage x =>
      a_ID x ≠ ""%string ∧
      Forall (λ y, a_ID y ≠ a_ID x ∧ mam_le y (stamped_message now x)) (default [] (sp_mam a !! a_UserJID x))
  | CGetItems _ _ => False
  | _ => True
  end.
Fixpoint redis_portable_run (a : spec) (calls : list (time * iteration * call)) : Prop :=
  match calls with [] => True | (now, _, c) :: cs => redis_portable now c a ∧ redis_portable_run (spec_call now c a).1 cs end.

Definition in_order (l : list ArchivedMessage) : Prop := Sorted mam_le l ∧ NoDup (a_ID <$> l).
Definition archives_in_order (a : spec) : Prop := ∀ u, in_order (default [] (sp_mam a !! u)).

Lemma in_order_snoc x l : in_order l → Forall (λ y, a_ID y ≠ a_ID x ∧ mam_le y x) l → in_order (l ++ [x]).
Proof.
  intros [Hs Hn] Hx. split.
  - apply StronglySorted_Sorted. apply Sorted_StronglySorted in Hs; [|apply _]. clear Hn.
    induction Hs as [|y l Hl IH Hy]; cbn; [by repeat constructor|]. apply Forall_cons in Hx as [[_ Hyx] Hx].
    constructor; [by apply IH|]. apply Forall_app. split; [done|by apply Forall_singleton].
  - rewrite fmap_app. apply NoDup_app. split; [done|]. split; [|apply NoDup_singleton].
    intros i (y & -> & Hy)%list_elem_of_fmap. cbn. rewrite list_elem_of_singleton. rewrite Forall_forall in Hx. by apply Hx.
Qed.

Lemma place_last x l : in_order l → Forall (λ y, a_ID y ≠ a_ID x ∧ mam_le y x) l → place x l = l ++ [x].
Proof.
  intros Hl Hx. pose proof (in_order_snoc x l Hl Hx) as [Hs Hn]. unfold place.
  assert (filter (λ y, a_ID y ≠ a_ID x) l = l) as ->.
  { clear -Hx. induction Hx as [|y l [Hy _] Hx IH]; [done|]. by rewrite filter_cons_True, IH. }
  apply (StronglySorted_unique_strong mam_le).
  - intros y z Hy Hz Hyz Hzy. assert (zentry y = zentry z) as E by (by apply (anti_symm zle)).
    rewrite merge_sort_Permutation in Hy. apply (f_equal fst) in E. cbn in E.
    assert (y ∈ l ++ [x]) as Hy' by (rewrite elem_of_app, list_elem_of_singleton; apply elem_of_cons in Hy; tauto).
    pose proof (proj2 (by_id_lookup _ (a_ID y) y Hn) (conj Hy' eq_refl)) as E1.
    pose proof (proj2 (by_id_lookup _ (a_ID y) z Hn) (conj Hz (eq_sym E))) as E2. congruence.
  - apply Sorted_StronglySorted; [apply _|]. apply Sorted_merge_sort, _.
  - by apply Sorted_StronglySorted; [apply _|].
  - rewrite merge_sort_Permutation. apply Permutation_cons_append.
Qed.

Lemma redis_spec_portable now c a :
  archives_in_order a → redis_portable now c a →
  (redis_spec now c a).1 = (spec_call now c a).1 ∧ (∀ x, (redis_spec now c a).2 x → (spec_call now c a).2 x) ∧
  archives_in_order (spec_call now c a).1.
Proof.
  intros Ha Hp. destruct c; try (split; [reflexivity|split; [intros x Hx; exact Hx|]]); cbn [redis_spec spec_call redis_portable fst snd] in *; try done;
    try (unfold on_entry; case_match; exact Ha).
  - destruct (sp_users a !! _); [done|]. by rewrite Hp.
  - by rewrite Hp.
  - destruct Hp as [Hid Hx]. unfold archived. rewrite (bool_decide_false _ Hid). cbv beta iota zeta. cbn [fst snd]. fold (stamped_message now m).
    rewrite place_last by (apply Ha || done). split; [by destruct a|]. split; [done|].
    intros u. cbn. destruct (decide (a_UserJID m = u)) as [<-|Hu].
    + rewrite lookup_insert_eq. by apply in_order_snoc.
    + rewrite lookup_insert_ne by done. apply Ha.
  - intros v. cbn. destruct (decide (user = v)) as [<-|Hu].
    + rewrite lookup_delete_eq. split; constructor.
    + rewrite lookup_delete_ne by done. apply Ha.
Qed.

Lemma redis_portable_answers calls rs :
  redis_portable_run spec_init calls → redis_run spec_init calls rs → spec_run spec_init ((λ x, (x.1.1, x.2)) <$> calls) rs.
Proof.
  assert (archives_in_order spec_init) as Ha by (intros u; cbn; rewrite lookup_empty; split; constructor). revert Ha rs.
  generalize spec_init as a. induction calls as [|[[now it] c] cs IH]; intros a Ha [|r rs]; try done. cbn. intros [Hp Hps] [Hr Hrs].
  destruct (redis_spec_portable now c a Ha Hp) as (E & Hx & Ha'). rewrite E in Hrs. split; [by apply Hx|]. by apply IH.
Qed.

(** C12: what the Redis backend promises.  Over any server that behaves as
    documented and starts empty, every sequence of calls that keeps to the naming
    discipline (no colons in the parts that keys join) with records JSON can hold
    is answered as [redis_spec] allows: the abstract machine with four calls
    changed (new users and offline messages keep the times they are given, an
    archive is kept in the order of its rounded times and a message replaces the
    one with its identifier, and items are listed in no particular order).  A
    sequence on which these differences cannot be seen ([redis_portable_run]) is
    answered as the abstract storage machine itself allows, the one the in-memory
    and the file backend refine. *)
Theorem redis_store_refines r calls :
  contents r = ∅ → Forall good calls →
  redis_run spec_init calls (run r calls) ∧
  (redis_portable_run spec_init calls → spec_run spec_init ((λ x, (x.1.1, x.2)) <$> calls) (run r calls)).
Proof.
  intros Hr Hc. assert (redis_run spec_init calls (run r calls)) as Hrun by (apply redis_run_rep; [rewrite Hr; apply redis_rep_empty|done]).
  split; [done|]. intros Hp. by apply redis_portable_answers.
Qed.

(** *** The order of an archive *)

Lemma float64_error z : (Z.abs z < 2 ^ 61)%Z → (Z.abs (float64 z - z) <= 128)%Z.
Proof.
  intros Hz. unfold float64. set (a := Z.abs z) in *. set (e := Z.max 0 (Z.log2 a - 52)).
  assert (0 <= e <= 8)%Z as He.
  { unfold e. split; [lia|]. destruct (Z.le_gt_cases a 0) as [Ha|Ha]; [rewrite (Z.log2_nonpos a Ha); lia|].
    apply Z.max_lub; [lia|]. apply Z.log2_lt_pow2 in Hz; lia. }
  rewrite Z.shiftr_div_pow2, !Z.shiftl_mul_pow2, Z.shiftr_div_pow2 by lia. set (q := (a / 2 ^ e)%Z).
  set (rest := (a - q * 2 ^ e)%Z). set (half := (1 * 2 ^ e / 2 ^ 1)%Z).
  assert (0 < 2 ^ e)%Z as Hp by (apply Z.pow_pos_nonneg; lia).
  assert (0 <= rest < 2 ^ e)%Z as Hrest.
  { unfold rest, q. rewrite (Z.mul_comm (a / 2 ^ e)), <- Z.mod_eq by lia. by apply Z.mod_pos_bound. }
  assert (Z.sgn z * a = z)%Z as Hs by (unfold a; lia).
  assert (rest = a - q * 2 ^ e)%Z as Hre by done.
  assert (e = 0 ∧ 2 ^ e = 1 ∨ 0 < e ∧ half <= 128 ∧ 2 ^ e = 2 * half)%Z as Hhalf.
  { unfold half. assert (e = 0 ∨ e = 1 ∨ e = 2 ∨ e = 3 ∨ e = 4 ∨ e = 5 ∨ e = 6 ∨ e = 7 ∨ e = 8)%Z as HE by lia.
    destruct HE as [->|[->|[->|[->|[->|[->|[->|[->| ->]]]]]]]]; cbn; lia. }
  clearbody rest half q a e. revert Hp Hre Hrest Hhalf. generalize (2 ^ e)%Z as p. intros p Hp Hre Hrest Hhalf.
  set (q' := if _ && _ then _ else _).
  assert (Z.abs (q' * p - a) <= 128)%Z as Hq.
  { unfold q'. destruct (Z.ltb_spec 0 e), (Z.ltb_spec half rest), (Z.eqb_spec rest half), (Z.odd q); cbn [andb orb]; lia. }
  clearbody q'. replace (Z.sgn z * (q' * p) - z)%Z with (Z.sgn z * (q' * p - a))%Z by lia. nia.
Qed.

(** Times between the years 1897 and 2043. *)
Definition near (t : time) : Prop := (Z.abs (t - unix_epoch) < 2 ^ 61)%Z.

Lemma score_error t : near t → (Z.abs (score t - (t - unix_epoch)) <= 128)%Z.
Proof.
  unfold near, score. intros Ht. assert (UnixNano t = (t - unix_epoch)%Z) as ->.
  { unfold UnixNano, i64. rewrite Z.mod_small by lia. lia. }
  by apply float64_error.
Qed.

Lemma after_id_sublist id l : after_id id l `sublist_of` l.
Proof. induction l as [|x l IH]; cbn; [constructor|]. case_match; by constructor. Qed.
Lemma before_id_sublist id l : before_id id l `sublist_of` l.
Proof. induction l as [|x l IH]; cbn; [constructor|]. case_match; [apply sublist_nil_l|by constructor]. Qed.
Lemma mam_answer_sublist q l : Messages (mam_answer q l) `sublist_of` l.
Proof.
  cbn. etrans; [apply sublist_take|]. etrans; [apply sublist_filter|]. unfold in_page.
  destruct (bool_decide (q_AfterID q = _)), (bool_decide (q_BeforeID q = _)); [done|apply before_id_sublist|apply after_id_sublist|].
  etrans; [apply before_id_sublist|apply after_id_sublist].
Qed.
Lemma sublist_sorted {A} (Rel : relation A) l l' : sublist l l' → StronglySorted Rel l' → StronglySorted Rel l.
Proof.
  induction 1 as [|x l l' Hs IH|x l l' Hs IH]; [done|..]; intros [Hs' Hf]%StronglySorted_inv; [|by apply IH].
  constructor; [by apply IH|]. rewrite Forall_forall in *. intros y Hy. apply Hf. by eapply elem_of_sublist.
Qed.
Lemma sorted_lookup {A} (Rel : relation A) l i j x y :
  StronglySorted Rel l → (i < j)%nat → l !! i = Some x → l !! j = Some y → Rel x y.
Proof.
  intros Hs. revert i j. induction Hs as [|z l Hs IH Hf]; intros [|i] [|j] Hij Hx Hy; try done; try lia.
  - injection Hx as <-. rewrite Forall_forall in Hf. apply Hf. by eapply list_elem_of_lookup_2.
  - eapply (IH i j); [lia|done..].
Qed.

(** Archives are chronological up to the precision of a sorted set.  After
    any run, a query is answered with messages of distinct identifiers, and a
    message that precedes another is at most 256 nanoseconds younger: scores are
    [float64] values, which near the present cannot tell closer times apart, and
    such messages are ordered by their identifiers. *)
Theorem redis_archive_order r calls now it q :
  contents r = ∅ → Forall good calls → good (now, it, CQueryMessages q) →
  ∃ res, (exec now it (CQueryMessages q) (final r calls)).2 = AMAM res ∧
    ∀ i j x y, (i < j)%nat → Messages res !! i = Some x → Messages res !! j = Some y →
      a_ID x ≠ a_ID y ∧ (near (a_CreatedAt x) → near (a_CreatedAt y) → (a_CreatedAt x <= a_CreatedAt y + 256)%Z).
Proof.
  intros Hr Hc [Hit Hok]. destruct (redis_run_rep r spec_init calls) as [_ Hrep]; [rewrite Hr; apply redis_rep_empty|done|].
  pose proof (redis_simulates now it (CQueryMessages q) Hit _ _ Hrep Hok) as Hs. revert Hs.
  destruct (exec _ _ _ _) as [r' x]. cbn [redis_spec spec_call fst snd]. intros [-> _]. eexists. split; [done|].
  destruct (rp_mam _ _ Hrep _ Hok) as [_ _ _ Hsort Hids]. apply (Sorted_StronglySorted mam_le) in Hsort.
  pose proof (mam_answer_sublist q (default [] (sp_mam (spec_final spec_init calls) !! q_UserJID q))) as Hsub.
  apply (sublist_sorted _ _ _ Hsub) in Hsort. apply (fmap_sublist a_ID) in Hsub. apply (sublist_NoDup _ _ Hids) in Hsub.
  intros i j x' y Hij Hx Hy. split.
  - intros E. assert (i = j); [|lia]. eapply (NoDup_lookup _ _ _ (a_ID x') Hsub); rewrite list_lookup_fmap; [by rewrite Hx|by rewrite Hy, E].
  - intros Nx%score_error Ny%score_error. pose proof (sorted_lookup _ _ _ _ _ _ Hsort Hij Hx Hy) as [H|[H _]]; cbn in H; lia.
Qed.
End Runs.

(** ** Runs, and the limits of the discipline *)

Module RedisExample.
Definition it : iteration := mkIteration (λ V m, map_to_list m).
Lemma it_visits : iteration_ok it.
Proof. intros V m. unfold iter_order. reflexivity. Qed.

Definition alice := "alice@example.org"%string.
Definition y2024 : time := 63839664000000000000.
Definition msg (id : string) (t : time) := mkArchived id alice "bob@example.org" alice [] t.
Definition item (i : string) := mkItem "pubsub.example.org" "urn:xmpp:avatar:data" i alice [] y2024.

(** The second message is older and the third replaces the first. *)
Definition calls : list (time * iteration * call) :=
  [(y2024, it, CCreateUser (mkUser "alice" "secret" "" 0 "" "" 0 0));
   (y2024, it, CAuthenticate "alice" "secret");
   (y2024, it, CArchiveMessage (msg "m1" y2024));
   (y2024, it, CArchiveMessage (msg "m2" (y2024 - 1000)%Z));
   ((y2024 + 5000)%Z, it, CArchiveMessage (msg "m1" 0));
   (y2024, it, CUpsertItem (item "1"));
   (y2024, it, CCreateNode (mkNode "pubsub.example.org" "urn:xmpp:avatar:data" "" "leaf" None alice));
   (y2024, it, CDeleteNode "pubsub.example.org" "urn:xmpp:avatar:data");
   (y2024, it, CGetItem "pubsub.example.org" "urn:xmpp:avatar:data" "1")].

Lemma calls_good : Forall good calls.
Proof.
  repeat (apply Forall_cons; split); [..|done].
  all: split; [exact it_visits|]; cbn [call_ok fst snd json_ok json_User json_Archived json_Item json_Node];
    unfold User_ok, Archived_ok, Item_ok, Node_ok; repeat split; try (left; done); vm_compute; reflexivity.
Qed.

Definition query := mkQuery alice "" 0 0 "" "" 0.

(** Calls on which Redis cannot be told from the other backends. *)
Definition plain_calls : list (time * iteration * call) :=
  [(y2024, it, CCreateUser (mkUser "alice" "secret" "" 0 "" "" y2024 y2024));
   (y2024, it, CGetUser "alice");
   (y2024, it, CArchiveMessage (msg "m1" y2024));
   ((y2024 + 5000)%Z, it, CArchiveMessage (msg "m2" 0));
   ((y2024 + 6000)%Z, it, CQueryMessages (mkQuery alice "" 0 0 "m1" "" 0))].

Lemma plain_calls_good : Forall good plain_calls.
Proof.
  repeat (apply Forall_cons; split); [..|done].
  all: split; [exact it_visits|]; cbn [call_ok fst snd json_ok json_User json_Archived];
    unfold User_ok, Archived_ok; repeat split; try (left; done); vm_compute; reflexivity.
Qed.

Lemma redis_store_refines_witness :
  run (∅ : keyspace) calls =
    [AUnit; ABool true; AUnit; AUnit; AUnit; AUnit; AUnit; AUnit; AErr ErrNotFound] ∧
  redis_run spec_init calls (run (∅ : keyspace) calls) ∧
  spec_run spec_init ((λ x, (x.1.1, x.2)) <$> plain_calls) (run (∅ : keyspace) plain_calls).
Proof.
  split; [vm_compute; reflexivity|]. split.
  - exact (proj1 (redis_store_refines (contents := id) (∅ : keyspace) calls eq_refl calls_good)).
  - apply (proj2 (redis_store_refines (contents := id) (∅ : keyspace) plain_calls eq_refl plain_calls_good)).
    split; [done|]. split; [done|]. split; [by split; [|constructor]|]. split; [|by split].
    split; [done|]. apply Forall_singleton. split; [done|]. apply (bool_decide_unpack _). by vm_compute.
Defined.

Lemma redis_archive_order_witness :
  ∃ res, (exec y2024 it (CQueryMessages query) (final (∅ : keyspace) calls)).2 = AMAM res ∧
    map a_ID (Messages res) = ["m2"; "m1"]%string ∧
    ∀ i j x y, (i < j)%nat → Messages res !! i = Some x → Messages res !! j = Some y →
      a_ID x ≠ a_ID y ∧ (near (a_CreatedAt x) → near (a_CreatedAt y) → (a_CreatedAt x <= a_CreatedAt y + 256)%Z).
Proof.
  destruct (redis_archive_order (contents := id) (∅ : keyspace) calls y2024 it query eq_refl calls_good
              (conj it_visits eq_refl)) as (res & E & H).
  exists res. split; [exact E|]. split; [|exact H].
  assert ((exec y2024 it (CQueryMessages query) (final (∅ : keyspace) calls)).2 =
          AMAM (mkMAMResult [msg "m2" (y2024 - 1000)%Z; msg "m1" (y2024 + 5000)%Z] true "m2" "m1" 2)) as E'
    by (vm_compute; reflexivity).
  pose proof (eq_trans (eq_sym E) E') as E2. by injection E2 as ->.
Defined.

(** Items of different nodes share a key when an identifier has a colon. *)
Lemma item_keys_collide : pubsubItemKey "h" "a" "b:c" = pubsubItemKey "h" "a:b" "c".
Proof. reflexivity. Qed.

(** Messages archived without an identifier replace each other; the in-memory
    and the file store give each an identifier of its own. *)
Lemma unnamed_messages_are_lost :
  (exec y2024 it (CQueryMessages query)
     (final (∅ : keyspace) [(y2024, it, CArchiveMessage (msg "" 0)); ((y2024 + 1)%Z, it, CArchiveMessage (msg "" 0))])).2 =
  AMAM (mkMAMResult [msg "" (y2024 + 1)%Z] true "" "" 1).
Proof. vm_compute. reflexivity. Qed.

(** An update whose existence check comes before a deletion, and whose write
    after it, brings the account back: the two commands are not atomic. *)
Definition user := mkUser "alice" "secret" "" 0 "" "" 0 0.
Lemma update_revives :
  let created := (CreateUser user (∅ : keyspace)).1 in
  (Exists (userKey "alice") created).2 = Ok 1%Z ∧
  let deleted := (DeleteUser "alice" created).1 in
  (UserExists "alice" deleted).2 = Ok false ∧
  (UserExists "alice" (Set_ (userKey "alice") (marshal_text user) deleted).1).2 = Ok true.
Proof. vm_compute. done. Qed.
End RedisExample.
