(* ===== verification/Tables.v ===== *)
(** * A database of tables, as the SQL and MongoDB stores use one

    Both stores talk to a database through a handful of operations: insert a row
    (a document), insert or update one, update, delete, find and count the rows
    that satisfy a condition.  The database is the class [Tables]: anything that
    answers such operations.  [TablesLaws] states the documented behaviour, on the
    contents of the tables and for values the engine can hold; what engines do
    differently is the class [Engine].  [memory_tables] is a database that holds
    nothing but its tables.  [SqlStorage] maps SQL statements to operations,
    [MongoStorage] the calls of the MongoDB driver. *)

From Stdlib Require Import Ascii String ZArith.
From S2P Require Import Prelude GoStrings Bytes Storage.

Open Scope list_scope.

(** ** Rows *)

Inductive value :=
  | VNull | VText (s : string) | VBlob (b : bytes) | VInt (n : Z) | VBool (b : bool) | VTime (t : time)
  | VTexts (l : list string).
#[global] Instance value_eq_dec : EqDecision value.
Proof. solve_decision. Defined.

(** A row of a table or a document of a collection, by its columns. *)
Notation row := (list (string * value)).

Fixpoint field (c : string) (r : row) : value :=
  match r with [] => VNull | (c', v) :: r' => if String.eqb c c' then v else field c r' end.
Fixpoint set_field (c : string) (v : value) (r : row) : row :=
  match r with
  | [] => [(c, v)]
  | (c', v') :: r' => if String.eqb c c' then (c, v) :: r' else (c', v') :: set_field c v r'
  end.
Fixpoint override (s r : row) : row :=
  match s with [] => r | (c, v) :: s' => override s' (set_field c v r) end.

(** The times in a row, by a column. *)
Definition time_of (c : string) (r : row) : time := match field c r with VTime t => t | _ => 0%Z end.
Definition in_order (c : string) (r r' : row) : Prop := (time_of c r <= time_of c r')%Z.
#[global] Instance in_order_dec c r r' : Decision (in_order c r r').
Proof. unfold in_order. apply _. Defined.
#[global] Instance in_order_total c : Total (in_order c).
Proof. intros x y. unfold in_order. lia. Qed.
#[global] Instance in_order_trans c : Transitive (in_order c).
Proof. intros x y z. unfold in_order. lia. Qed.

(** *** Conditions *)

Inductive comparison := CEq | CGt | CLt | CGe | CLe.

(** What database engines do differently: the precision times are kept with, the
    order of text, whether an update counts the rows it changes or the rows it
    finds, and the values that can be stored. *)
Class Engine := {
  precise : time → time;
  text_lt : string → string → bool;
  count_changed : bool;
  storable : value → Prop
}.

(** The order of the bytes, for engines that compare text by them. *)
Definition byte_lt (a b : string) : bool := bool_decide (str_le a b ∧ a ≠ b).
Lemma byte_lt_irrefl s : byte_lt s s = false.
Proof. apply bool_decide_false. by intros []. Qed.
Lemma byte_lt_trans a b c : byte_lt a b = true → byte_lt b c = true → byte_lt a c = true.
Proof.
  unfold byte_lt. rewrite !bool_decide_eq_true. intros [Hab Ne] [Hbc Ne']. split; [by etrans|]. intros ->.
  apply Ne. by apply (anti_symm str_le).
Qed.

Section Semantics.
Context `{Engine}.

Definition compare (op : comparison) (a b : value) : bool :=
  match op, a, b with
  | CEq, _, _ => bool_decide (a = b)
  | CGt, VText x, VText y => text_lt y x
  | CLt, VText x, VText y => text_lt x y
  | CGe, VTime x, VTime y => (y <=? x)%Z
  | CLe, VTime x, VTime y => (x <=? y)%Z
  | _, _, _ => false
  end.
Notation condition := (list (string * comparison * value)).
Definition holds (w : condition) (r : row) : bool :=
  forallb (λ '(c, op, v), compare op (field c r) v) w.
(** The row has these values. *)
Definition equals (f : row) : condition := map (λ '(c, v), (c, CEq, v)) f.

(** ** Operations *)

(** [OUpsert t f s] inserts a row with the values [f] and [s], or sets [s] in the
    row that has [f].  [one] is the variant of MongoDB that touches a single
    document.  [OFind] names the columns that will be read of each row (none: the
    whole row); the others of the rows it gives are not looked at. *)
Inductive op :=
  | OInsert (t : string) (r : row)
  | OUpsert (t : string) (f s : row)
  | OUpdate (t : string) (w : condition) (s : row) (one : bool)
  | ODelete (t : string) (w : condition) (one : bool)
  | OFind (cols : list string) (t : string) (w : condition) (order : option string) (limit : option Z)
  | OCount (t : string) (w : condition).

Inductive result := RDuplicate | RFailed | RCount (n : Z) | RRows (l : list row).

Notation tables := (gmap string (list row)).
Definition rows (db : tables) (t : string) : list row := default [] (db !! t).

Definition stored_value (v : value) : value := match v with VTime t => VTime (precise t) | _ => v end.
Definition stored (r : row) : row := prod_map id stored_value <$> r.

(** The unique key of each table. *)
Context (unique : string → option (list string)).

Definition same_key (cols : list string) (r r' : row) : bool :=
  forallb (λ c, bool_decide (field c r = field c r')) cols.
Definition clashes (t : string) (r : row) (l : list row) : bool :=
  match unique t with Some cols => existsb (same_key cols r) l | None => false end.

Definition limited (n : option Z) (l : list row) : list row :=
  match n with Some n => take (Z.to_nat n) l | None => l end.

Definition changes (s r : row) : bool := negb (bool_decide (override s r = r)).

(** One row of the table is replaced, or removed. *)
Inductive one_row (P : row → bool) (f : row → list row) : list row → list row → Prop :=
  one_row_intro l1 r l2 : P r = true → one_row P f (l1 ++ r :: l2) (l1 ++ f r ++ l2).
Definition no_row (P : row → bool) (l : list row) : Prop := Forall (λ r, P r = false) l.

(** The documented behaviour. *)
Definition sem (o : op) (db db' : tables) (y : result) : Prop :=
  match o with
  | OInsert t r =>
      if clashes t (stored r) (rows db t) then db' = db ∧ y = RDuplicate
      else db' = <[t := rows db t ++ [stored r]]> db ∧ y = RCount 1
  | OUpsert t f s => ∃ l n,
      (one_row (holds (equals f)) (λ r, [override (stored s) r]) (rows db t) l ∨
       no_row (holds (equals f)) (rows db t) ∧ l = rows db t ++ [override (stored s) f]) ∧
      db' = <[t := l]> db ∧ y = RCount n
  | OUpdate t w s false =>
      db' = <[t := (λ r, if holds w r then override (stored s) r else r) <$> rows db t]> db ∧
      y = RCount (Z.of_nat (length (filter (λ r, holds w r && (negb count_changed || changes (stored s) r) = true) (rows db t))))
  | OUpdate t w s true =>
      (no_row (holds w) (rows db t) ∧ db' = db ∧ y = RCount 0) ∨
      (∃ l, one_row (holds w) (λ r, [override (stored s) r]) (rows db t) l ∧ db' = <[t := l]> db ∧ y = RCount 1)
  | ODelete t w false =>
      db' = <[t := filter (λ r, holds w r = false) (rows db t)]> db ∧
      y = RCount (Z.of_nat (length (filter (λ r, holds w r = true) (rows db t))))
  | ODelete t w true =>
      (no_row (holds w) (rows db t) ∧ db' = db ∧ y = RCount 0) ∨
      (∃ l, one_row (holds w) (λ _, []) (rows db t) l ∧ db' = <[t := l]> db ∧ y = RCount 1)
  | OFind _ t w order limit =>
      db' = db ∧ ∃ l, l ≡ₚ filter (λ r, holds w r = true) (rows db t) ∧
        match order with Some c => Sorted (in_order c) l | None => True end ∧ y = RRows (limited limit l)
  | OCount t w => db' = db ∧ y = RCount (Z.of_nat (length (filter (λ r, holds w r = true) (rows db t))))
  end.

(** The values an operation sends.  Times are compared at their precision. *)
Definition op_values (o : op) : list value :=
  match o with
  | OInsert _ r => r.*2
  | OUpsert _ f s => f.*2 ++ s.*2
  | OUpdate _ w s _ => w.*2 ++ s.*2
  | ODelete _ w _ | OFind _ _ w _ _ | OCount _ w => w.*2
  end.
Definition op_compared (o : op) : list value :=
  match o with
  | OInsert _ _ => []
  | OUpsert _ f _ => f.*2
  | OUpdate _ w _ _ | ODelete _ w _ | OFind _ _ w _ _ | OCount _ w => w.*2
  end.
Definition op_limit (o : op) : Prop :=
  match o with OFind _ _ _ _ (Some n) => (0 <= n)%Z | _ => True end.
Record acceptable (o : op) : Prop := {
  acc_storable : Forall storable (op_values o);
  acc_precise : Forall (λ v, stored_value v = v) (op_compared o);
  acc_limit : op_limit o
}.
End Semantics.

Notation condition := (list (string * comparison * value)).
Notation tables := (gmap string (list row)).

(** ** Databases *)

Class Tables (D : Type) := tdo : op → D → D * result.

(** A database that is reachable and behaves as documented, with these keys. *)
Class TablesLaws (D : Type) `{Engine} `{Tables D} (unique : string → option (list string)) (contents : D → tables) :=
  tables_law o d : acceptable o → sem unique o (contents d) (contents (tdo o d).1) (tdo o d).2.

(** ** A database that is its tables *)

Section Memory.
Context `{Engine} (unique : string → option (list string)).

(** The first row that satisfies [P], with what is before and after it. *)
Fixpoint split_at (P : row → bool) (l : list row) : option (list row * row * list row) :=
  match l with
  | [] => None
  | r :: l' => if P r then Some ([], r, l')
               else match split_at P l' with Some (l1, x, l2) => Some (r :: l1, x, l2) | None => None end
  end.
Definition replace_one (P : row → bool) (f : row → list row) (l : list row) : option (list row) :=
  match split_at P l with Some (l1, r, l2) => Some (l1 ++ f r ++ l2) | None => None end.

Lemma replace_one_spec P f l :
  match replace_one P f l with Some l' => one_row P f l l' | None => no_row P l end.
Proof.
  unfold replace_one.
  assert (match split_at P l with Some (l1, r, l2) => l = l1 ++ r :: l2 ∧ P r = true | None => no_row P l end) as Hs.
  { induction l as [|r l IH]; [by constructor|]. cbn [split_at]. destruct (P r) eqn:E; [done|].
    destruct (split_at P l) as [[[l1 x] l2]|]; [|by constructor]. destruct IH as [-> Hx]. done. }
  destruct (split_at P l) as [[[l1 r] l2]|]; [|done]. destruct Hs as [-> Hr]. by constructor.
Qed.

#[local] Instance memory_tables : Tables tables := λ o db,
  match o with
  | OInsert t r =>
      if clashes unique t (stored r) (rows db t) then (db, RDuplicate)
      else (<[t := rows db t ++ [stored r]]> db, RCount 1)
  | OUpsert t f s =>
      (<[t := default (rows db t ++ [override (stored s) f])
                (replace_one (holds (equals f)) (λ r, [override (stored s) r]) (rows db t))]> db, RCount 1)
  | OUpdate t w s false =>
      (<[t := (λ r, if holds w r then override (stored s) r else r) <$> rows db t]> db,
       RCount (Z.of_nat (length (filter (λ r, holds w r && (negb count_changed || changes (stored s) r) = true) (rows db t)))))
  | OUpdate t w s true =>
      match replace_one (holds w) (λ r, [override (stored s) r]) (rows db t) with
      | Some l => (<[t := l]> db, RCount 1)
      | None => (db, RCount 0)
      end
  | ODelete t w false =>
      (<[t := filter (λ r, holds w r = false) (rows db t)]> db,
       RCount (Z.of_nat (length (filter (λ r, holds w r = true) (rows db t)))))
  | ODelete t w true =>
      match replace_one (holds w) (λ _, []) (rows db t) with
      | Some l => (<[t := l]> db, RCount 1)
      | None => (db, RCount 0)
      end
  | OFind _ t w order limit =>
      let l := filter (λ r, holds w r = true) (rows db t) in
      (db, RRows (limited limit (match order with Some c => merge_sort (in_order c) l | None => l end)))
  | OCount t w => (db, RCount (Z.of_nat (length (filter (λ r, holds w r = true) (rows db t)))))
  end.

Lemma memory_laws : TablesLaws tables unique id.
Proof.
  intros o db _. unfold tdo, memory_tables, id.
  destruct o as [t r|t f s|t w s [|]|t w [|]|cols t w order limit|t w]; cbn [sem].
  - by destruct (clashes _ _ _ _).
  - pose proof (replace_one_spec (holds (equals f)) (λ r, [override (stored s) r]) (rows db t)) as Hs. cbn [fst snd].
    destruct (replace_one _ _ _) as [l|]; cbn [default]; eexists _, _; eauto.
  - pose proof (replace_one_spec (holds w) (λ r, [override (stored s) r]) (rows db t)) as Hs.
    destruct (replace_one _ _ _) as [l|]; [right; by exists l|by left].
  - done.
  - pose proof (replace_one_spec (holds w) (λ _, []) (rows db t)) as Hs.
    destruct (replace_one _ _ _) as [l|]; [right; by exists l|by left].
  - done.
  - split; [done|]. destruct order as [c|].
    + eexists. split; [apply (merge_sort_Permutation (in_order c))|]. split; [apply (Sorted_merge_sort (in_order c))|done].
    + by eexists.
  - done.
Qed.
End Memory.
