(* ===== verification/TableStore.v ===== *)
(** * A store over tables

    What the SQL and the MongoDB store have in common: the rows that stand for
    the records, a store program for each call of the contract, and the proof,
    once for both, that the program refines the abstract machine of [Storage] as
    a database keeps it ([table_spec]).  [SqlStorage] and [MongoStorage] translate
    the two packages and show that they are instances. *)

From Stdlib Require Import Ascii String ZArith.
From S2P Require Import Prelude Bytes Storage Tables.

Open Scope list_scope.
Open Scope go_scope.

(** ** A table that stands for a map *)

Section Keyed.
Context `{Engine} {K V : Type} `{Countable K}.

(** [enc k v] is the row of [v] at [k]. *)
Record table_is (enc : K → V → row) (ok : K → V → Prop) (l : list row) (x : gmap K V) : Prop := {
  ti_rows : l ≡ₚ uncurry enc <$> map_to_list x;
  ti_ok : map_Forall ok x
}.

Context (enc : K → V → row) (ok : K → V → Prop).
Implicit Types (l : list row) (x : gmap K V).

Lemma map_to_list_filter (P : K * V → Prop) `{∀ kv, Decision (P kv)} x :
  filter P (map_to_list x) ≡ₚ map_to_list (filter P x).
Proof.
  apply NoDup_Permutation; [apply NoDup_filter, NoDup_map_to_list|apply NoDup_map_to_list|].
  intros [k v]. rewrite list_elem_of_filter, !elem_of_map_to_list, map_lookup_filter_Some. naive_solver.
Qed.

(** The rows found by a condition on the key. *)
Lemma select_rows (Q : K → Prop) `{HdQ : ∀ kv : K * V, Decision (Q kv.1)} (P : row → Prop) `{∀ r, Decision (P r)} l x :
  (∀ k v, P (enc k v) ↔ Q k) → table_is enc ok l x →
  filter P l ≡ₚ uncurry enc <$> map_to_list (filter (λ kv, Q kv.1) x).
Proof.
  intros HQ [-> _]. rewrite <- map_to_list_filter. induction (map_to_list x) as [|[k v] kvs IH]; [done|].
  rewrite fmap_cons, !filter_cons. cbn [uncurry fst]. destruct (HdQ (k, v)) as [Hk|Hk]; cbn in Hk.
  - rewrite !decide_True by (done || by apply HQ). by rewrite fmap_cons, IH.
  - rewrite !decide_False by (done || by rewrite HQ). done.
Qed.

Lemma table_is_filter (Q : K → Prop) `{HdQ : ∀ kv : K * V, Decision (Q kv.1)} (P : row → Prop) `{∀ r, Decision (P r)} l x :
  (∀ k v, P (enc k v) ↔ Q k) → table_is enc ok l x → table_is enc ok (filter P l) (filter (λ kv, Q kv.1) x).
Proof.
  intros HQ Ht. split; [by apply select_rows|]. intros k v [Hv _]%map_lookup_filter_Some. by apply (ti_ok _ _ _ _ Ht).
Qed.

(** *** One key *)

Context (P : K → row → bool) (HP : ∀ k k' v, P k (enc k' v) = bool_decide (k' = k)).

Lemma select_key k l x : table_is enc ok l x →
  filter (λ r, P k r = true) l = match x !! k with Some v => [enc k v] | None => [] end.
Proof.
  intros Ht. assert (filter (λ r, P k r = true) l ≡ₚ match x !! k with Some v => [enc k v] | None => [] end) as Hp.
  { rewrite (select_rows (λ k', k' = k) _ l x) by (done || (intros; rewrite HP; by rewrite bool_decide_eq_true)).
    destruct (x !! k) as [v|] eqn:E.
    - replace (filter (λ kv, kv.1 = k) x) with ({[k := v]} : gmap K V); [by rewrite map_to_list_singleton|].
      apply map_eq. intros k'. destruct (decide (k' = k)) as [->|Hk].
      + rewrite lookup_singleton_eq. symmetry. by apply map_lookup_filter_Some.
      + rewrite lookup_singleton_ne by done. symmetry. apply map_lookup_filter_None. right. intros v' _ Hk'. by apply Hk.
    - replace (filter (λ kv, kv.1 = k) x) with (∅ : gmap K V); [by rewrite map_to_list_empty|].
      symmetry. apply map_eq. intros k'. rewrite lookup_empty. apply map_lookup_filter_None.
      destruct (decide (k' = k)) as [->|Hk]; [by left|]. right. intros v' _ Hk'. by apply Hk. }
  destruct (x !! k); [by apply Permutation_singleton_r|by apply Permutation_nil_r].
Qed.

Lemma count_key k l x : table_is enc ok l x →
  length (filter (λ r, P k r = true) l) = (if bool_decide (is_Some (x !! k)) then 1 else 0)%nat.
Proof.
  intros Ht. rewrite (select_key k l x Ht). destruct (x !! k).
  - by rewrite bool_decide_true by eauto.
  - rewrite bool_decide_false; [done|by intros []].
Qed.

Lemma table_is_insert k v l x : table_is enc ok l x → x !! k = None → ok k v → table_is enc ok (l ++ [enc k v]) (<[k := v]> x).
Proof.
  intros [Hl Ho] Hk Hv. split; [|by apply map_Forall_insert_2].
  rewrite map_to_list_insert, Hl by done. cbn. by rewrite Permutation_app_comm.
Qed.

Lemma table_is_delete k l x : table_is enc ok l x → table_is enc ok (filter (λ r, P k r = false) l) (delete k x).
Proof.
  intros Ht. replace (delete k x) with (filter (λ kv, kv.1 ≠ k) x).
  - apply (table_is_filter (λ k', k' ≠ k) (λ r, P k r = false)); [|done]. intros k' v. by rewrite HP, bool_decide_eq_false.
  - apply map_eq. intros k'. destruct (decide (k' = k)) as [->|Hk].
    + rewrite lookup_delete_eq. apply map_lookup_filter_None. right. by intros v _ Hk.
    + rewrite lookup_delete_ne by done. destruct (x !! k') eqn:E.
      * by apply map_lookup_filter_Some.
      * apply map_lookup_filter_None. by left.
Qed.

Lemma rows_at k v l x : table_is enc ok l x → x !! k = Some v → l ≡ₚ enc k v :: (uncurry enc <$> map_to_list (delete k x)).
Proof. intros [Hl _] Hk. rewrite Hl. rewrite <- (insert_delete_id x k v Hk) at 1. by rewrite map_to_list_insert by apply lookup_delete_eq. Qed.

Lemma no_row_key k l x : table_is enc ok l x → no_row (P k) l ↔ x !! k = None.
Proof.
  intros Ht. pose proof (select_key k l x Ht) as Hs. unfold no_row. rewrite Forall_forall. split.
  - intros Hn. destruct (x !! k) as [v|]; [|done]. assert (enc k v ∈ filter (λ r, P k r = true) l) as Hin by (rewrite Hs; by left).
    apply list_elem_of_filter in Hin as [Ht' Hin]. by rewrite (Hn _ Hin) in Ht'.
  - intros Hk r Hr. rewrite Hk in Hs. destruct (P k r) eqn:E; [|done]. assert (r ∈ filter (λ r, P k r = true) l) as Hin.
    { by apply list_elem_of_filter. } by rewrite Hs in Hin; apply not_elem_of_nil in Hin.
Qed.

(** Replacing the row of a key. *)
Lemma one_row_key k (g : row → list row) l l' x : table_is enc ok l x → one_row (P k) g l l' →
  ∃ v, x !! k = Some v ∧ l' ≡ₚ g (enc k v) ++ (uncurry enc <$> map_to_list (delete k x)).
Proof.
  intros Ht Ho. revert Ht. destruct Ho as [l1 r l2 Hr]. intros Ht. pose proof (select_key k _ x Ht) as Hs.
  assert (r ∈ filter (λ r, P k r = true) (l1 ++ r :: l2)) as Hin by (apply list_elem_of_filter; split; [done|set_solver]).
  rewrite Hs in Hin. destruct (x !! k) as [v|] eqn:E; [|by apply not_elem_of_nil in Hin].
  apply list_elem_of_singleton in Hin as ->. exists v. split; [done|].
  pose proof (rows_at k v _ x Ht E) as Hp. rewrite <- Permutation_middle in Hp. apply Permutation_cons_inv in Hp.
  rewrite <- Hp. apply Permutation_app_swap_app.
Qed.

Lemma one_row_set k v' (g : row → row) l l' x : table_is enc ok l x → one_row (P k) (λ r, [g r]) l l' →
  (∀ v, x !! k = Some v → g (enc k v) = enc k v') → ok k v' → table_is enc ok l' (<[k := v']> x).
Proof.
  intros Ht Ho Hg Hv. destruct (one_row_key k _ l l' x Ht Ho) as (v & Hk & Hp). split.
  - rewrite Hp. cbn. rewrite (Hg v Hk). rewrite <- insert_delete_eq. by rewrite map_to_list_insert by apply lookup_delete_eq.
  - by apply map_Forall_insert_2; [|apply (ti_ok _ _ _ _ Ht)].
Qed.

Lemma one_row_removed k l l' x : table_is enc ok l x → one_row (P k) (λ _, []) l l' →
  is_Some (x !! k) ∧ table_is enc ok l' (delete k x).
Proof.
  intros Ht Ho. destruct (one_row_key k _ l l' x Ht Ho) as (v & Hk & Hp). split; [eauto|]. split; [done|].
  apply map_Forall_delete, (ti_ok _ _ _ _ Ht).
Qed.

Lemma every_row_set k (v' : V → V) (g : row → row) l x : table_is enc ok l x →
  (∀ v, x !! k = Some v → g (enc k v) = enc k (v' v) ∧ ok k (v' v)) →
  table_is enc ok ((λ r, if P k r then g r else r) <$> l) (match x !! k with Some v => <[k := v' v]> x | None => x end).
Proof.
  intros Ht Hg. pose proof (no_row_key k l x Ht) as Hn. destruct (x !! k) as [v|] eqn:E.
  - destruct (Hg v eq_refl) as [Hg' Hv]. split; [|by apply map_Forall_insert_2; [|apply (ti_ok _ _ _ _ Ht)]].
    rewrite (rows_at k v l x Ht E), fmap_cons, HP, bool_decide_true, Hg' by done.
    rewrite <- insert_delete_eq, map_to_list_insert by apply lookup_delete_eq. cbn. f_equiv.
    rewrite <- list_fmap_compose. erewrite list_fmap_ext; [reflexivity|]. intros i [k' w] Hi%list_elem_of_lookup_2. cbn.
    apply elem_of_map_to_list in Hi. rewrite HP, bool_decide_false; [done|]. intros ->. by rewrite lookup_delete_eq in Hi.
  - replace ((λ r, if P k r then g r else r) <$> l) with l; [done|]. symmetry. rewrite <- (list_fmap_id l) at 2.
    apply list_fmap_ext. intros i r Hi%list_elem_of_lookup_2. destruct Hn as [_ Hn]. specialize (Hn eq_refl).
    unfold no_row in Hn. rewrite Forall_forall in Hn. by rewrite (Hn r Hi).
Qed.
End Keyed.

(** *** Listings *)

Lemma filter_fmap {A B} (f : A → B) (P : B → Prop) (P' : A → Prop) `{∀ b, Decision (P b), ∀ a, Decision (P' a)} (l : list A) :
  (∀ a, a ∈ l → P (f a) ↔ P' a) → filter P (f <$> l) = f <$> filter P' l.
Proof.
  induction l as [|a l IH]; [done|]. intros Hl. rewrite fmap_cons, !filter_cons, IH by (intros; apply Hl; by right).
  specialize (Hl a ltac:(by left)). destruct (decide (P' a)) as [Ha|Ha].
  - by rewrite decide_True by (by apply Hl).
  - by rewrite decide_False by (by rewrite Hl).
Qed.

Lemma Sorted_map {A B} (f : A → B) (R : relation A) (R' : relation B) l :
  (∀ x y, R' (f x) (f y) → R x y) → Sorted R' (f <$> l) → Sorted R l.
Proof.
  intros HR. induction l as [|x l IH]; [constructor|]. intros Hs. inversion Hs as [|? ? Hs' Hh]; subst.
  constructor; [by apply IH|]. destruct l as [|y l]; [constructor|]. constructor. inversion Hh; subst. by apply HR.
Qed.

(** The values at the keys that [sub] reaches. *)
Lemma lists_sub {K V} `{Countable K} (x : gmap K V) (sub : string → K) (unsub : K → string) kvs :
  (∀ y, unsub (sub y) = y) → kvs ≡ₚ map_to_list (filter (λ kv, sub (unsub kv.1) = kv.1) x) →
  lists (λ y, x !! sub y) kvs.*2.
Proof.
  intros Hu Hp. assert (∀ k v, (k, v) ∈ kvs ↔ x !! k = Some v ∧ sub (unsub k) = k) as Hin.
  { intros k v. rewrite Hp, elem_of_map_to_list, map_lookup_filter_Some. done. }
  exists (prod_map unsub id <$> kvs). split; [by rewrite <- list_fmap_compose|]. split.
  - replace ((prod_map unsub id <$> kvs).*1) with (unsub <$> kvs.*1) by (by rewrite <- !list_fmap_compose).
    apply NoDup_fmap_2_strong; [|rewrite Hp; apply NoDup_fst_map_to_list].
    intros k k' ([? v] & -> & Hk)%list_elem_of_fmap ([? v'] & -> & Hk')%list_elem_of_fmap E. cbn in *.
    apply Hin in Hk as [_ <-], Hk' as [_ <-]. by rewrite E.
  - intros y v. rewrite list_elem_of_fmap. split.
    + intros ([k w] & [= -> ->] & [Hx Hs]%Hin). cbn. by rewrite Hs.
    + intros Hx. exists (sub y, v). cbn. rewrite Hu. split; [done|]. apply Hin. by rewrite Hu.
Qed.

(** ** The rows of the records *)

Definition user_cols (u : User) : row :=
  [("password", VText (Password u)); ("salt", VText (Salt u));
   ("iterations", VInt (Iterations u)); ("server_key", VText (ServerKey u)); ("stored_key", VText (StoredKey u));
   ("created_at", VTime (u_CreatedAt u)); ("updated_at", VTime (u_UpdatedAt u))]%string.
(** What an update of a user sets: the creation time is left alone. *)
Definition user_changes (now : time) (u : User) : row :=
  [("password", VText (Password u)); ("salt", VText (Salt u)); ("iterations", VInt (Iterations u));
   ("server_key", VText (ServerKey u)); ("stored_key", VText (StoredKey u)); ("updated_at", VTime now)]%string.
Definition roster_cols (groups : string * (list string → value)) (i : RosterItem) : row :=
  [("name", VText (r_Name i)); ("subscription", VText (Subscription i)); ("ask", VText (Ask i));
   (groups.1, groups.2 (Groups i))]%string.
Definition offline_row (m : OfflineMessage) : row :=
  [("id", VText (o_ID m)); ("user_jid", VText (o_UserJID m)); ("from_jid", VText (o_FromJID m));
   ("data", VBlob (o_Data m)); ("created_at", VTime (o_CreatedAt m))]%string.
Definition archived_row (m : ArchivedMessage) : row :=
  [("id", VText (a_ID m)); ("user_jid", VText (a_UserJID m)); ("with_jid", VText (a_WithJID m));
   ("from_jid", VText (a_FromJID m)); ("data", VBlob (a_Data m)); ("created_at", VTime (a_CreatedAt m))]%string.
Definition room_cols (r : MUCRoom) : row :=
  [("name", VText (m_Name r)); ("description", VText (Description r)); ("subject", VText (Subject r));
   ("password", VText (m_Password r)); ("is_public", VBool (Public r)); ("is_persistent", VBool (Persistent r));
   ("max_users", VInt (MaxUsers r))]%string.
Definition aff_cols (f : MUCAffiliation) : row :=
  [("affiliation", VText (Affiliation f)); ("reason", VText (Reason f))]%string.
Definition node_cols (n : PubSubNode) : row :=
  [("name", VText (n_Name n)); ("type", VText (n_Type n)); ("creator", VText (Creator n))]%string.
Definition item_cols (i : PubSubItem) : row :=
  [("publisher", VText (Publisher i)); ("payload", VBlob (i_Payload i)); ("created_at", VTime (i_CreatedAt i))]%string.
Definition sub_cols (s : PubSubSubscription) : row :=
  [("sub_id", VText (SubID s)); ("state", VText (s_State s))]%string.
Definition bookmark_cols (b : Bookmark) : row :=
  [("name", VText (b_Name b)); ("nick", VText (Nick b)); ("password", VText (b_Password b));
   ("autojoin", VBool (Autojoin b))]%string.

(** Keys. *)
Definition by_name (n : string) : row := [("username", VText n)]%string.
Definition by_user (u : string) : row := [("user_jid", VText u)]%string.
Definition by_contact (k : string * string) : row := [("user_jid", VText k.1); ("contact_jid", VText k.2)]%string.
Definition by_blocked (k : string * string) : row := [("user_jid", VText k.1); ("blocked_jid", VText k.2)]%string.
Definition by_room (r : string) : row := [("room_jid", VText r)]%string.
Definition by_affiliate (k : string * string) : row := [("room_jid", VText k.1); ("user_jid", VText k.2)]%string.
Definition by_host (h : string) : row := [("host", VText h)]%string.
Definition by_node (k : string * string) : row := [("host", VText k.1); ("node_id", VText k.2)]%string.
Definition by_item (k : string * string * string) : row :=
  [("host", VText k.1.1); ("node_id", VText k.1.2); ("item_id", VText k.2)]%string.
Definition by_jid (k : string * string * string) : row :=
  [("host", VText k.1.1); ("node_id", VText k.1.2); ("jid", VText k.2)]%string.
Definition by_host_jid (h j : string) : row := [("host", VText h); ("jid", VText j)]%string.
Definition by_bookmark (k : string * string) : row := [("user_jid", VText k.1); ("room_jid", VText k.2)]%string.

(** ** The store program *)

(** How a backend differs: whether deletions and searches by key stop at the first
    document, whether an upsert also sets the key, which answers mean that the key
    was taken, the column of the roster groups, and how rows are read. *)
Record variant := mkVariant {
  v_one : bool; v_set_keys : bool; v_dup : result → bool; v_groups : string * (list string → value);
  de_user : row → option User; de_password : row → option string; de_roster : row → option RosterItem;
  de_version : row → option string; de_blocked : row → option string; de_vcard : row → option bytes;
  de_offline : row → option OfflineMessage; de_archived : row → option ArchivedMessage;
  de_room : row → option MUCRoom; de_aff : row → option MUCAffiliation; de_node : row → option PubSubNode;
  de_item : row → option PubSubItem; de_sub : row → option PubSubSubscription; de_bookmark : row → option Bookmark;
  (* the columns a call reads *)
  v_cols : call → list string
}.

Inductive table_error := TStorage (e : storage_error) | TDatabase | TDecode.

Section Program.
Context {D : Type} `{Tables D}.
Notation TM A := (M D table_error A).

Definition t_exec (o : op) : TM Z :=
  λ d, let '(d', y) := tdo o d in (d', match y with RCount n => Ok n | _ => Err TDatabase end).
Definition t_query (o : op) : TM (list row) :=
  λ d, let '(d', y) := tdo o d in (d', match y with RRows l => Ok l | _ => Err TDatabase end).
(** An insertion where a taken key is [ErrUserExists]. *)
Definition t_create (dup : result → bool) (o : op) : TM unit :=
  λ d, let '(d', y) := tdo o d in
       (d', match y with
            | RCount _ => Ok tt
            | _ => if dup y then Err (TStorage ErrUserExists) else Err TDatabase
            end).
(** [if n == 0 { return ErrNotFound }]. *)
Definition t_need (o : op) : TM unit :=
  do n <- t_exec o; if (n =? 0)%Z then merr (TStorage ErrNotFound) else mok tt.
(** [_, _ = ...]. *)
Definition t_drop (o : op) : TM unit := λ d, ((tdo o d).1, Ok tt).

Definition t_decode {A} (dec : row → option A) (r : row) : res table_error A :=
  match dec r with Some a => Ok a | None => Err TDecode end.
Fixpoint t_decode_all {A} (dec : row → option A) (l : list row) : res table_error (list A) :=
  match l with
  | [] => Ok []
  | r :: l' => try a <- t_decode dec r; try as_ <- t_decode_all dec l'; Ok (a :: as_)
  end.
Definition t_list {A} (dec : row → option A) (o : op) : TM (list A) :=
  do l <- t_query o; mlift (t_decode_all dec l).
(** The first row, if any. *)
Definition t_first {A} (dec : row → option A) (o : op) : TM (option A) :=
  do l <- t_query o;
  match l with [] => mok None | r :: _ => do a <- mlift (t_decode dec r); mok (Some a) end.
Definition t_get {A} (dec : row → option A) (o : op) : TM A :=
  do x <- t_first dec o; match x with Some a => mok a | None => merr (TStorage ErrNotFound) end.
Definition t_unit {A} (p : TM A) : TM unit := do_ p; mok tt.
Definition t_exists (o : op) : TM bool := do n <- t_exec o; mok (0 <? n)%Z.

Definition t_answer {A} (f : A → answer) (p : TM A) : D → D * answer :=
  λ d, let '(d', x) := p d in
       (d', match x with Ok a => f a | Err (TStorage e) => AErr e | Err _ => AFailed | Panic => APanic end).
End Program.

(** The page made of the rows found, one more than asked for. *)
Definition mam_page (max : Z) (msgs : list ArchivedMessage) : MAMResult :=
  let complete := (Z.of_nat (length msgs) <=? max)%Z in
  let msgs := if (max <? Z.of_nat (length msgs))%Z then take (Z.to_nat max) msgs else msgs in
  mkMAMResult msgs complete
    (match msgs with m :: _ => a_ID m | [] => ""%string end)
    (match last msgs with Some m => a_ID m | None => ""%string end)
    (Z.of_nat (length msgs)).
Definition mam_max (q : MAMQuery) : Z := if (q_Max q <=? 0)%Z then 100%Z else q_Max q.

Definition mam_condition (q : MAMQuery) : condition :=
  [("user_jid"%string, CEq, VText (q_UserJID q))] ++
  (if bool_decide (q_WithJID q ≠ ""%string) then [("with_jid"%string, CEq, VText (q_WithJID q))] else []) ++
  (if negb (IsZero (q_Start q)) then [("created_at"%string, CGe, VTime (q_Start q))] else []) ++
  (if negb (IsZero (q_End q)) then [("created_at"%string, CLe, VTime (q_End q))] else []) ++
  (if bool_decide (q_AfterID q ≠ ""%string) then [("id"%string, CGt, VText (q_AfterID q))] else []) ++
  (if bool_decide (q_BeforeID q ≠ ""%string) then [("id"%string, CLt, VText (q_BeforeID q))] else []).

Definition archived_at (now : time) (m : ArchivedMessage) : ArchivedMessage :=
  mkArchived (a_ID m) (a_UserJID m) (a_WithJID m) (a_FromJID m) (a_Data m) (stamp now (a_CreatedAt m)).

(** *** The operations each call sends *)
Section Ops.
Context (V : variant) (now : time).

Definition find1 (cs : list string) (t : string) (f : row) : op := OFind cs t (equals f) None (if v_one V then Some 1%Z else None).
Definition find_all (cs : list string) (t : string) (f : row) : op := OFind cs t (equals f) None None.
Definition upsert (t : string) (f s : row) : op := OUpsert t f (if v_set_keys V then f ++ s else s).
Definition delete1 (t : string) (f : row) : op := ODelete t (equals f) (v_one V).
Definition delete_all (t : string) (f : row) : op := ODelete t (equals f) false.

Definition op_of (k : call) : op :=
  match k with
  | CCreateUser u => OInsert "users" (by_name (Username u) ++ user_cols (new_user now u))
  | CGetUser n | CAuthenticate n _ => find1 (v_cols V k) "users" (by_name n)
  | CUpdateUser u => OUpdate "users" (equals (by_name (Username u))) (user_changes now u) (v_one V)
  | CDeleteUser n => delete1 "users" (by_name n)
  | CUserExists n => OCount "users" (equals (by_name n))
  | CUpsertRosterItem i => upsert "roster_items" (by_contact (r_UserJID i, ContactJID i)) (roster_cols (v_groups V) i)
  | CGetRosterItem u c => find1 (v_cols V k) "roster_items" (by_contact (u, c))
  | CGetRosterItems u => find_all (v_cols V k) "roster_items" (by_user u)
  | CDeleteRosterItem u c => delete1 "roster_items" (by_contact (u, c))
  | CGetRosterVersion u => find1 (v_cols V k) "roster_versions" (by_user u)
  | CSetRosterVersion u v => OUpsert "roster_versions" (by_user u) [("version", VText v)]
  | CBlockJID u j => upsert "blocked_jids" (by_blocked (u, j)) []
  | CUnblockJID u j => delete1 "blocked_jids" (by_blocked (u, j))
  | CIsBlocked u j => OCount "blocked_jids" (equals (by_blocked (u, j)))
  | CGetBlockedJIDs u => find_all (v_cols V k) "blocked_jids" (by_user u)
  | CSetVCard u d => upsert "vcards" (by_user u) [("data", VBlob d)]
  | CGetVCard u => find1 (v_cols V k) "vcards" (by_user u)
  | CDeleteVCard u => delete1 "vcards" (by_user u)
  | CStoreOfflineMessage m => OInsert "offline_messages" (offline_row (stamped_offline now m))
  | CGetOfflineMessages u => OFind (v_cols V k) "offline_messages" (equals (by_user u)) (Some "created_at") None
  | CDeleteOfflineMessages u => delete_all "offline_messages" (by_user u)
  | CCountOfflineMessages u => OCount "offline_messages" (equals (by_user u))
  | CArchiveMessage m => OInsert "mam_messages" (archived_row (archived_at now m))
  | CQueryMessages q => OFind (v_cols V k) "mam_messages" (mam_condition q) (Some "created_at") (Some (i64_succ (mam_max q)))
  | CDeleteMessageArchive u => delete_all "mam_messages" (by_user u)
  | CCreateRoom r => OInsert "muc_rooms" (by_room (m_RoomJID r) ++ room_cols r)
  | CGetRoom r => find1 (v_cols V k) "muc_rooms" (by_room r)
  | CUpdateRoom r => OUpdate "muc_rooms" (equals (by_room (m_RoomJID r))) (room_cols r) (v_one V)
  | CDeleteRoom r => delete1 "muc_rooms" (by_room r)
  | CListRooms => find_all (v_cols V k) "muc_rooms" []
  | CSetAffiliation f => upsert "muc_affiliations" (by_affiliate (f_RoomJID f, f_UserJID f)) (aff_cols f)
  | CGetAffiliation r u => find1 (v_cols V k) "muc_affiliations" (by_affiliate (r, u))
  | CGetAffiliations r => find_all (v_cols V k) "muc_affiliations" (by_room r)
  | CRemoveAffiliation r u => delete1 "muc_affiliations" (by_affiliate (r, u))
  | CCreateNode n => OInsert "pubsub_nodes" (by_node (n_Host n, n_NodeID n) ++ node_cols n)
  | CGetNode h n => find1 (v_cols V k) "pubsub_nodes" (by_node (h, n))
  | CDeleteNode h n => delete1 "pubsub_nodes" (by_node (h, n))
  | CListNodes h => find_all (v_cols V k) "pubsub_nodes" (by_host h)
  | CUpsertItem i => upsert "pubsub_items" (by_item (i_Host i, i_NodeID i, i_ItemID i)) (item_cols (stamped_item now i))
  | CGetItem h n i => find1 (v_cols V k) "pubsub_items" (by_item (h, n, i))
  | CGetItems h n => OFind (v_cols V k) "pubsub_items" (equals (by_node (h, n))) (Some "created_at") None
  | CDeleteItem h n i => delete1 "pubsub_items" (by_item (h, n, i))
  | CSubscribe s => upsert "pubsub_subscriptions" (by_jid (s_Host s, s_NodeID s, s_JID s)) (sub_cols s)
  | CUnsubscribe h n j => delete1 "pubsub_subscriptions" (by_jid (h, n, j))
  | CGetSubscription h n j => find1 (v_cols V k) "pubsub_subscriptions" (by_jid (h, n, j))
  | CGetSubscriptions h n => find_all (v_cols V k) "pubsub_subscriptions" (by_node (h, n))
  | CGetUserSubscriptions h j => find_all (v_cols V k) "pubsub_subscriptions" (by_host_jid h j)
  | CSetBookmark b => upsert "bookmarks" (by_bookmark (b_UserJID b, b_RoomJID b)) (bookmark_cols b)
  | CGetBookmark u r => find1 (v_cols V k) "bookmarks" (by_bookmark (u, r))
  | CGetBookmarks u => find_all (v_cols V k) "bookmarks" (by_user u)
  | CDeleteBookmark u r => delete1 "bookmarks" (by_bookmark (u, r))
  end%string.

(** The clean-up that follows the removal of a room or a node. *)
Definition cleanup (c : call) : list op :=
  match c with
  | CDeleteRoom r => [delete_all "muc_affiliations" (by_room r)]
  | CDeleteNode h n => [delete_all "pubsub_items" (by_node (h, n)); delete_all "pubsub_subscriptions" (by_node (h, n))]
  | _ => []
  end%string.
End Ops.

(** *** The calls *)

Notation unit_of := (λ _ : unit, AUnit).

Definition store_call {D} `{Tables D} (V : variant) (now : time) (c : call) : D → D * answer :=
  let o := op_of V now c in
  match c with
  | CCreateUser _ | CCreateRoom _ | CCreateNode _ => t_answer unit_of (t_create (v_dup V) o)
  | CUpdateUser _ | CUpdateRoom _ | CDeleteUser _ | CDeleteRosterItem _ _ | CDeleteVCard _ | CDeleteItem _ _ _
  | CDeleteBookmark _ _ => t_answer unit_of (t_need o)
  | CDeleteRoom r => t_answer unit_of (do_ t_need o; t_drop (delete_all "muc_affiliations" (by_room r)))
  | CDeleteNode h n => t_answer unit_of
      (do_ t_need o; do_ t_drop (delete_all "pubsub_items" (by_node (h, n)));
       t_drop (delete_all "pubsub_subscriptions" (by_node (h, n))))
  | CUserExists _ | CIsBlocked _ _ => t_answer ABool (t_exists o)
  | CCountOfflineMessages _ => t_answer ACount (t_exec o)
  | CAuthenticate _ p => t_answer ABool
      (do x <- t_first (de_password V) o;
       match x with
       | None => merr (TStorage ErrAuthFailed)
       | Some w => if bool_decide (w ≠ p) then merr (TStorage ErrAuthFailed) else mok true
       end)
  | CGetRosterVersion _ => t_answer AStr (do x <- t_first (de_version V) o; mok (default ""%string x))
  | CUpsertRosterItem _ | CSetRosterVersion _ _ | CBlockJID _ _ | CUnblockJID _ _ | CSetVCard _ _
  | CStoreOfflineMessage _ | CDeleteOfflineMessages _ | CArchiveMessage _ | CDeleteMessageArchive _
  | CSetAffiliation _ | CRemoveAffiliation _ _ | CUpsertItem _ | CSubscribe _ | CUnsubscribe _ _ _
  | CSetBookmark _ => t_answer unit_of (t_unit (t_exec o))
  | CGetUser _ => t_answer AUser (t_get (de_user V) o)
  | CGetRosterItem _ _ => t_answer ARoster (t_get (de_roster V) o)
  | CGetVCard _ => t_answer ABytes (t_get (de_vcard V) o)
  | CGetRoom _ => t_answer ARoom (t_get (de_room V) o)
  | CGetAffiliation _ _ => t_answer AAff (t_get (de_aff V) o)
  | CGetNode _ _ => t_answer ANode (t_get (de_node V) o)
  | CGetItem _ _ _ => t_answer AItem (t_get (de_item V) o)
  | CGetSubscription _ _ _ => t_answer ASub (t_get (de_sub V) o)
  | CGetBookmark _ _ => t_answer ABookmark (t_get (de_bookmark V) o)
  | CGetRosterItems _ => t_answer ARosters (t_list (de_roster V) o)
  | CGetBlockedJIDs _ => t_answer AStrs (t_list (de_blocked V) o)
  | CGetOfflineMessages _ => t_answer AOffline (t_list (de_offline V) o)
  | CListRooms => t_answer ARooms (t_list (de_room V) o)
  | CGetAffiliations _ => t_answer AAffs (t_list (de_aff V) o)
  | CListNodes _ => t_answer ANodes (t_list (de_node V) o)
  | CGetItems _ _ => t_answer AItems (t_list (de_item V) o)
  | CGetSubscriptions _ _ | CGetUserSubscriptions _ _ => t_answer ASubs (t_list (de_sub V) o)
  | CGetBookmarks _ => t_answer ABookmarks (t_list (de_bookmark V) o)
  | CQueryMessages q => t_answer AMAM (do l <- t_list (de_archived V) o; mok (mam_page (mam_max q) l))
  end%string.

(** ** The contract as a database keeps it

    Times are kept with the precision of the engine, an update of a user keeps
    its creation time, offline messages and archives come in the order of their
    times, archives are paged by comparing identifiers, and the configuration of
    a node is not kept. *)
Section TableSpec.
Context `{Engine} (now : time).

Definition precise_user (u : User) : User :=
  mkUser (Username u) (Password u) (Salt u) (Iterations u) (ServerKey u) (StoredKey u)
    (precise (u_CreatedAt u)) (precise (u_UpdatedAt u)).
(** The stored user [old], updated. *)
Definition changed_user (old u : User) : User :=
  mkUser (Username u) (Password u) (Salt u) (Iterations u) (ServerKey u) (StoredKey u) (u_CreatedAt old) (precise now).
Definition kept_offline (m : OfflineMessage) : OfflineMessage :=
  mkOffline (o_ID m) (o_UserJID m) (o_FromJID m) (o_Data m) (precise (stamp now (o_CreatedAt m))).
Definition kept_archived (m : ArchivedMessage) : ArchivedMessage :=
  mkArchived (a_ID m) (a_UserJID m) (a_WithJID m) (a_FromJID m) (a_Data m) (precise (stamp now (a_CreatedAt m))).
Definition kept_item (i : PubSubItem) : PubSubItem :=
  mkItem (i_Host i) (i_NodeID i) (i_ItemID i) (Publisher i) (i_Payload i) (precise (stamp now (i_CreatedAt i))).
Definition kept_node (n : PubSubNode) : PubSubNode := mkNode (n_Host n) (n_NodeID n) (n_Name n) (n_Type n) None (Creator n).

Definition offline_le (x y : OfflineMessage) : Prop := (o_CreatedAt x <= o_CreatedAt y)%Z.
Definition archived_le (x y : ArchivedMessage) : Prop := (a_CreatedAt x <= a_CreatedAt y)%Z.

(** What a query selects, and the page made of all it selects. *)
Definition queried (q : MAMQuery) (m : ArchivedMessage) : Prop :=
  selected q m ∧ (q_AfterID q = ""%string ∨ text_lt (q_AfterID q) (a_ID m) = true) ∧
  (q_BeforeID q = ""%string ∨ text_lt (a_ID m) (q_BeforeID q) = true).
#[global] Instance queried_dec q m : Decision (queried q m).
Proof. unfold queried. apply _. Defined.
Definition page_of (q : MAMQuery) (all : list ArchivedMessage) : MAMResult :=
  let page := take (page_size q) all in
  mkMAMResult page (bool_decide (length all ≤ page_size q)%nat)
    (default ""%string (a_ID <$> head page)) (default ""%string (a_ID <$> last page)) (Z.of_nat (length page)).

Definition table_spec (c : call) (a : spec) : spec * (answer → Prop) :=
  match c with
  | CCreateUser u =>
      match sp_users a !! Username u with
      | Some _ => (a, answers (AErr ErrUserExists))
      | None => (put_users (<[Username u := precise_user (new_user now u)]> (sp_users a)) a, answers AUnit)
      end
  | CUpdateUser u =>
      match sp_users a !! Username u with
      | Some old => (put_users (<[Username u := changed_user old u]> (sp_users a)) a, answers AUnit)
      | None => (a, answers (AErr ErrNotFound))
      end
  | CStoreOfflineMessage m =>
      (put_offline (<[o_UserJID m := default [] (sp_offline a !! o_UserJID m) ++ [kept_offline m]]> (sp_offline a)) a, answers AUnit)
  | CGetOfflineMessages u =>
      (a, λ r, ∃ l, r = AOffline l ∧ Sorted offline_le l ∧ l ≡ₚ default [] (sp_offline a !! u))
  | CArchiveMessage m =>
      (put_mam (<[a_UserJID m := default [] (sp_mam a !! a_UserJID m) ++ [kept_archived m]]> (sp_mam a)) a, answers AUnit)
  | CQueryMessages q =>
      (a, λ r, ∃ all, r = AMAM (page_of q all) ∧ Sorted archived_le all ∧
                 all ≡ₚ filter (queried q) (default [] (sp_mam a !! q_UserJID q)))
  | CCreateNode n =>
      match sp_nodes a !! (n_Host n, n_NodeID n) with
      | Some _ => (a, answers (AErr ErrUserExists))
      | None => (put_nodes (<[(n_Host n, n_NodeID n) := kept_node n]> (sp_nodes a)) a, answers AUnit)
      end
  | CUpsertItem i =>
      (put_items (<[(i_Host i, i_NodeID i, i_ItemID i) := kept_item i]> (sp_items a)) a, answers AUnit)
  | _ => spec_call now c a
  end.
End TableSpec.

(** ** The simulation *)

(** A key that finds its own rows only. *)
Class Key `{Engine} {K : Type} `{EqDecision K} (key : K → row) :=
  key_holds k k' s : holds (equals (key k)) (key k' ++ s) = bool_decide (k' = k).

Section Simulation.
Context `{Engine} {D : Type} `{!Tables D} {unique : string → option (list string)} {contents : D → tables}.
Context `{!TablesLaws D unique contents}.
Notation wp := (wp contents).

Lemma wp_do {A} (o : op) (f : result → res table_error A) db Q :
  acceptable o → (∀ db' y, sem unique o db db' y → Q (f y) db') →
  wp (λ d, let '(d', y) := tdo o d in (d', f y)) db Q.
Proof.
  intros Ho HQ d <-. pose proof (tables_law o d Ho) as Hs. destruct (tdo o d) as [d' y]. by apply HQ.
Qed.
Lemma wp_t_exec o db Q : acceptable o →
  (∀ db' y, sem unique o db db' y → Q (match y with RCount n => Ok n | _ => Err TDatabase end) db') → wp (t_exec o) db Q.
Proof. apply wp_do. Qed.
Lemma wp_t_query o db Q : acceptable o →
  (∀ db' y, sem unique o db db' y → Q (match y with RRows l => Ok l | _ => Err TDatabase end) db') → wp (t_query o) db Q.
Proof. apply wp_do. Qed.
Lemma wp_t_drop o db Q : acceptable o → (∀ db' y, sem unique o db db' y → Q (Ok tt) db') → wp (t_drop o) db Q.
Proof. intros Ho HQ d <-. unfold t_drop. pose proof (tables_law o d Ho) as Hs. destruct (tdo o d) as [d' y]. by eapply HQ. Qed.

(** What is left alone. *)
Definition same_but (ts : list string) (db db' : tables) : Prop := ∀ t, t ∉ ts → rows db' t = rows db t.
Lemma rows_insert_eq t l db : rows (<[t := l]> db) t = l.
Proof. unfold rows. by rewrite lookup_insert_eq. Qed.
Lemma rows_insert_ne t t' l db : t ≠ t' → rows (<[t := l]> db) t' = rows db t'.
Proof. intros. unfold rows. by rewrite lookup_insert_ne. Qed.
Lemma same_but_insert t l db : same_but [t] db (<[t := l]> db).
Proof. intros t' Ht. apply rows_insert_ne. set_solver. Qed.
Lemma same_but_refl ts db : same_but ts db db.
Proof. done. Qed.

Context (V : variant).

Section KeyedWp.
Context {K X : Type} `{Countable K} (t : string) (key : K → row) `{!Key key} (cols : X → row) (ok : K → X → Prop).
Notation enc := (λ k v, key k ++ cols v).
Notation is_table := (table_is enc ok).
Context (db : tables) (x : gmap K X) (Ht : is_table (rows db t) x).

Lemma P_key k k' v : holds (equals (key k)) (enc k' v) = bool_decide (k' = k).
Proof. apply key_holds. Qed.

Lemma wp_first {A cs} (dec : row → option A) (g : X → A) k Q :
  acceptable (find1 V cs t (key k)) → (∀ v, x !! k = Some v → dec (enc k v) = Some (g v)) →
  Q (Ok (g <$> x !! k)) db → wp (t_first dec (find1 V cs t (key k))) db Q.
Proof.
  intros Ho Hdec HQ. unfold t_first. apply wp_bind, wp_t_query; [done|]. intros db' y. cbn [sem find1].
  intros (-> & l & Hl & _ & ->). rewrite (select_key enc ok (λ k, holds (equals (key k))) P_key k _ x Ht) in Hl.
  assert (limited (if v_one V then Some 1%Z else None) l = l) as ->.
  { apply Permutation_length in Hl. destruct (v_one V); [|done]. cbn [limited]. apply take_ge. rewrite Hl. destruct (x !! k); cbn; lia. }
  destruct (x !! k) as [v|] eqn:E.
  - apply Permutation_singleton_r in Hl as ->. apply wp_bind, wp_lift. unfold t_decode. rewrite (Hdec v eq_refl). by apply wp_ok.
  - apply Permutation_nil_r in Hl as ->. by apply wp_ok.
Qed.

Lemma wp_get {A cs} (dec : row → option A) (g : X → A) k Q :
  acceptable (find1 V cs t (key k)) → (∀ v, x !! k = Some v → dec (enc k v) = Some (g v)) →
  Q (match x !! k with Some v => Ok (g v) | None => Err (TStorage ErrNotFound) end) db →
  wp (t_get dec (find1 V cs t (key k))) db Q.
Proof.
  intros Ho Hdec HQ. unfold t_get. apply wp_bind. eapply wp_first; [done..|]. destruct (x !! k); [by apply wp_ok|by apply wp_err].
Qed.

Lemma wp_exists k Q :
  acceptable (OCount t (equals (key k))) → Q (Ok (bool_decide (is_Some (x !! k)))) db → wp (t_exists (OCount t (equals (key k)))) db Q.
Proof.
  intros Ho HQ. unfold t_exists. apply wp_bind, wp_t_exec; [done|]. intros db' y [-> ->].
  rewrite (count_key enc ok (λ k, holds (equals (key k))) P_key k _ x Ht). apply wp_ok. by destruct (bool_decide _).
Qed.

Lemma wp_create k v r Q :
  acceptable (OInsert t r) → unique t = Some (key k).*1 → stored r = enc k v → ok k v →
  (∀ k' v', same_key (key k).*1 (enc k v) (enc k' v') = bool_decide (k' = k)) → v_dup V RDuplicate = true →
  (∀ v', x !! k = Some v' → Q (Err (TStorage ErrUserExists)) db) →
  (∀ db', x !! k = None → same_but [t] db db' → is_table (rows db' t) (<[k := v]> x) → Q (Ok tt) db') →
  wp (t_create (v_dup V) (OInsert t r)) db Q.
Proof.
  intros Ho Hu Hr Hv Hk Hdup Hd Hn. apply wp_do; [done|]. intros db' y. cbn [sem]. unfold clashes. rewrite Hu, Hr.
  assert (existsb (same_key (key k).*1 (enc k v)) (rows db t) = bool_decide (is_Some (x !! k))) as ->.
  { apply eq_bool_prop_intro. rewrite bool_decide_spec, Is_true_true, existsb_exists. split.
    - intros (r' & Hr'%list_elem_of_In & E). rewrite (ti_rows _ _ _ _ Ht) in Hr'.
      apply list_elem_of_fmap in Hr' as ([k' v'] & -> & Hx%elem_of_map_to_list). cbn in E. rewrite Hk, bool_decide_eq_true in E. by subst.
    - intros [v' Hx]. exists (enc k v'). rewrite Hk, bool_decide_eq_true. split; [|done]. apply list_elem_of_In.
      rewrite (ti_rows _ _ _ _ Ht). apply list_elem_of_fmap. exists (k, v'). split; [done|]. by apply elem_of_map_to_list. }
  destruct (x !! k) as [v'|] eqn:E.
  - rewrite bool_decide_true by eauto. intros [-> ->]. rewrite Hdup. by eapply Hd.
  - rewrite bool_decide_false by (by intros []). intros [-> ->]. apply Hn; [done|apply same_but_insert|].
    rewrite rows_insert_eq. by apply (table_is_insert enc ok).
Qed.

Lemma wp_upsert k v s Q :
  acceptable (OUpsert t (key k) s) → (∀ v', override (stored s) (enc k v') = enc k v) → override (stored s) (key k) = enc k v → ok k v →
  (∀ db', same_but [t] db db' → is_table (rows db' t) (<[k := v]> x) → Q (Ok tt) db') →
  wp (t_unit (t_exec (OUpsert t (key k) s))) db Q.
Proof.
  intros Ho Hset Hnew Hv HQ. apply wp_bind, wp_t_exec; [done|]. intros db' y (l & n & Hl & -> & ->). apply wp_ok, HQ; [apply same_but_insert|].
  rewrite rows_insert_eq. destruct Hl as [Hl|[Hl ->]].
  - eapply (one_row_set enc ok (λ k, holds (equals (key k))) P_key); [exact Ht|exact Hl|by intros v' _|done].
  - rewrite Hnew. apply (table_is_insert enc ok); [done| |done]. by apply (no_row_key enc ok (λ k, holds (equals (key k))) P_key k _ x Ht).
Qed.

(** Deletion by key: the number of rows, and the table after it. *)
Lemma sem_delete k db' y : sem unique (delete1 V t (key k)) db db' y →
  y = RCount (if bool_decide (is_Some (x !! k)) then 1 else 0) ∧ same_but [t] db db' ∧ is_table (rows db' t) (delete k x).
Proof.
  cbn [sem delete1]. destruct (v_one V).
  - intros [(Hn & -> & ->)|(l & Hl & -> & ->)].
    + apply (no_row_key enc ok (λ k, holds (equals (key k))) P_key k _ x Ht) in Hn. rewrite Hn, bool_decide_false by (by intros []).
      split; [done|]. split; [done|]. by rewrite delete_id.
    + destruct (one_row_removed enc ok (λ k, holds (equals (key k))) P_key k _ l x Ht Hl) as [Hs Hd].
      rewrite bool_decide_true by done. split; [done|]. split; [apply same_but_insert|]. by rewrite rows_insert_eq.
  - intros [-> ->]. rewrite (count_key enc ok (λ k, holds (equals (key k))) P_key k _ x Ht).
    split; [by destruct (bool_decide _)|]. split; [apply same_but_insert|]. rewrite rows_insert_eq.
    by apply (table_is_delete enc ok (λ k, holds (equals (key k))) P_key).
Qed.

Lemma wp_delete k Q :
  acceptable (delete1 V t (key k)) →
  (∀ db', same_but [t] db db' → is_table (rows db' t) (delete k x) → Q (Ok tt) db') →
  wp (t_unit (t_exec (delete1 V t (key k)))) db Q.
Proof.
  intros Ho HQ. apply wp_bind, wp_t_exec; [done|]. intros db' y (-> & Hs & Hd)%sem_delete. by apply wp_ok, HQ.
Qed.

Lemma wp_need_delete k Q :
  acceptable (delete1 V t (key k)) →
  (∀ v db', x !! k = Some v → same_but [t] db db' → is_table (rows db' t) (delete k x) → Q (Ok tt) db') →
  (∀ db', x !! k = None → same_but [t] db db' → is_table (rows db' t) x → Q (Err (TStorage ErrNotFound)) db') →
  wp (t_need (delete1 V t (key k))) db Q.
Proof.
  intros Ho Hs Hn. apply wp_bind, wp_t_exec; [done|]. intros db' y (-> & Hb & Hd)%sem_delete. destruct (x !! k) as [v|] eqn:E.
  - rewrite bool_decide_true by eauto. apply wp_ok. by eapply Hs.
  - rewrite bool_decide_false by (by intros []). apply wp_err. rewrite delete_id in Hd by done. by apply Hn.
Qed.

Lemma wp_need_update k (v' : X → X) s Q :
  acceptable (OUpdate t (equals (key k)) s (v_one V)) → v_one V = true ∨ count_changed = false →
  (∀ v, x !! k = Some v → override (stored s) (enc k v) = enc k (v' v) ∧ ok k (v' v)) →
  (∀ v db', x !! k = Some v → same_but [t] db db' → is_table (rows db' t) (<[k := v' v]> x) → Q (Ok tt) db') →
  (∀ db', x !! k = None → same_but [t] db db' → is_table (rows db' t) x → Q (Err (TStorage ErrNotFound)) db') →
  wp (t_need (OUpdate t (equals (key k)) s (v_one V))) db Q.
Proof.
  intros Ho Hc Hset Hs Hn. apply wp_bind, wp_t_exec; [done|]. intros db' y. cbn [sem].
  pose proof (no_row_key enc ok (λ k, holds (equals (key k))) P_key k _ x Ht) as Hno. destruct (v_one V).
  - intros [(Hr & -> & ->)|(l & Hl & -> & ->)].
    + apply wp_err, Hn; [by apply Hno|done|done].
    + destruct (one_row_key enc ok (λ k, holds (equals (key k))) P_key k _ _ l x Ht Hl) as (v & Hk & _). destruct (Hset v Hk) as [Hv Hv'].
      apply wp_ok. apply (Hs v); [done|apply same_but_insert|]. rewrite rows_insert_eq.
      eapply (one_row_set enc ok (λ k, holds (equals (key k))) P_key); [exact Ht|exact Hl| |done]. intros w Hw. by simplify_eq.
  - destruct Hc as [Hc|Hc]; [done|]. rewrite Hc. intros [-> ->]. cbn [negb orb].
    assert (length (filter (λ r, holds (equals (key k)) r && true = true) (rows db t)) =
            length (filter (λ r, holds (equals (key k)) r = true) (rows db t))) as ->.
    { f_equal. apply list_filter_iff. intros r. by rewrite andb_true_r. }
    rewrite (count_key enc ok (λ k, holds (equals (key k))) P_key k _ x Ht).
    pose proof (every_row_set enc ok (λ k, holds (equals (key k))) P_key k v' (override (stored s)) _ x Ht Hset) as He.
    destruct (x !! k) as [v|] eqn:E.
    + rewrite bool_decide_true by eauto. apply wp_ok. apply (Hs v); [done|apply same_but_insert|]. by rewrite rows_insert_eq.
    + rewrite bool_decide_false by (by intros []). apply wp_err. apply Hn; [done|apply same_but_insert|]. by rewrite rows_insert_eq.
Qed.

Lemma decode_all_fmap {A B} (dec : row → option A) (f : B → row) (g : B → A) l :
  (∀ b, b ∈ l → dec (f b) = Some (g b)) → t_decode_all dec (f <$> l) = Ok (g <$> l).
Proof.
  induction l as [|b l IH]; [done|]. intros Hl. cbn [fmap list_fmap t_decode_all]. unfold t_decode at 1.
  rewrite Hl by (by left). cbn [res_bind]. rewrite IH; [done|]. intros b' Hb. apply Hl. by right.
Qed.

(** The rows of part of the keys. *)
Lemma wp_list {A cs} (dec : row → option A) (g : K → X → A) w order (Qk : K → Prop) `{∀ kv : K * X, Decision (Qk kv.1)} Q :
  acceptable (OFind cs t w order None) → (∀ k v, holds w (enc k v) = true ↔ Qk k) →
  (∀ k v, x !! k = Some v → dec (enc k v) = Some (g k v)) →
  (∀ kvs, kvs ≡ₚ map_to_list (filter (λ kv, Qk kv.1) x) →
     match order with Some c => Sorted (in_order c) (uncurry enc <$> kvs) | None => True end → Q (Ok (uncurry g <$> kvs)) db) →
  wp (t_list dec (OFind cs t w order None)) db Q.
Proof.
  intros Ho Hw Hdec HQ. apply wp_bind, wp_t_query; [done|]. intros db' y (-> & l & Hl & Hs & ->).
  rewrite (select_rows enc ok Qk (λ r, holds w r = true) _ x Hw Ht) in Hl. apply Permutation_map_inv in Hl as (kvs & -> & Hp).
  cbn [limited]. apply wp_lift. change (map (uncurry enc) kvs) with (uncurry enc <$> kvs) in *.
  rewrite (decode_all_fmap dec _ (uncurry g)); [by apply HQ|]. intros [k v] Hk. rewrite <- Hp in Hk.
  apply elem_of_map_to_list, map_lookup_filter_Some in Hk as [Hk _]. by apply Hdec.
Qed.

Lemma wp_drop_all f (Qk : K → Prop) `{∀ k, Decision (Qk k)} Q :
  acceptable (delete_all t f) → (∀ k v, holds (equals f) (enc k v) = bool_decide (Qk k)) →
  (∀ db', same_but [t] db db' → is_table (rows db' t) (filter (λ kv, ¬ Qk kv.1) x) → Q (Ok tt) db') →
  wp (t_drop (delete_all t f)) db Q.
Proof.
  intros Ho Hw HQ. apply wp_t_drop; [done|]. intros db' y [-> _]. apply HQ; [apply same_but_insert|]. rewrite rows_insert_eq.
  apply (table_is_filter enc ok (λ k, ¬ Qk k) (λ r, holds (equals f) r = false)); [|done]. intros k v. by rewrite Hw, bool_decide_eq_false.
Qed.

(** The rows of one owner. *)
Lemma wp_listing {cs} (dec : row → option X) w order (sub : string → K) (unsub : K → string) Q :
  acceptable (OFind cs t w order None) → (∀ y, unsub (sub y) = y) → (∀ k v, holds w (enc k v) = true ↔ sub (unsub k) = k) →
  (∀ k v, x !! k = Some v → dec (enc k v) = Some v) →
  (∀ kvs, lists (λ y, x !! sub y) kvs.*2 →
     match order with Some c => Sorted (in_order c) (uncurry enc <$> kvs) | None => True end → Q (Ok kvs.*2) db) →
  wp (t_list dec (OFind cs t w order None)) db Q.
Proof.
  intros Ho Hu Hw Hdec HQ. eapply (wp_list dec (λ _ v, v) w order (λ k, sub (unsub k) = k)); [done..|].
  intros kvs Hp Hs. replace (uncurry (λ _ v, v) <$> kvs) with kvs.*2 by (apply list_fmap_ext; by intros i []).
  apply HQ; [|done]. by apply lists_sub with unsub.
Qed.
End KeyedWp.

(** *** Messages by user *)

Definition log_is {X} (enc : X → row) (l : list row) (x : gmap string (list X)) : Prop :=
  ∀ u, filter (λ r, holds (equals (by_user u)) r = true) l ≡ₚ enc <$> default [] (x !! u).

Lemma holds_by_user u r : holds (equals (by_user u)) r = bool_decide (field "user_jid" r = VText u).
Proof. cbn. by rewrite andb_true_r. Qed.

Section LogWp.
Context {X : Type} (t : string) (enc : X → row) (user : X → string).
Context (Huser : ∀ m, field "user_jid" (enc m) = VText (user m)).
Context (db : tables) (x : gmap string (list X)) (Hl : log_is enc (rows db t) x).

Lemma wp_log_insert r m Q : acceptable (OInsert t r) → unique t = None → stored r = enc m →
  (∀ db', same_but [t] db db' → log_is enc (rows db' t) (<[user m := default [] (x !! user m) ++ [m]]> x) → Q (Ok tt) db') →
  wp (t_unit (t_exec (OInsert t r))) db Q.
Proof.
  intros Ho Hu Hr HQ. apply wp_bind, wp_t_exec; [done|]. intros db' y. cbn [sem]. unfold clashes. rewrite Hu, Hr. intros [-> ->].
  apply wp_ok, HQ; [apply same_but_insert|]. intros u. rewrite rows_insert_eq, filter_app, (Hl u), filter_cons, filter_nil.
  rewrite holds_by_user, Huser. destruct (decide (user m = u)) as [<-|Hne].
  - rewrite bool_decide_true, decide_True, lookup_insert_eq by done. cbn. by rewrite fmap_app.
  - rewrite bool_decide_false, decide_False, lookup_insert_ne, app_nil_r by (done || congruence). done.
Qed.

Lemma wp_log_delete u Q : acceptable (delete_all t (by_user u)) →
  (∀ db', same_but [t] db db' → log_is enc (rows db' t) (delete u x) → Q (Ok tt) db') →
  wp (t_unit (t_exec (delete_all t (by_user u)))) db Q.
Proof.
  intros Ho HQ. apply wp_bind, wp_t_exec; [done|]. intros db' y [-> ->]. apply wp_ok, HQ; [apply same_but_insert|].
  intros u'. rewrite rows_insert_eq, list_filter_filter. destruct (decide (u' = u)) as [->|Hne].
  - rewrite lookup_delete_eq. cbn [default fmap list_fmap]. rewrite (list_filter_iff _ (λ _, False)).
    + clear Hl. induction (rows db t) as [|r l IH]; [done|]. by rewrite filter_cons_False by tauto.
    + intros r. split; [|done]. intros [E E']. congruence.
  - rewrite lookup_delete_ne by done. rewrite <- (Hl u'). erewrite list_filter_iff; [reflexivity|]. intros r.
    rewrite !holds_by_user, bool_decide_eq_true, bool_decide_eq_false. split; [tauto|]. intros E. rewrite E. split; [done|congruence].
Qed.

Lemma wp_log_count u Q : acceptable (OCount t (equals (by_user u))) →
  Q (Ok (Z.of_nat (length (default [] (x !! u))))) db → wp (t_exec (OCount t (equals (by_user u)))) db Q.
Proof.
  intros Ho HQ. apply wp_t_exec; [done|]. intros db' y [-> ->]. rewrite (Permutation_length (Hl u)), length_fmap. done.
Qed.

Lemma wp_log_list {A cs} (dec : row → option A) (g : X → A) w limit u (P : X → Prop) `{∀ m, Decision (P m)} Q :
  acceptable (OFind cs t w (Some "created_at"%string) limit) →
  (∀ r, holds w r = true → holds (equals (by_user u)) r = true) →
  (∀ m, user m = u → holds w (enc m) = true ↔ P m) → (∀ m, dec (enc m) = Some (g m)) →
  (∀ ms, ms ≡ₚ filter P (default [] (x !! u)) → Sorted (in_order "created_at") (enc <$> ms) →
     Q (Ok (g <$> match limit with Some n => take (Z.to_nat n) ms | None => ms end)) db) →
  wp (t_list dec (OFind cs t w (Some "created_at"%string) limit)) db Q.
Proof.
  intros Ho Hw Hm Hdec HQ. apply wp_bind, wp_t_query; [done|]. intros db' y (-> & l & Hp & Hs & ->).
  assert (filter (λ r, holds w r = true) (rows db t) ≡ₚ enc <$> filter P (default [] (x !! u))) as Hf.
  { rewrite (list_filter_iff _ (λ r, holds w r = true ∧ holds (equals (by_user u)) r = true)) by (intros r; naive_solver).
    rewrite <- list_filter_filter, (Hl u). assert (∀ m, m ∈ default [] (x !! u) → user m = u) as Hu.
    { intros m Hin. assert (enc m ∈ enc <$> default [] (x !! u)) as Hin' by (by apply list_elem_of_fmap_2).
      rewrite <- (Hl u) in Hin'. apply list_elem_of_filter in Hin' as [Hh _].
      rewrite holds_by_user, bool_decide_eq_true, Huser in Hh. by injection Hh. }
    rewrite (filter_fmap enc _ P); [done|]. intros m Hin. by apply Hm, Hu. }
  rewrite Hf in Hp. apply Permutation_map_inv in Hp as (ms & -> & Hp). apply wp_lift.
  change (map enc ms) with (enc <$> ms) in *.
  assert (limited limit (enc <$> ms) = enc <$> match limit with Some n => take (Z.to_nat n) ms | None => ms end) as ->.
  { destruct limit; [|done]. cbn. by rewrite fmap_take. }
  rewrite (decode_all_fmap dec enc g) by done. by apply HQ.
Qed.
End LogWp.

(** *** What the tables stand for *)

Ltac by_key := intros k k' s; repeat match goal with p : _ * _ |- _ => destruct p end;
  match goal with |- _ = bool_decide ?P => destruct (decide P) as [?|?] end;
  simplify_eq; [rewrite (bool_decide_true (_ = _)) by done|rewrite (bool_decide_false (_ = _)) by done];
  cbn; repeat case_bool_decide; try done; simplify_eq.

#[local] Instance by_name_key : Key by_name.
Proof. by_key. Qed.
#[local] Instance by_user_key : Key by_user.
Proof. by_key. Qed.
#[local] Instance by_contact_key : Key by_contact.
Proof. by_key. Qed.
#[local] Instance by_blocked_key : Key by_blocked.
Proof. by_key. Qed.
#[local] Instance by_room_key : Key by_room.
Proof. by_key. Qed.
#[local] Instance by_affiliate_key : Key by_affiliate.
Proof. by_key. Qed.
#[local] Instance by_node_key : Key by_node.
Proof. by_key. Qed.
#[local] Instance by_item_key : Key by_item.
Proof. by_key. Qed.
#[local] Instance by_jid_key : Key by_jid.
Proof. by_key. Qed.
#[local] Instance by_bookmark_key : Key by_bookmark.
Proof. by_key. Qed.

Context (groups_ok : list string → Prop).

(** A backend reads back the rows it writes, and its tables have the keys. *)
Record variant_ok : Prop := {
  vk_dup : v_dup V RDuplicate = true;
  vk_update : v_one V = true ∨ count_changed = false;
  vk_groups : (v_groups V).1 = "groups"%string ∨ (v_groups V).1 = "groups_list"%string;
  vk_groups_value l : stored_value ((v_groups V).2 l) = (v_groups V).2 l;
  vk_user u : de_user V (by_name (Username u) ++ user_cols u) = Some u;
  vk_password u : de_password V (by_name (Username u) ++ user_cols u) = Some (Password u);
  vk_roster i : groups_ok (Groups i) → de_roster V (by_contact (r_UserJID i, ContactJID i) ++ roster_cols (v_groups V) i) = Some i;
  vk_version u v : de_version V (by_user u ++ [("version"%string, VText v)]) = Some v;
  vk_blocked k : de_blocked V (by_blocked k) = Some k.2;
  vk_vcard u d : de_vcard V (by_user u ++ [("data"%string, VBlob d)]) = Some d;
  vk_offline m : de_offline V (offline_row m) = Some m;
  vk_archived m : de_archived V (archived_row m) = Some m;
  vk_room r : de_room V (by_room (m_RoomJID r) ++ room_cols r) = Some r;
  vk_aff f : de_aff V (by_affiliate (f_RoomJID f, f_UserJID f) ++ aff_cols f) = Some f;
  vk_node n : de_node V (by_node (n_Host n, n_NodeID n) ++ node_cols n) = Some (kept_node n);
  vk_item i : de_item V (by_item (i_Host i, i_NodeID i, i_ItemID i) ++ item_cols i) = Some i;
  vk_sub s : de_sub V (by_jid (s_Host s, s_NodeID s, s_JID s) ++ sub_cols s) = Some s;
  vk_bookmark b : de_bookmark V (by_bookmark (b_UserJID b, b_RoomJID b) ++ bookmark_cols b) = Some b;
  vk_users : unique "users" = Some ["username"%string];
  vk_rooms : unique "muc_rooms" = Some ["room_jid"%string];
  vk_nodes : unique "pubsub_nodes" = Some ["host"%string; "node_id"%string];
  vk_offlines : unique "offline_messages" = None;
  vk_archives : unique "mam_messages" = None
}.

Record rep (db : tables) (a : spec) : Prop := {
  rp_users : table_is (λ k v, by_name k ++ user_cols v) (λ k v, Username v = k) (rows db "users") (sp_users a);
  rp_roster : table_is (λ k v, by_contact k ++ roster_cols (v_groups V) v)
                (λ k v, (r_UserJID v, ContactJID v) = k ∧ groups_ok (Groups v)) (rows db "roster_items") (sp_roster a);
  rp_versions : table_is (λ k v, by_user k ++ [("version"%string, VText v)]) (λ _ _, True) (rows db "roster_versions") (sp_versions a);
  rp_blocked : table_is (λ k (v : bool), by_blocked k ++ []) (λ _ v, v = true) (rows db "blocked_jids") (sp_blocked a);
  rp_vcards : table_is (λ k v, by_user k ++ [("data"%string, VBlob v)]) (λ _ _, True) (rows db "vcards") (sp_vcards a);
  rp_offline : log_is offline_row (rows db "offline_messages") (sp_offline a);
  rp_mam : log_is archived_row (rows db "mam_messages") (sp_mam a);
  rp_rooms : table_is (λ k v, by_room k ++ room_cols v) (λ k v, m_RoomJID v = k) (rows db "muc_rooms") (sp_rooms a);
  rp_affs : table_is (λ k v, by_affiliate k ++ aff_cols v) (λ k v, (f_RoomJID v, f_UserJID v) = k) (rows db "muc_affiliations") (sp_affs a);
  rp_nodes : table_is (λ k v, by_node k ++ node_cols v) (λ k v, (n_Host v, n_NodeID v) = k ∧ Config v = None)
               (rows db "pubsub_nodes") (sp_nodes a);
  rp_items : table_is (λ k v, by_item k ++ item_cols v) (λ k v, (i_Host v, i_NodeID v, i_ItemID v) = k) (rows db "pubsub_items") (sp_items a);
  rp_subs : table_is (λ k v, by_jid k ++ sub_cols v) (λ k v, (s_Host v, s_NodeID v, s_JID v) = k)
              (rows db "pubsub_subscriptions") (sp_subs a);
  rp_bookmarks : table_is (λ k v, by_bookmark k ++ bookmark_cols v) (λ k v, (b_UserJID v, b_RoomJID v) = k)
                   (rows db "bookmarks") (sp_bookmarks a)
}.

(** One table changes, the others stay. *)
Ltac put := intros [] Hs Hn; split; cbn; try done; rewrite Hs by (apply (bool_decide_unpack _); vm_compute; done); done.
Lemma put_users_rep db db' a x : rep db a → same_but ["users"%string] db db' →
  table_is (λ k v, by_name k ++ user_cols v) (λ k v, Username v = k) (rows db' "users") x → rep db' (put_users x a).
Proof. put. Qed.
Lemma put_roster_rep db db' a x : rep db a → same_but ["roster_items"%string] db db' →
  table_is (λ k v, by_contact k ++ roster_cols (v_groups V) v)
    (λ k v, (r_UserJID v, ContactJID v) = k ∧ groups_ok (Groups v)) (rows db' "roster_items") x → rep db' (put_roster x a).
Proof. put. Qed.
Lemma put_versions_rep db db' a x : rep db a → same_but ["roster_versions"%string] db db' →
  table_is (λ k v, by_user k ++ [("version"%string, VText v)]) (λ _ _, True) (rows db' "roster_versions") x → rep db' (put_versions x a).
Proof. put. Qed.
Lemma put_blocked_rep db db' a x : rep db a → same_but ["blocked_jids"%string] db db' →
  table_is (λ k (v : bool), by_blocked k ++ []) (λ _ v, v = true) (rows db' "blocked_jids") x → rep db' (put_blocked x a).
Proof. put. Qed.
Lemma put_vcards_rep db db' a x : rep db a → same_but ["vcards"%string] db db' →
  table_is (λ k v, by_user k ++ [("data"%string, VBlob v)]) (λ _ _, True) (rows db' "vcards") x → rep db' (put_vcards x a).
Proof. put. Qed.
Lemma put_offline_rep db db' a x : rep db a → same_but ["offline_messages"%string] db db' →
  log_is offline_row (rows db' "offline_messages") x → rep db' (put_offline x a).
Proof. put. Qed.
Lemma put_mam_rep db db' a x : rep db a → same_but ["mam_messages"%string] db db' →
  log_is archived_row (rows db' "mam_messages") x → rep db' (put_mam x a).
Proof. put. Qed.
Lemma put_rooms_rep db db' a x : rep db a → same_but ["muc_rooms"%string] db db' →
  table_is (λ k v, by_room k ++ room_cols v) (λ k v, m_RoomJID v = k) (rows db' "muc_rooms") x → rep db' (put_rooms x a).
Proof. put. Qed.
Lemma put_affs_rep db db' a x : rep db a → same_but ["muc_affiliations"%string] db db' →
  table_is (λ k v, by_affiliate k ++ aff_cols v) (λ k v, (f_RoomJID v, f_UserJID v) = k) (rows db' "muc_affiliations") x → rep db' (put_affs x a).
Proof. put. Qed.
Lemma put_nodes_rep db db' a x : rep db a → same_but ["pubsub_nodes"%string] db db' →
  table_is (λ k v, by_node k ++ node_cols v) (λ k v, (n_Host v, n_NodeID v) = k ∧ Config v = None)
    (rows db' "pubsub_nodes") x → rep db' (put_nodes x a).
Proof. put. Qed.
Lemma put_items_rep db db' a x : rep db a → same_but ["pubsub_items"%string] db db' →
  table_is (λ k v, by_item k ++ item_cols v) (λ k v, (i_Host v, i_NodeID v, i_ItemID v) = k) (rows db' "pubsub_items") x → rep db' (put_items x a).
Proof. put. Qed.
Lemma put_subs_rep db db' a x : rep db a → same_but ["pubsub_subscriptions"%string] db db' →
  table_is (λ k v, by_jid k ++ sub_cols v) (λ k v, (s_Host v, s_NodeID v, s_JID v) = k)
    (rows db' "pubsub_subscriptions") x → rep db' (put_subs x a).
Proof. put. Qed.
Lemma put_bookmarks_rep db db' a x : rep db a → same_but ["bookmarks"%string] db db' →
  table_is (λ k v, by_bookmark k ++ bookmark_cols v) (λ k v, (b_UserJID v, b_RoomJID v) = k) (rows db' "bookmarks") x → rep db' (put_bookmarks x a).
Proof. put. Qed.

Context (HV : variant_ok) (now : time).

(** The calls the engine can serve: it can hold what they send, compares times at
    its precision, the limit of a query is an [int] that can be increased, and the
    roster groups can be read back. *)
Definition call_ok (c : call) : Prop :=
  Forall acceptable (op_of V now c :: cleanup c) ∧
  match c with
  | CUpsertRosterItem i => groups_ok (Groups i)
  | CQueryMessages q => (q_Max q < 2 ^ 63)%Z
  | _ => True
  end.

Definition answer_of {A} (f : A → answer) (x : res table_error A) : answer :=
  match x with Ok a => f a | Err (TStorage e) => AErr e | Err _ => AFailed | Panic => APanic end.

Definition sim (c : call) : Prop := ∀ d a,
  rep (contents d) a → call_ok c →
  let '(d', x) := store_call V now c d in (table_spec now c a).2 x ∧ rep (contents d') (table_spec now c a).1.

Lemma sim_intro {A} (f : A → answer) (p : M D table_error A) c :
  store_call V now c = t_answer f p →
  (∀ db a, rep db a → call_ok c →
     wp p db (λ x db', (table_spec now c a).2 (answer_of f x) ∧ rep db' (table_spec now c a).1)) → sim c.
Proof.
  intros He Hp d a Hr Hok. rewrite He. specialize (Hp _ _ Hr Hok d eq_refl). unfold t_answer. by destruct (p d).
Qed.

Ltac start := eapply sim_intro; [reflexivity|]; intros db a Hr [Hok Hx]; cbn [op_of cleanup] in *;
  apply Forall_cons in Hok as [Ho Hok]; cbn [table_spec spec_call fst snd];
  unfold on_entry, or_missing, answers.

Lemma put_users_id a : put_users (sp_users a) a = a.
Proof. by destruct a. Qed.

Lemma table_CreateUser u : sim (CCreateUser u).
Proof.
  start. eapply (wp_create "users" by_name _ _ _ _ (rp_users _ _ Hr) (Username u) (precise_user (new_user now u)));
    [done|by rewrite (vk_users HV)|reflexivity|done|..].
  - intros k' v'. cbn. rewrite andb_true_r. repeat case_bool_decide; congruence.
  - by apply HV.
  - intros v' E. by rewrite E.
  - intros db' E Hs Ht. rewrite E. split; [done|]. by eapply put_users_rep.
Qed.
Lemma table_GetUser n : sim (CGetUser n).
Proof.
  start. eapply (wp_get "users" by_name _ _ _ _ (rp_users _ _ Hr) _ id); [done| |].
  - intros v E. rewrite <- (ti_ok _ _ _ _ (rp_users _ _ Hr) _ _ E) at 1. apply HV.
  - split; [|done]. by destruct (sp_users a !! n).
Qed.
Lemma table_UpdateUser u : sim (CUpdateUser u).
Proof.
  start. eapply (wp_need_update "users" by_name _ _ _ _ (rp_users _ _ Hr) _ (λ old, changed_user now old u)); [done|apply HV|..].
  - by intros v E.
  - intros v db' E Hs Ht. rewrite E. split; [done|]. by eapply put_users_rep.
  - intros db' E Hs Ht. rewrite E. split; [done|]. rewrite <- (put_users_id a). by eapply put_users_rep.
Qed.
Lemma table_DeleteUser n : sim (CDeleteUser n).
Proof.
  start. eapply (wp_need_delete "users" by_name _ _ _ _ (rp_users _ _ Hr)); [done|..].
  - intros v db' E Hs Ht. rewrite E. split; [done|]. by eapply put_users_rep.
  - intros db' E Hs Ht. rewrite E. split; [done|]. rewrite <- (put_users_id a). by eapply put_users_rep.
Qed.
Lemma table_UserExists n : sim (CUserExists n).
Proof. start. by eapply (wp_exists "users" by_name _ _ _ _ (rp_users _ _ Hr)). Qed.
Lemma table_Authenticate n p : sim (CAuthenticate n p).
Proof.
  start. apply wp_bind. eapply (wp_first "users" by_name _ _ _ _ (rp_users _ _ Hr) _ Password); [done| |].
  - intros v E. rewrite <- (ti_ok _ _ _ _ (rp_users _ _ Hr) _ _ E) at 1. apply HV.
  - destruct (sp_users a !! n) as [v|]; cbn [fmap option_fmap option_map].
    + case_bool_decide as E; [apply wp_err|apply wp_ok]; (split; [|done]); [rewrite bool_decide_false|rewrite bool_decide_true];
        congruence || (f_equal; by apply dec_stable).
    + by apply wp_err.
Qed.

(** *** Rosters *)

Lemma roster_set k i i' :
  override (stored (if v_set_keys V then by_contact k ++ roster_cols (v_groups V) i else roster_cols (v_groups V) i))
    (by_contact k ++ roster_cols (v_groups V) i') = by_contact k ++ roster_cols (v_groups V) i.
Proof.
  unfold roster_cols. destruct (vk_groups HV) as [->| ->]; destruct (v_set_keys V); cbn; by rewrite (vk_groups_value HV).
Qed.
Lemma roster_new k i :
  override (stored (if v_set_keys V then by_contact k ++ roster_cols (v_groups V) i else roster_cols (v_groups V) i))
    (by_contact k) = by_contact k ++ roster_cols (v_groups V) i.
Proof.
  unfold roster_cols. destruct (vk_groups HV) as [->| ->]; destruct (v_set_keys V); cbn; by rewrite (vk_groups_value HV).
Qed.
Lemma roster_reads a k v : map_Forall (λ k v, (r_UserJID v, ContactJID v) = k ∧ groups_ok (Groups v)) (sp_roster a) →
  sp_roster a !! k = Some v → de_roster V (by_contact k ++ roster_cols (v_groups V) v) = Some v.
Proof. intros Hf E. destruct (Hf k v E) as [<- Hg]. by apply HV. Qed.

(** A condition on part of the key. *)
Ltac part := repeat match goal with |- ∀ _ : _ * _, _ => intros [] | |- ∀ _ , _ => intros ? end;
  repeat match goal with p : _ * _ |- _ => destruct p end;
  cbn; rewrite ?andb_true_iff, ?bool_decide_eq_true; intuition congruence.

Lemma table_UpsertRosterItem i : sim (CUpsertRosterItem i).
Proof.
  start. eapply (wp_upsert "roster_items" by_contact _ _ _ _ (rp_roster _ _ Hr) (r_UserJID i, ContactJID i) i);
    [done|intros; apply roster_set|apply roster_new|done|].
  intros db' Hs Ht. split; [done|]. by eapply put_roster_rep.
Qed.
Lemma table_GetRosterItem u c : sim (CGetRosterItem u c).
Proof.
  start. eapply (wp_get "roster_items" by_contact _ _ _ _ (rp_roster _ _ Hr) _ id); [done| |].
  - intros v E. eapply roster_reads; [apply Hr|done].
  - split; [|done]. by destruct (sp_roster a !! (u, c)).
Qed.
Lemma table_GetRosterItems u : sim (CGetRosterItems u).
Proof.
  start. eapply (wp_listing "roster_items" by_contact _ _ _ _ (rp_roster _ _ Hr) _ _ _ (λ c, (u, c)) snd); [done|done|part| |].
  - intros k v E. eapply roster_reads; [apply Hr|done].
  - intros kvs Hl _. split; [by eexists|done].
Qed.
Lemma table_DeleteRosterItem u c : sim (CDeleteRosterItem u c).
Proof.
  start. eapply (wp_need_delete "roster_items" by_contact _ _ _ _ (rp_roster _ _ Hr)); [done|..].
  - intros v db' E Hs Ht. rewrite E. split; [done|]. by eapply put_roster_rep.
  - intros db' E Hs Ht. rewrite E. split; [done|]. replace a with (put_roster (sp_roster a) a) by (by destruct a). by eapply put_roster_rep.
Qed.
Lemma table_GetRosterVersion u : sim (CGetRosterVersion u).
Proof.
  start. apply wp_bind. eapply (wp_first "roster_versions" by_user _ _ _ _ (rp_versions _ _ Hr) _ id); [done|intros; apply HV|].
  apply wp_ok. split; [|done]. by destruct (sp_versions a !! u).
Qed.
Lemma table_SetRosterVersion u v : sim (CSetRosterVersion u v).
Proof.
  start. eapply (wp_upsert "roster_versions" by_user (λ v, [("version"%string, VText v)]) _ _ _ (rp_versions _ _ Hr) u v); [done|done|done|done|].
  intros db' Hs Ht. split; [done|]. by eapply put_versions_rep.
Qed.

(** *** Block lists and vCards *)

Ltac sets := intros; destruct (v_set_keys V); reflexivity.

Lemma table_BlockJID u j : sim (CBlockJID u j).
Proof.
  start. eapply (wp_upsert "blocked_jids" by_blocked (λ _ : bool, []) _ _ _ (rp_blocked _ _ Hr) (u, j) true); [done|sets|sets|done|].
  intros db' Hs Ht. split; [done|]. by eapply put_blocked_rep.
Qed.
Lemma table_UnblockJID u j : sim (CUnblockJID u j).
Proof.
  start. eapply (wp_delete "blocked_jids" by_blocked (λ _ : bool, []) _ _ _ (rp_blocked _ _ Hr)); [done|].
  intros db' Hs Ht. split; [done|]. by eapply put_blocked_rep.
Qed.
Lemma table_IsBlocked u j : sim (CIsBlocked u j).
Proof.
  start. eapply (wp_exists "blocked_jids" by_blocked (λ _ : bool, []) _ _ _ (rp_blocked _ _ Hr)); [done|]. split; [|done].
  cbn. f_equal. destruct (sp_blocked a !! (u, j)) as [b|] eqn:E.
  - rewrite bool_decide_true by eauto. symmetry. apply (ti_ok _ _ _ _ (rp_blocked _ _ Hr) _ _ E).
  - by rewrite bool_decide_false by (by intros []).
Qed.
Lemma table_GetBlockedJIDs u : sim (CGetBlockedJIDs u).
Proof.
  start. eapply (wp_list "blocked_jids" by_blocked (λ _ : bool, []) _ _ _ (rp_blocked _ _ Hr) _ (λ k _, k.2) _ _ (λ k, k.1 = u));
    [done|part|intros k v _; rewrite app_nil_r; apply HV|].
  intros kvs Hp _. split; [|done]. eexists. split; [done|].
  assert (∀ k v, (k, v) ∈ kvs ↔ sp_blocked a !! k = Some v ∧ k.1 = u) as Hin.
  { intros k v. by rewrite Hp, elem_of_map_to_list, map_lookup_filter_Some. }
  split.
  - replace (uncurry (λ k (_ : bool), k.2) <$> kvs) with (snd <$> kvs.*1) by (rewrite <- list_fmap_compose; apply list_fmap_ext; by intros i []).
    apply NoDup_fmap_2_strong; [|rewrite Hp; apply NoDup_fst_map_to_list].
    intros k k' ([[] v] & -> & [_ Hk]%Hin)%list_elem_of_fmap ([[] v'] & -> & [_ Hk']%Hin)%list_elem_of_fmap E. cbn in *. congruence.
  - intros j. rewrite list_elem_of_fmap. split.
    + intros ([[u' j'] v] & -> & [Hv Hk]%Hin). cbn in *. subst. by exists v.
    + intros [v Hv]. exists ((u, j), v). split; [done|]. by apply Hin.
Qed.
Lemma table_SetVCard u d : sim (CSetVCard u d).
Proof.
  start. eapply (wp_upsert "vcards" by_user (λ v, [("data"%string, VBlob v)]) _ _ _ (rp_vcards _ _ Hr) u d); [done|sets|sets|done|].
  intros db' Hs Ht. split; [done|]. by eapply put_vcards_rep.
Qed.
Lemma table_GetVCard u : sim (CGetVCard u).
Proof.
  start. eapply (wp_get "vcards" by_user (λ v, [("data"%string, VBlob v)]) _ _ _ (rp_vcards _ _ Hr) _ id); [done|intros; apply HV|].
  split; [|done]. by destruct (sp_vcards a !! u).
Qed.
Lemma table_DeleteVCard u : sim (CDeleteVCard u).
Proof.
  start. eapply (wp_need_delete "vcards" by_user (λ v, [("data"%string, VBlob v)]) _ _ _ (rp_vcards _ _ Hr)); [done|..].
  - intros v db' E Hs Ht. rewrite E. split; [done|]. by eapply put_vcards_rep.
  - intros db' E Hs Ht. rewrite E. split; [done|]. replace a with (put_vcards (sp_vcards a) a) by (by destruct a). by eapply put_vcards_rep.
Qed.

(** *** Messages *)

Lemma table_StoreOfflineMessage m : sim (CStoreOfflineMessage m).
Proof.
  start. eapply (wp_log_insert "offline_messages" offline_row o_UserJID (λ _, eq_refl) _ _ (rp_offline _ _ Hr) _ (kept_offline now m));
    [done|apply HV|done|]. intros db' Hs Ht. split; [done|]. by eapply put_offline_rep.
Qed.
Lemma table_GetOfflineMessages u : sim (CGetOfflineMessages u).
Proof.
  start. eapply (wp_log_list "offline_messages" offline_row o_UserJID (λ _, eq_refl) _ _ (rp_offline _ _ Hr) _ id _ _ u (λ _, True));
    [done|done| |apply HV|].
  - intros m <-. rewrite holds_by_user, bool_decide_eq_true. done.
  - intros ms Hp Hs. split; [|done]. exists ms. split; [cbn; by rewrite list_fmap_id|]. split.
    + eapply Sorted_map; [|exact Hs]. done.
    + rewrite Hp. clear. induction (default [] (sp_offline a !! u)) as [|m l IH]; [done|]. by rewrite filter_cons_True, IH.
Qed.
Lemma table_DeleteOfflineMessages u : sim (CDeleteOfflineMessages u).
Proof.
  start. eapply (wp_log_delete "offline_messages" offline_row _ _ (rp_offline _ _ Hr)); [done|].
  intros db' Hs Ht. split; [done|]. by eapply put_offline_rep.
Qed.
Lemma table_CountOfflineMessages u : sim (CCountOfflineMessages u).
Proof. start. by eapply (wp_log_count "offline_messages" offline_row _ _ (rp_offline _ _ Hr)). Qed.

Lemma table_ArchiveMessage m : sim (CArchiveMessage m).
Proof.
  start. eapply (wp_log_insert "mam_messages" archived_row a_UserJID (λ _, eq_refl) _ _ (rp_mam _ _ Hr) _ (kept_archived now m));
    [done|apply HV|done|]. intros db' Hs Ht. split; [done|]. by eapply put_mam_rep.
Qed.
Lemma table_DeleteMessageArchive u : sim (CDeleteMessageArchive u).
Proof.
  start. eapply (wp_log_delete "mam_messages" archived_row _ _ (rp_mam _ _ Hr)); [done|].
  intros db' Hs Ht. split; [done|]. by eapply put_mam_rep.
Qed.

Lemma holds_app (w w' : condition) (r : row) : holds (w ++ w') r = holds w r && holds w' r.
Proof. apply forallb_app. Qed.
Lemma holds_if (b : bool) (w : condition) (r : row) : holds (if b then w else []) r = negb b || holds w r.
Proof. by destruct b. Qed.

Lemma mam_condition_holds q m : a_UserJID m = q_UserJID q → holds (mam_condition q) (archived_row m) = true ↔ queried q m.
Proof.
  intros Hu. unfold mam_condition. rewrite !holds_app, !holds_if. unfold queried, selected, IsZero.
  cbn [holds forallb field archived_row String.eqb Ascii.eqb Bool.eqb compare]. rewrite Hu, (bool_decide_true (VText _ = _)) by done.
  rewrite !andb_true_r, !andb_true_l, !andb_true_iff, !orb_true_iff, !negb_true_iff, !bool_decide_eq_false, !bool_decide_eq_true.
  rewrite !negb_false_iff, !Z.eqb_eq, !Z.leb_le. assert (∀ s : string, ¬ s ≠ ""%string ↔ s = ""%string) as Hd by (intros s; split; [apply dec_stable|naive_solver]).
  rewrite !Hd. assert (VText (a_WithJID m) = VText (q_WithJID q) ↔ a_WithJID m = q_WithJID q) as -> by (split; [by intros [= ->]|by intros ->]). tauto.
Qed.

Lemma page_of_found q all : (q_Max q < 2 ^ 63)%Z → (0 <= i64_succ (mam_max q))%Z →
  mam_page (mam_max q) (take (Z.to_nat (i64_succ (mam_max q))) all) = page_of q all.
Proof.
  intros Hq Hlim. assert (mam_max q = Z.of_nat (page_size q)) as Hn.
  { unfold mam_max, page_size. destruct (Z.leb_spec (q_Max q) 0); case_bool_decide; lia. }
  assert (i64_succ (mam_max q) = Z.of_nat (S (page_size q))) as ->.
  { assert (0 < mam_max q < 2 ^ 63)%Z as Hb by (unfold mam_max; destruct (Z.leb_spec (q_Max q) 0); lia). rewrite Nat2Z.inj_succ, <- Hn. clear Hn.
    unfold i64_succ in *. destruct (decide (mam_max q = 2 ^ 63 - 1)%Z) as [E|E]; [rewrite E in Hlim; by vm_compute in Hlim|].
    rewrite Z.mod_small by lia. lia. }
  unfold mam_page. rewrite Hn, !Nat2Z.id. destruct (page_of_prefix (page_size q) all) as [-> ->]. unfold page_of.
  set (p := take _ all). f_equal; [by destruct p|by destruct (last p)].
Qed.

Lemma table_QueryMessages q : sim (CQueryMessages q).
Proof.
  start. apply wp_bind.
  eapply (wp_log_list "mam_messages" archived_row a_UserJID (λ _, eq_refl) _ _ (rp_mam _ _ Hr) _ id _ _ (q_UserJID q) (queried q));
    [done| |apply mam_condition_holds|apply HV|].
  - intros r. unfold mam_condition. rewrite holds_app, andb_true_iff. tauto.
  - intros ms Hp Hs. rewrite list_fmap_id. apply wp_ok. split; [|done]. exists ms. split; [|split; [|done]].
    + cbn. f_equal. apply page_of_found; [done|]. apply (acc_limit _ Ho).
    + eapply Sorted_map; [|exact Hs]. done.
Qed.

(** *** Rooms *)

Lemma table_CreateRoom r : sim (CCreateRoom r).
Proof.
  start. eapply (wp_create "muc_rooms" by_room _ _ _ _ (rp_rooms _ _ Hr) (m_RoomJID r) r);
    [done|by rewrite (vk_rooms HV)|reflexivity|done|..].
  - intros k' v'. cbn. rewrite andb_true_r. repeat case_bool_decide; congruence.
  - by apply HV.
  - intros v' E. by rewrite E.
  - intros db' E Hs Ht. rewrite E. split; [done|]. by eapply put_rooms_rep.
Qed.
Lemma room_reads a k v : map_Forall (λ k v, m_RoomJID v = k) (sp_rooms a) →
  sp_rooms a !! k = Some v → de_room V (by_room k ++ room_cols v) = Some v.
Proof. intros Hf E. rewrite <- (Hf k v E). apply HV. Qed.
Lemma table_GetRoom r : sim (CGetRoom r).
Proof.
  start. eapply (wp_get "muc_rooms" by_room _ _ _ _ (rp_rooms _ _ Hr) _ id); [done|intros v E; eapply room_reads; [apply Hr|done]|].
  split; [|done]. by destruct (sp_rooms a !! r).
Qed.
Lemma table_UpdateRoom r : sim (CUpdateRoom r).
Proof.
  start. eapply (wp_need_update "muc_rooms" by_room _ _ _ _ (rp_rooms _ _ Hr) _ (λ _, r)); [done|apply HV|by intros v E|..].
  - intros v db' E Hs Ht. rewrite E. split; [done|]. by eapply put_rooms_rep.
  - intros db' E Hs Ht. rewrite E. split; [done|]. replace a with (put_rooms (sp_rooms a) a) by (by destruct a). by eapply put_rooms_rep.
Qed.
Lemma table_DeleteRoom r : sim (CDeleteRoom r).
Proof.
  start. apply wp_bind. eapply (wp_need_delete "muc_rooms" by_room _ _ _ _ (rp_rooms _ _ Hr)); [done|..].
  - intros v db' E Hs Ht. rewrite E. pose proof (put_rooms_rep _ _ _ _ Hr Hs Ht) as Hr'. apply Forall_cons in Hok as [Ho' _].
    eapply (wp_drop_all "muc_affiliations" by_affiliate _ _ _ _ (rp_affs _ _ Hr') _ (λ k, k.1 = r)); [done| |].
    + intros [] w. cbn. rewrite andb_true_r. repeat case_bool_decide; congruence.
    + intros db2 Hs2 Ht2. split; [done|]. by eapply put_affs_rep in Hr'.
  - intros db' E Hs Ht. rewrite E. split; [done|]. replace a with (put_rooms (sp_rooms a) a) by (by destruct a). by eapply put_rooms_rep.
Qed.
Lemma table_ListRooms : sim CListRooms.
Proof.
  start. eapply (wp_listing "muc_rooms" by_room _ _ _ _ (rp_rooms _ _ Hr) _ _ _ (λ r, r) (λ r, r)); [done|done|part|intros k v E; eapply room_reads; [apply Hr|done]|].
  intros kvs Hl _. split; [by eexists|done].
Qed.
Lemma table_SetAffiliation f : sim (CSetAffiliation f).
Proof.
  start. eapply (wp_upsert "muc_affiliations" by_affiliate _ _ _ _ (rp_affs _ _ Hr) (f_RoomJID f, f_UserJID f) f); [done|sets|sets|done|].
  intros db' Hs Ht. split; [done|]. by eapply put_affs_rep.
Qed.
Lemma aff_reads a k v : map_Forall (λ k v, (f_RoomJID v, f_UserJID v) = k) (sp_affs a) →
  sp_affs a !! k = Some v → de_aff V (by_affiliate k ++ aff_cols v) = Some v.
Proof. intros Hf E. rewrite <- (Hf k v E). apply HV. Qed.
Lemma table_GetAffiliation r u : sim (CGetAffiliation r u).
Proof.
  start. eapply (wp_get "muc_affiliations" by_affiliate _ _ _ _ (rp_affs _ _ Hr) _ id); [done|intros v E; eapply aff_reads; [apply Hr|done]|].
  split; [|done]. by destruct (sp_affs a !! (r, u)).
Qed.
Lemma table_GetAffiliations r : sim (CGetAffiliations r).
Proof.
  start. eapply (wp_listing "muc_affiliations" by_affiliate _ _ _ _ (rp_affs _ _ Hr) _ _ _ (λ u, (r, u)) snd);
    [done|done|part|intros k v E; eapply aff_reads; [apply Hr|done]|]. intros kvs Hl _. split; [by eexists|done].
Qed.
Lemma table_RemoveAffiliation r u : sim (CRemoveAffiliation r u).
Proof.
  start. eapply (wp_delete "muc_affiliations" by_affiliate _ _ _ _ (rp_affs _ _ Hr)); [done|].
  intros db' Hs Ht. split; [done|]. by eapply put_affs_rep.
Qed.

(** *** Nodes, items and subscriptions *)

Lemma table_CreateNode n : sim (CCreateNode n).
Proof.
  start. eapply (wp_create "pubsub_nodes" by_node _ _ _ _ (rp_nodes _ _ Hr) (n_Host n, n_NodeID n) (kept_node n));
    [done|by rewrite (vk_nodes HV)|reflexivity|done|..].
  - intros [h' n'] v'. cbn. rewrite andb_true_r. repeat case_bool_decide; try done; congruence.
  - by apply HV.
  - intros v' E. by rewrite E.
  - intros db' E Hs Ht. rewrite E. split; [done|]. by eapply put_nodes_rep.
Qed.
Lemma node_reads a k v : map_Forall (λ k v, (n_Host v, n_NodeID v) = k ∧ Config v = None) (sp_nodes a) →
  sp_nodes a !! k = Some v → de_node V (by_node k ++ node_cols v) = Some v.
Proof. intros Hf E. destruct (Hf k v E) as [<- Hc]. rewrite (vk_node HV). unfold kept_node. rewrite <- Hc. by destruct v. Qed.
Lemma table_GetNode h n : sim (CGetNode h n).
Proof.
  start. eapply (wp_get "pubsub_nodes" by_node _ _ _ _ (rp_nodes _ _ Hr) _ id); [done|intros v E; eapply node_reads; [apply Hr|done]|].
  split; [|done]. by destruct (sp_nodes a !! (h, n)).
Qed.
Lemma table_DeleteNode h n : sim (CDeleteNode h n).
Proof.
  start. apply wp_bind. eapply (wp_need_delete "pubsub_nodes" by_node _ _ _ _ (rp_nodes _ _ Hr)); [done|..].
  - intros v db1 E Hs1 Ht1. rewrite E. pose proof (put_nodes_rep _ _ _ _ Hr Hs1 Ht1) as Hr1.
    apply Forall_cons in Hok as [Ho1 Hok]. apply Forall_cons in Hok as [Ho2 _]. apply wp_bind.
    eapply (wp_drop_all "pubsub_items" by_item _ _ _ _ (rp_items _ _ Hr1) _ (λ k, k.1 = (h, n))); [done| |].
    + intros [[] ?] w. cbn. rewrite andb_true_r. repeat case_bool_decide; try done; congruence.
    + intros db2 Hs2 Ht2. pose proof (put_items_rep _ _ _ _ Hr1 Hs2 Ht2) as Hr2.
      eapply (wp_drop_all "pubsub_subscriptions" by_jid _ _ _ _ (rp_subs _ _ Hr2) _ (λ k, k.1 = (h, n))); [done| |].
      * intros [[] ?] w. cbn. rewrite andb_true_r. repeat case_bool_decide; try done; congruence.
      * intros db3 Hs3 Ht3. split; [done|]. by eapply put_subs_rep in Hr2.
  - intros db' E Hs Ht. rewrite E. split; [done|]. replace a with (put_nodes (sp_nodes a) a) by (by destruct a). by eapply put_nodes_rep.
Qed.
Lemma table_ListNodes h : sim (CListNodes h).
Proof.
  start. eapply (wp_listing "pubsub_nodes" by_node _ _ _ _ (rp_nodes _ _ Hr) _ _ _ (λ n, (h, n)) snd);
    [done|done|part|intros k v E; eapply node_reads; [apply Hr|done]|]. intros kvs Hl _. split; [by eexists|done].
Qed.

Lemma table_UpsertItem i : sim (CUpsertItem i).
Proof.
  start. eapply (wp_upsert "pubsub_items" by_item _ _ _ _ (rp_items _ _ Hr) (i_Host i, i_NodeID i, i_ItemID i) (kept_item now i));
    [done|sets|sets|done|]. intros db' Hs Ht. split; [done|]. by eapply put_items_rep.
Qed.
Lemma item_reads a k v : map_Forall (λ k v, (i_Host v, i_NodeID v, i_ItemID v) = k) (sp_items a) →
  sp_items a !! k = Some v → de_item V (by_item k ++ item_cols v) = Some v.
Proof. intros Hf E. rewrite <- (Hf k v E). apply HV. Qed.
Lemma table_GetItem h n i : sim (CGetItem h n i).
Proof.
  start. eapply (wp_get "pubsub_items" by_item _ _ _ _ (rp_items _ _ Hr) _ id); [done|intros v E; eapply item_reads; [apply Hr|done]|].
  split; [|done]. by destruct (sp_items a !! (h, n, i)).
Qed.
Lemma table_GetItems h n : sim (CGetItems h n).
Proof.
  start. eapply (wp_listing "pubsub_items" by_item _ _ _ _ (rp_items _ _ Hr) _ _ _ (λ i, (h, n, i)) snd);
    [done|done|part|intros k v E; eapply item_reads; [apply Hr|done]|].
  intros kvs Hl Hs. split; [|done]. exists kvs.*2. split; [done|]. split; [|done].
  clear Hl. induction kvs as [|[k v] kvs IH]; [constructor|]. inversion Hs as [|? ? Hs' Hh]; subst. cbn [fmap list_fmap snd].
  constructor; [by apply IH|]. destruct kvs as [|[k' v'] kvs]; [constructor|]. constructor. inversion Hh as [|? ? Ho']; subst.
  exact Ho'.
Qed.
Lemma table_DeleteItem h n i : sim (CDeleteItem h n i).
Proof.
  start. eapply (wp_need_delete "pubsub_items" by_item _ _ _ _ (rp_items _ _ Hr)); [done|..].
  - intros v db' E Hs Ht. rewrite E. split; [done|]. by eapply put_items_rep.
  - intros db' E Hs Ht. rewrite E. split; [done|]. replace a with (put_items (sp_items a) a) by (by destruct a). by eapply put_items_rep.
Qed.

Lemma table_Subscribe s : sim (CSubscribe s).
Proof.
  start. eapply (wp_upsert "pubsub_subscriptions" by_jid _ _ _ _ (rp_subs _ _ Hr) (s_Host s, s_NodeID s, s_JID s) s); [done|sets|sets|done|].
  intros db' Hs Ht. split; [done|]. by eapply put_subs_rep.
Qed.
Lemma table_Unsubscribe h n j : sim (CUnsubscribe h n j).
Proof.
  start. eapply (wp_delete "pubsub_subscriptions" by_jid _ _ _ _ (rp_subs _ _ Hr)); [done|].
  intros db' Hs Ht. split; [done|]. by eapply put_subs_rep.
Qed.
Lemma sub_reads a k v : map_Forall (λ k v, (s_Host v, s_NodeID v, s_JID v) = k) (sp_subs a) →
  sp_subs a !! k = Some v → de_sub V (by_jid k ++ sub_cols v) = Some v.
Proof. intros Hf E. rewrite <- (Hf k v E). apply HV. Qed.
Lemma table_GetSubscription h n j : sim (CGetSubscription h n j).
Proof.
  start. eapply (wp_get "pubsub_subscriptions" by_jid _ _ _ _ (rp_subs _ _ Hr) _ id); [done|intros v E; eapply sub_reads; [apply Hr|done]|].
  split; [|done]. by destruct (sp_subs a !! (h, n, j)).
Qed.
Lemma table_GetSubscriptions h n : sim (CGetSubscriptions h n).
Proof.
  start. eapply (wp_listing "pubsub_subscriptions" by_jid _ _ _ _ (rp_subs _ _ Hr) _ _ _ (λ j, (h, n, j)) snd);
    [done|done|part|intros k v E; eapply sub_reads; [apply Hr|done]|]. intros kvs Hl _. split; [by eexists|done].
Qed.
Lemma table_GetUserSubscriptions h j : sim (CGetUserSubscriptions h j).
Proof.
  start. eapply (wp_listing "pubsub_subscriptions" by_jid _ _ _ _ (rp_subs _ _ Hr) _ _ _ (λ n, (h, n, j)) (λ k, k.1.2));
    [done|done|part|intros k v E; eapply sub_reads; [apply Hr|done]|]. intros kvs Hl _. split; [by eexists|done].
Qed.

(** *** Bookmarks *)

Lemma table_SetBookmark b : sim (CSetBookmark b).
Proof.
  start. eapply (wp_upsert "bookmarks" by_bookmark _ _ _ _ (rp_bookmarks _ _ Hr) (b_UserJID b, b_RoomJID b) b); [done|sets|sets|done|].
  intros db' Hs Ht. split; [done|]. by eapply put_bookmarks_rep.
Qed.
Lemma bookmark_reads a k v : map_Forall (λ k v, (b_UserJID v, b_RoomJID v) = k) (sp_bookmarks a) →
  sp_bookmarks a !! k = Some v → de_bookmark V (by_bookmark k ++ bookmark_cols v) = Some v.
Proof. intros Hf E. rewrite <- (Hf k v E). apply HV. Qed.
Lemma table_GetBookmark u r : sim (CGetBookmark u r).
Proof.
  start. eapply (wp_get "bookmarks" by_bookmark _ _ _ _ (rp_bookmarks _ _ Hr) _ id); [done|intros v E; eapply bookmark_reads; [apply Hr|done]|].
  split; [|done]. by destruct (sp_bookmarks a !! (u, r)).
Qed.
Lemma table_GetBookmarks u : sim (CGetBookmarks u).
Proof.
  start. eapply (wp_listing "bookmarks" by_bookmark _ _ _ _ (rp_bookmarks _ _ Hr) _ _ _ (λ r, (u, r)) snd);
    [done|done|part|intros k v E; eapply bookmark_reads; [apply Hr|done]|]. intros kvs Hl _. split; [by eexists|done].
Qed.
Lemma table_DeleteBookmark u r : sim (CDeleteBookmark u r).
Proof.
  start. eapply (wp_need_delete "bookmarks" by_bookmark _ _ _ _ (rp_bookmarks _ _ Hr)); [done|..].
  - intros v db' E Hs Ht. rewrite E. split; [done|]. by eapply put_bookmarks_rep.
  - intros db' E Hs Ht. rewrite E. split; [done|]. replace a with (put_bookmarks (sp_bookmarks a) a) by (by destruct a). by eapply put_bookmarks_rep.
Qed.

Lemma table_simulates c : sim c.
Proof.
  destruct c; auto using table_CreateUser, table_GetUser, table_UpdateUser, table_DeleteUser, table_UserExists, table_Authenticate,
    table_UpsertRosterItem, table_GetRosterItem, table_GetRosterItems, table_DeleteRosterItem, table_GetRosterVersion,
    table_SetRosterVersion, table_BlockJID, table_UnblockJID, table_IsBlocked, table_GetBlockedJIDs, table_SetVCard, table_GetVCard,
    table_DeleteVCard, table_StoreOfflineMessage, table_GetOfflineMessages, table_DeleteOfflineMessages, table_CountOfflineMessages,
    table_ArchiveMessage, table_QueryMessages, table_DeleteMessageArchive, table_CreateRoom, table_GetRoom, table_UpdateRoom,
    table_DeleteRoom, table_ListRooms, table_SetAffiliation, table_GetAffiliation, table_GetAffiliations, table_RemoveAffiliation,
    table_CreateNode, table_GetNode, table_DeleteNode, table_ListNodes, table_UpsertItem, table_GetItem, table_GetItems,
    table_DeleteItem, table_Subscribe, table_Unsubscribe, table_GetSubscription, table_GetSubscriptions, table_GetUserSubscriptions,
    table_SetBookmark, table_GetBookmark, table_GetBookmarks, table_DeleteBookmark.
Qed.
End Simulation.

(** ** Runs *)

Section Runs.
Context `{Engine} {D : Type} `{!Tables D} {unique : string → option (list string)} {contents : D → tables}.
Context `{!TablesLaws D unique contents} (V : variant) (groups_ok : list string → Prop).

(** A run: calls with the time of each, and the answers the contract allows. *)
Fixpoint table_run (a : spec) (calls : list (time * call)) (rs : list answer) : Prop :=
  match calls, rs with
  | [], [] => True
  | (now, c) :: cs, x :: rs' => (table_spec now c a).2 x ∧ table_run (table_spec now c a).1 cs rs'
  | _, _ => False
  end.

(** The answers of a store. *)
Fixpoint answers_of (exec : time → call → D → D * answer) (d : D) (calls : list (time * call)) : list answer :=
  match calls with
  | [] => []
  | (now, c) :: cs => let '(d', x) := exec now c d in x :: answers_of exec d' cs
  end.

Lemma rep_empty : rep V groups_ok ∅ spec_init.
Proof. split; cbn; try (split; [done|apply map_Forall_empty]); intros u; cbn; by rewrite lookup_empty. Qed.

Fixpoint final_of (exec : time → call → D → D * answer) (d : D) (calls : list (time * call)) : D :=
  match calls with [] => d | (now, c) :: cs => final_of exec (exec now c d).1 cs end.
Fixpoint table_final (a : spec) (calls : list (time * call)) : spec :=
  match calls with [] => a | (now, c) :: cs => table_final (table_spec now c a).1 cs end.

(** A store that behaves as the store program on every call. *)
Lemma run_rep exec d calls :
  variant_ok V (unique := unique) groups_ok → (∀ now c d, exec now c d = store_call V now c d) →
  contents d = ∅ → Forall (λ nc, call_ok V groups_ok nc.1 nc.2) calls →
  table_run spec_init calls (answers_of exec d calls) ∧
  rep V groups_ok (contents (final_of exec d calls)) (table_final spec_init calls).
Proof.
  intros HV He Hd. assert (rep V groups_ok (contents d) spec_init) as Hr by (rewrite Hd; apply rep_empty). clear Hd.
  revert d Hr. generalize spec_init as a. induction calls as [|[now c] cs IH]; intros a d Hr; [done|].
  intros [Hok Hcs]%Forall_cons. pose proof (table_simulates V groups_ok HV now c d a Hr Hok) as Hs. cbn. rewrite He.
  destruct (store_call V now c d) as [d' x]. destruct Hs as [Hx Hr']. destruct (IH _ _ Hr' Hcs). done.
Qed.
End Runs.

(** ** Paging by identifiers

    When identifiers grow with time, comparing identifiers is the same as paging
    by position. *)
Section Paging.
Context `{Engine} (Hirrefl : ∀ s, text_lt s s = false) (Htrans : ∀ a b c, text_lt a b = true → text_lt b c = true → text_lt a c = true).

Definition grows (x y : ArchivedMessage) : Prop := (a_CreatedAt x < a_CreatedAt y)%Z ∧ text_lt (a_ID x) (a_ID y) = true.

Lemma text_lt_asym a b : text_lt a b = true → text_lt b a = false.
Proof. intros Ha. destruct (text_lt b a) eqn:E; [|done]. by rewrite <- (Hirrefl a), (Htrans a b a). Qed.

Lemma StronglySorted_filter {A} (R : relation A) (P : A → Prop) `{∀ x, Decision (P x)} l :
  StronglySorted R l → StronglySorted R (filter P l).
Proof.
  induction 1 as [|x l Hl IH Hx]; [constructor|]. rewrite filter_cons. destruct (decide (P x)); [|done].
  constructor; [done|]. apply Forall_forall. intros y [_ Hy]%list_elem_of_filter. rewrite Forall_forall in Hx. by apply Hx.
Qed.

Lemma after_by_id id l : StronglySorted grows l → id ∈ a_ID <$> l →
  filter (λ m, text_lt id (a_ID m) = true) l = after_id id l.
Proof.
  induction 1 as [|m l Hl IH Hm]; [by intros ?%not_elem_of_nil|]. cbn [after_id fmap list_fmap]. rewrite filter_cons. intros Hin.
  case_bool_decide as E.
  - rewrite decide_False by (subst; by rewrite Hirrefl). clear IH Hin Hl. induction Hm as [|y l Hy Hm IH]; [done|].
    rewrite filter_cons_True by (subst; by apply Hy). by rewrite IH.
  - apply elem_of_cons in Hin as [->|Hin]; [done|]. rewrite decide_False; [by apply IH|].
    apply list_elem_of_fmap in Hin as (y & -> & Hy). rewrite Forall_forall in Hm. destruct (Hm y Hy) as [_ Hlt].
    by rewrite (text_lt_asym _ _ Hlt).
Qed.

Lemma before_by_id id l : StronglySorted grows l → id ∈ a_ID <$> l →
  filter (λ m, text_lt (a_ID m) id = true) l = before_id id l.
Proof.
  induction 1 as [|m l Hl IH Hm]; [by intros ?%not_elem_of_nil|]. cbn [before_id fmap list_fmap]. rewrite filter_cons. intros Hin.
  case_bool_decide as E.
  - rewrite decide_False by (subst; by rewrite Hirrefl). clear IH Hin Hl. induction Hm as [|y l [_ Hy] Hm IH]; [done|].
    rewrite filter_cons_False; [done|]. subst. by rewrite (text_lt_asym _ _ Hy).
  - apply elem_of_cons in Hin as [->|Hin]; [done|]. rewrite decide_True; [by rewrite IH|].
    apply list_elem_of_fmap in Hin as (y & -> & Hy). rewrite Forall_forall in Hm. by destruct (Hm y Hy).
Qed.

(** A query that names at most one message, one of the archive. *)
Definition names_message (q : MAMQuery) (l : list ArchivedMessage) : Prop :=
  (q_AfterID q = ""%string ∨ q_BeforeID q = ""%string) ∧
  (q_AfterID q = ""%string ∨ q_AfterID q ∈ a_ID <$> l) ∧ (q_BeforeID q = ""%string ∨ q_BeforeID q ∈ a_ID <$> l).

Lemma page_by_id q l : StronglySorted grows l → names_message q l → filter (queried q) l = filter (selected q) (in_page q l).
Proof.
  intros Hl (Hone & Ha & Hb). unfold in_page.
  transitivity (filter (selected q) (filter (λ m, (q_AfterID q = ""%string ∨ text_lt (q_AfterID q) (a_ID m) = true) ∧
    (q_BeforeID q = ""%string ∨ text_lt (a_ID m) (q_BeforeID q) = true)) l)).
  { rewrite list_filter_filter. by apply list_filter_iff. }
  f_equal.
  assert (∀ P : ArchivedMessage → Prop, ∀ `{∀ m, Decision (P m)}, (∀ m, P m) → filter P l = l) as Hall.
  { intros P HP Hm. clear -Hm. induction l as [|m l IH]; [done|]. by rewrite filter_cons_True, IH. }
  destruct (decide (q_AfterID q = ""%string)) as [Ea|Ea]; destruct (decide (q_BeforeID q = ""%string)) as [Eb|Eb];
    rewrite ?(bool_decide_true _ Ea), ?(bool_decide_false _ Ea), ?(bool_decide_true _ Eb), ?(bool_decide_false _ Eb).
  - apply Hall. tauto.
  - rewrite <- before_by_id by naive_solver. apply list_filter_iff. naive_solver.
  - rewrite <- after_by_id by naive_solver. apply list_filter_iff. naive_solver.
  - naive_solver.
Qed.

Lemma ordered_answer q l all : StronglySorted grows l → names_message q l →
  Sorted archived_le all → all ≡ₚ filter (queried q) l → page_of q all = mam_answer q l.
Proof.
  intros Hl Hq Hs Hp. assert (all = filter (selected q) (in_page q l)) as ->; [|done]. rewrite <- page_by_id by done.
  assert (StronglySorted grows (filter (queried q) l)) as Hf by (by apply StronglySorted_filter).
  apply (StronglySorted_unique_strong archived_le); [|apply Sorted_StronglySorted; [intros x y z; unfold archived_le; lia|done]| |done].
  - intros x y Hx Hy Hxy Hyx. rewrite Hp in Hx. clear -Hf Hx Hy Hxy Hyx. revert Hx Hy. unfold archived_le in *.
    induction Hf as [|m k Hk IH Hm]; [by intros ?%not_elem_of_nil|]. rewrite Forall_forall in Hm.
    intros [->|Hx]%elem_of_cons [->|Hy]%elem_of_cons; [done| | |by apply IH].
    + destruct (Hm y Hy). lia.
    + destruct (Hm x Hx). lia.
  - clear -Hf. induction Hf as [|m k Hk IH Hm]; constructor; [done|]. eapply Forall_impl; [exact Hm|]. intros y [Hy _]. unfold archived_le. lia.
Qed.
End Paging.

(** ** When the differences cannot be seen

    Calls on which a database answers as the abstract machine itself: times the
    engine keeps exactly, updates of a user that name its creation time, messages
    in the order of their times, with identifiers that grow, pages that start at
    a message of the archive, and nodes without configuration. *)
Section Portable.
Context `{Engine} (Hirrefl : ∀ s, text_lt s s = false) (Htrans : ∀ a b c, text_lt a b = true → text_lt b c = true → text_lt a c = true).

Definition exact (t : time) : Prop := precise t = t.
Definition portable (now : time) (c : call) (a : spec) : Prop :=
  match c with
  | CCreateUser _ => exact now
  | CUpdateUser u => exact now ∧ ∀ old, sp_users a !! Username u = Some old → u_CreatedAt old = u_CreatedAt u
  | CStoreOfflineMessage m =>
      exact (stamp now (o_CreatedAt m)) ∧
      Forall (λ x, o_CreatedAt x < stamp now (o_CreatedAt m))%Z (default [] (sp_offline a !! o_UserJID m))
  | CArchiveMessage m =>
      a_ID m ≠ ""%string ∧ exact (stamp now (a_CreatedAt m)) ∧
      Forall (λ x, grows x (kept_archived now m)) (default [] (sp_mam a !! a_UserJID m))
  | CQueryMessages q => names_message q (default [] (sp_mam a !! q_UserJID q))
  | CCreateNode n => Config n = None
  | CUpsertItem i => exact (stamp now (i_CreatedAt i))
  | _ => True
  end.
Fixpoint portable_run (a : spec) (calls : list (time * call)) : Prop :=
  match calls with [] => True | (now, c) :: cs => portable now c a ∧ portable_run (spec_call now c a).1 cs end.

Definition before (x y : OfflineMessage) : Prop := (o_CreatedAt x < o_CreatedAt y)%Z.
(** Messages are kept in the order of their times. *)
Record chronological (a : spec) : Prop := {
  ch_offline u : StronglySorted before (default [] (sp_offline a !! u));
  ch_mam u : StronglySorted grows (default [] (sp_mam a !! u)) }.

Lemma StronglySorted_snoc {A} (R : relation A) l x : StronglySorted R l → Forall (λ y, R y x) l → StronglySorted R (l ++ [x]).
Proof.
  induction 1 as [|y l Hl IH Hy]; cbn; [by repeat constructor|]. intros [Hyx Hx]%Forall_cons. constructor; [by apply IH|].
  apply Forall_app. split; [done|by repeat constructor].
Qed.

Lemma sorted_by_time l k : StronglySorted before l → Sorted offline_le k → k ≡ₚ l → k = l.
Proof.
  intros Hl Hs Hp. apply (StronglySorted_unique_strong offline_le); [| | |done].
  - intros x y Hx Hy Hxy Hyx. rewrite Hp in Hx. clear -Hl Hx Hy Hxy Hyx. revert Hx Hy. unfold offline_le, before in *.
    induction Hl as [|m l Hl IH Hm]; [by intros ?%not_elem_of_nil|]. rewrite Forall_forall in Hm.
    intros [->|Hx]%elem_of_cons [->|Hy]%elem_of_cons; [done| | |by apply IH].
    + specialize (Hm y Hy). lia.
    + specialize (Hm x Hx). lia.
  - apply Sorted_StronglySorted; [intros x y z; unfold offline_le; lia|done].
  - clear -Hl. induction Hl as [|m l Hl IH Hm]; constructor; [done|]. eapply Forall_impl; [exact Hm|]. intros y Hy. unfold offline_le, before in *. lia.
Qed.

Lemma chronological_same a a' : sp_offline a' = sp_offline a → sp_mam a' = sp_mam a → chronological a → chronological a'.
Proof. intros Ho Hm [H1 H2]. split; intros u; [by rewrite Ho|by rewrite Hm]. Qed.
Lemma chronological_offline a x : (∀ u, StronglySorted before (default [] (x !! u))) → chronological a → chronological (put_offline x a).
Proof. intros Hx [_ Hm]. by split. Qed.
Lemma chronological_mam a x n : (∀ u, StronglySorted grows (default [] (x !! u))) → chronological a → chronological (put_counter n (put_mam x a)).
Proof. intros Hx [Ho _]. by split. Qed.

Lemma table_spec_portable now c a :
  chronological a → portable now c a →
  (table_spec now c a).1 = (spec_call now c a).1 ∧ ∀ x, (table_spec now c a).2 x → (spec_call now c a).2 x.
Proof.
  intros [Ho Hm] Hp. destruct c; try (split; [reflexivity|intros x Hx; exact Hx]); cbn in *; unfold exact in *.
  - destruct (sp_users a !! _); [by split|]. unfold precise_user, new_user. cbn. by rewrite Hp.
  - destruct Hp as [Hn Hold]. unfold on_entry. destruct (sp_users a !! _) as [old|] eqn:E; [|by split].
    unfold changed_user, updated_user. by rewrite Hn, (Hold _ eq_refl).
  - destruct Hp as [Hn _]. unfold kept_offline, stamped_offline. by rewrite Hn.
  - split; [done|]. intros x (l & -> & Hs & Hl). unfold answers. f_equal. by apply sorted_by_time.
  - destruct Hp as (Hid & Hn & _). unfold archived, kept_archived. rewrite (bool_decide_false _ Hid), Hn. cbn. by destruct a.
  - split; [done|]. intros x (all & -> & Hs & Hl). unfold answers. f_equal. by apply ordered_answer.
  - destruct (sp_nodes a !! _); [by split|]. unfold kept_node. destruct n. cbn in *. by subst.
  - unfold kept_item, stamped_item. by rewrite Hp.
Qed.

Lemma spec_call_chronological now c a : chronological a → portable now c a → chronological (spec_call now c a).1.
Proof.
  intros Hc Hp. destruct c; try exact Hc; cbn in *;
    try (by apply (chronological_same a)); try (unfold on_entry; case_match; by apply (chronological_same a)).
  - apply chronological_offline; [|done]. intros u. destruct (decide (o_UserJID m = u)) as [<-|Hu].
    + rewrite lookup_insert_eq. apply StronglySorted_snoc; [apply Hc|]. by destruct Hp.
    + rewrite lookup_insert_ne by done. apply Hc.
  - apply chronological_offline; [|done]. intros v. destruct (decide (user = v)) as [<-|Hu].
    + rewrite lookup_delete_eq. constructor.
    + rewrite lookup_delete_ne by done. apply Hc.
  - destruct Hp as (Hid & Hn & Hg). unfold archived. rewrite (bool_decide_false _ Hid). cbn.
    apply chronological_mam; [|done]. intros u. destruct (decide (a_UserJID m = u)) as [<-|Hu].
    + rewrite lookup_insert_eq. apply StronglySorted_snoc; [apply Hc|]. eapply Forall_impl; [exact Hg|].
      intros x Hx. unfold kept_archived in Hx. rewrite Hn in Hx. done.
    + rewrite lookup_insert_ne by done. apply Hc.
  - destruct Hc as [Ho Hm]. split; [done|]. intros v. cbn. destruct (decide (user = v)) as [<-|Hu].
    + rewrite lookup_delete_eq. constructor.
    + rewrite lookup_delete_ne by done. apply Hm.
Qed.

(** A run of such calls is a run of the abstract machine. *)
Lemma portable_answers calls rs : portable_run spec_init calls → table_run spec_init calls rs → spec_run spec_init calls rs.
Proof.
  assert (chronological spec_init) as Hc by (split; intros u; cbn; rewrite lookup_empty; constructor). revert Hc rs.
  generalize spec_init as a. induction calls as [|[now c] cs IH]; intros a Hc [|r rs]; try done. cbn. intros [Hp Hps] [Hr Hrs].
  destruct (table_spec_portable now c a Hc Hp) as [E Ha]. rewrite E in Hrs. split; [by apply Ha|].
  apply IH; [by apply spec_call_chronological|done|done].
Qed.
End Portable.
