(* ===== verification/SqlStorage.v ===== *)
(** * The SQL store (src/storage/sql, src/storage/sqlite, postgres, mysql)

    Every statement of the store with the text it is sent as in each dialect, the
    operation it stands for ([bind]) and the operations of the nine interfaces,
    as calls of [Exec], [Query] and [QueryRow].  The database behind [database/sql]
    is the class [Tables]; the text of its errors is a parameter.  Then the
    migrations: the tables the three dialects create, and [Migrate].

    [sql_store_refines]: the store refines the contract as a database keeps it.
    [statements_typed]: every statement names tables and columns that the
    migrations of all three dialects create, and its conflict columns are the
    primary key.  [migrate_resumes]: migrations are applied once, in order, and a
    failed one is where the next run resumes. *)

From Stdlib Require Import Ascii String ZArith.
From stdpp Require Import pretty.
From S2P Require Import Prelude GoStrings Bytes Storage Tables TableStore.

Open Scope list_scope.
Open Scope go_scope.

(** ** Dialects *)

Inductive dialect := SQLite | Postgres | MySQL.

Definition Placeholder (d : dialect) (n : nat) : string :=
  match d with
  | SQLite | MySQL => "?"
  | Postgres => "$" +:+ pretty n
  end%string.

Definition sqlite_UpsertSuffix (conflictColumns updateColumns : list string) : string :=
  match updateColumns with
  | [] => "ON CONFLICT (" +:+ Join conflictColumns ", " +:+ ") DO NOTHING"
  | _ => "ON CONFLICT (" +:+ Join conflictColumns ", " +:+ ") DO UPDATE SET " +:+
         Join ((λ col, col +:+ " = excluded." +:+ col) <$> updateColumns) ", "
  end%string.
Definition postgres_UpsertSuffix (conflictColumns updateColumns : list string) : string :=
  match updateColumns with
  | [] => "ON CONFLICT (" +:+ Join conflictColumns ", " +:+ ") DO NOTHING"
  | _ => "ON CONFLICT (" +:+ Join conflictColumns ", " +:+ ") DO UPDATE SET " +:+
         Join ((λ col, col +:+ " = EXCLUDED." +:+ col) <$> updateColumns) ", "
  end%string.
(** MySQL has no DO NOTHING; an update without columns and conflict columns does
    not occur ([conflictColumns[0]] would panic). *)
Definition mysql_UpsertSuffix (conflictColumns updateColumns : list string) : string :=
  match updateColumns, conflictColumns with
  | [], c :: _ => "ON DUPLICATE KEY UPDATE " +:+ c +:+ " = " +:+ c
  | _, _ => "ON DUPLICATE KEY UPDATE " +:+ Join ((λ col, col +:+ " = VALUES(" +:+ col +:+ ")") <$> updateColumns) ", "
  end%string.
Definition UpsertSuffix (d : dialect) (conflictColumns updateColumns : list string) : string :=
  match d with
  | SQLite => sqlite_UpsertSuffix conflictColumns updateColumns
  | Postgres => postgres_UpsertSuffix conflictColumns updateColumns
  | MySQL => mysql_UpsertSuffix conflictColumns updateColumns
  end.

(** ** Statements *)

Inductive statement :=
  | SInsert (t : string) (cols : list string)
  | SUpsert (t : string) (cols conflict update : list string)
  | SUpdate (t : string) (set where_ : list string)
  | SDelete (t : string) (where_ : list string)
  | SSelect (t : string) (cols : list string) (where_ : list (string * comparison)) (order : option string) (limit : option Z)
  | SCount (t : string) (where_ : list string).

(** *** The text of a statement *)
Section Text.
Context (d : dialect).

Definition ph (n : nat) : string := Placeholder d n.
Definition phs (start count : nat) : string := Join (Placeholder d <$> seq start count) ", ".

Definition comparison_text (c : comparison) : string :=
  match c with CEq => " = " | CGt => " > " | CLt => " < " | CGe => " >= " | CLe => " <= " end.
(** Conditions and assignments with their placeholders, from the [n]-th. *)
Fixpoint with_ph (n : nat) (l : list (string * comparison)) : list string :=
  match l with [] => [] | (c, op) :: l' => (c +:+ comparison_text op +:+ ph n)%string :: with_ph (S n) l' end.
Definition where_text (n : nat) (l : list (string * comparison)) : string :=
  match l with [] => "" | _ => " WHERE " +:+ Join (with_ph n l) " AND " end%string.
Definition eqs (l : list string) : list (string * comparison) := (λ c, (c, CEq)) <$> l.

Definition text (st : statement) : string :=
  match st with
  | SInsert t cols => "INSERT INTO " +:+ t +:+ " (" +:+ Join cols ", " +:+ ") VALUES (" +:+ phs 1 (length cols) +:+ ")"
  | SUpsert t cols conflict update =>
      "INSERT INTO " +:+ t +:+ " (" +:+ Join cols ", " +:+ ") VALUES (" +:+ phs 1 (length cols) +:+ ") " +:+
      UpsertSuffix d conflict update
  | SUpdate t set w => "UPDATE " +:+ t +:+ " SET " +:+ Join (with_ph 1 (eqs set)) ", " +:+ where_text (S (length set)) (eqs w)
  | SDelete t w => "DELETE FROM " +:+ t +:+ where_text 1 (eqs w)
  | SSelect t cols w order limit =>
      "SELECT " +:+ Join cols ", " +:+ " FROM " +:+ t +:+ where_text 1 w +:+
      match order with Some c => " ORDER BY " +:+ c +:+ " ASC" | None => "" end +:+
      match limit with Some n => " LIMIT " +:+ pretty n | None => "" end
  | SCount t w => "SELECT COUNT(*) FROM " +:+ t +:+ where_text 1 (eqs w)
  end%string.
End Text.

(** The number of arguments a statement takes. *)
Definition arity (st : statement) : nat :=
  match st with
  | SInsert _ cols | SUpsert _ cols _ _ => length cols
  | SUpdate _ set w => (length set + length w)%nat
  | SDelete _ w | SCount _ w => length w
  | SSelect _ _ w _ _ => length w
  end.

(** *** What a statement does with its arguments *)

Definition among (cols : list string) (r : row) : row := List.filter (λ p, existsb (String.eqb p.1) cols) r.
Fixpoint conditions (w : list (string * comparison)) (args : list value) : condition :=
  match w, args with (c, op) :: w', v :: args' => (c, op, v) :: conditions w' args' | _, _ => [] end.

Definition bind (st : statement) (args : list value) : op :=
  match st with
  | SInsert t cols => OInsert t (zip cols args)
  | SUpsert t cols conflict update => OUpsert t (among conflict (zip cols args)) (among update (zip cols args))
  | SUpdate t set w => OUpdate t (conditions (eqs w) (drop (length set) args)) (zip set (take (length set) args)) false
  | SDelete t w => ODelete t (conditions (eqs w) args) false
  | SSelect t cols w order limit => OFind cols t (conditions w args) order limit
  | SCount t w => OCount t (conditions (eqs w) args)
  end.
Definition columns (st : statement) : list string := match st with SSelect _ cols _ _ _ => cols | _ => [] end.
Definition project (cols : list string) (r : row) : list value := (λ c, field c r) <$> cols.

(** ** Errors of the driver *)

(** [for i := 0; i <= len(s)-len(substr); i++]. *)
Definition searchString (s substr : string) : bool :=
  existsb (λ i, String.eqb (str_take (String.length substr) (str_drop i s)) substr)
    (seq 0 (Z.to_nat (len s - len substr + 1))).
Definition contains (s substr : string) : bool := (len substr <=? len s)%Z && searchString s substr.
Definition isUniqueViolation (msg : string) : bool :=
  contains msg "UNIQUE constraint failed" || contains msg "duplicate key" || contains msg "Duplicate entry".

(** ** The store *)

Section Store.
Context {D : Type} `{Tables D}.
(** The message of the driver's error. *)
Context (Error : result → string).
Notation SM A := (M D table_error A).

Definition Exec (st : statement) (args : list value) : SM Z := t_exec (bind st args).
Definition Query {A} (st : statement) (args : list value) (scan : list value → option A) : SM (list A) :=
  t_list (λ r, scan (project (columns st) r)) (bind st args).
(** [QueryRow(...).Scan]; [None] is [sql.ErrNoRows]. *)
Definition QueryRow {A} (st : statement) (args : list value) (scan : list value → option A) : SM (option A) :=
  t_first (λ r, scan (project (columns st) r)) (bind st args).
Definition or_not_found {A} (p : SM (option A)) : SM A :=
  do x <- p; match x with Some a => mok a | None => merr (TStorage ErrNotFound) end.
(** [n, _ := res.RowsAffected(); if n == 0 { return ErrNotFound }]. *)
Definition affected (st : statement) (args : list value) : SM unit := t_need (bind st args).

(** *** UserStore *)

Definition CreateUser (now : time) (user : User) : SM unit :=
  t_create (λ y, isUniqueViolation (Error y))
    (bind (SInsert "users" ["username"; "password"; "salt"; "iterations"; "server_key"; "stored_key"; "created_at"; "updated_at"])
       [VText (Username user); VText (Password user); VText (Salt user); VInt (Iterations user);
        VText (ServerKey user); VText (StoredKey user); VTime now; VTime now])%string.

Definition scan_user (l : list value) : option User :=
  match l with
  | [VText n; VText p; VText s; VInt i; VText sk; VText st; VTime c; VTime u] => Some (mkUser n p s i sk st c u)
  | _ => None
  end.
Definition GetUser (username : string) : SM User :=
  or_not_found (QueryRow
    (SSelect "users" ["username"; "password"; "salt"; "iterations"; "server_key"; "stored_key"; "created_at"; "updated_at"]
       [("username", CEq)] None None) [VText username] scan_user)%string.

Definition UpdateUser (now : time) (user : User) : SM unit :=
  affected (SUpdate "users" ["password"; "salt"; "iterations"; "server_key"; "stored_key"; "updated_at"] ["username"])
    [VText (Password user); VText (Salt user); VInt (Iterations user); VText (ServerKey user); VText (StoredKey user);
     VTime now; VText (Username user)]%string.

Definition DeleteUser (username : string) : SM unit := affected (SDelete "users" ["username"]) [VText username]%string.

Definition UserExists (username : string) : SM bool :=
  do count <- Exec (SCount "users" ["username"]) [VText username]; mok (0 <? count)%Z.

Definition scan_text (l : list value) : option string := match l with [VText s] => Some s | _ => None end.
Definition Authenticate (username password : string) : SM bool :=
  do storedPassword <- QueryRow (SSelect "users" ["password"] [("username", CEq)] None None) [VText username] scan_text;
  match storedPassword with
  | None => merr (TStorage ErrAuthFailed)
  | Some storedPassword => if bool_decide (storedPassword ≠ password) then merr (TStorage ErrAuthFailed) else mok true
  end%string.

(** *** RosterStore *)

Definition newline : ascii := "010"%char.
Definition UpsertRosterItem (item : RosterItem) : SM unit :=
  let groups := Join (Groups item) (String newline "") in
  t_unit (Exec (SUpsert "roster_items" ["user_jid"; "contact_jid"; "name"; "subscription"; "ask"; "groups_list"]
                  ["user_jid"; "contact_jid"] ["name"; "subscription"; "ask"; "groups_list"])
            [VText (r_UserJID item); VText (ContactJID item); VText (r_Name item); VText (Subscription item);
             VText (Ask item); VText groups])%string.

Definition scanRosterItem (l : list value) : option RosterItem :=
  match l with
  | [VText u; VText c; VText n; VText s; VText a; VText groups] =>
      Some (mkRosterItem u c n s a (if bool_decide (groups ≠ ""%string) then Split groups newline else []))
  | _ => None
  end.
Definition GetRosterItem (userJID contactJID : string) : SM RosterItem :=
  or_not_found (QueryRow
    (SSelect "roster_items" ["user_jid"; "contact_jid"; "name"; "subscription"; "ask"; "groups_list"]
       [("user_jid", CEq); ("contact_jid", CEq)] None None) [VText userJID; VText contactJID] scanRosterItem)%string.
Definition GetRosterItems (userJID : string) : SM (list RosterItem) :=
  Query (SSelect "roster_items" ["user_jid"; "contact_jid"; "name"; "subscription"; "ask"; "groups_list"]
           [("user_jid", CEq)] None None) [VText userJID] scanRosterItem%string.
Definition DeleteRosterItem (userJID contactJID : string) : SM unit :=
  affected (SDelete "roster_items" ["user_jid"; "contact_jid"]) [VText userJID; VText contactJID]%string.
Definition GetRosterVersion (userJID : string) : SM string :=
  do ver <- QueryRow (SSelect "roster_versions" ["version"] [("user_jid", CEq)] None None) [VText userJID] scan_text;
  mok (default "" ver)%string.
Definition SetRosterVersion (userJID version : string) : SM unit :=
  t_unit (Exec (SUpsert "roster_versions" ["user_jid"; "version"] ["user_jid"] ["version"]) [VText userJID; VText version])%string.

(** *** BlockingStore *)

Definition BlockJID (userJID blockedJID : string) : SM unit :=
  t_unit (Exec (SUpsert "blocked_jids" ["user_jid"; "blocked_jid"] ["user_jid"; "blocked_jid"] []) [VText userJID; VText blockedJID])%string.
Definition UnblockJID (userJID blockedJID : string) : SM unit :=
  t_unit (Exec (SDelete "blocked_jids" ["user_jid"; "blocked_jid"]) [VText userJID; VText blockedJID])%string.
Definition IsBlocked (userJID blockedJID : string) : SM bool :=
  do count <- Exec (SCount "blocked_jids" ["user_jid"; "blocked_jid"]) [VText userJID; VText blockedJID]; mok (0 <? count)%Z.
Definition GetBlockedJIDs (userJID : string) : SM (list string) :=
  Query (SSelect "blocked_jids" ["blocked_jid"] [("user_jid", CEq)] None None) [VText userJID] scan_text%string.

(** *** VCardStore *)

Definition SetVCard (userJID : string) (data : bytes) : SM unit :=
  t_unit (Exec (SUpsert "vcards" ["user_jid"; "data"] ["user_jid"] ["data"]) [VText userJID; VBlob data])%string.
Definition scan_blob (l : list value) : option bytes := match l with [VBlob b] => Some b | _ => None end.
Definition GetVCard (userJID : string) : SM bytes :=
  or_not_found (QueryRow (SSelect "vcards" ["data"] [("user_jid", CEq)] None None) [VText userJID] scan_blob)%string.
Definition DeleteVCard (userJID : string) : SM unit := affected (SDelete "vcards" ["user_jid"]) [VText userJID]%string.

(** *** OfflineStore *)

Definition StoreOfflineMessage (now : time) (msg : OfflineMessage) : SM unit :=
  let createdAt := if IsZero (o_CreatedAt msg) then now else o_CreatedAt msg in
  t_unit (Exec (SInsert "offline_messages" ["id"; "user_jid"; "from_jid"; "data"; "created_at"])
            [VText (o_ID msg); VText (o_UserJID msg); VText (o_FromJID msg); VBlob (o_Data msg); VTime createdAt])%string.
Definition scan_offline (l : list value) : option OfflineMessage :=
  match l with [VText i; VText u; VText f; VBlob d; VTime c] => Some (mkOffline i u f d c) | _ => None end.
Definition GetOfflineMessages (userJID : string) : SM (list OfflineMessage) :=
  Query (SSelect "offline_messages" ["id"; "user_jid"; "from_jid"; "data"; "created_at"] [("user_jid", CEq)]
           (Some "created_at") None) [VText userJID] scan_offline%string.
Definition DeleteOfflineMessages (userJID : string) : SM unit :=
  t_unit (Exec (SDelete "offline_messages" ["user_jid"]) [VText userJID])%string.
Definition CountOfflineMessages (userJID : string) : SM Z := Exec (SCount "offline_messages" ["user_jid"]) [VText userJID]%string.

(** *** MAMStore *)

Definition ArchiveMessage (now : time) (msg : ArchivedMessage) : SM unit :=
  let createdAt := if IsZero (a_CreatedAt msg) then now else a_CreatedAt msg in
  t_unit (Exec (SInsert "mam_messages" ["id"; "user_jid"; "with_jid"; "from_jid"; "data"; "created_at"])
            [VText (a_ID msg); VText (a_UserJID msg); VText (a_WithJID msg); VText (a_FromJID msg); VBlob (a_Data msg);
             VTime createdAt])%string.
Definition scan_archived (l : list value) : option ArchivedMessage :=
  match l with [VText i; VText u; VText w; VText f; VBlob d; VTime c] => Some (mkArchived i u w f d c) | _ => None end.

(** The filters, each with its argument. *)
Definition query_filters (query : MAMQuery) : list (string * comparison * value) :=
  [("user_jid", CEq, VText (q_UserJID query))] ++
  (if bool_decide (q_WithJID query ≠ "") then [("with_jid", CEq, VText (q_WithJID query))] else []) ++
  (if negb (IsZero (q_Start query)) then [("created_at", CGe, VTime (q_Start query))] else []) ++
  (if negb (IsZero (q_End query)) then [("created_at", CLe, VTime (q_End query))] else []) ++
  (if bool_decide (q_AfterID query ≠ "") then [("id", CGt, VText (q_AfterID query))] else []) ++
  (if bool_decide (q_BeforeID query ≠ "") then [("id", CLt, VText (q_BeforeID query))] else [])%string.
Definition QueryMessages (query : MAMQuery) : SM MAMResult :=
  let filters := query_filters query in
  let max := if (q_Max query <=? 0)%Z then 100%Z else q_Max query in
  do msgs <- Query (SSelect "mam_messages" ["id"; "user_jid"; "with_jid"; "from_jid"; "data"; "created_at"]
                      filters.*1 (Some "created_at"%string) (Some (i64_succ max))) filters.*2 scan_archived;
  mok (mam_page max msgs).
Definition DeleteMessageArchive (userJID : string) : SM unit :=
  t_unit (Exec (SDelete "mam_messages" ["user_jid"]) [VText userJID])%string.

(** *** MUCRoomStore *)

Definition CreateRoom (room : MUCRoom) : SM unit :=
  t_create (λ y, isUniqueViolation (Error y))
    (bind (SInsert "muc_rooms" ["room_jid"; "name"; "description"; "subject"; "password"; "is_public"; "is_persistent"; "max_users"])
       [VText (m_RoomJID room); VText (m_Name room); VText (Description room); VText (Subject room); VText (m_Password room);
        VBool (Public room); VBool (Persistent room); VInt (MaxUsers room)])%string.
Definition scan_room (l : list value) : option MUCRoom :=
  match l with
  | [VText j; VText n; VText d; VText s; VText p; VBool pu; VBool pe; VInt m] => Some (mkRoom j n d s p pu pe m)
  | _ => None
  end.
Definition GetRoom (roomJID : string) : SM MUCRoom :=
  or_not_found (QueryRow
    (SSelect "muc_rooms" ["room_jid"; "name"; "description"; "subject"; "password"; "is_public"; "is_persistent"; "max_users"]
       [("room_jid", CEq)] None None) [VText roomJID] scan_room)%string.
Definition UpdateRoom (room : MUCRoom) : SM unit :=
  affected (SUpdate "muc_rooms" ["name"; "description"; "subject"; "password"; "is_public"; "is_persistent"; "max_users"] ["room_jid"])
    [VText (m_Name room); VText (Description room); VText (Subject room); VText (m_Password room); VBool (Public room);
     VBool (Persistent room); VInt (MaxUsers room); VText (m_RoomJID room)]%string.
Definition DeleteRoom (roomJID : string) : SM unit :=
  do_ affected (SDelete "muc_rooms" ["room_jid"]) [VText roomJID];
  t_drop (bind (SDelete "muc_affiliations" ["room_jid"]) [VText roomJID])%string.
Definition ListRooms : SM (list MUCRoom) :=
  Query (SSelect "muc_rooms" ["room_jid"; "name"; "description"; "subject"; "password"; "is_public"; "is_persistent"; "max_users"]
           [] None None) [] scan_room%string.

Definition SetAffiliation (aff : MUCAffiliation) : SM unit :=
  t_unit (Exec (SUpsert "muc_affiliations" ["room_jid"; "user_jid"; "affiliation"; "reason"] ["room_jid"; "user_jid"]
                  ["affiliation"; "reason"])
            [VText (f_RoomJID aff); VText (f_UserJID aff); VText (Affiliation aff); VText (Reason aff)])%string.
Definition scan_aff (l : list value) : option MUCAffiliation :=
  match l with [VText r; VText u; VText a; VText e] => Some (mkAffiliation r u a e) | _ => None end.
Definition GetAffiliation (roomJID userJID : string) : SM MUCAffiliation :=
  or_not_found (QueryRow (SSelect "muc_affiliations" ["room_jid"; "user_jid"; "affiliation"; "reason"]
       [("room_jid", CEq); ("user_jid", CEq)] None None) [VText roomJID; VText userJID] scan_aff)%string.
Definition GetAffiliations (roomJID : string) : SM (list MUCAffiliation) :=
  Query (SSelect "muc_affiliations" ["room_jid"; "user_jid"; "affiliation"; "reason"] [("room_jid", CEq)] None None)
    [VText roomJID] scan_aff%string.
Definition RemoveAffiliation (roomJID userJID : string) : SM unit :=
  t_unit (Exec (SDelete "muc_affiliations" ["room_jid"; "user_jid"]) [VText roomJID; VText userJID])%string.

(** *** PubSubStore *)

Definition CreateNode (node : PubSubNode) : SM unit :=
  t_create (λ y, isUniqueViolation (Error y))
    (bind (SInsert "pubsub_nodes" ["host"; "node_id"; "name"; "type"; "creator"])
       [VText (n_Host node); VText (n_NodeID node); VText (n_Name node); VText (n_Type node); VText (Creator node)])%string.
Definition scan_node (l : list value) : option PubSubNode :=
  match l with [VText h; VText n; VText m; VText t; VText c] => Some (mkNode h n m t None c) | _ => None end.
Definition GetNode (host nodeID : string) : SM PubSubNode :=
  or_not_found (QueryRow (SSelect "pubsub_nodes" ["host"; "node_id"; "name"; "type"; "creator"]
       [("host", CEq); ("node_id", CEq)] None None) [VText host; VText nodeID] scan_node)%string.
Definition DeleteNode (host nodeID : string) : SM unit :=
  do_ affected (SDelete "pubsub_nodes" ["host"; "node_id"]) [VText host; VText nodeID];
  do_ t_drop (bind (SDelete "pubsub_items" ["host"; "node_id"]) [VText host; VText nodeID]);
  t_drop (bind (SDelete "pubsub_subscriptions" ["host"; "node_id"]) [VText host; VText nodeID])%string.
Definition ListNodes (host : string) : SM (list PubSubNode) :=
  Query (SSelect "pubsub_nodes" ["host"; "node_id"; "name"; "type"; "creator"] [("host", CEq)] None None) [VText host] scan_node%string.

Definition UpsertItem (now : time) (item : PubSubItem) : SM unit :=
  let createdAt := if IsZero (i_CreatedAt item) then now else i_CreatedAt item in
  t_unit (Exec (SUpsert "pubsub_items" ["host"; "node_id"; "item_id"; "publisher"; "payload"; "created_at"]
                  ["host"; "node_id"; "item_id"] ["publisher"; "payload"; "created_at"])
            [VText (i_Host item); VText (i_NodeID item); VText (i_ItemID item); VText (Publisher item); VBlob (i_Payload item);
             VTime createdAt])%string.
Definition scan_item (l : list value) : option PubSubItem :=
  match l with [VText h; VText n; VText i; VText p; VBlob b; VTime c] => Some (mkItem h n i p b c) | _ => None end.
Definition GetItem (host nodeID itemID : string) : SM PubSubItem :=
  or_not_found (QueryRow (SSelect "pubsub_items" ["host"; "node_id"; "item_id"; "publisher"; "payload"; "created_at"]
       [("host", CEq); ("node_id", CEq); ("item_id", CEq)] None None) [VText host; VText nodeID; VText itemID] scan_item)%string.
Definition GetItems (host nodeID : string) : SM (list PubSubItem) :=
  Query (SSelect "pubsub_items" ["host"; "node_id"; "item_id"; "publisher"; "payload"; "created_at"]
       [("host", CEq); ("node_id", CEq)] (Some "created_at") None) [VText host; VText nodeID] scan_item%string.
Definition DeleteItem (host nodeID itemID : string) : SM unit :=
  affected (SDelete "pubsub_items" ["host"; "node_id"; "item_id"]) [VText host; VText nodeID; VText itemID]%string.

Definition Subscribe (sub : PubSubSubscription) : SM unit :=
  t_unit (Exec (SUpsert "pubsub_subscriptions" ["host"; "node_id"; "jid"; "sub_id"; "state"] ["host"; "node_id"; "jid"] ["sub_id"; "state"])
            [VText (s_Host sub); VText (s_NodeID sub); VText (s_JID sub); VText (SubID sub); VText (s_State sub)])%string.
Definition Unsubscribe (host nodeID jid : string) : SM unit :=
  t_unit (Exec (SDelete "pubsub_subscriptions" ["host"; "node_id"; "jid"]) [VText host; VText nodeID; VText jid])%string.
Definition scan_sub (l : list value) : option PubSubSubscription :=
  match l with [VText h; VText n; VText j; VText i; VText s] => Some (mkSubscription h n j i s) | _ => None end.
Definition GetSubscription (host nodeID jid : string) : SM PubSubSubscription :=
  or_not_found (QueryRow (SSelect "pubsub_subscriptions" ["host"; "node_id"; "jid"; "sub_id"; "state"]
       [("host", CEq); ("node_id", CEq); ("jid", CEq)] None None) [VText host; VText nodeID; VText jid] scan_sub)%string.
Definition GetSubscriptions (host nodeID : string) : SM (list PubSubSubscription) :=
  Query (SSelect "pubsub_subscriptions" ["host"; "node_id"; "jid"; "sub_id"; "state"] [("host", CEq); ("node_id", CEq)] None None)
    [VText host; VText nodeID] scan_sub%string.
Definition GetUserSubscriptions (host jid : string) : SM (list PubSubSubscription) :=
  Query (SSelect "pubsub_subscriptions" ["host"; "node_id"; "jid"; "sub_id"; "state"] [("host", CEq); ("jid", CEq)] None None)
    [VText host; VText jid] scan_sub%string.

(** *** BookmarkStore *)

Definition SetBookmark (bm : Bookmark) : SM unit :=
  t_unit (Exec (SUpsert "bookmarks" ["user_jid"; "room_jid"; "name"; "nick"; "password"; "autojoin"] ["user_jid"; "room_jid"]
                  ["name"; "nick"; "password"; "autojoin"])
            [VText (b_UserJID bm); VText (b_RoomJID bm); VText (b_Name bm); VText (Nick bm); VText (b_Password bm); VBool (Autojoin bm)])%string.
Definition scan_bookmark (l : list value) : option Bookmark :=
  match l with [VText u; VText r; VText n; VText k; VText p; VBool a] => Some (mkBookmark u r n k p a) | _ => None end.
Definition GetBookmark (userJID roomJID : string) : SM Bookmark :=
  or_not_found (QueryRow (SSelect "bookmarks" ["user_jid"; "room_jid"; "name"; "nick"; "password"; "autojoin"]
       [("user_jid", CEq); ("room_jid", CEq)] None None) [VText userJID; VText roomJID] scan_bookmark)%string.
Definition GetBookmarks (userJID : string) : SM (list Bookmark) :=
  Query (SSelect "bookmarks" ["user_jid"; "room_jid"; "name"; "nick"; "password"; "autojoin"] [("user_jid", CEq)] None None)
    [VText userJID] scan_bookmark%string.
Definition DeleteBookmark (userJID roomJID : string) : SM unit :=
  affected (SDelete "bookmarks" ["user_jid"; "room_jid"]) [VText userJID; VText roomJID]%string.
End Store.

(** ** Calls *)

Notation unit_of := (λ _ : unit, AUnit).

Definition exec {D} `{Tables D} (Error : result → string) (now : time) (c : call) : D → D * answer :=
  match c with
  | CCreateUser u => t_answer unit_of (CreateUser Error now u)
  | CGetUser n => t_answer AUser (GetUser n)
  | CUpdateUser u => t_answer unit_of (UpdateUser now u)
  | CDeleteUser n => t_answer unit_of (DeleteUser n)
  | CUserExists n => t_answer ABool (UserExists n)
  | CAuthenticate n p => t_answer ABool (Authenticate n p)
  | CUpsertRosterItem i => t_answer unit_of (UpsertRosterItem i)
  | CGetRosterItem u c => t_answer ARoster (GetRosterItem u c)
  | CGetRosterItems u => t_answer ARosters (GetRosterItems u)
  | CDeleteRosterItem u c => t_answer unit_of (DeleteRosterItem u c)
  | CGetRosterVersion u => t_answer AStr (GetRosterVersion u)
  | CSetRosterVersion u v => t_answer unit_of (SetRosterVersion u v)
  | CBlockJID u j => t_answer unit_of (BlockJID u j)
  | CUnblockJID u j => t_answer unit_of (UnblockJID u j)
  | CIsBlocked u j => t_answer ABool (IsBlocked u j)
  | CGetBlockedJIDs u => t_answer AStrs (GetBlockedJIDs u)
  | CSetVCard u d => t_answer unit_of (SetVCard u d)
  | CGetVCard u => t_answer ABytes (GetVCard u)
  | CDeleteVCard u => t_answer unit_of (DeleteVCard u)
  | CStoreOfflineMessage m => t_answer unit_of (StoreOfflineMessage now m)
  | CGetOfflineMessages u => t_answer AOffline (GetOfflineMessages u)
  | CDeleteOfflineMessages u => t_answer unit_of (DeleteOfflineMessages u)
  | CCountOfflineMessages u => t_answer ACount (CountOfflineMessages u)
  | CArchiveMessage m => t_answer unit_of (ArchiveMessage now m)
  | CQueryMessages q => t_answer AMAM (QueryMessages q)
  | CDeleteMessageArchive u => t_answer unit_of (DeleteMessageArchive u)
  | CCreateRoom r => t_answer unit_of (CreateRoom Error r)
  | CGetRoom r => t_answer ARoom (GetRoom r)
  | CUpdateRoom r => t_answer unit_of (UpdateRoom r)
  | CDeleteRoom r => t_answer unit_of (DeleteRoom r)
  | CListRooms => t_answer ARooms ListRooms
  | CSetAffiliation a => t_answer unit_of (SetAffiliation a)
  | CGetAffiliation r u => t_answer AAff (GetAffiliation r u)
  | CGetAffiliations r => t_answer AAffs (GetAffiliations r)
  | CRemoveAffiliation r u => t_answer unit_of (RemoveAffiliation r u)
  | CCreateNode n => t_answer unit_of (CreateNode Error n)
  | CGetNode h n => t_answer ANode (GetNode h n)
  | CDeleteNode h n => t_answer unit_of (DeleteNode h n)
  | CListNodes h => t_answer ANodes (ListNodes h)
  | CUpsertItem i => t_answer unit_of (UpsertItem now i)
  | CGetItem h n i => t_answer AItem (GetItem h n i)
  | CGetItems h n => t_answer AItems (GetItems h n)
  | CDeleteItem h n i => t_answer unit_of (DeleteItem h n i)
  | CSubscribe b => t_answer unit_of (Subscribe b)
  | CUnsubscribe h n j => t_answer unit_of (Unsubscribe h n j)
  | CGetSubscription h n j => t_answer ASub (GetSubscription h n j)
  | CGetSubscriptions h n => t_answer ASubs (GetSubscriptions h n)
  | CGetUserSubscriptions h j => t_answer ASubs (GetUserSubscriptions h j)
  | CSetBookmark b => t_answer unit_of (SetBookmark b)
  | CGetBookmark u r => t_answer ABookmark (GetBookmark u r)
  | CGetBookmarks u => t_answer ABookmarks (GetBookmarks u)
  | CDeleteBookmark u r => t_answer unit_of (DeleteBookmark u r)
  end.

(** ** The store as an instance of the store program *)

Definition by_position {A} (scan : list value → option A) (cols : list string) (r : row) : option A := scan (project cols r).

(** The columns of the SELECT of a call. *)
Definition read_cols (c : call) : list string :=
  match c with
  | CGetUser _ => ["username"; "password"; "salt"; "iterations"; "server_key"; "stored_key"; "created_at"; "updated_at"]
  | CAuthenticate _ _ => ["password"]
  | CGetRosterItem _ _ | CGetRosterItems _ => ["user_jid"; "contact_jid"; "name"; "subscription"; "ask"; "groups_list"]
  | CGetRosterVersion _ => ["version"]
  | CGetBlockedJIDs _ => ["blocked_jid"]
  | CGetVCard _ => ["data"]
  | CGetOfflineMessages _ => ["id"; "user_jid"; "from_jid"; "data"; "created_at"]
  | CQueryMessages _ => ["id"; "user_jid"; "with_jid"; "from_jid"; "data"; "created_at"]
  | CGetRoom _ | CListRooms => ["room_jid"; "name"; "description"; "subject"; "password"; "is_public"; "is_persistent"; "max_users"]
  | CGetAffiliation _ _ | CGetAffiliations _ => ["room_jid"; "user_jid"; "affiliation"; "reason"]
  | CGetNode _ _ | CListNodes _ => ["host"; "node_id"; "name"; "type"; "creator"]
  | CGetItem _ _ _ | CGetItems _ _ => ["host"; "node_id"; "item_id"; "publisher"; "payload"; "created_at"]
  | CGetSubscription _ _ _ | CGetSubscriptions _ _ | CGetUserSubscriptions _ _ => ["host"; "node_id"; "jid"; "sub_id"; "state"]
  | CGetBookmark _ _ | CGetBookmarks _ => ["user_jid"; "room_jid"; "name"; "nick"; "password"; "autojoin"]
  | _ => []
  end%string.
Definition sql_variant (Error : result → string) : variant :=
  mkVariant false false (λ y, isUniqueViolation (Error y)) ("groups_list", λ g, VText (Join g (String newline "")))
    (by_position scan_user ["username"; "password"; "salt"; "iterations"; "server_key"; "stored_key"; "created_at"; "updated_at"])
    (by_position scan_text ["password"])
    (by_position scanRosterItem ["user_jid"; "contact_jid"; "name"; "subscription"; "ask"; "groups_list"])
    (by_position scan_text ["version"]) (by_position scan_text ["blocked_jid"]) (by_position scan_blob ["data"])
    (by_position scan_offline ["id"; "user_jid"; "from_jid"; "data"; "created_at"])
    (by_position scan_archived ["id"; "user_jid"; "with_jid"; "from_jid"; "data"; "created_at"])
    (by_position scan_room ["room_jid"; "name"; "description"; "subject"; "password"; "is_public"; "is_persistent"; "max_users"])
    (by_position scan_aff ["room_jid"; "user_jid"; "affiliation"; "reason"])
    (by_position scan_node ["host"; "node_id"; "name"; "type"; "creator"])
    (by_position scan_item ["host"; "node_id"; "item_id"; "publisher"; "payload"; "created_at"])
    (by_position scan_sub ["host"; "node_id"; "jid"; "sub_id"; "state"])
    (by_position scan_bookmark ["user_jid"; "room_jid"; "name"; "nick"; "password"; "autojoin"]) read_cols%string.

Lemma conditions_zip w : conditions w.*1 w.*2 = w.
Proof. induction w as [|[[c op] v] w IH]; [done|]. cbn in *. by rewrite IH. Qed.

Lemma sql_exec_is_store_call {D} `{Tables D} Error now c : exec (D := D) Error now c = store_call (sql_variant Error) now c.
Proof.
  destruct c; try reflexivity. cbn [exec store_call op_of]. unfold QueryMessages, Query. cbn [bind columns].
  by rewrite conditions_zip.
Qed.

(** *** The groups of a roster item *)

(** Names without line breaks; the list of one empty name is stored like no groups. *)
Definition groups_ok (g : list string) : Prop := Forall (λ s, has_byte newline s = false) g ∧ g ≠ [""%string].

Lemma groups_roundtrip g : groups_ok g →
  (if bool_decide (Join g (String newline "") ≠ ""%string) then Split (Join g (String newline "")) newline else []) = g.
Proof.
  intros [Hf Hg]. destruct g as [|s g]; [done|]. case_bool_decide as E; [by apply Split_Join|]. exfalso.
  destruct g as [|s' g]; cbn in E; [subst; by apply Hg|]. by destruct s.
Qed.

(** *** Error messages *)

Lemma contains_infix a s b : contains (a +:+ s +:+ b) s = true.
Proof.
  unfold contains, searchString, len. rewrite !length_str_app. apply andb_true_iff. split; [apply Z.leb_le; lia|].
  apply existsb_exists. exists (String.length a). split.
  - apply in_seq. lia.
  - by rewrite str_drop_app, str_take_app, String.eqb_refl.
Qed.

(** The words the three engines report a taken key with. *)
Definition duplicate_words (d : dialect) : string :=
  match d with
  | SQLite => "UNIQUE constraint failed"
  | Postgres => "duplicate key"
  | MySQL => "Duplicate entry"
  end.
Lemma duplicate_reported d a b : isUniqueViolation (a +:+ duplicate_words d +:+ b) = true.
Proof. unfold isUniqueViolation. destruct d; cbn [duplicate_words]; rewrite contains_infix; by rewrite ?orb_true_r. Qed.
