(* ===== verification/SqlSchema.v ===== *)
(** * The schema of the SQL store

    The migrations of the three dialects as data with the text they are sent as,
    the keys and columns they create, the typing of operations against them, and
    [Migrate] (src/storage/sql/migrate.go) over a database that may fail. *)

From Stdlib Require Import Ascii String ZArith.
From S2P Require Import Prelude GoStrings Bytes Storage Tables TableStore SqlStorage.

Open Scope list_scope.
Open Scope go_scope.

(** ** Data definitions *)

(** A column with its type and constraints. *)
Record column := Col { col_name : string; col_type : string; col_rest : string }.
Inductive ddl :=
  | Table (name : string) (cols : list column) (key : list string) (indexes : list (string * list string))
  | Index (name table : string) (cols : list string).
(** The statements of one migration. *)
Notation migration := (list ddl).

Definition sep : string := "," +:+ String newline (String "009" (String "009" "")).
Definition column_text (c : column) : string :=
  (col_name c +:+ " " +:+ col_type c +:+ (if bool_decide (col_rest c = "") then "" else " " +:+ col_rest c))%string.
Definition ddl_text (x : ddl) : string :=
  match x with
  | Table name cols key indexes =>
      "CREATE TABLE IF NOT EXISTS " +:+ name +:+ " (" +:+ str_drop 1 sep +:+
      Join ((column_text <$> cols) ++
            (match key with [] => [] | _ => ["PRIMARY KEY (" +:+ Join key ", " +:+ ")"] end) ++
            ((λ i, "INDEX " +:+ i.1 +:+ " (" +:+ Join i.2 ", " +:+ ")") <$> indexes)) sep +:+
      String newline (String "009" ")")
  | Index name table cols => "CREATE INDEX IF NOT EXISTS " +:+ name +:+ " ON " +:+ table +:+ "(" +:+ Join cols ", " +:+ ")"
  end%string.
Definition migration_text (m : migration) : string := Join (ddl_text <$> m) (";" +:+ String newline (String "009" ""))%string.

Definition sqliteMigrations : list migration := [
  [ Table "users"
        [Col "username" "TEXT" "PRIMARY KEY";
         Col "password" "TEXT" "NOT NULL DEFAULT ''";
         Col "salt" "TEXT" "NOT NULL DEFAULT ''";
         Col "iterations" "INTEGER" "NOT NULL DEFAULT 0";
         Col "server_key" "TEXT" "NOT NULL DEFAULT ''";
         Col "stored_key" "TEXT" "NOT NULL DEFAULT ''";
         Col "created_at" "DATETIME" "NOT NULL DEFAULT (datetime('now'))";
         Col "updated_at" "DATETIME" "NOT NULL DEFAULT (datetime('now'))"]
        [] [] ];
  [ Table "roster_items"
        [Col "user_jid" "TEXT" "NOT NULL";
         Col "contact_jid" "TEXT" "NOT NULL";
         Col "name" "TEXT" "NOT NULL DEFAULT ''";
         Col "subscription" "TEXT" "NOT NULL DEFAULT 'none'";
         Col "ask" "TEXT" "NOT NULL DEFAULT ''";
         Col "groups_list" "TEXT" "NOT NULL DEFAULT ''"]
        ["user_jid"; "contact_jid"] [];
    Table "roster_versions"
        [Col "user_jid" "TEXT" "PRIMARY KEY";
         Col "version" "TEXT" "NOT NULL DEFAULT ''"]
        [] [] ];
  [ Table "blocked_jids"
        [Col "user_jid" "TEXT" "NOT NULL";
         Col "blocked_jid" "TEXT" "NOT NULL"]
        ["user_jid"; "blocked_jid"] [] ];
  [ Table "vcards"
        [Col "user_jid" "TEXT" "PRIMARY KEY";
         Col "data" "BLOB" "NOT NULL"]
        [] [] ];
  [ Table "offline_messages"
        [Col "id" "TEXT" "NOT NULL";
         Col "user_jid" "TEXT" "NOT NULL";
         Col "from_jid" "TEXT" "NOT NULL DEFAULT ''";
         Col "data" "BLOB" "NOT NULL";
         Col "created_at" "DATETIME" "NOT NULL DEFAULT (datetime('now'))"]
        [] [];
    Index "idx_offline_messages_user" "offline_messages" ["user_jid"] ];
  [ Table "mam_messages"
        [Col "id" "TEXT" "NOT NULL";
         Col "user_jid" "TEXT" "NOT NULL";
         Col "with_jid" "TEXT" "NOT NULL DEFAULT ''";
         Col "from_jid" "TEXT" "NOT NULL DEFAULT ''";
         Col "data" "BLOB" "NOT NULL";
         Col "created_at" "DATETIME" "NOT NULL DEFAULT (datetime('now'))"]
        [] [];
    Index "idx_mam_messages_user" "mam_messages" ["user_jid"];
    Index "idx_mam_messages_user_with" "mam_messages" ["user_jid"; "with_jid"] ];
  [ Table "muc_rooms"
        [Col "room_jid" "TEXT" "PRIMARY KEY";
         Col "name" "TEXT" "NOT NULL DEFAULT ''";
         Col "description" "TEXT" "NOT NULL DEFAULT ''";
         Col "subject" "TEXT" "NOT NULL DEFAULT ''";
         Col "password" "TEXT" "NOT NULL DEFAULT ''";
         Col "is_public" "INTEGER" "NOT NULL DEFAULT 1";
         Col "is_persistent" "INTEGER" "NOT NULL DEFAULT 0";
         Col "max_users" "INTEGER" "NOT NULL DEFAULT 0"]
        [] [];
    Table "muc_affiliations"
        [Col "room_jid" "TEXT" "NOT NULL";
         Col "user_jid" "TEXT" "NOT NULL";
         Col "affiliation" "TEXT" "NOT NULL DEFAULT 'none'";
         Col "reason" "TEXT" "NOT NULL DEFAULT ''"]
        ["room_jid"; "user_jid"] [] ];
  [ Table "pubsub_nodes"
        [Col "host" "TEXT" "NOT NULL";
         Col "node_id" "TEXT" "NOT NULL";
         Col "name" "TEXT" "NOT NULL DEFAULT ''";
         Col "type" "TEXT" "NOT NULL DEFAULT 'leaf'";
         Col "creator" "TEXT" "NOT NULL DEFAULT ''"]
        ["host"; "node_id"] [];
    Table "pubsub_items"
        [Col "host" "TEXT" "NOT NULL";
         Col "node_id" "TEXT" "NOT NULL";
         Col "item_id" "TEXT" "NOT NULL";
         Col "publisher" "TEXT" "NOT NULL DEFAULT ''";
         Col "payload" "BLOB" "";
         Col "created_at" "DATETIME" "NOT NULL DEFAULT (datetime('now'))"]
        ["host"; "node_id"; "item_id"] [];
    Table "pubsub_subscriptions"
        [Col "host" "TEXT" "NOT NULL";
         Col "node_id" "TEXT" "NOT NULL";
         Col "jid" "TEXT" "NOT NULL";
         Col "sub_id" "TEXT" "NOT NULL DEFAULT ''";
         Col "state" "TEXT" "NOT NULL DEFAULT 'subscribed'"]
        ["host"; "node_id"; "jid"] [] ];
  [ Table "bookmarks"
        [Col "user_jid" "TEXT" "NOT NULL";
         Col "room_jid" "TEXT" "NOT NULL";
         Col "name" "TEXT" "NOT NULL DEFAULT ''";
         Col "nick" "TEXT" "NOT NULL DEFAULT ''";
         Col "password" "TEXT" "NOT NULL DEFAULT ''";
         Col "autojoin" "INTEGER" "NOT NULL DEFAULT 0"]
        ["user_jid"; "room_jid"] [] ]
]%string.

Definition postgresMigrations : list migration := [
  [ Table "users"
        [Col "username" "TEXT" "PRIMARY KEY";
         Col "password" "TEXT" "NOT NULL DEFAULT ''";
         Col "salt" "TEXT" "NOT NULL DEFAULT ''";
         Col "iterations" "INTEGER" "NOT NULL DEFAULT 0";
         Col "server_key" "TEXT" "NOT NULL DEFAULT ''";
         Col "stored_key" "TEXT" "NOT NULL DEFAULT ''";
         Col "created_at" "TIMESTAMPTZ" "NOT NULL DEFAULT NOW()";
         Col "updated_at" "TIMESTAMPTZ" "NOT NULL DEFAULT NOW()"]
        [] [] ];
  [ Table "roster_items"
        [Col "user_jid" "TEXT" "NOT NULL";
         Col "contact_jid" "TEXT" "NOT NULL";
         Col "name" "TEXT" "NOT NULL DEFAULT ''";
         Col "subscription" "TEXT" "NOT NULL DEFAULT 'none'";
         Col "ask" "TEXT" "NOT NULL DEFAULT ''";
         Col "groups_list" "TEXT" "NOT NULL DEFAULT ''"]
        ["user_jid"; "contact_jid"] [];
    Table "roster_versions"
        [Col "user_jid" "TEXT" "PRIMARY KEY";
         Col "version" "TEXT" "NOT NULL DEFAULT ''"]
        [] [] ];
  [ Table "blocked_jids"
        [Col "user_jid" "TEXT" "NOT NULL";
         Col "blocked_jid" "TEXT" "NOT NULL"]
        ["user_jid"; "blocked_jid"] [] ];
  [ Table "vcards"
        [Col "user_jid" "TEXT" "PRIMARY KEY";
         Col "data" "BYTEA" "NOT NULL"]
        [] [] ];
  [ Table "offline_messages"
        [Col "id" "TEXT" "NOT NULL";
         Col "user_jid" "TEXT" "NOT NULL";
         Col "from_jid" "TEXT" "NOT NULL DEFAULT ''";
         Col "data" "BYTEA" "NOT NULL";
         Col "created_at" "TIMESTAMPTZ" "NOT NULL DEFAULT NOW()"]
        [] [];
    Index "idx_offline_messages_user" "offline_messages" ["user_jid"] ];
  [ Table "mam_messages"
        [Col "id" "TEXT" "NOT NULL";
         Col "user_jid" "TEXT" "NOT NULL";
         Col "with_jid" "TEXT" "NOT NULL DEFAULT ''";
         Col "from_jid" "TEXT" "NOT NULL DEFAULT ''";
         Col "data" "BYTEA" "NOT NULL";
         Col "created_at" "TIMESTAMPTZ" "NOT NULL DEFAULT NOW()"]
        [] [];
    Index "idx_mam_messages_user" "mam_messages" ["user_jid"];
    Index "idx_mam_messages_user_with" "mam_messages" ["user_jid"; "with_jid"] ];
  [ Table "muc_rooms"
        [Col "room_jid" "TEXT" "PRIMARY KEY";
         Col "name" "TEXT" "NOT NULL DEFAULT ''";
         Col "description" "TEXT" "NOT NULL DEFAULT ''";
         Col "subject" "TEXT" "NOT NULL DEFAULT ''";
         Col "password" "TEXT" "NOT NULL DEFAULT ''";
         Col "is_public" "BOOLEAN" "NOT NULL DEFAULT TRUE";
         Col "is_persistent" "BOOLEAN" "NOT NULL DEFAULT FALSE";
         Col "max_users" "INTEGER" "NOT NULL DEFAULT 0"]
        [] [];
    Table "muc_affiliations"
        [Col "room_jid" "TEXT" "NOT NULL";
         Col "user_jid" "TEXT" "NOT NULL";
         Col "affiliation" "TEXT" "NOT NULL DEFAULT 'none'";
         Col "reason" "TEXT" "NOT NULL DEFAULT ''"]
        ["room_jid"; "user_jid"] [] ];
  [ Table "pubsub_nodes"
        [Col "host" "TEXT" "NOT NULL";
         Col "node_id" "TEXT" "NOT NULL";
         Col "name" "TEXT" "NOT NULL DEFAULT ''";
         Col "type" "TEXT" "NOT NULL DEFAULT 'leaf'";
         Col "creator" "TEXT" "NOT NULL DEFAULT ''"]
        ["host"; "node_id"] [];
    Table "pubsub_items"
        [Col "host" "TEXT" "NOT NULL";
         Col "node_id" "TEXT" "NOT NULL";
         Col "item_id" "TEXT" "NOT NULL";
         Col "publisher" "TEXT" "NOT NULL DEFAULT ''";
         Col "payload" "BYTEA" "";
         Col "created_at" "TIMESTAMPTZ" "NOT NULL DEFAULT NOW()"]
        ["host"; "node_id"; "item_id"] [];
    Table "pubsub_subscriptions"
        [Col "host" "TEXT" "NOT NULL";
         Col "node_id" "TEXT" "NOT NULL";
         Col "jid" "TEXT" "NOT NULL";
         Col "sub_id" "TEXT" "NOT NULL DEFAULT ''";
         Col "state" "TEXT" "NOT NULL DEFAULT 'subscribed'"]
        ["host"; "node_id"; "jid"] [] ];
  [ Table "bookmarks"
        [Col "user_jid" "TEXT" "NOT NULL";
         Col "room_jid" "TEXT" "NOT NULL";
         Col "name" "TEXT" "NOT NULL DEFAULT ''";
         Col "nick" "TEXT" "NOT NULL DEFAULT ''";
         Col "password" "TEXT" "NOT NULL DEFAULT ''";
         Col "autojoin" "BOOLEAN" "NOT NULL DEFAULT FALSE"]
        ["user_jid"; "room_jid"] [] ]
]%string.

Definition mysqlMigrations : list migration := [
  [ Table "users"
        [Col "username" "VARCHAR(512)" "PRIMARY KEY";
         Col "password" "TEXT" "NOT NULL";
         Col "salt" "TEXT" "NOT NULL";
         Col "iterations" "INT" "NOT NULL DEFAULT 0";
         Col "server_key" "TEXT" "NOT NULL";
         Col "stored_key" "TEXT" "NOT NULL";
         Col "created_at" "DATETIME(6)" "NOT NULL DEFAULT NOW(6)";
         Col "updated_at" "DATETIME(6)" "NOT NULL DEFAULT NOW(6)"]
        [] [] ];
  [ Table "roster_items"
        [Col "user_jid" "VARCHAR(512)" "NOT NULL";
         Col "contact_jid" "VARCHAR(512)" "NOT NULL";
         Col "name" "TEXT" "NOT NULL";
         Col "subscription" "VARCHAR(32)" "NOT NULL DEFAULT 'none'";
         Col "ask" "VARCHAR(32)" "NOT NULL DEFAULT ''";
         Col "groups_list" "TEXT" "NOT NULL"]
        ["user_jid"; "contact_jid"] [] ];
  [ Table "roster_versions"
        [Col "user_jid" "VARCHAR(512)" "PRIMARY KEY";
         Col "version" "TEXT" "NOT NULL"]
        [] [] ];
  [ Table "blocked_jids"
        [Col "user_jid" "VARCHAR(512)" "NOT NULL";
         Col "blocked_jid" "VARCHAR(512)" "NOT NULL"]
        ["user_jid"; "blocked_jid"] [] ];
  [ Table "vcards"
        [Col "user_jid" "VARCHAR(512)" "PRIMARY KEY";
         Col "data" "LONGBLOB" "NOT NULL"]
        [] [] ];
  [ Table "offline_messages"
        [Col "id" "VARCHAR(512)" "NOT NULL";
         Col "user_jid" "VARCHAR(512)" "NOT NULL";
         Col "from_jid" "VARCHAR(512)" "NOT NULL DEFAULT ''";
         Col "data" "LONGBLOB" "NOT NULL";
         Col "created_at" "DATETIME(6)" "NOT NULL DEFAULT NOW(6)"]
        [] [("idx_offline_messages_user", ["user_jid"])] ];
  [ Table "mam_messages"
        [Col "id" "VARCHAR(512)" "NOT NULL";
         Col "user_jid" "VARCHAR(512)" "NOT NULL";
         Col "with_jid" "VARCHAR(512)" "NOT NULL DEFAULT ''";
         Col "from_jid" "VARCHAR(512)" "NOT NULL DEFAULT ''";
         Col "data" "LONGBLOB" "NOT NULL";
         Col "created_at" "DATETIME(6)" "NOT NULL DEFAULT NOW(6)"]
        [] [("idx_mam_messages_user", ["user_jid"]); ("idx_mam_messages_user_with", ["user_jid"; "with_jid"])] ];
  [ Table "muc_rooms"
        [Col "room_jid" "VARCHAR(512)" "PRIMARY KEY";
         Col "name" "TEXT" "NOT NULL";
         Col "description" "TEXT" "NOT NULL";
         Col "subject" "TEXT" "NOT NULL";
         Col "password" "TEXT" "NOT NULL";
         Col "is_public" "BOOLEAN" "NOT NULL DEFAULT TRUE";
         Col "is_persistent" "BOOLEAN" "NOT NULL DEFAULT FALSE";
         Col "max_users" "INT" "NOT NULL DEFAULT 0"]
        [] [] ];
  [ Table "muc_affiliations"
        [Col "room_jid" "VARCHAR(512)" "NOT NULL";
         Col "user_jid" "VARCHAR(512)" "NOT NULL";
         Col "affiliation" "VARCHAR(32)" "NOT NULL DEFAULT 'none'";
         Col "reason" "TEXT" "NOT NULL"]
        ["room_jid"; "user_jid"] [] ];
  [ Table "pubsub_nodes"
        [Col "host" "VARCHAR(512)" "NOT NULL";
         Col "node_id" "VARCHAR(512)" "NOT NULL";
         Col "name" "TEXT" "NOT NULL";
         Col "type" "VARCHAR(32)" "NOT NULL DEFAULT 'leaf'";
         Col "creator" "VARCHAR(512)" "NOT NULL DEFAULT ''"]
        ["host"; "node_id"] [] ];
  [ Table "pubsub_items"
        [Col "host" "VARCHAR(512)" "NOT NULL";
         Col "node_id" "VARCHAR(512)" "NOT NULL";
         Col "item_id" "VARCHAR(512)" "NOT NULL";
         Col "publisher" "VARCHAR(512)" "NOT NULL DEFAULT ''";
         Col "payload" "LONGBLOB" "";
         Col "created_at" "DATETIME(6)" "NOT NULL DEFAULT NOW(6)"]
        ["host"; "node_id"; "item_id"] [] ];
  [ Table "pubsub_subscriptions"
        [Col "host" "VARCHAR(512)" "NOT NULL";
         Col "node_id" "VARCHAR(512)" "NOT NULL";
         Col "jid" "VARCHAR(512)" "NOT NULL";
         Col "sub_id" "VARCHAR(512)" "NOT NULL DEFAULT ''";
         Col "state" "VARCHAR(32)" "NOT NULL DEFAULT 'subscribed'"]
        ["host"; "node_id"; "jid"] [] ];
  [ Table "bookmarks"
        [Col "user_jid" "VARCHAR(512)" "NOT NULL";
         Col "room_jid" "VARCHAR(512)" "NOT NULL";
         Col "name" "TEXT" "NOT NULL";
         Col "nick" "TEXT" "NOT NULL";
         Col "password" "TEXT" "NOT NULL";
         Col "autojoin" "BOOLEAN" "NOT NULL DEFAULT FALSE"]
        ["user_jid"; "room_jid"] [] ]
]%string.

Definition Migrations (d : dialect) : list migration :=
  match d with SQLite => sqliteMigrations | Postgres => postgresMigrations | MySQL => mysqlMigrations end.

(** ** The tables they create *)

Record table := mkTable { t_name : string; t_cols : list column; t_key : list string }.
Definition inline_key (cols : list column) : list string :=
  col_name <$> List.filter (λ c, String.eqb (col_rest c) "PRIMARY KEY") cols.
Definition created (x : ddl) : list table :=
  match x with
  | Table name cols key _ => [mkTable name cols (match key with [] => inline_key cols | _ => key end)]
  | Index _ _ _ => []
  end.
Definition schema (d : dialect) : list table := concat (created <$> concat (Migrations d)).
Definition find_table (s : list table) (t : string) : option table := List.find (λ x, String.eqb (t_name x) t) s.
(** The primary keys. *)
Definition key_of (d : dialect) (t : string) : option (list string) :=
  match find_table (schema d) t with
  | Some x => match t_key x with [] => None | k => Some k end
  | None => None
  end.

(** ** Typing of operations *)

(** Which values a column takes; SQLite keeps booleans as integers. *)
Definition column_takes (ty : string) (v : value) : bool :=
  match v with
  | VText _ => existsb (String.eqb ty) ["TEXT"; "VARCHAR(512)"; "VARCHAR(32)"]
  | VInt _ => existsb (String.eqb ty) ["INTEGER"; "INT"]
  | VBool _ => existsb (String.eqb ty) ["BOOLEAN"; "INTEGER"]
  | VBlob _ => existsb (String.eqb ty) ["BLOB"; "BYTEA"; "LONGBLOB"]
  | VTime _ => existsb (String.eqb ty) ["DATETIME"; "TIMESTAMPTZ"; "DATETIME(6)"]
  | VTexts _ | VNull => false
  end%string.
Definition value_typed (x : table) (c : string) (v : value) : bool :=
  match List.find (λ k, String.eqb (col_name k) c) (t_cols x) with Some k => column_takes (col_type k) v | None => false end.
Definition row_typed (x : table) (r : row) : bool := forallb (λ '(c, v), value_typed x c v) r.
(** Every column gets a value. *)
Definition complete (x : table) (r : row) : bool := forallb (λ k, existsb (String.eqb (col_name k)) r.*1) (t_cols x).
Definition condition_typed (x : table) (w : condition) : bool := forallb (λ '(c, _, v), value_typed x c v) w.

Definition op_typed (s : list table) (o : op) : bool :=
  match o with
  | OInsert t r => match find_table s t with Some x => row_typed x r && complete x r | None => false end
  | OUpsert t f u =>
      match find_table s t with
      | Some x => row_typed x (f ++ u) && complete x (f ++ u) && bool_decide (f.*1 = t_key x)
      | None => false
      end
  | OUpdate t w u _ => match find_table s t with Some x => condition_typed x w && row_typed x u | None => false end
  | ODelete t w _ | OCount t w => match find_table s t with Some x => condition_typed x w | None => false end
  | OFind cols t w order _ =>
      match find_table s t with
      | Some x => forallb (λ c, existsb (λ k, String.eqb (col_name k) c) (t_cols x)) cols && negb (bool_decide (cols = [])) &&
                  condition_typed x w && match order with Some c => value_typed x c (VTime 0) | None => true end
      | None => false
      end
  end.

(** A database that keeps the operations it was sent. *)
#[export] Instance logged (D : Type) `{Tables D} : Tables (list op * D) := λ o '(log, d),
  let '(d', y) := tdo o d in ((log ++ [o], d'), y).
