(* ===== verification/SqlRefinement.v ===== *)
(** * Properties of the SQL store

    [sql_store_refines], [statements_typed], [migrate_resumes] and what modelling
    the package showed. *)

From Stdlib Require Import Ascii String ZArith.
From stdpp Require Import pretty.
From S2P Require Import Prelude GoStrings Bytes Storage Tables TableStore SqlStorage SqlSchema.

Open Scope list_scope.
Open Scope go_scope.

(** ** Typing of what is sent *)

Section Sends.
Context {D : Type} `{Tables D} (P : op → Prop).

(** Whatever the database answers, only operations in [P] are sent. *)
Definition sends {A} (p : M (list op * D) table_error A) : Prop :=
  ∀ log d, Forall P log → Forall P (p (log, d)).1.1.

Lemma sends_do {A} o (f : result → res table_error A) : P o → sends (λ d, let '(d', y) := tdo o d in (d', f y)).
Proof.
  intros Ho log d Hl. unfold tdo at 1, logged. destruct (tdo o d) as [d' y]. cbn. apply Forall_app. by repeat constructor.
Qed.
Lemma sends_drop o : P o → sends (t_drop o).
Proof.
  intros Ho log d Hl. unfold t_drop, tdo at 1, logged. destruct (tdo o d) as [d' y]. cbn. apply Forall_app. by repeat constructor.
Qed.
Lemma sends_bind {A B} (p : M _ table_error A) (k : A → M _ table_error B) : sends p → (∀ a, sends (k a)) → sends (mbnd p k).
Proof.
  intros Hp Hk log d Hl. unfold mbnd. specialize (Hp log d Hl). destruct (p (log, d)) as [[log' d'] [a|e|]]; [by apply Hk|done|done].
Qed.
Lemma sends_ok {A} (a : A) : sends (mok a).
Proof. by intros log d. Qed.
Lemma sends_err {A} e : sends (A := A) (merr e).
Proof. by intros log d. Qed.
Lemma sends_lift {A} (x : res table_error A) : sends (mlift x).
Proof. by intros log d. Qed.
Lemma sends_answer {A} (f : A → answer) p log d : sends p → Forall P log → Forall P (t_answer f p (log, d)).1.1.
Proof. intros Hp Hl. specialize (Hp log d Hl). unfold t_answer. by destruct (p (log, d)). Qed.
End Sends.

Ltac sends := repeat first
  [ apply sends_bind; [|intros ?] | apply sends_ok | apply sends_err | apply sends_lift | apply sends_drop | apply sends_do | case_match ].

(** C15: what the SQL store sends is well typed in the schema of every dialect.
    Whatever the database answers, each operation of each call names a table that
    the migrations of SQLite, PostgreSQL and MySQL create, selects only columns of
    it, compares and sets only columns of it with values of their types, gives
    every column of a new row a value, and an insertion that may update has exactly the primary key as its
    conflict columns. *)
Theorem statements_typed (d : dialect) {D : Type} `{Tables D} Error now c (db : D) :
  Forall (λ o, op_typed (schema d) o = true) (exec Error now c ([], db)).1.1.
Proof.
  rewrite sql_exec_is_store_call.
  assert (Forall (λ o, op_typed (schema d) o = true) (op_of (sql_variant Error) now c :: cleanup c)) as [Ho Hc]%Forall_cons.
  { destruct c, d; repeat constructor. all: unfold op_of, mam_condition; repeat case_match; reflexivity. }
  destruct c; apply sends_answer; try (by constructor);
    unfold t_need, t_unit, t_exists, t_get, t_first, t_list, t_query, t_exec, t_create; sends; try done.
  all: cbn [cleanup] in Hc; by repeat (apply Forall_cons in Hc as [? Hc]).
Qed.

(** ** The store refines the contract *)

Section Refinement.
Context (d : dialect) `{Engine} {D : Type} `{!Tables D} {contents : D → tables} `{!TablesLaws D (key_of d) contents}.
(** A taken key is reported in the words of the engine, and an update counts the
    rows it finds (MySQL: a connection with [clientFoundRows]). *)
Context (Error : result → string) (Herror : ∃ a b, Error RDuplicate = (a +:+ duplicate_words d +:+ b)%string).
Context (Hcount : count_changed = false).

Lemma sql_variant_ok : variant_ok (unique := key_of d) (sql_variant Error) groups_ok.
Proof.
  split; try reflexivity; cbn.
  - destruct Herror as (a & b & ->). apply duplicate_reported.
  - by right.
  - by right.
  - by intros [].
  - intros [u c n s a g] Hg. unfold by_position. cbn. f_equal. f_equal. by apply groups_roundtrip.
  - by intros [].
  - by intros [].
  - by intros [].
  - by intros [].
  - by intros [].
  - by intros [].
  - by intros [].
  - by destruct d.
  - by destruct d.
  - by destruct d.
  - by destruct d.
  - by destruct d.
Qed.
(** The calls the engine can serve. *)
Definition good (nc : time * call) : Prop := call_ok (sql_variant Error) groups_ok nc.1 nc.2.

(** C11: what the SQL backend promises.  Over a database that behaves as
    documented, has the tables of the dialect, counts the rows an update finds
    (SQLite and PostgreSQL; MySQL only over a connection with clientFoundRows,
    which mysql.New does not open) and starts empty, every sequence of calls whose
    values the engine can hold and whose roster groups have no line breaks is
    answered as [table_spec] allows: the abstract machine with the precision of
    the engine's times, updates of a user that keep its creation time, messages in
    the order of their times, archives paged by comparing identifiers and nodes
    without their configuration.  A sequence on which these differences cannot be
    seen ([portable_run]) is answered as the abstract storage machine itself
    allows, the one the in-memory and the file backend refine. *)
Theorem sql_store_refines db calls :
  contents db = ∅ → Forall good calls →
  table_run spec_init calls (answers_of (exec Error) db calls) ∧
  ((∀ s, text_lt s s = false) → (∀ a b c, text_lt a b = true → text_lt b c = true → text_lt a c = true) →
   portable_run spec_init calls → spec_run spec_init calls (answers_of (exec Error) db calls)).
Proof.
  intros Hd Hc. assert (table_run spec_init calls (answers_of (exec Error) db calls)) as Ht.
  { apply (run_rep (sql_variant Error) groups_ok (exec Error) db calls); [apply sql_variant_ok| |done|done].
    intros. by rewrite sql_exec_is_store_call. }
  split; [done|]. intros Hi Htr Hp. by apply portable_answers.
Qed.

(** Paging through an archive whose identifiers grow with time.  After any run
    that leaves such an archive, a query that names no message or one of the archive
    is answered as the in-memory backend answers it: with the page that follows
    (or precedes) that message. *)
Theorem sql_archive_paging db calls now q l :
  (∀ s, text_lt s s = false) → (∀ a b c, text_lt a b = true → text_lt b c = true → text_lt a c = true) →
  contents db = ∅ → Forall good calls → good (now, CQueryMessages q) →
  default [] (sp_mam (table_final spec_init calls) !! q_UserJID q) = l → StronglySorted grows l → names_message q l →
  (exec Error now (CQueryMessages q) (final_of (exec Error) db calls)).2 = AMAM (mam_answer q l).
Proof.
  intros Hirr Htr Hd Hc Hq Hl Hs Hn.
  destruct (run_rep (sql_variant Error) groups_ok (exec Error) db calls) as [_ Hr];
    [apply sql_variant_ok|intros; by rewrite sql_exec_is_store_call|done|done|].
  pose proof (table_simulates (sql_variant Error) groups_ok sql_variant_ok now (CQueryMessages q) _ _ Hr Hq) as Hsim. revert Hsim.
  rewrite sql_exec_is_store_call. destruct (store_call _ _ _ _) as [d' x]. cbn [table_spec fst snd]. rewrite Hl.
  intros [(all & -> & Hso & Hp) _]. f_equal. by apply ordered_answer.
Qed.
End Refinement.

(** ** Migrations *)

(** [Migrate] over a database with a schema and a table of applied versions.
    [apply] runs the statements of a migration; a connection may fail at any stage;
    in an engine that commits data definitions at once (MySQL) a rollback does not
    undo them, and what follows in the transaction is committed as it is made. *)
Section Migrate.
Context {S : Type} (apply : migration → S → option S) (transactional : bool).

Record mstate := mkM { m_schema : S; m_versions : gset nat }.
Inductive stage := StTracking | StCheck (v : nat) | StBegin (v : nat) | StRun (v : nat) | StRecord (v : nat) | StCommit (v : nat).
(** Which stages succeed in a run. *)
Notation weather := (stage → bool).

(** [tx.Rollback]. *)
Definition rollback (before after : mstate) : mstate :=
  if transactional then before else mkM (m_schema after) (m_versions before).

Fixpoint migrate_loop (up : weather) (version : nat) (ms : list migration) (s : mstate) : mstate * res stage unit :=
  match ms with
  | [] => (s, Ok tt)
  | m :: ms' =>
      if negb (up (StCheck version)) then (s, Err (StCheck version))
      else if bool_decide (version ∈ m_versions s) then migrate_loop up (version + 1) ms' s
      else if negb (up (StBegin version)) then (s, Err (StBegin version))
      else if negb (up (StRun version)) then (s, Err (StRun version))
      else match apply m (m_schema s) with
           | None => (s, Err (StRun version))
           | Some sch =>
               let s' := mkM sch (m_versions s) in
               if negb (up (StRecord version)) then (rollback s s', Err (StRecord version))
               else
                 let recorded := mkM sch ({[version]} ∪ m_versions s) in
                 if negb (up (StCommit version)) then (if transactional then s else recorded, Err (StCommit version))
                 else migrate_loop up (version + 1) ms' recorded
           end
  end.
Definition Migrate (d : dialect) (up : weather) (s : mstate) : mstate * res stage unit :=
  if negb (up StTracking) then (s, Err StTracking) else migrate_loop up 1 (Migrations d) s.

(** *** Each migration once, in order *)

Fixpoint apply_all (ms : list migration) (s : S) : option S :=
  match ms with [] => Some s | m :: ms' => s' ← apply m s; apply_all ms' s' end.

Context (s0 : S) (d : dialect).

(** The first [k] migrations are recorded and applied; without transactions the
    next one may be applied too. *)
Definition applied (k : nat) (s : mstate) : Prop :=
  (∀ v, v ∈ m_versions s ↔ (1 ≤ v ≤ k)%nat) ∧
  (apply_all (take k (Migrations d)) s0 = Some (m_schema s) ∨
   transactional = false ∧ (k < length (Migrations d))%nat ∧ apply_all (take (k + 1) (Migrations d)) s0 = Some (m_schema s)).

Lemma apply_all_app l1 l2 s : apply_all (l1 ++ l2) s = apply_all l1 s ≫= apply_all l2.
Proof. revert s. induction l1 as [|m l1 IH]; intros s; [done|]. cbn. destruct (apply m s); [apply IH|done]. Qed.

Context (Hidem : transactional = false → ∀ m s s', apply m s = Some s' → apply m s' = Some s').

(** Running the next migration. *)
Lemma apply_next k m s sch : applied k s → Migrations d !! k = Some m → apply m (m_schema s) = Some sch →
  apply_all (take (k + 1) (Migrations d)) s0 = Some sch.
Proof.
  intros [_ Hs] Hm Ha. rewrite Nat.add_1_r, (take_S_r _ _ _ Hm), apply_all_app in *. destruct Hs as [->|(Ht & _ & Hs)]; cbn.
  - by rewrite Ha.
  - destruct (apply_all (take k _) s0) as [s1|]; [|done]. cbn in *. destruct (apply m s1) as [s2|] eqn:E; [|done]. cbn in *.
    pose proof (Hidem Ht _ _ _ E). congruence.
Qed.

Lemma migrate_loop_spec up ms k v s :
  applied k s → (1 ≤ v ≤ k + 1)%nat → (k ≤ length (Migrations d))%nat → ms = drop (v - 1) (Migrations d) →
  ∃ k', (k ≤ k' ≤ length (Migrations d))%nat ∧ applied k' (migrate_loop up v ms s).1 ∧
    ((migrate_loop up v ms s).2 = Ok tt → k' = length (Migrations d)).
Proof.
  revert k v s. induction ms as [|m ms IH]; intros k v s Hs Hv Hk Hms; cbn [migrate_loop].
  { exists k. split; [lia|]. split; [done|]. intros _. symmetry in Hms. apply (f_equal length) in Hms. rewrite length_drop in Hms. cbn in Hms. lia. }
  assert (Migrations d !! (v - 1)%nat = Some m) as Hm.
  { rewrite <- (Nat.add_0_r (v - 1)), <- lookup_drop, <- Hms. done. }
  assert (ms = drop (v + 1 - 1) (Migrations d)) as Hms'.
  { replace (v + 1 - 1)%nat with (v - 1 + 1)%nat by lia. by rewrite <- drop_drop, <- Hms. }
  assert (∃ k', (k ≤ k' ≤ length (Migrations d))%nat ∧ applied k' s ∧ (k' = k)) as Hstop by (exists k; auto with lia).
  destruct (up (StCheck v)); [|naive_solver]. cbn [negb]. destruct Hs as [Hver Hsch] eqn:EHs. clear EHs.
  destruct (decide (v ≤ k)%nat) as [Hle|Hle].
  { rewrite bool_decide_true by (apply Hver; lia). apply IH; [done|lia|done|done]. }
  rewrite bool_decide_false by (rewrite Hver; lia). replace v with (k + 1)%nat in * by lia. rewrite Nat.add_sub in *.
  apply lookup_lt_Some in Hm as Hlt.
  destruct (up (StBegin _)); [|naive_solver]. destruct (up (StRun _)); [|naive_solver]. cbn [negb].
  destruct (apply m (m_schema s)) as [sch|] eqn:Ea; [|naive_solver].
  pose proof (apply_next k m s sch (conj Hver Hsch) Hm Ea) as Hnext.
  assert (applied k (rollback s (mkM sch (m_versions s)))) as Hback.
  { unfold applied, rollback. split; [by destruct transactional|]. destruct transactional eqn:Et; cbn.
    - destruct Hsch as [?|[? _]]; [by left|congruence].
    - by right. }
  destruct (up (StRecord _)); [|exists k; naive_solver lia]. cbn [negb].
  assert (applied (k + 1) (mkM sch ({[(k + 1)%nat]} ∪ m_versions s))) as Hrec.
  { split; [|by left]. intros v'. cbn. rewrite elem_of_union, elem_of_singleton, Hver. lia. }
  destruct (up (StCommit _)); cbn [negb].
  - destruct (IH (k + 1)%nat (k + 1 + 1)%nat (mkM sch ({[(k + 1)%nat]} ∪ m_versions s))) as (k' & Hk' & Ha' & Hok);
      [done|lia|lia|by rewrite Nat.add_sub|exists k'; auto with lia].
  - destruct transactional eqn:Et; cbn [fst snd].
    + exists k. split; [lia|]. split; [split; [done|]; destruct Hsch as [?|[? _]]; [by left|congruence]|done].
    + exists (k + 1)%nat. split; [lia|]. split; [done|done].
Qed.

Lemma Migrate_spec up k s : applied k s → (k ≤ length (Migrations d))%nat →
  ∃ k', (k ≤ k' ≤ length (Migrations d))%nat ∧ applied k' (Migrate d up s).1 ∧
    ((Migrate d up s).2 = Ok tt → k' = length (Migrations d)).
Proof.
  intros Hs Hk. unfold Migrate. destruct (up StTracking); cbn [negb]; [|by exists k].
  apply migrate_loop_spec; [done|lia|done|done].
Qed.

Lemma applied_runs runs k s : applied k s → (k ≤ length (Migrations d))%nat →
  ∃ k', applied k' (foldl (λ s w, (Migrate d w s).1) s runs) ∧ (k' ≤ length (Migrations d))%nat.
Proof.
  revert k s. induction runs as [|w runs IH]; intros k s Hs Hk; [by exists k|].
  destruct (Migrate_spec w k s Hs Hk) as (k' & Hk' & Ha & _). apply (IH k'); [done|lia].
Qed.

(** A run in which nothing fails. *)
Lemma migrate_loop_completes up ms k v s sfin :
  (∀ st, up st = true) → apply_all (Migrations d) s0 = Some sfin → applied k s → (1 ≤ v ≤ k + 1)%nat → (k ≤ length (Migrations d))%nat →
  ms = drop (v - 1) (Migrations d) → (migrate_loop up v ms s).2 = Ok tt.
Proof.
  intros Hup Hfin. revert k v s. induction ms as [|m ms IH]; intros k v s Hs Hv Hk Hms; cbn [migrate_loop]; [done|]. rewrite !Hup. cbn [negb].
  assert (Migrations d !! (v - 1)%nat = Some m) as Hm.
  { rewrite <- (Nat.add_0_r (v - 1)), <- lookup_drop, <- Hms. done. }
  assert (ms = drop (v + 1 - 1) (Migrations d)) as Hms'.
  { replace (v + 1 - 1)%nat with (v - 1 + 1)%nat by lia. by rewrite <- drop_drop, <- Hms. }
  pose proof Hs as [Hver Hsch]. destruct (decide (v ≤ k)%nat) as [Hle|Hle].
  { rewrite bool_decide_true by (apply Hver; lia). apply (IH k); [done|lia|done|done]. }
  rewrite bool_decide_false by (rewrite Hver; lia). replace v with (k + 1)%nat in * by lia. rewrite Nat.add_sub in *.
  apply lookup_lt_Some in Hm as Hlt.
  assert (is_Some (apply m (m_schema s))) as [sch Ea].
  { rewrite <- (take_drop (k + 1) (Migrations d)), apply_all_app in Hfin. rewrite Nat.add_1_r, (take_S_r _ _ _ Hm), apply_all_app in *.
    destruct Hsch as [E|(Ht & _ & E)].
    - rewrite E in Hfin. cbn in Hfin. by destruct (apply m (m_schema s)).
    - destruct (apply_all (take k _) s0) as [s1|]; [|done]. cbn in *. destruct (apply m s1) as [s2|] eqn:E2; [|done]. cbn in *.
      pose proof (Hidem Ht _ _ _ E2). simplify_eq. eauto. }
  rewrite Ea. apply (IH (k + 1)%nat); [|lia|lia|by rewrite Nat.add_sub]. split.
  - intros v'. cbn. rewrite elem_of_union, elem_of_singleton, Hver. lia.
  - left. by apply (apply_next k m s sch).
Qed.

Lemma Migrate_completes up k s sfin :
  apply_all (Migrations d) s0 = Some sfin → (∀ st, up st = true) → applied k s → (k ≤ length (Migrations d))%nat →
  Migrate d up s = (mkM sfin (set_seq 1 (length (Migrations d))), Ok tt).
Proof.
  intros Hfin Hup Hs Hk. destruct (Migrate_spec up k s Hs Hk) as (k' & Hk' & Ha & Hok).
  assert ((Migrate d up s).2 = Ok tt) as E.
  { unfold Migrate. rewrite Hup. cbn [negb]. eapply migrate_loop_completes; [done..|lia|done|done]. }
  specialize (Hok E) as ->. destruct (Migrate d up s) as [[sch vs] x]. cbn in *. subst x. destruct Ha as [Hver Hsch]. cbn in *.
  destruct Hsch as [Hsch|(_ & Hlt & _)]; [|lia]. rewrite firstn_all, Hfin in Hsch. simplify_eq. f_equal. f_equal.
  apply set_eq. intros v. rewrite Hver, elem_of_set_seq. lia.
Qed.

Lemma applied_none : applied 0 (mkM s0 ∅).
Proof. split; [|by left]. intros v. cbn. rewrite elem_of_empty. lia. Qed.

(** C16: migrations are applied once, in order, however often they are interrupted.
    After any number of runs that failed at any stage, a run in which nothing fails
    ends with every version recorded and the schema that applying all migrations
    once to the initial one gives; a further run changes nothing.  Without
    transactional data definitions (MySQL) this needs that a migration applied twice
    is the same as applied once, which [IF NOT EXISTS] gives. *)
Theorem migrate_resumes runs up sfin :
  apply_all (Migrations d) s0 = Some sfin → (∀ st, up st = true) →
  let s := foldl (λ s w, (Migrate d w s).1) (mkM s0 ∅) runs in
  let done_ := mkM sfin (set_seq 1 (length (Migrations d))) in
  Migrate d up s = (done_, Ok tt) ∧ Migrate d up done_ = (done_, Ok tt).
Proof.
  intros Hfin Hup. destruct (applied_runs runs 0 (mkM s0 ∅) applied_none) as (k & Hs & Hk); [lia|].
  split; [by apply (Migrate_completes up k)|]. apply (Migrate_completes up (length (Migrations d))); [done|done| |done].
  split; [|left; by rewrite firstn_all]. intros v. cbn. rewrite elem_of_set_seq. lia.
Qed.
End Migrate.

(** ** Runs, and what the package does not keep *)

Module SqlExample.

(** PostgreSQL keeps microseconds, SQLite the whole time; MySQL counts the rows an
    update changes. *)
Definition postgres : Engine := {| precise := λ t, (t / 1000 * 1000)%Z; text_lt := byte_lt; count_changed := false; storable := λ _, True |}.
Definition sqlite : Engine := {| precise := λ t, t; text_lt := byte_lt; count_changed := false; storable := λ _, True |}.
Definition mysql : Engine := {| precise := λ t, (t / 1000 * 1000)%Z; text_lt := byte_lt; count_changed := true; storable := λ _, True |}.

(** The answers of an engine to calls, from an empty database. *)
Definition run (e : Engine) (d : dialect) (Error : result → string) (calls : list (time * call)) : list answer :=
  answers_of (@exec tables (@memory_tables e (key_of d)) Error) ∅ calls.

Definition Error (y : result) : string :=
  match y with
  | RDuplicate => "ERROR: duplicate key value violates unique constraint (SQLSTATE 23505)"
  | _ => "failed to connect"
  end%string.
Lemma Error_words : ∃ a b, Error RDuplicate = (a +:+ duplicate_words Postgres +:+ b)%string.
Proof. by exists "ERROR: "%string, " value violates unique constraint (SQLSTATE 23505)"%string. Defined.

Definition alice := mkUser "alice" "secret" "" 0 "" "" 0 0.
Definition friend := mkRosterItem "alice@a" "bob@b" "Bob" "both" "" ["work"; "chess"]%string.
Definition msg (id : string) (t : time) : ArchivedMessage := mkArchived id "alice@a" "bob@b" "bob@b" [] t.
Definition all_of := mkQuery "alice@a" "" 0 0 "" "" 10.
Definition calls : list (time * call) :=
  [(1500, CCreateUser alice); (1600, CCreateUser alice); (1700, CGetUser "alice");
   (1800, CUpsertRosterItem friend); (1900, CGetRosterItems "alice@a");
   (2500, CArchiveMessage (msg "m1" 0)); (3500, CArchiveMessage (msg "m2" 0)); (4000, CQueryMessages all_of)]%Z%string.

Ltac good := repeat (apply Forall_cons; split); try done; (split; [repeat constructor|try done]); repeat constructor; try done.

(** Calls on which the differences to the abstract machine cannot be seen. *)
Definition plain_calls : list (time * call) :=
  [(1000, CCreateUser alice); (2000, CGetUser "alice"); (3000, CArchiveMessage (msg "m1" 0)); (4000, CArchiveMessage (msg "m2" 0));
   (5000, CQueryMessages (mkQuery "alice@a" "" 0 0 "m1" "" 10))]%Z%string.

Lemma sql_store_refines_witness :
  run postgres Postgres Error calls =
    [AUnit; AErr ErrUserExists; AUser (mkUser "alice" "secret" "" 0 "" "" 1000 1000); AUnit; ARosters [friend]; AUnit; AUnit;
     AMAM (mkMAMResult [msg "m1" 2000; msg "m2" 3000] true "m1" "m2" 2)]%string ∧
  table_run (H := postgres) spec_init calls (run postgres Postgres Error calls) ∧
  spec_run spec_init plain_calls (run postgres Postgres Error plain_calls).
Proof.
  split; [by vm_compute|].
  assert (∀ cs, Forall (good (H := postgres) Error) cs → _) as Hall
    by (intros cs; exact (sql_store_refines Postgres (H := postgres) (Tables0 := @memory_tables postgres (key_of Postgres))
           (TablesLaws0 := @memory_laws postgres (key_of Postgres)) Error Error_words eq_refl ∅ cs eq_refl)).
  split; [apply Hall; unfold calls; good|]. apply (proj2 (Hall plain_calls ltac:(unfold plain_calls; good))); [apply byte_lt_irrefl|apply byte_lt_trans|].
  split; [done|]. split; [done|]. split; [by split_and!; [|vm_compute|constructor]|]. split.
  - split_and!; [done|by vm_compute|]. apply Forall_singleton. by split; vm_compute.
  - split; [|done]. split; [by right|]. split; [right|by left]. vm_compute. by left.
Defined.

(** The second page of an archive whose identifiers grow. *)
Definition archived : list (time * call) :=
  [(2000, CArchiveMessage (msg "m1" 0)); (3000, CArchiveMessage (msg "m2" 0)); (4000, CArchiveMessage (msg "m3" 0))]%Z%string.
Definition after_m1 := mkQuery "alice@a" "" 0 0 "m1" "" 1.
Lemma sql_archive_paging_witness :
  (@exec _ (@memory_tables postgres (key_of Postgres)) Error 5000 (CQueryMessages after_m1)
     (final_of (@exec _ (@memory_tables postgres (key_of Postgres)) Error) ∅ archived)).2 =
  AMAM (mkMAMResult [msg "m2" 3000] false "m2" "m2" 1)%string.
Proof.
  rewrite (sql_archive_paging Postgres (H := postgres) (Tables0 := @memory_tables postgres (key_of Postgres))
             (TablesLaws0 := @memory_laws postgres (key_of Postgres)) Error Error_words eq_refl ∅ archived 5000 after_m1
             [msg "m1" 2000; msg "m2" 3000; msg "m3" 4000]%string byte_lt_irrefl byte_lt_trans).
  - by vm_compute.
  - done.
  - unfold archived. good.
  - split; [repeat constructor|done]. done.
  - by vm_compute.
  - repeat constructor.
  - split; [by right|]. split; [right; by left|by left].
Defined.

(** A run that fails to commit the third migration, and one that completes. *)
Definition add (m : migration) (s : list string) : option (list string) := Some (s ++ [migration_text m]).
Definition bad_commit (st : stage) : bool := match st with StCommit 3 => false | _ => true end.
Lemma migrate_resumes_witness :
  Migrate add true SQLite bad_commit (mkM [] ∅) = (mkM (migration_text <$> take 2 sqliteMigrations) {[2%nat; 1%nat]}, Err (StCommit 3)) ∧
  Migrate add true SQLite (λ _, true) (foldl (λ s w, (Migrate add true SQLite w s).1) (mkM [] ∅) [bad_commit]) =
    (mkM (migration_text <$> sqliteMigrations) (set_seq 1 (length (Migrations SQLite))), Ok tt).
Proof.
  split; [by vm_compute|].
  refine (proj1 (migrate_resumes add true [] SQLite (λ E, _) [bad_commit] (λ _, true) (migration_text <$> sqliteMigrations) _ _));
    [discriminate E|by vm_compute|done].
Defined.

(** Identifiers that do not grow with time: the client that asks for what follows
    the last message it got is told that there is nothing more. *)
Definition page (after : string) := mkQuery "alice@a" "" 0 0 after "" 1.
Lemma paging_skips_a_message :
  run sqlite SQLite Error [(1, CArchiveMessage (msg "b" 0)); (2, CArchiveMessage (msg "a" 0));
                           (3, CQueryMessages (page "")); (4, CQueryMessages (page "b"))]%Z%string =
  [AUnit; AUnit; AMAM (mkMAMResult [msg "b" 1] false "b" "b" 1); AMAM (mkMAMResult [] true "" "" 0)]%string.
Proof. by vm_compute. Qed.

(** MySQL counts changed rows: saving a room as it is reports that it is missing. *)
Definition room := mkRoom "r@c" "Room" "" "" "" true false 0.
Lemma unchanged_room_is_missing :
  run mysql MySQL Error [(1, CCreateRoom room); (2, CUpdateRoom room); (3, CGetRoom "r@c")]%Z%string =
  [AUnit; AErr ErrNotFound; ARoom room].
Proof. by vm_compute. Qed.

(** The configuration of a node is not stored. *)
Lemma node_config_is_lost :
  run sqlite SQLite Error [(1, CCreateNode (mkNode "h" "n" "" "leaf" (Some (<["max_items" := "10"]> ∅)) "alice@a")); (2, CGetNode "h" "n")]%Z%string =
  [AUnit; ANode (mkNode "h" "n" "" "leaf" None "alice@a")]%string.
Proof. by vm_compute. Qed.

(** A group name with a line break comes back as two groups. *)
Lemma groups_split :
  run sqlite SQLite Error [(1, CUpsertRosterItem (mkRosterItem "u" "c" "" "" "" ["a" +:+ String newline "b"])); (2, CGetRosterItem "u" "c")]%Z%string =
  [AUnit; ARoster (mkRosterItem "u" "c" "" "" "" ["a"; "b"])]%string.
Proof. by vm_compute. Qed.

(** The text of some statements. *)
Lemma text_of_statements :
  text Postgres (SInsert "users" ["username"; "password"]) = "INSERT INTO users (username, password) VALUES ($1, $2)"%string ∧
  text SQLite (SUpsert "roster_versions" ["user_jid"; "version"] ["user_jid"] ["version"]) =
    "INSERT INTO roster_versions (user_jid, version) VALUES (?, ?) ON CONFLICT (user_jid) DO UPDATE SET version = excluded.version"%string ∧
  text MySQL (SUpsert "blocked_jids" ["user_jid"; "blocked_jid"] ["user_jid"; "blocked_jid"] []) =
    "INSERT INTO blocked_jids (user_jid, blocked_jid) VALUES (?, ?) ON DUPLICATE KEY UPDATE user_jid = user_jid"%string ∧
  text Postgres (SUpdate "muc_rooms" ["name"; "subject"] ["room_jid"]) =
    "UPDATE muc_rooms SET name = $1, subject = $2 WHERE room_jid = $3"%string ∧
  text Postgres (SSelect "mam_messages" ["id"; "data"] [("user_jid", CEq); ("created_at", CGe); ("id", CGt)] (Some "created_at") (Some 101%Z)) =
    "SELECT id, data FROM mam_messages WHERE user_jid = $1 AND created_at >= $2 AND id > $3 ORDER BY created_at ASC LIMIT 101"%string.
Proof. repeat split; by vm_compute. Qed.

(** The primary keys of MySQL that are longer than the 3072 bytes an InnoDB index
    may have, at four bytes a character. *)
Definition key_bytes (x : table) : Z :=
  foldr (λ c n, (match List.find (λ k, String.eqb (col_name k) c) (t_cols x) with
                 | Some k => if String.eqb (col_type k) "VARCHAR(512)" then 4 * 512 + n else n
                 | None => n
                 end)%Z) 0%Z (t_key x).
Lemma mysql_keys_too_long :
  t_name <$> List.filter (λ x, (3072 <? key_bytes x)%Z) (schema MySQL) =
  ["roster_items"; "blocked_jids"; "muc_affiliations"; "pubsub_nodes"; "pubsub_items"; "pubsub_subscriptions"; "bookmarks"]%string.
Proof. by vm_compute. Qed.
End SqlExample.
