(* ===== verification/MongoStorage.v ===== *)
(** * The MongoDB store (src/storage/mongodb/mongodb.go)

    Every operation of the store as the calls of the driver it makes: the
    documents it inserts, the filters it finds, updates and deletes by.  The
    server is the class [Tables], with the indexes [Init] creates as its keys.
    Documents are read by their field names, and a field that is missing reads as
    the zero value.

    [mongo_store_refines]: the store refines the contract as a database keeps it,
    with times to the millisecond. *)

From Stdlib Require Import Ascii String ZArith.
From S2P Require Import Prelude GoStrings Bytes Storage Tables TableStore.

Open Scope list_scope.
Open Scope go_scope.

(** ** Indexes *)

Definition indexes : list (string * list string * bool) :=
  [("users", ["username"], true);
   ("roster_items", ["user_jid"; "contact_jid"], true);
   ("blocked_jids", ["user_jid"; "blocked_jid"], true);
   ("vcards", ["user_jid"], true);
   ("offline_messages", ["user_jid"], false);
   ("mam_messages", ["user_jid"], false);
   ("mam_messages", ["user_jid"; "with_jid"], false);
   ("muc_rooms", ["room_jid"], true);
   ("muc_affiliations", ["room_jid"; "user_jid"], true);
   ("pubsub_nodes", ["host"; "node_id"], true);
   ("pubsub_items", ["host"; "node_id"; "item_id"], true);
   ("pubsub_subscriptions", ["host"; "node_id"; "jid"], true);
   ("bookmarks", ["user_jid"; "room_jid"], true)]%string.

(** [Init] creates them in order and stops at the first that fails, naming its
    collection. *)
Section Init.
Context {S : Type} (CreateOne : string → list string → bool → S → S * bool).
Fixpoint create_indexes (l : list (string * list string * bool)) (s : S) : S * res string unit :=
  match l with
  | [] => (s, Ok tt)
  | (c, keys, unique) :: l' =>
      let '(s', ok) := CreateOne c keys unique s in
      if ok then create_indexes l' s' else (s', Err c)
  end.
Definition Init (s : S) : S * res string unit := create_indexes indexes s.
End Init.

(** The unique key of a collection. *)
Definition unique_index (l : list (string * list string * bool)) (c : string) : option (list string) :=
  match List.find (λ i, String.eqb i.1.1 c && i.2) l with Some i => Some i.1.2 | None => None end.
Definition keys (c : string) : option (list string) := unique_index indexes c.

(** ** Reading documents *)

Definition d_text (c : string) (r : row) : option string :=
  match field c r with VText s => Some s | VNull => Some ""%string | _ => None end.
Definition d_blob (c : string) (r : row) : option bytes :=
  match field c r with VBlob b => Some b | VNull => Some [] | _ => None end.
Definition d_int (c : string) (r : row) : option Z :=
  match field c r with VInt n => Some n | VNull => Some 0%Z | _ => None end.
Definition d_bool (c : string) (r : row) : option bool :=
  match field c r with VBool b => Some b | VNull => Some false | _ => None end.
Definition d_time (c : string) (r : row) : option time :=
  match field c r with VTime t => Some t | VNull => Some 0%Z | _ => None end.
Definition d_texts (c : string) (r : row) : option (list string) :=
  match field c r with VTexts l => Some l | VNull => Some [] | _ => None end.

(** ** The store *)

Section Store.
Context {D : Type} `{Tables D}.
Notation MM A := (M D table_error A).

(** *** The calls of the driver *)

Definition InsertOne (c : string) (doc : row) : op := OInsert c doc.
Definition IsDuplicateKeyError (y : result) : bool := match y with RDuplicate => true | _ => false end.
Definition FindOne {A} (c : string) (filter : row) (decode : row → option A) : MM (option A) :=
  t_first decode (OFind [] c (equals filter) None (Some 1%Z)).
Definition Find {A} (c : string) (filter : condition) (sort : option string) (limit : option Z) (decode : row → option A) : MM (list A) :=
  t_list decode (OFind [] c filter sort limit).
(** [UpdateOne] with [$set]. *)
Definition UpdateOne (c : string) (filter set : row) : op := OUpdate c (equals filter) set true.
Definition Upsert (c : string) (filter set : row) : MM unit := t_unit (t_exec (OUpsert c filter set)).
Definition DeleteOne (c : string) (filter : row) : op := ODelete c (equals filter) true.
Definition DeleteMany (c : string) (filter : row) : op := ODelete c (equals filter) false.
Definition CountDocuments (c : string) (filter : row) : MM Z := t_exec (OCount c (equals filter)).

Definition or_not_found {A} (p : MM (option A)) : MM A :=
  do x <- p; match x with Some a => mok a | None => merr (TStorage ErrNotFound) end.

(** *** UserStore *)

Definition userDoc (u : User) : row :=
  [("username", VText (Username u)); ("password", VText (Password u)); ("salt", VText (Salt u));
   ("iterations", VInt (Iterations u)); ("server_key", VText (ServerKey u)); ("stored_key", VText (StoredKey u));
   ("created_at", VTime (u_CreatedAt u)); ("updated_at", VTime (u_UpdatedAt u))]%string.
Definition userDoc_decode (r : row) : option User :=
  n ← d_text "username" r; p ← d_text "password" r; s ← d_text "salt" r; i ← d_int "iterations" r;
  sk ← d_text "server_key" r; st ← d_text "stored_key" r; c ← d_time "created_at" r; u ← d_time "updated_at" r;
  Some (mkUser n p s i sk st c u).

Definition CreateUser (now : time) (user : User) : MM unit :=
  t_create IsDuplicateKeyError (InsertOne "users"
    (userDoc (mkUser (Username user) (Password user) (Salt user) (Iterations user) (ServerKey user) (StoredKey user) now now))).
Definition GetUser (username : string) : MM User :=
  or_not_found (FindOne "users" [("username", VText username)]%string userDoc_decode).
Definition UpdateUser (now : time) (user : User) : MM unit :=
  t_need (UpdateOne "users" [("username", VText (Username user))]
    [("password", VText (Password user)); ("salt", VText (Salt user)); ("iterations", VInt (Iterations user));
     ("server_key", VText (ServerKey user)); ("stored_key", VText (StoredKey user)); ("updated_at", VTime now)])%string.
Definition DeleteUser (username : string) : MM unit := t_need (DeleteOne "users" [("username", VText username)]%string).
Definition UserExists (username : string) : MM bool :=
  do count <- CountDocuments "users" [("username", VText username)]%string; mok (0 <? count)%Z.
Definition Authenticate (username password : string) : MM bool :=
  do doc <- FindOne "users" [("username", VText username)]%string userDoc_decode;
  match doc with
  | None => merr (TStorage ErrAuthFailed)
  | Some doc => if bool_decide (Password doc ≠ password) then merr (TStorage ErrAuthFailed) else mok true
  end.

(** *** RosterStore *)

Definition rosterDoc (i : RosterItem) : row :=
  [("user_jid", VText (r_UserJID i)); ("contact_jid", VText (ContactJID i)); ("name", VText (r_Name i));
   ("subscription", VText (Subscription i)); ("ask", VText (Ask i)); ("groups", VTexts (Groups i))]%string.
Definition rosterDoc_decode (r : row) : option RosterItem :=
  u ← d_text "user_jid" r; c ← d_text "contact_jid" r; n ← d_text "name" r; s ← d_text "subscription" r;
  a ← d_text "ask" r; g ← d_texts "groups" r; Some (mkRosterItem u c n s a g).
Definition UpsertRosterItem (item : RosterItem) : MM unit :=
  Upsert "roster_items" [("user_jid", VText (r_UserJID item)); ("contact_jid", VText (ContactJID item))]%string (rosterDoc item).
Definition GetRosterItem (userJID contactJID : string) : MM RosterItem :=
  or_not_found (FindOne "roster_items" [("user_jid", VText userJID); ("contact_jid", VText contactJID)]%string rosterDoc_decode).
Definition GetRosterItems (userJID : string) : MM (list RosterItem) :=
  Find "roster_items" (equals [("user_jid", VText userJID)]%string) None None rosterDoc_decode.
Definition DeleteRosterItem (userJID contactJID : string) : MM unit :=
  t_need (DeleteOne "roster_items" [("user_jid", VText userJID); ("contact_jid", VText contactJID)]%string).

Definition rosterVersionDoc_decode (r : row) : option string := d_text "version" r.
Definition GetRosterVersion (userJID : string) : MM string :=
  do doc <- FindOne "roster_versions" [("user_jid", VText userJID)]%string rosterVersionDoc_decode; mok (default ""%string doc).
Definition SetRosterVersion (userJID version : string) : MM unit :=
  Upsert "roster_versions" [("user_jid", VText userJID)]%string [("version", VText version)]%string.

(** *** BlockingStore *)

Definition BlockJID (userJID blockedJID : string) : MM unit :=
  Upsert "blocked_jids" [("user_jid", VText userJID); ("blocked_jid", VText blockedJID)]
    [("user_jid", VText userJID); ("blocked_jid", VText blockedJID)]%string.
Definition UnblockJID (userJID blockedJID : string) : MM unit :=
  t_unit (t_exec (DeleteOne "blocked_jids" [("user_jid", VText userJID); ("blocked_jid", VText blockedJID)]%string)).
Definition IsBlocked (userJID blockedJID : string) : MM bool :=
  do count <- CountDocuments "blocked_jids" [("user_jid", VText userJID); ("blocked_jid", VText blockedJID)]%string; mok (0 <? count)%Z.
Definition GetBlockedJIDs (userJID : string) : MM (list string) :=
  Find "blocked_jids" (equals [("user_jid", VText userJID)]%string) None None (d_text "blocked_jid").

(** *** VCardStore *)

Definition SetVCard (userJID : string) (data : bytes) : MM unit :=
  Upsert "vcards" [("user_jid", VText userJID)] [("user_jid", VText userJID); ("data", VBlob data)]%string.
Definition GetVCard (userJID : string) : MM bytes :=
  or_not_found (FindOne "vcards" [("user_jid", VText userJID)]%string (d_blob "data")).
Definition DeleteVCard (userJID : string) : MM unit := t_need (DeleteOne "vcards" [("user_jid", VText userJID)]%string).

(** *** OfflineStore *)

Definition offlineDoc (m : OfflineMessage) : row :=
  [("id", VText (o_ID m)); ("user_jid", VText (o_UserJID m)); ("from_jid", VText (o_FromJID m));
   ("data", VBlob (o_Data m)); ("created_at", VTime (o_CreatedAt m))]%string.
Definition offlineDoc_decode (r : row) : option OfflineMessage :=
  i ← d_text "id" r; u ← d_text "user_jid" r; f ← d_text "from_jid" r; d ← d_blob "data" r; c ← d_time "created_at" r;
  Some (mkOffline i u f d c).
Definition StoreOfflineMessage (now : time) (msg : OfflineMessage) : MM unit :=
  let createdAt := if IsZero (o_CreatedAt msg) then now else o_CreatedAt msg in
  t_unit (t_exec (InsertOne "offline_messages"
    (offlineDoc (mkOffline (o_ID msg) (o_UserJID msg) (o_FromJID msg) (o_Data msg) createdAt)))).
Definition GetOfflineMessages (userJID : string) : MM (list OfflineMessage) :=
  Find "offline_messages" (equals [("user_jid", VText userJID)]%string) (Some "created_at"%string) None offlineDoc_decode.
Definition DeleteOfflineMessages (userJID : string) : MM unit :=
  t_unit (t_exec (DeleteMany "offline_messages" [("user_jid", VText userJID)]%string)).
Definition CountOfflineMessages (userJID : string) : MM Z := CountDocuments "offline_messages" [("user_jid", VText userJID)]%string.

(** *** MAMStore *)

Definition mamDoc (m : ArchivedMessage) : row :=
  [("id", VText (a_ID m)); ("user_jid", VText (a_UserJID m)); ("with_jid", VText (a_WithJID m));
   ("from_jid", VText (a_FromJID m)); ("data", VBlob (a_Data m)); ("created_at", VTime (a_CreatedAt m))]%string.
Definition mamDoc_decode (r : row) : option ArchivedMessage :=
  i ← d_text "id" r; u ← d_text "user_jid" r; w ← d_text "with_jid" r; f ← d_text "from_jid" r; d ← d_blob "data" r;
  c ← d_time "created_at" r; Some (mkArchived i u w f d c).
Definition ArchiveMessage (now : time) (msg : ArchivedMessage) : MM unit :=
  let createdAt := if IsZero (a_CreatedAt msg) then now else a_CreatedAt msg in
  t_unit (t_exec (InsertOne "mam_messages"
    (mamDoc (mkArchived (a_ID msg) (a_UserJID msg) (a_WithJID msg) (a_FromJID msg) (a_Data msg) createdAt)))).

(** The filter: a second bound on a field joins the first. *)
Definition query_filter (query : MAMQuery) : condition :=
  let filter := equals [("user_jid", VText (q_UserJID query))] in
  let filter := if bool_decide (q_WithJID query ≠ "") then filter ++ [("with_jid", CEq, VText (q_WithJID query))] else filter in
  let filter := if negb (IsZero (q_Start query)) then filter ++ [("created_at", CGe, VTime (q_Start query))] else filter in
  let filter := if negb (IsZero (q_End query)) then filter ++ [("created_at", CLe, VTime (q_End query))] else filter in
  let filter := if bool_decide (q_AfterID query ≠ "") then filter ++ [("id", CGt, VText (q_AfterID query))] else filter in
  if bool_decide (q_BeforeID query ≠ "") then filter ++ [("id", CLt, VText (q_BeforeID query))] else filter%string.
Definition QueryMessages (query : MAMQuery) : MM MAMResult :=
  let max := if (q_Max query <=? 0)%Z then 100%Z else q_Max query in
  do msgs <- Find "mam_messages" (query_filter query) (Some "created_at"%string) (Some (i64_succ max)) mamDoc_decode;
  mok (mam_page max msgs).
Definition DeleteMessageArchive (userJID : string) : MM unit :=
  t_unit (t_exec (DeleteMany "mam_messages" [("user_jid", VText userJID)]%string)).

(** *** MUCRoomStore *)

Definition mucRoomDoc (r : MUCRoom) : row :=
  [("room_jid", VText (m_RoomJID r)); ("name", VText (m_Name r)); ("description", VText (Description r));
   ("subject", VText (Subject r)); ("password", VText (m_Password r)); ("is_public", VBool (Public r));
   ("is_persistent", VBool (Persistent r)); ("max_users", VInt (MaxUsers r))]%string.
Definition mucRoomDoc_decode (r : row) : option MUCRoom :=
  j ← d_text "room_jid" r; n ← d_text "name" r; d ← d_text "description" r; s ← d_text "subject" r; p ← d_text "password" r;
  pu ← d_bool "is_public" r; pe ← d_bool "is_persistent" r; m ← d_int "max_users" r; Some (mkRoom j n d s p pu pe m).
Definition CreateRoom (room : MUCRoom) : MM unit := t_create IsDuplicateKeyError (InsertOne "muc_rooms" (mucRoomDoc room)).
Definition GetRoom (roomJID : string) : MM MUCRoom :=
  or_not_found (FindOne "muc_rooms" [("room_jid", VText roomJID)]%string mucRoomDoc_decode).
Definition UpdateRoom (room : MUCRoom) : MM unit :=
  t_need (UpdateOne "muc_rooms" [("room_jid", VText (m_RoomJID room))]
    [("name", VText (m_Name room)); ("description", VText (Description room)); ("subject", VText (Subject room));
     ("password", VText (m_Password room)); ("is_public", VBool (Public room)); ("is_persistent", VBool (Persistent room));
     ("max_users", VInt (MaxUsers room))])%string.
Definition DeleteRoom (roomJID : string) : MM unit :=
  do_ t_need (DeleteOne "muc_rooms" [("room_jid", VText roomJID)]%string);
  t_drop (DeleteMany "muc_affiliations" [("room_jid", VText roomJID)]%string).
Definition ListRooms : MM (list MUCRoom) := Find "muc_rooms" (equals []) None None mucRoomDoc_decode.

Definition mucAffDoc (f : MUCAffiliation) : row :=
  [("room_jid", VText (f_RoomJID f)); ("user_jid", VText (f_UserJID f)); ("affiliation", VText (Affiliation f));
   ("reason", VText (Reason f))]%string.
Definition mucAffDoc_decode (r : row) : option MUCAffiliation :=
  j ← d_text "room_jid" r; u ← d_text "user_jid" r; a ← d_text "affiliation" r; e ← d_text "reason" r; Some (mkAffiliation j u a e).
Definition SetAffiliation (aff : MUCAffiliation) : MM unit :=
  Upsert "muc_affiliations" [("room_jid", VText (f_RoomJID aff)); ("user_jid", VText (f_UserJID aff))]%string (mucAffDoc aff).
Definition GetAffiliation (roomJID userJID : string) : MM MUCAffiliation :=
  or_not_found (FindOne "muc_affiliations" [("room_jid", VText roomJID); ("user_jid", VText userJID)]%string mucAffDoc_decode).
Definition GetAffiliations (roomJID : string) : MM (list MUCAffiliation) :=
  Find "muc_affiliations" (equals [("room_jid", VText roomJID)]%string) None None mucAffDoc_decode.
Definition RemoveAffiliation (roomJID userJID : string) : MM unit :=
  t_unit (t_exec (DeleteOne "muc_affiliations" [("room_jid", VText roomJID); ("user_jid", VText userJID)]%string)).

(** *** PubSubStore *)

Definition pubsubNodeDoc (n : PubSubNode) : row :=
  [("host", VText (n_Host n)); ("node_id", VText (n_NodeID n)); ("name", VText (n_Name n)); ("type", VText (n_Type n));
   ("creator", VText (Creator n))]%string.
Definition pubsubNodeDoc_decode (r : row) : option PubSubNode :=
  h ← d_text "host" r; n ← d_text "node_id" r; m ← d_text "name" r; t ← d_text "type" r; c ← d_text "creator" r;
  Some (mkNode h n m t None c).
Definition pubsubItemDoc (i : PubSubItem) : row :=
  [("host", VText (i_Host i)); ("node_id", VText (i_NodeID i)); ("item_id", VText (i_ItemID i));
   ("publisher", VText (Publisher i)); ("payload", VBlob (i_Payload i)); ("created_at", VTime (i_CreatedAt i))]%string.
Definition pubsubItemDoc_decode (r : row) : option PubSubItem :=
  h ← d_text "host" r; n ← d_text "node_id" r; i ← d_text "item_id" r; p ← d_text "publisher" r; b ← d_blob "payload" r;
  c ← d_time "created_at" r; Some (mkItem h n i p b c).
Definition pubsubSubDoc (s : PubSubSubscription) : row :=
  [("host", VText (s_Host s)); ("node_id", VText (s_NodeID s)); ("jid", VText (s_JID s)); ("sub_id", VText (SubID s));
   ("state", VText (s_State s))]%string.
Definition pubsubSubDoc_decode (r : row) : option PubSubSubscription :=
  h ← d_text "host" r; n ← d_text "node_id" r; j ← d_text "jid" r; i ← d_text "sub_id" r; s ← d_text "state" r;
  Some (mkSubscription h n j i s).

Definition CreateNode (node : PubSubNode) : MM unit := t_create IsDuplicateKeyError (InsertOne "pubsub_nodes" (pubsubNodeDoc node)).
Definition GetNode (host nodeID : string) : MM PubSubNode :=
  or_not_found (FindOne "pubsub_nodes" [("host", VText host); ("node_id", VText nodeID)]%string pubsubNodeDoc_decode).
Definition DeleteNode (host nodeID : string) : MM unit :=
  do_ t_need (DeleteOne "pubsub_nodes" [("host", VText host); ("node_id", VText nodeID)]%string);
  do_ t_drop (DeleteMany "pubsub_items" [("host", VText host); ("node_id", VText nodeID)]%string);
  t_drop (DeleteMany "pubsub_subscriptions" [("host", VText host); ("node_id", VText nodeID)]%string).
Definition ListNodes (host : string) : MM (list PubSubNode) :=
  Find "pubsub_nodes" (equals [("host", VText host)]%string) None None pubsubNodeDoc_decode.

Definition UpsertItem (now : time) (item : PubSubItem) : MM unit :=
  let createdAt := if IsZero (i_CreatedAt item) then now else i_CreatedAt item in
  Upsert "pubsub_items" [("host", VText (i_Host item)); ("node_id", VText (i_NodeID item)); ("item_id", VText (i_ItemID item))]%string
    (pubsubItemDoc (mkItem (i_Host item) (i_NodeID item) (i_ItemID item) (Publisher item) (i_Payload item) createdAt)).
Definition GetItem (host nodeID itemID : string) : MM PubSubItem :=
  or_not_found (FindOne "pubsub_items" [("host", VText host); ("node_id", VText nodeID); ("item_id", VText itemID)]%string pubsubItemDoc_decode).
Definition GetItems (host nodeID : string) : MM (list PubSubItem) :=
  Find "pubsub_items" (equals [("host", VText host); ("node_id", VText nodeID)]%string) (Some "created_at"%string) None pubsubItemDoc_decode.
Definition DeleteItem (host nodeID itemID : string) : MM unit :=
  t_need (DeleteOne "pubsub_items" [("host", VText host); ("node_id", VText nodeID); ("item_id", VText itemID)]%string).

Definition Subscribe (sub : PubSubSubscription) : MM unit :=
  Upsert "pubsub_subscriptions" [("host", VText (s_Host sub)); ("node_id", VText (s_NodeID sub)); ("jid", VText (s_JID sub))]%string (pubsubSubDoc sub).
Definition Unsubscribe (host nodeID jid : string) : MM unit :=
  t_unit (t_exec (DeleteOne "pubsub_subscriptions" [("host", VText host); ("node_id", VText nodeID); ("jid", VText jid)]%string)).
Definition GetSubscription (host nodeID jid : string) : MM PubSubSubscription :=
  or_not_found (FindOne "pubsub_subscriptions" [("host", VText host); ("node_id", VText nodeID); ("jid", VText jid)]%string pubsubSubDoc_decode).
Definition GetSubscriptions (host nodeID : string) : MM (list PubSubSubscription) :=
  Find "pubsub_subscriptions" (equals [("host", VText host); ("node_id", VText nodeID)]%string) None None pubsubSubDoc_decode.
Definition GetUserSubscriptions (host jid : string) : MM (list PubSubSubscription) :=
  Find "pubsub_subscriptions" (equals [("host", VText host); ("jid", VText jid)]%string) None None pubsubSubDoc_decode.

(** *** BookmarkStore *)

Definition bookmarkDoc (b : Bookmark) : row :=
  [("user_jid", VText (b_UserJID b)); ("room_jid", VText (b_RoomJID b)); ("name", VText (b_Name b)); ("nick", VText (Nick b));
   ("password", VText (b_Password b)); ("autojoin", VBool (Autojoin b))]%string.
Definition bookmarkDoc_decode (r : row) : option Bookmark :=
  u ← d_text "user_jid" r; j ← d_text "room_jid" r; n ← d_text "name" r; k ← d_text "nick" r; p ← d_text "password" r;
  a ← d_bool "autojoin" r; Some (mkBookmark u j n k p a).
Definition SetBookmark (bm : Bookmark) : MM unit :=
  Upsert "bookmarks" [("user_jid", VText (b_UserJID bm)); ("room_jid", VText (b_RoomJID bm))]%string (bookmarkDoc bm).
Definition GetBookmark (userJID roomJID : string) : MM Bookmark :=
  or_not_found (FindOne "bookmarks" [("user_jid", VText userJID); ("room_jid", VText roomJID)]%string bookmarkDoc_decode).
Definition GetBookmarks (userJID : string) : MM (list Bookmark) :=
  Find "bookmarks" (equals [("user_jid", VText userJID)]%string) None None bookmarkDoc_decode.
Definition DeleteBookmark (userJID roomJID : string) : MM unit :=
  t_need (DeleteOne "bookmarks" [("user_jid", VText userJID); ("room_jid", VText roomJID)]%string).
End Store.

(** ** Calls *)

Notation unit_of := (λ _ : unit, AUnit).

Definition exec {D} `{Tables D} (now : time) (c : call) : D → D * answer :=
  match c with
  | CCreateUser u => t_answer unit_of (CreateUser now u)
  | CGetUser n => t_answer AUser (GetUser n)
  | CUpdateUser u => t_answer unit_of (UpdateUser now u)
  | CDeleteUser n => t_answer unit_of (DeleteUser n)
  | CUserExists n => t_answer ABool (UserExists n)
  | CAuthenticate n p => t_answer ABool (Authenticate n p)
  | CUpsertRosterItem i => t_answer unit_of (UpsertRosterItem i)
  | CGetRosterItem u c => t_answer ARoster (GetRosterItem u c)
  | CGetRosterItems u => t_answer ARosters (GetRosterItems u)
  | CDeleteRosterItem u c => t_answer unit_of (DeleteRosterItem u c)
  | CGetRosterVersion u => t_answer AStr (GetRosterVersion u)
  | CSetRosterVersion u v => t_answer unit_of (SetRosterVersion u v)
  | CBlockJID u j => t_answer unit_of (BlockJID u j)
  | CUnblockJID u j => t_answer unit_of (UnblockJID u j)
  | CIsBlocked u j => t_answer ABool (IsBlocked u j)
  | CGetBlockedJIDs u => t_answer AStrs (GetBlockedJIDs u)
  | CSetVCard u d => t_answer unit_of (SetVCard u d)
  | CGetVCard u => t_answer ABytes (GetVCard u)
  | CDeleteVCard u => t_answer unit_of (DeleteVCard u)
  | CStoreOfflineMessage m => t_answer unit_of (StoreOfflineMessage now m)
  | CGetOfflineMessages u => t_answer AOffline (GetOfflineMessages u)
  | CDeleteOfflineMessages u => t_answer unit_of (DeleteOfflineMessages u)
  | CCountOfflineMessages u => t_answer ACount (CountOfflineMessages u)
  | CArchiveMessage m => t_answer unit_of (ArchiveMessage now m)
  | CQueryMessages q => t_answer AMAM (QueryMessages q)
  | CDeleteMessageArchive u => t_answer unit_of (DeleteMessageArchive u)
  | CCreateRoom r => t_answer unit_of (CreateRoom r)
  | CGetRoom r => t_answer ARoom (GetRoom r)
  | CUpdateRoom r => t_answer unit_of (UpdateRoom r)
  | CDeleteRoom r => t_answer unit_of (DeleteRoom r)
  | CListRooms => t_answer ARooms ListRooms
  | CSetAffiliation a => t_answer unit_of (SetAffiliation a)
  | CGetAffiliation r u => t_answer AAff (GetAffiliation r u)
  | CGetAffiliations r => t_answer AAffs (GetAffiliations r)
  | CRemoveAffiliation r u => t_answer unit_of (RemoveAffiliation r u)
  | CCreateNode n => t_answer unit_of (CreateNode n)
  | CGetNode h n => t_answer ANode (GetNode h n)
  | CDeleteNode h n => t_answer unit_of (DeleteNode h n)
  | CListNodes h => t_answer ANodes (ListNodes h)
  | CUpsertItem i => t_answer unit_of (UpsertItem now i)
  | CGetItem h n i => t_answer AItem (GetItem h n i)
  | CGetItems h n => t_answer AItems (GetItems h n)
  | CDeleteItem h n i => t_answer unit_of (DeleteItem h n i)
  | CSubscribe b => t_answer unit_of (Subscribe b)
  | CUnsubscribe h n j => t_answer unit_of (Unsubscribe h n j)
  | CGetSubscription h n j => t_answer ASub (GetSubscription h n j)
  | CGetSubscriptions h n => t_answer ASubs (GetSubscriptions h n)
  | CGetUserSubscriptions h j => t_answer ASubs (GetUserSubscriptions h j)
  | CSetBookmark b => t_answer unit_of (SetBookmark b)
  | CGetBookmark u r => t_answer ABookmark (GetBookmark u r)
  | CGetBookmarks u => t_answer ABookmarks (GetBookmarks u)
  | CDeleteBookmark u r => t_answer unit_of (DeleteBookmark u r)
  end.

(** ** The store as an instance of the store program *)

Definition mongo_variant : variant :=
  mkVariant true true IsDuplicateKeyError ("groups"%string, VTexts) userDoc_decode (λ r, Password <$> userDoc_decode r)
    rosterDoc_decode rosterVersionDoc_decode (d_text "blocked_jid") (d_blob "data") offlineDoc_decode mamDoc_decode mucRoomDoc_decode
    mucAffDoc_decode pubsubNodeDoc_decode pubsubItemDoc_decode pubsubSubDoc_decode bookmarkDoc_decode (λ _, []).

Lemma query_filter_is q : query_filter q = mam_condition q.
Proof. unfold query_filter, mam_condition. repeat case_match; reflexivity. Qed.

Lemma mongo_exec_is_store_call {D} `{Tables D} now c d : exec (D := D) now c d = store_call mongo_variant now c d.
Proof.
  destruct c; try reflexivity.
  - cbn [exec store_call op_of]. unfold t_answer, Authenticate, FindOne, t_first, mbnd. cbn [de_password mongo_variant].
    change (find1 _ _ _ _) with (OFind [] "users" (equals [("username"%string, VText name)]) None (Some 1%Z)).
    destruct (t_query _ d) as [d' [[|r l]|e|]]; try reflexivity. unfold mlift, t_decode.
    destruct (userDoc_decode r); reflexivity.
  - cbn [exec store_call op_of]. unfold QueryMessages, Find. by rewrite query_filter_is.
Qed.

(** ** The store refines the contract *)

(** Document fields that are missing read as zero values, but all are written. *)
Lemma mongo_variant_ok `{Engine} : variant_ok (unique := keys) mongo_variant (λ _, True).
Proof. split; try reflexivity; try (by left); intros []; reflexivity || by intros _. Qed.

Section Refinement.
Context `{Engine} {D : Type} `{!Tables D} {contents : D → tables} `{!TablesLaws D keys contents}.

(** The calls the server can serve. *)
Definition good (nc : time * call) : Prop := call_ok mongo_variant (λ _, True) nc.1 nc.2.

(** C13: what the MongoDB backend promises.  Over a server that behaves as
    documented, has the indexes [Init] creates and starts empty, every sequence of
    calls whose values can be stored is answered as [table_spec] allows: the
    abstract machine with the precision of the server's times (milliseconds),
    updates of a user that keep its creation time, messages in the order of their
    times, archives paged by comparing identifiers and nodes without their
    configuration.  A sequence on which these differences cannot be seen
    ([portable_run]) is answered as the abstract storage machine itself allows. *)
Theorem mongo_store_refines db calls :
  contents db = ∅ → Forall good calls →
  table_run spec_init calls (answers_of exec db calls) ∧
  ((∀ s, text_lt s s = false) → (∀ a b c, text_lt a b = true → text_lt b c = true → text_lt a c = true) →
   portable_run spec_init calls → spec_run spec_init calls (answers_of exec db calls)).
Proof.
  intros Hd Hc. assert (table_run spec_init calls (answers_of exec db calls)) as Ht.
  { apply (run_rep mongo_variant (λ _, True) exec db calls); [apply mongo_variant_ok| |done|done].
    apply mongo_exec_is_store_call. }
  split; [done|]. intros Hi Htr Hp. by apply portable_answers.
Qed.
End Refinement.

(** ** A run *)

Module MongoExample.

(** BSON dates are milliseconds. *)
#[local] Instance mongodb : Engine :=
  {| precise := λ t, (t / 1000000 * 1000000)%Z; text_lt := byte_lt; count_changed := false; storable := λ _, True |}.
#[local] Instance server : Tables tables := memory_tables keys.
#[local] Instance server_laws : TablesLaws tables keys id := memory_laws keys.

Definition alice := mkUser "alice" "secret" "" 0 "" "" 0 0.
Definition friend := mkRosterItem "alice@a" "bob@b" "Bob" "both" "" ["two" +:+ String "010" "lines"]%string.
Definition msg (id : string) (t : time) : ArchivedMessage := mkArchived id "alice@a" "bob@b" "bob@b" [] t.
Definition calls : list (time * call) :=
  [(1500000, CCreateUser alice); (1600000, CCreateUser alice); (1700000, CAuthenticate "alice" "secret");
   (1800000, CUpsertRosterItem friend); (1900000, CGetRosterItem "alice@a" "bob@b");
   (2000000, CSetRosterVersion "alice@a" "v1"); (2000001, CSetRosterVersion "alice@a" "v2"); (2000002, CGetRosterVersion "alice@a");
   (2500000, CArchiveMessage (msg "m1" 0)); (3999999, CArchiveMessage (msg "m2" 0));
   (4000000, CQueryMessages (mkQuery "alice@a" "" 0 0 "m1" "" 10))]%Z%string.

Ltac good := repeat (apply Forall_cons; split); try done; (split; [repeat constructor|try done]); repeat constructor; try done.

(** Calls on which the differences to the abstract machine cannot be seen. *)
Definition plain_calls : list (time * call) :=
  [(1000000, CCreateUser alice); (2000000, CGetUser "alice"); (3000000, CUpdateUser (mkUser "alice" "new" "" 0 "" "" 1000000 0));
   (4000000, CAuthenticate "alice" "new")]%Z%string.

Lemma mongo_store_refines_witness :
  answers_of exec (∅ : tables) calls =
    [AUnit; AErr ErrUserExists; ABool true; AUnit; ARoster friend; AUnit; AUnit; AStr "v2"; AUnit; AUnit;
     AMAM (mkMAMResult [msg "m2" 3000000] true "m2" "m2" 1)]%string ∧
  table_run spec_init calls (answers_of exec (∅ : tables) calls) ∧
  spec_run spec_init plain_calls (answers_of exec (∅ : tables) plain_calls).
Proof.
  split; [by vm_compute|]. split.
  - apply (mongo_store_refines (TablesLaws0 := server_laws)); [done|]. unfold calls. good.
  - apply (proj2 (mongo_store_refines (TablesLaws0 := server_laws) ∅ plain_calls eq_refl ltac:(unfold plain_calls; good)));
      [apply byte_lt_irrefl|apply byte_lt_trans|].
    split; [done|]. split; [done|]. split; [|done]. split; [done|]. intros old. vm_compute. by intros [= <-].
Defined.

(** [Init] stops at the first index that cannot be created. *)
Lemma Init_stops :
  Init (λ c _ _ (s : list string), (s ++ [c], negb (String.eqb c "vcards"))) [] =
  (["users"; "roster_items"; "blocked_jids"; "vcards"], Err "vcards")%string.
Proof. by vm_compute. Qed.
End MongoExample.
