(* ===== verification/Storagetest.v ===== *)
(** * The conformance suite (src/storage/storagetest/storagetest.go)

    The suite the repository runs against its backends, as sequences of calls with
    the check of each answer; every test starts from a new store.

    The suite accepts whatever answers the abstract machines allow
    ([spec_accepts], [table_accepts], [redis_accepts]); so every backend whose
    [Init] succeeds passes it, those that talk to a server over any server that
    behaves as documented ([backends_conform]). *)

From Stdlib Require Import Ascii String ZArith.
From S2P Require Import Prelude GoStrings Bytes StorageJson MemoryStorage FileStorage FileRefinement RedisStorage RedisRefinement.
From S2P Require Import Tables TableStore SqlStorage SqlSchema SqlRefinement MongoStorage Storage.

Open Scope list_scope.

Definition test : Type := list (call * (answer → bool)).

(** [err != nil], [err != storage.ErrX], and the values looked at. *)
Definition no_error (r : answer) : bool := match r with AErr _ | AFailed | APanic => false | _ => true end.
Definition want (e : storage_error) (r : answer) : bool := match r with AErr e' => bool_decide (e' = e) | _ => false end.
Definition is_true (r : answer) : bool := match r with ABool b => b | _ => false end.
Definition is_false (r : answer) : bool := match r with ABool b => negb b | _ => false end.
(** The length of a listing. *)
Definition listed (r : answer) : option nat :=
  match r with
  | AStrs l => Some (length l) | ARosters l => Some (length l) | AOffline l => Some (length l)
  | AMAM m => Some (length (Messages m)) | ARooms l => Some (length l) | AAffs l => Some (length l)
  | ANodes l => Some (length l) | AItems l => Some (length l) | ASubs l => Some (length l) | ABookmarks l => Some (length l)
  | _ => None
  end.
Definition lists_n (n : nat) (r : answer) : bool := match listed r with Some k => (k =? n)%nat | None => false end.

Definition alice_jid := "alice@example.com"%string.
Definition bob_jid := "bob@example.com"%string.

Definition testUserStore : test :=
  let user := mkUser "alice" "secret" "" 0 "" "" 0 0 in
  let changed := mkUser "alice" "newsecret" "" 0 "" "" 0 0 in
  [(CCreateUser user, no_error);
   (CCreateUser user, want ErrUserExists);
   (CGetUser "alice", λ r, match r with AUser got => bool_decide (Username got = "alice" ∧ Password got = "secret") | _ => false end);
   (CGetUser "bob", want ErrNotFound);
   (CUserExists "alice", is_true);
   (CUserExists "bob", is_false);
   (CAuthenticate "alice" "secret", is_true);
   (CAuthenticate "alice" "wrong", want ErrAuthFailed);
   (CUpdateUser changed, no_error);
   (CAuthenticate "alice" "newsecret", is_true);
   (CDeleteUser "alice", no_error);
   (CDeleteUser "alice", want ErrNotFound)]%string.

Definition testRosterStore : test :=
  let item := mkRosterItem alice_jid bob_jid "Bob" "both" "" ["friends"] in
  [(CUpsertRosterItem item, no_error);
   (CGetRosterItem alice_jid bob_jid,
    λ r, match r with ARoster got => bool_decide (r_Name got = "Bob" ∧ Subscription got = "both") | _ => false end);
   (CGetRosterItem alice_jid "charlie@example.com", want ErrNotFound);
   (CGetRosterItems alice_jid, lists_n 1);
   (CSetRosterVersion alice_jid "v1", no_error);
   (CGetRosterVersion alice_jid, λ r, match r with AStr ver => bool_decide (ver = "v1") | _ => false end);
   (CDeleteRosterItem alice_jid bob_jid, no_error);
   (CGetRosterItems alice_jid, lists_n 0)]%string.

Definition testBlockingStore : test :=
  [(CBlockJID alice_jid "spam@example.com", no_error);
   (CIsBlocked alice_jid "spam@example.com", is_true);
   (CIsBlocked alice_jid "friend@example.com", is_false);
   (CGetBlockedJIDs alice_jid, lists_n 1);
   (CUnblockJID alice_jid "spam@example.com", no_error);
   (CIsBlocked alice_jid "spam@example.com", is_false)]%string.

Definition testVCardStore : test :=
  let data := list_ascii_of_string "<vCard><FN>Alice</FN></vCard>" in
  [(CSetVCard alice_jid data, no_error);
   (CGetVCard alice_jid, λ r, match r with ABytes got => bool_decide (got = data) | _ => false end);
   (CGetVCard bob_jid, want ErrNotFound);
   (CDeleteVCard alice_jid, no_error);
   (CGetVCard alice_jid, want ErrNotFound)].

Definition is_count (n : Z) (r : answer) : bool := match r with ACount k => (k =? n)%Z | _ => false end.
Definition testOfflineStore (now : time) : test :=
  let msg := mkOffline "msg1" alice_jid bob_jid (list_ascii_of_string "<message/>") now in
  [(CStoreOfflineMessage msg, no_error);
   (CCountOfflineMessages alice_jid, is_count 1);
   (CGetOfflineMessages alice_jid, lists_n 1);
   (CDeleteOfflineMessages alice_jid, no_error);
   (CCountOfflineMessages alice_jid, is_count 0)].

Definition second : Z := 1000000000.
Definition testMAMStore (now : time) : test :=
  let msg1 := mkArchived "1" alice_jid bob_jid bob_jid (list_ascii_of_string "<msg1/>") now in
  let msg2 := mkArchived "2" alice_jid "charlie@example.com" "charlie@example.com" (list_ascii_of_string "<msg2/>") (now + second) in
  [(CArchiveMessage msg1, no_error);
   (CArchiveMessage msg2, no_error);
   (CQueryMessages (mkQuery alice_jid "" 0 0 "" "" 0), lists_n 2);
   (CQueryMessages (mkQuery alice_jid bob_jid 0 0 "" "" 0), lists_n 1);
   (CDeleteMessageArchive alice_jid, no_error);
   (CQueryMessages (mkQuery alice_jid "" 0 0 "" "" 0), lists_n 0)]%string.

Definition testMUCRoomStore : test :=
  let jid := "room@conference.example.com"%string in
  let room := mkRoom jid "Test Room" "" "" "" true false 0 in
  let updated := mkRoom jid "Updated Room" "" "" "" true false 0 in
  [(CCreateRoom room, no_error);
   (CCreateRoom room, want ErrUserExists);
   (CGetRoom jid, λ r, match r with ARoom got => bool_decide (m_Name got = "Test Room") | _ => false end);
   (CUpdateRoom updated, no_error);
   (CListRooms, lists_n 1);
   (CSetAffiliation (mkAffiliation jid alice_jid "owner" ""), no_error);
   (CGetAffiliation jid alice_jid, λ r, match r with AAff got => bool_decide (Affiliation got = "owner") | _ => false end);
   (CGetAffiliations jid, lists_n 1);
   (CDeleteRoom jid, no_error);
   (CGetRoom jid, want ErrNotFound)]%string.

Definition testPubSubStore : test :=
  let host := "pubsub.example.com"%string in
  [(CCreateNode (mkNode host "news" "News" "leaf" None ""), no_error);
   (CGetNode host "news", λ r, match r with ANode got => bool_decide (n_Name got = "News") | _ => false end);
   (CListNodes host, lists_n 1);
   (CUpsertItem (mkItem host "news" "item1" alice_jid (list_ascii_of_string "<entry/>") 0), no_error);
   (CGetItems host "news", lists_n 1);
   (CSubscribe (mkSubscription host "news" bob_jid "" "subscribed"), no_error);
   (CGetSubscriptions host "news", lists_n 1);
   (CGetUserSubscriptions host bob_jid, lists_n 1);
   (CDeleteNode host "news", no_error);
   (CGetNode host "news", want ErrNotFound)]%string.

Definition testBookmarkStore : test :=
  let room := "room@conference.example.com"%string in
  [(CSetBookmark (mkBookmark alice_jid room "My Room" "alice" "" true), no_error);
   (CGetBookmark alice_jid room, λ r, match r with ABookmark got => bool_decide (b_Name got = "My Room") && Autojoin got | _ => false end);
   (CGetBookmarks alice_jid, lists_n 1);
   (CSetBookmark (mkBookmark alice_jid room "Updated Room" "alice" "" true), no_error);
   (CGetBookmark alice_jid room, λ r, match r with ABookmark got => bool_decide (b_Name got = "Updated Room") | _ => false end);
   (CDeleteBookmark alice_jid room, no_error);
   (CGetBookmark alice_jid room, want ErrNotFound)]%string.

Definition suite (now : time) : list test :=
  [testUserStore; testRosterStore; testBlockingStore; testVCardStore; testOfflineStore now; testMAMStore now;
   testMUCRoomStore; testPubSubStore; testBookmarkStore].

Fixpoint checks (t : test) (rs : list answer) : bool :=
  match t, rs with
  | [], [] => true
  | (_, check) :: t', r :: rs' => check r && checks t' rs'
  | _, _ => false
  end.

(** A store as [initStore] gets it: whether [Init] of a new store succeeds, and
    what the initialised store answers to calls. *)
Record candidate := mkCandidate { cd_init : bool; cd_run : list (time * call) → list answer }.

(** Every test starts from a new store, and a failing [Init] fails the test; the
    clock is read at each call. *)
Definition initStore (s : candidate) : option (list (time * call) → list answer) := if cd_init s then Some (cd_run s) else None.
Definition TestStorage (now : time) (clock : nat → time) (newStore : candidate) : bool :=
  forallb (λ t, match initStore newStore with
                | Some run => checks t (run (imap (λ i s, (clock i, s.1)) t))
                | None => false
                end) (suite now).

(** ** What the machine allows passes *)

Section Accepts.
Context (S : time → call → spec → spec * (answer → Prop)).

Fixpoint allowed (a : spec) (cs : list (time * call)) (rs : list answer) : Prop :=
  match cs, rs with
  | [], [] => True
  | (now, c) :: cs', r :: rs' => (S now c a).2 r ∧ allowed (S now c a).1 cs' rs'
  | _, _ => False
  end.

(** The test accepts what is allowed from [a], at any times. *)
Definition accepts (a : spec) (t : test) : Prop :=
  ∀ cs rs, cs.*2 = t.*1 → allowed a cs rs → checks t rs = true.

Lemma accepts_nil a : accepts a [].
Proof. intros [|[] cs] rs Hc; [|done]. by destruct rs. Qed.
Lemma accepts_step a c check t :
  (∀ now r, (S now c a).2 r → check r = true) → (∀ now, accepts (S now c a).1 t) → accepts a ((c, check) :: t).
Proof.
  intros Hr Ht [|[now c'] cs] [|r rs]; try done. intros [= -> Hcs] [H1 H2]. cbn. rewrite (Hr now r H1). by apply (Ht now cs).
Qed.
End Accepts.

Lemma lists_none {V} (f : string → option V) l : (∀ k, f k = None) → lists f l → length l = 0%nat.
Proof.
  intros Hf (kl & -> & _ & Hin). destruct kl as [|[k v] kl]; [done|].
  pose proof (proj1 (Hin k v) ltac:(by left)) as E. by rewrite Hf in E.
Qed.
Lemma lists_one {V} (f : string → option V) k v l :
  (∀ k', f k' = if decide (k' = k) then Some v else None) → lists f l → length l = 1%nat.
Proof.
  intros Hf (kl & -> & Hn & Hin). assert (∀ k' v', (k', v') ∈ kl ↔ k' = k ∧ v' = v) as Hkl.
  { intros k' v'. rewrite Hin, Hf. case_decide; naive_solver. }
  destruct kl as [|[k1 v1] kl].
  { pose proof (proj2 (Hkl k v) (conj eq_refl eq_refl)) as Hx. by apply not_elem_of_nil in Hx. }
  destruct (proj1 (Hkl k1 v1) ltac:(by left)) as [-> ->]. destruct kl as [|[k2 v2] kl]; [done|].
  destruct (proj1 (Hkl k2 v2) ltac:(by right; left)) as [-> ->]. cbn in Hn. apply NoDup_cons in Hn as [Hn _]. set_solver.
Qed.

Lemma strs_one {V} (f : string → option V) k v l :
  (∀ k', f k' = if decide (k' = k) then Some v else None) → NoDup l → (∀ j, j ∈ l ↔ is_Some (f j)) → length l = 1%nat.
Proof.
  intros Hf Hn Hl. assert (∀ j, j ∈ l ↔ j = k) as Hk.
  { intros j. rewrite Hl, Hf. case_decide; [naive_solver|]. split; [by intros []|done]. }
  destruct l as [|j l]; [pose proof (proj2 (Hk k) eq_refl) as Hx; by apply not_elem_of_nil in Hx|]. destruct l as [|j' l]; [done|].
  assert (j = k) as -> by (apply Hk; by left). assert (j' = k) as -> by (apply Hk; by right; left).
  apply NoDup_cons in Hn as [Hn _]. set_solver.
Qed.

(** The messages a query without identifiers answers with. *)
Lemma page_length q all : length (Messages (page_of q all)) = Nat.min (page_size q) (length all).
Proof. cbn. apply length_take. Qed.
Lemma answer_length q l : q_AfterID q = ""%string → q_BeforeID q = ""%string →
  length (Messages (mam_answer q l)) = Nat.min (page_size q) (length (filter (selected q) l)).
Proof. intros Ha Hb. cbn. rewrite length_take. unfold in_page. by rewrite !bool_decide_true. Qed.

(** One step: the state and the answer, computed. *)
Ltac norm := repeat progress (
  cbn [spec_call table_spec redis_spec fst snd
   sp_users sp_roster sp_versions sp_blocked sp_vcards sp_offline sp_mam sp_counter sp_rooms sp_affs sp_nodes sp_items sp_subs sp_bookmarks
   put_users put_roster put_versions put_blocked put_vcards put_offline put_mam put_counter put_rooms put_affs put_nodes put_items put_subs put_bookmarks
   spec_init Username Password r_UserJID ContactJID o_UserJID a_UserJID a_ID m_RoomJID f_RoomJID f_UserJID n_Host n_NodeID i_Host i_NodeID i_ItemID
   s_Host s_NodeID s_JID b_UserJID b_RoomJID q_UserJID default app id];
  unfold on_entry, or_missing, answers, archived;
  repeat first [rewrite lookup_insert_eq | rewrite lookup_empty | rewrite lookup_delete_eq | rewrite lookup_insert_ne by done
               | rewrite delete_insert_eq | rewrite delete_empty | rewrite insert_insert_eq ]).
Ltac one_key := intros ?; case_decide; subst; [by rewrite lookup_insert_eq|rewrite lookup_insert_ne by congruence; apply lookup_empty].
Ltac list_length H :=
  first [ apply (lists_none _ _ (λ _, lookup_empty _)) in H
        | match type of H with
          | lists (λ _, <[(_, ?m, ?j) := ?v]> _ !! _) _ =>
              first [apply (lists_one _ j v) in H; [|one_key] | apply (lists_one _ m v) in H; [|one_key]]
          | lists (λ _, <[(_, ?j) := ?v]> _ !! _) _ => apply (lists_one _ j v) in H; [|one_key]
          | lists (λ _, <[?j := ?v]> _ !! _) _ => apply (lists_one _ j v) in H; [|one_key]
          end ].
Ltac verdict := first
  [ intros ->; vm_compute; reflexivity
  | intros (?l & -> & ?Hl); list_length Hl; unfold lists_n; cbn [listed]; by rewrite Hl
  | intros (?l & -> & _ & ?Hl); list_length Hl; unfold lists_n; cbn [listed]; by rewrite Hl
  | intros (?l & -> & ?Hn & ?Hl);
    match type of Hl with ∀ j, _ ↔ is_Some (<[(_, ?k) := ?v]> _ !! _) =>
      apply (strs_one _ k v) in Hl; [|one_key|exact Hn] end;
    unfold lists_n; cbn [listed]; by rewrite Hl
  | intros (?l & -> & _ & ?Hp); apply Permutation_length in Hp; unfold lists_n; cbn [listed]; rewrite ?page_length, Hp; vm_compute; reflexivity ].
Ltac step := apply accepts_step; [intros ?now ?r; norm; verdict|intros ?now; norm].
Ltac test := repeat step; apply accepts_nil.

Ltac all_tests := intros Ht; unfold suite in Ht; repeat (apply elem_of_cons in Ht as [->|Ht]); [..|by apply not_elem_of_nil in Ht];
  unfold testUserStore, testRosterStore, testBlockingStore, testVCardStore, testOfflineStore, testMAMStore, testMUCRoomStore,
    testPubSubStore, testBookmarkStore; cbv zeta.

(** The machine of the in-memory and the file store. *)
Lemma spec_accepts now t : t ∈ suite now → accepts spec_call spec_init t.
Proof. all_tests. all: test. Qed.

(** The machine of the SQL and the MongoDB store. *)
Lemma table_accepts `{Engine} now t : t ∈ suite now → accepts table_spec spec_init t.
Proof. all_tests. all: test. Qed.

(** The machine of the Redis store. *)
Lemma place_two x y : a_ID x ≠ a_ID y → place y (place x []) ≡ₚ [x; y].
Proof.
  intros Hne. unfold place. rewrite !merge_sort_Permutation, filter_nil, filter_cons_True by done. rewrite filter_nil. apply Permutation_swap.
Qed.
Lemma redis_accepts now t : t ∈ suite now → accepts redis_spec spec_init t.
Proof.
  all_tests.
  6: { do 2 step.
       match goal with |- accepts _ (put_mam (<[_ := place ?y (place ?x [])]> _) _) _ =>
         assert (place y (place x []) ≡ₚ [x; y]) as Hp by (by apply place_two) end.
       apply accepts_step; [intros ?now ?r; norm; intros ->; unfold lists_n; cbn [listed]; rewrite answer_length by done; rewrite Hp; reflexivity|].
       intros ?now; norm.
       apply accepts_step; [intros ?now ?r; norm; intros ->; unfold lists_n; cbn [listed]; rewrite answer_length by done; rewrite Hp; reflexivity|].
       intros ?now; norm. test. }
  all: test.
Qed.

(** ** The backends *)

(** What a backend promises: started empty, it answers the calls of [ok] as the
    machine [S] allows. *)
Class Backend (S : time → call → spec → spec * (answer → Prop)) (ok : time → call → Prop)
    (run : list (time * call) → list answer) : Prop :=
  backend_allowed cs : Forall (λ nc, ok nc.1 nc.2) cs → allowed S spec_init cs (run cs).

(** Every call of the suite is one the backend serves. *)
Definition suite_ok (ok : time → call → Prop) (now : time) (clock : nat → time) : Prop :=
  Forall (λ t, Forall (λ nc, ok nc.1 nc.2) (imap (λ i s, (clock i, s.1)) t)) (suite now).

Lemma imap_calls (t : test) (f : nat → time) : (imap (λ i s, (f i, s.1)) t).*2 = t.*1.
Proof. revert f. induction t as [|s t IH]; intros f; [done|]. cbn. f_equal. apply (IH (λ i, f (Datatypes.S i))). Qed.

Lemma backend_conforms S ok run `{B : !Backend S ok run} now clock :
  (∀ t, t ∈ suite now → accepts S spec_init t) → suite_ok ok now clock → TestStorage now clock (mkCandidate true run) = true.
Proof.
  intros Ha Ho. apply forallb_forall. intros t Ht%list_elem_of_In. cbn. apply (Ha t Ht (imap (λ i s, (clock i, s.1)) t)); [apply imap_calls|].
  apply B. revert Ht. revert t. by apply Forall_forall.
Qed.

(** Calls that are fine at every time of [P]. *)
Lemma suite_ok_timeless (P : time → Prop) ok now clock :
  (∀ i, P (clock i)) → Forall (λ t : test, Forall (λ s, ∀ at_, P at_ → ok at_ s.1) t) (suite now) → suite_ok ok now clock.
Proof.
  intros Hc Hs. eapply Forall_impl; [exact Hs|]. intros t Ht. apply Forall_lookup. intros i nc. rewrite list_lookup_imap.
  intros (s & E & ->)%fmap_Some. cbn. rewrite Forall_lookup in Ht. by eapply Ht.
Qed.

Section Runs.
Context (it : iteration) (Hit : iteration_ok it).

Definition with_order (cs : list (time * call)) : list (time * iteration * call) := (λ nc, (nc.1, it, nc.2)) <$> cs.
Lemma without_order cs : (λ x, (x.1.1, x.2)) <$> with_order cs = cs.
Proof. unfold with_order. rewrite <- list_fmap_compose. rewrite <- (list_fmap_id cs) at 2. by apply list_fmap_ext; intros ? []. Qed.

Lemma spec_run_allowed a cs rs : spec_run a cs rs → allowed spec_call a cs rs.
Proof. revert a rs. induction cs as [|[now c] cs IH]; intros a [|r rs]; cbn; naive_solver. Qed.

#[export] Instance memory_backend : Backend spec_call (λ _ _, True) (λ cs, MemoryStorage.run MemoryStorage.New (with_order cs)).
Proof.
  intros cs _. apply spec_run_allowed. rewrite <- (without_order cs) at 1. apply MemoryStorage.run_refines; [apply New_refines|].
  by apply Forall_fmap, Forall_true.
Qed.

#[export] Instance file_backend owner host node : FileRefinement.naming owner host node →
  Backend spec_call (FileRefinement.call_ok owner host node) (λ cs, FileStorage.run fresh (with_order cs)).
Proof.
  intros N cs Hc. apply spec_run_allowed. rewrite <- (without_order cs) at 1.
  apply (file_run_refines _ _ _ _ _ _ N (fresh_refines _ _ _)). apply Forall_fmap. by eapply Forall_impl.
Qed.

#[export] Instance redis_backend {R} `{!Redis R} {contents : R → keyspace} `{!RedisLaws R contents} r :
  contents r = ∅ → Backend redis_spec RedisRefinement.call_ok (λ cs, RedisStorage.run r (with_order cs)).
Proof.
  intros Hr cs Hc. assert (Forall RedisRefinement.good (with_order cs)) as Hg by (apply Forall_fmap; by eapply Forall_impl).
  pose proof (proj1 (redis_run_rep r spec_init _ ltac:(rewrite Hr; apply redis_rep_empty) Hg)) as H. revert H. clear.
  generalize (RedisStorage.run r (with_order cs)) as rs, spec_init as a.
  induction cs as [|[now c] cs IH]; intros [|x rs] a; cbn; naive_solver.
Qed.
End Runs.

Lemma table_run_allowed `{Engine} a cs rs : table_run a cs rs → allowed table_spec a cs rs.
Proof. revert a rs. induction cs as [|[now c] cs IH]; intros a [|r rs]; cbn; naive_solver. Qed.

#[export] Instance sql_backend d `{Engine} {D} `{!Tables D} {contents : D → tables} `{!TablesLaws D (key_of d) contents} Error db :
  (∃ a b, Error RDuplicate = (a +:+ duplicate_words d +:+ b)%string) → count_changed = false → contents db = ∅ →
  Backend table_spec (call_ok (sql_variant Error) groups_ok) (answers_of (SqlStorage.exec Error) db).
Proof.
  intros He Hn Hd cs Hc. apply table_run_allowed.
  apply (run_rep (sql_variant Error) groups_ok (SqlStorage.exec Error) db cs); [by eapply sql_variant_ok| |done|done].
  intros. by rewrite sql_exec_is_store_call.
Qed.

#[export] Instance mongo_backend `{Engine} {D} `{!Tables D} {contents : D → tables} `{!TablesLaws D keys contents} db :
  contents db = ∅ → Backend table_spec (call_ok mongo_variant (λ _, True)) (answers_of MongoStorage.exec db).
Proof.
  intros Hd cs Hc. apply table_run_allowed.
  apply (run_rep mongo_variant (λ _, True) MongoStorage.exec db cs); [apply mongo_variant_ok| |done|done].
  apply mongo_exec_is_store_call.
Qed.

(** ** The names and values of the suite *)

Definition owners : list string := ["alice"; "bob"; alice_jid; bob_jid; "room@conference.example.com"]%string.
Definition hosts : list string := ["pubsub.example.com"]%string.
Definition nodes : list string := ["news"]%string.

Lemma suite_naming : FileRefinement.naming (λ x, x ∈ owners) (λ x, x ∈ hosts) (λ x, x ∈ nodes).
Proof.
  split.
  - apply NoDup_fmap_inj, (bool_decide_unpack _). by vm_compute.
  - apply Forall_forall. repeat constructor.
  - apply NoDup_fmap_inj, (bool_decide_unpack _). by vm_compute.
  - apply Forall_forall. by repeat constructor.
  - apply NoDup_fmap_inj, (bool_decide_unpack _). by vm_compute.
  - intros h n Hh Hn. revert n Hn. apply Forall_forall. revert h Hh. apply Forall_forall. by repeat constructor.
Qed.

(** Times JSON can carry: years 1 to 9999. *)
Definition dated (t : time) : Prop := year_ok t = true.

Lemma dated_stamp at_ t : dated at_ → dated t → dated (stamp at_ t).
Proof. unfold stamp. by case_match. Qed.

(** A call of the suite, split into its names, texts and times. *)
Ltac suite_calls := apply (suite_ok_timeless dated); [done|]; unfold suite;
  repeat (apply Forall_cons; split); try (by apply Forall_nil); intros ?at_ ?Hd; cbn;
  unfold User_ok, RosterItem_ok, Offline_ok, Archived_ok, Room_ok, Affiliation_ok, Node_ok, Item_ok, Subscription_ok, Bookmark_ok; cbn;
  repeat match goal with |- _ ∧ _ => split end; try (by apply dated_stamp); try assumption; try exact I.

Lemma file_suite now clock : dated now → dated (now + second) → (∀ i, dated (clock i)) →
  suite_ok (FileRefinement.call_ok (λ x, x ∈ owners) (λ x, x ∈ hosts) (λ x, x ∈ nodes)) now clock.
Proof.
  intros Hn Hs Hc. suite_calls.
  all: first [by left | apply (bool_decide_unpack _); by vm_compute].
Qed.

Lemma redis_suite now clock : dated now → dated (now + second) → (∀ i, dated (clock i)) →
  suite_ok RedisRefinement.call_ok now clock.
Proof. intros Hn Hs Hc. suite_calls. all: first [by left | apply (bool_decide_unpack _); by vm_compute]. Qed.

(** ** The backends pass *)

(** The stores as the suite is given them, each after its [Init]. *)
Definition memory_store (it : iteration) : candidate :=
  let '(s, x) := MemoryStorage.Init MemoryStorage.New in mkCandidate (is_ok x) (λ cs, MemoryStorage.run s (with_order it cs)).
Definition file_store (it : iteration) : candidate :=
  let '(s, x) := FileStorage.Init FileStorage.New in mkCandidate (is_ok x) (λ cs, FileStorage.run s (with_order it cs)).
Definition redis_store {R} `{!Redis R} (ping : R → bool) (it : iteration) (r : R) : candidate :=
  let '(r', x) := RedisStorage.Init ping r in mkCandidate (is_ok x) (λ cs, RedisStorage.run r' (with_order it cs)).
(** [Init] migrates the schema; [open] is the database that has a schema. *)
Definition sql_store {S D} `{!Tables D} (apply : migration → S → option S) (up : stage → bool) (open : S → D) (d : dialect)
    (Error : result → string) (s0 : S) : candidate :=
  let '(s, x) := Migrate apply true d up (mkM s0 ∅) in
  mkCandidate (is_ok x) (answers_of (SqlStorage.exec Error) (open (m_schema s))).
Definition mongo_store {S D} `{!Tables D} (CreateOne : string → list string → bool → S → S * bool) (open : S → D) (s0 : S) : candidate :=
  let '(s, x) := MongoStorage.Init CreateOne s0 in mkCandidate (is_ok x) (answers_of MongoStorage.exec (open s)).

Lemma create_indexes_ok {S} (f : string → list string → bool → S → S * bool) l s :
  (∀ c ks u s, (f c ks u s).2 = true) → (create_indexes f l s).2 = Ok tt.
Proof.
  intros Hf. revert s. induction l as [|[[c ks] u] l IH]; intros s; [done|]. cbn. specialize (Hf c ks u s).
  destruct (f c ks u s) as [s' ok]. cbn in Hf. subst ok. apply IH.
Qed.

(** C14: the backends that can be initialised pass the conformance suite, [Init]
    included, at any times JSON can carry: the in-memory store and the file store
    whatever the iteration order of Go's maps; the Redis store over an empty
    server that answers PING and behaves as documented; the SQL store on SQLite
    and PostgreSQL when the engine accepts the statements of the migrations, no
    stage of them fails, and the database, empty at first, behaves as documented,
    counts the rows an update finds and can hold the values the suite writes; the
    MongoDB store when every index can be created and the server, empty at first,
    behaves as documented and can hold those values.  (MySQL is not among them:
    its migrations do not pass, see [SqlExample.mysql_keys_too_long].) *)
Theorem backends_conform it now clock :
  iteration_ok it → dated now → dated (now + second) → (∀ i, dated (clock i)) →
  TestStorage now clock (memory_store it) = true ∧
  TestStorage now clock (file_store it) = true ∧
  (∀ (R : Type) `(!Redis R) (contents : R → keyspace) `(!RedisLaws R contents) (ping : R → bool) (r : R),
     contents r = ∅ → ping r = true → TestStorage now clock (redis_store ping it r) = true) ∧
  (∀ (d : dialect) `(Engine) (D : Type) `(!Tables D) (contents : D → tables) `(!TablesLaws D (key_of d) contents)
     (Error : result → string) (S : Type) (apply : migration → S → option S) (up : stage → bool) (open : S → D) (s0 sfin : S),
     d ≠ MySQL → (∃ a b, Error RDuplicate = (a +:+ duplicate_words d +:+ b)%string) → count_changed = false →
     apply_all apply (Migrations d) s0 = Some sfin → (∀ st, up st = true) → contents (open sfin) = ∅ →
     suite_ok (call_ok (sql_variant Error) groups_ok) now clock →
     TestStorage now clock (sql_store apply up open d Error s0) = true) ∧
  (∀ `(Engine) (D : Type) `(!Tables D) (contents : D → tables) `(!TablesLaws D keys contents)
     (S : Type) (CreateOne : string → list string → bool → S → S * bool) (open : S → D) (s0 : S),
     (∀ c ks u s, (CreateOne c ks u s).2 = true) → contents (open (MongoStorage.Init CreateOne s0).1) = ∅ →
     suite_ok (call_ok mongo_variant (λ _, True)) now clock →
     TestStorage now clock (mongo_store CreateOne open s0) = true).
Proof.
  intros Hit Hn Hs Hc. split; [|split; [|split; [|split]]].
  - eapply (backend_conforms _ _ _ (B := memory_backend it Hit)); [apply spec_accepts|].
    apply (suite_ok_timeless (λ _, True)); [done|]. apply Forall_true. intros t. by apply Forall_true.
  - unfold file_store. rewrite (surjective_pairing (FileStorage.Init FileStorage.New)).
    assert ((FileStorage.Init FileStorage.New).2 = Ok tt) as -> by (by vm_compute).
    eapply (backend_conforms _ _ _ (B := file_backend it Hit _ _ _ suite_naming)); [apply spec_accepts|by apply file_suite].
  - intros R HR contents HL ping r Hr Hp. unfold redis_store, RedisStorage.Init. rewrite Hp.
    eapply (backend_conforms _ _ _ (B := redis_backend it Hit r Hr)); [apply redis_accepts|by apply redis_suite].
  - intros d E D T contents HL Error S apply up open s0 sfin Hd He Hk Hfin Hup Hopen Ho. unfold sql_store.
    rewrite (Migrate_completes apply true s0 d ltac:(done) up 0 (mkM s0 ∅) sfin Hfin Hup (applied_none _ _ _ _)) by lia.
    eapply (backend_conforms _ _ _ (B := sql_backend d Error (open sfin) He Hk Hopen)); [apply table_accepts|done].
  - intros E D T contents HL S CreateOne open s0 Hidx Hopen Ho. unfold mongo_store.
    pose proof (create_indexes_ok CreateOne indexes s0 Hidx) as Hok. fold (MongoStorage.Init CreateOne s0) in Hok.
    destruct (MongoStorage.Init CreateOne s0) as [s x]. cbn in *. subst x.
    eapply (backend_conforms _ _ _ (B := mongo_backend (open s) Hopen)); [apply table_accepts|done].
Qed.

(** ** The suite, run *)

Module SuiteExample.

Definition it : iteration := mkIteration (λ V m, map_to_list m).
Lemma suite_it_ok : iteration_ok it.
Proof. intros V m. unfold iter_order, it, visit. reflexivity. Qed.

(** A day of 2018, and an engine with the precision of PostgreSQL. *)
Definition day : time := (737000 * 86400 * 10 ^ 9)%Z.
Definition clock (i : nat) : time := if (i <? 20)%nat then (day + Z.of_nat i * 1000)%Z else day.
#[local] Instance engine : Engine :=
  {| precise := λ t, (t / 1000 * 1000)%Z; text_lt := byte_lt; count_changed := false; storable := λ _, True |}.
Definition Error (y : result) : string :=
  match y with RDuplicate => "UNIQUE constraint failed: users.username" | _ => "database is locked" end%string.

Lemma clock_dated i : dated (clock i).
Proof.
  unfold clock. destruct (i <? 20)%nat eqn:E; [|by vm_compute]. apply Nat.ltb_lt in E.
  do 20 (destruct i as [|i]; [by vm_compute|]). lia.
Qed.

Lemma suite_served V g : V = sql_variant Error ∨ V = mongo_variant → g ["friends"%string] → suite_ok (call_ok V g) day clock.
Proof.
  intros HV Hg. apply (suite_ok_timeless (λ _, True)); [done|]. unfold suite.
  repeat (apply Forall_cons; split); try (by apply Forall_nil); intros at_ _; (split; [|done || exact Hg]).
  all: destruct HV as [-> | ->]; repeat constructor; done.
Qed.

(** An engine that accepts every migration, and one table of indexes. *)
Definition accepted (m : migration) (n : nat) : option nat := Some (S n).
Definition indexed (c : string) (ks : list string) (u : bool) (l : list string) : list string * bool := (c :: l, true).

Lemma backends_conform_witness :
  TestStorage day clock (memory_store it) = true ∧
  TestStorage day clock (file_store it) = true ∧
  TestStorage day clock (redis_store (λ _, true) it (∅ : keyspace)) = true ∧
  TestStorage day clock (@sql_store nat _ (@memory_tables engine (key_of SQLite)) accepted (λ _, true) (λ _, ∅) SQLite Error 0) = true ∧
  TestStorage day clock (@mongo_store (list string) _ (@memory_tables engine keys) indexed (λ _, ∅) []) = true.
Proof.
  pose proof (backends_conform it day clock suite_it_ok ltac:(by vm_compute) ltac:(by vm_compute) clock_dated) as (Hm & Hf & Hr & Hs & Hg).
  split; [exact Hm|]. split; [exact Hf|]. split; [exact (Hr keyspace _ id _ (λ _, true) ∅ eq_refl eq_refl)|]. split.
  - eapply (Hs SQLite engine tables _ id (memory_laws (key_of SQLite)) Error nat accepted (λ _, true) (λ _, ∅) 0); [done| |done|by vm_compute|done|done|].
    + by exists ""%string, ": users.username"%string.
    + apply suite_served; [by left|]. split; [by repeat constructor|done].
  - apply (Hg engine tables _ id (memory_laws keys) (list string) indexed (λ _, ∅) []); [done|done|]. apply suite_served; [by right|done].
Defined.
End SuiteExample.
