(* ===== verification/PluginStores.v ===== *)
(** * Plugins over a storage backend (src/plugins/roster, blocking, muc, vcard, pubsub, bookmarks, mam)

    These plugins pass their calls to the storage the server gives them, and
    some keep a map of their own when there is none.  A backend is anything that
    answers the calls of [Storage]; the theorems hold for every backend that
    implements the abstract storage machine, the in-memory and the file store
    among them. *)

From Stdlib Require Import Ascii String ZArith.
From S2P Require Import Prelude GoStrings Bytes Storage MemoryStorage StorageJson FileStorage FileRefinement.

Open Scope string_scope.
Open Scope list_scope.

(** ** Backends *)

Class Backend (S : Type) := bk_call : time → iteration → call → S → S * answer.

(** [ok] says which calls the backend takes without failing. *)
Class BackendLaws (S : Type) `{Backend S} (abs : S → spec → Prop) (ok : time → call → Prop) :=
  bk_sim now it c s a : iteration_ok it → ok now c → abs s a →
    abs (bk_call now it c s).1 (spec_call now c a).1 ∧ (spec_call now c a).2 (bk_call now it c s).2.

#[export] Instance memory_backend : Backend MemoryStorage.Store := MemoryStorage.exec.
#[export] Instance memory_backend_laws : BackendLaws MemoryStorage.Store MemoryStorage.refines (λ _ _, True).
Proof. intros now it c s a Hit _ R. by apply exec_simulates. Qed.

#[export] Instance file_backend : Backend FileStorage.Store := FileStorage.exec.
Lemma file_backend_laws owner host node :
  naming owner host node →
  BackendLaws FileStorage.Store (frefines owner host node) (call_ok owner host node).
Proof. intros N now it c s a Hit Hok R. by apply (fexec_simulates owner host node N now it s a Hit R c). Qed.

(** What a method returns for an answer of the store. *)
Inductive plugin_out (A : Type) := POk (a : A) | PErr (e : storage_error) | PFail | PPanic.
Arguments POk {A} a. Arguments PErr {A} e. Arguments PFail {A}. Arguments PPanic {A}.

Definition out_of {A} (f : answer → option A) (r : answer) : plugin_out A :=
  match r with
  | AErr e => PErr e
  | APanic => PPanic
  | _ => match f r with Some a => POk a | None => PFail end
  end.
Definition as_unit (r : answer) : option unit := match r with AUnit => Some tt | _ => None end.

(** ** Roster (plugins/roster) *)

Record Item := mkItemP { ri_JID : string; ri_Name : string; ri_Subscription : string; ri_Ask : string; ri_Groups : list string }.
#[export] Instance Item_eq_dec : EqDecision Item.
Proof. solve_decision. Defined.

(** [rp_items] is the fallback map, nil until [Initialize]; [rp_store] whether
    there is a store. *)
Record RosterPlugin := mkRosterP { rp_items : option (gmap string Item); rp_ver : string; rp_store : bool; rp_local : string }.
Definition roster_New : RosterPlugin := mkRosterP None "" false "".
Definition roster_Initialize (storage : bool) (local : string) (p : RosterPlugin) : RosterPlugin :=
  mkRosterP (if storage then rp_items p else Some ∅) (rp_ver p) storage local.

Definition rosterItemToItem (ri : RosterItem) : Item :=
  mkItemP (ContactJID ri) (r_Name ri) (Subscription ri) (Ask ri) (Groups ri).
Definition item_of (user : string) (i : Item) : RosterItem :=
  mkRosterItem user (ri_JID i) (ri_Name i) (ri_Subscription i) (ri_Ask i) (ri_Groups i).

Section Plugins.
Context {S : Type} `{Backend S}.
Variables (now : time) (it : iteration).

Definition roster_Set (item : Item) (p : RosterPlugin) (s : S) : RosterPlugin * S * plugin_out unit :=
  if rp_store p then
    let '(s', r) := bk_call now it (CUpsertRosterItem (item_of (rp_local p) item)) s in (p, s', out_of as_unit r)
  else match rp_items p with
       | None => (p, s, PPanic)
       | Some m => (mkRosterP (Some (<[ri_JID item := item]> m)) (rp_ver p) (rp_store p) (rp_local p), s, POk tt)
       end.

Definition roster_Remove (jid : string) (p : RosterPlugin) (s : S) : RosterPlugin * S * plugin_out unit :=
  if rp_store p then
    let '(s', r) := bk_call now it (CDeleteRosterItem (rp_local p) jid) s in (p, s', out_of as_unit r)
  else (mkRosterP (delete jid <$> rp_items p) (rp_ver p) (rp_store p) (rp_local p), s, POk tt).

Definition roster_Get (jid : string) (p : RosterPlugin) (s : S) : RosterPlugin * S * plugin_out (option Item) :=
  if rp_store p then
    let '(s', r) := bk_call now it (CGetRosterItem (rp_local p) jid) s in
    (p, s', match r with
            | AErr ErrNotFound => POk None
            | _ => out_of (λ r, match r with ARoster ri => Some (Some (rosterItemToItem ri)) | _ => None end) r
            end)
  else (p, s, POk (rp_items p ≫= λ m, m !! jid)).

Definition roster_Items (p : RosterPlugin) (s : S) : RosterPlugin * S * plugin_out (list Item) :=
  if rp_store p then
    let '(s', r) := bk_call now it (CGetRosterItems (rp_local p)) s in
    (p, s', out_of (λ r, match r with ARosters l => Some (map rosterItemToItem l) | _ => None end) r)
  else (p, s, POk match rp_items p with Some m => (visit it m).*2 | None => [] end).

Definition roster_SetVersion (ver : string) (p : RosterPlugin) (s : S) : RosterPlugin * S * plugin_out unit :=
  if rp_store p then
    let '(s', r) := bk_call now it (CSetRosterVersion (rp_local p) ver) s in (p, s', out_of as_unit r)
  else (mkRosterP (rp_items p) ver (rp_store p) (rp_local p), s, POk tt).
End Plugins.

(** *** A private map

    What the plugin promises its user: a map from contacts to items.  [missing]
    is the answer to the removal of a contact that is not there. *)
Inductive roster_op := RSet (i : Item) | RRemove (jid : string) | RGet (jid : string) | RItems | RSetVersion (ver : string).
Inductive roster_out := OUnit (r : plugin_out unit) | OItem (r : plugin_out (option Item)) | OItems (r : plugin_out (list Item)).

Definition roster_spec (missing : plugin_out unit) (o : roster_op) (m : gmap string Item)
    : gmap string Item * (roster_out → Prop) :=
  match o with
  | RSet i => (<[ri_JID i := i]> m, eq (OUnit (POk tt)))
  | RRemove j => (delete j m, eq (OUnit (if bool_decide (is_Some (m !! j)) then POk tt else missing)))
  | RGet j => (m, eq (OItem (POk (m !! j))))
  | RItems => (m, λ r, ∃ l, r = OItems (POk l) ∧ lists (λ j, m !! j) l)
  | RSetVersion _ => (m, eq (OUnit (POk tt)))
  end.

(** One step of a session: a method of the plugin, or a call by somebody else to
    the store. *)
Inductive roster_event := Own (now : time) (it : iteration) (o : roster_op) | Other (now : time) (it : iteration) (c : call).

(** Calls that leave the roster of [user] alone. *)
Definition foreign (user : string) (c : call) : Prop :=
  match c with
  | CUpsertRosterItem i => r_UserJID i ≠ user
  | CDeleteRosterItem u _ => u ≠ user
  | _ => True
  end.

Section Run.
Context {S : Type} `{Backend S}.

Definition roster_exec (now : time) (it : iteration) (o : roster_op) (p : RosterPlugin) (s : S) : RosterPlugin * S * roster_out :=
  match o with
  | RSet i => let '(p, s, r) := roster_Set now it i p s in (p, s, OUnit r)
  | RRemove j => let '(p, s, r) := roster_Remove now it j p s in (p, s, OUnit r)
  | RGet j => let '(p, s, r) := roster_Get now it j p s in (p, s, OItem r)
  | RItems => let '(p, s, r) := roster_Items now it p s in (p, s, OItems r)
  | RSetVersion v => let '(p, s, r) := roster_SetVersion now it v p s in (p, s, OUnit r)
  end.

Fixpoint roster_run (p : RosterPlugin) (s : S) (es : list roster_event) : list roster_out :=
  match es with
  | [] => []
  | Own now it o :: es' => let '(p', s', r) := roster_exec now it o p s in r :: roster_run p' s' es'
  | Other now it c :: es' => roster_run p (bk_call now it c s).1 es'
  end.

Fixpoint roster_allows (missing : plugin_out unit) (m : gmap string Item) (es : list roster_event) (rs : list roster_out) : Prop :=
  match es with
  | [] => rs = []
  | Own _ _ o :: es' => ∃ r rs', rs = r :: rs' ∧ (roster_spec missing o m).2 r ∧ roster_allows missing (roster_spec missing o m).1 es' rs'
  | Other _ _ _ :: es' => roster_allows missing m es' rs
  end.
End Run.

(** The call an operation makes to the store. *)
Definition roster_call (local : string) (o : roster_op) : call :=
  match o with
  | RSet i => CUpsertRosterItem (item_of local i)
  | RRemove j => CDeleteRosterItem local j
  | RGet j => CGetRosterItem local j
  | RItems => CGetRosterItems local
  | RSetVersion v => CSetRosterVersion local v
  end.

Definition roster_event_ok (ok : time → call → Prop) (local : string) (e : roster_event) : Prop :=
  match e with
  | Own now it o => iteration_ok it ∧ ok now (roster_call local o)
  | Other now it c => iteration_ok it ∧ ok now c ∧ foreign local c
  end.

(** The roster the store has for [local]. *)
Definition roster_of (a : spec) (local : string) (m : gmap string Item) : Prop :=
  ∀ j, m !! j = rosterItemToItem <$> sp_roster a !! (local, j).

Lemma item_roundtrip u i : rosterItemToItem (item_of u i) = i.
Proof. by destruct i. Qed.

Lemma lists_fmap {V W} (g : V → W) (f : string → option V) (f' : string → option W) l :
  (∀ k, f' k = g <$> f k) → lists f l → lists f' (map g l).
Proof.
  intros Hf (kl & -> & Hnd & Hkl). exists (prod_map id g <$> kl). split; [|split].
  - rewrite <- list_fmap_compose. change (map g kl.*2) with (g <$> kl.*2). rewrite <- list_fmap_compose. done.
  - rewrite <- list_fmap_compose. done.
  - intros k w. rewrite Hf, fmap_Some, list_elem_of_fmap. split.
    + intros ([k' v] & [= -> ->] & Hin). exists v. split; [by apply Hkl|done].
    + intros (v & Hv & ->). exists (k, v). split; [done|by apply Hkl].
Qed.

Lemma foreign_roster now c a local m : foreign local c → roster_of a local m → roster_of (spec_call now c a).1 local m.
Proof.
  intros Hf Hm j. rewrite (Hm j).
  destruct c; cbn [spec_call fst]; unfold on_entry; repeat case_match; cbn [fst sp_roster]; try done;
    unfold put_roster; cbn [sp_roster]; cbn in Hf.
  - rewrite lookup_insert_ne; [done|]. intros [=]. congruence.
  - rewrite lookup_delete_ne; [done|]. intros [=]. congruence.
Qed.

Section RosterProof.
Context {S : Type} `{BackendLaws S abs ok}.

Lemma roster_store_step now it o p s a m :
  rp_store p = true → iteration_ok it → ok now (roster_call (rp_local p) o) → abs s a → roster_of a (rp_local p) m →
  let '(p', s', r) := roster_exec now it o p s in
  p' = p ∧ (roster_spec (PErr ErrNotFound) o m).2 r ∧
  ∃ a', abs s' a' ∧ roster_of a' (rp_local p) (roster_spec (PErr ErrNotFound) o m).1.
Proof.
  intros Hp Hit Hok Ha Hm. destruct (bk_sim now it (roster_call (rp_local p) o) s a Hit Hok Ha) as [Hs Hr].
  destruct o as [i|j|j| |v]; cbn [roster_exec roster_call] in *; unfold roster_Set, roster_Remove, roster_Get, roster_Items, roster_SetVersion;
    rewrite Hp; destruct (bk_call _ _ _ s) as [s' r]; cbn [fst snd spec_call] in *.
  - unfold answers in Hr. subst r. split; [done|]. split; [done|]. eexists. split; [exact Hs|].
    intros j. cbn [roster_spec fst]. cbn. destruct (decide (ri_JID i = j)) as [<-|Hne].
    + by rewrite !lookup_insert_eq, <- (item_roundtrip (rp_local p) i) at 1.
    + rewrite !lookup_insert_ne by congruence. apply Hm.
  - unfold on_entry in *. assert (is_Some (m !! j) ↔ is_Some (sp_roster a !! (rp_local p, j))) as E by (by rewrite Hm, fmap_is_Some).
    split; [done|]. destruct (sp_roster a !! (rp_local p, j)) as [x|] eqn:Ex; cbn [fst snd] in *; unfold answers in Hr; subst r.
    + split; [cbn; by rewrite bool_decide_true by (apply E; eauto)|]. eexists. split; [exact Hs|]. intros k. cbn.
      destruct (decide (j = k)) as [<-|Hne]; [by rewrite !lookup_delete_eq|]. rewrite !lookup_delete_ne by congruence. apply Hm.
    + split; [cbn; by rewrite bool_decide_false by (intros [? ?]%E; done)|]. exists a. split; [done|]. intros k. cbn.
      destruct (decide (j = k)) as [<-|Hne]; [by rewrite lookup_delete_eq, Ex|]. rewrite lookup_delete_ne by done. apply Hm.
  - unfold or_missing, answers in Hr. split; [done|]. split; [|by exists a].
    cbn. rewrite Hm. destruct (sp_roster a !! (rp_local p, j)); by subst r.
  - destruct Hr as (l & -> & Hl). split; [done|]. split; [|by exists a]. cbn. eexists. split; [done|].
    eapply lists_fmap; [|exact Hl]. intros k. apply Hm.
  - unfold answers in Hr. subst r. split; [done|]. split; [done|]. eexists. split; [exact Hs|]. exact Hm.
Qed.

Lemma roster_store_run es p s a m :
  rp_store p = true → Forall (roster_event_ok ok (rp_local p)) es → abs s a → roster_of a (rp_local p) m →
  roster_allows (PErr ErrNotFound) m es (roster_run p s es).
Proof.
  intros Hp Hes. revert s a m. induction Hes as [|e es He _ IH]; intros s a m Ha Hm; [done|].
  destruct e as [now it o|now it c]; cbn [roster_run roster_allows roster_event_ok] in *.
  - destruct He as [Hit Hok]. pose proof (roster_store_step now it o p s a m Hp Hit Hok Ha Hm) as Hst.
    destruct (roster_exec now it o p s) as [[p' s'] r]. destruct Hst as (-> & Hr & a' & Ha' & Hm').
    exists r, (roster_run p s' es). split; [done|]. split; [done|]. by eapply IH.
  - destruct He as (Hit & Hok & Hf). destruct (bk_sim now it c s a Hit Hok Ha) as [Hs _].
    eapply IH; [exact Hs|]. by apply foreign_roster.
Qed.
End RosterProof.

Lemma roster_fallback_run {S} `{Backend S} es p (s : S) m :
  rp_store p = false → rp_items p = Some m → Forall (λ e, match e with Own _ it _ | Other _ it _ => iteration_ok it end) es →
  roster_allows (POk tt) m es (roster_run p s es).
Proof.
  intros Hp Hm Hes. revert p s m Hp Hm. induction Hes as [|e es He _ IH]; intros p s m Hp Hm; [done|].
  destruct e as [now it o|now it c]; cbn [roster_run roster_allows]; [|by apply IH].
  destruct o; cbn [roster_exec]; unfold roster_Set, roster_Remove, roster_Get, roster_Items, roster_SetVersion; rewrite Hp, ?Hm; cbn;
    do 2 eexists; (split; [done|]).
  - split; [done|]. by apply IH.
  - split; [by destruct (bool_decide _)|]. by apply IH.
  - split; [done|]. by apply IH.
  - split; [|by apply IH]. eexists. split; [done|]. by apply visit_lists.
  - split; [done|]. by apply IH.
Qed.

(** C20: a roster plugin is a private map, with or without a store.  Over any
    lawful backend, while other users make any calls to the same store in
    between, a plugin for [local] answers every sequence of its methods as a map
    from contacts to items does, starting from the roster the store has for that
    user; without a store it does the same with its own map.  The two modes
    differ in one answer only: removing a contact that is not there is an error
    of the store and silently accepted without one. *)
Theorem roster_private_map {S} `{BackendLaws S abs ok} es p (s : S) a m :
  Forall (roster_event_ok ok (rp_local p)) es → abs s a → roster_of a (rp_local p) m →
  roster_allows (PErr ErrNotFound) m es (roster_run (roster_Initialize true (rp_local p) p) s es) ∧
  roster_allows (POk tt) ∅ es (roster_run (roster_Initialize false (rp_local p) p) s es).
Proof.
  intros Hes Ha Hm. split.
  - by eapply roster_store_run.
  - apply roster_fallback_run; [done..|]. eapply Forall_impl; [exact Hes|]. intros [] Hx; apply Hx.
Qed.

Module RosterExample.
Import MemoryExample.
Definition alice : RosterPlugin := roster_Initialize true "alice@example.org" roster_New.
Definition bob_item : Item := mkItemP "bob@example.org" "Bob" "both" "" ["friends"].
Definition events : list roster_event :=
  [Own 1 it (RSet bob_item); Other 2 it (CUpsertRosterItem (item_of "carol@example.org" bob_item));
   Own 3 it (RGet "bob@example.org"); Own 4 it (RRemove "bob@example.org"); Own 5 it (RRemove "bob@example.org");
   Other 6 it (CDeleteRosterItem "carol@example.org" "bob@example.org"); Own 7 it RItems].

Lemma roster_private_map_witness :
  roster_allows (PErr ErrNotFound) ∅ events (roster_run alice MemoryStorage.New events) ∧
  roster_run alice MemoryStorage.New events =
    [OUnit (POk tt); OItem (POk (Some bob_item)); OUnit (POk tt); OUnit (PErr ErrNotFound); OItems (POk [])].
Proof.
  split; [|by vm_compute].
  refine (proj1 (roster_private_map (abs := MemoryStorage.refines) (ok := λ _ _, True) events alice MemoryStorage.New spec_init ∅ _
            New_refines _)).
  - repeat constructor; try apply it_ok; done.
  - intros j. cbn. by rewrite !lookup_empty.
Defined.

(** Before [Initialize] the fallback map is nil. *)
Example set_before_initialize_panics : (roster_Set 0 it bob_item roster_New MemoryStorage.New).2 = PPanic.
Proof. done. Qed.
End RosterExample.

(** ** Blocking (plugins/blocking) *)

Record BlockingPlugin := mkBlocking { bp_blocked : option (gmap string bool); bp_store : bool; bp_local : string }.
Definition blocking_New : BlockingPlugin := mkBlocking None false "".
Definition blocking_Initialize (storage : bool) (local : string) (p : BlockingPlugin) : BlockingPlugin :=
  mkBlocking (if storage then bp_blocked p else Some ∅) storage local.

Section Blocking.
Context {S : Type} `{Backend S}.
Variables (now : time) (it : iteration).

Definition blocking_IsBlocked (jid : string) (p : BlockingPlugin) (s : S) : S * plugin_out bool :=
  if bp_store p then
    let '(s', r) := bk_call now it (CIsBlocked (bp_local p) jid) s in
    (s', out_of (λ r, match r with ABool b => Some b | _ => None end) r)
  else (s, POk (default false (bp_blocked p ≫= λ m, m !! jid))).

Definition blocking_BlockJID (jid : string) (p : BlockingPlugin) (s : S) : BlockingPlugin * S * plugin_out unit :=
  if bp_store p then
    let '(s', r) := bk_call now it (CBlockJID (bp_local p) jid) s in (p, s', out_of as_unit r)
  else match bp_blocked p with
       | None => (p, s, PPanic)
       | Some m => (mkBlocking (Some (<[jid := true]> m)) (bp_store p) (bp_local p), s, POk tt)
       end.

Definition blocking_UnblockJID (jid : string) (p : BlockingPlugin) (s : S) : BlockingPlugin * S * plugin_out unit :=
  if bp_store p then
    let '(s', r) := bk_call now it (CUnblockJID (bp_local p) jid) s in (p, s', out_of as_unit r)
  else (mkBlocking (delete jid <$> bp_blocked p) (bp_store p) (bp_local p), s, POk tt).

Definition BlockedList (p : BlockingPlugin) (s : S) : S * plugin_out (list string) :=
  if bp_store p then
    let '(s', r) := bk_call now it (CGetBlockedJIDs (bp_local p)) s in
    (s', out_of (λ r, match r with AStrs l => Some l | _ => None end) r)
  else (s, POk match bp_blocked p with Some m => (visit it m).*1 | None => [] end).
End Blocking.

(** ** Multi-user chat (plugins/muc) *)

Record Room := mkRoomP { rm_JID : string; rm_Nick : string; rm_Joined : bool }.
Record MucPlugin := mkMuc { mp_rooms : option (gmap string Room); mp_store : bool }.
Definition muc_New : MucPlugin := mkMuc None false.
Definition muc_Initialize (storage : bool) (p : MucPlugin) : MucPlugin := mkMuc (if storage then mp_rooms p else Some ∅) storage.

Definition with_name (nick : string) (r : MUCRoom) : MUCRoom :=
  mkRoom (m_RoomJID r) nick (Description r) (Subject r) (m_Password r) (Public r) (Persistent r) (MaxUsers r).
Definition room_view (r : MUCRoom) : Room := mkRoomP (m_RoomJID r) (m_Name r) true.

Section Muc.
Context {S : Type} `{Backend S}.
Variables (now : time) (it : iteration).

Definition JoinRoom (roomJID nick : string) (p : MucPlugin) (s : S) : MucPlugin * S * plugin_out unit :=
  if mp_store p then
    let '(s, r) := bk_call now it (CGetRoom roomJID) s in
    match r with
    | AErr ErrNotFound =>
        let '(s, r) := bk_call now it (CCreateRoom (mkRoom roomJID nick "" "" "" false false 0)) s in (p, s, out_of as_unit r)
    | ARoom room => let '(s, r) := bk_call now it (CUpdateRoom (with_name nick room)) s in (p, s, out_of as_unit r)
    | _ => (p, s, out_of as_unit r)
    end
  else match mp_rooms p with
       | None => (p, s, PPanic)
       | Some m => (mkMuc (Some (<[roomJID := mkRoomP roomJID nick true]> m)) (mp_store p), s, POk tt)
       end.

Definition LeaveRoom (roomJID : string) (p : MucPlugin) (s : S) : MucPlugin * S * plugin_out unit :=
  if mp_store p then
    let '(s, r) := bk_call now it (CDeleteRoom roomJID) s in (p, s, out_of as_unit r)
  else (mkMuc (delete roomJID <$> mp_rooms p) (mp_store p), s, POk tt).

Definition muc_GetRoom (roomJID : string) (p : MucPlugin) (s : S) : S * plugin_out (option Room) :=
  if mp_store p then
    let '(s, r) := bk_call now it (CGetRoom roomJID) s in
    (s, match r with
        | AErr ErrNotFound => POk None
        | _ => out_of (λ r, match r with ARoom room => Some (Some (room_view room)) | _ => None end) r
        end)
  else (s, POk (mp_rooms p ≫= λ m, m !! roomJID)).

Definition Rooms (p : MucPlugin) (s : S) : S * plugin_out (list Room) :=
  if mp_store p then
    let '(s, r) := bk_call now it CListRooms s in
    (s, out_of (λ r, match r with ARooms l => Some (map room_view l) | _ => None end) r)
  else (s, POk match mp_rooms p with Some m => (visit it m).*2 | None => [] end).
End Muc.

(** ** Plugins that only pass on: vcard, pubsub, bookmarks, mam

    Without a store every method returns the zero value and no error. *)
Section PassOn.
Context {S : Type} `{Backend S}.
Variables (now : time) (it : iteration) (store : bool).

Definition pass_on {A} (zero : A) (f : answer → option A) (c : call) (s : S) : S * plugin_out A :=
  if store then let '(s', r) := bk_call now it c s in (s', out_of f r) else (s, POk zero).

Definition vcard_GetVCard (userJID : string) : S → S * plugin_out bytes :=
  pass_on [] (λ r, match r with ABytes b => Some b | _ => None end) (CGetVCard userJID).
Definition vcard_SetVCard (userJID : string) (data : bytes) : S → S * plugin_out unit := pass_on tt as_unit (CSetVCard userJID data).
Definition vcard_DeleteVCard (userJID : string) : S → S * plugin_out unit := pass_on tt as_unit (CDeleteVCard userJID).

Definition pubsub_CreateNode (n : PubSubNode) : S → S * plugin_out unit := pass_on tt as_unit (CCreateNode n).
Definition pubsub_GetNode (host nodeID : string) : S → S * plugin_out (option PubSubNode) :=
  pass_on None (λ r, match r with ANode n => Some (Some n) | _ => None end) (CGetNode host nodeID).
Definition pubsub_DeleteNode (host nodeID : string) : S → S * plugin_out unit := pass_on tt as_unit (CDeleteNode host nodeID).
Definition pubsub_ListNodes (host : string) : S → S * plugin_out (list PubSubNode) :=
  pass_on [] (λ r, match r with ANodes l => Some l | _ => None end) (CListNodes host).
Definition PublishItem (i : PubSubItem) : S → S * plugin_out unit := pass_on tt as_unit (CUpsertItem i).
Definition pubsub_GetItems (host nodeID : string) : S → S * plugin_out (list PubSubItem) :=
  pass_on [] (λ r, match r with AItems l => Some l | _ => None end) (CGetItems host nodeID).
Definition pubsub_DeleteItem (host nodeID itemID : string) : S → S * plugin_out unit := pass_on tt as_unit (CDeleteItem host nodeID itemID).
Definition SubscribeNode (sub : PubSubSubscription) : S → S * plugin_out unit := pass_on tt as_unit (CSubscribe sub).
Definition UnsubscribeNode (host nodeID jid : string) : S → S * plugin_out unit := pass_on tt as_unit (CUnsubscribe host nodeID jid).
Definition pubsub_GetSubscriptions (host nodeID : string) : S → S * plugin_out (list PubSubSubscription) :=
  pass_on [] (λ r, match r with ASubs l => Some l | _ => None end) (CGetSubscriptions host nodeID).

Definition bookmarks_Set (bm : Bookmark) : S → S * plugin_out unit := pass_on tt as_unit (CSetBookmark bm).
Definition bookmarks_Get (userJID roomJID : string) : S → S * plugin_out (option Bookmark) :=
  pass_on None (λ r, match r with ABookmark b => Some (Some b) | _ => None end) (CGetBookmark userJID roomJID).
Definition bookmarks_List (userJID : string) : S → S * plugin_out (list Bookmark) :=
  pass_on [] (λ r, match r with ABookmarks l => Some l | _ => None end) (CGetBookmarks userJID).
Definition bookmarks_Delete (userJID roomJID : string) : S → S * plugin_out unit := pass_on tt as_unit (CDeleteBookmark userJID roomJID).

Definition StoreMessage (msg : ArchivedMessage) : S → S * plugin_out unit := pass_on tt as_unit (CArchiveMessage msg).
Definition mam_QueryMessages (q : MAMQuery) : S → S * plugin_out MAMResult :=
  pass_on (mkMAMResult [] true "" "" 0) (λ r, match r with AMAM m => Some m | _ => None end) (CQueryMessages q).
End PassOn.

(** ** Rooms are shared *)

Section SharedRooms.
Context {S : Type} `{BackendLaws S abs ok}.

Lemma room_found now it room p s a :
  mp_store p = true → iteration_ok it → ok now (CGetRoom room) → abs s a →
  abs (muc_GetRoom now it room p s).1 a ∧ (muc_GetRoom now it room p s).2 = POk (room_view <$> sp_rooms a !! room).
Proof.
  intros Hp Hit Hok Ha. destruct (bk_sim now it (CGetRoom room) s a Hit Hok Ha) as [Hs Hr].
  unfold muc_GetRoom. rewrite Hp. destruct (bk_call _ _ _ s) as [s' r]. cbn [fst snd spec_call] in *.
  split; [done|]. unfold or_missing, answers in Hr. by destruct (sp_rooms a !! room); subst r.
Qed.

(** Joining an existing room renames it. *)
Lemma JoinRoom_renames now it room nick p s a r :
  mp_store p = true → iteration_ok it → ok now (CGetRoom room) → (∀ r', ok now (CUpdateRoom (with_name nick r'))) →
  abs s a → sp_rooms a !! room = Some r → m_RoomJID r = room →
  let '(p', s', out) := JoinRoom now it room nick p s in
  p' = p ∧ out = POk tt ∧ ∃ a', abs s' a' ∧ sp_rooms a' = <[room := with_name nick r]> (sp_rooms a) ∧ sp_affs a' = sp_affs a.
Proof.
  intros Hp Hit Hok Hok' Ha Hr HJ. destruct (bk_sim now it (CGetRoom room) s a Hit Hok Ha) as [Hs Hg].
  unfold JoinRoom. rewrite Hp. destruct (bk_call _ _ _ s) as [s1 r1]. cbn [fst snd spec_call] in *.
  unfold or_missing, answers in Hg. rewrite Hr in Hg. subst r1.
  destruct (bk_sim now it (CUpdateRoom (with_name nick r)) s1 a Hit (Hok' r) Hs) as [Hs2 Hu].
  destruct (bk_call _ _ _ s1) as [s2 r2]. cbn [fst snd spec_call with_name m_RoomJID] in *. rewrite HJ in *.
  unfold on_entry in *. rewrite Hr in *. cbn [fst snd] in *. unfold answers in Hu. subst r2.
  split; [done|]. split; [done|]. eexists. split; [exact Hs2|]. done.
Qed.

(** Leaving a room destroys it for everybody.  With a store the plugin keeps
    no membership of its own: [LeaveRoom] of any occupant deletes the room of
    the shared store together with all its affiliations, after which every other
    plugin over the store, whoever it belongs to, finds no room. *)
Theorem leaving_destroys_room now it room p q s a r :
  mp_store p = true → mp_store q = true → iteration_ok it → ok now (CDeleteRoom room) → ok now (CGetRoom room) →
  abs s a → sp_rooms a !! room = Some r →
  let '(p', s', out) := LeaveRoom now it room p s in
  out = POk tt ∧ (muc_GetRoom now it room q s').2 = POk None ∧
  ∃ a', abs s' a' ∧ sp_rooms a' = delete room (sp_rooms a) ∧ ∀ u, sp_affs a' !! (room, u) = None.
Proof.
  intros Hp Hq Hit Hokd Hokg Ha Hr. destruct (bk_sim now it (CDeleteRoom room) s a Hit Hokd Ha) as [Hs Hd].
  unfold LeaveRoom. rewrite Hp. destruct (bk_call _ _ _ s) as [s1 r1]. cbn [fst snd spec_call] in *.
  unfold on_entry in *. rewrite Hr in *. cbn [fst snd] in *. unfold answers in Hd. subst r1.
  split; [done|]. split.
  - destruct (room_found now it room q s1 _ Hq Hit Hokg Hs) as [_ ->]. cbn. by rewrite lookup_delete_eq.
  - eexists. split; [exact Hs|]. split; [done|]. intros u. cbn. apply map_lookup_filter_None. right. by intros x _ [].
Qed.
End SharedRooms.

Module MucExample.
Import MemoryExample.
Definition room : string := "lounge@conference.example.org".
Definition joined : MemoryStorage.Store :=
  (JoinRoom 1 it room "alice" (muc_Initialize true muc_New) MemoryStorage.New).1.2.
Definition abstract : spec := (spec_call 1 (CCreateRoom (mkRoom room "alice" "" "" "" false false 0)) spec_init).1.

Lemma joined_refines : MemoryStorage.refines joined abstract.
Proof.
  exact (proj1 (exec_simulates 1 it MemoryStorage.New spec_init
    (CCreateRoom (mkRoom room "alice" "" "" "" false false 0)) it_ok New_refines)).
Qed.

Lemma leaving_destroys_room_witness :
  (muc_GetRoom 2 it room (muc_Initialize true muc_New) joined).2 = POk (Some (mkRoomP room "alice" true)) ∧
  (muc_GetRoom 2 it room (muc_Initialize true muc_New) (LeaveRoom 2 it room (muc_Initialize true muc_New) joined).1.2).2 = POk None.
Proof.
  split; [by vm_compute|].
  pose proof (leaving_destroys_room (abs := MemoryStorage.refines) (ok := λ _ _, True) 2 it room (muc_Initialize true muc_New)
    (muc_Initialize true muc_New) joined abstract (mkRoom room "alice" "" "" "" false false 0)
    eq_refl eq_refl it_ok I I joined_refines eq_refl) as Hl.
  destruct (LeaveRoom 2 it room (muc_Initialize true muc_New) joined) as [[p' s'] out]. exact (proj1 (proj2 Hl)).
Defined.
End MucExample.
