(* ===== verification/Stanza.v ===== *)
(** * Stanzas: package [stanza] (src/stanza/) and stream headers (src/stream/)

    The three stanza types with their constructors, how [encoding/xml] fills
    them from an element and writes them back (the struct tags and the
    hand-written [MarshalXML] methods), stanza and stream errors, and the stream
    header.  The [XMLName] fields of [IQ], [Message], [Presence] and
    [StanzaError] are write-only in the program and are left out; the one of
    [Header], which the multiplexer reads, is kept. *)

From Stdlib Require Import Ascii String.
From S2P Require Import Prelude GoStrings Xml Jid.

Open Scope string_scope.
Open Scope list_scope.

(** Namespaces (src/internal/ns/ns.go). *)
Definition ns_Client := "jabber:client".
Definition ns_Stream := "http://etherx.jabber.org/streams".
Definition ns_Streams := "urn:ietf:params:xml:ns:xmpp-streams".
Definition ns_TLS := "urn:ietf:params:xml:ns:xmpp-tls".
Definition ns_SASL := "urn:ietf:params:xml:ns:xmpp-sasl".
Definition ns_Bind := "urn:ietf:params:xml:ns:xmpp-bind".
Definition ns_Stanzas := "urn:ietf:params:xml:ns:xmpp-stanzas".
Definition ns_DataForms := "jabber:x:data".
Definition ns_Register := "jabber:iq:register".

(** ** Data *)

Record Header := mkHeader {
  h_XMLName : Name; h_ID : string; h_From : JID; h_To : JID; h_Type : string; h_Lang : string }.

Record StanzaError := mkStanzaError {
  e_Type : string; e_By : string; e_Condition : string; e_Text : string }.

(** [x_Inner] stands for the bytes of the [innerxml] field. *)
Record Extension := mkExtension {
  x_XMLName : Name; x_Inner : list node; x_Attrs : list Attr }.

Record IQ := mkIQ { iq_Header : Header; iq_Query : list node; iq_Error : option StanzaError }.

Record Message := mkMessage {
  m_Header : Header; m_Subject : string; m_Body : string; m_Thread : string;
  m_Error : option StanzaError; m_Extensions : list Extension }.

Record Presence := mkPresence {
  p_Header : Header; p_Show : string; p_Status : string; p_Priority : Z;
  p_Error : option StanzaError; p_Extensions : list Extension }.

(** The [Stanza] interface: its three implementations. *)
Inductive Stanza := SIQ (iq : IQ) | SMessage (m : Message) | SPresence (p : Presence).

Definition StanzaType (st : Stanza) : string :=
  match st with SIQ _ => "iq" | SMessage _ => "message" | SPresence _ => "presence" end.
Definition GetHeader (st : Stanza) : Header :=
  match st with SIQ q => iq_Header q | SMessage m => m_Header m | SPresence p => p_Header p end.

Definition IQGet := "get".
Definition IQSet := "set".
Definition IQResult := "result".
Definition IQError := "error".

(** Field accesses through the embedded header. *)
Definition iq_ID (iq : IQ) := h_ID (iq_Header iq).
Definition iq_Type (iq : IQ) := h_Type (iq_Header iq).
Definition iq_From (iq : IQ) := h_From (iq_Header iq).
Definition iq_To (iq : IQ) := h_To (iq_Header iq).

Definition set_From (j : JID) (h : Header) : Header :=
  mkHeader (h_XMLName h) (h_ID h) j (h_To h) (h_Type h) (h_Lang h).

(** ** Constructors; [rnd] is what [rand.Read] fills the buffer with *)

Definition GenerateID (rnd : list ascii) : string := hex_encode rnd.

Definition new_header (local typ : string) (rnd : list ascii) : Header :=
  mkHeader (mkName ns_Client local) (GenerateID rnd) JID_zero JID_zero typ "".

Definition NewIQ (typ : string) (rnd : list ascii) : IQ := mkIQ (new_header "iq" typ rnd) [] None.
Definition NewMessage (typ : string) (rnd : list ascii) : Message :=
  mkMessage (new_header "message" typ rnd) "" "" "" None [].
Definition NewPresence (typ : string) (rnd : list ascii) : Presence :=
  mkPresence (new_header "presence" typ rnd) "" "" 0 None [].

Definition ResultIQ (iq : IQ) : IQ :=
  mkIQ (mkHeader (mkName ns_Client "iq") (iq_ID iq) (iq_To iq) (iq_From iq) IQResult "") [] None.

Definition ErrorIQ (iq : IQ) (err : StanzaError) : IQ :=
  mkIQ (mkHeader (mkName ns_Client "iq") (iq_ID iq) (iq_To iq) (iq_From iq) IQError "") [] (Some err).

Definition NewStanzaError (typ condition text : string) : StanzaError :=
  mkStanzaError typ "" condition text.

(** *** Common errors (src/errors.go) *)
Definition ErrBadRequest := NewStanzaError "modify" "bad-request".
Definition ErrConflict := NewStanzaError "cancel" "conflict".
Definition ErrFeatureNotImplemented := NewStanzaError "cancel" "feature-not-implemented".
Definition ErrForbidden := NewStanzaError "auth" "forbidden".
Definition ErrItemNotFound := NewStanzaError "cancel" "item-not-found".
Definition ErrNotAllowed := NewStanzaError "cancel" "not-allowed".
Definition ErrNotAuthorized := NewStanzaError "auth" "not-authorized".
Definition ErrServiceUnavailable := NewStanzaError "cancel" "service-unavailable".
Definition ErrInternalServerError := NewStanzaError "cancel" "internal-server-error".
Definition ErrRecipientUnavailable := NewStanzaError "wait" "recipient-unavailable".

(** ** Decoding an element into a stanza

    [encoding/xml] assigns attributes and children in document order; an
    address that does not parse, or a priority that is not an [int8], fails the
    whole element. *)

Inductive decode_error := EAddress (e : jid_error) | EInteger.

Definition unmarshal_jid (s : string) (j : JID) : res decode_error JID :=
  match UnmarshalText s j with
  | (j', Ok _) => Ok j'
  | (_, Err e) => Err (EAddress e)
  | (_, Panic) => Panic
  end.

Fixpoint res_fold {E A B} (f : A -> B -> res E A) (l : list B) (a : A) : res E A :=
  match l with [] => Ok a | b :: l' => (try a' <- f a b; res_fold f l' a')%go end.

(** [Lang] is not among the fields that are assigned: its tag asks for an
    attribute with the local name [xml:lang], and the reader splits that name,
    reporting the local name [lang] in the namespace of the prefix [xml]. *)
Definition decode_attr (h : Header) (a : Attr) : res decode_error Header :=
  let v := attrValue a in
  let l := Local (attrName a) in
  if bool_decide (l = "id") then Ok (mkHeader (h_XMLName h) v (h_From h) (h_To h) (h_Type h) (h_Lang h))
  else if bool_decide (l = "from") then
    (try j <- unmarshal_jid v (h_From h);
     Ok (mkHeader (h_XMLName h) (h_ID h) j (h_To h) (h_Type h) (h_Lang h)))%go
  else if bool_decide (l = "to") then
    (try j <- unmarshal_jid v (h_To h);
     Ok (mkHeader (h_XMLName h) (h_ID h) (h_From h) j (h_Type h) (h_Lang h)))%go
  else if bool_decide (l = "type") then Ok (mkHeader (h_XMLName h) (h_ID h) (h_From h) (h_To h) v (h_Lang h))
  else Ok h.

Definition zero_header : Header := mkHeader no_name "" JID_zero JID_zero "" "".

Definition decode_header (attrs : list Attr) : res decode_error Header :=
  res_fold decode_attr attrs zero_header.

(** An [error] child: [Condition] and [Text] are tagged ["-"] and stay empty. *)
Definition decode_stanza_error (attrs : list Attr) (e : option StanzaError) : StanzaError :=
  let e := default (mkStanzaError "" "" "" "") e in
  mkStanzaError (attr_string "type" attrs (e_Type e)) (attr_string "by" attrs (e_By e))
    (e_Condition e) (e_Text e).

Definition decode_errors (cs : list node) : option StanzaError :=
  fold_left (fun e c => match c with
                        | Elem n a _ => if bool_decide (Local n = "error")
                                        then Some (decode_stanza_error a e) else e
                        | _ => e
                        end) cs None.

(** The children no tagged field takes go to the [any] field. *)
Definition decode_extensions (taken : list string) (cs : list node) : list Extension :=
  flat_map (fun c => match c with
                     | Elem n a inner => if bool_decide (Local n ∈ taken) then []
                                         else [mkExtension n inner a]
                     | _ => []
                     end) cs.

Definition decode_IQ (attrs : list Attr) (cs : list node) : res decode_error IQ :=
  (try h <- decode_header attrs; Ok (mkIQ h cs (decode_errors cs)))%go.

Definition message_fields : list string := ["subject"; "body"; "thread"; "error"].

Definition decode_Message (attrs : list Attr) (cs : list node) : res decode_error Message :=
  (try h <- decode_header attrs;
   Ok (mkMessage h (child_string "subject" cs "") (child_string "body" cs "")
         (child_string "thread" cs "") (decode_errors cs)
         (decode_extensions message_fields cs)))%go.

Definition presence_fields : list string := ["show"; "status"; "priority"; "error"].

Definition decode_int8 (s : string) : res decode_error Z :=
  if bool_decide (s = "") then Ok 0%Z
  else match ParseInt 8 (TrimSpace s) with Some z => Ok z | None => Err EInteger end.

Definition decode_priority (cs : list node) : res decode_error Z :=
  res_fold (fun z c => match c with
                       | Elem n _ cs' => if bool_decide (Local n = "priority")
                                         then decode_int8 (chardata cs') else Ok z
                       | _ => Ok z
                       end) cs 0%Z.

Definition decode_Presence (attrs : list Attr) (cs : list node) : res decode_error Presence :=
  (try h <- decode_header attrs;
   try prio <- decode_priority cs;
   Ok (mkPresence h (child_string "show" cs "") (child_string "status" cs "") prio
         (decode_errors cs) (decode_extensions presence_fields cs)))%go.

(** ** Encoding *)

Definition attr (name value : string) : Attr := mkAttr (mkName "" name) value.
Definition opt_attr (name value : string) : list Attr :=
  if bool_decide (value = "") then [] else [attr name value].
(** An address attribute: [encoding/xml] drops the attribute whose name
    [MarshalXMLAttr] leaves empty. *)
Definition jid_attr (name : string) (j : JID) : list Attr :=
  let a := MarshalXMLAttr j (mkName "" name) in
  if bool_decide (Local (attrName a) = "") then [] else [a].

Definition header_attrs (h : Header) : list Attr :=
  opt_attr "id" (h_ID h) ++ jid_attr "from" (h_From h) ++ jid_attr "to" (h_To h)
  ++ opt_attr "type" (h_Type h) ++ opt_attr "xml:lang" (h_Lang h).

(** [start := xml.StartElement{...}; EncodeToken(start); body; EncodeToken(xml.EndElement{...})]. *)
Definition encode_element (n : Name) (attrs : list Attr) (body : Enc unit) : Enc unit :=
  (do_ encodeToken (StartElement n attrs); do_ body; encodeToken (EndElement n))%go.

(** An [omitempty] string field. *)
Definition text_field (name s : string) : Enc unit :=
  if bool_decide (s = "") then mok tt
  else encode_element (mkName "" name) [] (encodeToken (CharData s)).

Definition StanzaError_MarshalXML (e : StanzaError) : Enc unit :=
  let start := mkName "" "error" in
  let condName := mkName ns_Stanzas (e_Condition e) in
  let textName := mkName ns_Stanzas "text" in
  (do_ encodeToken (StartElement start
         (attr "type" (e_Type e) :: opt_attr "by" (e_By e)));
   do_ encodeToken (StartElement condName []);
   do_ encodeToken (EndElement condName);
   do_ (if bool_decide (e_Text e ≠ "") then
          do_ encodeToken (StartElement textName [attr "xml:lang" "en"]);
          do_ encodeToken (CharData (e_Text e));
          encodeToken (EndElement textName)
        else mok tt);
   encodeToken (EndElement start))%go.

Definition error_field (e : option StanzaError) : Enc unit :=
  match e with Some e => marshaler (StanzaError_MarshalXML e) | None => mok tt end.

Definition extension_name (x : Extension) : Name :=
  if bool_decide (Local (x_XMLName x) = "") then mkName "" "Extensions" else x_XMLName x.

Definition encode_extension (x : Extension) : Enc unit :=
  encode_element (extension_name x) (x_Attrs x) (writeInner (x_Inner x)).

Fixpoint encode_extensions (l : list Extension) : Enc unit :=
  match l with [] => mok tt | x :: l' => (do_ encode_extension x; encode_extensions l')%go end.

Definition encode_IQ (iq : IQ) : Enc unit :=
  encode_element (mkName "" "iq") (header_attrs (iq_Header iq))
    (do_ writeInner (iq_Query iq); error_field (iq_Error iq))%go.

Definition encode_Message (m : Message) : Enc unit :=
  encode_element (mkName "" "message") (header_attrs (m_Header m))
    (do_ text_field "subject" (m_Subject m); do_ text_field "body" (m_Body m);
     do_ text_field "thread" (m_Thread m); do_ error_field (m_Error m);
     encode_extensions (m_Extensions m))%go.

(** [strconv.FormatInt] of an [int8]. *)
Definition format_int (z : Z) : string :=
  let n := Z.to_nat (Z.abs z) in
  (if (z <? 0)%Z then "-" else "") +:+
  (if (100 <=? n)%nat then String (ascii_of_nat (48 + n / 100)) "" else "") +:+
  (if (10 <=? n)%nat then String (ascii_of_nat (48 + n / 10 mod 10)) "" else "") +:+
  String (ascii_of_nat (48 + n mod 10)) "".

Definition priority_field (z : Z) : Enc unit :=
  if (z =? 0)%Z then mok tt
  else encode_element (mkName "" "priority") [] (encodeToken (CharData (format_int z))).

Definition encode_Presence (p : Presence) : Enc unit :=
  encode_element (mkName "" "presence") (header_attrs (p_Header p))
    (do_ text_field "show" (p_Show p); do_ text_field "status" (p_Status p);
     do_ priority_field (p_Priority p); do_ error_field (p_Error p);
     encode_extensions (p_Extensions p))%go.

Definition encode_Stanza (st : Stanza) : Enc unit :=
  match st with SIQ q => encode_IQ q | SMessage m => encode_Message m | SPresence p => encode_Presence p end.

(** [IQPayload.MarshalXML]; [payload] makes the calls that encoding the payload
    makes ([None] for a nil payload). *)
Definition IQPayload_attrs (h : Header) : list Attr :=
  opt_attr "id" (h_ID h) ++ opt_attr "type" (h_Type h)
  ++ (if IsZero (h_To h) then [] else [attr "to" (JID_String (h_To h))])
  ++ (if IsZero (h_From h) then [] else [attr "from" (JID_String (h_From h))]).

Definition IQPayload_MarshalXML (iq : IQ) (payload : option (Enc unit)) : Enc unit :=
  let start := mkName ns_Client "iq" in
  (do_ encodeToken (StartElement start (IQPayload_attrs (iq_Header iq)));
   do_ match payload with Some p => do_ p; Flush | None => mok tt end;
   encodeToken (EndElement start))%go.

Definition encode_IQPayload (iq : IQ) (payload : option (Enc unit)) : Enc unit :=
  marshaler (IQPayload_MarshalXML iq payload).

(** ** Streams (src/stream/) *)

Record StreamError := mkStreamError { se_Condition : string; se_Text : string }.
Definition NewError (condition text : string) : StreamError := mkStreamError condition text.

Definition StreamError_MarshalXML (e : StreamError) : Enc unit :=
  let start := mkName ns_Stream "error" in
  let condName := mkName ns_Streams (se_Condition e) in
  let textName := mkName ns_Streams "text" in
  (do_ encodeToken (StartElement start []);
   do_ encodeToken (StartElement condName []);
   do_ encodeToken (EndElement condName);
   do_ (if bool_decide (se_Text e ≠ "") then
          do_ encodeToken (StartElement textName [attr "xml:lang" "en"]);
          do_ encodeToken (CharData (se_Text e));
          encodeToken (EndElement textName)
        else mok tt);
   encodeToken (EndElement start))%go.

Record StreamHeader := mkStreamHeader {
  sh_To : JID; sh_From : JID; sh_ID : string; sh_Version : string; sh_Lang : string; sh_NS : string }.

Definition DefaultVersion := "1.0".

Definition quoted (name value : string) : string := name +:+ "='" +:+ value +:+ "'".

Definition Open (h : StreamHeader) : string :=
  let version := if bool_decide (sh_Version h = "") then DefaultVersion else sh_Version h in
  let nspace := if bool_decide (sh_NS h = "") then ns_Client else sh_NS h in
  "<?xml version='1.0'?><stream:stream"
  +:+ (if bool_decide (JID_String (sh_To h) ≠ "") then quoted " to" (JID_String (sh_To h)) else "")
  +:+ (if bool_decide (JID_String (sh_From h) ≠ "") then quoted " from" (JID_String (sh_From h)) else "")
  +:+ (if bool_decide (sh_ID h ≠ "") then quoted " id" (sh_ID h) else "")
  +:+ quoted " version" version
  +:+ (if bool_decide (sh_Lang h ≠ "") then quoted " xml:lang" (sh_Lang h) else "")
  +:+ quoted " xmlns" nspace
  +:+ quoted " xmlns:stream" ns_Stream +:+ ">".

Definition stream_Close : string := "</stream:stream>".

(** ** The dispatch of [Session.Serve] on the element's local name *)

Definition decode_stanza (n : node) : option (res decode_error Stanza) :=
  match n with
  | Elem name attrs cs =>
      if bool_decide (Local name = "message")
      then Some (try m <- decode_Message attrs cs; Ok (SMessage m))%go
      else if bool_decide (Local name = "presence")
      then Some (try p <- decode_Presence attrs cs; Ok (SPresence p))%go
      else if bool_decide (Local name = "iq")
      then Some (try q <- decode_IQ attrs cs; Ok (SIQ q))%go
      else None
  | _ => None
  end.

(** ** What is written: the element of a stanza *)

Definition text_nodes (name s : string) : list node :=
  if bool_decide (s = "") then [] else [Elem (mkName "" name) [] [Text s]].

Definition error_node (e : StanzaError) : node :=
  Elem (mkName "" "error") (attr "type" (e_Type e) :: opt_attr "by" (e_By e))
    (Elem (mkName ns_Stanzas (e_Condition e)) [] [] ::
     if bool_decide (e_Text e ≠ "")
     then [Elem (mkName ns_Stanzas "text") [attr "xml:lang" "en"] [Text (e_Text e)]] else []).

Definition error_nodes (e : option StanzaError) : list node :=
  match e with Some e => [error_node e] | None => [] end.

Definition extension_node (x : Extension) : node := Elem (extension_name x) (x_Attrs x) (x_Inner x).

Definition priority_nodes (z : Z) : list node :=
  if (z =? 0)%Z then [] else [Elem (mkName "" "priority") [] [Text (format_int z)]].

Definition stanza_children (st : Stanza) : list node :=
  match st with
  | SIQ q => iq_Query q ++ error_nodes (iq_Error q)
  | SMessage m =>
      text_nodes "subject" (m_Subject m) ++ text_nodes "body" (m_Body m)
      ++ text_nodes "thread" (m_Thread m) ++ error_nodes (m_Error m)
      ++ map extension_node (m_Extensions m)
  | SPresence p =>
      text_nodes "show" (p_Show p) ++ text_nodes "status" (p_Status p)
      ++ priority_nodes (p_Priority p) ++ error_nodes (p_Error p)
      ++ map extension_node (p_Extensions p)
  end.

Definition stanza_node (st : Stanza) : node :=
  Elem (mkName "" (StanzaType st)) (header_attrs (GetHeader st)) (stanza_children st).

Definition stanza_error (st : Stanza) : option StanzaError :=
  match st with SIQ q => iq_Error q | SMessage m => m_Error m | SPresence p => p_Error p end.

(** *** Lemmas *)

Lemma emits_encode_element n a m l :
  Local n ≠ "" → emits m l → emits (encode_element n a m) (element n a l).
Proof. apply emits_element. Qed.

Lemma emits_node n a m cs :
  Local n ≠ "" → emits m (nodes_tokens cs) → emits (encode_element n a m) (nodes_tokens [Elem n a cs]).
Proof.
  intros Hn Hm. unfold nodes_tokens. simpl. rewrite app_nil_r. by apply emits_encode_element.
Qed.

Lemma emits_nodes_seq m1 m2 l1 l2 :
  emits m1 (nodes_tokens l1) → emits m2 (nodes_tokens l2) →
  emits (mbnd m1 (fun _ => m2)) (nodes_tokens (l1 ++ l2)).
Proof. rewrite nodes_tokens_app. apply emits_seq. Qed.

Lemma emits_text_nodes s : emits (encodeToken (CharData s)) (nodes_tokens [Text s]).
Proof. apply emits_text. Qed.
#[local] Hint Resolve emits_encode_element emits_text_nodes : go.

Lemma emits_text_field name s : name ≠ "" → emits (text_field name s) (nodes_tokens (text_nodes name s)).
Proof.
  intros Hn. unfold text_field, text_nodes. case_bool_decide; [apply emits_ok|].
  apply emits_node; [done|apply emits_text_nodes].
Qed.

(** The encoder accepts a stanza error that has a condition. *)
Lemma emits_StanzaError e :
  e_Condition e ≠ "" → emits (StanzaError_MarshalXML e) (node_tokens (error_node e)).
Proof.
  intros Hc.
  assert (emits (mok tt) []) as H0 by apply emits_ok.
  intros w Hw.
  pose (body := (do_ encode_element (mkName ns_Stanzas (e_Condition e)) [] (mok tt);
    if bool_decide (e_Text e ≠ "") then
      encode_element (mkName ns_Stanzas "text") [attr "xml:lang" "en"] (encodeToken (CharData (e_Text e)))
    else mok tt)%go).
  assert (StanzaError_MarshalXML e w =
    encode_element (mkName "" "error") (attr "type" (e_Type e) :: opt_attr "by" (e_By e)) body w) as ->.
  { unfold StanzaError_MarshalXML, body, encode_element, mbnd, mok.
    repeat case_match; simplify_eq/=; done. }
  revert w Hw. apply emits_encode_element; [done|].
  apply (emits_nodes_seq _ _ [_]); [by apply emits_node|].
  case_bool_decide; [|done]. apply emits_node; [done|apply emits_text_nodes].
Qed.

Definition error_ok (e : option StanzaError) : Prop :=
  match e with Some e => e_Condition e ≠ "" | None => True end.

Lemma emits_error_field e : error_ok e → emits (error_field e) (nodes_tokens (error_nodes e)).
Proof.
  destruct e as [e|]; simpl; [|intros _; apply emits_ok]. intros Hc.
  unfold nodes_tokens. cbn [map concat]. rewrite app_nil_r.
  by apply emits_marshaler, emits_StanzaError.
Qed.

Lemma extension_name_ok x : Local (extension_name x) ≠ "".
Proof. unfold extension_name. by case_bool_decide. Qed.

Lemma emits_extensions l : emits (encode_extensions l) (nodes_tokens (map extension_node l)).
Proof.
  induction l as [|x l IH]; simpl; [apply emits_ok|].
  apply (emits_nodes_seq _ _ [_]); [|done].
  apply emits_node; [apply extension_name_ok|apply emits_inner].
Qed.

Lemma emits_priority z : emits (priority_field z) (nodes_tokens (priority_nodes z)).
Proof.
  unfold priority_field, priority_nodes. case_match; [apply emits_ok|].
  apply emits_node; [done|apply emits_text_nodes].
Qed.

(** A stanza whose error, if any, names a condition is written as one element. *)
Lemma emits_Stanza st :
  error_ok (stanza_error st) → emits (encode_Stanza st) (node_tokens (stanza_node st)).
Proof.
  intros He. destruct st; simpl in *; apply emits_encode_element; try done;
    unfold stanza_children; fold nodes_tokens;
    repeat (apply emits_nodes_seq); auto using emits_text_field, emits_error_field,
      emits_extensions, emits_priority, emits_inner with go.
  all: try (by apply emits_text_field); try (by apply emits_priority).
Qed.

(** ** Reading back what was written

    The encoder declares the namespace of a name that has one with an [xmlns]
    attribute, in front of the attributes it is given; the reader reports that
    attribute, and puts a name without namespace in the stream's default
    namespace [d].  Of the header's attributes [xml:lang] is the one with a prefix:
    it is reported as [lang] in the namespace of the prefix.  The content of raw ([innerxml]) elements is copied. *)

Definition xmlns_attr (n : Name) : list Attr :=
  if bool_decide (Space n = "") then [] else [attr "xmlns" (Space n)].

Definition read_elem (d : string) (n : Name) (a : list Attr) (cs : list node) : node :=
  Elem (if bool_decide (Space n = "") then mkName d (Local n) else n) (xmlns_attr n ++ a) cs.

Definition read_attr (a : Attr) : Attr :=
  if bool_decide (attrName a = mkName "" "xml:lang") then mkAttr (mkName xml_URL "lang") (attrValue a) else a.

Definition read_child (d : string) (c : node) : node :=
  match c with Elem n a cs => read_elem d n a cs | _ => c end.

Definition as_read (d : string) (st : Stanza) : node :=
  read_elem d (mkName "" (StanzaType st)) (map read_attr (header_attrs (GetHeader st)))
    (match st with
     | SIQ _ => stanza_children st
     | _ => map (read_child d) (stanza_children st)
     end).

(** What the receiver holds: the same stanza, without the header's [XMLName] and
    language, and with the namespace declaration of every extension among its
    attributes. *)
Definition received_header (h : Header) : Header :=
  mkHeader no_name (h_ID h) (h_From h) (h_To h) (h_Type h) "".
Definition received_ext (x : Extension) : Extension :=
  mkExtension (x_XMLName x) (x_Inner x) (xmlns_attr (x_XMLName x) ++ x_Attrs x).
Definition received (st : Stanza) : Stanza :=
  match st with
  | SIQ q => SIQ (mkIQ (received_header (iq_Header q)) (iq_Query q) (iq_Error q))
  | SMessage m => SMessage (mkMessage (received_header (m_Header m)) (m_Subject m) (m_Body m)
                    (m_Thread m) (m_Error m) (map received_ext (m_Extensions m)))
  | SPresence p => SPresence (mkPresence (received_header (p_Header p)) (p_Show p) (p_Status p)
                     (p_Priority p) (p_Error p) (map received_ext (p_Extensions p)))
  end.

Definition address_ok (j : JID) : Prop := j = JID_zero ∨ (j_domain j ≠ "" ∧ Parse (JID_String j) = Ok j).
Definition header_ok (h : Header) : Prop := address_ok (h_From h) ∧ address_ok (h_To h).
Definition ext_ok (taken : list string) (x : Extension) : Prop :=
  Space (x_XMLName x) ≠ "" ∧ Local (x_XMLName x) ≠ "" ∧ Local (x_XMLName x) ∉ taken.
Definition stanza_ok (st : Stanza) : Prop :=
  header_ok (GetHeader st) ∧ stanza_error st = None ∧
  match st with
  | SIQ q => has_child "error" (iq_Query q) = false
  | SMessage m => Forall (ext_ok message_fields) (m_Extensions m)
  | SPresence p => (-128 <= p_Priority p <= 127)%Z ∧ Forall (ext_ok presence_fields) (p_Extensions p)
  end.

(** *** Lemmas *)

Lemma res_fold_app {E A B} (f : A → B → res E A) l1 l2 a :
  res_fold f (l1 ++ l2) a = (try a' <- res_fold f l1 a; res_fold f l2 a')%go.
Proof.
  revert a. induction l1 as [|b l1 IH]; intros a; simpl; [done|].
  destruct (f a b); simpl; auto.
Qed.

Lemma unmarshal_jid_ok j k : j_domain j ≠ "" → Parse (JID_String j) = Ok j → unmarshal_jid (JID_String j) k = Ok j.
Proof. intros _ H. unfold unmarshal_jid, UnmarshalText. by rewrite H. Qed.

Lemma address_cases j name :
  address_ok j → name ≠ "" →
  (j = JID_zero ∧ jid_attr name j = []) ∨
  (jid_attr name j = [attr name (JID_String j)] ∧ ∀ k, unmarshal_jid (JID_String j) k = Ok j).
Proof.
  intros [->|[Hd Hp]] Hn; [by left|right]. split; [|intros k; by apply unmarshal_jid_ok].
  unfold jid_attr, MarshalXMLAttr, IsZero. rewrite (bool_decide_false (j_domain j = "")) by done.
  cbn [attrName Local]. by rewrite bool_decide_false.
Qed.

Lemma header_roundtrip h : header_ok h → decode_header (map read_attr (header_attrs h)) = Ok (received_header h).
Proof.
  destruct h as [n id f t ty lang]. intros [Hf Ht]. simpl in *.
  unfold decode_header, header_attrs, received_header, opt_attr, zero_header. simpl.
  destruct (address_cases f "from" Hf) as [[-> ->]|[-> Hf']]; try done;
    destruct (address_cases t "to" Ht) as [[-> ->]|[-> Ht']]; try done;
    repeat case_bool_decide; subst; simpl; unfold decode_attr; simpl; rewrite ?Hf'; simpl;
    rewrite ?Ht'; reflexivity.
Qed.

Lemma chardata_text s : chardata [Text s] = s.
Proof. simpl. apply str_app_nil_r. Qed.

(** Reading a list of children for one field: other children do not matter. *)
Definition other (name : string) (c : node) : Prop :=
  match c with Elem n _ _ => Local n ≠ name | _ => True end.

Lemma child_string_app name l1 l2 v :
  child_string name (l1 ++ l2) v = child_string name l2 (child_string name l1 v).
Proof. apply fold_left_app. Qed.

Lemma child_string_other name cs v : Forall (other name) cs → child_string name cs v = v.
Proof.
  intros H. revert v. induction H as [|c cs Hc _ IH]; intros v; simpl; [done|].
  destruct c as [n a k| |]; simpl in *; [|apply IH|apply IH]. rewrite bool_decide_false by done. apply IH.
Qed.

Lemma child_string_text d name s :
  child_string name (map (read_child d) (text_nodes name s)) "" = s.
Proof.
  unfold text_nodes. case_bool_decide as H; [by subst|].
  cbn. rewrite bool_decide_true by done. apply str_app_nil_r.
Qed.

Lemma decode_errors_other cs e :
  Forall (other "error") cs →
  fold_left (fun e c => match c with
                        | Elem n a _ => if bool_decide (Local n = "error")
                                        then Some (decode_stanza_error a e) else e
                        | _ => e
                        end) cs e = e.
Proof.
  intros H. revert e. induction H as [|c cs Hc _ IH]; intros e; simpl; [done|].
  destruct c as [n a k| |]; simpl in *; [|apply IH|apply IH]. rewrite bool_decide_false by done. apply IH.
Qed.

Lemma decode_extensions_app taken l1 l2 :
  decode_extensions taken (l1 ++ l2) = decode_extensions taken l1 ++ decode_extensions taken l2.
Proof. apply flat_map_app. Qed.

Lemma decode_extensions_taken d taken name s :
  name ∈ taken → decode_extensions taken (map (read_child d) (text_nodes name s)) = [].
Proof.
  intros Hn. unfold text_nodes. case_bool_decide; [done|]. cbn. by rewrite bool_decide_true.
Qed.

Lemma decode_extensions_exts d taken l :
  Forall (ext_ok taken) l →
  decode_extensions taken (map (read_child d) (map extension_node l)) = map received_ext l.
Proof.
  induction 1 as [|x l (Hs & Hl & Ht) _ IH]; simpl; [done|].
  unfold decode_extensions in *. unfold extension_name.
  rewrite (bool_decide_false (Local (x_XMLName x) = "")) by done.
  rewrite (bool_decide_false (Space (x_XMLName x) = "")) by done.
  simpl. rewrite bool_decide_false by done. simpl. by rewrite IH.
Qed.

Lemma other_exts d taken name l :
  Forall (ext_ok taken) l → name ∈ taken →
  Forall (other name) (map (read_child d) (map extension_node l)).
Proof.
  intros Hl Hn. induction Hl as [|x l (Hs & Hl' & Ht) _ IH]; simpl; constructor; [|done].
  unfold extension_name. rewrite (bool_decide_false (Local (x_XMLName x) = "")) by done.
  cbn. case_bool_decide; simpl; intros <-; done.
Qed.

Lemma other_text d name name' s :
  name' ≠ name → Forall (other name) (map (read_child d) (text_nodes name' s)).
Proof. intros. unfold text_nodes. case_bool_decide; repeat constructor. done. Qed.

Lemma format_int_ok z : (-128 <= z <= 127)%Z → decode_int8 (format_int z) = Ok z.
Proof.
  intros Hz.
  assert (forallb (λ k, match decode_int8 (format_int (Z.of_nat k - 128)) with
                        | Ok v => (v =? Z.of_nat k - 128)%Z | _ => false end) (seq 0 256) = true) as H
    by (vm_compute; reflexivity).
  rewrite forallb_forall in H. specialize (H (Z.to_nat (z + 128))).
  rewrite in_seq in H. specialize (H ltac:(lia)).
  replace (Z.of_nat (Z.to_nat (z + 128)) - 128)%Z with z in H by lia.
  destruct (decode_int8 (format_int z)); try done. by apply Z.eqb_eq in H as ->.
Qed.

Lemma decode_priority_other cs z :
  Forall (other "priority") cs →
  res_fold (fun z c => match c with
                       | Elem n _ cs' => if bool_decide (Local n = "priority")
                                         then decode_int8 (chardata cs') else Ok z
                       | _ => Ok z
                       end) cs z = Ok z.
Proof.
  intros H. revert z. induction H as [|c cs Hc _ IH]; intros z; simpl; [done|].
  destruct c as [n a k| |]; simpl in *; [|apply IH|apply IH]. rewrite bool_decide_false by done. apply IH.
Qed.

Lemma decode_priority_nodes d z :
  (-128 <= z <= 127)%Z → decode_priority (map (read_child d) (priority_nodes z)) = Ok z.
Proof.
  intros Hz. unfold decode_priority, priority_nodes. destruct (Z.eqb_spec z 0) as [->|Hn]; [done|].
  cbn [map res_fold read_child read_elem]. rewrite (bool_decide_true (_ = "")) by done. cbn [Local].
  rewrite (bool_decide_true (_ = "priority")) by done. rewrite chardata_text, format_int_ok by done. done.
Qed.

Lemma other_priority d name z :
  name ≠ "priority" → Forall (other name) (map (read_child d) (priority_nodes z)).
Proof. intros. unfold priority_nodes. case_match; repeat constructor. done. Qed.

Lemma decode_extensions_priority d z :
  decode_extensions presence_fields (map (read_child d) (priority_nodes z)) = [].
Proof. unfold priority_nodes. by case_match. Qed.

Lemma has_child_other name cs : has_child name cs = false → Forall (other name) cs.
Proof.
  induction cs as [|c cs IH]; simpl; [constructor|]. intros [Hc Hcs]%orb_false_iff.
  constructor; [|by apply IH]. destruct c; simpl; try done. by apply bool_decide_eq_false in Hc.
Qed.

(** The fields of a written stanza: the children of the other fields do not
    matter ([others]), and what is left are the extensions ([exts]). *)
Local Ltac exts :=
  rewrite ?decode_extensions_app;
  repeat first [ rewrite decode_extensions_taken by (by apply (bool_decide_eq_true_1 _))
               | rewrite decode_extensions_exts by done | rewrite decode_extensions_priority ].

Local Ltac others :=
  repeat (apply Forall_app; split);
  first [by apply other_text | by apply other_priority
        | eapply other_exts; [done|by apply (bool_decide_eq_true_1 _)] | constructor ].

Lemma decode_message_children d m :
  m_Error m = None → Forall (ext_ok message_fields) (m_Extensions m) →
  let cs := map (read_child d) (stanza_children (SMessage m)) in
  child_string "subject" cs "" = m_Subject m ∧ child_string "body" cs "" = m_Body m ∧
  child_string "thread" cs "" = m_Thread m ∧ decode_errors cs = None ∧
  decode_extensions message_fields cs = map received_ext (m_Extensions m).
Proof.
  intros He Hx cs. subst cs. simpl. rewrite He. simpl.
  rewrite !map_app. split_and!.
  - rewrite child_string_app, child_string_text. apply child_string_other. others.
  - rewrite child_string_app, (child_string_other _ _ "") by others.
    rewrite child_string_app, child_string_text. apply child_string_other. others.
  - rewrite child_string_app, (child_string_other _ _ "") by others.
    rewrite child_string_app, (child_string_other _ _ "") by others.
    rewrite child_string_app, child_string_text. apply child_string_other. others.
  - apply decode_errors_other. others.
  - by exts.
Qed.

Lemma decode_presence_children d p :
  p_Error p = None → (-128 <= p_Priority p <= 127)%Z →
  Forall (ext_ok presence_fields) (p_Extensions p) →
  let cs := map (read_child d) (stanza_children (SPresence p)) in
  child_string "show" cs "" = p_Show p ∧ child_string "status" cs "" = p_Status p ∧
  decode_priority cs = Ok (p_Priority p) ∧ decode_errors cs = None ∧
  decode_extensions presence_fields cs = map received_ext (p_Extensions p).
Proof.
  intros He Hz Hx cs. subst cs. simpl. rewrite He. simpl. rewrite !map_app. split_and!.
  - rewrite child_string_app, child_string_text. apply child_string_other. others.
  - rewrite child_string_app, (child_string_other _ _ "") by others.
    rewrite child_string_app, child_string_text. apply child_string_other. others.
  - unfold decode_priority. rewrite res_fold_app, decode_priority_other by others. simpl.
    rewrite res_fold_app, decode_priority_other by others. simpl.
    rewrite res_fold_app. setoid_rewrite decode_priority_nodes; [|done]. simpl.
    apply decode_priority_other. others.
  - apply decode_errors_other. others.
  - by exts.
Qed.

(** C26: whatever stanza without a stanza error is sent (addresses that are zero
    or print to something that parses, extensions in a namespace and not named
    like a field), the encoder writes exactly one element, leaves no element
    open, and the peer's [Session.Serve] decodes that element to the same
    stanza: same id, addresses, type, subject, body, thread, show, status,
    priority, payload and extensions.  Three things change on the way: the
    header's [XMLName] comes back empty, the language, which is written, is lost,
    and every extension comes back with its namespace declaration added to its
    attributes. *)
Theorem stanza_roundtrip d st :
  stanza_ok st →
  emits (encode_Stanza st) (node_tokens (stanza_node st)) ∧
  decode_stanza (as_read d st) = Some (Ok (received st)).
Proof.
  intros (Hh & He & Hst). split; [apply emits_Stanza; by rewrite He|].
  pose proof (header_roundtrip _ Hh) as Hdec. destruct st as [q|m|p]; simpl in *.
  - unfold decode_IQ, decode_errors. rewrite Hdec, He. simpl. rewrite app_nil_r.
    rewrite decode_errors_other by by apply has_child_other. done.
  - destruct (decode_message_children d m He Hst) as (H1 & H2 & H3 & H4 & H5). simpl in *.
    unfold decode_Message. rewrite Hdec. simpl. rewrite H1, H2, H3, H4, H5, He. done.
  - destruct Hst as [Hz Hx].
    destruct (decode_presence_children d p He Hz Hx) as (H1 & H2 & H3 & H4 & H5). simpl in *.
    unfold decode_Presence. rewrite Hdec. simpl. rewrite H3. simpl. rewrite H1, H2, H4, H5, He. done.
Qed.

(** ** Stanza errors do not survive decoding *)

(** [aborts m l st]: [m] fails on the missing element name after writing [l],
    with the elements [st] still open. *)
Definition aborts (m : Enc unit) (l : list Token) (st : list Name) : Prop :=
  ∀ w, broken w = false →
    (m w).2 = Err ENoName ∧ tags (m w).1 = st ++ tags w ∧ broken (m w).1 = false ∧
    sent (m w).1 = sent w ++ map Tok l.

Lemma aborts_seq_l m k l st : aborts m l st → aborts (mbnd m k) l st.
Proof.
  intros H w Hw. unfold mbnd. destruct (H w Hw) as (E & Ht & Hb & Hs).
  destruct (m w) as [w1 r]; simpl in *; by subst r.
Qed.

Lemma aborts_seq_r m1 m2 l1 l2 st :
  emits m1 l1 → aborts m2 l2 st → aborts (mbnd m1 (fun _ => m2)) (l1 ++ l2) st.
Proof.
  intros H1 H2 w Hw. unfold mbnd. destruct (H1 w Hw) as (E & Ht & Hb & Hs).
  destruct (m1 w) as [w1 r]; simpl in *; subst r.
  destruct (H2 w1 Hb) as (E2 & Ht2 & Hb2 & Hs2). rewrite E2, Ht2, Ht. repeat split; [done|].
  by rewrite Hs2, Hs, map_app, app_assoc.
Qed.

Lemma aborts_element n a m l st :
  Local n ≠ "" → aborts m l st → aborts (encode_element n a m) (StartElement n a :: l) (st ++ [n]).
Proof.
  intros Hn Hm w Hw. unfold encode_element. simpl. unfold writeStart. rewrite (bool_decide_false _ Hn).
  unfold mbnd, mget, set_tags, put_items, mmodify. simpl.
  set (w1 := mkWriter (n :: tags w) (buf w ++ [Tok (StartElement n a)]) (wire w) (broken w)).
  destruct (Hm w1 Hw) as (E & Ht & Hb & Hs). destruct (m w1) as [w2 r]; simpl in *; subst r.
  simpl. split_and!; [done| |done|].
  - by rewrite Ht, <- app_assoc.
  - rewrite Hs. unfold sent. simpl. by rewrite <- !app_assoc.
Qed.

Definition error_start (e : StanzaError) : Token :=
  StartElement (mkName "" "error") (attr "type" (e_Type e) :: opt_attr "by" (e_By e)).

Lemma aborts_error e :
  e_Condition e = "" → aborts (error_field (Some e)) [error_start e] [mkName "" "error"; no_name].
Proof.
  intros Hc w Hw. simpl. unfold marshaler, StanzaError_MarshalXML. rewrite Hc.
  unfold mbnd, mget, set_tags, mmodify, sent. simpl. by rewrite app_assoc.
Qed.

(** The tokens of a stanza up to its error's start tag. *)
Definition before_error (st : Stanza) : list Token :=
  match st with
  | SIQ q => nodes_tokens (iq_Query q)
  | SMessage m => nodes_tokens (text_nodes "subject" (m_Subject m))
                  ++ nodes_tokens (text_nodes "body" (m_Body m))
                  ++ nodes_tokens (text_nodes "thread" (m_Thread m))
  | SPresence p => nodes_tokens (text_nodes "show" (p_Show p))
                   ++ nodes_tokens (text_nodes "status" (p_Status p))
                   ++ nodes_tokens (priority_nodes (p_Priority p))
  end.

Definition opened_by (st : Stanza) (e : StanzaError) : list Token :=
  StartElement (mkName "" (StanzaType st)) (header_attrs (GetHeader st)) ::
  before_error st ++ [error_start e].

Lemma aborts_Stanza st e :
  stanza_error st = Some e → e_Condition e = "" →
  aborts (encode_Stanza st) (opened_by st e)
    [mkName "" "error"; no_name; mkName "" (StanzaType st)].
Proof.
  intros He Hc. pose proof (aborts_error e Hc) as Ha.
  destruct st as [q|m|p]; simpl in He;
    apply (aborts_element _ _ _ _ [_; _]); try done; rewrite He; simpl;
    rewrite <- ?app_assoc; repeat apply aborts_seq_r;
    auto using emits_inner, emits_priority, aborts_seq_l.
  all: by apply emits_text_field.
Qed.

(** Whatever the error child of a received element says, the decoded error has
    no condition. *)
Lemma decode_errors_condition cs e : decode_errors cs = Some e → e_Condition e = "".
Proof.
  unfold decode_errors.
  assert (∀ o, (∀ e, o = Some e → e_Condition e = "") → ∀ e,
    fold_left (fun e c => match c with
                          | Elem n a _ => if bool_decide (Local n = "error")
                                          then Some (decode_stanza_error a e) else e
                          | _ => e
                          end) cs o = Some e → e_Condition e = "") as H.
  { induction cs as [|c cs IH]; intros o Ho e'; simpl; [apply Ho|]. apply IH.
    intros e'' He''. destruct c as [n a k| |]; [|by apply Ho|by apply Ho].
    case_bool_decide; [|by apply Ho]. simplify_eq. simpl.
    destruct o as [o|]; simpl; [by apply Ho|done]. }
  by apply H.
Qed.

Lemma decode_stanza_condition n st e :
  decode_stanza n = Some (Ok st) → stanza_error st = Some e → e_Condition e = "".
Proof.
  destruct n as [name attrs cs| |]; simpl; try done.
  unfold decode_Message, decode_Presence, decode_IQ.
  destruct (decode_header attrs); simpl; repeat case_bool_decide; try done;
    try destruct (decode_priority cs); simpl; intros; simplify_eq/=;
    by eapply decode_errors_condition.
Qed.

Lemma opened_not_closed st e k :
  balanced_in k → balanced [] (opened_by st e ++ k) = false.
Proof.
  intros Hk. unfold opened_by. simpl.
  assert (balanced_in (before_error st)) as Hb by (destruct st; simpl; auto 6 with go).
  rewrite <- app_assoc, Hb. simpl. rewrite <- (app_nil_r k), Hk. done.
Qed.

(** A received stanza that carries an error cannot be sent on.  For every
    element that [Session.Serve] or the server decodes to a stanza with an
    [error] child, sending that stanza on any writer fails ("start tag with no
    name", since the condition is not decoded), but only after the stanza's and
    the error's start tags have gone into the writer's buffer, where they stay:
    whatever is sent on that writer afterwards, however well formed by itself,
    comes after two start tags that nothing closes, so that the stream of that
    session is no longer well formed. *)
Theorem decoded_error_breaks_the_stream n st e w m k :
  decode_stanza n = Some (Ok st) → stanza_error st = Some e →
  broken w = false → emits m k → balanced_in k →
  (Encode (encode_Stanza st) w).2 = Err ENoName ∧
  wire (Encode m (Encode (encode_Stanza st) w).1).1 = sent w ++ map Tok (opened_by st e ++ k) ∧
  balanced [] (opened_by st e ++ k) = false.
Proof.
  intros Hd He Hw Hm Hk.
  assert (aborts (Encode (encode_Stanza st)) (opened_by st e)
    [mkName "" "error"; no_name; mkName "" (StanzaType st)]) as Ha
    by (eapply aborts_seq_l, aborts_Stanza; [done|by eapply decode_stanza_condition]).
  destruct (Ha w Hw) as (E & _ & Hb & Hs). split; [done|]. split; [|by apply opened_not_closed].
  rewrite (Encode_wire _ _ _ Hm Hb). cbn [fst wire]. by rewrite Hs, <- app_assoc, <- map_app.
Qed.

(** An extension received with its namespace declaration (as every element in a
    namespace of its own is) goes out with that declaration twice, which XML
    forbids. *)
Lemma relayed_extension_duplicates_xmlns d x :
  Space (x_XMLName x) ≠ "" → Local (x_XMLName x) ≠ "" →
  attr "xmlns" (Space (x_XMLName x)) ∈ x_Attrs x →
  ∃ n attrs inner, read_child d (extension_node x) = Elem n attrs inner ∧
    ¬ NoDup (attrName <$> attrs).
Proof.
  intros Hs Hl Hx. simpl. unfold read_elem. eexists _, _, _. split; [done|].
  unfold extension_name. rewrite (bool_decide_false (Local _ = "")) by done.
  unfold xmlns_attr. rewrite bool_decide_false by done. rewrite fmap_app, NoDup_app.
  intros (_ & H & _). apply (H (mkName "" "xmlns")); [by left|].
  apply list_elem_of_fmap. by eexists (attr "xmlns" _).
Qed.

(** ** Concrete runs *)

Module StanzaExample.

Definition alice := mkJID "alice" "example.org" "desk".
Definition bob := mkJID "bob" "example.org" "".
Definition receipt := mkExtension (mkName "urn:xmpp:receipts" "request") [] [].
Definition msg : Stanza :=
  SMessage (mkMessage (mkHeader (mkName ns_Client "message") "m1" alice bob "chat" "en")
              "" "hello" "t1" None [receipt]).
Definition pres : Stanza :=
  SPresence (mkPresence (mkHeader no_name "p1" alice JID_zero "" "") "away" "" (-5) None []).

Lemma stanza_roundtrip_witness :
  (decode_stanza (as_read ns_Client msg) = Some (Ok (received msg)) ∧
   received msg ≠ msg) ∧
  decode_stanza (as_read ns_Client pres) = Some (Ok (received pres)).
Proof.
  split; [split; [|done]|].
  - apply (stanza_roundtrip ns_Client msg). repeat split; simpl.
    + right. split; [done|reflexivity].
    + right. split; [done|reflexivity].
    + constructor; [|constructor]. repeat split; [done|done|]. by apply (bool_decide_unpack _).
  - apply (stanza_roundtrip ns_Client pres). repeat split; simpl; try lia; [|by left|constructor].
    right. split; [done|reflexivity].
Defined.

(** [<message to='bob@example.org' type='error'><body>hi</body><error type='cancel'>
    <item-not-found/></error></message>] *)
Definition bounced : node :=
  Elem (mkName ns_Client "message") [attr "to" "bob@example.org"; attr "type" "error"]
    [Elem (mkName ns_Client "body") [] [Text "hi"];
     Elem (mkName ns_Client "error") [attr "type" "cancel"]
       [Elem (mkName ns_Stanzas "item-not-found") [attr "xmlns" ns_Stanzas] []]].
Definition bounced_stanza : Stanza :=
  SMessage (mkMessage (mkHeader no_name "" JID_zero bob "error" "") "" "hi" ""
              (Some (mkStanzaError "cancel" "" "" "")) []).

Lemma decoded_error_witness :
  decode_stanza bounced = Some (Ok bounced_stanza) ∧
  (Encode (encode_Stanza bounced_stanza) NewStreamWriter).2 = Err ENoName.
Proof.
  split; [reflexivity|].
  refine (proj1 (decoded_error_breaks_the_stream bounced bounced_stanza _ NewStreamWriter
                   (mok tt) [] _ _ _ _ _)); try reflexivity; [apply emits_ok|apply balanced_in_nil].
Defined.

End StanzaExample.

(** ** Common errors *)

(** The type RFC 6120, section 8.3.3, gives for a condition. *)
Definition rfc_type (condition : string) : option string :=
  if bool_decide (condition ∈ ["bad-request"]) then Some "modify"
  else if bool_decide (condition ∈ ["conflict"; "feature-not-implemented"; "internal-server-error"; "item-not-found";
                                    "not-allowed"; "service-unavailable"]) then Some "cancel"
  else if bool_decide (condition ∈ ["forbidden"; "not-authorized"]) then Some "auth"
  else if bool_decide (condition ∈ ["recipient-unavailable"]) then Some "wait"
  else None.

(** The convenience constructors choose the type of the RFC and keep the text. *)
Lemma common_errors_rfc text :
  Forall (λ f : string → StanzaError, rfc_type (e_Condition (f text)) = Some (e_Type (f text)) ∧ e_Text (f text) = text)
    [ErrBadRequest; ErrConflict; ErrFeatureNotImplemented; ErrForbidden; ErrItemNotFound; ErrNotAllowed; ErrNotAuthorized;
     ErrServiceUnavailable; ErrInternalServerError; ErrRecipientUnavailable].
Proof. repeat constructor. Qed.
