(* ===== verification/PluginWire.v ===== *)
(** * Plugin payloads on the wire

    The functions that build payloads (src/plugins/rsm, version, omemo), and what becomes
    of payloads between two programs that use the library.

    [payloads_roundtrip]: a payload of any type of [payloads] is read back with the same
    data, under a name whose namespace is one of src/internal/ns.
    [device_list_published]: the device list that [PublishDeviceListIQ] sends is the one
    the receiver reads.  The module [Lossy] has, for each kind of type in [lossy], a
    payload that changes on its way. *)

From Stdlib Require Import Ascii String ZArith.
From S2P Require Import Prelude GoStrings GoNumbers Xml XmlStruct XmlRoundtrip XmlReader PluginPayloads Jid Stanza.

Open Scope string_scope.
Open Scope list_scope.

(** ** Building payloads *)

Definition no_name : goval := VName (mkName "" "").
Definition no_ptr : goval := VPtr None.

(** src/plugins/rsm/rsm.go: XMLName, After, Before, Count, First, Index, Last, Max. *)
Definition rsm_request (max : Z) (after before : string) : goval :=
  VStruct [no_name; VString after; VString before; no_ptr; no_ptr; no_ptr; VString ""; VPtr (Some (VInt max))].
Definition NewRequest (max : Z) : goval := rsm_request max "" "".
Definition NewRequestAfter (max : Z) (after : string) : goval := rsm_request max after "".
Definition NewRequestBefore (max : Z) (before : string) : goval := rsm_request max "" before.

(** src/plugins/version/version.go; [GOOS] is [runtime.GOOS]. *)
Definition version_New (GOOS name version : string) : goval := VStruct [no_name; VString name; VString version; VString GOOS].
Definition version_Info (p : goval) : goval := p.

(** src/plugins/omemo/omemo.go *)
Definition NodeDeviceList := "urn:xmpp:omemo:2:devicelist".
Definition NodeBundles := "urn:xmpp:omemo:2:bundles".
Definition NewEME : goval := VStruct [no_name; VString "urn:xmpp:omemo:2"; VString "OMEMO"].

(** An iq with its payload: [stanza.IQPayload]. *)
Record IQPayload := mkIQPayload { pl_Header : Header; pl_Payload : goval }.

Definition pubsub_value (publish items : goval) : goval :=
  VStruct [no_name; no_ptr; no_ptr; no_ptr; no_ptr; publish; no_ptr; items; no_ptr].
Definition publish_value (nodeID id : string) (payload : list node) : goval :=
  VPtr (Some (VStruct [no_name; VString nodeID; VSlice [VStruct [no_name; VString id; VRaw payload]]])).
Definition items_value (node : string) : goval := VPtr (Some (VStruct [no_name; VString node; VString ""; no_ptr; VSlice []])).
Definition request_header (typ : string) (to : JID) (rnd : list ascii) : Header :=
  mkHeader (mkName "" "") (GenerateID rnd) JID_zero to typ "".

Definition device_value (id : Z) : goval := VStruct [no_name; VInt id; VString ""].
Definition device_list (devices : list Z) : goval := VStruct [no_name; VSlice (device_value <$> devices)].

(** The error of [xml.Marshal] is dropped, and the payload is then empty. *)
Definition PublishDeviceListIQ (rnd : list ascii) (devices : list Z) : IQPayload :=
  let payload := default [] (Marshal omemo_DeviceList (device_list devices)) in
  mkIQPayload (request_header "set" JID_zero rnd) (pubsub_value (publish_value NodeDeviceList "current" payload) no_ptr).
Definition PublishBundleIQ (rnd : list ascii) (deviceID : Z) (bundleXML : list node) : IQPayload :=
  mkIQPayload (request_header "set" JID_zero rnd) (pubsub_value (publish_value NodeBundles (FormatInt deviceID) bundleXML) no_ptr).
Definition FetchDeviceListIQ (rnd : list ascii) (target : JID) : IQPayload :=
  mkIQPayload (request_header "get" target rnd) (pubsub_value no_ptr (items_value NodeDeviceList)).
Definition FetchBundlesIQ (rnd : list ascii) (target : JID) : IQPayload :=
  mkIQPayload (request_header "get" target rnd) (pubsub_value no_ptr (items_value NodeBundles)).

(** The element [IQPayload.MarshalXML] writes for a payload of type [t]. *)
Definition iq_element (t : gotype) (iq : IQPayload) : option node :=
  l ← Marshal t (pl_Payload iq); Some (Elem (mkName ns_Client "iq") (IQPayload_attrs (pl_Header iq)) l).

(** src/plugins/styling/styling.go *)
Definition IsPreformattedBlock (line : string) : bool := HasPrefix line "```".
Definition IsQuoteLine (line : string) : bool := HasPrefix line "> ".

(** ** Round trips *)

Definition space_of (t : gotype) : option string := fi_xmlns <$> lookupXMLName t.
(** The type names itself in a namespace of the library, or in the one around it. *)
Definition well_known (t : gotype) : bool :=
  match space_of t with Some s => bool_decide (s = "") || bool_decide (s ∈ namespaces) | None => false end.

Lemma payloads_checked : forallb (λ t, is_struct t && well_known t && faithful t) payloads = true.
Proof. by vm_compute. Qed.
Lemma parts_checked : forallb faithful parts = true.
Proof. by vm_compute. Qed.

(** Payloads survive.  A value of any payload type of the plugins, the lossy ones
    apart, is written as an element that is decoded into a value with the same data,
    whatever namespace the element stands in; and the type is named in one of the
    library's namespaces or takes the one of the element around it. *)
Theorem payloads_roundtrip t v ns :
  t ∈ payloads → value_ok t v = true →
  well_known t = true ∧ ∃ l w, Marshal t v = Some l ∧ Unmarshal t ns l = Ok w ∧ strip w = strip v.
Proof.
  intros Hin%list_elem_of_In Hv. pose proof payloads_checked as Hc. rewrite forallb_forall in Hc. specialize (Hc t Hin).
  rewrite !andb_true_iff in Hc. destruct Hc as [[Hs Hw] Hf]. split; [done|]. apply codec_roundtrip; [done| |done|done].
  unfold well_known, space_of in Hw. by destruct (lookupXMLName t).
Qed.

(** C27: payloads cross a connection.  Values of the types in [payloads] (the
    payload types of the plugins but for those in [lossy], which do not survive)
    that the tags can represent ([value_ok]), encoded one after the other on a new
    stream writer with text in between to keep the connection alive, reach the
    connection in full; a peer that decodes them below its open stream element
    with the same types gets values that are equal up to the names the decoder
    fills in ([strip]), in the same order, and has then read everything.  [x_calls] is any sequence of encoder calls that
    writes what the payload's tags ask for. *)
Theorem payload_stream stops xs root :
  Forall (λ x, x_type x ∈ payloads ∧ value_ok (x_type x) (x_value x) = true ∧
               ∀ l, Marshal (x_type x) (x_value x) = Some l → emits (x_calls x) (nodes_tokens l)) xs →
  encode_each xs NewStreamWriter = (mkWriter [] [] (map Tok (written xs)) false, Ok tt) ∧
  ∃ ws, decode_each stops (x_type <$> xs) (mkReader (written xs) [root] None) = (mkReader [] [root] None, Ok ws) ∧
        strip <$> ws = strip ∘ x_value <$> xs.
Proof.
  intros Hxs. apply stream_delivers. eapply Forall_impl; [exact Hxs|]. intros x (Hin%list_elem_of_In & Hv & Hc).
  pose proof payloads_checked as Hp. rewrite forallb_forall in Hp. specialize (Hp _ Hin).
  rewrite !andb_true_iff in Hp. destruct Hp as [[Hs Hw] Hf]. split; try done.
  unfold well_known, space_of in Hw. by destruct (lookupXMLName (x_type x)).
Qed.

(** No two namespaces of the library are the same. *)
Lemma namespaces_distinct : NoDup namespaces.
Proof. apply (bool_decide_unpack _). by vm_compute. Qed.

Lemma strip_devices ids : strip (device_list ids) = device_list ids.
Proof.
  assert (map strip (device_value <$> ids) = device_value <$> ids) as E by (induction ids as [|id ids IH]; [done|]; cbn; by rewrite IH).
  unfold device_list. cbn. by rewrite E.
Qed.

(** C29: the device list that [PublishDeviceListIQ] sends is the one a receiver reads:
    the payload of the iq decodes as a publication of one item, "current", on the node
    of device lists, and the content of that item decodes as the list of the given
    devices, in order. *)
Theorem device_list_published rnd ids :
  Forall (λ id, uint_fits 32 id = true) ids →
  ∃ attrs payload w raw d,
    iq_element pubsub_PubSub (PublishDeviceListIQ rnd ids) = Some (Elem (mkName ns_Client "iq") attrs payload) ∧
    Unmarshal pubsub_PubSub ns_Client payload = Ok w ∧
    strip w = pubsub_value (publish_value NodeDeviceList "current" raw) no_ptr ∧
    Unmarshal omemo_DeviceList "http://jabber.org/protocol/pubsub" raw = Ok d ∧ strip d = device_list ids.
Proof.
  intros Hids.
  assert (value_ok omemo_DeviceList (device_list ids) = true) as Hd.
  { change (forallb (value_ok omemo_Device) (device_value <$> ids) && no_dropped (mkInfo "" "device" MElement false []) (VSlice (device_value <$> ids)) && true = true).
    rewrite !andb_true_r. apply forallb_forall. intros v Hv%list_elem_of_In. apply list_elem_of_fmap in Hv as (id & -> & Hin).
    rewrite Forall_forall in Hids. specialize (Hids id Hin). change (uint_fits 32 id && true = true). by rewrite Hids. }
  destruct (codec_roundtrip omemo_DeviceList (device_list ids) "http://jabber.org/protocol/pubsub") as (raw & d & Hm & Hu & Hs); [done|by eexists|done|done|].
  destruct (codec_roundtrip pubsub_PubSub (pubsub_value (publish_value NodeDeviceList "current" raw) no_ptr) ns_Client)
    as (l & w & Hm' & Hu' & Hs'); [done|by eexists|by vm_compute|by vm_compute|].
  eexists _, l, w, raw, d. unfold iq_element, PublishDeviceListIQ. rewrite Hm. change (default [] (Some raw)) with raw. cbn [pl_Payload]. rewrite Hm'.
  split; [done|]. split; [done|]. split; [by rewrite Hs'|]. split; [done|]. rewrite Hs. apply strip_devices.
Qed.

(** A request for a page of an archive says how long the page may be. *)
Lemma request_roundtrip max after before ns : int_fits 64 max = true →
  ∃ l w, Marshal rsm_Set (rsm_request max after before) = Some l ∧ Unmarshal rsm_Set ns l = Ok w ∧ strip w = rsm_request max after before.
Proof.
  intros Hm. destruct (codec_roundtrip rsm_Set (rsm_request max after before) ns) as (l & w & H1 & H2 & H3); [done|by eexists|by vm_compute| |by eauto].
  change (int_fits 64 max && true && true = true). by rewrite Hm.
Qed.

(** ** Payloads that change *)

Module Lossy.

(** What a program reads of a value that another has written. *)
Definition received (t : gotype) (v : goval) : option goval :=
  l ← Marshal t v; match Unmarshal t ns_Client l with Ok w => Some (strip w) | _ => None end.
(** What it writes if it passes that on. *)
Definition passed_on (t : gotype) (v : goval) : option (list node) :=
  l ← Marshal t v; match Unmarshal t ns_Client l with Ok w => Marshal t w | _ => None end.

Definition delay : goval := VPtr (Some (VStruct [no_name; VString ""; VString "2024-01-01T00:00:00Z"])).
Definition inner : list node := [Elem (mkName ns_Client "message") [] [Elem (mkName "" "body") [] [Text "hi"]]].
Definition delay_node : node := Elem (mkName "urn:xmpp:delay" "delay") [mkAttr (mkName "" "stamp") "2024-01-01T00:00:00Z"] [].

(** A forwarded stanza with a delay, read and written again, has two delays: the field
    [Inner] holds all that is inside the element. *)
Lemma forwarded_delay_doubled :
  Marshal forward_Forwarded (VStruct [no_name; delay; VRaw inner]) =
    Some [Elem (mkName "urn:xmpp:forward:0" "forwarded") [] (delay_node :: inner)] ∧
  passed_on forward_Forwarded (VStruct [no_name; delay; VRaw inner]) =
    Some [Elem (mkName "urn:xmpp:forward:0" "forwarded") [] (delay_node :: delay_node :: inner)].
Proof. by vm_compute. Qed.

(** So do the actions of a command, and the parts of SASL2 elements. *)
Definition note : goval := VPtr (Some (VStruct [no_name; VString "info"; VString "done"])).
Definition command : goval := VStruct [no_name; VString "n"; VString ""; VString ""; VString ""; no_ptr; note; VRaw []].
Definition note_node : node := Elem (mkName "" "note") [mkAttr (mkName "" "type") "info"] [Text "done"].
Lemma command_note_doubled :
  passed_on commands_Command command =
    Some [Elem (mkName "http://jabber.org/protocol/commands" "command") [mkAttr (mkName "" "node") "n"] [note_node; note_node]].
Proof. by vm_compute. Qed.

(** The language of an identity is written as [xml:lang] and looked for as an
    attribute with that local name, which no attribute has. *)
Lemma identity_lang_lost :
  Marshal disco_Identity (VStruct [no_name; VString "client"; VString "pc"; VString "Tkabber"; VString "ru"]) =
    Some [Elem (mkName "" "identity")
            [mkAttr (mkName "" "category") "client"; mkAttr (mkName "" "type") "pc"; mkAttr (mkName "" "name") "Tkabber"; mkAttr (mkName "" "xml:lang") "ru"] []] ∧
  received disco_Identity (VStruct [no_name; VString "client"; VString "pc"; VString "Tkabber"; VString "ru"]) =
    Some (VStruct [no_name; VString "client"; VString "pc"; VString "Tkabber"; VString ""]).
Proof. by vm_compute. Qed.

(** A required field of a form is not marked as required. *)
Lemma required_lost :
  Marshal form_Field (VStruct [no_name; VString "email"; VString ""; VString ""; VBool true; VString ""; VSlice []; VSlice []]) =
    Some [Elem (mkName "" "field") [mkAttr (mkName "" "var") "email"] []].
Proof. by vm_compute. Qed.
(** Neither is an empty value of a field written: the list comes out shorter. *)
Lemma empty_value_lost :
  received form_Field (VStruct [no_name; VString "v"; VString ""; VString ""; VBool false; VString ""; VSlice [VString "a"; VString ""; VString "b"]; VSlice []]) =
    Some (VStruct [no_name; VString "v"; VString ""; VString ""; VBool false; VString ""; VSlice [VString "a"; VString "b"]; VSlice []]).
Proof. by vm_compute. Qed.

(** The condition of a Jingle reason and of a SASL2 failure is not written. *)
Lemma reason_lost :
  Marshal jingle_Reason (VStruct [no_name; VString "decline"; VString ""]) = Some [Elem (mkName "" "reason") [] []] ∧
  Marshal sasl2_Failure (VStruct [no_name; VString "not-authorized"; VString ""]) = Some [Elem (mkName "urn:xmpp:sasl:2" "failure") [] []].
Proof. by vm_compute. Qed.

(** An extension of a bookmark that has a name is written under that name, in place of
    [extensions], and is not found again. *)
Definition extension : goval := VStruct [VName (mkName "urn:example" "pinned"); VRaw []].
Lemma extension_lost :
  received bookmarks_Conference (VStruct [no_name; VBool false; VString ""; VString ""; VString ""; VSlice [extension]]) =
    Some (VStruct [no_name; VBool false; VString ""; VString ""; VString ""; VSlice []]).
Proof. by vm_compute. Qed.

(** The markers of a registration query leave its namespace. *)
Lemma registered_leaves_namespace :
  Marshal register_Query (VStruct [no_name; VPtr (Some (VStruct [no_name])); VString ""; VString ""; VString ""; VString ""; no_ptr; VRaw []]) =
    Some [Elem (mkName "jabber:iq:register" "query") [] [Elem (mkName "" "registered") [mkAttr (mkName "" "xmlns") ""] []]].
Proof. by vm_compute. Qed.

(** A proposal's descriptions choose their namespace with an attribute, and survive. *)
Lemma proposal_received :
  received jingle_Propose (VStruct [no_name; VString "ca3cf894"; VSlice [VStruct [no_name; VString "audio"; VString "urn:xmpp:jingle:apps:rtp:1"]]]) =
    Some (VStruct [no_name; VString "ca3cf894"; VSlice [VStruct [no_name; VString "audio"; VString "urn:xmpp:jingle:apps:rtp:1"]]]).
Proof. by vm_compute. Qed.
End Lossy.

(** ** Payloads that survive, run *)

Module WireExample.
Definition item : goval :=
  VStruct [no_name; VString "bob@example.org"; VString "Bob"; VString "both"; VString ""; VSlice [VString "Friends"; VString "Work"]].

Lemma payloads_roundtrip_witness :
  value_ok roster_Item item = true ∧
  well_known roster_Item = true ∧ ∃ l w, Marshal roster_Item item = Some l ∧ Unmarshal roster_Item "jabber:iq:roster" l = Ok w ∧ strip w = strip item.
Proof.
  assert (value_ok roster_Item item = true) as Hv by (by vm_compute). split; [done|].
  apply payloads_roundtrip; [|exact Hv]. apply list_elem_of_In. unfold payloads. repeat (try (by left); right).
Defined.

(** A roster item, a keep-alive, and a ping. *)
Definition message (t : gotype) (v : goval) (ks : list string) : outgoing := mkOutgoing t v ks (writeInner (default [] (Marshal t v))).
Definition messages : list outgoing := [message roster_Item item []; message ping_Ping (VStruct [no_name]) [" "]].

Lemma payload_stream_witness :
  ∃ ws, decode_each (λ r, r) (x_type <$> messages) (mkReader (written messages) [mkOpened (mkName "" "stream") [] ns_Client] None)
          = (mkReader [] [mkOpened (mkName "" "stream") [] ns_Client] None, Ok ws) ∧
        strip <$> ws = strip ∘ x_value <$> messages.
Proof.
  apply (payload_stream (λ r, r) messages (mkOpened (mkName "" "stream") [] ns_Client)).
  repeat (apply Forall_cons; split); [..|apply Forall_nil; exact I].
  all: split; [apply list_elem_of_In; unfold payloads; repeat (try (by left); right)|split; [by vm_compute|]].
  all: intros l Hl; unfold message in *; cbn [x_calls x_type x_value] in *; rewrite Hl; apply emits_inner.
Defined.

Lemma device_list_published_witness :
  ∃ attrs payload w raw d,
    iq_element pubsub_PubSub (PublishDeviceListIQ [] [12345; 4223]%Z) = Some (Elem (mkName ns_Client "iq") attrs payload) ∧
    Unmarshal pubsub_PubSub ns_Client payload = Ok w ∧
    strip w = pubsub_value (publish_value NodeDeviceList "current" raw) no_ptr ∧
    Unmarshal omemo_DeviceList "http://jabber.org/protocol/pubsub" raw = Ok d ∧ strip d = device_list [12345; 4223]%Z.
Proof. apply device_list_published. by repeat constructor. Defined.
End WireExample.
