(* ===== verification/Sasl.v ===== *)
(** * SASL mechanisms: package [sasl] (src/sasl/)

    The client side of PLAIN, ANONYMOUS, EXTERNAL and SCRAM, the choice of a
    mechanism, and the credentials the server derives from a password
    (src/cmd/xmppd/scram.go).  The hash function, HMAC and PBKDF2 are the
    parameter [Hash]; random bytes are arguments. *)

From Stdlib Require Import Ascii String NArith.
From S2P Require Import Prelude GoStrings Bytes Base64.

Open Scope string_scope.
Open Scope list_scope.

(** ** Shared data *)

Inductive sasl_error :=
  | ErrNoMechanism | ErrAuthFailed | ErrInvalidResponse | ErrChannelBinding
  | ErrBase64                      (* base64.CorruptInputError *)
  | ErrIterations                  (* "sasl: invalid iteration count" *)
  | ErrServer (msg : string)       (* "sasl: server error: ..." *)
  | ErrUnexpectedStep.             (* "sasl: SCRAM unexpected step" *)
#[global] Instance sasl_error_eq_dec : EqDecision sasl_error.
Proof. solve_decision. Defined.

Record Credentials := mkCredentials {
  c_Username : string; c_Password : string; c_AuthzID : string;
  c_ChannelBinding : bytes; c_CBType : string }.

(** [[]byte(s)] and [string(b)]. *)
Definition to_bytes (s : string) : bytes := list_ascii_of_string s.
Definition of_bytes (b : bytes) : string := string_of_list_ascii b.

Definition NUL : string := String "000" "".

(** ** The hash functions behind a SCRAM mechanism *)

Record Hash := mkHash {
  hmac : bytes -> bytes -> bytes;                    (* hmac.New(h, key); Write(data); Sum *)
  hash : bytes -> bytes;                             (* h.Write(data); Sum *)
  pbkdf2_Key : bytes -> bytes -> Z -> bytes          (* pbkdf2.Key(password, salt, iter, size, h) *)
}.

(** Every output has the hash's size. *)
Class HashLaws (H : Hash) (size : nat) := {
  hmac_length : ∀ k d, length (hmac H k d) = size;
  hash_length : ∀ d, length (hash H d) = size
}.

(** ** One-step mechanisms *)

Record Plain := mkPlain { pl_creds : Credentials; pl_completed : bool }.
Definition NewPlain (c : Credentials) : Plain := mkPlain c false.
Definition Plain_Start : M Plain sasl_error bytes :=
  fun p => let resp := c_AuthzID (pl_creds p) +:+ NUL +:+ c_Username (pl_creds p) +:+ NUL
                       +:+ c_Password (pl_creds p) in
           (mkPlain (pl_creds p) true, Ok (to_bytes resp)).
Definition Plain_Next (_ : bytes) : M Plain sasl_error bytes := mok [].

Record Anonymous := mkAnonymous { an_trace : string; an_completed : bool }.
Definition NewAnonymous (trace : string) : Anonymous := mkAnonymous trace false.
Definition Anonymous_Start : M Anonymous sasl_error bytes :=
  fun a => (mkAnonymous (an_trace a) true, Ok (to_bytes (an_trace a))).
Definition Anonymous_Next (_ : bytes) : M Anonymous sasl_error bytes := mok [].

Record External := mkExternal { ex_authzID : string; ex_completed : bool }.
Definition NewExternal (authzID : string) : External := mkExternal authzID false.
Definition External_Start : M External sasl_error bytes :=
  fun e => (mkExternal (ex_authzID e) true,
            if bool_decide (ex_authzID e ≠ "") then Ok (to_bytes (ex_authzID e)) else Ok []).
Definition External_Next (_ : bytes) : M External sasl_error bytes := mok [].

(** ** SCRAM *)

Record SCRAM := mkSCRAM {
  creds : Credentials; hashFunc : Hash; name : string; plus : bool; step : Z;
  clientNonce : string; serverNonce : string; salt : bytes; iterations : Z;
  authMessage : string; saltedPwd : bytes; gs2Header : string; clientFirst : string }.

Definition newSCRAM (c : Credentials) (nm : string) (h : Hash) (pl : bool) : SCRAM :=
  mkSCRAM c h nm pl 0 "" "" [] 0 "" [] "" "".

Definition NewSCRAMSHA1 (sha1 : Hash) c := newSCRAM c "SCRAM-SHA-1" sha1 false.
Definition NewSCRAMSHA1Plus (sha1 : Hash) c := newSCRAM c "SCRAM-SHA-1-PLUS" sha1 true.
Definition NewSCRAMSHA256 (sha256 : Hash) c := newSCRAM c "SCRAM-SHA-256" sha256 false.
Definition NewSCRAMSHA256Plus (sha256 : Hash) c := newSCRAM c "SCRAM-SHA-256-PLUS" sha256 true.
Definition NewSCRAMSHA512 (sha512 : Hash) c := newSCRAM c "SCRAM-SHA-512" sha512 false.
Definition NewSCRAMSHA512Plus (sha512 : Hash) c := newSCRAM c "SCRAM-SHA-512-PLUS" sha512 true.

Definition SCRAM_Completed (s : SCRAM) : bool := (3 <=? step s)%Z.

(** Assignments to fields. *)
Definition set_step v s := mkSCRAM (creds s) (hashFunc s) (name s) (plus s) v (clientNonce s) (serverNonce s) (salt s) (iterations s) (authMessage s) (saltedPwd s) (gs2Header s) (clientFirst s).
Definition set_clientNonce v s := mkSCRAM (creds s) (hashFunc s) (name s) (plus s) (step s) v (serverNonce s) (salt s) (iterations s) (authMessage s) (saltedPwd s) (gs2Header s) (clientFirst s).
Definition set_serverNonce v s := mkSCRAM (creds s) (hashFunc s) (name s) (plus s) (step s) (clientNonce s) v (salt s) (iterations s) (authMessage s) (saltedPwd s) (gs2Header s) (clientFirst s).
Definition set_salt v s := mkSCRAM (creds s) (hashFunc s) (name s) (plus s) (step s) (clientNonce s) (serverNonce s) v (iterations s) (authMessage s) (saltedPwd s) (gs2Header s) (clientFirst s).
Definition set_iterations v s := mkSCRAM (creds s) (hashFunc s) (name s) (plus s) (step s) (clientNonce s) (serverNonce s) (salt s) v (authMessage s) (saltedPwd s) (gs2Header s) (clientFirst s).
Definition set_authMessage v s := mkSCRAM (creds s) (hashFunc s) (name s) (plus s) (step s) (clientNonce s) (serverNonce s) (salt s) (iterations s) v (saltedPwd s) (gs2Header s) (clientFirst s).
Definition set_saltedPwd v s := mkSCRAM (creds s) (hashFunc s) (name s) (plus s) (step s) (clientNonce s) (serverNonce s) (salt s) (iterations s) (authMessage s) v (gs2Header s) (clientFirst s).
Definition set_gs2Header v s := mkSCRAM (creds s) (hashFunc s) (name s) (plus s) (step s) (clientNonce s) (serverNonce s) (salt s) (iterations s) (authMessage s) (saltedPwd s) v (clientFirst s).
Definition set_clientFirst v s := mkSCRAM (creds s) (hashFunc s) (name s) (plus s) (step s) (clientNonce s) (serverNonce s) (salt s) (iterations s) (authMessage s) (saltedPwd s) (gs2Header s) v.

Definition escapeSCRAM (s : string) : string := ReplaceAll (ReplaceAll s "=" "=3D") "," "=2C".

Definition generateNonce (rnd : bytes) : string := EncodeToString rnd.

Definition equals : ascii := "=".
Definition comma : ascii := ",".

(** [if idx := strings.IndexByte(part, '='); idx > 0 { attrs[part[:idx]] = part[idx+1:] }]. *)
Definition add_attribute (attrs : gmap string string) (part : string) : gmap string string :=
  match IndexByte part equals with
  | Some (S i) => <[str_take (S i) part := str_drop (S (S i)) part]> attrs
  | _ => attrs
  end.
Definition parseSCRAMAttributes (s : string) : gmap string string :=
  fold_left add_attribute (Split s comma) ∅.

(** [fmt.Sscanf(s, "%d", &v)]: blanks are skipped (a newline is an error), then a
    sign and the longest run of digits; [None] leaves [v] unchanged. *)
Fixpoint skip_blanks (fuel : nat) (s : string) : option string :=
  match fuel with
  | 0 => Some s
  | S f => if HasPrefix s (byte 10) then None
           else match find_space spaces (HasPrefix s) with
                | Some p => skip_blanks f (str_drop (String.length p) s)
                | None => Some s
                end
  end.
Fixpoint digit_run (s : string) : string :=
  match s with
  | "" => ""
  | String a s' => match digit a with Some _ => String a (digit_run s') | None => "" end
  end.
Definition Sscanf_d (s : string) : option Z :=
  match skip_blanks (String.length s) s with
  | Some (String "-" s') => ParseInt 64 (String "-" (digit_run s'))
  | Some (String "+" s') => ParseInt 64 (String "+" (digit_run s'))
  | Some s' => ParseInt 64 (digit_run s')
  | None => None
  end.

(** [xorBytes] indexes [b] at every index of [a]. *)
Definition xor_byte (x y : ascii) : ascii := ascii_of_N (N.lxor (N_of_ascii x) (N_of_ascii y)).
Definition xorBytes (a b : bytes) : res sasl_error bytes :=
  if (length b <? length a)%nat then Panic else Ok (zip_with xor_byte a b).

Local Open Scope go_scope.

Definition SCRAM_Start (rnd : bytes) : M SCRAM sasl_error bytes :=
  do_ mmodify (set_clientNonce (generateNonce rnd));
  do s <- mget;
  do_ (if plus s then
         if bool_decide (c_ChannelBinding (creds s) = []) then merr ErrChannelBinding
         else mmodify (set_gs2Header ("p=" +:+ c_CBType (creds s) +:+ ",,"))
       else mmodify (set_gs2Header "n,,"));
  do s <- mget;
  do_ mmodify (set_clientFirst ("n=" +:+ escapeSCRAM (c_Username (creds s)) +:+ ",r=" +:+ clientNonce s));
  do_ mmodify (set_step 1);
  do s <- mget;
  mok (to_bytes (gs2Header s +:+ clientFirst s)).

Definition client_key : bytes := to_bytes "Client Key".
Definition server_key : bytes := to_bytes "Server Key".

(** The parts of the server's first message that are used: nonce, salt and
    iteration count, assigned to the receiver one after the other. *)
Definition readServerFirst (parts : gmap string string) : M SCRAM sasl_error unit :=
  do s <- mget;
  do_ match parts !! "r" with
      | Some nonce => if HasPrefix nonce (clientNonce s)
                      then mmodify (set_serverNonce nonce) else merr ErrInvalidResponse
      | None => merr ErrInvalidResponse
      end;
  do_ match parts !! "s" with
      | Some saltB64 => match DecodeString saltB64 with
                        | Some b => mmodify (set_salt b)
                        | None => merr ErrBase64
                        end
      | None => merr ErrInvalidResponse
      end;
  do_ match parts !! "i" with
      | Some iterStr => match Sscanf_d iterStr with
                        | Some n => mmodify (set_iterations n)
                        | None => mok tt
                        end
      | None => merr ErrInvalidResponse
      end;
  do s <- mget;
  if (iterations s <=? 0)%Z then merr ErrIterations else mok tt.

Definition processServerFirst (data : bytes) : M SCRAM sasl_error bytes :=
  do_ readServerFirst (parseSCRAMAttributes (of_bytes data));
  do s <- mget;
  let cbData := to_bytes (gs2Header s) ++ (if plus s then c_ChannelBinding (creds s) else []) in
  let clientFinalNoProof := "c=" +:+ EncodeToString cbData +:+ ",r=" +:+ serverNonce s in
  let H := hashFunc s in
  let salted := pbkdf2_Key H (to_bytes (c_Password (creds s))) (salt s) (iterations s) in
  do_ mmodify (set_saltedPwd salted);
  let clientKey := hmac H salted client_key in
  let storedKey := hash H clientKey in
  let auth := clientFirst s +:+ "," +:+ of_bytes data +:+ "," +:+ clientFinalNoProof in
  do_ mmodify (set_authMessage auth);
  let clientSig := hmac H storedKey (to_bytes auth) in
  do proof <- mlift (xorBytes clientKey clientSig);
  do_ mmodify (set_step 2);
  mok (to_bytes (clientFinalNoProof +:+ ",p=" +:+ EncodeToString proof)).

Definition processServerFinal (data : bytes) : M SCRAM sasl_error bytes :=
  let parts := parseSCRAMAttributes (of_bytes data) in
  match parts !! "e" with
  | Some errMsg => merr (ErrServer errMsg)
  | None =>
      match parts !! "v" with
      | None => merr ErrInvalidResponse
      | Some verifier =>
          do s <- mget;
          let serverKey := hmac (hashFunc s) (saltedPwd s) server_key in
          let expected := hmac (hashFunc s) serverKey (to_bytes (authMessage s)) in
          if bool_decide (verifier ≠ EncodeToString expected) then merr ErrAuthFailed
          else do_ mmodify (set_step 3); mok []
      end
  end.

Definition SCRAM_Next (challenge : bytes) : M SCRAM sasl_error bytes :=
  do s <- mget;
  if (step s =? 1)%Z then processServerFirst challenge
  else if (step s =? 2)%Z then processServerFinal challenge
  else merr ErrUnexpectedStep.

(** ** The [Mechanism] interface and the choice of a mechanism *)

Inductive Mechanism :=
  | MPlain (p : Plain) | MAnonymous (a : Anonymous) | MExternal (e : External) | MSCRAM (s : SCRAM).

Definition Mechanism_Name (m : Mechanism) : string :=
  match m with
  | MPlain _ => "PLAIN" | MAnonymous _ => "ANONYMOUS" | MExternal _ => "EXTERNAL" | MSCRAM s => name s
  end.
Definition Completed (m : Mechanism) : bool :=
  match m with
  | MPlain p => pl_completed p | MAnonymous a => an_completed a
  | MExternal e => ex_completed e | MSCRAM s => SCRAM_Completed s
  end.

(** [rnd] is what a SCRAM mechanism draws its nonce from. *)
Definition lift_mech {S} (inj : S -> Mechanism) (r : S * res sasl_error bytes) : Mechanism * res sasl_error bytes :=
  (inj r.1, r.2).
Definition Start (rnd : bytes) : M Mechanism sasl_error bytes :=
  fun m => match m with
           | MPlain p => lift_mech MPlain (Plain_Start p)
           | MAnonymous a => lift_mech MAnonymous (Anonymous_Start a)
           | MExternal e => lift_mech MExternal (External_Start e)
           | MSCRAM s => lift_mech MSCRAM (SCRAM_Start rnd s)
           end.
Definition Next (challenge : bytes) : M Mechanism sasl_error bytes :=
  fun m => match m with
           | MPlain p => lift_mech MPlain (Plain_Next challenge p)
           | MAnonymous a => lift_mech MAnonymous (Anonymous_Next challenge a)
           | MExternal e => lift_mech MExternal (External_Next challenge e)
           | MSCRAM s => lift_mech MSCRAM (SCRAM_Next challenge s)
           end.

(** [Negotiator.Select]: [offeredSet] holds the offered names. *)
Fixpoint select_first (offered : gset string) (l : list Mechanism) : res sasl_error Mechanism :=
  match l with
  | [] => Err ErrNoMechanism
  | m :: l' => if bool_decide (Mechanism_Name m ∈ offered) then Ok m else select_first offered l'
  end.
Definition Select (mechanisms : list Mechanism) (offered : list string) : res sasl_error Mechanism :=
  select_first (list_to_set offered) mechanisms.

(** ** Stored credentials (src/cmd/xmppd/scram.go)

    [rnd] is the 16 random bytes, [None] when [rand.Read] fails. *)
Record scram_credentials := mkStored {
  sc_salt : string; sc_iters : Z; sc_storedKey : string; sc_serverKey : string }.

Definition hashPasswordSCRAMSHA256 (sha256 : Hash) (rnd : option bytes) (password : string)
    (iters : Z) : option scram_credentials :=
  match rnd with
  | None => None
  | Some saltBytes =>
      let saltedPwd := pbkdf2_Key sha256 (to_bytes password) saltBytes iters in
      let clientKey := hmac sha256 saltedPwd client_key in
      let sk := hash sha256 clientKey in
      let srvKey := hmac sha256 saltedPwd server_key in
      Some (mkStored (EncodeToString saltBytes) iters (EncodeToString sk) (EncodeToString srvKey))
  end.

(** ** SCRAM: what completion means *)

(** Feeding challenges one after the other, whatever each call returns. *)
Definition scram_run (cs : list bytes) (s : SCRAM) : SCRAM :=
  fold_left (fun s c => (SCRAM_Next c s).1) cs s.

(** [d] is a server's first message that [s] has accepted: it extends the
    client's nonce and fixes the salt, the iteration count, the salted password
    and the message both sides sign. *)
Definition accepted_first (s : SCRAM) (d : bytes) : Prop :=
  let parts := parseSCRAMAttributes (of_bytes d) in
  parts !! "r" = Some (serverNonce s) ∧ HasPrefix (serverNonce s) (clientNonce s) = true ∧
  (∃ b64, parts !! "s" = Some b64 ∧ DecodeString b64 = Some (salt s)) ∧
  (∃ it, parts !! "i" = Some it ∧ Sscanf_d it = Some (iterations s)) ∧ (0 < iterations s)%Z ∧
  saltedPwd s = pbkdf2_Key (hashFunc s) (to_bytes (c_Password (creds s))) (salt s) (iterations s) ∧
  ∃ cb, authMessage s = clientFirst s +:+ "," +:+ of_bytes d +:+ ",c=" +:+ cb +:+ ",r=" +:+ serverNonce s.

(** [d] carries the server's signature of that message. *)
Definition verified_final (s : SCRAM) (d : bytes) : Prop :=
  parseSCRAMAttributes (of_bytes d) !! "v" =
  Some (EncodeToString (hmac (hashFunc s) (hmac (hashFunc s) (saltedPwd s) server_key)
                          (to_bytes (authMessage s)))).

Record scram_inv (s0 : SCRAM) (cs : list bytes) (s : SCRAM) : Prop := {
  inv_fixed : creds s = creds s0 ∧ hashFunc s = hashFunc s0 ∧ clientNonce s = clientNonce s0 ∧
              clientFirst s = clientFirst s0;
  inv_steps : (step s = 1 ∧ iterations s <= 0 ∨ step s = 2 ∨ step s = 3)%Z;
  inv_first : (2 <= step s)%Z → ∃ d, d ∈ cs ∧ accepted_first s d;
  inv_final : step s = 3%Z → ∃ d, d ∈ cs ∧ verified_final s d
}.

Local Ltac run := unfold mbnd, mok, merr, mget, mput, mmodify, mlift in *; cbn in *.

(** Reading the server's first message: it either leaves the step and a
    useless iteration count, or fixes nonce, salt and iterations. *)
Lemma readServerFirst_spec parts s s' r :
  (iterations s <= 0)%Z → readServerFirst parts s = (s', r) →
  step s' = step s ∧ creds s' = creds s ∧ hashFunc s' = hashFunc s ∧ clientNonce s' = clientNonce s ∧
  clientFirst s' = clientFirst s ∧ gs2Header s' = gs2Header s ∧ plus s' = plus s ∧
  match r with
  | Ok _ => parts !! "r" = Some (serverNonce s') ∧ HasPrefix (serverNonce s') (clientNonce s) = true ∧
      (∃ b64, parts !! "s" = Some b64 ∧ DecodeString b64 = Some (salt s')) ∧
      (∃ it, parts !! "i" = Some it ∧ Sscanf_d it = Some (iterations s')) ∧ (0 < iterations s')%Z
  | Err _ => (iterations s' <= 0)%Z
  | Panic => False
  end.
Proof.
  intros Hi. unfold readServerFirst. run.
  destruct (parts !! "r") as [nonce|]; [|by intros [= <- <-]].
  destruct (HasPrefix nonce (clientNonce s)) eqn:Hp; [|by intros [= <- <-]].
  destruct (parts !! "s") as [b64|]; [|by intros [= <- <-]].
  destruct (DecodeString b64) as [b|] eqn:Hb; [|by intros [= <- <-]].
  destruct (parts !! "i") as [it|]; [|by intros [= <- <-]].
  destruct (Sscanf_d it) as [n|] eqn:Hn; cbn.
  - destruct (Z.leb_spec n 0); intros [= <- <-]; cbn; [by split_and!|]. split_and!; eauto.
  - destruct (Z.leb_spec (iterations s) 0); [|lia]. intros [= <- <-]. cbn. by split_and!.
Qed.

Lemma xorBytes_ok a b : length a = length b → xorBytes a b = Ok (zip_with xor_byte a b).
Proof. intros H. unfold xorBytes. by rewrite (proj2 (Nat.ltb_ge _ _)) by lia. Qed.

Lemma processServerFirst_spec size d s s' r :
  HashLaws (hashFunc s) size → (iterations s <= 0)%Z → processServerFirst d s = (s', r) →
  creds s' = creds s ∧ hashFunc s' = hashFunc s ∧ clientNonce s' = clientNonce s ∧
  clientFirst s' = clientFirst s ∧ r ≠ Panic ∧
  (step s' = step s ∧ (iterations s' <= 0)%Z ∨ step s' = 2%Z ∧ accepted_first s' d).
Proof.
  intros Hl Hi. unfold processServerFirst, mbnd at 1.
  destruct (readServerFirst _ s) as [s1 r1] eqn:E1. apply readServerFirst_spec in E1 as
    (E1 & E2 & E3 & E4 & E5 & _ & _ & Hr); [|done].
  destruct r1 as [[]|e|]; [|intros [= <- <-]; split_and!; auto|done].
  run. rewrite xorBytes_ok by (rewrite E3, !hmac_length; done).
  intros [= <- <-]; cbn; split_and!; auto. right. split; [done|].
  destruct Hr as (Hr1 & Hr2 & Hr3 & Hr4 & Hr5).
  unfold accepted_first. cbn. rewrite E4. split_and!; auto.
  exists (EncodeToString (to_bytes (gs2Header s1) ++ (if plus s1 then c_ChannelBinding (creds s1) else []))).
  reflexivity.
Qed.

Lemma processServerFinal_spec d s s' r :
  processServerFinal d s = (s', r) →
  r ≠ Panic ∧ (s' = s ∨ s' = set_step 3 s ∧ verified_final s d).
Proof.
  unfold processServerFinal. destruct (_ !! "e"); [intros [= <- <-]; auto|].
  destruct (_ !! "v") as [v|] eqn:Hv; [|intros [= <- <-]; auto]. run.
  case_bool_decide as E; intros [= <- <-]; split; auto. right. split; [done|].
  unfold verified_final. rewrite Hv. f_equal. by destruct (decide (v =
    EncodeToString (hmac (hashFunc s) (hmac (hashFunc s) (saltedPwd s) server_key) (to_bytes (authMessage s))))).
Qed.

Lemma scram_inv_step size s0 cs s c :
  HashLaws (hashFunc s0) size → scram_inv s0 cs s → scram_inv s0 (cs ++ [c]) (SCRAM_Next c s).1.
Proof.
  intros Hl [(F1 & F2 & F3 & F4) Hs H1 H2].
  assert (scram_inv s0 (cs ++ [c]) s) as Hkeep.
  { split; [auto|done|intros (d & Hd & ?)%H1; exists d|intros (d & Hd & ?)%H2; exists d];
      (split; [set_solver|done]). }
  unfold SCRAM_Next. run. destruct (Z.eqb_spec (step s) 1) as [E|E].
  - destruct (processServerFirst c s) as [s' r] eqn:Ep. rewrite <- F2 in Hl.
    apply (processServerFirst_spec size) in Ep as (G1 & G2 & G3 & G4 & _ & Hp); [|done|lia]. cbn.
    split; [split_and!; congruence|lia| |lia].
    intros H. destruct Hp as [[? _]|[_ ?]]; [lia|]. exists c. set_solver.
  - destruct (Z.eqb_spec (step s) 2) as [E2|E2]; [|done].
    destruct (processServerFinal c s) as [s' r] eqn:Ep.
    apply processServerFinal_spec in Ep as [_ [->|[-> Hv]]]; [done|]. cbn.
    destruct (H1 ltac:(lia)) as (d & Hd & Ha).
    split; [split_and!; done|cbn; lia|intros _; exists d; split; [set_solver|done]|].
    intros _. exists c. split; [set_solver|done].
Qed.

(** C25: a SCRAM client is [Completed] only after it has verified the server.
    Whatever challenges it is given after [Start], in whatever order and number,
    if it reports completion then one of them was a server's first message that
    extends the client's own nonce with a positive iteration count and fixes
    salted password and signed message, and one was a final message carrying the
    signature of that message under the server key of that salted password.  An
    error, a repeated or an out-of-turn challenge never completes it. *)
Theorem scram_completion_verified size rnd s cs :
  HashLaws (hashFunc s) size → iterations s = 0%Z → (SCRAM_Start rnd s).2 ≠ Err ErrChannelBinding →
  let s' := scram_run cs (SCRAM_Start rnd s).1 in
  SCRAM_Completed s' = true →
  (∃ d, d ∈ cs ∧ accepted_first s' d) ∧ (∃ d, d ∈ cs ∧ verified_final s' d) ∧
  clientNonce s' = generateNonce rnd ∧ creds s' = creds s.
Proof.
  intros Hl Hi Hst s'.
  set (s0 := (SCRAM_Start rnd s).1) in *.
  assert (step s0 = 1%Z ∧ iterations s0 = 0%Z ∧ hashFunc s0 = hashFunc s ∧ creds s0 = creds s ∧
    clientNonce s0 = generateNonce rnd) as (E1 & E2 & E3 & E4 & E5).
  { subst s0 s'. revert Hst. unfold SCRAM_Start. run. repeat (case_match; run); intros; simplify_eq/=; by split_and!. }
  assert (scram_inv s0 cs s') as [(F1 & F2 & F3 & F4) Hs H1 H2].
  { subst s'. rewrite <- E3 in Hl. clear Hst. induction cs as [|c cs IH] using rev_ind.
    - split; [done| |cbn; lia..]. cbn. lia.
    - unfold scram_run. rewrite fold_left_app. by eapply scram_inv_step. }
  unfold SCRAM_Completed. intros Hc%Z.leb_le. split_and!; [apply H1; lia|apply H2; lia|congruence..].
Qed.

(** ** The exchange with a server that holds the stored credentials

    The server of RFC 5802, as the reference: it knows only what
    [hashPasswordSCRAMSHA256] stored, answers the client's nonce extended by its
    own, checks the proof against the stored key, and signs with the server key. *)

Definition server_first (nonce : string) (c : scram_credentials) (iters : string) : string :=
  "r=" +:+ nonce +:+ ",s=" +:+ sc_salt c +:+ ",i=" +:+ iters.

Definition server_verifies (H : Hash) (c : scram_credentials) (auth : string) (proof : bytes) : bool :=
  match DecodeString (sc_storedKey c) with
  | Some sk => bool_decide (hash H (zip_with xor_byte proof (hmac H sk (to_bytes auth))) = sk)
  | None => false
  end.

Definition server_final (H : Hash) (c : scram_credentials) (auth : string) : option string :=
  match DecodeString (sc_serverKey c) with
  | Some k => Some ("v=" +:+ EncodeToString (hmac H k (to_bytes auth)))
  | None => None
  end.

Lemma xor_byte_invol x y : xor_byte (xor_byte x y) y = x.
Proof.
  unfold xor_byte. rewrite N_ascii_embedding.
  - by rewrite N.lxor_assoc, N.lxor_nilpotent, N.lxor_0_r, ascii_N_embedding.
  - pose proof (N_ascii_bounded x). pose proof (N_ascii_bounded y).
    destruct (N.eq_dec (N.lxor (N_of_ascii x) (N_of_ascii y)) 0%N) as [->|Hn]; [lia|].
    apply (N.log2_lt_pow2 _ 8); [lia|]. eapply N.le_lt_trans; [apply N.log2_lxor|].
    apply N.max_lub_lt.
    + destruct (N.eq_dec (N_of_ascii x) 0%N) as [->|]; [done|]. apply N.log2_lt_pow2; lia.
    + destruct (N.eq_dec (N_of_ascii y) 0%N) as [->|]; [done|]. apply N.log2_lt_pow2; lia.
Qed.

Lemma xor_bytes_invol a b :
  length a = length b → zip_with xor_byte (zip_with xor_byte a b) b = a.
Proof.
  revert b. induction a as [|x a IH]; intros [|y b]; simpl; intros H; try done.
  rewrite xor_byte_invol, IH by lia. done.
Qed.

Lemma enc6_no_comma n : (n < 64)%N → enc6 n ≠ comma.
Proof.
  intros Hn. assert (Forall (λ k, enc6 (N.of_nat k) ≠ comma) (seq 0 64)) as Hall
    by (apply (bool_decide_unpack _); by vm_compute).
  rewrite <- (N2Nat.id n). apply (proj1 (Forall_forall _ _) Hall). apply elem_of_seq. lia.
Qed.

Lemma encode_no_comma b : Forall (λ c, c ≠ comma) (encode b).
Proof.
  assert (pad ≠ comma) as Hp by done.
  induction b as [|x|x y|x y z b IH] using triples_ind; [constructor|..]; byte_bounds; cbn [encode];
    repeat (constructor; [first [exact Hp | apply enc6_no_comma; byte_arith]|]); try exact IH; constructor.
Qed.

Lemma EncodeToString_no_comma b : has_byte comma (EncodeToString b) = false.
Proof.
  apply not_true_iff_false. rewrite has_byte_In. unfold EncodeToString.
  rewrite list_ascii_of_string_of_list_ascii. intros H%list_elem_of_In.
  by apply (proj1 (Forall_forall _ _) (encode_no_comma b)) in H.
Qed.

Lemma parse_server_first nonce c it :
  has_byte comma nonce = false → has_byte comma (sc_salt c) = false → has_byte comma it = false →
  parseSCRAMAttributes (server_first nonce c it) = <["i" := it]> (<["s" := sc_salt c]> (<["r" := nonce]> ∅)).
Proof.
  intros Hn Hs Hi. unfold parseSCRAMAttributes, server_first.
  change ("r=" +:+ nonce +:+ ",s=" +:+ sc_salt c +:+ ",i=" +:+ it)
    with (("r=" +:+ nonce) +:+ String comma ("s=" +:+ sc_salt c +:+ ",i=" +:+ it)).
  rewrite Split_sep by done.
  change ("s=" +:+ sc_salt c +:+ ",i=" +:+ it)
    with (("s=" +:+ sc_salt c) +:+ String comma ("i=" +:+ it)).
  rewrite Split_sep by done. rewrite Split_none by done. simpl.
  unfold add_attribute. simpl. reflexivity.
Qed.

Lemma parse_server_final v :
  has_byte comma v = false → parseSCRAMAttributes ("v=" +:+ v) = <["v" := v]> ∅.
Proof. intros Hv. unfold parseSCRAMAttributes. by rewrite Split_none. Qed.

Lemma of_to_bytes s : of_bytes (to_bytes s) = s.
Proof. apply string_of_list_ascii_of_string. Qed.

(** The message both sides sign. *)
Definition auth_message (bare first noProof : string) : string :=
  bare +:+ "," +:+ first +:+ "," +:+ noProof.
Definition client_bare (user nonce : string) : string :=
  "n=" +:+ escapeSCRAM user +:+ ",r=" +:+ nonce.
Definition gs2 (c : Credentials) (pl : bool) : string :=
  if pl then "p=" +:+ c_CBType c +:+ ",," else "n,,".
Definition client_final (c : Credentials) (pl : bool) (nonce : string) : string :=
  "c=" +:+ EncodeToString (to_bytes (gs2 c pl) ++ (if pl then c_ChannelBinding c else []))
  +:+ ",r=" +:+ nonce.

Lemma Start_ok rnd c nm H pl :
  (pl = true → c_ChannelBinding c ≠ []) →
  SCRAM_Start rnd (newSCRAM c nm H pl) =
  (mkSCRAM c H nm pl 1 (generateNonce rnd) "" [] 0 "" [] (gs2 c pl) (client_bare (c_Username c) (generateNonce rnd)),
   Ok (to_bytes (gs2 c pl +:+ client_bare (c_Username c) (generateNonce rnd)))).
Proof.
  intros Hcb. unfold SCRAM_Start, newSCRAM. run. destruct pl; [|done].
  rewrite bool_decide_false by auto. done.
Qed.

Lemma Next_first c s : step s = 1%Z → SCRAM_Next c s = processServerFirst c s.
Proof. intros H. unfold SCRAM_Next, mbnd, mget. by rewrite H. Qed.
Lemma Next_final c s : step s = 2%Z → SCRAM_Next c s = processServerFinal c s.
Proof. intros H. unfold SCRAM_Next, mbnd, mget. by rewrite H. Qed.

(** The client's answer to a first message with its nonce, a salt and a count. *)
Lemma first_ok size rnd c nm (H : Hash) pl snonce slt it n :
  HashLaws H size → has_byte comma snonce = false → has_byte comma it = false →
  Sscanf_d it = Some n → (0 < n)%Z →
  let nonce := generateNonce rnd +:+ snonce in
  let st := mkStored (EncodeToString slt) n "" "" in
  let first := server_first nonce st it in
  let bare := client_bare (c_Username c) (generateNonce rnd) in
  let salted := pbkdf2_Key H (to_bytes (c_Password c)) slt n in
  let auth := auth_message bare first (client_final c pl nonce) in
  let clientKey := hmac H salted client_key in
  SCRAM_Next (to_bytes first)
    (mkSCRAM c H nm pl 1 (generateNonce rnd) "" [] 0 "" [] (gs2 c pl) bare) =
  (mkSCRAM c H nm pl 2 (generateNonce rnd) nonce slt n auth salted (gs2 c pl) bare,
   Ok (to_bytes (client_final c pl nonce +:+ ",p=" +:+
         EncodeToString (zip_with xor_byte clientKey (hmac H (hash H clientKey) (to_bytes auth)))))).
Proof.
  intros Hl Hs Hc Hit Hn nonce st first bare salted auth clientKey.
  rewrite Next_first by done. unfold processServerFirst, readServerFirst. rewrite of_to_bytes.
  unfold first, st. rewrite parse_server_first; [|
    unfold nonce, generateNonce; rewrite has_byte_app, EncodeToString_no_comma; done|
    apply EncodeToString_no_comma|done].
  rewrite lookup_insert_eq. rewrite (lookup_insert_ne _ "i" "s"), lookup_insert_eq by done.
  rewrite (lookup_insert_ne _ "i" "r"), (lookup_insert_ne _ "s" "r"), lookup_insert_eq by done.
  unfold mbnd, mok, merr, mget, mmodify, mlift. cbn [clientNonce].
  unfold HasPrefix, nonce. rewrite prefix_app. cbn [sc_salt].
  rewrite DecodeString_EncodeToString, Hit. cbn.
  destruct (Z.leb_spec n 0); [lia|]. cbn.
  rewrite xorBytes_ok by (by rewrite !hmac_length). done.
Qed.

(** C24: a client and the stored credentials belong together.  Take any password,
    salt and positive iteration count, the credentials that
    [hashPasswordSCRAMSHA256] derives from them, and a server that knows only
    those: whatever nonces the two sides draw (and with or without channel
    binding), the client's answer to the server's first message carries a proof
    that the server verifies against the stored key, and the signature the
    server answers with makes the client accept and complete. *)
Theorem scram_exchange size rnd c nm (H : Hash) pl snonce slt it n st :
  HashLaws H size → (pl = true → c_ChannelBinding c ≠ []) →
  has_byte comma snonce = false → has_byte comma it = false →
  Sscanf_d it = Some n → (0 < n)%Z →
  hashPasswordSCRAMSHA256 H (Some slt) (c_Password c) n = Some st →
  let nonce := generateNonce rnd +:+ snonce in
  let first := server_first nonce st it in
  let auth := auth_message (client_bare (c_Username c) (generateNonce rnd)) first (client_final c pl nonce) in
  ∃ s1 s2 s3 proof final,
    SCRAM_Start rnd (newSCRAM c nm H pl) =
      (s1, Ok (to_bytes (gs2 c pl +:+ client_bare (c_Username c) (generateNonce rnd)))) ∧
    SCRAM_Next (to_bytes first) s1 =
      (s2, Ok (to_bytes (client_final c pl nonce +:+ ",p=" +:+ EncodeToString proof))) ∧
    server_verifies H st auth proof = true ∧
    server_final H st auth = Some final ∧
    SCRAM_Next (to_bytes final) s2 = (s3, Ok []) ∧ SCRAM_Completed s3 = true.
Proof.
  intros Hl Hcb Hs Hc Hit Hn Hst nonce first auth. injection Hst as <-.
  set (salted := pbkdf2_Key H (to_bytes (c_Password c)) slt n) in *.
  set (clientKey := hmac H salted client_key) in *.
  eexists _, _, _, _, _. split; [by apply Start_ok|].
  split; [by apply (first_ok size)|].
  split. { unfold server_verifies. cbn [sc_storedKey]. rewrite DecodeString_EncodeToString.
    apply bool_decide_eq_true. rewrite xor_bytes_invol; [done|]. by rewrite !hmac_length. }
  split. { unfold server_final. cbn [sc_serverKey]. by rewrite DecodeString_EncodeToString. }
  split; [|shelve].
  rewrite Next_final by done. unfold processServerFinal. rewrite of_to_bytes, parse_server_final by apply EncodeToString_no_comma.
  rewrite lookup_insert_ne, lookup_empty by done. rewrite lookup_insert_eq.
  unfold mbnd, mget, mmodify, mok. cbn [hashFunc saltedPwd authMessage].
  rewrite bool_decide_false by (intros E; by apply E). reflexivity.
  Unshelve. done.
Qed.

(** [Select] takes the client's most preferred mechanism among those offered,
    and fails exactly when there is none. *)
Lemma Select_spec ms offered :
  match Select ms offered with
  | Ok m => ∃ l1 l2, ms = l1 ++ m :: l2 ∧ Mechanism_Name m ∈ offered ∧
                     Forall (λ m', Mechanism_Name m' ∉ offered) l1
  | Err e => e = ErrNoMechanism ∧ Forall (λ m', Mechanism_Name m' ∉ offered) ms
  | Panic => False
  end.
Proof.
  unfold Select. induction ms as [|m ms IH]; simpl; [done|]. case_bool_decide as Hm.
  - exists [], ms. split_and!; [done|set_solver|constructor].
  - assert (Mechanism_Name m ∉ offered) by set_solver.
    destruct (select_first _ ms) as [m'|e|]; [|naive_solver|done].
    destruct IH as (l1 & l2 & -> & ? & ?). exists (m :: l1), l2. split_and!; auto.
Qed.

(** ** Concrete runs *)

Module SaslExample.

(** A hash with four-byte outputs, to evaluate the exchange. *)
Definition toy : Hash := mkHash (fun k d => copy_into 4 (rev (k ++ d)))
  (fun d => copy_into 4 (rev d)) (fun p s n => copy_into 4 (p ++ s)).
#[export] Instance toy_laws : HashLaws toy 4.
Proof. split; intros; apply length_copy_into. Defined.

Definition c := mkCredentials "al,ice" "secret" "" [] "".
Definition rnd : bytes := to_bytes "client".
Definition slt : bytes := to_bytes "salt".

Lemma scram_exchange_witness :
  match hashPasswordSCRAMSHA256 toy (Some slt) "secret" 4096 with
  | Some st => ∃ s1 s2 s3 m1 m2 final,
      SCRAM_Start rnd (newSCRAM c "SCRAM-SHA-256" toy false) = (s1, Ok m1) ∧
      SCRAM_Next (to_bytes (server_first (generateNonce rnd +:+ "xyz") st "4096")) s1 = (s2, Ok m2) ∧
      SCRAM_Next (to_bytes final) s2 = (s3, Ok []) ∧ SCRAM_Completed s3 = true
  | None => False
  end.
Proof.
  cbn [hashPasswordSCRAMSHA256].
  edestruct (scram_exchange 4 rnd c "SCRAM-SHA-256" toy false "xyz" slt "4096" 4096)
    as (s1 & s2 & s3 & proof & final & H1 & H2 & _ & _ & H3 & H4);
    [apply toy_laws|done|reflexivity|reflexivity|reflexivity|lia|reflexivity|].
  eexists s1, s2, s3, _, _, final. eauto.
Defined.

Definition s1 : SCRAM := (SCRAM_Start rnd (newSCRAM c "SCRAM-SHA-256" toy false)).1.
Definition first : bytes :=
  to_bytes (server_first (generateNonce rnd +:+ "xyz") (mkStored (EncodeToString slt) 4096 "" "") "4096").
Definition s2 : SCRAM := scram_run [first] s1.
Definition final : bytes :=
  to_bytes ("v=" +:+ EncodeToString (hmac toy (hmac toy (saltedPwd s2) server_key) (to_bytes (authMessage s2)))).

(** A client that is shown a final message first, then a proper exchange. *)
Lemma scram_completion_verified_witness :
  SCRAM_Completed (scram_run [to_bytes "v=Zm9v"; first; final] s1) = true ∧
  ∃ d, d ∈ [to_bytes "v=Zm9v"; first; final] ∧
       verified_final (scram_run [to_bytes "v=Zm9v"; first; final] s1) d.
Proof.
  split; [vm_compute; reflexivity|].
  refine (proj1 (proj2 (scram_completion_verified 4 rnd (newSCRAM c "SCRAM-SHA-256" toy false)
    [to_bytes "v=Zm9v"; first; final] toy_laws eq_refl _ _))); [|vm_compute; reflexivity].
  by vm_compute.
Defined.

End SaslExample.
