(* ===== verification/Session.v ===== *)
(** * Sessions, handlers and stream features (package [xmpp], src/*.go)

    The session object and its writers (src/session.go), the stanza multiplexer
    and middleware (src/mux.go, src/middleware.go), and which stream features a
    negotiator offers (src/negotiator.go, src/features.go, src/starttls.go,
    src/auth.go, src/bind.go). *)

From Stdlib Require Import Ascii String NArith.
From S2P Require Import Prelude GoStrings Xml Jid Stanza.

Open Scope string_scope.
Open Scope list_scope.
Local Open Scope go_scope.

(** ** Session state: [SessionState] is a [uint32] of flags *)

Definition StateSecure : N := 1.
Definition StateAuthenticated : N := 2.
Definition StateBound : N := 4.
Definition StateReady : N := 8.
Definition StateServer : N := 16.
Definition StateS2S : N := 32.

(** [state & flag != 0]. *)
Definition has_flag (state flag : N) : bool := negb (N.land state flag =? 0)%N.

Record Session := mkSession {
  ss_state : N; ss_closed : bool; ss_local : JID; ss_remote : JID; ss_writer : StreamWriter }.

Inductive session_error :=
  | ESessionClosed | EXml (e : xml_error) | EDecode (e : decode_error) | EUnexpectedEOF
  | ETransport                       (* the transport fails, e.g. in the TLS handshake *)
  | EAddressError (e : jid_error).

Definition SM := M Session session_error.

(** Options and constructor. *)
Inductive SessionOption := WithLocalAddr (j : JID) | WithRemoteAddr (j : JID) | WithState (st : N).
Definition apply_option (s : Session) (o : SessionOption) : Session :=
  match o with
  | WithLocalAddr j => mkSession (ss_state s) (ss_closed s) j (ss_remote s) (ss_writer s)
  | WithRemoteAddr j => mkSession (ss_state s) (ss_closed s) (ss_local s) j (ss_writer s)
  | WithState st => mkSession (u32 st) (ss_closed s) (ss_local s) (ss_remote s) (ss_writer s)
  end.
Definition NewSession (opts : list SessionOption) : Session :=
  fold_left apply_option opts (mkSession 0 false JID_zero JID_zero NewStreamWriter).

(** [SetState] ors flags in, whatever other goroutines do meanwhile: the
    compare-and-swap loop ends with one atomic update. *)
Definition SetState (flags : N) (s : Session) : Session :=
  mkSession (N.lor (ss_state s) (u32 flags)) (ss_closed s) (ss_local s) (ss_remote s) (ss_writer s).
Definition SetRemoteAddr (j : JID) (s : Session) : Session :=
  mkSession (ss_state s) (ss_closed s) (ss_local s) j (ss_writer s).
Definition SetLocalAddr (j : JID) (s : Session) : Session :=
  mkSession (ss_state s) (ss_closed s) j (ss_remote s) (ss_writer s).

(** The writing methods hold the lock, refuse a closed session and run the
    writer; the context is taken as not cancelled. *)
Definition locked_write (m : Enc unit) : SM unit :=
  fun s => if ss_closed s then (s, Err ESessionClosed)
           else let '(w, r) := m (ss_writer s) in
                (mkSession (ss_state s) (ss_closed s) (ss_local s) (ss_remote s) w,
                 match r with Ok _ => Ok tt | Err e => Err (EXml e) | Panic => Panic end).

Definition Send (st : Stanza) : SM unit := locked_write (Encode (encode_Stanza st)).
Definition SendRaw (data : string) : SM unit := locked_write (WriteRaw data).
Definition SendElement (v : Enc unit) : SM unit := locked_write (Encode v).

(** [Close] closes the transport, so later writes fail. *)
Definition Close : SM unit :=
  fun s => if ss_closed s then (s, Ok tt)
           else let w := ss_writer s in
                (mkSession (ss_state s) true (ss_local s) (ss_remote s)
                   (mkWriter (tags w) (buf w) (wire w) true), Ok tt).

(** ** Handlers *)

Section handlers.
Context {W : Type}.

(** A handler runs in a world [W] (the session it is given included). *)
Definition Handler := Stanza -> M W session_error unit.
Definition Middleware := Handler -> Handler.

Record route := mkRoute { r_name : Name; r_stanzaType : string; r_handler : Handler }.
Record Mux := mkMux { routes : list route; middleware : list Middleware; fallback : option Handler }.

Definition NewMux : Mux := mkMux [] [] None.
Definition Mux_Handle (name : Name) (stanzaType : string) (h : Handler) (m : Mux) : Mux :=
  mkMux (routes m ++ [mkRoute name stanzaType h]) (middleware m) (fallback m).
Definition Use (mw : list Middleware) (m : Mux) : Mux :=
  mkMux (routes m) (middleware m ++ mw) (fallback m).
Definition SetFallback (h : option Handler) (m : Mux) : Mux := mkMux (routes m) (middleware m) h.

(** [for i := len(mw) - 1; i >= 0; i-- { handler = mw[i](handler) }]. *)
Definition Chain (h : Handler) (mw : list Middleware) : Handler := foldr (fun f h => f h) h mw.

(** Whether none of the three [continue]s of the loop applies. *)
Definition route_matches (r : route) (h : Header) : bool :=
  negb (bool_decide (r_stanzaType r ≠ "" ∧ r_stanzaType r ≠ h_Type h))
  && negb (bool_decide (Local (r_name r) ≠ "" ∧ Local (r_name r) ≠ Local (h_XMLName h)))
  && negb (bool_decide (Space (r_name r) ≠ "" ∧ Space (r_name r) ≠ Space (h_XMLName h))).

Fixpoint dispatch (rs : list route) (h : Header) : option route :=
  match rs with
  | [] => None
  | r :: rs' => if route_matches r h then Some r else dispatch rs' h
  end.

Definition HandleStanza (m : Mux) (st : Stanza) : M W session_error unit :=
  match dispatch (routes m) (GetHeader st) with
  | Some r => Chain (r_handler r) (middleware m) st
  | None => match fallback m with Some h => h st | None => mok tt end
  end.

(** [LogMiddleware] only logs; [RecoverMiddleware] turns a panic of the handler
    into a nil error. *)
Definition LogMiddleware : Middleware := fun next st => next st.
Definition RecoverMiddleware : Middleware :=
  fun next st w => match next st w with (w', Panic) => (w', Ok tt) | r => r end.

(** ** The read loop

    The input is what the tokenizer finds at the level [Serve] reads: complete
    elements (or character data), the start tag of the stream, which stays open,
    and its end tag; the list's end is the end of the connection. *)
Inductive input := INode (n : node) | IStream (attrs : list Attr) | IStreamEnd.

(** [reader.Skip()] after a start tag: reads up to its end tag. *)
Fixpoint skip_open (depth : nat) (l : list input) : option (list input) :=
  match l with
  | [] => None
  | INode _ :: l' => skip_open depth l'
  | IStream _ :: l' => skip_open (S depth) l'
  | IStreamEnd :: l' => match depth with 0 => Some l' | S d => skip_open d l' end
  end.

(** [Session.Serve]; [closed] tells whether the session is closed.  The [fuel]
    bounds the number of tokens read: one more than the input has is enough. *)
Fixpoint serve_loop (closed : W -> bool) (h : Handler) (fuel : nat) (l : list input) : M W session_error unit :=
  match fuel with
  | 0 => mok tt
  | S fuel' =>
      do w <- mget;
      if closed w then mok tt
      else match l with
           | [] => mok tt
           | INode n :: l' =>
               match decode_stanza n with
               | Some (Ok st) => do_ h st; serve_loop closed h fuel' l'
               | Some (Err e) => merr (EDecode e)
               | Some Panic => mpanic
               | None => serve_loop closed h fuel' l'
               end
           | IStream _ :: l' =>
               match skip_open 0 l' with
               | Some l'' => serve_loop closed h fuel' l''
               | None => merr EUnexpectedEOF
               end
           | IStreamEnd :: l' => serve_loop closed h fuel' l'
           end
  end.
Definition Serve (closed : W -> bool) (h : Handler) (l : list input) : M W session_error unit :=
  serve_loop closed h (S (length l)) l.

End handlers.
Arguments Handler W : clear implicits.
Arguments Middleware W : clear implicits.
Arguments route W : clear implicits.
Arguments Mux W : clear implicits.

(** ** Stream features *)

Record StreamFeature := mkFeature {
  f_Name : Name; f_Required : bool; f_Necessary : N; f_Prohibited : N;
  f_List : Enc unit; f_Negotiate : res session_error N }.

(** A feature that is announced by an empty element. *)
Definition announce (n : Name) (body : Enc unit) : Enc unit :=
  do_ EncodeToken (StartElement n []); do_ body; EncodeToken (EndElement n).

(** [tls] is the outcome of the transport's TLS handshake. *)
Definition StartTLS (tls : res session_error unit) : StreamFeature :=
  mkFeature (mkName ns_TLS "starttls") true 0 StateSecure
    (announce (mkName ns_TLS "starttls") (announce (mkName "" "required") (mok tt)))
    (match tls with Ok _ => Ok StateSecure | Err e => Err e | Panic => Panic end).

Fixpoint list_mechanisms (mechs : list string) : Enc unit :=
  match mechs with
  | [] => mok tt
  | mech :: mechs' =>
      do_ announce (mkName ns_SASL "mechanism") (EncodeToken (CharData mech)); list_mechanisms mechs'
  end.

Definition SASLFeature (mechanisms : list string) : StreamFeature :=
  mkFeature (mkName ns_SASL "mechanisms") true StateSecure StateAuthenticated
    (announce (mkName ns_SASL "mechanisms") (list_mechanisms mechanisms)) (Ok StateAuthenticated).

Definition BindFeature : StreamFeature :=
  mkFeature (mkName ns_Bind "bind") true StateAuthenticated StateBound
    (announce (mkName ns_Bind "bind") (mok tt)) (Ok (N.lor StateBound StateReady)).

(** [Negotiator.Features]. *)
Definition feature_available (state : N) (f : StreamFeature) : bool :=
  negb (negb (f_Necessary f =? 0)%N && negb (N.land state (f_Necessary f) =? f_Necessary f)%N)
  && negb (negb (f_Prohibited f =? 0)%N && has_flag state (f_Prohibited f)).
Definition AddFeature (fs : list StreamFeature) (f : StreamFeature) : list StreamFeature := fs ++ [f].
Definition Features (fs : list StreamFeature) (state : N) : list StreamFeature :=
  List.filter (feature_available state) fs.

(** ** Properties *)

Lemma skip_open_length d l l' : skip_open d l = Some l' → (length l' < length l)%nat.
Proof.
  revert d l'. induction l as [|i l IH]; intros d l'; simpl; [done|].
  destruct i; [intros H%IH; lia|intros H%IH; lia|]. destruct d; [intros [= ->]; lia|intros H%IH; lia].
Qed.

(** The loop never stops for lack of fuel. *)
Lemma serve_loop_fuel {W} (closed : W → bool) h n m l w :
  (length l < n)%nat → (length l < m)%nat → serve_loop closed h n l w = serve_loop closed h m l w.
Proof.
  revert m l w. induction n as [|n IH]; intros m l w Hn Hm; [lia|]. destruct m as [|m]; [lia|].
  cbn [serve_loop]. unfold mbnd, mget.
  destruct (closed w); [done|]. destruct l as [|i l]; [done|]. simpl in *. destruct i as [nd|a|].
  - destruct (decode_stanza nd) as [[st|e|]|]; [|done|done|apply IH; lia].
    destruct (h st w) as [w' [[]|e|]]; [apply IH; lia|done|done].
  - destruct (skip_open 0 l) as [l'|] eqn:E; [|done]. apply skip_open_length in E. apply IH; lia.
  - apply IH; lia.
Qed.

(** The stream's start tag read by [Serve] is skipped with everything that
    follows it: until the stream is closed no stanza reaches the handler. *)
Lemma Serve_skips_the_stream {W} (closed : W → bool) h a ns w :
  closed w = false →
  Serve closed h (IStream a :: map INode ns) w = (w, Err EUnexpectedEOF).
Proof.
  intros Hw. unfold Serve. cbn [serve_loop]. unfold mbnd, mget. rewrite Hw.
  assert (skip_open 0 (map INode ns) = None) as -> by (induction ns; done). done.
Qed.

Lemma decode_header_name attrs h : decode_header attrs = Ok h → h_XMLName h = no_name.
Proof.
  unfold decode_header.
  assert (∀ h0, h_XMLName h0 = no_name → res_fold decode_attr attrs h0 = Ok h → h_XMLName h = no_name)
    as Hgen; [|by apply Hgen].
  induction attrs as [|a attrs IH]; intros h0 H0; simpl; [by intros [= <-]|].
  destruct (decode_attr h0 a) as [h1|e|] eqn:E; simpl; [|done..]. apply IH. revert E.
  unfold decode_attr. repeat case_bool_decide; try (by intros [= <-]).
  all: destruct (unmarshal_jid _ _); simpl; try done; by intros [= <-].
Qed.

Lemma decode_stanza_header n st :
  decode_stanza n = Some (Ok st) → h_XMLName (GetHeader st) = no_name.
Proof.
  destruct n as [name attrs cs| |]; simpl; try done.
  unfold decode_Message, decode_Presence, decode_IQ.
  destruct (decode_header attrs) eqn:E; simpl; repeat case_bool_decide; try done;
    try destruct (decode_priority cs); simpl; intros; simplify_eq/=; by eapply decode_header_name.
Qed.

Definition named {W} (r : route W) : Prop := Local (r_name r) ≠ "" ∨ Space (r_name r) ≠ "".

(** A route registered for an XML name is never taken for a stanza that came
    in on a session.  Whatever element [Serve] decodes, the stanza's header has
    no XML name, so if every route of the multiplexer names one (the element's
    local name, its namespace, or both, as [Handle] documents), no registered
    handler runs: the stanza goes to the fallback, or is dropped when there is
    none. *)
Theorem named_routes_never_match {W} (m : Mux W) n st :
  decode_stanza n = Some (Ok st) → Forall named (routes m) →
  HandleStanza m st = match fallback m with Some h => h st | None => mok tt end.
Proof.
  intros Hd%decode_stanza_header Hr. unfold HandleStanza.
  assert (dispatch (routes m) (GetHeader st) = None) as ->; [|done].
  induction Hr as [|r rs Hn _ IH]; simpl; [done|].
  assert (route_matches r (GetHeader st) = false) as ->; [|done].
  unfold route_matches. rewrite Hd. simpl. destruct Hn as [Hn|Hn].
  - rewrite (bool_decide_true (Local (r_name r) ≠ "" ∧ _)) by done. by rewrite andb_false_r.
  - rewrite (bool_decide_true (Space (r_name r) ≠ "" ∧ _)) by done. by rewrite andb_false_r.
Qed.

(** A handler behind [RecoverMiddleware] does not panic. *)
Lemma RecoverMiddleware_nopanic {W} (h : Handler W) st : nopanic (RecoverMiddleware h st).
Proof. intros w. unfold RecoverMiddleware. by destruct (h st w) as [w' [a|e|]]. Qed.

(** ** The order of negotiation *)

Definition flag_set (state flag : N) : bool := N.testbit state (N.log2 flag).

Lemma land_pow2 s k : N.land s (2 ^ k) = if N.testbit s k then (2 ^ k)%N else 0%N.
Proof.
  apply N.bits_inj. intros i. rewrite N.land_spec, N.pow2_bits_eqb.
  destruct (N.eqb_spec k i) as [->|Hn].
  - destruct (N.testbit s i) eqn:E; simpl; [by rewrite N.pow2_bits_true|done].
  - rewrite andb_false_r. destruct (N.testbit s k); [|done].
    symmetry. apply N.pow2_bits_false. congruence.
Qed.

Lemma has_flag_pow2 s k : has_flag s (2 ^ k) = N.testbit s k.
Proof.
  unfold has_flag. rewrite land_pow2. destruct (N.testbit s k); [|done].
  apply negb_true_iff, N.eqb_neq. apply N.pow_nonzero. done.
Qed.

Lemma available_flags s n nec pro rq l ng :
  feature_available s (mkFeature n rq (2 ^ nec) (2 ^ pro) l ng) = N.testbit s nec && negb (N.testbit s pro).
Proof.
  unfold feature_available. cbn [f_Necessary f_Prohibited]. rewrite has_flag_pow2, land_pow2.
  assert (∀ k, (2 ^ k =? 0)%N = false) as Hp by (intros; by apply N.eqb_neq, N.pow_nonzero).
  rewrite !Hp. destruct (N.testbit s nec); [by rewrite N.eqb_refl|].
  by rewrite N.eqb_sym, Hp.
Qed.

(** The negotiation loop that the features are made for: the first offered
    feature is negotiated and its flags are set, until none is offered. *)
Fixpoint negotiate (fs : list StreamFeature) (fuel : nat) (state : N) (done_ : list Name) : res session_error (N * list Name) :=
  match fuel with
  | 0 => Ok (state, done_)
  | S fuel' =>
      match Features fs state with
      | [] => Ok (state, done_)
      | f :: _ => try flags <- f_Negotiate f;
                  negotiate fs fuel' (N.lor state flags) (done_ ++ [f_Name f])
      end
  end.

Definition standard_features (tls : res session_error unit) (mechs : list string) : list StreamFeature :=
  [StartTLS tls; SASLFeature mechs; BindFeature].

(** With the three standard features a stream can only be negotiated in the
    order TLS, authentication, binding.  Whatever the state (any combination of
    flags), STARTTLS is offered exactly while the stream is not secure, SASL
    exactly when it is secure and not authenticated, binding exactly when it is
    authenticated and not bound; and negotiating what is offered ends, after
    exactly these three features in this order, in a state with all four flags
    set, unless the TLS handshake fails, in which case nothing else is done. *)
Theorem negotiation_order tls mechs state :
  let fs := standard_features tls mechs in
  let sec := N.testbit state 0 in
  let auth := N.testbit state 1 in
  let bound := N.testbit state 2 in
  f_Name <$> Features fs state =
    (if sec then [] else [mkName ns_TLS "starttls"]) ++
    (if sec && negb auth then [mkName ns_SASL "mechanisms"] else []) ++
    (if auth && negb bound then [mkName ns_Bind "bind"] else []) ∧
  negotiate fs 4 StateServer [] =
    match tls with
    | Ok _ => Ok (N.lor StateServer (StateSecure + StateAuthenticated + StateBound + StateReady),
                  [mkName ns_TLS "starttls"; mkName ns_SASL "mechanisms"; mkName ns_Bind "bind"])
    | Err e => Err e
    | Panic => Panic
    end.
Proof.
  split.
  - unfold Features, standard_features. cbn [List.filter].
    assert (feature_available state (StartTLS tls) = negb (N.testbit state 0)) as ->.
    { unfold feature_available. simpl. by rewrite <- (has_flag_pow2 state 0). }
    assert (feature_available state (SASLFeature mechs) = N.testbit state 0 && negb (N.testbit state 1))
      as -> by apply (available_flags state _ 0 1).
    assert (feature_available state BindFeature = N.testbit state 1 && negb (N.testbit state 2))
      as -> by apply (available_flags state _ 1 2).
    destruct (N.testbit state 0), (N.testbit state 1), (N.testbit state 2); done.
  - destruct tls; reflexivity.
Qed.

Module SessionExample.

Definition chat : node := Elem (mkName ns_Client "message") [attr "type" "chat"] [].
Definition chat_stanza : Stanza :=
  SMessage (mkMessage (mkHeader no_name "" JID_zero JID_zero "chat" "") "" "" "" None []).
Definition counter : Handler nat := fun _ n => (S n, Ok tt).
(** A route for messages, as the package's tests register it. *)
Definition m : Mux nat := Mux_Handle (mkName "" "message") "chat" counter NewMux.

Lemma named_routes_never_match_witness :
  decode_stanza chat = Some (Ok chat_stanza) ∧ HandleStanza m chat_stanza 0 = (0, Ok tt) ∧
  HandleStanza m (SMessage (NewMessage "chat" [])) 0 = (1, Ok tt).
Proof.
  split; [reflexivity|]. split; [|reflexivity].
  rewrite (named_routes_never_match m chat chat_stanza); [reflexivity|reflexivity|].
  constructor; [by left|constructor].
Defined.

End SessionExample.
