(* ===== verification/Lifecycle.v ===== *)
(** * Clients, components and servers (src/client.go, src/component.go, src/server.go)

    The objects that own sessions and plugins: which connections and plugins
    are opened and closed, in which order, and what is left open when a step
    fails.  A world holds the session objects by pointer and the log of calls
    to plugins and to the storage.  The server's goroutines (the accept loop,
    one per connection) interleave as the steps of a transition system. *)

From Stdlib Require Import Ascii String NArith.
From S2P Require Import Prelude GoStrings Bytes Xml Dial Jid PluginManager Stanza Session.

Open Scope string_scope.
Open Scope list_scope.
Local Open Scope go_scope.

(** ** The shared world *)

Inductive event := EvInit (plugin : string) | EvClose (plugin : string) | EvStorageInit | EvStorageClose | EvListen | EvUnlisten.

Record World := mkWorld { heap : gmap nat Session; next : nat; log : list event }.
Definition new_world : World := mkWorld ∅ 0 [].

Definition record_events (l : list event) (w : World) : World := mkWorld (heap w) (next w) (log w ++ l).

(** A new session object; the pointer is fresh. *)
Definition alloc (s : Session) (w : World) : nat * World :=
  (next w, mkWorld (<[next w := s]> (heap w)) (S (next w)) (log w)).

(** [Close] of the session behind a pointer. *)
Definition close_session (sid : nat) (w : World) : World :=
  mkWorld (alter (λ s, (Session.Close s).1) sid (heap w)) (next w) (log w).

Definition session_open (w : World) (sid : nat) : Prop := ∃ s, heap w !! sid = Some s ∧ ss_closed s = false.

Inductive life_error :=
  | LDial | LNotConnected | LPlugin (e : plugin_error) | LSession (e : session_error) | LJid (e : jid_error)
  | LStorage (e : string) | LClose (e : string) | LListen | LAccept | LCancelled.

(** Registering and initialising a list of plugins with a new manager; the
    result is the manager, or the error and what had been initialised. *)
Fixpoint register_all (ps : list Plugin) (m : Manager) : Manager * res plugin_error unit :=
  match ps with
  | [] => (m, Ok tt)
  | p :: rest => match Register p m with
                 | (m', Ok _) => register_all rest m'
                 | r => r
                 end
  end.

Definition start_plugins (iters : gmap string Plugin → sort_iters) (ps : list Plugin)
    : list event * res plugin_error Manager :=
  match register_all ps NewManager with
  | (m, Ok _) =>
      let '(m', (calls, r)) := Initialize (iters (plugins m)) m in
      (map EvInit calls, match r with Ok _ => Ok m' | Err e => Err e | Panic => Panic end)
  | (_, Err e) => ([], Err e)
  | (_, Panic) => ([], Panic)
  end.

(** [Close] of a manager: the events and the error. *)
Definition stop_plugins (m : Manager) : list event * option string :=
  let '(calls, e) := PluginManager.Close m in (map EvClose calls, e).

(** ** Client *)

Record clientOptions := mkClientOpts {
  co_tlsConfig : option string; co_dialer : option Dialer; co_directTLS : bool; co_noTLS : bool; co_plugins : list Plugin }.

Inductive ClientOption :=
  | WithClientTLS (config : option string) | WithClientDialer (d : option Dialer) | WithDirectTLS | WithNoTLS
  | WithPlugins (ps : list Plugin).
Definition apply_client_option (o : clientOptions) (opt : ClientOption) : clientOptions :=
  match opt with
  | WithClientTLS c => mkClientOpts c (co_dialer o) (co_directTLS o) (co_noTLS o) (co_plugins o)
  | WithClientDialer d => mkClientOpts (co_tlsConfig o) d (co_directTLS o) (co_noTLS o) (co_plugins o)
  | WithDirectTLS => mkClientOpts (co_tlsConfig o) (co_dialer o) true (co_noTLS o) (co_plugins o)
  | WithNoTLS => mkClientOpts (co_tlsConfig o) (co_dialer o) (co_directTLS o) true (co_plugins o)
  | WithPlugins ps => mkClientOpts (co_tlsConfig o) (co_dialer o) (co_directTLS o) (co_noTLS o) (co_plugins o ++ ps)
  end.

Record Client := mkClient {
  cl_addr : JID; cl_password : string; cl_session : option nat; cl_plugins : option Manager; cl_dialer : Dialer;
  cl_opts : clientOptions }.

Definition NewClient (addr : JID) (password : string) (opts : list ClientOption) : Client :=
  mkClient addr password None None NewDialer (fold_left apply_client_option opts (mkClientOpts None None false false [])).

Definition set_client_session (s : option nat) (c : Client) : Client :=
  mkClient (cl_addr c) (cl_password c) s (cl_plugins c) (cl_dialer c) (cl_opts c).
Definition set_client_plugins (m : option Manager) (c : Client) : Client :=
  mkClient (cl_addr c) (cl_password c) (cl_session c) m (cl_dialer c) (cl_opts c).

Notation LM A := (M (Client * World) life_error A).

Section Connect.
(** The environment of a connection: name resolution, the network, and the
    order in which maps are visited. *)
Variables (sort_Slice : list SRVRecord → list SRVRecord)
  (lookupSRV : string → string → string → option (list SRVRecord)) (connect : attempt → option nat)
  (iters : gmap string Plugin → sort_iters).

Definition client_attempts (c : Client) : list attempt := (Dial sort_Slice lookupSRV connect (cl_dialer c) (j_domain (cl_addr c))).1.

Definition Connect : LM unit :=
  fun '(c, w) =>
    match (Dial sort_Slice lookupSRV connect (cl_dialer c) (j_domain (cl_addr c))).2 with
    | None => ((c, w), Err LDial)
    | Some _ =>
        let '(sid, w) := alloc (NewSession [WithLocalAddr (cl_addr c)]) w in
        let c := set_client_session (Some sid) c in
        if bool_decide (co_plugins (cl_opts c) = []) then ((c, w), Ok tt)
        else
          let '(evs, r) := start_plugins iters (co_plugins (cl_opts c)) in
          let w := record_events evs w in
          match r with
          | Ok m => ((set_client_plugins (Some m) c, w), Ok tt)
          | Err e => ((set_client_session None c, close_session sid w), Err (LPlugin e))
          | Panic => ((c, w), Panic)
          end
    end.

Definition Client_Send (st : Stanza) : LM unit :=
  fun '(c, w) =>
    match cl_session c with
    | None => ((c, w), Err LNotConnected)
    | Some sid =>
        match heap w !! sid with
        | None => ((c, w), Panic)
        | Some s => let '(s', r) := Send st s in
                    ((c, mkWorld (<[sid := s']> (heap w)) (next w) (log w)),
                     match r with Ok _ => Ok tt | Err e => Err (LSession e) | Panic => Panic end)
        end
    end.

(** [Close]: the first error is the plugins' one; closing a session does not
    fail in this model. *)
Definition Client_Close : LM unit :=
  fun '(c, w) =>
    let '(w, e) := match cl_plugins c with
                   | Some m => let '(evs, e) := stop_plugins m in (record_events evs w, e)
                   | None => (w, None)
                   end in
    let w := match cl_session c with Some sid => close_session sid w | None => w end in
    ((set_client_session None (set_client_plugins None c), w),
     match e with Some e => Err (LClose e) | None => Ok tt end).

Definition Client_Plugin (name : string) (c : Client) : option Plugin :=
  match cl_plugins c with Some m => Get m name | None => None end.

(** *** Options *)

Lemma NewClient_dialer addr pw opts : cl_dialer (NewClient addr pw opts) = NewDialer.
Proof. done. Qed.

(** The connection options of a client have no effect: whatever options it is
    created with, [WithDirectTLS], [WithClientTLS] and [WithClientDialer]
    included, [Connect] makes the same attempts as a client without options,
    and every one of them is a plain TCP connection. *)
Theorem client_ignores_tls_options addr pw opts :
  client_attempts (NewClient addr pw opts) = client_attempts (NewClient addr pw []) ∧
  ∀ a, a ∈ client_attempts (NewClient addr pw opts) → a_tls a = None.
Proof.
  split; [done|]. unfold client_attempts. cbn [cl_dialer NewClient cl_addr]. unfold Dial. cbn [DirectTLS NewDialer].
  intros a Ha. match goal with H : _ ∈ (?t).1 |- _ => destruct t as [tried r] eqn:E end.
  apply try_each_spec in E as [(_ & -> & _)|(b & rec & af & conn & _ & _ & -> & _)];
    by apply list_elem_of_fmap in Ha as (x & -> & _).
Qed.

(** *** Opening and closing *)

Hypothesis iters_good : ∀ ps, iters_ok ps (iters ps).

Lemma register_all_no_panic ps m m' : register_all ps m ≠ (m', Panic).
Proof.
  revert m. induction ps as [|p ps IH]; intros m; cbn; [done|]. unfold Register.
  destruct (plugins m !! Name p); [done|apply IH].
Qed.

Lemma start_plugins_spec ps evs r :
  start_plugins iters ps = (evs, r) →
  match r with
  | Ok m => ∃ calls, evs = map EvInit calls ∧ (stop_plugins m).1 = map EvClose (rev calls)
  | Err (ErrInitialize n e) => ∃ pre, evs = map EvInit (pre ++ [n])
  | Err _ => evs = []
  | Panic => False
  end.
Proof.
  unfold start_plugins. destruct (register_all ps NewManager) as [m [?|e|]] eqn:Er.
  - unfold Initialize. pose proof (topologicalSort_cases _ _ (iters_good (plugins m))) as H.
    destruct (topologicalSort (iters (plugins m)) (plugins m)) as [ord|e|]; [| |done].
    2:{ intros [= <- <-]. by destruct e. }
    destruct H as (_ & _ & Hm & _). pose proof (init_loop_spec (plugins m) ord (λ x Hx, proj1 (Hm x) Hx)) as Hi.
    destruct (init_loop (plugins m) ord) as [calls r0] eqn:Ei. intros [= <- <-]. destruct Hi as (rest & -> & Hi).
    destruct r0 as [?|e|]; [|destruct Hi as (pre & x & p & err & -> & -> & _); by exists pre|done].
    destruct Hi as [-> Hi]. rewrite app_nil_r in *. exists calls. split; [done|].
    unfold stop_plugins, PluginManager.Close. cbn [plugins order]. rewrite close_loop_spec; [done|].
    intros x Hx%list_elem_of_In%in_rev%list_elem_of_In. by apply Hm.
  - intros [= <- <-]. assert (∃ n, e = ErrDuplicatePlugin n) as [n ->]; [|done].
    revert Er. generalize NewManager. induction ps as [|p ps IH]; intros m0; cbn; [done|].
    unfold Register. destruct (plugins m0 !! Name p); [intros [= _ <-]; eauto|apply IH].
  - by apply register_all_no_panic in Er.
Qed.

Definition fresh (w : World) : Prop := ∀ sid, (next w ≤ sid)%nat → heap w !! sid = None.

Lemma close_session_open sid w x : session_open (close_session sid w) x ↔ session_open w x ∧ x ≠ sid.
Proof.
  unfold session_open, close_session. cbn [heap]. rewrite lookup_alter. case_decide as E.
  - subst x. destruct (heap w !! sid) as [s|]; cbn; [|by naive_solver]. split; [|naive_solver].
    intros (s' & [= <-] & Hc). revert Hc. unfold Session.Close. destruct (ss_closed s) eqn:E; cbn; [congruence|done].
  - naive_solver.
Qed.

Lemma alloc_open s w sid w' x :
  fresh w → alloc s w = (sid, w') → ss_closed s = false → session_open w' x ↔ session_open w x ∨ x = sid.
Proof.
  unfold alloc. intros Hf [= <- <-] Hs. unfold session_open. cbn [heap]. destruct (decide (x = next w)) as [->|Hx].
  - rewrite lookup_insert_eq. split; [by right|]. intros _. by exists s.
  - rewrite lookup_insert_ne by done. naive_solver.
Qed.

(** What a client leaves open.  A successful [Connect] of an unconnected
    client opens exactly one session and initialises the plugins; [Close] then
    closes that session and those plugins, in reverse order.  A failing
    [Connect] leaves no session open, but the plugins it had initialised before
    the one that failed are never closed: the client forgets their manager, so
    a later [Close] does not reach them either. *)
Theorem client_lifecycle c w c' w' r c2 w2 r2 :
  cl_session c = None → cl_plugins c = None → fresh w →
  Connect (c, w) = ((c', w'), r) → Client_Close (c', w') = ((c2, w2), r2) →
  (∀ sid, session_open w2 sid ↔ session_open w sid) ∧ cl_session c2 = None ∧ cl_plugins c2 = None ∧
  match r with
  | Ok _ => (∃ sid, ∀ x, session_open w' x ↔ session_open w x ∨ x = sid) ∧
            ∃ calls, log w' = log w ++ map EvInit calls ∧ log w2 = log w' ++ map EvClose (rev calls)
  | Err (LPlugin (ErrInitialize n e)) => ∃ pre, log w' = log w ++ map EvInit (pre ++ [n]) ∧ log w2 = log w'
  | Err _ => log w2 = log w
  | Panic => False
  end.
Proof.
  intros Hs Hp Hf. unfold Connect. destruct (Dial _ _ _ _ _).2 as [conn|].
  2:{ intros [= <- <- <-]. unfold Client_Close. rewrite Hs, Hp. intros [= <- <- <-]. split; [done|]. done. }
  destruct (alloc (NewSession [WithLocalAddr (cl_addr c)]) w) as [sid w1] eqn:Ea.
  pose proof (λ x, alloc_open _ _ _ _ x Hf Ea eq_refl) as Ho.
  assert (¬ session_open w sid) as Hn.
  { intros (s & Hl & _). unfold alloc in Ea. injection Ea as <- _. by rewrite (Hf (next w)) in Hl. }
  assert (log w1 = log w) as Hlog by (unfold alloc in Ea; by injection Ea as _ <-).
  assert (∀ m evs, session_open (record_events evs m) = session_open m) as Hrec by done.
  assert (∀ x, session_open w1 x ∧ x ≠ sid ↔ session_open w x) as Hback.
  { intros x. rewrite Ho. split; [naive_solver|]. intros H. split; [by left|]. by intros ->. }
  cbn [cl_opts set_client_session]. case_bool_decide.
  - intros [= <- <- <-]. unfold Client_Close. cbn [cl_plugins set_client_session cl_session]. rewrite Hp.
    intros [= <- <- <-]. split; [intros x; by rewrite close_session_open|]. split; [done|]. split; [done|].
    split; [by exists sid|]. exists []. cbn [map rev]. by rewrite !app_nil_r.
  - destruct (start_plugins iters _) as [evs r1] eqn:Est. pose proof (start_plugins_spec _ _ _ Est) as Hst.
    destruct r1 as [m|e|]; [| |done].
    + destruct Hst as (calls & -> & Hst). intros [= <- <- <-]. unfold Client_Close.
      cbn [cl_plugins set_client_plugins set_client_session cl_session].
      destruct (stop_plugins m) as [evs e]. cbn in Hst. subst evs. intros [= <- <- <-].
      split; [intros x; by rewrite close_session_open, !Hrec|]. split; [done|]. split; [done|].
      split; [exists sid; intros x; by rewrite Hrec|]. exists calls. cbn. by rewrite Hlog.
    + intros [= <- <- <-]. unfold Client_Close. cbn [cl_plugins set_client_session cl_session]. rewrite Hp.
      intros [= <- <- <-]. split; [intros x; by rewrite close_session_open, Hrec|]. split; [done|]. split; [done|].
      destruct e; try (destruct Hst as (pre & ->); exists pre); subst; cbn; by rewrite ?Hlog, ?app_nil_r.
Qed.
End Connect.

(** ** Component *)

Record Component := mkComponent { cm_domain : string; cm_secret : string; cm_session : option nat; cm_addr : string }.
Definition NewComponent (domain secret : string) (addrs : list string) : Component :=
  mkComponent domain secret None (fold_left (λ _ a, a) addrs "localhost:5275").

Section Component.
Variable sha1 : bytes → bytes.
(** Whether dialling the component's address succeeds. *)
Variable dial_ok : string → bool.

Definition Component_Connect : M (Component * World) life_error unit :=
  fun '(c, w) =>
    if negb (dial_ok (cm_addr c)) then ((c, w), Err LDial)
    else match Jid.New "" (cm_domain c) "" with
         | Err e => ((c, w), Err (LJid e))
         | Panic => ((c, w), Panic)
         | Ok domainJID =>
             let s := NewSession [WithLocalAddr domainJID] in
             let header := Open (mkStreamHeader domainJID JID_zero "" "" "" "jabber:component:accept") in
             let '(wr, r) := WriteRaw header (ss_writer s) in
             let s := mkSession (ss_state s) (ss_closed s) (ss_local s) (ss_remote s) wr in
             let '(sid, w) := alloc s w in
             match r with
             | Ok _ => ((mkComponent (cm_domain c) (cm_secret c) (Some sid) (cm_addr c), w), Ok tt)
             | Err e => ((c, close_session sid w), Err (LSession (EXml e)))
             | Panic => ((c, w), Panic)
             end
         end.

Definition Handshake (c : Component) (streamID : string) : string :=
  hex_encode (sha1 (list_ascii_of_string (streamID +:+ cm_secret c))).

Definition Component_Send (st : Stanza) : M (Component * World) life_error unit :=
  fun '(c, w) =>
    match cm_session c with
    | None => ((c, w), Err LNotConnected)
    | Some sid =>
        match heap w !! sid with
        | None => ((c, w), Panic)
        | Some s => let '(s', r) := Send st s in
                    ((c, mkWorld (<[sid := s']> (heap w)) (next w) (log w)),
                     match r with Ok _ => Ok tt | Err e => Err (LSession e) | Panic => Panic end)
        end
    end.

Definition Component_Session (c : Component) : option nat := cm_session c.
Definition Component_Domain (c : Component) : string := cm_domain c.

(** The session stays in place: a closed component still counts as connected. *)
Definition Component_Close : M (Component * World) life_error unit :=
  fun '(c, w) => match cm_session c with
                 | Some sid => ((c, close_session sid w), Ok tt)
                 | None => ((c, w), Ok tt)
                 end.
End Component.

(** ** Server *)

(** A storage backend, by the errors of its [Init] and [Close] and whether it has
    a user store. *)
Record StorageEnv := mkStorageEnv { st_init_err : option string; st_close_err : option string; st_users : bool }.

Inductive auth_source := NoAuth | ExplicitAuth | StoreAuth.
#[export] Instance auth_source_eq_dec : EqDecision auth_source.
Proof. solve_decision. Defined.

Record serverOptions := mkServerOpts {
  so_addr : string; so_tlsCert : string; so_tlsKey : string; so_auth : auth_source; so_storage : option StorageEnv;
  so_plugins : list Plugin }.

Inductive ServerOption :=
  | WithServerAddr (addr : string) | WithServerTLS (cert key : string) | WithServerAuth
  | WithServerStorage (st : StorageEnv) | WithServerPlugins (ps : list Plugin).
Definition apply_server_option (o : serverOptions) (opt : ServerOption) : serverOptions :=
  match opt with
  | WithServerAddr a => mkServerOpts a (so_tlsCert o) (so_tlsKey o) (so_auth o) (so_storage o) (so_plugins o)
  | WithServerTLS c k => mkServerOpts (so_addr o) c k (so_auth o) (so_storage o) (so_plugins o)
  | WithServerAuth => mkServerOpts (so_addr o) (so_tlsCert o) (so_tlsKey o) ExplicitAuth (so_storage o) (so_plugins o)
  | WithServerStorage st => mkServerOpts (so_addr o) (so_tlsCert o) (so_tlsKey o) (so_auth o) (Some st) (so_plugins o)
  | WithServerPlugins ps => mkServerOpts (so_addr o) (so_tlsCert o) (so_tlsKey o) (so_auth o) (so_storage o) (so_plugins o ++ ps)
  end.

Record Server := mkServer {
  sv_domain : string; sv_listener : bool; sv_sessions : gmap string nat; sv_plugins : option Manager;
  sv_opts : serverOptions; sv_closed : bool }.

Definition NewServer (domain : string) (opts : list ServerOption) : Server :=
  mkServer domain false ∅ None (fold_left apply_server_option opts (mkServerOpts "" "" "" NoAuth None [])) false.

Definition set_sessions (m : gmap string nat) (s : Server) : Server :=
  mkServer (sv_domain s) (sv_listener s) m (sv_plugins s) (sv_opts s) (sv_closed s).
Definition set_server_plugins (m : option Manager) (s : Server) : Server :=
  mkServer (sv_domain s) (sv_listener s) (sv_sessions s) m (sv_opts s) (sv_closed s).
Definition set_auth (a : auth_source) (s : Server) : Server :=
  let o := sv_opts s in
  mkServer (sv_domain s) (sv_listener s) (sv_sessions s) (sv_plugins s)
    (mkServerOpts (so_addr o) (so_tlsCert o) (so_tlsKey o) a (so_storage o) (so_plugins o)) (sv_closed s).
Definition set_listener (b : bool) (s : Server) : Server :=
  mkServer (sv_domain s) b (sv_sessions s) (sv_plugins s) (sv_opts s) (sv_closed s).
Definition set_closed (s : Server) : Server :=
  mkServer (sv_domain s) (sv_listener s) (sv_sessions s) (sv_plugins s) (sv_opts s) true.

Notation SvM A := (M (Server * World) life_error A).

Definition emit (l : list event) : SvM unit := fun '(s, w) => ((s, record_events l w), Ok tt).
Definition on_server (f : Server → Server) : SvM unit := fun '(s, w) => ((f s, w), Ok tt).

Section ListenAndServe.
Variable iters : gmap string Plugin → sort_iters.
(** Whether the certificate loads, and whether listening succeeds. *)
Variables (load_cert : string → string → bool) (listen : string → bool).

Definition init_storage : SvM unit :=
  do (s, _) <- mget;
  match so_storage (sv_opts s) with
  | None => mok tt
  | Some st =>
      do_ emit [EvStorageInit];
      match st_init_err st with
      | Some e => merr (LStorage e)
      | None => if bool_decide (so_auth (sv_opts s) = NoAuth) && st_users st then on_server (set_auth StoreAuth) else mok tt
      end
  end.

Definition init_plugins : SvM unit :=
  do (s, _) <- mget;
  if bool_decide (so_plugins (sv_opts s) = []) then mok tt
  else
    let '(evs, r) := start_plugins iters (so_plugins (sv_opts s)) in
    do_ emit evs;
    match r with
    | Ok m => on_server (set_server_plugins (Some m))
    | Err e => merr (LPlugin e)
    | Panic => mpanic
    end.

Definition open_listener : SvM unit :=
  do (s, _) <- mget;
  let o := sv_opts s in
  let addr := if bool_decide (so_addr o = "") then ":5222" else so_addr o in
  if bool_decide (so_tlsCert o ≠ "") && bool_decide (so_tlsKey o ≠ "") && negb (load_cert (so_tlsCert o) (so_tlsKey o))
  then merr LListen
  else if listen addr then (do_ emit [EvListen]; on_server (set_listener true))
  else merr LListen.

(** [ListenAndServe] up to the accept loop. *)
Definition start_server : SvM unit := (do_ init_storage; do_ init_plugins; open_listener).
End ListenAndServe.

Definition close_all (sids : list nat) (w : World) : World := fold_right close_session w sids.

(** [Close]; the sessions are closed in map order, which does not matter. *)
Definition Server_Close : SvM unit :=
  fun '(s, w) =>
    if sv_closed s then ((s, w), Ok tt)
    else
      let s := set_closed s in
      let w := if sv_listener s then record_events [EvUnlisten] w else w in
      let w := close_all (map_to_list (sv_sessions s)).*2 w in
      let '(s, w, e) := match sv_plugins s with
                        | Some m => let '(evs, e) := stop_plugins m in (set_server_plugins None s, record_events evs w, e)
                        | None => (s, w, None)
                        end in
      let '(w, e) := match so_storage (sv_opts s) with
                     | Some st => (record_events [EvStorageClose] w, match e with Some _ => e | None => st_close_err st end)
                     | None => (w, e)
                     end in
      ((s, w), match e with Some e => Err (LClose e) | None => Ok tt end).

(** ** The accept loop and the connections, interleaved

    A goroutine of [handleConn] is at its start, has made its session, is serving
    (its session is registered), has closed its session and still has to delete
    its address from the table, or is done.  [late] records whether the server had
    already been closed when the session was registered. *)
Inductive conn_pc :=
  | PStarted (addr : string)
  | PCreated (addr : string) (sid : nat)
  | PServing (addr : string) (sid : nat) (late : bool)
  | PClosing (addr : string) (sid : nat)
  | PDone (sid : nat).

Inductive serve_pc := SvCheck | SvAccept | SvReturned (r : res life_error unit).

Record Sys := mkSys {
  y_srv : Server; y_world : World; y_conns : gmap nat conn_pc; y_cancelled : bool; y_serve : serve_pc }.

(** The server listens: the accept loop is about to start. *)
Definition start_sys (s : Server) (log : list event) : Sys := mkSys s (mkWorld ∅ 0 log) ∅ false SvCheck.

(** The parts of [handleConn]: the session is made; under the lock it is entered
    in the table; the deferred function closes it; under the lock, the address is
    deleted from the table, whichever session is entered there. *)
Definition conn_create (w : World) : nat * World :=
  alloc (NewSession [WithState StateServer; WithRemoteAddr JID_zero]) w.
Definition conn_register (addr : string) (sid : nat) (s : Server) : Server :=
  set_sessions (<[addr := sid]> (sv_sessions s)) s.
Definition conn_close (sid : nat) (w : World) : World := close_session sid w.
Definition conn_finish (addr : string) (s : Server) : Server :=
  set_sessions (delete addr (sv_sessions s)) s.

Inductive action :=
  | ACancel | ACheck | AAccept (g : nat) (addr : string) | AAcceptFail | ACreate (g : nat) | ARegister (g : nat)
  | AHandler (g : nat) (f : Session → Session) | AConnClose (g : nat) | AFinish (g : nat) | AClose.

(** What a session handler may do to its session: anything but reopen it. *)
Definition handler_ok (f : Session → Session) : Prop := ∀ s, ss_closed s = true → ss_closed (f s) = true.

Inductive step : action → Sys → Sys → Prop :=
  | step_cancel s w cs c pc : step ACancel (mkSys s w cs c pc) (mkSys s w cs true pc)
  | step_check_cancelled s w cs : step ACheck (mkSys s w cs true SvCheck) (mkSys s w cs true (SvReturned (Err LCancelled)))
  | step_check_closed s w cs c :
      sv_closed s = true → step ACheck (mkSys s w cs c SvCheck) (mkSys s w cs c (SvReturned (Ok tt)))
  | step_check_default s w cs :
      sv_closed s = false → step ACheck (mkSys s w cs false SvCheck) (mkSys s w cs false SvAccept)
  | step_accept s w cs c g addr :
      sv_closed s = false → cs !! g = None →
      step (AAccept g addr) (mkSys s w cs c SvAccept) (mkSys s w (<[g := PStarted addr]> cs) c SvCheck)
  | step_accept_fail s w cs c :
      step AAcceptFail (mkSys s w cs c SvAccept)
        (mkSys s w cs c (SvReturned (if sv_closed s then Ok tt else Err LAccept)))
  | step_create s w cs c pc g addr sid w' :
      cs !! g = Some (PStarted addr) → conn_create w = (sid, w') →
      step (ACreate g) (mkSys s w cs c pc) (mkSys s w' (<[g := PCreated addr sid]> cs) c pc)
  | step_register s w cs c pc g addr sid :
      cs !! g = Some (PCreated addr sid) →
      step (ARegister g) (mkSys s w cs c pc)
        (mkSys (conn_register addr sid s) w (<[g := PServing addr sid (sv_closed s)]> cs) c pc)
  | step_handler s w cs c pc g addr sid late f :
      cs !! g = Some (PServing addr sid late) → handler_ok f →
      step (AHandler g f) (mkSys s w cs c pc) (mkSys s (mkWorld (alter f sid (heap w)) (next w) (log w)) cs c pc)
  | step_conn_close s w cs c pc g addr sid late :
      cs !! g = Some (PServing addr sid late) →
      step (AConnClose g) (mkSys s w cs c pc) (mkSys s (conn_close sid w) (<[g := PClosing addr sid]> cs) c pc)
  | step_finish s w cs c pc g addr sid :
      cs !! g = Some (PClosing addr sid) →
      step (AFinish g) (mkSys s w cs c pc) (mkSys (conn_finish addr s) w (<[g := PDone sid]> cs) c pc)
  | step_close s w cs c pc s' w' r :
      Server_Close (s, w) = ((s', w'), r) → step AClose (mkSys s w cs c pc) (mkSys s' w' cs c pc).

(** The states of the runs from [y0] that stay in [P]. *)
Inductive reach (P : Sys → Prop) (y0 : Sys) : Sys → Prop :=
  | reach_refl : P y0 → reach P y0 y0
  | reach_step a y y' : reach P y0 y → step a y y' → P y' → reach P y0 y'.

(** The remote address of a connection that is not done; the entry of the table
    a connection answers for; the session it has not closed yet, with [true] if
    the server did not know the session when it was closed: the session is not
    registered yet, or was registered later. *)
Definition live_addr (p : conn_pc) : option string :=
  match p with
  | PStarted a | PCreated a _ | PServing a _ _ | PClosing a _ => Some a
  | PDone _ => None
  end.
Definition entry (p : conn_pc) : option (string * nat) :=
  match p with PServing a sid _ | PClosing a sid => Some (a, sid) | _ => None end.
Definition owned (p : conn_pc) : option (nat * bool) :=
  match p with PCreated _ sid => Some (sid, true) | PServing _ sid late => Some (sid, late) | _ => None end.

(** Some connection has the view [e]. *)
Definition some_conn {A} (f : conn_pc → option A) (cs : gmap nat conn_pc) (e : A) : Prop :=
  ∃ g p, cs !! g = Some p ∧ f p = Some e.

(** The connections that are not done have distinct remote addresses. *)
Definition distinct_addrs (y : Sys) : Prop :=
  ∀ g g' p p' a, y_conns y !! g = Some p → y_conns y !! g' = Some p' →
    live_addr p = Some a → live_addr p' = Some a → g = g'.

(** What holds with any addresses. *)
Record sys_inv (y : Sys) : Prop := {
  inv_fresh : fresh (y_world y);
  inv_entry addr sid : sv_sessions (y_srv y) !! addr = Some sid → some_conn entry (y_conns y) (addr, sid);
  inv_open sid : session_open (y_world y) sid → ∃ late, some_conn owned (y_conns y) (sid, late) }.

(** What holds in addition when they are distinct. *)
Record exact_inv (y : Sys) : Prop := {
  inv_listed addr sid : some_conn entry (y_conns y) (addr, sid) → sv_sessions (y_srv y) !! addr = Some sid;
  inv_late sid : session_open (y_world y) sid → sv_closed (y_srv y) = true → some_conn owned (y_conns y) (sid, true) }.

Lemma close_session_shape sid w :
  next (close_session sid w) = next w ∧ ∀ x, is_Some (heap (close_session sid w) !! x) ↔ is_Some (heap w !! x).
Proof. split; [done|]. intros x. unfold close_session. cbn. rewrite lookup_alter. case_decide; [subst|done]. by rewrite fmap_is_Some. Qed.

Lemma close_all_shape sids w :
  next (close_all sids w) = next w ∧ (∀ x, is_Some (heap (close_all sids w) !! x) ↔ is_Some (heap w !! x)) ∧
  ∀ x, session_open (close_all sids w) x ↔ session_open w x ∧ x ∉ sids.
Proof.
  induction sids as [|sid sids (IHn & IHh & IHo)]; cbn [close_all foldr].
  { split; [done|]. split; [done|]. intros x. rewrite elem_of_nil. tauto. }
  fold (close_all sids w). destruct (close_session_shape sid (close_all sids w)) as [Hn Hh].
  rewrite Hn, IHn. split; [done|]. split; [intros x; by rewrite Hh, IHh|].
  intros x. rewrite close_session_open, IHo, not_elem_of_cons. tauto.
Qed.

Lemma Server_Close_shape s w s' w' r :
  Server_Close (s, w) = ((s', w'), r) →
  sv_sessions s' = sv_sessions s ∧ sv_closed s' = true ∧ next w' = next w ∧
  (∀ x, is_Some (heap w' !! x) ↔ is_Some (heap w !! x)) ∧
  ∀ x, session_open w' x → session_open w x ∧ (sv_closed s = true ∨ ¬ ∃ a, sv_sessions s !! a = Some x).
Proof.
  unfold Server_Close. destruct (sv_closed s) eqn:Ec.
  { intros [= <- <- <-]. split_and!; try done. intros x Hx. split; [done|by left]. }
  set (sids := (map_to_list (sv_sessions (set_closed s))).*2).
  set (w1 := if sv_listener (set_closed s) then record_events [EvUnlisten] w else w).
  assert (next w1 = next w ∧ heap w1 = heap w) as [En Eh] by (unfold w1; by destruct (sv_listener (set_closed s))).
  destruct (close_all_shape sids w1) as (Hn & Hh & Ho). rewrite Eh in Hh. rewrite En in Hn.
  assert (∀ w2, heap w2 = heap (close_all sids w1) → ∀ x, session_open w2 x →
            session_open w x ∧ (false = true ∨ ¬ ∃ a, sv_sessions s !! a = Some x)) as Hopen.
  { intros w2 E2 x Hx. assert (session_open (close_all sids w1) x) as [Hx1 Hx2]%Ho by (unfold session_open in *; by rewrite <- E2).
    split; [unfold session_open in *; by rewrite <- Eh|]. right. intros (a & Ha). apply Hx2. unfold sids. apply list_elem_of_fmap.
    exists (a, x). split; [done|]. by apply elem_of_map_to_list. }
  clearbody sids w1. generalize dependent (close_all sids w1). intros w2 Hn Hh Ho Hopen.
  destruct (sv_plugins (set_closed s)) as [m|]; [destruct (stop_plugins m) as [evs e]|];
    cbn [sv_opts set_server_plugins set_closed];
    destruct (so_storage (sv_opts s)); intros [= <- <- <-]; (split; [done|split; [done|split; [done|split; [done|]]]]);
    intros x Hx; by apply (Hopen _ eq_refl x Hx).
Qed.

Lemma fresh_mono w w' :
  fresh w → next w' = next w → (∀ x, is_Some (heap w' !! x) → is_Some (heap w !! x)) → fresh w'.
Proof.
  intros Hf En Eh x Hx. rewrite En in Hx. apply eq_None_not_Some. intros Hy%Eh. rewrite (Hf _ Hx) in Hy. by destruct Hy.
Qed.

(** A handler opens no session. *)
Lemma handler_open f sid w x :
  handler_ok f → session_open (mkWorld (alter f sid (heap w)) (next w) (log w)) x → session_open w x.
Proof.
  intros Hf (v & Hv & Hc). cbn in Hv. rewrite lookup_alter in Hv. case_decide; [subst|by exists v].
  destruct (heap w !! x) as [v0|] eqn:E; [|done]. injection Hv as <-.
  exists v0. split; [done|]. destruct (ss_closed v0) eqn:E0; [|done]. by rewrite (Hf _ E0) in Hc.
Qed.


Lemma some_conn_insert {A} (f : conn_pc → option A) cs g p e :
  some_conn f cs e → some_conn f (<[g := p]> cs) e ∨ ∃ q, cs !! g = Some q ∧ f q = Some e.
Proof.
  intros (g' & q & Hg & Hq). destruct (decide (g = g')) as [<-|Hne]; [right; eauto|].
  left. exists g', q. by rewrite lookup_insert_ne.
Qed.

Lemma some_conn_new {A} (f : conn_pc → option A) cs g p e : f p = Some e → some_conn f (<[g := p]> cs) e.
Proof. intros. exists g, p. by rewrite lookup_insert_eq. Qed.

Lemma some_conn_inv {A} (f : conn_pc → option A) cs g p e :
  some_conn f (<[g := p]> cs) e → f p = Some e ∨ ∃ g' q, g' ≠ g ∧ cs !! g' = Some q ∧ f q = Some e.
Proof.
  intros (g' & q & Hg & Hq). destruct (decide (g' = g)) as [->|Hne].
  - rewrite lookup_insert_eq in Hg. injection Hg as ->. by left.
  - rewrite lookup_insert_ne in Hg by done. right; eauto 6.
Qed.

(** The views of the other connections stay when [g] moves. *)
Ltac keep_conn g :=
  match goal with
  | H : some_conn ?f ?cs ?e |- some_conn ?f (<[g := ?p]> ?cs) ?e =>
      destruct (some_conn_insert f cs g p e H) as [?|(? & ? & ?)]; [done|simplify_eq/=; try (by apply some_conn_new)]
  end.

Lemma step_inv a y y' : step a y y' → sys_inv y → sys_inv y'.
Proof.
  intros Hst [Hf He Ho]. destruct Hst as [| | | |s w cs c g addr Hcl Hg| |s w cs c pc g addr sid w' Hg Hc|s w cs c pc g addr sid Hg
    |s w cs c pc g addr sid late f Hg Hh|s w cs c pc g addr sid late Hg|s w cs c pc g addr sid Hg|s w cs c pc s' w' r Hc];
    try done; cbn [y_world y_srv y_conns] in *; split; cbn [y_world y_srv y_conns conn_register conn_finish set_sessions sv_sessions];
    try done.
  - intros a x Hx%He. by keep_conn g.
  - intros x Hx. destruct (Ho _ Hx) as [l Hl]. exists l. by keep_conn g.
  - unfold conn_create, alloc in Hc. injection Hc as <- <-. intros x Hx. cbn in *. rewrite lookup_insert_ne by lia. apply Hf. lia.
  - intros a x Hx%He. by keep_conn g.
  - intros x Hx. apply (alloc_open _ _ _ _ x Hf Hc eq_refl) in Hx as [Hx| ->]; [|exists true; by apply some_conn_new].
    destruct (Ho _ Hx) as [l Hl]. exists l. by keep_conn g.
  - intros a x. rewrite lookup_insert. case_decide; [intros [= <-]; subst; by apply some_conn_new|]. intros Hx%He. by keep_conn g.
  - intros x Hx. destruct (Ho _ Hx) as [l Hl].
    destruct (some_conn_insert owned cs g (PServing addr sid (sv_closed s)) _ Hl) as [?|(q & Hq & Hqx)]; [eauto|].
    simplify_eq/=. exists (sv_closed s). by apply some_conn_new.
  - eapply fresh_mono; [exact Hf|done|]. intros x. cbn. rewrite lookup_alter. case_decide; [subst; by rewrite fmap_is_Some|done].
  - intros x Hx%handler_open; eauto.
  - eapply fresh_mono; [exact Hf|apply close_session_shape|]. intros x. by apply close_session_shape.
  - intros a x Hx%He. by keep_conn g.
  - intros x [Hx Hne]%close_session_open. destruct (Ho _ Hx) as [l Hl]. exists l. by keep_conn g.
  - intros a x. rewrite lookup_delete. case_decide; [done|]. intros Hx%He. by keep_conn g.
  - intros x Hx. destruct (Ho _ Hx) as [l Hl]. exists l. by keep_conn g.
  - destruct (Server_Close_shape _ _ _ _ _ Hc) as (_ & _ & En & Eh & _). eapply fresh_mono; [exact Hf|done|]. intros x. by apply Eh.
  - destruct (Server_Close_shape _ _ _ _ _ Hc) as (-> & _). done.
  - destruct (Server_Close_shape _ _ _ _ _ Hc) as (_ & _ & _ & _ & Ex). intros x [Hx _]%Ex. by apply Ho.
Qed.

Lemma step_exact a y y' :
  step a y y' → sys_inv y → distinct_addrs y → exact_inv y → exact_inv y'.
Proof.
  intros Hst [Hf He Ho] Hd [Hl Hlate].
  destruct Hst as [| | | |s w cs c g addr Hcl Hg| |s w cs c pc g addr sid w' Hg Hc|s w cs c pc g addr sid Hg
    |s w cs c pc g addr sid late f Hg Hh|s w cs c pc g addr sid late Hg|s w cs c pc g addr sid Hg|s w cs c pc s' w' r Hc];
    try done; cbn [y_world y_srv y_conns] in *; split; cbn [y_world y_srv y_conns conn_register conn_finish set_sessions sv_sessions sv_closed];
    try done.
  - intros a x [?|(g' & q & Hne & Hq & Hx)]%some_conn_inv; [done|]. apply Hl. by exists g', q.
  - congruence.
  - intros a x [?|(g' & q & Hne & Hq & Hx)]%some_conn_inv; [done|]. apply Hl. by exists g', q.
  - intros x Hx Hclosed. apply (alloc_open _ _ _ _ x Hf Hc eq_refl) in Hx as [Hx| ->]; [|by apply some_conn_new].
    specialize (Hlate _ Hx Hclosed). by keep_conn g.
  - intros a x [?|(g' & q & Hne & Hq & Hx)]%some_conn_inv; [simplify_eq/=; apply lookup_insert_eq|].
    rewrite lookup_insert_ne; [apply Hl; by exists g', q|]. intros <-. destruct Hne.
    apply (Hd g' g q (PCreated addr sid) addr); try done. by destruct q; simplify_eq/=.
  - intros x Hx Hclosed. specialize (Hlate _ Hx Hclosed). rewrite Hclosed. by keep_conn g.
  - intros x Hx%handler_open Hclosed; eauto.
  - intros a x [?|(g' & q & Hne & Hq & Hx)]%some_conn_inv; apply Hl; [by exists g, (PServing addr sid late)|by exists g', q].
  - intros x [Hx Hne]%close_session_open Hclosed. specialize (Hlate _ Hx Hclosed). by keep_conn g.
  - intros a x [?|(g' & q & Hne & Hq & Hx)]%some_conn_inv; [done|].
    rewrite lookup_delete_ne; [apply Hl; by exists g', q|]. intros <-. destruct Hne.
    apply (Hd g' g q (PClosing addr sid) addr); try done. by destruct q; simplify_eq/=.
  - intros x Hx Hclosed. specialize (Hlate _ Hx Hclosed). by keep_conn g.
  - destruct (Server_Close_shape _ _ _ _ _ Hc) as (-> & _). done.
  - destruct (Server_Close_shape _ _ _ _ _ Hc) as (_ & _ & _ & _ & Ex). intros x Hx _.
    destruct (Ex x Hx) as [Hw [Hcl|Hn]]; [by apply Hlate|]. destruct (Ho _ Hw) as (l & g & p & Hg & Hp).
    destruct p; simplify_eq/=; [by exists g, (PCreated addr x)|].
    destruct Hn. exists addr. apply Hl. by exists g, (PServing addr x l).
Qed.

Lemma reach_inv P s log y :
  sv_sessions s = ∅ → reach P (start_sys s log) y →
  P y ∧ sys_inv y ∧ ((∀ y', P y' → distinct_addrs y') → exact_inv y).
Proof.
  intros Hs Hr. assert (∀ f e, ¬ some_conn (A := string * nat) f ∅ e) as Hno by (intros f e (g & p & Hg & _); by rewrite lookup_empty in Hg).
  induction Hr as [HP|a y y' Hr IH Hst HP].
  - split; [done|]. split; [split|intros _; split]; cbn.
    + intros sid _. apply lookup_empty.
    + intros addr sid. by rewrite Hs, lookup_empty.
    + intros sid (x & Hx & _). cbn in Hx. by rewrite lookup_empty in Hx.
    + intros addr sid []%Hno.
    + intros sid (x & Hx & _). cbn in Hx. by rewrite lookup_empty in Hx.
  - destruct IH as (HPy & Hi & He). split; [done|]. split; [by eapply step_inv|].
    intros Hd. eapply step_exact; eauto.
Qed.

(** C19: the server's table of sessions, in every interleaving of the accept
    loop, the parts of each connection's goroutine, the session handlers and
    [Close], through states in [P].  Always: an entry of the table is the session
    of a connection from that address that has registered it and has not deleted
    it yet, and an open session belongs to a connection that has not closed it.
    If in addition the connections that are not done have distinct remote
    addresses throughout the run: every connection that has registered its session
    and not deleted it is in the table, and once the server is closed the only
    open sessions are those registered after the closing or not registered yet.
    ([LifecycleExample.reused_reachable] is a run with a reused address, after
    which an open session is missing from the table.) *)
Theorem server_sessions_exact P s log y :
  sv_sessions s = ∅ → reach P (start_sys s log) y →
  (∀ addr sid, sv_sessions (y_srv y) !! addr = Some sid → some_conn entry (y_conns y) (addr, sid)) ∧
  (∀ sid, session_open (y_world y) sid → ∃ late, some_conn owned (y_conns y) (sid, late)) ∧
  ((∀ y', P y' → distinct_addrs y') →
    (∀ addr sid, some_conn entry (y_conns y) (addr, sid) → sv_sessions (y_srv y) !! addr = Some sid) ∧
    (∀ sid, session_open (y_world y) sid → sv_closed (y_srv y) = true → some_conn owned (y_conns y) (sid, true))).
Proof.
  intros Hs Hr. destruct (reach_inv _ _ _ _ Hs Hr) as (_ & [_ He Ho] & Hx). split; [done|]. split; [done|].
  intros Hd. by destruct (Hx Hd).
Qed.

Module LifecycleExample.
Definition disco := mkPlugin "disco" [] None None.
Definition caps := mkPlugin "caps" ["disco"] (Some "no hash") None.
Definition client : Client := NewClient (mkJID "alice" "example.org" "") "secret" [WithPlugins [disco; caps]; WithDirectTLS].

Definition reachable (a : attempt) : option nat := Some 0.

Lemma client_lifecycle_witness :
  ∃ c' w', Connect DialExample.sort DialExample.lookup reachable canonical_iters (client, new_world) =
    ((c', w'), Err (LPlugin (ErrInitialize "caps" "no hash"))) ∧
  (∃ pre, log w' = map EvInit (pre ++ ["caps"]) ∧ log (Client_Close (c', w')).1.2 = log w').
Proof.
  eexists _, _. split; [by vm_compute|].
  refine (proj2 (proj2 (proj2 (client_lifecycle DialExample.sort DialExample.lookup reachable canonical_iters
    canonical_iters_ok client new_world _ _ (Err (LPlugin (ErrInitialize "caps" "no hash"))) _ _ _ eq_refl eq_refl _ _ _)))).
  - intros sid _. apply lookup_empty.
  - by vm_compute.
  - vm_compute; reflexivity.
Defined.

Definition server : Server := NewServer "example.org" [WithServerAuth].
Definition y0 : Sys := start_sys server [].

(** A connection accepted before [Close] that registers its session after it. *)
Definition peer : string := "192.0.2.1:40000".
Definition fresh_session : Session := NewSession [WithState StateServer; WithRemoteAddr JID_zero].
Definition raced : Sys :=
  mkSys (conn_register peer 0 (set_closed server)) (mkWorld (<[0%nat := fresh_session]> ∅) 1 [])
    (<[1%nat := PServing peer 0 true]> (<[1%nat := PCreated peer 0]> (<[1%nat := PStarted peer]> ∅)))
    false (SvReturned (Ok tt)).

(** A state with no connection but the first. *)
Definition one_conn (y : Sys) : Prop := delete 1%nat (y_conns y) = ∅.

Lemma one_conn_distinct y : one_conn y → distinct_addrs y.
Proof.
  intros Ho. assert (∀ g p, y_conns y !! g = Some p → g = 1%nat) as H1.
  { intros g p Hg. destruct (decide (g = 1%nat)) as [|Hne]; [done|].
    rewrite <- (lookup_delete_ne _ 1%nat) in Hg by done. by rewrite Ho, lookup_empty in Hg. }
  intros g g' p p' a Hg Hg' _ _. by rewrite (H1 _ _ Hg), (H1 _ _ Hg').
Qed.

Lemma raced_reachable : reach one_conn y0 raced.
Proof.
  pose (w := mkWorld ∅ 0 []). pose (w1 := mkWorld (<[0%nat := fresh_session]> ∅) 1 []).
  pose (cs := <[1%nat := PStarted peer]> (∅ : gmap nat conn_pc)). pose (cs1 := <[1%nat := PCreated peer 0]> cs).
  apply (reach_step _ _ (ARegister 1) (mkSys (set_closed server) w1 cs1 false (SvReturned (Ok tt)))); [| |done].
  2:{ by apply (step_register (set_closed server) w1 cs1 false (SvReturned (Ok tt)) 1 peer 0). }
  apply (reach_step _ _ (ACreate 1) (mkSys (set_closed server) w cs false (SvReturned (Ok tt)))); [| |done].
  2:{ by apply (step_create (set_closed server) w cs false (SvReturned (Ok tt)) 1 peer 0). }
  apply (reach_step _ _ ACheck (mkSys (set_closed server) w cs false SvCheck)); [|by constructor|done].
  apply (reach_step _ _ AClose (mkSys server w cs false SvCheck)); [| |done].
  2:{ by apply (step_close _ _ _ _ _ _ _ (Ok tt)). }
  apply (reach_step _ _ (AAccept 1 peer) (mkSys server w ∅ false SvAccept)); [|by constructor|done].
  apply (reach_step _ _ ACheck y0); [by apply reach_refl|by constructor|done].
Qed.

Lemma server_sessions_exact_witness :
  session_open (y_world raced) 0 ∧ some_conn owned (y_conns raced) (0, true)%nat ∧ sv_sessions (y_srv raced) !! peer = Some 0%nat.
Proof.
  assert (session_open (y_world raced) 0) as Ho by (eexists; split; reflexivity). split; [exact Ho|].
  destruct (server_sessions_exact one_conn server [] raced eq_refl raced_reachable) as (_ & _ & Hd).
  destruct (Hd one_conn_distinct) as [Hl Hc]. split; [by apply Hc|]. apply Hl. apply some_conn_new. reflexivity.
Defined.

(** A remote address used again: the socket of connection 1 is closed, its peer
    connects again from the same port, and connection 1 then deletes the address,
    and with it the entry of connection 2, whose session is open. *)
Definition reused : Sys :=
  mkSys (conn_finish peer (conn_register peer 1 (conn_register peer 0 server)))
    (mkWorld (<[1%nat := fresh_session]> (alter (λ s, (Session.Close s).1) 0%nat (<[0%nat := fresh_session]> ∅))) 2 [])
    {[1%nat := PDone 0; 2%nat := PServing peer 1 false]} false SvCheck.

Lemma reused_reachable :
  reach (λ _, True) y0 reused ∧ session_open (y_world reused) 1 ∧ sv_sessions (y_srv reused) = ∅.
Proof.
  split; [|by split; [eexists|]].
  pose (w1 := mkWorld (<[0%nat := fresh_session]> ∅) 1 []).
  pose (w2 := conn_close 0 w1). pose (w3 := mkWorld (<[1%nat := fresh_session]> (heap w2)) 2 []).
  pose (s1 := conn_register peer 0 server). pose (s2 := conn_register peer 1 s1).
  pose (cs := <[1%nat := PStarted peer]> (∅ : gmap nat conn_pc)).
  pose (cs1 := <[1%nat := PCreated peer 0]> cs). pose (cs2 := <[1%nat := PServing peer 0 false]> cs1).
  pose (cs3 := <[1%nat := PClosing peer 0]> cs2). pose (cs4 := <[2%nat := PStarted peer]> cs3).
  pose (cs5 := <[2%nat := PCreated peer 1]> cs4). pose (cs6 := <[2%nat := PServing peer 1 false]> cs5).
  apply (reach_step _ _ (AFinish 1) (mkSys s2 w3 cs6 false SvCheck)); [| |done].
  2:{ by apply (step_finish s2 w3 cs6 false SvCheck 1 peer 0). }
  apply (reach_step _ _ (ARegister 2) (mkSys s1 w3 cs5 false SvCheck)); [| |done].
  2:{ by apply (step_register s1 w3 cs5 false SvCheck 2 peer 1). }
  apply (reach_step _ _ (ACreate 2) (mkSys s1 w2 cs4 false SvCheck)); [| |done].
  2:{ by apply (step_create s1 w2 cs4 false SvCheck 2 peer 1). }
  apply (reach_step _ _ (AAccept 2 peer) (mkSys s1 w2 cs3 false SvAccept)); [|by constructor|done].
  apply (reach_step _ _ (AConnClose 1) (mkSys s1 w1 cs2 false SvAccept)); [| |done].
  2:{ by apply (step_conn_close s1 w1 cs2 false SvAccept 1 peer 0 false). }
  apply (reach_step _ _ ACheck (mkSys s1 w1 cs2 false SvCheck)); [|by constructor|done].
  apply (reach_step _ _ (ARegister 1) (mkSys server w1 cs1 false SvCheck)); [| |done].
  2:{ by apply (step_register server w1 cs1 false SvCheck 1 peer 0). }
  apply (reach_step _ _ (ACreate 1) (mkSys server new_world cs false SvCheck)); [| |done].
  2:{ by apply (step_create server new_world cs false SvCheck 1 peer 0). }
  apply (reach_step _ _ (AAccept 1 peer) (mkSys server new_world ∅ false SvAccept)); [|by constructor|done].
  apply (reach_step _ _ ACheck y0); [by apply reach_refl|by constructor|done].
Qed.

(** Options that ask for TLS, and the attempt that is made. *)
Example direct_tls_is_ignored :
  client_attempts DialExample.sort DialExample.lookup reachable client = [mkAttempt "b.example.org.:5222" None].
Proof. by vm_compute. Qed.

(** Connecting twice: the first session stays open after [Close]. *)
Example reconnect_leaks_a_session :
  let c := NewClient (mkJID "alice" "example.org" "") "secret" [] in
  let connect := Connect DialExample.sort DialExample.lookup reachable canonical_iters in
  let '((c, w), r) := (do_ connect; do_ connect; Client_Close) (c, new_world) in
  (r, cl_session c, ss_closed <$> heap w) = (Ok tt, None, {[0%nat := false; 1%nat := true]}).
Proof. by vm_compute. Qed.
End LifecycleExample.
