(* ===== verification/PluginState.v ===== *)
(** * Plugins that keep their own state (src/plugins/...)

    Stream management (sm), service discovery (disco), entity capabilities
    (caps), presence, data forms (form), hashes (hash), the OMEMO device lists
    (omemo), and the two-valued plugins csi and carbons.  Every method runs
    under the plugin's lock. *)

From Stdlib Require Import Ascii String ZArith NArith.
From stdpp Require Import pretty.
From S2P Require Import Prelude GoStrings Bytes Base64.

Open Scope string_scope.
Open Scope list_scope.

(** ** Stream management: XEP-0198 (plugins/sm) *)

Record SmPlugin := mkSm { sm_inbound : N; sm_outbound : N; sm_queue : list bytes; sm_id : string }.
Definition sm_New : SmPlugin := mkSm 0 0 [] "".

Definition IncrementInbound (p : SmPlugin) : SmPlugin := mkSm (u32_add (sm_inbound p) 1) (sm_outbound p) (sm_queue p) (sm_id p).
Definition IncrementOutbound (p : SmPlugin) : SmPlugin := mkSm (sm_inbound p) (u32_add (sm_outbound p) 1) (sm_queue p) (sm_id p).
Definition Enqueue (data : bytes) (p : SmPlugin) : SmPlugin :=
  mkSm (sm_inbound p) (sm_outbound p) (sm_queue p ++ [data]) (sm_id p).

(** [int(h) - int(p.outbound.Load() - uint32(len(p.queue)))]: the subtraction
    inside wraps, the outer one is on 64-bit integers. *)
Definition Ack (h : N) (p : SmPlugin) : SmPlugin :=
  let base := u32_sub (sm_outbound p) (N.of_nat (length (sm_queue p))) in
  let diff := (Z.of_N h - Z.of_N base)%Z in
  if (0 <? diff)%Z && (diff <=? Z.of_nat (length (sm_queue p)))%Z
  then mkSm (sm_inbound p) (sm_outbound p) (drop (Z.to_nat diff) (sm_queue p)) (sm_id p)
  else p.
Definition SetID (id : string) (p : SmPlugin) : SmPlugin := mkSm (sm_inbound p) (sm_outbound p) (sm_queue p) id.

(** The plugin of a stream on which [sent] was sent, of which [acked] stanzas
    were acknowledged. *)
Record tracks (p : SmPlugin) (sent : list bytes) (acked : nat) : Prop := {
  tr_acked : (acked ≤ length sent)%nat;
  tr_outbound : sm_outbound p = u32 (N.of_nat (length sent));
  tr_queue : sm_queue p = drop acked sent }.

(** Sending a stanza: it is counted and queued. *)
Definition sm_send (data : bytes) (p : SmPlugin) : SmPlugin := Enqueue data (IncrementOutbound p).

Lemma tracks_New : tracks sm_New [] 0.
Proof. by split. Qed.

Lemma u32_add_u32 a b : u32_add (u32 a) b = u32 (a + b).
Proof. unfold u32_add, u32. by rewrite N.Div0.add_mod_idemp_l. Qed.

Lemma tracks_send p sent acked data : tracks p sent acked → tracks (sm_send data p) (sent ++ [data]) acked.
Proof.
  intros [Ha Ho Hq]. split; cbn.
  - rewrite length_app. cbn. lia.
  - rewrite Ho, u32_add_u32, length_app. cbn. f_equal. lia.
  - rewrite Hq, drop_app_le by done. done.
Qed.

(** The counter of the first queued stanza. *)
Lemma tracks_base p sent acked :
  tracks p sent acked → (N.of_nat (length (sm_queue p)) < two32)%N →
  u32_sub (sm_outbound p) (N.of_nat (length (sm_queue p))) = u32 (N.of_nat acked).
Proof.
  intros [Ha Ho Hq]. rewrite Ho, Hq, length_drop. intros Hl. unfold u32_sub, u32. rewrite (N.mod_small (N.of_nat (length sent - acked)) two32) by done.
  rewrite N.Div0.add_mod_idemp_l.
  replace (N.of_nat (length sent) + (two32 - N.of_nat (length sent - acked)))%N with (N.of_nat acked + 1 * two32)%N by lia.
  by rewrite N.Div0.mod_add.
Qed.

(** C34: what an acknowledgement does.  On a stream where every stanza sent was
    counted and queued, of which [acked] were acknowledged, an acknowledgement of
    [k] stanzas drops exactly the stanzas up to [k] and keeps the rest in order,
    as long as the 32-bit counter has not wrapped between the two; when it has,
    the acknowledgement is ignored and the queue keeps stanzas the peer has
    already confirmed. *)
Theorem sm_ack p sent acked k :
  tracks p sent acked → (acked ≤ k ≤ length sent)%nat → (N.of_nat (length sent - acked) < two32)%N →
  tracks (Ack (u32 (N.of_nat k)) p) sent
    (if (N.of_nat k / two32 =? N.of_nat acked / two32)%N then k else acked).
Proof.
  intros Ht Hk Hl. pose proof Ht as [Ha Ho Hq]. assert (length (sm_queue p) = length sent - acked) as Hlen by (by rewrite Hq, length_drop).
  unfold Ack. rewrite (tracks_base p sent acked Ht) by (by rewrite Hlen). rewrite Hlen. unfold u32.
  pose proof (N.div_mod' (N.of_nat k) two32) as Ek. pose proof (N.div_mod' (N.of_nat acked) two32) as Ea.
  assert (0 < two32)%N as H0 by (unfold two32; lia).
  pose proof (N.mod_lt (N.of_nat k) two32 ltac:(lia)) as Lk. pose proof (N.mod_lt (N.of_nat acked) two32 ltac:(lia)) as La.
  set (qk := (N.of_nat k / two32)%N) in *. set (qa := (N.of_nat acked / two32)%N) in *.
  set (rk := (N.of_nat k `mod` two32)%N) in *. set (ra := (N.of_nat acked `mod` two32)%N) in *. clearbody qk qa rk ra.
  destruct (N.eqb_spec qk qa) as [<-|Hne].
  - assert (Z.of_N rk - Z.of_N ra = Z.of_nat k - Z.of_nat acked)%Z as -> by nia.
    destruct (Z.ltb_spec 0 (Z.of_nat k - Z.of_nat acked)); cbn [andb].
    + rewrite (proj2 (Z.leb_le _ _)) by lia. split; cbn; [lia|done|]. rewrite Hq, drop_drop. f_equal. lia.
    + replace k with acked by lia. done.
  - assert (qa < qk)%N as Hlt by nia. assert (qk = qa + 1)%N as -> by nia.
    rewrite (proj2 (Z.ltb_ge _ _)) by nia. done.
Qed.

Module SmExample.
Definition message (n : nat) : bytes := list_ascii_of_string ("<message id='" +:+ pretty n +:+ "'/>").
Definition two_sent : SmPlugin := sm_send (message 2) (sm_send (message 1) sm_New).

Lemma sm_ack_witness : tracks (Ack 1 two_sent) [message 1; message 2] 1.
Proof.
  refine (sm_ack two_sent [message 1; message 2] 0 1 _ _ _); [|cbn; lia|by vm_compute].
  apply (tracks_send _ [message 1]), (tracks_send _ []), tracks_New.
Defined.

(** The counter has wrapped: the peer confirms everything, nothing leaves the queue. *)
Example wrapped_ack_is_ignored :
  Ack 1 (mkSm 0 1 [message 1; message 2] "") = mkSm 0 1 [message 1; message 2] "".
Proof. by vm_compute. Qed.
End SmExample.

(** ** Service discovery: XEP-0030 (plugins/disco) *)

Record Identity := mkIdentity { di_Category : string; di_Type : string; di_Name : string; di_Lang : string }.
Record DiscoItem := mkItem { it_JID : string; it_Node : string; it_Name : string }.
Record InfoQuery := mkInfo { in_Node : string; Identities : list Identity; Features : list string }.
Record DiscoPlugin := mkDisco { ds_identities : list Identity; ds_features : list string; ds_items : list DiscoItem }.

Definition ns_DiscoInfo := "http://jabber.org/protocol/disco#info".
Definition ns_DiscoItems := "http://jabber.org/protocol/disco#items".
Definition disco_New : DiscoPlugin := mkDisco [] [ns_DiscoInfo; ns_DiscoItems] [].
Definition AddIdentity (i : Identity) (p : DiscoPlugin) : DiscoPlugin := mkDisco (ds_identities p ++ [i]) (ds_features p) (ds_items p).
Definition disco_AddFeature (f : string) (p : DiscoPlugin) : DiscoPlugin := mkDisco (ds_identities p) (ds_features p ++ [f]) (ds_items p).
Definition AddItem (i : DiscoItem) (p : DiscoPlugin) : DiscoPlugin := mkDisco (ds_identities p) (ds_features p) (ds_items p ++ [i]).
Definition disco_Info (p : DiscoPlugin) : InfoQuery := mkInfo "" (ds_identities p) (ds_features p).
Definition disco_Items (p : DiscoPlugin) : list DiscoItem := ds_items p.

(** ** Entity capabilities: XEP-0115 (plugins/caps) *)

Definition identity_key (i : Identity) : string :=
  di_Category i +:+ "/" +:+ di_Type i +:+ "/" +:+ di_Lang i +:+ "/" +:+ di_Name i.
(** The order given to [sort.Slice]; identities with equal keys write the same. *)
Definition identity_le (a b : Identity) : Prop := str_le (identity_key a) (identity_key b).
#[export] Instance identity_le_dec : RelDecision identity_le.
Proof. intros a b. unfold identity_le. apply _. Defined.
#[export] Instance identity_le_total : Total identity_le.
Proof. intros a b. unfold identity_le. apply (total str_le). Qed.

Fixpoint write_all (l : list string) : string :=
  match l with [] => "" | s :: rest => s +:+ "<" +:+ write_all rest end.

(** The string that is hashed. *)
Definition ver_string (info : InfoQuery) : string :=
  write_all (map identity_key (merge_sort identity_le (Identities info))) +:+ write_all (sort_Strings (Features info)).

Section Caps.
Variable sha1 : bytes → bytes.

Definition Ver (info : InfoQuery) : string := EncodeToString (sha1 (list_ascii_of_string (ver_string info))).

Record Caps := mkCaps { cp_Hash : string; cp_Node : string; cp_Ver : string }.
Definition Generate (node : string) (info : InfoQuery) : Caps := mkCaps "sha-1" node (Ver info).

Lemma sorted_keys ids : map identity_key (merge_sort identity_le ids) = sort_Strings (map identity_key ids).
Proof.
  apply (Sorted_unique str_le).
  - assert (Sorted identity_le (merge_sort identity_le ids)) as Hs by apply (Sorted_merge_sort identity_le).
    induction Hs as [|i l Hs IH Hr]; cbn; constructor; [done|]. by destruct Hr; constructor.
  - apply sort_Strings_sorted.
  - rewrite sort_Strings_perm. apply (fmap_Permutation identity_key), merge_sort_Permutation.
Qed.

Lemma sort_Strings_pair a b : str_le a b → sort_Strings [a; b] = [a; b].
Proof.
  intros H. apply (Sorted_unique str_le); [apply sort_Strings_sorted| |apply sort_Strings_perm].
  repeat constructor. done.
Qed.
Lemma sort_Strings_one a : sort_Strings [a] = [a].
Proof. apply Permutation_singleton_r. apply sort_Strings_perm. Qed.

(** The verification string identifies capabilities up to order and no
    further.  Two entities that list the same identities and the same features in
    different orders have the same verification string, so a peer that caches by
    it finds the entry; but the string does not delimit its parts: an entity whose
    only feature is ["a<b"] has the verification string of one with the two
    features ["a"] and ["b"], whatever the hash function. *)
Theorem caps_ver_order info info' :
  Identities info ≡ₚ Identities info' → Features info ≡ₚ Features info' →
  Ver info = Ver info' ∧
  ∀ a b, str_le a b → Ver (mkInfo "" (Identities info) [a +:+ "<" +:+ b]) = Ver (mkInfo "" (Identities info') [a; b]).
Proof.
  intros Hi Hf.
  assert (map identity_key (merge_sort identity_le (Identities info)) =
          map identity_key (merge_sort identity_le (Identities info'))) as Hid.
  { rewrite !sorted_keys. apply sort_Strings_eq. by apply (fmap_Permutation identity_key). }
  split.
  - unfold Ver, ver_string. by rewrite Hid, (sort_Strings_eq _ _ Hf).
  - intros a b Hab. unfold Ver, ver_string. cbn [Identities Features]. rewrite Hid, (sort_Strings_pair a b Hab), sort_Strings_one.
    cbn [write_all]. by rewrite !str_app_nil_r, !str_app_assoc.
Qed.
End Caps.

Module CapsExample.
Definition sha1 (b : bytes) : bytes := take 20 (b ++ b).
Definition client : Identity := mkIdentity "client" "pc" "xmpp-go" "".
Definition bot : Identity := mkIdentity "client" "bot" "relay" "en".

Lemma caps_ver_order_witness :
  Ver sha1 (mkInfo "" [client; bot] ["urn:xmpp:ping"; "jabber:iq:version"]) =
  Ver sha1 (mkInfo "" [bot; client] ["jabber:iq:version"; "urn:xmpp:ping"]).
Proof. refine (proj1 (caps_ver_order sha1 _ _ _ _)); apply Permutation_swap. Defined.
End CapsExample.

(** ** Presence (plugins/presence) *)

Record Status := mkStatus { st_Show : string; st_Status : string; st_Priority : Z }.
Record PresencePlugin := mkPresencePlugin { pr_roster : gmap string Status; pr_own : Status }.
Definition presence_New : PresencePlugin := mkPresencePlugin ∅ (mkStatus "" "" 0).
Definition SetOwn (s : Status) (p : PresencePlugin) : PresencePlugin := mkPresencePlugin (pr_roster p) s.
Definition presence_Update (jid : string) (s : Status) (p : PresencePlugin) : PresencePlugin :=
  mkPresencePlugin (<[jid := s]> (pr_roster p)) (pr_own p).
Definition presence_Remove (jid : string) (p : PresencePlugin) : PresencePlugin :=
  mkPresencePlugin (delete jid (pr_roster p)) (pr_own p).
Definition GetPresence (jid : string) (p : PresencePlugin) : option Status := pr_roster p !! jid.
(** The copy loop of [Online], for an order of visiting the map. *)
Definition Online (visit : list (string * Status)) : gmap string Status :=
  fold_left (λ m kv, <[kv.1 := kv.2]> m) visit ∅.

Lemma Online_copy p visit : iter_order (pr_roster p) visit → Online visit = pr_roster p.
Proof.
  intros Hv. pose proof (iter_order_NoDup_fst _ _ Hv) as Hnd. rewrite <- (iter_order_list_to_map _ _ Hv).
  assert (∀ m : gmap string Status, NoDup visit.*1 → fold_left (λ m kv, <[kv.1 := kv.2]> m) visit m = (list_to_map visit : gmap string Status) ∪ m) as H;
    [|unfold Online; rewrite H by done; apply (right_id_L ∅ (∪))].
  clear. induction visit as [|[k v] l IH]; intros m Hnd; cbn; [by rewrite (left_id_L ∅ (∪))|].
  rewrite fmap_cons in Hnd. apply NoDup_cons in Hnd as [Hk Hnd]. rewrite IH by done. cbn.
  rewrite <- insert_union_l, <- insert_union_r; [done|]. by apply not_elem_of_list_to_map_1.
Qed.

(** ** Data forms: XEP-0004 (plugins/form) *)

Record Option := mkOption { op_Label : string; op_Value : string }.
Record FormField := mkFormField {
  ff_Var : string; ff_Type : string; ff_Label : string; ff_Required : bool; ff_Desc : string;
  ff_Values : list string; ff_Options : list Option }.
(** [Reported] and [FormItem] are lists of fields. *)
Record Form := mkFormP {
  fm_Type : string; fm_Title : string; fm_Instructions : list string; fm_Fields : list FormField;
  fm_Reported : option (list FormField); fm_Items : list (list FormField) }.
Definition NewForm (typ title : string) : Form := mkFormP typ title [] [] None [].
Definition AddField (f : FormField) (form : Form) : Form :=
  mkFormP (fm_Type form) (fm_Title form) (fm_Instructions form) (fm_Fields form ++ [f]) (fm_Reported form) (fm_Items form).
Definition GetField (form : Form) (varName : string) : option FormField :=
  List.find (λ f, bool_decide (ff_Var f = varName)) (fm_Fields form).
Definition GetValue (form : Form) (varName : string) : string :=
  match GetField form varName with Some f => match ff_Values f with v :: _ => v | [] => "" end | None => "" end.
Definition GetValues (form : Form) (varName : string) : list string :=
  match GetField form varName with Some f => ff_Values f | None => [] end.

Lemma GetField_AddField form f x :
  GetField (AddField f form) x = match GetField form x with
                                 | Some g => Some g
                                 | None => if bool_decide (ff_Var f = x) then Some f else None
                                 end.
Proof.
  unfold GetField, AddField. cbn [fm_Fields]. induction (fm_Fields form) as [|g fs IH]; cbn; [done|]. destruct (bool_decide (ff_Var g = x)); [done|exact IH].
Qed.

(** ** Hashes: XEP-0300 (plugins/hash) *)

Inductive hash_error := ErrUnsupportedAlgo.
#[export] Instance hash_error_eq_dec : EqDecision hash_error.
Proof. solve_decision. Defined.
Record HashElement := mkHashElement { he_Algo : string; he_Value : string }.
#[export] Instance HashElement_eq_dec : EqDecision HashElement.
Proof. solve_decision. Defined.

Section Hash.
Variables (sha256 sha512 : bytes → bytes).

Definition hash_Compute (algo : string) (data : bytes) : res hash_error HashElement :=
  if bool_decide (algo = "sha-256") then Ok (mkHashElement algo (EncodeToString (sha256 data)))
  else if bool_decide (algo = "sha-512") then Ok (mkHashElement algo (EncodeToString (sha512 data)))
  else Err ErrUnsupportedAlgo.
Definition hash_Verify (hv : HashElement) (data : bytes) : res hash_error bool :=
  (try computed <- hash_Compute (he_Algo hv) data; Ok (bool_decide (he_Value computed = he_Value hv)))%go.

(** A computed hash verifies, on other data exactly when the encodings agree. *)
Lemma Compute_Verify algo data hv data' :
  hash_Compute algo data = Ok hv →
  hash_Verify hv data' = Ok (bool_decide (hash_Compute algo data' = Ok hv)).
Proof.
  assert (∀ x y a, bool_decide (he_Value (mkHashElement a x) = y) = bool_decide (Ok (E := hash_error) (mkHashElement a x) = Ok (mkHashElement a y))) as E.
  { intros x y a. apply bool_decide_ext. cbn. split; [by intros ->|by intros [= ->]]. }
  unfold hash_Verify, hash_Compute. destruct (decide (algo = "sha-256")) as [->|H1].
  - rewrite (bool_decide_true ("sha-256" = _)) by done. intros [= <-]. cbn [he_Algo]. rewrite (bool_decide_true ("sha-256" = _)) by done.
    cbn [res_bind]. by rewrite E.
  - rewrite (bool_decide_false _ H1). destruct (decide (algo = "sha-512")) as [->|H2]; [|by rewrite (bool_decide_false _ H2)].
    rewrite (bool_decide_true ("sha-512" = _)) by done. intros [= <-]. cbn [he_Algo].
    rewrite (bool_decide_false ("sha-512" = "sha-256")), (bool_decide_true ("sha-512" = _)) by done. cbn [res_bind]. by rewrite E.
Qed.
End Hash.

(** ** Device lists (plugins/omemo), client state (plugins/csi), carbons (plugins/carbons) *)

Record Device := mkDevice { dv_ID : N; dv_Label : string }.
Record OmemoPlugin := mkOmemoPlugin { om_deviceID : N; om_devices : gmap string (list Device) }.
Definition omemo_New (deviceID : N) : OmemoPlugin := mkOmemoPlugin deviceID ∅.
Definition SetDevices (jid : string) (ds : list Device) (p : OmemoPlugin) : OmemoPlugin :=
  mkOmemoPlugin (om_deviceID p) (<[jid := ds]> (om_devices p)).
Definition GetDevices (jid : string) (p : OmemoPlugin) : list Device := default [] (om_devices p !! jid).

Record CsiPlugin := mkCsi { csi_active : bool }.
Definition csi_New : CsiPlugin := mkCsi true.
Definition SetActive (v : bool) (p : CsiPlugin) : CsiPlugin := mkCsi v.
Record CarbonsPlugin := mkCarbons { cb_enabled : bool }.
Definition carbons_New : CarbonsPlugin := mkCarbons false.
Definition SetEnabled (v : bool) (p : CarbonsPlugin) : CarbonsPlugin := mkCarbons v.
