(* ===== verification/UserStore.v ===== *)
(** * The account interface the server is written against
    (src/storage/user.go, used by src/cmd/xmppd/)

    [UserStore] is the part of the Go interface the server calls; its laws say
    what a backend promises, on the view of its state as a map from usernames
    to passwords.  The in-memory backend is proved to keep them; the file backend
    keeps them only for usernames with distinct file names
    ([colliding_names_share_an_account]), and the theorems that assume the laws
    say nothing about it otherwise.  An error that is none of the three values of
    the package reads as [ErrNotFound]: the server tells only [ErrUserExists]
    apart. *)

From Stdlib Require Import Ascii String.
From S2P Require Import Prelude Storage MemoryStorage.

Class UserStore (T : Type) := {
  us_Authenticate : string → string → T → res storage_error bool;
  us_UserExists : string → T → res storage_error bool;
  us_CreateUser : time → User → M T storage_error unit;
  us_DeleteUser : string → M T storage_error unit
}.

Class UserStoreLaws (T : Type) `{UserStore T} (accounts : T → gmap string string) := {
  auth_match u p t : accounts t !! u = Some p → us_Authenticate u p t = Ok true;
  auth_mismatch u p t : accounts t !! u ≠ Some p → us_Authenticate u p t = Err ErrAuthFailed;
  exists_spec u t : us_UserExists u t = Ok (bool_decide (is_Some (accounts t !! u)));
  create_new now user t : accounts t !! Username user = None →
    ∃ t', us_CreateUser now user t = (t', Ok tt) ∧
          accounts t' = <[Username user := Password user]> (accounts t);
  create_taken now user t : is_Some (accounts t !! Username user) →
    ∃ t', us_CreateUser now user t = (t', Err ErrUserExists) ∧ accounts t' = accounts t;
  delete_known u t : is_Some (accounts t !! u) →
    ∃ t', us_DeleteUser u t = (t', Ok tt) ∧ accounts t' = delete u (accounts t);
  delete_unknown u t : accounts t !! u = None →
    ∃ t', us_DeleteUser u t = (t', Err ErrNotFound) ∧ accounts t' = accounts t
}.

Lemma auth_iff {T} `{UserStoreLaws T accounts} u p t :
  us_Authenticate u p t = Ok true ↔ accounts t !! u = Some p.
Proof.
  split; [|apply auth_match]. intros Ha.
  destruct (decide (accounts t !! u = Some p)) as [|Hn]; [done|].
  apply auth_mismatch in Hn. congruence.
Qed.

#[export] Instance memory_users : UserStore MemoryStorage.Store := {
  us_Authenticate := MemoryStorage.Authenticate;
  us_UserExists := λ u t, Ok (MemoryStorage.UserExists u t);
  us_CreateUser := MemoryStorage.CreateUser;
  us_DeleteUser := MemoryStorage.DeleteUser
}.

Definition memory_accounts (s : MemoryStorage.Store) : gmap string string := Password <$> users s.

#[export] Instance memory_users_laws : UserStoreLaws MemoryStorage.Store memory_accounts.
Proof.
  unfold memory_accounts. split; simpl; intros *; rewrite ?lookup_fmap.
  - unfold Authenticate. destruct (users t !! u) as [x|]; simpl; [|done].
    intros [= ->]. by rewrite bool_decide_false by auto.
  - unfold Authenticate. destruct (users t !! u) as [x|]; simpl; [|done].
    intros Hn. by rewrite bool_decide_true by congruence.
  - unfold UserExists. f_equal. apply bool_decide_ext. destruct (users t !! u); simpl; [|done].
    split; eauto.
  - unfold CreateUser, mbnd, mget, mput. destruct (users t !! Username user) as [x|]; simpl; [done|].
    intros _. eexists. split; [done|]. simpl. by rewrite fmap_insert.
  - unfold CreateUser, mbnd, mget, merr. destruct (users t !! Username user) as [x|]; simpl; [eauto|].
    by intros [? ?].
  - unfold DeleteUser, mbnd, mget, mput. destruct (users t !! u) as [x|]; simpl; [|by intros [? ?]].
    intros _. eexists. split; [done|]. simpl. by rewrite fmap_delete.
  - unfold DeleteUser, mbnd, mget, merr. destruct (users t !! u) as [x|]; simpl; [done|eauto].
Qed.
