(* ===== verification/XmppdRegistration.v ===== *)
(** * In-band registration of the server (src/cmd/xmppd/registration.go)

    The rate limiter, the registration handler with its policies, and the
    forms it reads and writes (src/plugins/register/register.go and
    src/plugins/form/form.go, the types they are decoded into).  A handler runs
    on the state of its connection and the account store; the current time and
    random bytes are arguments. *)

From Stdlib Require Import Ascii String.
From S2P Require Import Prelude GoStrings Bytes Xml Jid Stanza Sasl Session Storage UserStore.

Open Scope string_scope.
Open Scope list_scope.
Local Open Scope go_scope.

(** ** Configuration *)

Definition registrationOpen := "open".
Definition registrationClosed := "closed".
Definition registrationInvite := "invite".
Definition registrationAdmin := "admin".

Record registrationConfig := mkRegConfig {
  Policy : string; rc_Fields : list string; Invites : gset string; AdminTokens : gset string;
  RateLimit : Z; RateWindow : Z; rc_Iterations : Z; DataForm : bool; Instructions : string }.

(** ** Rate limiter *)

Record rateLimiter := mkLimiter { window : Z; limit : Z; items : gmap string (list time) }.

Definition newRateLimiter (lim win : Z) : rateLimiter := mkLimiter win lim ∅.

(** [now] and [now'] are the two readings of the clock. *)
Definition Allow (now now' : time) (key : string) (r : rateLimiter) : rateLimiter * bool :=
  if (limit r <=? 0)%Z then (r, true)
  else
    let cutoff := (now - window r)%Z in
    let entries := default [] (items r !! key) in
    let out := List.filter (fun t => cutoff <? t)%Z entries in
    if (limit r <=? Z.of_nat (length out))%Z
    then (mkLimiter (window r) (limit r) (<[key := out]> (items r)), false)
    else (mkLimiter (window r) (limit r) (<[key := out ++ [now']]> (items r)), true).

(** ** Peer addresses *)

Fixpoint LastIndexByte (s : string) (c : ascii) : option nat :=
  match s with
  | "" => None
  | String a s' => match LastIndexByte s' c with
                   | Some i => Some (S i)
                   | None => if bool_decide (a = c) then Some 0 else None
                   end
  end.

(** [net.SplitHostPort], the host; [None] is an error. *)
Definition SplitHost (s : string) : option string :=
  match LastIndexByte s ":" with
  | None => None
  | Some i =>
      if HasPrefix s "[" then
        match IndexByte s "]" with
        | None => None
        | Some e => if bool_decide (S e = i)
                    then if has_byte "[" (str_drop 1 s) || has_byte "]" (str_drop (S e) s)
                         then None else Some (str_take (e - 1) (str_drop 1 s))
                    else None
        end
      else if has_byte ":" (str_take i s) || has_byte "[" s || has_byte "]" s then None
           else Some (str_take i s)
  end.

Definition peerKey (addr : option string) : string :=
  match addr with
  | None => "unknown"
  | Some s => match SplitHost s with Some host => host | None => s end
  end.

(** ** Forms (plugins/form) and registration queries (plugins/register) *)

Record Field := mkField {
  f_Var : string; f_Type : string; f_Label : string; f_Values : list string }.

Record Query := mkQuery {
  q_Registered : bool; q_Username : string; q_Password : string; q_Email : string;
  q_Instructions : string; q_Remove : bool; q_Form : list node }.

Definition empty_query : Query := mkQuery false "" "" "" "" false [].

(** Decoding a fragment into a [register.Query]: the first element must be the
    one the struct names.  [Form] receives everything inside it. *)
Definition decode_Query (frag : list node) : option Query :=
  match first_element frag with
  | Some (Elem n _ cs) =>
      if bool_decide (n = mkName ns_Register "query")
      then Some (mkQuery (has_child "registered" cs) (child_string "username" cs "")
                   (child_string "password" cs "") (child_string "email" cs "")
                   (child_string "instructions" cs "") (has_child "remove" cs) cs)
      else None
  | _ => None
  end.

Definition children_strings (name : string) (cs : list node) : list string :=
  flat_map (fun c => match c with
                     | Elem n _ cs' => if bool_decide (Local n = name) then [chardata cs'] else []
                     | _ => []
                     end) cs.

Definition decode_Field (attrs : list Attr) (cs : list node) : Field :=
  mkField (attr_string "var" attrs "") (attr_string "type" attrs "") (attr_string "label" attrs "")
    (children_strings "value" cs).

(** The fields of a [form.Form]. *)
Definition decode_Form (frag : list node) : option (list Field) :=
  match first_element frag with
  | Some (Elem n _ cs) =>
      if bool_decide (n = mkName ns_DataForms "x")
      then Some (flat_map (fun c => match c with
                                    | Elem m a cs' => if bool_decide (Local m = "field")
                                                      then [decode_Field a cs'] else []
                                    | _ => []
                                    end) cs)
      else None
  | _ => None
  end.

Definition set_nonempty (k v : string) (m : gmap string string) : gmap string string :=
  if bool_decide (v ≠ "") then <[k := v]> m else m.

Definition extractFields (q : Query) : gmap string string :=
  let fields := set_nonempty "email" (q_Email q)
    (set_nonempty "password" (q_Password q) (set_nonempty "username" (q_Username q) ∅)) in
  match decode_Form (q_Form q) with
  | Some fs => fold_left (fun m f => match f_Values f with
                                     | v :: _ => <[f_Var f := v]> m
                                     | [] => m
                                     end) fs fields
  | None => fields
  end.

(** [fields[k]]: the zero value when absent. *)
Definition field (m : gmap string string) (k : string) : string := default "" (m !! k).

Definition isTokenAllowed (tokens : gset string) (token : string) : bool :=
  if bool_decide (tokens = ∅) then false else bool_decide (token ∈ tokens).

Definition fieldType (name : string) : string :=
  if bool_decide (name = "password") then "text-private" else "text-single".

(** Elements of a form, as [xml.Marshal] writes them. *)
Definition field_node (f : Field) : node :=
  Elem (mkName "" "field")
    (opt_attr "var" (f_Var f) ++ opt_attr "type" (f_Type f) ++ opt_attr "label" (f_Label f))
    (map (fun v => Elem (mkName "" "value") [] [Text v]) (f_Values f)).

Definition form_node (title : string) (fs : list Field) : node :=
  Elem (mkName ns_DataForms "x") [attr "xmlns" ns_DataForms; attr "type" "form"]
    (text_nodes "title" title ++ map field_node fs).

(** [strings.ToUpper(field[:1]) + field[1:]]; [unicode] maps non-ASCII strings. *)
Definition capitalize (unicode : string -> string) (s : string) : string :=
  ToUpper unicode (str_take 1 s) +:+ str_drop 1 s.

Definition buildForm (unicode : string -> string) (cfg : registrationConfig) : Query :=
  let fields :=
    map (fun f => mkField f (fieldType f) (capitalize unicode f) [])
        (List.filter (fun f => bool_decide (f ≠ "")) (rc_Fields cfg))
    ++ (if bool_decide (Policy cfg = registrationInvite)
        then [mkField "invite" "text-single" "Invite Token" []] else [])
    ++ (if bool_decide (Policy cfg = registrationAdmin)
        then [mkField "admin_token" "text-private" "Admin Token" []] else []) in
  mkQuery false "" "" "" (Instructions cfg) false
    (if DataForm cfg then [form_node "Account Registration" fields] else []).

(** [encoding/xml] of a query. *)
Definition empty_field (name : string) (b : bool) : Enc unit :=
  if b then encode_element (mkName "" name) [] (mok tt) else mok tt.
Definition encode_Query (q : Query) : Enc unit :=
  encode_element (mkName ns_Register "query") []
    (do_ empty_field "registered" (q_Registered q); do_ text_field "username" (q_Username q);
     do_ text_field "password" (q_Password q); do_ text_field "email" (q_Email q);
     do_ text_field "instructions" (q_Instructions q); do_ empty_field "remove" (q_Remove q);
     writeInner (q_Form q)).

(** ** The handler *)

(** A connection of the server: its session, the user the SASL exchange
    established, the limiter of its registration handler, and the address of
    its peer ([None] for a nil address). *)
Record Conn := mkConn {
  c_session : Session; c_user : string; c_limiter : rateLimiter; c_peer : option string }.

Definition set_session (s : Session) (c : Conn) : Conn := mkConn s (c_user c) (c_limiter c) (c_peer c).
Definition set_user (u : string) (c : Conn) : Conn := mkConn (c_session c) u (c_limiter c) (c_peer c).
Definition set_limiter (l : rateLimiter) (c : Conn) : Conn := mkConn (c_session c) (c_user c) l (c_peer c).

Section handler.
Context {T : Type} `{UserStore T}.
Context (sha256 : Hash) (unicode : string -> string).

Definition CM := M (Conn * option T) session_error.

(** A method of the connection's session. *)
Definition on_session {A} (m : SM A) : CM A :=
  fun '(c, st) => let '(s, r) := m (c_session c) in ((set_session s c, st), r).
Definition session_state : CM N := fun '(c, st) => ((c, st), Ok (ss_state (c_session c))).
Definition get_conn : CM Conn := fun '(c, st) => ((c, st), Ok c).
Definition update (f : Conn -> Conn) : CM unit := fun '(c, st) => ((f c, st), Ok tt).

(** [session.Send(ctx, iq.ErrorIQ(stanza.NewStanzaError(typ, cond, text)))]. *)
Definition reply_error (iq : IQ) (typ cond text : string) : CM unit :=
  on_session (Send (SIQ (ErrorIQ iq (NewStanzaError typ cond text)))).
Definition reply_query (iq : IQ) (q : Query) : CM unit :=
  on_session (SendElement (encode_IQPayload (ResultIQ iq) (Some (encode_Query q)))).
Definition registered_reply (iq : IQ) : CM unit :=
  reply_query iq (mkQuery true "" "" "" "" false []).

(** A call of the account store, which never fails half-way. *)
Definition store_call (t : T) (m : M T storage_error unit) : CM (res storage_error unit) :=
  fun '(c, _) => let '(t', r) := m t in ((c, Some t'), Ok r).

(** What the environment supplies to one call: clock readings and random bytes. *)
Record Env := mkEnv { e_now : time; e_now' : time; e_rnd : option bytes }.
Context (cfg : registrationConfig) (env : Env).

Definition handleGet (iq : IQ) : CM unit :=
  if bool_decide (Policy cfg = registrationClosed)
  then reply_error iq "cancel" "service-unavailable" "registration disabled"
  else reply_query iq (buildForm unicode cfg).

Definition handleRemove (iq : IQ) (fields : gmap string string) (t : T) : CM unit :=
  let username := field fields "username" in
  let password := field fields "password" in
  if bool_decide (username = "") || bool_decide (password = "")
  then reply_error iq "modify" "bad-request" "username and password required"
  else match us_Authenticate username password t with
       | Ok true =>
           do r <- store_call t (us_DeleteUser username);
           match r with
           | Ok _ => registered_reply iq
           | Err _ => reply_error iq "wait" "internal-server-error" "user delete failed"
           | Panic => mpanic
           end
       | Panic => mpanic
       | _ => reply_error iq "auth" "not-authorized" "authentication failed"
       end.

(** The end of [handleSet]: creating the account. *)
Definition createAccount (iq : IQ) (username password : string) (t : T) : CM unit :=
  match us_UserExists username t with
  | Err _ => reply_error iq "wait" "internal-server-error" "user lookup failed"
  | Panic => mpanic
  | Ok true => reply_error iq "cancel" "conflict" "user already exists"
  | Ok false =>
      match hashPasswordSCRAMSHA256 sha256 (e_rnd env) password (rc_Iterations cfg) with
      | None => reply_error iq "wait" "internal-server-error" "password hashing failed"
      | Some sc =>
          let user := mkUser username password (sc_salt sc) (sc_iters sc) (sc_serverKey sc)
                        (sc_storedKey sc) 0 0 in
          do r <- store_call t (us_CreateUser (e_now' env) user);
          match r with
          | Ok _ => registered_reply iq
          | Err ErrUserExists => reply_error iq "cancel" "conflict" "user already exists"
          | Err _ => reply_error iq "wait" "internal-server-error" "user create failed"
          | Panic => mpanic
          end
      end
  end.

(** Which policy check, if any, refuses the fields: the text of the answer. *)
Definition policy_refusal (fields : gmap string string) : option string :=
  let invite := if bool_decide (field fields "invite" = "") then field fields "token"
                else field fields "invite" in
  if bool_decide (Policy cfg = registrationInvite) && negb (isTokenAllowed (Invites cfg) invite)
  then Some "invalid invite"
  else if bool_decide (Policy cfg = registrationAdmin)
          && negb (isTokenAllowed (AdminTokens cfg) (field fields "admin_token"))
  then Some "admin token required"
  else None.

Definition handleSet (iq : IQ) (q : Query) : CM unit :=
  fun '(c, store) =>
  (if bool_decide (Policy cfg = registrationClosed)
   then reply_error iq "cancel" "service-unavailable" "registration disabled"
   else match store with
   | None => reply_error iq "cancel" "service-unavailable" "registration unavailable"
   | Some t =>
       let fields := extractFields q in
       match policy_refusal fields with
       | Some text => reply_error iq "auth" "not-allowed" text
       | None =>
           if q_Remove q then handleRemove iq fields t
           else
             let username := field fields "username" in
             let password := field fields "password" in
             if bool_decide (username = "") || bool_decide (password = "")
             then reply_error iq "modify" "bad-request" "username and password required"
             else createAccount iq username password t
       end
   end) (c, store).

Definition Handle (iq : IQ) : CM unit :=
  if bool_decide (iq_Type iq ≠ IQGet ∧ iq_Type iq ≠ IQSet) then mok tt
  else match iq_Query iq with
  | [] => mok tt
  | frag =>
      match decode_Query frag with
      | None => mok tt
      | Some q =>
          do c <- get_conn;
          let '(l, ok) := Allow (e_now env) (e_now' env) (peerKey (c_peer c)) (c_limiter c) in
          do_ update (set_limiter l);
          if negb ok then reply_error iq "wait" "resource-constraint" "rate limit exceeded"
          else if bool_decide (iq_Type iq = IQGet) then handleGet iq
          else handleSet iq q
      end
  end.

End handler.

(** ** The rate limiter is a sliding window *)

(** A sequence of calls [(now, now', key)] and the times at which a call for [k]
    was allowed. *)
Fixpoint allow_run (k : string) (calls : list (time * time * string)) (r : rateLimiter)
    : rateLimiter * list time :=
  match calls with
  | [] => (r, [])
  | (now, now', key) :: calls' =>
      let '(r1, ok) := Allow now now' key r in
      let '(r2, l) := allow_run k calls' r1 in
      (r2, if ok && bool_decide (key = k) then now' :: l else l)
  end.

(** A clock that does not go back. *)
Fixpoint clock_ok (t0 : time) (calls : list (time * time * string)) : Prop :=
  match calls with
  | [] => True
  | (now, now', _) :: calls' => (t0 <= now <= now')%Z ∧ clock_ok now' calls'
  end.

Definition in_window (win t s : Z) : bool := ((t - win <? s) && (s <=? t))%Z.

(** [past] are the allowed times so far, [τ] the last reading of the clock. *)
Record limiter_inv (k : string) (win lim τ : Z) (r : rateLimiter) (past : list time) : Prop := {
  li_window : window r = win;
  li_limit : limit r = lim;
  li_entries : ∃ c, (c <= τ - win)%Z ∧
    default [] (items r !! k) = List.filter (fun s => c <? s)%Z past;
  li_bound : ∀ t, (Z.of_nat (length (List.filter (in_window win t) past)) <= lim)%Z
}.

Lemma filter_filter_le (c d : Z) l :
  (c <= d)%Z → List.filter (fun s => d <? s)%Z (List.filter (fun s => c <? s)%Z l)
            = List.filter (fun s => d <? s)%Z l.
Proof.
  intros Hcd. induction l as [|x l IH]; simpl; [done|].
  destruct (Z.ltb_spec c x); simpl; destruct (Z.ltb_spec d x); rewrite ?IH; try done; lia.
Qed.

Lemma filter_length_mono {A} (f g : A → bool) l :
  (∀ x, f x = true → g x = true) → (length (List.filter f l) <= length (List.filter g l))%nat.
Proof.
  intros Hfg. induction l as [|x l IH]; simpl; [lia|].
  destruct (f x) eqn:Hf; [rewrite (Hfg x Hf); simpl; lia|]. destruct (g x); simpl; lia.
Qed.

Lemma Allow_inv k win lim τ r past now now' key :
  (0 < win)%Z → (0 < lim)%Z → (τ <= now <= now')%Z → limiter_inv k win lim τ r past →
  limiter_inv k win lim now' (Allow now now' key r).1
    (if (Allow now now' key r).2 && bool_decide (key = k) then past ++ [now'] else past).
Proof.
  intros Hw Hl Hn [Ew El (c & Hc & He) Hb]. unfold Allow. rewrite Ew, El.
  destruct (Z.leb_spec lim 0); [lia|].
  destruct (bool_decide (key = k)) eqn:Hk; [apply bool_decide_eq_true in Hk as ->|apply bool_decide_eq_false in Hk].
  - rewrite He, filter_filter_le by lia.
    set (out := List.filter _ past).
    destruct (Z.leb_spec lim (Z.of_nat (length out))); simpl.
    + split; simpl; auto. exists (now - win)%Z. split; [lia|]. by rewrite lookup_insert_eq.
    + split; simpl; auto.
      * exists (now - win)%Z. split; [lia|]. rewrite lookup_insert_eq. simpl.
        rewrite List.filter_app. simpl. rewrite (proj2 (Z.ltb_lt _ _)) by lia. done.
      * intros t. rewrite List.filter_app, length_app. simpl.
        destruct (in_window win t now') eqn:Ht; simpl; [|specialize (Hb t); lia].
        assert (length (List.filter (in_window win t) past) <= length out)%nat; [|lia].
        apply filter_length_mono. intros x. unfold in_window in *.
        rewrite !andb_true_iff, !Z.ltb_lt, !Z.leb_le in *. lia.
  - rewrite andb_false_r. destruct (_ <=? _)%Z; split; simpl; auto; exists c; (split; [lia|]);
      by rewrite lookup_insert_ne.
Qed.

Lemma allow_run_bound k win lim τ calls r past :
  (0 < win)%Z → (0 < lim)%Z → clock_ok τ calls → limiter_inv k win lim τ r past →
  ∀ t, (Z.of_nat (length (List.filter (in_window win t) (past ++ (allow_run k calls r).2))) <= lim)%Z.
Proof.
  intros Hw Hl. revert τ r past. induction calls as [|[[now now'] key] calls IH]; simpl; intros τ r past Hc Hi t.
  - rewrite app_nil_r. apply Hi.
  - destruct Hc as [Hn Hc]. pose proof (Allow_inv k win lim τ r past now now' key Hw Hl Hn Hi) as Hi'.
    destruct (Allow now now' key r) as [r1 ok]; simpl in *.
    specialize (IH now' r1 _ Hc Hi' t). destruct (allow_run k calls r1) as [r2 l]; simpl in *.
    destruct (ok && bool_decide (key = k)); [by rewrite <- app_assoc in IH|done].
Qed.

(** C32: a rate limiter lets through at most [limit] requests per key in any
    period of the length of its window.  For one limiter with a positive limit and
    window, every sequence of calls with a clock that does not go back, every key
    and every moment [t]: the calls for that key that were allowed in the window
    that ends at [t] are at most [limit], whatever was asked for that or any other
    key and however often it was refused.  The server makes a limiter for each
    connection ([serveSession]), so the bound is one on the requests of a
    connection; a peer that connects again starts with an empty limiter. *)
Theorem rate_limit_window lim win t0 calls k t :
  (0 < win)%Z → (0 < lim)%Z → clock_ok t0 calls →
  (Z.of_nat (length (List.filter (in_window win t)
     (allow_run k calls (newRateLimiter lim win)).2)) <= lim)%Z.
Proof.
  intros Hw Hl Hc. apply (allow_run_bound k win lim t0 calls _ []); auto.
  split; simpl; auto; [|intros; lia]. exists (t0 - win)%Z. split; [lia|done].
Qed.

(** ** Answers *)

(** The session after one more write of the tokens [l], flushed. *)
Definition wrote (l : list Token) (s : Session) : Session :=
  mkSession (ss_state s) (ss_closed s) (ss_local s) (ss_remote s)
    (mkWriter (tags (ss_writer s)) [] (sent (ss_writer s) ++ map Tok l) false).

(** A session that accepts writes. *)
Definition is_open (s : Session) : Prop := ss_closed s = false ∧ broken (ss_writer s) = false.

Lemma is_open_wrote l s : is_open s → is_open (wrote l s).
Proof. by intros [??]. Qed.

Lemma sent_wrote l s : sent (ss_writer (wrote l s)) = sent (ss_writer s) ++ map Tok l.
Proof. unfold wrote, sent at 1. simpl. apply app_nil_r. Qed.

Lemma SendElement_ok m l s : is_open s → emits m l → SendElement m s = (wrote l s, Ok tt).
Proof.
  intros [Hc Hb] Hm. unfold SendElement, locked_write. rewrite Hc, (Encode_wire _ _ _ Hm Hb).
  unfold wrote. by rewrite Hc.
Qed.

Lemma Send_ok st s :
  is_open s → error_ok (stanza_error st) → Send st s = (wrote (node_tokens (stanza_node st)) s, Ok tt).
Proof. intros Hs He. apply (SendElement_ok (encode_Stanza st)); [done|by apply emits_Stanza]. Qed.

(** [l] is one iq element that answers the request [iq]: same id, addressed back. *)
Definition reply_to (iq : IQ) (typ : string) (l : list Token) : Prop :=
  ∃ n attrs body, l = element n attrs body ∧ Local n = "iq" ∧ balanced_in body ∧
    attr_string "id" attrs "" = iq_ID iq ∧ attr_string "type" attrs "" = typ.

Lemma attr_string_header h :
  attr_string "id" (header_attrs h) "" = h_ID h ∧ attr_string "type" (header_attrs h) "" = h_Type h.
Proof.
  unfold header_attrs, opt_attr, jid_attr, MarshalXMLAttr.
  destruct h as [n i f t ty la]; simpl. destruct (Jid.IsZero f), (Jid.IsZero t); simpl;
    repeat case_bool_decide; subst; simpl; done.
Qed.

Lemma attr_string_payload h :
  attr_string "id" (IQPayload_attrs h) "" = h_ID h ∧ attr_string "type" (IQPayload_attrs h) "" = h_Type h.
Proof.
  unfold IQPayload_attrs, opt_attr.
  destruct h as [n i f t ty la]; simpl. destruct (Jid.IsZero f), (Jid.IsZero t); simpl;
    repeat case_bool_decide; subst; simpl; done.
Qed.

Lemma error_reply_to iq e : reply_to iq IQError (node_tokens (stanza_node (SIQ (ErrorIQ iq e)))).
Proof.
  eexists _, _, _. split; [done|]. split; [done|]. split; [apply balanced_in_nodes|].
  apply attr_string_header.
Qed.

Definition payload_tokens (iq : IQ) (l : list Token) : list Token :=
  element (mkName ns_Client "iq") (IQPayload_attrs (iq_Header iq)) l.

Lemma emits_IQPayload iq p l :
  emits p l → emits (encode_IQPayload iq (Some p)) (payload_tokens iq l).
Proof.
  intros Hp. apply emits_marshaler, emits_encode_element; [done|].
  rewrite <- (app_nil_r l). apply emits_seq; [done|apply emits_Flush].
Qed.

Lemma payload_reply_to iq l : balanced_in l → reply_to iq IQResult (payload_tokens (ResultIQ iq) l).
Proof.
  intros Hl. eexists _, _, _. split; [done|]. split; [done|]. split; [done|]. apply attr_string_payload.
Qed.

(** The element a query is written as. *)
Definition empty_nodes (name : string) (b : bool) : list node :=
  if b then [Elem (mkName "" name) [] []] else [].
Definition query_node (q : Query) : node :=
  Elem (mkName ns_Register "query") []
    (empty_nodes "registered" (q_Registered q) ++ text_nodes "username" (q_Username q)
     ++ text_nodes "password" (q_Password q) ++ text_nodes "email" (q_Email q)
     ++ text_nodes "instructions" (q_Instructions q) ++ empty_nodes "remove" (q_Remove q) ++ q_Form q).

Lemma emits_empty_field name b : name ≠ "" → emits (empty_field name b) (nodes_tokens (empty_nodes name b)).
Proof. intros Hn. destruct b; [|apply emits_ok]. apply emits_node; [done|apply emits_ok]. Qed.

Lemma emits_Query q : emits (encode_Query q) (node_tokens (query_node q)).
Proof.
  apply emits_encode_element; [done|]. fold nodes_tokens. repeat apply emits_nodes_seq;
    first [by apply emits_text_field | by apply emits_empty_field | apply emits_inner].
Qed.

(** ** What a registration request does *)

(** Whether the configuration and the fields let a request of type [set] reach
    the account store. *)
Definition admitted (cfg : registrationConfig) (q : Query) : bool :=
  let fields := extractFields q in
  negb (bool_decide (Policy cfg = registrationClosed ∨ policy_refusal cfg fields ≠ None
    ∨ field fields "username" = "" ∨ field fields "password" = "")).

(** The connection after [l] has been written on its session. *)
Definition wrote_on (l : list Token) (c : Conn) : Conn := set_session (wrote l (c_session c)) c.

Section outcome.
Context {T : Type} `{UserStore T}.
Context (sha256 : Hash) (unicode : string -> string) (cfg : registrationConfig) (env : Env).

(** A backend whose methods return. *)
Definition never_panics : Prop :=
  (∀ u p t, us_Authenticate u p t ≠ Panic) ∧ (∀ u t, us_UserExists u t ≠ Panic) ∧
  (∀ now user t, (us_CreateUser now user t).2 ≠ Panic) ∧ (∀ u t, (us_DeleteUser u t).2 ≠ Panic).

(** The type of the answer after a call of the store. *)
Definition answer_type (r : res storage_error unit) : string :=
  match r with Ok _ => IQResult | _ => IQError end.

(** The store call an admitted request of type [set] makes, if any. *)
Definition set_call (q : Query) (t : T) : option (M T storage_error unit) :=
  let fields := extractFields q in
  let u := field fields "username" in
  let p := field fields "password" in
  if negb (admitted cfg q) then None
  else if q_Remove q then
    match us_Authenticate u p t with Ok true => Some (us_DeleteUser u) | _ => None end
  else match us_UserExists u t, hashPasswordSCRAMSHA256 sha256 (e_rnd env) p (rc_Iterations cfg) with
       | Ok false, Some sc =>
           Some (us_CreateUser (e_now' env)
             (mkUser u p (sc_salt sc) (sc_iters sc) (sc_serverKey sc) (sc_storedKey sc) 0 0))
       | _, _ => None
       end.

(** The store after a request of type [set] and the type of its answer: at most
    one call is made, and only its success is reported as one. *)
Definition set_outcome (q : Query) (st : option T) : option T * string :=
  match st with
  | Some t => match set_call q t with
              | Some m => let '(t', r) := m t in (Some t', answer_type r)
              | None => (Some t, IQError)
              end
  | None => (None, IQError)
  end.

(** A request of type [get] is refused under the closed policy only. *)
Definition get_outcome (st : option T) : option T * string :=
  (st, if bool_decide (Policy cfg = registrationClosed) then IQError else IQResult).

Definition outcome (allowed : bool) (typ : string) (q : Query) (st : option T) : option T * string :=
  if negb allowed then (st, IQError)
  else if bool_decide (typ = IQGet) then get_outcome st else set_outcome q st.

(** The run [r] sent one answer to [iq], of the type [o] says, changed nothing
    else of the connection [c], and left the store [o] says. *)
Definition answered (iq : IQ) (c : Conn) (o : option T * string)
    (r : (Conn * option T) * res session_error unit) : Prop :=
  ∃ l, r = ((wrote_on l c, o.1), Ok tt) ∧ reply_to iq o.2 l.

Lemma reply_error_answered iq typ cond text c st :
  is_open (c_session c) → cond ≠ "" → answered iq c (st, IQError) (reply_error (T := T) iq typ cond text (c, st)).
Proof.
  intros Hc Hn. unfold reply_error, on_session. rewrite Send_ok by done.
  eexists. split; [done|]. apply error_reply_to.
Qed.

Lemma reply_query_answered iq q c st :
  is_open (c_session c) → answered iq c (st, IQResult) (reply_query (T := T) iq q (c, st)).
Proof.
  intros Hc. unfold reply_query, on_session.
  rewrite (SendElement_ok _ _ _ Hc (emits_IQPayload _ _ _ (emits_Query q))).
  eexists. split; [done|]. apply payload_reply_to, balanced_in_node.
Qed.

Lemma handleRemove_answered iq q c t :
  never_panics → is_open (c_session c) → policy_refusal cfg (extractFields q) = None →
  Policy cfg ≠ registrationClosed → q_Remove q = true →
  answered iq c (set_outcome q (Some t)) (handleRemove iq (extractFields q) t (c, Some t)).
Proof.
  intros (Ha & _ & _ & Hd) Hc Hp Hcl Hrm. unfold handleRemove, set_outcome, set_call, admitted. rewrite Hrm, Hp. cbv zeta.
  set (u := field _ "username"). set (p := field _ "password").
  destruct (decide (u = "")); [rewrite (bool_decide_true (u = "")), bool_decide_true by auto; by apply reply_error_answered|].
  destruct (decide (p = "")); [rewrite (bool_decide_true (p = "")), orb_true_r, bool_decide_true by auto; by apply reply_error_answered|].
  rewrite (bool_decide_false (u = "")), (bool_decide_false (p = "")), bool_decide_false by naive_solver. cbn [negb orb].
  specialize (Ha u p t). destruct (us_Authenticate u p t) as [[]| |]; [|by apply reply_error_answered..|done].
  unfold mbnd, store_call. specialize (Hd u t).
  destruct (us_DeleteUser u t) as [t' [[]|e|]]; [by apply reply_query_answered|by apply reply_error_answered|done].
Qed.

Lemma createAccount_answered iq u p c t :
  never_panics → is_open (c_session c) →
  answered iq c
    match us_UserExists u t, hashPasswordSCRAMSHA256 sha256 (e_rnd env) p (rc_Iterations cfg) with
    | Ok false, Some sc =>
        let '(t', r) := us_CreateUser (e_now' env)
          (mkUser u p (sc_salt sc) (sc_iters sc) (sc_serverKey sc) (sc_storedKey sc) 0 0) t in
        (Some t', answer_type r)
    | _, _ => (Some t, IQError)
    end (createAccount sha256 cfg env iq u p t (c, Some t)).
Proof.
  intros (_ & He & Hcr & _) Hc. unfold createAccount. specialize (He u t).
  destruct (us_UserExists u t) as [[]| |]; [by apply reply_error_answered| |by apply reply_error_answered|done].
  destruct (hashPasswordSCRAMSHA256 _ _ _ _) as [sc|]; [|by apply reply_error_answered].
  unfold mbnd, store_call.
  match goal with |- context [us_CreateUser ?n ?x t] => specialize (Hcr n x t); destruct (us_CreateUser n x t) as [t' [[]|e|]] end;
    [by apply reply_query_answered|by destruct e; apply reply_error_answered|done].
Qed.

Lemma handleSet_answered iq q c st :
  never_panics → is_open (c_session c) →
  answered iq c (set_outcome q st) (handleSet sha256 cfg env iq q (c, st)).
Proof.
  intros Hn Hc. unfold handleSet.
  destruct (decide (Policy cfg = registrationClosed)) as [Hcl|Hcl].
  { rewrite bool_decide_true by done. unfold set_outcome, set_call, admitted.
    rewrite bool_decide_true by auto. by destruct st; apply reply_error_answered. }
  rewrite (bool_decide_false (Policy cfg = _)) by done. destruct st as [t|]; [|by apply reply_error_answered].
  destruct (policy_refusal cfg (extractFields q)) as [text|] eqn:Hp.
  { unfold set_outcome, set_call, admitted. rewrite Hp, bool_decide_true by auto. by apply reply_error_answered. }
  destruct (q_Remove q) eqn:Hr; [by apply handleRemove_answered|].
  unfold set_outcome, set_call, admitted. rewrite Hp, Hr. cbv zeta.
  set (u := field _ "username"). set (p := field _ "password").
  destruct (decide (u = "")); [rewrite (bool_decide_true (u = "")), bool_decide_true by auto; by apply reply_error_answered|].
  destruct (decide (p = "")); [rewrite (bool_decide_true (p = "")), orb_true_r, bool_decide_true by auto; by apply reply_error_answered|].
  rewrite (bool_decide_false (u = "")), (bool_decide_false (p = "")), bool_decide_false by naive_solver. cbn [negb orb].
  pose proof (createAccount_answered iq u p c t Hn Hc) as Hca.
  destruct (us_UserExists u t) as [[]| |]; [done| |done..].
  by destruct (hashPasswordSCRAMSHA256 _ _ _ _).
Qed.

Lemma Handle_answered iq q c st :
  never_panics → decode_Query (iq_Query iq) = Some q → (iq_Type iq = IQGet ∨ iq_Type iq = IQSet) →
  is_open (c_session c) →
  let '(l, ok) := Allow (e_now env) (e_now' env) (peerKey (c_peer c)) (c_limiter c) in
  answered iq (set_limiter l c) (outcome ok (iq_Type iq) q st) (Handle sha256 unicode cfg env iq (c, st)).
Proof.
  intros Hn Hq Ht Hc. unfold Handle, outcome, get_outcome. rewrite (bool_decide_false (_ ∧ _)) by tauto.
  destruct (Allow _ _ _ _) as [l ok] eqn:Ha.
  destruct (iq_Query iq) as [|n frag]; [done|]. rewrite Hq.
  unfold mbnd, get_conn, update. rewrite Ha.
  destruct ok; [|by apply reply_error_answered]. simpl.
  case_bool_decide; [|by apply handleSet_answered].
  unfold handleGet. case_bool_decide; [by apply reply_error_answered|by apply reply_query_answered].
Qed.
End outcome.

Lemma outcome_types {T} `{UserStore T} sha256 cfg env ok typ q (st : option T) :
  let o := outcome sha256 cfg env ok typ q st in o.2 = IQResult ∨ o.2 = IQError.
Proof.
  unfold outcome, get_outcome, set_outcome. destruct ok; [|by right].
  case_bool_decide; [simpl; case_bool_decide; auto|]. destruct st as [t|]; [|by right].
  destruct (set_call _ _ _ _ _) as [m|]; [|by right]. destruct (m t) as [t' []]; simpl; auto.
Qed.

Section effect.
Context {T : Type} `{UserStoreLaws T accounts}.
Context (sha256 : Hash) (cfg : registrationConfig) (env : Env).

(** The effect of a request of type [set] on the accounts. *)
Definition set_effect (q : Query) (a : gmap string string) : gmap string string :=
  let u := field (extractFields q) "username" in
  let p := field (extractFields q) "password" in
  if negb (admitted cfg q) then a
  else if q_Remove q then (if bool_decide (a !! u = Some p) then delete u a else a)
  else if bool_decide (a !! u = None ∧ e_rnd env ≠ None) then <[u := p]> a else a.

Lemma laws_never_panic : never_panics (T := T).
Proof.
  split_and!; intros.
  - destruct (decide (accounts t !! u = Some p)) as [E|E]; [by rewrite (auth_match _ _ _ E)|by rewrite (auth_mismatch _ _ _ E)].
  - by rewrite exists_spec.
  - destruct (accounts t !! Username user) eqn:E.
    + by destruct (create_taken now user t) as (? & -> & _); [eauto|].
    + by destruct (create_new now user t) as (? & -> & _).
  - destruct (accounts t !! u) eqn:E.
    + by destruct (delete_known u t) as (? & -> & _); [eauto|].
    + by destruct (delete_unknown u t) as (? & -> & _).
Qed.

Lemma set_outcome_effect q st :
  accounts <$> (set_outcome sha256 cfg env q st).1 = (λ t, set_effect q (accounts t)) <$> st.
Proof.
  destruct st as [t|]; [|done]. unfold set_outcome, set_call, set_effect.
  set (u := field _ "username"). set (p := field _ "password").
  destruct (admitted cfg q); [|done]. simpl. destruct (q_Remove q).
  - case_bool_decide as Ha; [|by rewrite (auth_mismatch _ _ _ Ha)].
    rewrite (auth_match _ _ _ Ha). by destruct (delete_known u t) as (t' & -> & <-); [eauto|].
  - rewrite exists_spec. destruct (accounts t !! u) eqn:Hu.
    { by rewrite bool_decide_true, bool_decide_false by (naive_solver eauto). }
    rewrite bool_decide_false by (by intros [? ?]).
    destruct (e_rnd env) as [rnd|]; [|done]. rewrite bool_decide_true by done. cbn [hashPasswordSCRAMSHA256].
    match goal with |- context [us_CreateUser ?n ?x t] => destruct (create_new n x t Hu) as (t' & E & Ha) end.
    rewrite E. cbn. by rewrite Ha.
Qed.
End effect.

(** C17: what the registration handler does with a request, on every branch.
    For every account backend whose methods return, failures included, and for a
    server without one, every configuration and every iq of type [get] or [set]
    whose payload is a registration query, on a connection that accepts writes:
    [Handle] itself does not fail, sends exactly one answer with the id of the
    request, and changes nothing else of the connection but its rate limiter.
    The answer is a result, and the store changed, exactly as [outcome] says:
    nothing when the limiter, the policy, missing fields, a failed lookup,
    authentication or hashing stop the request; otherwise the one call that
    deletes or creates the account, a result only if that call succeeded.  On a
    backend that keeps the account laws the accounts then change as follows and
    not otherwise: a removal deletes the account exactly when its password is
    given; a registration adds exactly the given name and password, and only if
    the name is free.  (What the server sends after [Handle] has returned is
    [unready_request_answers].) *)
Theorem registration_effect {T} `{UserStore T} sha256 unicode cfg env iq q c (st : option T) :
  never_panics (T := T) → decode_Query (iq_Query iq) = Some q → (iq_Type iq = IQGet ∨ iq_Type iq = IQSet) →
  is_open (c_session c) →
  let '(l, ok) := Allow (e_now env) (e_now' env) (peerKey (c_peer c)) (c_limiter c) in
  let o := outcome sha256 cfg env ok (iq_Type iq) q st in
  answered iq (set_limiter l c) o (Handle sha256 unicode cfg env iq (c, st)) ∧
  ∀ accounts, UserStoreLaws T accounts →
    accounts <$> o.1 =
    (λ t, if ok && bool_decide (iq_Type iq = IQSet) then set_effect cfg env q (accounts t) else accounts t) <$> st.
Proof.
  intros Hn Hq Ht Hc. pose proof (Handle_answered sha256 unicode cfg env iq q c st Hn Hq Ht Hc) as Hh.
  destruct (Allow _ _ _ _) as [l ok]. split; [done|]. intros accounts HL. unfold outcome.
  destruct ok; [|by destruct st]. destruct Ht as [-> | ->]; simpl; [by destruct st|]. apply set_outcome_effect.
Qed.

(** With data forms switched off the form the server sends names no field at
    all: the empty strings assigned to the query's fields are omitted. *)
Lemma plain_form_lists_no_field unicode cfg :
  DataForm cfg = false →
  query_node (buildForm unicode cfg) =
  Elem (mkName ns_Register "query") [] (text_nodes "instructions" (Instructions cfg)).
Proof. intros Hd. unfold query_node, buildForm. simpl. rewrite Hd. by rewrite !app_nil_r. Qed.

(** ** Concrete runs *)

Module RegistrationExample.

Definition sha256 : Hash := SaslExample.toy.
Definition unicode (s : string) : string := s.
Definition cfg := mkRegConfig "invite" ["username"; "password"] {["abc"]} ∅ 2 60 4096 true "Register.".
Definition env := mkEnv 100 100 (Some (to_bytes "0123456789abcdef")).
Definition conn : Conn :=
  mkConn (NewSession [WithState StateServer]) "" (newRateLimiter 2 60) (Some "192.0.2.1:40000").

Definition value (k v : string) : node :=
  Elem (mkName "" "field") [attr "var" k] [Elem (mkName "" "value") [] [Text v]].
Definition request : IQ :=
  mkIQ (mkHeader no_name "r1" JID_zero JID_zero "set" "")
    [Elem (mkName ns_Register "query") [attr "xmlns" ns_Register]
       [Elem (mkName ns_DataForms "x") [attr "xmlns" ns_DataForms]
          [value "username" "alice"; value "password" "secret"; value "invite" "abc"]]] None.

(** A store that cannot be written. *)
Definition broken_users : UserStore unit := {|
  us_Authenticate _ _ _ := Err ErrNotFound; us_UserExists _ _ := Ok false;
  us_CreateUser _ _ _ := (tt, Err ErrNotFound); us_DeleteUser _ _ := (tt, Err ErrNotFound) |}.

Lemma registration_effect_witness :
  ∃ q, decode_Query (iq_Query request) = Some q ∧
  (let c := set_limiter (mkLimiter 60 2 {["192.0.2.1" := [100%Z]]}) conn in
   (∃ t, memory_accounts t = {["alice" := "secret"]} ∧
     answered request c (Some t, IQResult) (Handle sha256 unicode cfg env request (conn, Some MemoryStorage.New))) ∧
   answered request c (Some tt, IQError) (Handle (H := broken_users) sha256 unicode cfg env request (conn, Some tt))).
Proof.
  eexists. split; [reflexivity|]. split.
  - destruct (registration_effect sha256 unicode cfg env request _ conn (Some MemoryStorage.New)
      laws_never_panic eq_refl (or_intror eq_refl)) as [Ha He]; [by split|].
    specialize (He memory_accounts _). eexists. split; [|exact Ha]. exact (Some_inj _ _ He).
  - by destruct (registration_effect (H := broken_users) sha256 unicode cfg env request _ conn (Some tt)
      ltac:(done) eq_refl (or_intror eq_refl)).
Defined.

(** Three requests within a minute, the third refused; a fourth one later. *)
Definition calls : list (time * time * string) :=
  [(1, 1, "a"); (2, 3, "b"); (5, 6, "a"); (7, 7, "a"); (80, 81, "a")]%Z.

Lemma rate_limit_window_witness :
  (allow_run "a" calls (newRateLimiter 2 60)).2 = [1; 6; 81]%Z ∧
  (Z.of_nat (length (List.filter (in_window 60 61) (allow_run "a" calls (newRateLimiter 2 60)).2)) <= 2)%Z.
Proof.
  split; [reflexivity|]. apply (rate_limit_window 2 60 0); [lia|lia|]. simpl. lia.
Defined.

End RegistrationExample.
