(* ===== verification/RegisterFlow.v ===== *)
(** * The client side of in-band registration (src/plugins/register/flow.go)

    Fetching a registration form and submitting it: reading the server's
    stream, the STARTTLS upgrade, decoding of queries and data forms, CAPTCHA
    media, and the request that is built from the answers.  A connection is the
    tokens the peer will send, before and after the TLS handshake, and what has
    been written, each with whether it went through TLS.  [RegisterProperties]
    has the theorems. *)

From Stdlib Require Import Ascii String ZArith.
From stdpp Require Import pretty.
From S2P Require Import Prelude GoStrings Bytes Base64 Xml Stanza Storage MemoryStorage.

Open Scope string_scope.
Open Scope list_scope.
Local Open Scope go_scope.

(** ** Strings *)

Fixpoint Contains (s sub : string) : bool :=
  has_prefix sub s || match s with "" => false | String _ s' => Contains s' sub end.

(** [strings.CutPrefix], [strings.TrimPrefix]. *)
Definition CutPrefix (s p : string) : option string :=
  if HasPrefix s p then Some (str_drop (String.length p) s) else None.
Definition TrimPrefix (s p : string) : string := default s (CutPrefix s p).

(** [strings.Fields]: maximal runs without white space.  [cur] is the word being
    read, [skip] the bytes of a white space rune still to pass. *)
Fixpoint fields_from (cur : string) (skip : nat) (s : string) : list string :=
  match s with
  | "" => if bool_decide (cur = "") then [] else [cur]
  | String c s' =>
      match skip with
      | S k => fields_from cur k s'
      | 0 => match find_space spaces (HasPrefix s) with
             | Some p => (if bool_decide (cur = "") then [] else [cur])
                           ++ fields_from "" (String.length p - 1) s'
             | None => fields_from (cur +:+ String c "") 0 s'
             end
      end
  end.
Definition Fields (s : string) : list string := fields_from "" 0 s.

(** [strings.TrimRight(s, cutset)] for an ASCII cutset. *)
Fixpoint TrimRight (s : string) (cutset : string) : string :=
  match s with
  | "" => ""
  | String c s' =>
      let r := TrimRight s' cutset in
      if bool_decide (r = "") && has_byte c cutset then "" else String c r
  end.

(** [base64.URLEncoding.DecodeString]: the alphabet with [-] and [_]. *)
Definition URLDecodeString (s : string) : option bytes :=
  if has_byte "+" s || has_byte "/" s then None
  else DecodeString (str_map (fun c => if bool_decide (c = "-"%char) then "+"%char
                                       else if bool_decide (c = "_"%char) then "/"%char else c) s).

(** ** Data *)

Record RegistrationField := mkRegField {
  rf_Name : string; rf_Label : string; rf_Required : bool; rf_Password : bool; rf_Type : string; rf_Value : string }.

Record CaptchaData := mkCaptcha {
  cd_Type : string; cd_Challenge : string; cd_MimeType : string; cd_Data : bytes; cd_URLs : list string;
  cd_URL : string; cd_Question : string; cd_FieldVar : string }.

Record RegistrationForm := mkForm {
  rg_Server : string; rg_Port : Z; rg_Instructions : string; rg_Fields : list RegistrationField;
  rg_IsDataForm : bool; rg_FormType : string; rg_RequiresCaptcha : bool; rg_Captcha : option CaptchaData }.

Record RegistrationResult := mkResult { rr_Success : bool; rr_JID : string; rr_Error : string }.

Definition fieldLabels : list (string * string) :=
  [("username", "Username"); ("password", "Password"); ("email", "Email"); ("name", "Full Name");
   ("first", "First Name"); ("last", "Last Name"); ("nick", "Nickname"); ("address", "Address");
   ("city", "City"); ("state", "State"); ("zip", "ZIP Code"); ("phone", "Phone"); ("url", "Website");
   ("date", "Date"); ("misc", "Miscellaneous"); ("text", "Text"); ("key", "Key");
   ("registered", "Already Registered")].
Definition fieldLabel (name : string) : string :=
  match List.find (fun kv => bool_decide (kv.1 = name)) fieldLabels with Some kv => kv.2 | None => "" end.

Definition passwordFields (name : string) : bool := bool_decide (name = "password").

Record mediaURI := mkURI { mu_Type : string; mu_URI : string }.
Record mediaElement := mkMedia { me_URIs : list mediaURI }.
Record xDataField := mkXField {
  xf_Var : string; xf_Type : string; xf_Label : string; xf_Required : bool; xf_Value : list string;
  xf_Media : option mediaElement }.
Record xDataForm := mkXForm {
  xd_XMLNS : string; xd_Type : string; xd_Title : string; xd_Instructions : list string; xd_Fields : list xDataField }.
Record bobData := mkBob { bo_CID : string; bo_Type : string; bo_Data : string }.

(** The optional text children of a query, in the order of the struct; a query
    holds those that are not nil, by element name. *)
Definition legacy_fields : list string :=
  ["username"; "password"; "email"; "name"; "first"; "last"; "nick"; "address"; "city"; "state"; "zip";
   "phone"; "url"; "date"; "misc"; "text"; "key"].
Record registerQuery := mkRegQuery {
  rq_XMLNS : string; rq_Instructions : string; rq_Values : gmap string string; rq_Registered : bool;
  rq_XData : option xDataForm; rq_BobData : list bobData }.

(** [se_Condition] is tagged [,any]: the text of the last child. *)
Record stanzaError := mkFlowError { se_Type : string; se_Code : string; se_Condition : string }.
Record iqStanza := mkIqStanza {
  is_Type : string; is_ID : string; is_To : string; is_From : string;
  is_Query : option registerQuery; is_Error : option stanzaError }.

(** ** Decoding ([encoding/xml] into these structs); [None] is an error *)

Definition NS := "jabber:iq:register".
Definition ns_media := "urn:xmpp:media-element".
Definition ns_bob := "urn:xmpp:bob".

(** An [int] attribute: empty is zero, otherwise a decimal number that fits. *)
Definition int_attr_ok (name : string) (attrs : list Attr) : bool :=
  forallb (fun a => negb (bool_decide (Local (attrName a) = name))
                    || bool_decide (attrValue a = "")
                    || match Atoi (TrimSpace (attrValue a)) with Some _ => true | None => false end) attrs.

(** Every child, in order, with its local name. *)
Fixpoint opt_fold {A} (f : A -> Name -> list Attr -> list node -> option A) (cs : list node) (a : A) : option A :=
  match cs with
  | [] => Some a
  | Elem n at' cs' :: rest => match f a n at' cs' with Some a' => opt_fold f rest a' | None => None end
  | _ :: rest => opt_fold f rest a
  end.

Definition decode_media (m : mediaElement) (n : Name) (attrs : list Attr) (cs : list node) : option mediaElement :=
  if bool_decide (Space n = ns_media) && int_attr_ok "height" attrs && int_attr_ok "width" attrs then
    opt_fold (fun m n' a' cs' =>
      Some (if bool_decide (Local n' = "uri")
            then mkMedia (me_URIs m ++ [mkURI (attr_string "type" a' "") (chardata cs')]) else m)) cs m
  else None.

Definition decode_bob (n : Name) (attrs : list Attr) (cs : list node) : option bobData :=
  if bool_decide (Space n = ns_bob) && int_attr_ok "max-age" attrs
  then Some (mkBob (attr_string "cid" attrs "") (attr_string "type" attrs "") (chardata cs)) else None.

Definition xField_child (f : xDataField) (n' : Name) (a' : list Attr) (cs' : list node) : option xDataField :=
  if bool_decide (Local n' = "required")
  then Some (mkXField (xf_Var f) (xf_Type f) (xf_Label f) true (xf_Value f) (xf_Media f))
  else if bool_decide (Local n' = "value")
  then Some (mkXField (xf_Var f) (xf_Type f) (xf_Label f) (xf_Required f) (xf_Value f ++ [chardata cs']) (xf_Media f))
  else if bool_decide (Local n' = "media")
  then match decode_media (default (mkMedia []) (xf_Media f)) n' a' cs' with
       | Some m => Some (mkXField (xf_Var f) (xf_Type f) (xf_Label f) (xf_Required f) (xf_Value f) (Some m))
       | None => None
       end
  else Some f.
Definition decode_xField (attrs : list Attr) (cs : list node) : option xDataField :=
  opt_fold xField_child cs
    (mkXField (attr_string "var" attrs "") (attr_string "type" attrs "") (attr_string "label" attrs "") false [] None).

Definition xData_child (x : xDataForm) (n' : Name) (a' : list Attr) (cs' : list node) : option xDataForm :=
  if bool_decide (Local n' = "title")
  then Some (mkXForm (xd_XMLNS x) (xd_Type x) (chardata cs') (xd_Instructions x) (xd_Fields x))
  else if bool_decide (Local n' = "instructions")
  then Some (mkXForm (xd_XMLNS x) (xd_Type x) (xd_Title x) (xd_Instructions x ++ [chardata cs']) (xd_Fields x))
  else if bool_decide (Local n' = "field")
  then match decode_xField a' cs' with
       | Some f => Some (mkXForm (xd_XMLNS x) (xd_Type x) (xd_Title x) (xd_Instructions x) (xd_Fields x ++ [f]))
       | None => None
       end
  else Some x.
Definition decode_xData (x : xDataForm) (attrs : list Attr) (cs : list node) : option xDataForm :=
  opt_fold xData_child cs
    (mkXForm (attr_string "xmlns" attrs (xd_XMLNS x)) (attr_string "type" attrs (xd_Type x)) (xd_Title x)
       (xd_Instructions x) (xd_Fields x)).

Definition registerQuery_child (q : registerQuery) (n' : Name) (a' : list Attr) (cs' : list node) : option registerQuery :=
  if bool_decide (Local n' = "instructions")
  then Some (mkRegQuery (rq_XMLNS q) (chardata cs') (rq_Values q) (rq_Registered q) (rq_XData q) (rq_BobData q))
  else if bool_decide (Local n' ∈ legacy_fields)
  then Some (mkRegQuery (rq_XMLNS q) (rq_Instructions q) (<[Local n' := chardata cs']> (rq_Values q))
               (rq_Registered q) (rq_XData q) (rq_BobData q))
  else if bool_decide (Local n' = "registered")
  then Some (mkRegQuery (rq_XMLNS q) (rq_Instructions q) (rq_Values q) true (rq_XData q) (rq_BobData q))
  else if bool_decide (Local n' = "x")
  then match decode_xData (default (mkXForm "" "" "" [] []) (rq_XData q)) a' cs' with
       | Some x => Some (mkRegQuery (rq_XMLNS q) (rq_Instructions q) (rq_Values q) (rq_Registered q) (Some x) (rq_BobData q))
       | None => None
       end
  else if bool_decide (Local n' = "data")
  then match decode_bob n' a' cs' with
       | Some b => Some (mkRegQuery (rq_XMLNS q) (rq_Instructions q) (rq_Values q) (rq_Registered q) (rq_XData q)
                           (rq_BobData q ++ [b]))
       | None => None
       end
  else Some q.
Definition decode_registerQuery (q : registerQuery) (attrs : list Attr) (cs : list node) : option registerQuery :=
  opt_fold registerQuery_child cs
    (mkRegQuery (attr_string "xmlns" attrs (rq_XMLNS q)) (rq_Instructions q) (rq_Values q) (rq_Registered q)
       (rq_XData q) (rq_BobData q)).

Definition decode_flowError (e : stanzaError) (attrs : list Attr) (cs : list node) : stanzaError :=
  mkFlowError (attr_string "type" attrs (se_Type e)) (attr_string "code" attrs (se_Code e))
    (fold_left (fun v c => match c with Elem _ _ cs' => chardata cs' | _ => v end) cs (se_Condition e)).

Definition iqStanza_child (i : iqStanza) (n' : Name) (a' : list Attr) (cs' : list node) : option iqStanza :=
  if bool_decide (Local n' = "query")
  then match decode_registerQuery (default (mkRegQuery "" "" ∅ false None []) (is_Query i)) a' cs' with
       | Some q => Some (mkIqStanza (is_Type i) (is_ID i) (is_To i) (is_From i) (Some q) (is_Error i))
       | None => None
       end
  else if bool_decide (Local n' = "error")
  then Some (mkIqStanza (is_Type i) (is_ID i) (is_To i) (is_From i) (is_Query i)
               (Some (decode_flowError (default (mkFlowError "" "" "") (is_Error i)) a' cs')))
  else Some i.
Definition decode_iqStanza (attrs : list Attr) (cs : list node) : option iqStanza :=
  opt_fold iqStanza_child cs
    (mkIqStanza (attr_string "type" attrs "") (attr_string "id" attrs "") (attr_string "to" attrs "")
       (attr_string "from" attrs "") None None).

(** ** CAPTCHA media *)

Definition detectChallengeType (fieldVar : string) : string :=
  if bool_decide (fieldVar = "captcha") then "ocr"
  else if bool_decide (fieldVar ∈ ["ocr"; "audio_recog"; "video_recog"; "picture_recog"; "picture_q"; "speech_q";
                                   "speech_recog"; "video_q"; "qa"])
  then fieldVar else "".

Section Flow.
(** Go's Unicode case mapping of strings that are not ASCII, and the order in
    which a range over a map visits its entries. *)
Variables (lower upper : string -> string) (it : iteration).

Fixpoint media_type_of (uris : list mediaURI) : string :=
  match uris with
  | [] => "image"
  | u :: rest =>
      let mimeType := ToLower lower (mu_Type u) in
      if HasPrefix mimeType "audio/" then "audio"
      else if HasPrefix mimeType "video/" then "video"
      else if HasPrefix mimeType "image/" then "image"
      else media_type_of rest
  end.

Definition getCaptchaMediaType (challengeType : string) (media : option mediaElement) : string :=
  if bool_decide (challengeType ∈ ["audio_recog"; "speech_q"; "speech_recog"]) then "audio"
  else if bool_decide (challengeType ∈ ["video_recog"; "video_q"]) then "video"
  else if bool_decide (challengeType = "qa") then "qa"
  else if bool_decide (challengeType ∈ ["ocr"; "picture_recog"; "picture_q"; "captcha"]) then "image"
  else match media with Some m => media_type_of (me_URIs m) | None => "image" end.

Definition decodeBOBData (bob : bobData) : option (bytes * string) :=
  match DecodeString (TrimSpace (bo_Data bob)) with Some d => Some (d, bo_Type bob) | None => None end.

Definition extractCIDHash (cid : string) : string :=
  let cid := TrimPrefix cid "cid:" in
  let cid := match IndexByte cid "@" with
             | Some (S i) => str_take (S i) cid
             | _ => cid
             end in
  match IndexByte cid "+" with Some i => str_drop (S i) cid | None => cid end.

Definition lookupBOBData (cid : string) (bobDataMap : gmap string bobData) : option (bytes * string) :=
  match bobDataMap !! cid with
  | Some bob => decodeBOBData bob
  | None =>
      match bobDataMap !! ("cid:" +:+ cid) with
      | Some bob => decodeBOBData bob
      | None =>
          match List.find (fun kv => bool_decide (TrimPrefix kv.1 "cid:" = cid)) (visit it bobDataMap) with
          | Some kv => decodeBOBData kv.2
          | None =>
              let cidHash := extractCIDHash cid in
              if bool_decide (cidHash = "") then None
              else match List.find (fun kv => bool_decide (extractCIDHash kv.1 = cidHash)
                                              || bool_decide (extractCIDHash (TrimPrefix kv.1 "cid:") = cidHash))
                                   (visit it bobDataMap) with
                   | Some kv => decodeBOBData kv.2
                   | None => None
                   end
          end
      end
  end.

(** The metadata of a [data:] URI: media type and whether it is base64. *)
Definition data_metadata (parts : list string) : string * bool :=
  match parts with
  | [] => ("text/plain", false)
  | p :: rest =>
      let '(mime, b) := if bool_decide (p ≠ "") then (p, false) else ("text/plain", bool_decide (p = "base64")) in
      (mime, b || existsb (fun q => bool_decide (q = "base64")) rest)
  end.

Definition parseDataURI (dataURI : string) : option (bytes * string) :=
  match IndexByte dataURI "," with
  | None => None
  | Some commaIdx =>
      let data := str_drop (S commaIdx) dataURI in
      let '(mimeType, isBase64) := data_metadata (Split (str_take commaIdx dataURI) ";") in
      if isBase64 then
        match DecodeString data with
        | Some d => Some (d, mimeType)
        | None => match URLDecodeString data with Some d => Some (d, mimeType) | None => None end
        end
      else Some (list_ascii_of_string data, mimeType)
  end.

Definition is_http (s : string) : bool := HasPrefix s "http://" || HasPrefix s "https://".

Definition set_media (r : option (bytes * string)) (c : CaptchaData) : CaptchaData :=
  match r with
  | Some (d, m) => mkCaptcha (cd_Type c) (cd_Challenge c) m d (cd_URLs c) (cd_URL c) (cd_Question c) (cd_FieldVar c)
  | None => c
  end.
Definition set_url (url : string) (c : CaptchaData) : CaptchaData :=
  mkCaptcha (cd_Type c) (cd_Challenge c) (cd_MimeType c) (cd_Data c) (cd_URLs c ++ [url]) url (cd_Question c) (cd_FieldVar c).

(** One URI of a media element. *)
Definition captcha_uri (bobs : gmap string bobData) (c : CaptchaData) (uri : mediaURI) : CaptchaData :=
  match CutPrefix (mu_URI uri) "cid:" with
  | Some cid => set_media (lookupBOBData cid bobs) c
  | None =>
      match CutPrefix (mu_URI uri) "data:" with
      | Some dataURI => set_media (parseDataURI dataURI) c
      | None =>
          if is_http (mu_URI uri) then
            mkCaptcha (cd_Type c) (cd_Challenge c)
              (if bool_decide (cd_MimeType c = "") then mu_Type uri else cd_MimeType c) (cd_Data c)
              (cd_URLs c ++ [mu_URI uri])
              (if bool_decide (cd_URL c = "") then mu_URI uri else cd_URL c) (cd_Question c) (cd_FieldVar c)
          else c
      end
  end.

Definition no_media_yet (c : CaptchaData) : bool := bool_decide (cd_URL c = "") && bool_decide (cd_Data c = []).

(** What a CAPTCHA field does to the form's CAPTCHA. *)
Definition captcha_field (bobs : gmap string bobData) (field : xDataField) (challengeType : string)
    (captcha : option CaptchaData) : CaptchaData :=
  let c := match captcha with
           | Some c => c
           | None => mkCaptcha "" challengeType "" [] [] "" (xf_Label field) (xf_Var field)
           end in
  let c := mkCaptcha (getCaptchaMediaType challengeType (xf_Media field)) (cd_Challenge c) (cd_MimeType c) (cd_Data c)
             (cd_URLs c) (cd_URL c) (cd_Question c) (cd_FieldVar c) in
  let c := match xf_Media field with Some m => fold_left (captcha_uri bobs) (me_URIs m) c | None => c end in
  let c := match xf_Value field with
           | val :: _ =>
               if no_media_yet c then
                 if is_http val then set_url val c
                 else match CutPrefix val "data:" with
                      | Some dataURI => set_media (parseDataURI dataURI) c
                      | None => c
                      end
               else c
           | [] => c
           end in
  let c := if no_media_yet c && is_http (xf_Label field) then set_url (xf_Label field) c else c in
  if bool_decide (challengeType = "qa")
  then mkCaptcha "qa" (cd_Challenge c) (cd_MimeType c) (cd_Data c) (cd_URLs c) (cd_URL c) (xf_Label field) (cd_FieldVar c)
  else c.

(** ** Forms *)

Definition capitalize (name : string) : string := ToUpper upper (str_take 1 name) +:+ str_drop 1 name.

Definition label_or (label name : string) : string :=
  if bool_decide (label ≠ "") then label
  else if bool_decide (fieldLabel name ≠ "") then fieldLabel name
  else capitalize name.

Definition captcha_of_instructions (instructions : string) : option CaptchaData :=
  if Contains instructions "http://" || Contains instructions "https://" then
    match List.find is_http (Fields instructions) with
    | Some word => Some (mkCaptcha "image" "" "" [] [] (TrimRight word ".,;:!?") "" "")
    | None => None
    end
  else None.

Definition isCaptchaField (field : xDataField) : bool :=
  bool_decide (detectChallengeType (xf_Var field) ≠ "")
  || Contains (ToLower lower (xf_Var field)) "captcha"
  || Contains (ToLower lower (xf_Label field)) "captcha".

Definition is_media (field : xDataField) : bool := match xf_Media field with Some _ => true | None => false end.

Definition reg_field (field : xDataField) : RegistrationField :=
  mkRegField (xf_Var field) (label_or (xf_Label field) (xf_Var field)) (xf_Required field)
    (bool_decide (xf_Type field = "text-private") || passwordFields (xf_Var field)) (xf_Type field)
    (match xf_Value field with v :: _ => v | [] => "" end).

(** The body of the loop over the fields. *)
Definition form_field (bobs : gmap string bobData) (form : RegistrationForm) (field : xDataField) : RegistrationForm :=
  if bool_decide (xf_Var field = "FORM_TYPE") then
    match xf_Value field with
    | v :: _ => mkForm (rg_Server form) (rg_Port form) (rg_Instructions form) (rg_Fields form) (rg_IsDataForm form) v
                  (rg_RequiresCaptcha form) (rg_Captcha form)
    | [] => form
    end
  else
    let form :=
      if isCaptchaField field || is_media field
      then mkForm (rg_Server form) (rg_Port form) (rg_Instructions form) (rg_Fields form) (rg_IsDataForm form)
             (rg_FormType form) true
             (Some (captcha_field bobs field (detectChallengeType (xf_Var field)) (rg_Captcha form)))
      else form in
    if bool_decide (xf_Type field = "fixed") then form
    else mkForm (rg_Server form) (rg_Port form) (rg_Instructions form) (rg_Fields form ++ [reg_field field])
           (rg_IsDataForm form) (rg_FormType form) (rg_RequiresCaptcha form) (rg_Captcha form).

Definition newline_str : string := String (ascii_of_N 10) "".

Definition parseDataForm (xdata : xDataForm) (server : string) (port : Z) (fallback : string)
    (bobs : gmap string bobData) : RegistrationForm :=
  let instructions := match xd_Instructions xdata with
                      | _ :: _ => Join (xd_Instructions xdata) newline_str
                      | [] => if bool_decide (xd_Title xdata ≠ "") then xd_Title xdata else fallback
                      end in
  let captcha := captcha_of_instructions instructions in
  fold_left (form_field bobs) (xd_Fields xdata)
    (mkForm server port instructions [] true "" (match captcha with Some _ => true | None => false end) captcha).

Definition bob_map (l : list bobData) : gmap string bobData :=
  fold_left (fun m b => <[bo_CID b := b]> m) l ∅.

Definition legacy_field (q : registerQuery) (name : string) : list RegistrationField :=
  match rq_Values q !! name with
  | Some _ => [mkRegField name (label_or "" name) (bool_decide (name = "username") || bool_decide (name = "password"))
                 (passwordFields name) "text-single" ""]
  | None => []
  end.

Definition parseRegistrationQuery (query : registerQuery) (server : string) (port : Z) : RegistrationForm :=
  match rq_XData query with
  | Some x =>
      if bool_decide (xd_XMLNS x = "jabber:x:data")
      then parseDataForm x server port (rq_Instructions query) (bob_map (rq_BobData query))
      else mkForm server port (rq_Instructions query) (concat (map (legacy_field query) legacy_fields)) false "" false None
  | None => mkForm server port (rq_Instructions query) (concat (map (legacy_field query) legacy_fields)) false "" false None
  end.

Definition xfield (name value : string) : xDataField := mkXField name "" "" false [value] None.

(** [fields] is the map of answers. *)
Definition buildRegistrationIQ (server : string) (fields : gmap string string) (isDataForm : bool) (formType : string)
    : iqStanza :=
  let query :=
    if isDataForm then
      mkRegQuery NS "" ∅ false
        (Some (mkXForm "jabber:x:data" "submit" "" []
          ((if bool_decide (formType ≠ "") then [xfield "FORM_TYPE" formType] else [])
           ++ map (fun kv => xfield kv.1 kv.2)
                (List.filter (fun kv => negb (bool_decide (kv.1 = "_isDataForm") || bool_decide (kv.1 = "_formType")))
                   (visit it fields))))) []
    else
      mkRegQuery NS ""
        (list_to_map (omap (fun name =>
           match fields !! name with
           | Some v => if bool_decide (name = "username") || bool_decide (name = "password") || bool_decide (v ≠ "")
                       then Some (name, v) else None
           | None => None
           end) legacy_fields)) false None [] in
  mkIqStanza "set" "reg2" server "" (Some query) None.

(** *** What [xml.Marshal] writes for these values *)

Definition field_elem (f : xDataField) : node :=
  Elem (mkName "" "field") (opt_attr "var" (xf_Var f) ++ opt_attr "type" (xf_Type f) ++ opt_attr "label" (xf_Label f))
    (map (fun v => Elem (mkName "" "value") [] [Text v]) (xf_Value f)).
Definition xdata_elem (x : xDataForm) : node :=
  Elem (mkName "" "x") [attr "xmlns" (xd_XMLNS x); attr "type" (xd_Type x)]
    (text_nodes "title" (xd_Title x) ++ map (fun s => Elem (mkName "" "instructions") [] [Text s]) (xd_Instructions x)
     ++ map field_elem (xd_Fields x)).
Definition query_elem (q : registerQuery) : node :=
  Elem (mkName "" "query") [attr "xmlns" (rq_XMLNS q)]
    (text_nodes "instructions" (rq_Instructions q)
     ++ omap (fun name => v ← rq_Values q !! name; Some (Elem (mkName "" name) [] [Text v])) legacy_fields
     ++ match rq_XData q with Some x => [xdata_elem x] | None => [] end).
Definition iq_elem (i : iqStanza) : node :=
  Elem (mkName "" "iq") ([attr "type" (is_Type i); attr "id" (is_ID i)] ++ opt_attr "to" (is_To i) ++ opt_attr "from" (is_From i))
    (match is_Query i with Some q => [query_elem q] | None => [] end).

(** ** The connection *)

Inductive written := WText (s : string) | WElem (n : node).

(** [l_out] is what went out, each with whether it went through TLS; the
    connection takes [l_room] more writes. *)
Record Link := mkLink { l_in : list Token; l_out : list (bool * written); l_tls : bool; l_room : nat }.

Inductive flow_error :=
  | FDial | FWrite | FRead | FClosed | FDecode | FStartTLSRefused | FHandshake | FServer (message : string).

Notation LM A := (M Link flow_error A).

Definition write (w : written) : LM unit :=
  fun l => match l_room l with
           | 0 => (l, Err FWrite)
           | S k => (mkLink (l_in l) (l_out l ++ [(l_tls l, w)]) (l_tls l) k, Ok tt)
           end.

(** Reads and drops tokens up to the first start element with one of the names;
    [e] is the error when there is none. *)
Fixpoint skip_to (names : list string) (ts : list Token) : option (Name * list Attr * list Token) :=
  match ts with
  | [] => None
  | StartElement n a :: rest => if bool_decide (Local n ∈ names) then Some (n, a, rest) else skip_to names rest
  | _ :: rest => skip_to names rest
  end.

(** The content of the element whose start has been read, and what follows it;
    the fuel is the number of tokens. *)
Fixpoint read_children (fuel : nat) (ts : list Token) : option (list node * list Token) :=
  match fuel with
  | 0 => None
  | S f =>
      match ts with
      | [] => None
      | EndElement _ :: rest => Some ([], rest)
      | StartElement n a :: rest =>
          match read_children f rest with
          | Some (cs, rest1) =>
              match read_children f rest1 with
              | Some (ns, rest2) => Some (Elem n a cs :: ns, rest2)
              | None => None
              end
          | None => None
          end
      | CharData t :: rest =>
          match read_children f rest with Some (ns, rest1) => Some (Text t :: ns, rest1) | None => None end
      | OtherToken :: rest =>
          match read_children f rest with Some (ns, rest1) => Some (Misc :: ns, rest1) | None => None end
      end
  end.
Definition element_content (ts : list Token) : option (list node * list Token) := read_children (S (length ts)) ts.

(** [readStreamFeatures]: whether STARTTLS is offered, and the rest of the input. *)
Definition readStreamFeatures : LM bool :=
  fun l =>
    match skip_to ["stream"] (l_in l) with
    | None => (mkLink [] (l_out l) (l_tls l) (l_room l), Err FRead)
    | Some (_, _, rest) =>
        match skip_to ["features"] rest with
        | None => (mkLink [] (l_out l) (l_tls l) (l_room l), Err FRead)
        | Some (_, _, rest1) =>
            match element_content rest1 with
            | None => (mkLink [] (l_out l) (l_tls l) (l_room l), Err FDecode)
            | Some (cs, rest2) => (mkLink rest2 (l_out l) (l_tls l) (l_room l), Ok (has_child "starttls" cs))
            end
        end
    end.

(** The environment: what the connection attempt yields, whether the TLS
    handshake succeeds, and the tokens the peer sends through TLS. *)
Record Net := mkNet { dial : string -> option (list Token); room : nat; handshake : bool; tls_in : list Token }.
Variable net : Net.

Definition upgradeToTLS : LM unit :=
  do_ write (WText "<starttls xmlns='urn:ietf:params:xml:ns:xmpp-tls'/>");
  fun l =>
    match skip_to ["proceed"; "failure"] (l_in l) with
    | None => (l, Err FRead)
    | Some (n, _, _) =>
        if bool_decide (Local n = "failure") then (l, Err FStartTLSRefused)
        else if handshake net then (mkLink (tls_in net) (l_out l) true (l_room l), Ok tt)
        else (l, Err FHandshake)
    end.

Definition stream_header (server : string) : string :=
  "<?xml version='1.0'?><stream:stream to='" +:+ server +:+
  "' version='1.0' xmlns='jabber:client' xmlns:stream='http://etherx.jabber.org/streams'>".

(** The common part of both operations: stream header, features, TLS. *)
Definition open_stream (server : string) : LM unit :=
  do_ write (WText (stream_header server));
  do starttls <- readStreamFeatures;
  if starttls then
    do_ upgradeToTLS;
    do_ write (WText (stream_header server));
    do _ <- readStreamFeatures; mok tt
  else mok tt.

Definition parseErrorCondition (err : stanzaError) : string :=
  let condition := TrimSpace (se_Condition err) in
  if Contains condition "conflict" then "username is already taken"
  else if Contains condition "not-acceptable" then "registration information not acceptable"
  else if Contains condition "not-allowed" then "registration not allowed"
  else if Contains condition "forbidden" then "registration forbidden"
  else if Contains condition "service-unavailable" then "server does not support registration"
  else if Contains condition "resource-constraint" then "server resource limit reached"
  else if Contains condition "bad-request" then "invalid registration request"
  else if bool_decide (condition ≠ "") then condition
  else "registration failed".

(** The loops that wait for an answer: every [iq] start element, at any depth, is
    decoded; [take] says whether its content ends the loop. *)
Fixpoint await {A} (take : iqStanza -> option (res flow_error A)) (fuel : nat) (ts : list Token) : res flow_error A :=
  match fuel with
  | 0 => Err FClosed
  | S f =>
      match skip_to ["iq"] ts with
      | None => Err FClosed
      | Some (_, attrs, rest) =>
          match element_content rest with
          | None => Err FDecode
          | Some (cs, rest1) =>
              match decode_iqStanza attrs cs with
              | None => Err FDecode
              | Some iq => match take iq with Some r => r | None => await take f rest1 end
              end
          end
      end
  end.

Definition take_form (server : string) (port : Z) (iq : iqStanza) : option (res flow_error RegistrationForm) :=
  if bool_decide (is_Type iq = "error")
  then Some (Err (FServer (match is_Error iq with
                           | Some e => parseErrorCondition e
                           | None => "server does not support registration"
                           end)))
  else match is_Query iq with
       | Some q => if bool_decide (is_Type iq = "result") then Some (Ok (parseRegistrationQuery q server port)) else None
       | None => None
       end.
Definition readRegistrationForm (ts : list Token) (server : string) (port : Z) : res flow_error RegistrationForm :=
  await (take_form server port) (S (length ts)) ts.

Definition take_result (server username : string) (iq : iqStanza) : option (res flow_error RegistrationResult) :=
  if bool_decide (is_Type iq = "error")
  then Some (Ok (mkResult false "" (match is_Error iq with
                                    | Some e => parseErrorCondition e
                                    | None => "registration failed"
                                    end)))
  else if bool_decide (is_Type iq = "result") then Some (Ok (mkResult true (username +:+ "@" +:+ server) ""))
  else None.
Definition readRegistrationResult (ts : list Token) (server username : string) : res flow_error RegistrationResult :=
  await (take_result server username) (S (length ts)) ts.

Definition address (server : string) (port : Z) : string := server +:+ ":" +:+ pretty port.

(** Dialling, running [m] on the new connection. *)
Definition with_conn {A} (server : string) (port : Z) (m : LM A) : Link * res flow_error A :=
  match dial net (address server port) with
  | None => (mkLink [] [] false 0, Err FDial)
  | Some ts => m (mkLink ts [] false (room net))
  end.

(** The closing tag; a failure to write it is ignored. *)
Definition close_stream : LM unit := fun l => ((write (WText "</stream:stream>") l).1, Ok tt).

Definition FetchRegistrationForm (server : string) (port : Z) : Link * res flow_error RegistrationForm :=
  let port := if (port =? 0)%Z then 5222%Z else port in
  with_conn server port
    (do_ open_stream server;
     do_ write (WElem (iq_elem (mkIqStanza "get" "reg1" server "" (Some (mkRegQuery NS "" ∅ false None [])) None)));
     do l <- mget;
     do form <- mlift (readRegistrationForm (l_in l) server port);
     do_ close_stream; mok form).

Definition SubmitRegistration (server : string) (port : Z) (fields : gmap string string) (isDataForm : bool)
    (formType : string) : Link * res flow_error RegistrationResult :=
  let port := if (port =? 0)%Z then 5222%Z else port in
  with_conn server port
    (do_ open_stream server;
     do_ write (WElem (iq_elem (buildRegistrationIQ server fields isDataForm formType)));
     do l <- mget;
     do result <- mlift (readRegistrationResult (l_in l) server (default "" (fields !! "username")));
     do_ close_stream; mok result).
End Flow.
