(* ===== verification/RegisterProperties.v ===== *)
(** * Registration end to end (src/plugins/register/flow.go against src/cmd/xmppd/registration.go)

    The client of [RegisterFlow] meets the server of [XmppdRegistration]: what
    the server reads from the client's request, what the client makes of the
    server's answers and forms, and what travels in clear. *)

From Stdlib Require Import Ascii String ZArith.
From S2P Require Import Prelude GoStrings Bytes Base64 Xml Jid Stanza Sasl Session Storage MemoryStorage UserStore XmppdRegistration RegisterFlow.

Open Scope string_scope.
Open Scope list_scope.

(** ** Trees on the wire

    The reader puts every name in a namespace: the one of the name itself, the
    one its [xmlns] attribute declares, or the one around it; an element written
    with a namespace carries the declaration. *)

Definition has_xmlns (attrs : list Attr) : bool := existsb (fun a => bool_decide (Local (attrName a) = "xmlns")) attrs.

Fixpoint read_tree (d : string) (n : node) : node :=
  match n with
  | Elem nm attrs cs =>
      let d' := if bool_decide (Space nm = "") then attr_string "xmlns" attrs d else Space nm in
      Elem (mkName d' (Local nm)) (if has_xmlns attrs then attrs else xmlns_attr nm ++ attrs) (map (read_tree d') cs)
  | Text s => Text s
  | Misc => Misc
  end.

Lemma read_children_nodes fuel cs n rest :
  (length (nodes_tokens cs) < fuel)%nat →
  read_children fuel (nodes_tokens cs ++ EndElement n :: rest) = Some (cs, rest).
Proof.
  revert cs n rest. induction fuel as [|fuel IH]; intros cs n rest Hf; [lia|].
  destruct cs as [|c cs]; [done|].
  assert (nodes_tokens (c :: cs) = node_tokens c ++ nodes_tokens cs) as E by done. rewrite E in Hf |- *.
  rewrite length_app in Hf. destruct c as [nm attrs cs1|s|].
  - assert (node_tokens (Elem nm attrs cs1) = StartElement nm attrs :: nodes_tokens cs1 ++ [EndElement nm]) as E1 by done.
    rewrite E1 in Hf |- *. cbn [length] in Hf. rewrite length_app in Hf. cbn [length] in Hf.
    rewrite <- !app_assoc. cbn [app]. rewrite <- app_assoc. cbn [app read_children].
    rewrite IH by lia. by rewrite IH by lia.
  - cbn [node_tokens app read_children length] in *. by rewrite IH by lia.
  - cbn [node_tokens app read_children length] in *. by rewrite IH by lia.
Qed.

Lemma element_content_nodes cs n rest : element_content (nodes_tokens cs ++ EndElement n :: rest) = Some (cs, rest).
Proof. unfold element_content. apply read_children_nodes. rewrite length_app. lia. Qed.

(** The first [iq] element on the stream is the one that is looked at. *)
Lemma await_iq {A} (take : iqStanza → option (res flow_error A)) nm attrs cs rest i r :
  Local nm = "iq" → decode_iqStanza attrs cs = Some i → take i = Some r →
  await take (S (length (node_tokens (Elem nm attrs cs) ++ rest))) (node_tokens (Elem nm attrs cs) ++ rest) = r.
Proof.
  intros Hn Hd Ht. cbn [node_tokens]. unfold element. fold (nodes_tokens cs). cbn [await app skip_to].
  rewrite bool_decide_true by (rewrite Hn; by left). rewrite <- app_assoc. cbn [app].
  by rewrite element_content_nodes, Hd, Ht.
Qed.

(** The fuel of the waiting loop is enough: more of it changes nothing. *)
Lemma skip_to_length names ts n a rest : skip_to names ts = Some (n, a, rest) → (length rest < length ts)%nat.
Proof.
  induction ts as [|t ts IH]; [done|]. cbn. intros Hs. assert (length rest ≤ length ts)%nat; [|lia].
  destruct t; try (apply IH in Hs; lia). case_bool_decide; [by injection Hs as <- <- <-|apply IH in Hs; lia].
Qed.

Lemma read_children_length fuel ts cs rest : read_children fuel ts = Some (cs, rest) → (length rest < length ts)%nat.
Proof.
  revert ts cs rest. induction fuel as [|fuel IH]; intros ts cs rest; [done|].
  destruct ts as [|[n a|n|t|] ts]; cbn; [done|..].
  - destruct (read_children fuel ts) as [[cs1 r1]|] eqn:E1; [|done].
    destruct (read_children fuel r1) as [[cs2 r2]|] eqn:E2; [|done]. intros [= <- <-].
    apply IH in E1. apply IH in E2. lia.
  - intros [= <- <-]. lia.
  - destruct (read_children fuel ts) as [[cs1 r1]|] eqn:E1; [|done]. intros [= <- <-]. apply IH in E1. lia.
  - destruct (read_children fuel ts) as [[cs1 r1]|] eqn:E1; [|done]. intros [= <- <-]. apply IH in E1. lia.
Qed.

Lemma await_enough {A} (take : iqStanza → option (res flow_error A)) f g ts :
  (length ts < f)%nat → (length ts < g)%nat → await take f ts = await take g ts.
Proof.
  revert g ts. induction f as [|f IH]; intros g ts Hf Hg; [lia|]. destruct g as [|g]; [lia|]. cbn [await].
  destruct (skip_to _ ts) as [[[n a] rest]|] eqn:Es; [|done]. apply skip_to_length in Es.
  destruct (element_content rest) as [[cs rest1]|] eqn:Ec; [|done]. apply read_children_length in Ec.
  destruct (decode_iqStanza a cs) as [i|]; [|done]. destruct (take i); [done|]. apply IH; lia.
Qed.

(** ** What the server reads from a submitted form *)

Section Submit.
Variable it : iteration.
Hypothesis Hit : iteration_ok it.

Definition request_query (q : registerQuery) : node := read_tree ns_Client (query_elem q).

(** Inserting a list of distinct keys one after the other. *)
Lemma fold_insert_lookup (L : list (string * string)) (m : gmap string string) k :
  NoDup L.*1 →
  fold_left (fun m kv => <[kv.1 := kv.2]> m) L m !! k =
    match (list_to_map L : gmap string string) !! k with Some v => Some v | None => m !! k end.
Proof.
  revert m. induction L as [|[k' v'] L IH]; intros m; [done|]. cbn. intros [Hk Hnd]%NoDup_cons.
  rewrite IH by done. rewrite !lookup_insert. case_decide as He; [subst k'|done].
  rewrite (not_elem_of_list_to_map_1 L k Hk). done.
Qed.

Lemma read_xfield d n v :
  read_tree d (field_elem (xfield n v)) =
    Elem (mkName d "field") (opt_attr "var" n) [Elem (mkName d "value") [] [Text v]].
Proof. unfold field_elem, xfield, opt_attr. cbn [xf_Var xf_Type xf_Label xf_Value]. destruct (bool_decide (n = "")); by vm_compute. Qed.

Lemma decode_xfield d n v :
  decode_Field (opt_attr "var" n) [Elem (mkName d "value") [] [Text v]] = mkField n "" "" [v].
Proof.
  unfold decode_Field, opt_attr. case_bool_decide; subst; cbn; by rewrite str_app_nil_r.
Qed.

(** The answers that go into a data form. *)
Definition answered_pairs (fields : gmap string string) : list (string * string) :=
  List.filter (fun kv => negb (bool_decide (kv.1 = "_isDataForm") || bool_decide (kv.1 = "_formType"))) (visit it fields).

Lemma answered_pairs_lookup fields k :
  k ∉ ["_isDataForm"; "_formType"] →
  NoDup (answered_pairs fields).*1 ∧ (list_to_map (answered_pairs fields) : gmap string string) !! k = fields !! k.
Proof.
  intros Hk. assert (NoDup (answered_pairs fields).*1) as Hnd.
  { assert (NoDup (visit it fields).*1) as Hv by (eapply iter_order_NoDup_fst, Hit). clear -Hv.
    unfold answered_pairs. induction (visit it fields) as [|[x y] l IH]; [constructor|]. cbn in *.
    apply NoDup_cons in Hv as [Hx Hv]. case_match; [|by apply IH]. cbn. constructor; [|by apply IH].
    intros ([x' y'] & -> & Hin)%list_elem_of_fmap. apply Hx, list_elem_of_fmap. exists (x', y'). split; [done|].
    apply list_elem_of_In, filter_In in Hin as [Hin _]. by apply list_elem_of_In. }
  split; [done|]. destruct (fields !! k) as [v|] eqn:E.
  - apply elem_of_list_to_map_1; [done|]. apply list_elem_of_In, filter_In. split.
    + apply list_elem_of_In. by apply (iter_order_lookup fields _ k v (Hit _ fields)).
    + cbn. rewrite !bool_decide_false by set_solver. done.
  - apply not_elem_of_list_to_map_1. intros ([x y] & -> & Hin)%list_elem_of_fmap.
    apply list_elem_of_In, filter_In in Hin as [Hin%list_elem_of_In _].
    apply (iter_order_lookup fields _ x y (Hit _ fields)) in Hin. cbn in E. congruence.
Qed.

Lemma decode_read_fields d (L : list (string * string)) :
  flat_map (fun c => match c with
                     | Elem m a cs' => if bool_decide (Local m = "field") then [decode_Field a cs'] else []
                     | _ => []
                     end) (map (read_tree d) (map field_elem (map (fun kv => xfield kv.1 kv.2) L))) =
  map (fun kv => mkField kv.1 "" "" [kv.2]) L.
Proof.
  induction L as [|[n v] L IH]; [done|]. cbn [map flat_map]. rewrite IH, read_xfield.
  cbn [Local]. rewrite bool_decide_true by done. by rewrite decode_xfield.
Qed.

Lemma fold_fields (L : list (string * string)) (m : gmap string string) :
  fold_left (fun m f => match f_Values f with v :: _ => <[f_Var f := v]> m | [] => m end)
    (map (fun kv => mkField kv.1 "" "" [kv.2]) L) m = fold_left (fun m kv => <[kv.1 := kv.2]> m) L m.
Proof. revert m. induction L as [|[n v] L IH]; intros m; [done|]. cbn. by rewrite IH. Qed.

(** The query of a data form with the answers [L]. *)
Definition data_query (L : list (string * string)) : registerQuery :=
  mkRegQuery NS "" ∅ false (Some (mkXForm "jabber:x:data" "submit" "" [] (map (fun kv => xfield kv.1 kv.2) L))) [].

Lemma built_data_query server fields formType :
  is_Query (buildRegistrationIQ it server fields true formType) =
    Some (data_query ((if bool_decide (formType ≠ "") then [("FORM_TYPE", formType)] else []) ++ answered_pairs fields)).
Proof. unfold buildRegistrationIQ, data_query. cbn. by case_bool_decide. Qed.

Lemma read_data_query L :
  decode_Query [request_query (data_query L)] =
    Some (mkQuery false "" "" "" "" false
      [Elem (mkName ns_DataForms "x") [attr "xmlns" ns_DataForms; attr "type" "submit"]
         (map (read_tree ns_DataForms) (map field_elem (map (fun kv => xfield kv.1 kv.2) L)))]).
Proof. reflexivity. Qed.

Lemma extract_data_query L Q :
  decode_Query [request_query (data_query L)] = Some Q →
  q_Remove Q = false ∧ extractFields Q = fold_left (fun m kv => <[kv.1 := kv.2]> m) L ∅.
Proof.
  rewrite read_data_query. intros [= <-]. split; [done|]. unfold extractFields. cbn [q_Email q_Password q_Username q_Form].
  unfold decode_Form. cbn [first_element]. rewrite bool_decide_true by done.
  rewrite decode_read_fields. by rewrite fold_fields.
Qed.

(** Every answer of a submitted data form reaches the server under its name. *)
Lemma submitted_data_form server fields formType k q :
  is_Query (buildRegistrationIQ it server fields true formType) = Some q → k ∉ ["FORM_TYPE"; "_isDataForm"; "_formType"] →
  ∃ Q, decode_Query [request_query q] = Some Q ∧ q_Remove Q = false ∧ extractFields Q !! k = fields !! k.
Proof.
  rewrite built_data_query. intros [= <-] Hk. set (L := _ ++ _).
  pose proof (read_data_query L) as HQ. eexists. split; [exact HQ|].
  destruct (extract_data_query L _ HQ) as [Hr ->]. split; [done|]. unfold L.
  destruct (answered_pairs_lookup fields k) as [Hnd Hl]; [set_solver|].
  rewrite fold_left_app, fold_insert_lookup by done. rewrite Hl.
  destruct (fields !! k); [done|]. case_bool_decide; [|done]. cbn.
  rewrite lookup_insert_ne by set_solver. apply lookup_empty.
Qed.

(** *** Plain fields *)

Definition legacy_nodes (m : gmap string string) (names : list string) : list node :=
  omap (fun name => v ← m !! name; Some (Elem (mkName "" name) [] [Text v])) names.

Lemma legacy_child d m names name acc :
  NoDup names →
  child_string name (map (read_tree d) (legacy_nodes m names)) acc =
    if bool_decide (name ∈ names) then default acc (m !! name) else acc.
Proof.
  unfold child_string. revert acc. induction names as [|n names IH]; intros acc; [done|]. intros [Hn Hnd]%NoDup_cons.
  unfold legacy_nodes. cbn. destruct (m !! n) as [v|] eqn:E; cbn; rewrite ?str_app_nil_r; fold (legacy_nodes m names).
  - rewrite (IH _ Hnd). destruct (decide (n = name)) as [->|Hne].
    + rewrite (bool_decide_true (name = name)), (bool_decide_false (name ∈ names)) by done.
      rewrite bool_decide_true by (by left). by rewrite E.
    + rewrite (bool_decide_false (n = name)) by done.
      by rewrite (bool_decide_ext (name ∈ n :: names) (name ∈ names)) by set_solver.
  - rewrite (IH _ Hnd). destruct (decide (n = name)) as [->|Hne].
    + rewrite bool_decide_false by done. rewrite bool_decide_true by (by left). by rewrite E.
    + by rewrite (bool_decide_ext (name ∈ names) (name ∈ n :: names)) by set_solver.
Qed.

Lemma legacy_has_child d m names name :
  name ∉ names → has_child name (map (read_tree d) (legacy_nodes m names)) = false.
Proof.
  induction names as [|n names IH]; [done|]. intros [Hne Hn]%not_elem_of_cons. unfold legacy_nodes. cbn.
  destruct (m !! n); cbn; [|by apply IH]. rewrite bool_decide_false by done. by apply IH.
Qed.

Lemma legacy_no_form m names : decode_Form (map (read_tree NS) (legacy_nodes m names)) = None.
Proof.
  induction names as [|n names IH]; [done|]. unfold legacy_nodes. cbn.
  destruct (m !! n); cbn; [|by apply IH]. unfold decode_Form. cbn. by rewrite bool_decide_false by (intros [=]).
Qed.

(** The values of a plain request. *)
Definition plain_value (fields : gmap string string) (name : string) : option string :=
  match fields !! name with
  | Some v => if bool_decide (name = "username") || bool_decide (name = "password") || bool_decide (v ≠ "")
              then Some v else None
  | None => None
  end.

Lemma plain_values_lookup (f : string → option string) names name :
  NoDup names →
  (list_to_map (omap (fun n => v ← f n; Some (n, v)) names) : gmap string string) !! name =
    if bool_decide (name ∈ names) then f name else None.
Proof.
  induction names as [|n names IH]; [done|]. intros [Hn Hnd]%NoDup_cons. cbn.
  destruct (f n) as [v|] eqn:E; cbn; rewrite ?lookup_insert, (IH Hnd).
  - destruct (decide (n = name)) as [->|Hne]; [by rewrite bool_decide_true by (by left)|].
    by rewrite (bool_decide_ext (name ∈ names) (name ∈ n :: names)) by set_solver.
  - destruct (decide (n = name)) as [->|Hne].
    + rewrite bool_decide_false by done. by rewrite bool_decide_true by (by left).
    + by rewrite (bool_decide_ext (name ∈ names) (name ∈ n :: names)) by set_solver.
Qed.

Definition plain_query (m : gmap string string) : registerQuery := mkRegQuery NS "" m false None [].

Lemma built_plain_query server fields formType :
  ∃ m, is_Query (buildRegistrationIQ it server fields false formType) = Some (plain_query m) ∧
    ∀ k, m !! k = if bool_decide (k ∈ legacy_fields) then plain_value fields k else None.
Proof.
  eexists. split; [unfold buildRegistrationIQ; cbn [is_Query]; reflexivity|].
  intros k. rewrite <- (plain_values_lookup (plain_value fields) legacy_fields k)
    by (apply (bool_decide_unpack _); by vm_compute).
  f_equal. f_equal. apply list_omap_ext, Forall2_same_length_lookup. split; [done|].
  intros i x y Hx Hy. rewrite Hx in Hy. injection Hy as <-. unfold plain_value.
  destruct (fields !! x); cbn; [|done]. by case_match.
Qed.

Lemma read_plain_query m :
  decode_Query [request_query (plain_query m)] =
    Some (let cs := map (read_tree NS) (legacy_nodes m legacy_fields) in
          mkQuery false (default "" (m !! "username")) (default "" (m !! "password")) (default "" (m !! "email")) ""
            false cs).
Proof.
  assert (request_query (plain_query m) =
    Elem (mkName NS "query") [attr "xmlns" NS] (map (read_tree NS) (legacy_nodes m legacy_fields))) as ->.
  { unfold request_query, query_elem, plain_query. cbn [rq_XMLNS rq_Instructions rq_Values rq_XData text_nodes].
    unfold text_nodes. rewrite bool_decide_true by done. cbn [app]. rewrite app_nil_r. reflexivity. }
  unfold decode_Query. cbn [first_element]. rewrite bool_decide_true by done.
  rewrite !legacy_has_child by (apply (bool_decide_unpack _); by vm_compute).
  rewrite !legacy_child by (apply (bool_decide_unpack _); by vm_compute). reflexivity.
Qed.

(** The three plain fields the server knows reach it. *)
Lemma submitted_plain server fields formType k q :
  is_Query (buildRegistrationIQ it server fields false formType) = Some q → k ∈ ["username"; "password"; "email"] →
  ∃ Q, decode_Query [request_query q] = Some Q ∧ q_Remove Q = false ∧
    XmppdRegistration.field (extractFields Q) k = default "" (fields !! k).
Proof.
  destruct (built_plain_query server fields formType) as (m & -> & Hm). intros [= <-] Hk.
  eexists. split; [apply read_plain_query|]. split; [done|].
  unfold extractFields. cbn [q_Email q_Password q_Username q_Form]. rewrite legacy_no_form.
  rewrite !Hm, !bool_decide_true by (apply (bool_decide_unpack _); by vm_compute).
  assert (∀ n, default "" (plain_value fields n) = default "" (fields !! n)) as Hp.
  { intros n. unfold plain_value. destruct (fields !! n) as [v|]; [|done].
    destruct (bool_decide (n = "username") || bool_decide (n = "password")); [done|]. cbn. by case_bool_decide as Hv; [|destruct v]. }
  rewrite !Hp. unfold XmppdRegistration.field, set_nonempty.
  repeat (apply elem_of_cons in Hk as [->|Hk]); [..|by apply elem_of_nil in Hk];
    repeat case_bool_decide; rewrite ?lookup_insert_eq, ?lookup_insert_ne by done; try done;
    try (rewrite lookup_empty; cbn); try (by destruct (fields !! _)).
  all: by symmetry; apply dec_stable.
Qed.
End Submit.

(** ** A successful registration, end to end *)

Lemma attr_string_skip name k v attrs acc : k ≠ name → attr_string name (attr k v :: attrs) acc = attr_string name attrs acc.
Proof. intros Hk. unfold attr_string. cbn. by rewrite bool_decide_false. Qed.

Lemma payload_no_xmlns h : has_xmlns (IQPayload_attrs h) = false.
Proof.
  unfold IQPayload_attrs, opt_attr. destruct (Jid.IsZero (h_To h)), (Jid.IsZero (h_From h)); repeat case_bool_decide; done.
Qed.

(** The answer to a registration that created an account. *)
Definition reply_node (iq : IQ) (q : Query) : node :=
  Elem (mkName ns_Client "iq") (IQPayload_attrs (iq_Header (ResultIQ iq))) [query_node q].
Definition registered_node (iq : IQ) : node :=
  reply_node iq (XmppdRegistration.mkQuery true "" "" "" "" false []).

Lemma payload_reply iq q : payload_tokens (ResultIQ iq) (node_tokens (query_node q)) = node_tokens (reply_node iq q).
Proof. unfold reply_node, payload_tokens. cbn [node_tokens map concat]. by rewrite app_nil_r. Qed.

Lemma opt_fold_inv {A} (P : A → Prop) (f : A → Name → list Attr → list node → option A) cs a a' :
  (∀ x n at' cs' x', P x → f x n at' cs' = Some x' → P x') → P a → opt_fold f cs a = Some a' → P a'.
Proof.
  intros Hf. revert a. induction cs as [|[n at' cs'|s|] cs IH]; intros a Ha; cbn; [by intros [= <-]|..]; [|by apply IH..].
  destruct (f a n at' cs') as [x|] eqn:E; [|done]. apply IH. by eapply Hf.
Qed.

Lemma decode_iqStanza_type attrs cs i : decode_iqStanza attrs cs = Some i → is_Type i = attr_string "type" attrs "".
Proof.
  apply (opt_fold_inv (λ i, is_Type i = attr_string "type" attrs "")); [|done].
  intros x n at' cs' x' Hx. unfold iqStanza_child. repeat case_match; intros [= <-]; done.
Qed.

Lemma registered_decodes attrs :
  is_Some (decode_iqStanza attrs [read_tree ns_Client (query_node (XmppdRegistration.mkQuery true "" "" "" "" false []))]).
Proof. eexists. vm_compute. reflexivity. Qed.

Lemma registered_result iq rest server u :
  readRegistrationResult (node_tokens (read_tree ns_Client (registered_node iq)) ++ rest) server u =
    Ok (mkResult true (u +:+ "@" +:+ server) "").
Proof.
  unfold readRegistrationResult, registered_node, reply_node. cbn [read_tree]. rewrite payload_no_xmlns.
  edestruct registered_decodes as [i Hd].
  eapply await_iq; [done|exact Hd|]. unfold take_result. rewrite (decode_iqStanza_type _ _ _ Hd). clear Hd.
  unfold xmlns_attr. cbn [Space]. rewrite (bool_decide_false (ns_Client = "")) by done. cbn [app].
  rewrite attr_string_skip by done.
  rewrite (proj2 (attr_string_payload _)). cbn [ResultIQ iq_Header h_Type].
  rewrite bool_decide_false by done. by rewrite bool_decide_true.
Qed.

(** The request as the server decodes it. *)
Lemma request_header server j :
  unmarshal_jid server JID_zero = Ok j →
  decode_header [attr "type" "set"; attr "id" "reg2"; attr "to" server] = Ok (mkHeader no_name "reg2" JID_zero j "set" "").
Proof.
  intros Hj. unfold decode_header. cbn [res_fold].
  assert (decode_attr (mkHeader no_name "reg2" JID_zero JID_zero "set" "") (attr "to" server) =
          Ok (mkHeader no_name "reg2" JID_zero j "set" "")) as Ht.
  { unfold decode_attr. cbn [attrValue attrName attr Local].
    rewrite (bool_decide_false ("to" = "id")), (bool_decide_false ("to" = "from")), (bool_decide_true ("to" = "to")) by done.
    cbn [h_To]. by rewrite Hj. }
  change (res_bind (decode_attr (mkHeader no_name "reg2" JID_zero JID_zero "set" "") (attr "to" server)) Ok =
          Ok (mkHeader no_name "reg2" JID_zero j "set" "")). by rewrite Ht.
Qed.

Lemma iq_elem_read server q :
  server ≠ "" →
  read_tree ns_Client (iq_elem (mkIqStanza "set" "reg2" server "" (Some q) None)) =
    Elem (mkName ns_Client "iq") [attr "type" "set"; attr "id" "reg2"; attr "to" server] [request_query q].
Proof.
  intros Hs. unfold iq_elem, opt_attr. cbn [is_Type is_ID is_To is_From is_Query].
  rewrite (bool_decide_false _ Hs), (bool_decide_true ("" = "")) by done. done.
Qed.

Lemma request_query_no_error q : decode_errors [request_query q] = None.
Proof. done. Qed.

Lemma request_decoded it server fields b formType j :
  server ≠ "" → unmarshal_jid server JID_zero = Ok j →
  ∃ q, is_Query (buildRegistrationIQ it server fields b formType) = Some q ∧
    decode_stanza (read_tree ns_Client (iq_elem (buildRegistrationIQ it server fields b formType))) =
      Some (Ok (SIQ (mkIQ (mkHeader no_name "reg2" JID_zero j "set" "") [request_query q] None))).
Proof.
  intros Hs Hj. unfold buildRegistrationIQ.
  match goal with |- context [mkIqStanza _ _ _ _ (Some ?q)] => generalize q; intros Q end.
  exists Q. split; [done|]. rewrite (iq_elem_read _ _ Hs). unfold decode_stanza. cbn [Local].
  rewrite (bool_decide_false ("iq" = "message")), (bool_decide_false ("iq" = "presence")), (bool_decide_true ("iq" = "iq")) by done.
  unfold decode_IQ. rewrite (request_header _ _ Hj), request_query_no_error. done.
Qed.

Section EndToEnd.
Context {T : Type} `{UserStoreLaws T accounts}.
Context (sha256 : Hash) (unicode : string -> string) (cfg : registrationConfig) (env : Env).

Lemma Handle_creates iq Q c t l u p :
  decode_Query (iq_Query iq) = Some Q → iq_Type iq = IQSet → is_open (c_session c) →
  Allow (e_now env) (e_now' env) (peerKey (c_peer c)) (c_limiter c) = (l, true) →
  Policy cfg ≠ registrationClosed → policy_refusal cfg (extractFields Q) = None → q_Remove Q = false →
  XmppdRegistration.field (extractFields Q) "username" = u → XmppdRegistration.field (extractFields Q) "password" = p →
  u ≠ "" → p ≠ "" → accounts t !! u = None → e_rnd env ≠ None →
  ∃ t', Handle sha256 unicode cfg env iq (c, Some t) =
          ((set_session (wrote (node_tokens (registered_node iq)) (c_session c)) (set_limiter l c), Some t'), Ok tt) ∧
        accounts t' = <[u := p]> (accounts t).
Proof.
  intros HQ Ht Ho Ha Hc Hp Hr Hu Hpw Hun Hpn Hfree Hrnd. unfold Handle.
  rewrite (bool_decide_false (_ ∧ _)) by (rewrite Ht; by intros [_ ?]).
  destruct (iq_Query iq) as [|n frag]; [done|]. rewrite HQ. unfold mbnd, get_conn, update. rewrite Ha. cbn [negb].
  rewrite Ht, (bool_decide_false (IQSet = IQGet)) by done. unfold handleSet.
  rewrite (bool_decide_false _ Hc), Hp, Hr, Hu, Hpw, (bool_decide_false _ Hun), (bool_decide_false _ Hpn). cbn [orb].
  unfold createAccount. rewrite exists_spec, Hfree, (bool_decide_false (is_Some None)) by (by intros [? ?]).
  destruct (e_rnd env) as [rnd|] eqn:Er; [|done]. cbn [hashPasswordSCRAMSHA256]. unfold mbnd, store_call.
  match goal with |- context [us_CreateUser ?n ?usr t] => destruct (create_new n usr t Hfree) as (t' & E & Hacc) end.
  rewrite E. exists t'. split; [|done]. unfold registered_reply, reply_query, on_session. cbn [set_limiter c_session].
  by rewrite (SendElement_ok _ _ _ Ho (emits_IQPayload _ _ _ (emits_Query _))).
Qed.

(** C8: a registration carried out by the library's client against the server
    succeeds.  For every account backend that keeps the [UserStore] laws, on an
    open server whose rate limiter lets the request pass, with a free username
    and any non-empty password, as a data form or as plain fields and whatever
    other answers are given: the server decodes the client's request, creates
    exactly the account with that name and password, and the client reads the
    server's answer as success with the JID of the account. *)
Theorem client_registers it server j fields b formType c t l u p :
  iteration_ok it → server ≠ "" → unmarshal_jid server JID_zero = Ok j → Policy cfg = registrationOpen →
  fields !! "username" = Some u → fields !! "password" = Some p → u ≠ "" → p ≠ "" →
  accounts t !! u = None → e_rnd env ≠ None → is_open (c_session c) →
  Allow (e_now env) (e_now' env) (peerKey (c_peer c)) (c_limiter c) = (l, true) →
  ∃ iq t',
    decode_stanza (read_tree ns_Client (iq_elem (buildRegistrationIQ it server fields b formType))) = Some (Ok (SIQ iq)) ∧
    Handle sha256 unicode cfg env iq (c, Some t) =
      ((set_session (wrote (node_tokens (registered_node iq)) (c_session c)) (set_limiter l c), Some t'), Ok tt) ∧
    accounts t' = <[u := p]> (accounts t) ∧
    ∀ rest, readRegistrationResult (node_tokens (read_tree ns_Client (registered_node iq)) ++ rest) server u =
            Ok (mkResult true (u +:+ "@" +:+ server) "").
Proof.
  intros Hit Hs Hj Hpol Hu Hp Hun Hpn Hfree Hrnd Ho Ha.
  destruct (request_decoded it server fields b formType j Hs Hj) as (q & Hq & Hd).
  assert (∃ Q, decode_Query [request_query q] = Some Q ∧ q_Remove Q = false ∧
    XmppdRegistration.field (extractFields Q) "username" = u ∧
    XmppdRegistration.field (extractFields Q) "password" = p) as (Q & HQ & Hr & HU & HP).
  { destruct b.
    - destruct (submitted_data_form it Hit server fields formType "username" q Hq) as (Q & HQ & Hr & HU); [apply (bool_decide_unpack _); by vm_compute|].
      destruct (submitted_data_form it Hit server fields formType "password" q Hq) as (Q' & HQ' & _ & HP); [apply (bool_decide_unpack _); by vm_compute|].
      exists Q. rewrite HQ in HQ'. injection HQ' as <-. unfold XmppdRegistration.field. by rewrite HU, HP, Hu, Hp.
    - destruct (submitted_plain it Hit server fields formType "username" q Hq) as (Q & HQ & Hr & HU); [apply (bool_decide_unpack _); by vm_compute|].
      destruct (submitted_plain it Hit server fields formType "password" q Hq) as (Q' & HQ' & _ & HP); [apply (bool_decide_unpack _); by vm_compute|].
      exists Q. rewrite HQ in HQ'. injection HQ' as <-. by rewrite HU, HP, Hu, Hp. }
  edestruct (Handle_creates (mkIQ (mkHeader no_name "reg2" JID_zero j "set" "") [request_query q] None) Q c t l u p)
    as (t' & Hh & Hacc); eauto.
  - by rewrite Hpol.
  - unfold policy_refusal. rewrite Hpol. by rewrite !(bool_decide_false (registrationOpen = _)) by done.
  - eexists _, t'. split; [exact Hd|]. split; [exact Hh|]. split; [done|]. intros rest. apply registered_result.
Qed.
End EndToEnd.

(** ** Error replies *)

Lemma header_no_xmlns h : has_xmlns (header_attrs h) = false.
Proof.
  unfold header_attrs, opt_attr, jid_attr, MarshalXMLAttr.
  destruct (Jid.IsZero (h_To h)), (Jid.IsZero (h_From h)); cbn; repeat case_bool_decide; done.
Qed.

Lemma error_reply_decodes attrs d e :
  ∃ i ty co, decode_iqStanza attrs [read_tree d (error_node e)] = Some i ∧
    is_Type i = attr_string "type" attrs "" ∧ is_Error i = Some (mkFlowError ty co (e_Text e)).
Proof.
  unfold error_node. eexists. do 2 eexists. split; [reflexivity|]. split; [done|]. cbn [is_Error default].
  unfold decode_flowError. f_equal. f_equal. destruct (decide (e_Text e = "")) as [Ht|Ht].
  - by rewrite (bool_decide_false (e_Text e ≠ "")), Ht by auto.
  - rewrite (bool_decide_true (e_Text e ≠ "")) by done. cbn. by rewrite str_app_nil_r.
Qed.

(** What the client reports for a refused registration depends only on the
    human-readable text of the error: the struct field that should receive the
    defined condition receives the character data of the error's last child,
    which is empty for a condition element.  A [conflict] without text is
    reported as "registration failed", and a text that merely contains the word
    [conflict] as "username is already taken". *)
Theorem error_condition_ignored iq e rest server u :
  readRegistrationResult (node_tokens (read_tree ns_Client (stanza_node (SIQ (ErrorIQ iq e)))) ++ rest) server u =
    Ok (mkResult false "" (parseErrorCondition (mkFlowError "" "" (e_Text e)))).
Proof.
  unfold readRegistrationResult, stanza_node. cbn [read_tree GetHeader StanzaType]. rewrite header_no_xmlns.
  match goal with |- context [Elem _ ?a (map (read_tree ?d) _)] => destruct (error_reply_decodes a d e) as (i & ty & co & Hd & Ht & He) end.
  eapply await_iq; [done|exact Hd|]. unfold take_result. rewrite Ht. unfold xmlns_attr. cbn [Space].
  rewrite (bool_decide_true ("" = "")) by done. cbn [app]. rewrite (proj2 (attr_string_header _)).
  cbn [ErrorIQ iq_Header h_Type]. rewrite bool_decide_true by done. by rewrite He.
Qed.

(** ** Encryption of what is submitted *)

Section Tls.
Variables (it : iteration) (net : Net).

Definition elements_out (l : Link) : list (bool * node) :=
  omap (fun bw => match bw.2 with WElem n => Some (bw.1, n) | WText _ => None end) (l_out l).

(** The peer's first stream features offer STARTTLS. *)
Definition offers_starttls (ts : list Token) : bool :=
  match (readStreamFeatures (mkLink ts [] false 0)).2 with Ok b => b | _ => false end.

Lemma readStreamFeatures_link l :
  l_out (readStreamFeatures l).1 = l_out l ∧ l_tls (readStreamFeatures l).1 = l_tls l ∧
  ∀ b, (readStreamFeatures l).2 = Ok b → offers_starttls (l_in l) = b.
Proof.
  unfold offers_starttls, readStreamFeatures. cbn [l_in].
  destruct (skip_to _ (l_in l)) as [[[? ?] rest]|]; [|done].
  destruct (skip_to _ rest) as [[[? ?] rest1]|]; [|done]. destruct (element_content rest1) as [[? ?]|]; [|done].
  cbn. split_and!; [done..|]. by intros b [= <-].
Qed.

Definition out_text (l : Link) : Prop := elements_out l = [].

Lemma write_text s l l' r : write (WText s) l = (l', r) → out_text l → out_text l' ∧ l_tls l' = l_tls l ∧ l_in l' = l_in l.
Proof.
  unfold write, out_text, elements_out. destruct (l_room l); intros [= <- <-]; [done|]. cbn. rewrite omap_app. by intros ->.
Qed.

Lemma upgrade_link l l' r :
  upgradeToTLS net l = (l', r) → out_text l →
  out_text l' ∧ (r = Ok tt → l_tls l' = true ∧ handshake net = true).
Proof.
  unfold upgradeToTLS, mbnd. destruct (write _ l) as [l1 r1] eqn:Ew. intros H Ho.
  destruct (write_text _ _ _ _ Ew Ho) as (Ho1 & Ht1 & _). destruct r1 as [?|?|]; [|by injection H as <- <-..].
  destruct (skip_to _ (l_in l1)) as [[[n ?] ?]|]; [|by injection H as <- <-].
  case_bool_decide; [by injection H as <- <-|]. destruct (handshake net); injection H as <- <-; done.
Qed.

Lemma open_stream_link server l l' r :
  open_stream net server l = (l', r) → out_text l → l_tls l = false →
  out_text l' ∧ (r = Ok tt → l_tls l' = offers_starttls (l_in l) ∧ (l_tls l' = true → handshake net = true)).
Proof.
  unfold open_stream, mbnd. destruct (write _ l) as [l1 r1] eqn:Ew. intros H Ho Htls.
  destruct (write_text _ _ _ _ Ew Ho) as (Ho1 & Ht1 & Hi1). destruct r1 as [?|?|]; [|by injection H as <- <-..].
  pose proof (readStreamFeatures_link l1) as (Hf1 & Hf2 & Hf3). destruct (readStreamFeatures l1) as [l2 r2].
  cbn [fst snd] in *. assert (out_text l2) as Ho2 by (unfold out_text, elements_out in *; by rewrite Hf1).
  destruct r2 as [b|?|]; [|by injection H as <- <-..]. rewrite <- Hi1, (Hf3 b eq_refl). destruct b.
  - destruct (upgradeToTLS net l2) as [l3 r3] eqn:Eu. destruct (upgrade_link _ _ _ Eu Ho2) as [Ho3 Hr3].
    destruct r3 as [[]|?|]; [|by injection H as <- <-..]. destruct (Hr3 eq_refl) as [Ht3 Hh].
    destruct (write _ l3) as [l4 r4] eqn:Ew4. destruct (write_text _ _ _ _ Ew4 Ho3) as (Ho4 & Ht4 & _).
    destruct r4 as [?|?|]; [|by injection H as <- <-..].
    pose proof (readStreamFeatures_link l4) as (Hg1 & Hg2 & _). destruct (readStreamFeatures l4) as [l5 r5].
    cbn [fst snd] in *. assert (out_text l5) as Ho5 by (unfold out_text, elements_out in *; by rewrite Hg1).
    destruct r5 as [?|?|]; unfold mok in H; injection H as <- <-; (split; [done|]); [|done..]. intros _. by rewrite Hg2, Ht4, Ht3.
  - unfold mok in H. injection H as <- <-. split; [done|]. intros _. rewrite Hf2, Ht1, Htls. done.
Qed.

(** Where the answers of a registration go: [SubmitRegistration] writes the
    request once or not at all, and it reports a result only when it was
    written.  The request goes through TLS exactly when the peer's first stream
    features offer STARTTLS, after a successful handshake; a peer (or an
    attacker in between) whose features do not offer it receives the password
    in clear. *)
Theorem credentials_encryption server port fields b formType ts l r :
  dial net (address server (if (port =? 0)%Z then 5222%Z else port)) = Some ts →
  SubmitRegistration it net server port fields b formType = (l, r) →
  (elements_out l = [] ∧ ∀ x, r ≠ Ok x) ∨
  (elements_out l = [(offers_starttls ts, iq_elem (buildRegistrationIQ it server fields b formType))] ∧
   (offers_starttls ts = true → handshake net = true)).
Proof.
  intros Hd. unfold SubmitRegistration, with_conn. rewrite Hd. generalize (buildRegistrationIQ it server fields b formType).
  intros i. unfold mbnd, mget, mlift, mok.
  destruct (open_stream net server _) as [l1 r1] eqn:Eo. edestruct open_stream_link as [Ho1 Hr1]; [exact Eo|done..|].
  cbn [l_in] in Hr1. destruct r1 as [[]|?|]; [|intros [= <- <-]; left; by split..]. destruct (Hr1 eq_refl) as [<- Hh].
  unfold write at 1. destruct (l_room l1) as [|k]; [intros [= <- <-]; left; by split|].
  set (l2 := mkLink _ _ _ _).
  assert (elements_out l2 = [(l_tls l1, iq_elem i)]) as E2.
  { unfold l2, elements_out. cbn [l_out]. rewrite omap_app. unfold out_text, elements_out in Ho1. by rewrite Ho1. }
  clearbody l2. destruct (readRegistrationResult _ _ _); [|intros [= <- <-]; right; by split..].
  unfold close_stream, write. destruct (l_room l2); intros [= <- <-]; right; (split; [|done]); [done|].
  unfold elements_out in E2 |- *. cbn [l_out]. by rewrite omap_app, E2.
Qed.
End Tls.

(** ** The form the client shows *)

Section Form.
Variables (lower upper : string -> string) (it : iteration).
Notation parseDataForm := (parseDataForm lower upper it).

(** What is shown of a data form: neither the form type nor fixed texts. *)
Definition shown (f : xDataField) : bool := negb (bool_decide (xf_Var f = "FORM_TYPE") || bool_decide (xf_Type f = "fixed")).
(** A field that asks for a CAPTCHA. *)
Definition asks_captcha (f : xDataField) : bool :=
  negb (bool_decide (xf_Var f = "FORM_TYPE")) && (isCaptchaField lower f || is_media f).
Definition form_type (acc : string) (f : xDataField) : string :=
  if bool_decide (xf_Var f = "FORM_TYPE") then match xf_Value f with v :: _ => v | [] => acc end else acc.

Lemma form_field_step bobs form f form' :
  form_field lower upper it bobs form f = form' →
  rg_Fields form' = rg_Fields form ++ (if shown f then [reg_field upper f] else []) ∧
  rg_FormType form' = form_type (rg_FormType form) f ∧
  rg_RequiresCaptcha form' = rg_RequiresCaptcha form || asks_captcha f ∧
  (bool_decide (is_Some (rg_Captcha form)) = rg_RequiresCaptcha form →
   bool_decide (is_Some (rg_Captcha form')) = rg_RequiresCaptcha form') ∧
  rg_Instructions form' = rg_Instructions form ∧ rg_IsDataForm form' = rg_IsDataForm form.
Proof.
  intros <-. unfold form_field, shown, form_type, asks_captcha.
  destruct (decide (xf_Var f = "FORM_TYPE")) as [Hv|Hv].
  - rewrite (bool_decide_true _ Hv). cbn. rewrite app_nil_r, orb_false_r. by destruct (xf_Value f).
  - rewrite (bool_decide_false _ Hv). cbn. destruct (isCaptchaField lower f || is_media f);
      case_bool_decide; cbn; rewrite ?app_nil_r, ?orb_false_r, ?orb_true_r; done.
Qed.

Lemma form_fields_spec bobs fs form :
  let form' := fold_left (form_field lower upper it bobs) fs form in
  rg_Fields form' = rg_Fields form ++ map (reg_field upper) (List.filter shown fs) ∧
  rg_FormType form' = fold_left form_type fs (rg_FormType form) ∧
  rg_RequiresCaptcha form' = rg_RequiresCaptcha form || existsb asks_captcha fs ∧
  (bool_decide (is_Some (rg_Captcha form)) = rg_RequiresCaptcha form →
   bool_decide (is_Some (rg_Captcha form')) = rg_RequiresCaptcha form') ∧
  rg_Instructions form' = rg_Instructions form ∧ rg_IsDataForm form' = rg_IsDataForm form.
Proof.
  revert form. induction fs as [|f fs IH]; intros form; cbn; [by rewrite app_nil_r, orb_false_r|].
  destruct (form_field_step bobs form f _ eq_refl) as (Hf & Ht & Hc & Hs & Hi & Hd).
  destruct (IH (form_field lower upper it bobs form f)) as (IHf & IHt & IHc & IHs & IHi & IHd).
  rewrite IHf, IHt, IHc, IHi, IHd, Hf, Ht, Hc, Hi, Hd.
  split_and!; [|done|by rewrite orb_assoc|rewrite <- Hc, <- IHc; by auto|done..].
  rewrite <- app_assoc. f_equal. by destruct (shown f).
Qed.

(** Which form a data form becomes: its fields in order without the form type
    and fixed texts, its last form type, and CAPTCHA data exactly when it is
    marked as requiring one, that is when the instructions have a link or some
    field asks for it. *)
Lemma parseDataForm_spec x server port fallback bobs :
  let form := parseDataForm x server port fallback bobs in
  rg_Fields form = map (reg_field upper) (List.filter shown (xd_Fields x)) ∧
  rg_FormType form = fold_left form_type (xd_Fields x) "" ∧
  rg_RequiresCaptcha form =
    bool_decide (is_Some (captcha_of_instructions (rg_Instructions form))) || existsb asks_captcha (xd_Fields x) ∧
  bool_decide (is_Some (rg_Captcha form)) = rg_RequiresCaptcha form ∧ rg_IsDataForm form = true.
Proof.
  unfold RegisterFlow.parseDataForm.
  match goal with |- context [captcha_of_instructions ?i] => generalize i; intros ins end.
  match goal with |- context [fold_left _ _ ?f0] => destruct (form_fields_spec bobs (xd_Fields x) f0) as (Hf & Ht & Hc & Hs & Hi & Hd) end.
  cbn zeta. rewrite Hf, Ht, Hi, Hd. cbn [rg_Fields rg_FormType rg_RequiresCaptcha rg_Captcha rg_Instructions rg_IsDataForm] in *.
  split_and!; [done..| | |done].
  - rewrite Hc. f_equal. by destruct (captcha_of_instructions ins).
  - apply Hs. by destruct (captcha_of_instructions ins).
Qed.

(** *** The server's form *)

Definition client_field (f : Field) : xDataField := mkXField (f_Var f) (f_Type f) (f_Label f) false (f_Values f) None.

Lemma decode_field_values d vs f :
  opt_fold xField_child (map (read_tree d) (map (fun v => Elem (mkName "" "value") [] [Text v]) vs)) f =
  Some (mkXField (xf_Var f) (xf_Type f) (xf_Label f) (xf_Required f) (xf_Value f ++ vs) (xf_Media f)).
Proof.
  revert f. induction vs as [|v vs IH]; intros f; [cbn; by rewrite app_nil_r; destruct f|].
  cbn [map read_tree opt_fold Local Space]. unfold xField_child at 1. cbn [Local].
  rewrite (bool_decide_false ("value" = "required")), (bool_decide_true ("value" = "value")), IH by done.
  cbn. by rewrite str_app_nil_r, <- app_assoc.
Qed.

Lemma field_attrs_read f :
  let a := opt_attr "var" (f_Var f) ++ opt_attr "type" (f_Type f) ++ opt_attr "label" (f_Label f) in
  has_xmlns a = false ∧ attr_string "var" a "" = f_Var f ∧ attr_string "type" a "" = f_Type f ∧
  attr_string "label" a "" = f_Label f.
Proof. unfold opt_attr. destruct f as [v t l vs]. cbn. repeat case_bool_decide; subst; done. Qed.

Definition field_attrs (f : Field) : list Attr :=
  opt_attr "var" (f_Var f) ++ opt_attr "type" (f_Type f) ++ opt_attr "label" (f_Label f).

Lemma read_field_node d f :
  ∃ d' attrs cs, read_tree d (field_node f) = Elem (mkName d' "field") attrs cs ∧ decode_xField attrs cs = Some (client_field f).
Proof.
  unfold field_node. fold (field_attrs f). destruct (field_attrs_read f) as (Hx & Hv & Ht & Hl). fold (field_attrs f) in *.
  cbn [read_tree]. rewrite Hx. do 3 eexists. split; [reflexivity|]. unfold decode_xField. rewrite decode_field_values.
  unfold xmlns_attr. cbn [Space xf_Var xf_Type xf_Label xf_Required xf_Value xf_Media].
  rewrite (bool_decide_true ("" = "")) by done. cbn [app]. unfold client_field. by rewrite Hv, Ht, Hl.
Qed.

Lemma read_form_fields d fs x :
  opt_fold xData_child (map (read_tree d) (map field_node fs)) x =
    Some (mkXForm (xd_XMLNS x) (xd_Type x) (xd_Title x) (xd_Instructions x) (xd_Fields x ++ map client_field fs)).
Proof.
  revert x. induction fs as [|f fs IH]; intros x; [cbn; by rewrite app_nil_r; destruct x|].
  cbn [map]. destruct (read_field_node d f) as (d' & attrs & cs & -> & Hd). cbn [opt_fold]. unfold xData_child at 1. cbn [Local].
  rewrite (bool_decide_false ("field" = "title")), (bool_decide_false ("field" = "instructions")),
    (bool_decide_true ("field" = "field")), Hd by done. rewrite IH. cbn. by rewrite <- app_assoc.
Qed.

Lemma read_form_node d title fs :
  title ≠ "" →
  ∃ attrs cs, read_tree d (form_node title fs) = Elem (mkName ns_DataForms "x") attrs cs ∧
    decode_xData (mkXForm "" "" "" [] []) attrs cs = Some (mkXForm ns_DataForms "form" title [] (map client_field fs)).
Proof.
  intros Ht. unfold form_node, text_nodes. rewrite (bool_decide_false (title = "")) by done. do 2 eexists. split; [reflexivity|].
  unfold decode_xData. cbn [map app opt_fold]. unfold xData_child at 1. cbn [Local].
  rewrite (bool_decide_true ("title" = "title")) by done. cbn [read_tree Local Space].
  rewrite read_form_fields. cbn. by rewrite str_app_nil_r.
Qed.

(** The query of the server's form as the client decodes it. *)
Lemma read_form_query d ins title fs :
  title ≠ "" →
  ∃ attrs cs q, read_tree d (query_node (XmppdRegistration.mkQuery false "" "" "" ins false [form_node title fs])) =
    Elem (mkName ns_Register "query") attrs cs ∧
  decode_registerQuery (mkRegQuery "" "" ∅ false None []) attrs cs = Some q ∧
  rq_XData q = Some (mkXForm ns_DataForms "form" title [] (map client_field fs)).
Proof.
  intros Ht. unfold query_node. cbn [q_Registered q_Username q_Password q_Email q_Instructions q_Remove q_Form empty_nodes].
  unfold text_nodes at 1 2 3. rewrite !(bool_decide_true ("" = "")) by done. cbn [app read_tree].
  rewrite (bool_decide_false (Space (mkName ns_Register "query") = "")) by done. cbn [Space Local].
  destruct (read_form_node ns_Register title fs Ht) as (a & cs & Hr & Hd).
  unfold text_nodes. case_bool_decide; cbn [app map read_tree]; rewrite Hr; do 3 eexists; (split; [reflexivity|]);
    unfold decode_registerQuery; cbn [opt_fold]; unfold registerQuery_child; cbn [Local rq_XData default];
    rewrite ?(bool_decide_true ("instructions" = "instructions")), ?(bool_decide_false ("x" = "instructions")),
      ?(bool_decide_false ("x" ∈ legacy_fields)), ?(bool_decide_false ("x" = "registered")), ?(bool_decide_true ("x" = "x")) by
      (try done; apply (bool_decide_unpack _); by vm_compute);
    cbn [rq_XData default]; rewrite Hd; split; reflexivity.
Qed.

(** The fields a server with configuration [cfg] asks for. *)
Definition asked (unicode : string -> string) (cfg : registrationConfig) : list Field :=
  map (fun f => mkField f (fieldType f) (XmppdRegistration.capitalize unicode f) [])
      (List.filter (fun f => bool_decide (f ≠ "")) (rc_Fields cfg))
  ++ (if bool_decide (Policy cfg = registrationInvite) then [mkField "invite" "text-single" "Invite Token" []] else [])
  ++ (if bool_decide (Policy cfg = registrationAdmin) then [mkField "admin_token" "text-private" "Admin Token" []] else []).

(** How the client shows one of them. *)
Definition shown_field (f : Field) : RegistrationField :=
  mkRegField (f_Var f) (label_or upper (f_Label f) (f_Var f)) false
    (bool_decide (f_Type f = "text-private") || passwordFields (f_Var f)) (f_Type f) "".

Lemma asked_not_fixed unicode cfg f : f ∈ asked unicode cfg → f_Type f ≠ "fixed" ∧ f_Values f = [].
Proof.
  unfold asked. rewrite !elem_of_app. intros [Hf|[Hf|Hf]].
  - apply list_elem_of_fmap in Hf as (x & -> & _). cbn. unfold fieldType. by case_bool_decide.
  - case_bool_decide; [|by apply elem_of_nil in Hf]. by apply list_elem_of_singleton in Hf as ->.
  - case_bool_decide; [|by apply elem_of_nil in Hf]. by apply list_elem_of_singleton in Hf as ->.
Qed.

Lemma shown_fields fs :
  (∀ f, f ∈ fs → f_Type f ≠ "fixed" ∧ f_Values f = []) →
  map (reg_field upper) (List.filter shown (map client_field fs)) =
    map shown_field (List.filter (fun f => bool_decide (f_Var f ≠ "FORM_TYPE")) fs).
Proof.
  induction fs as [|f fs IH]; intros Hf; [done|]. destruct (Hf f) as [Ht Hv]; [by left|].
  assert (shown (client_field f) = bool_decide (f_Var f ≠ "FORM_TYPE")) as E.
  { unfold shown. cbn [client_field xf_Var xf_Type]. rewrite (bool_decide_false _ Ht), orb_false_r. by repeat case_bool_decide. }
  cbn [map List.filter]. rewrite E. case_bool_decide; cbn [map]; rewrite IH by (intros g Hg; apply Hf; by right); [|done].
  f_equal. unfold reg_field, shown_field. cbn [client_field xf_Var xf_Type xf_Label xf_Required xf_Value]. by rewrite Hv.
Qed.
End Form.

Section Fetch.
Context {T : Type} `{UserStoreLaws T accounts}.
Context (sha256 : Hash) (unicode lower upper : string -> string) (it : iteration) (cfg : registrationConfig) (env : Env).

(** The form the client shows is the one the server is configured with.
    A server that offers data forms and is not closed answers a registration
    query of an open session with its form and leaves the accounts alone; the
    client reads from that answer a form with the configured fields in order
    (empty names and [FORM_TYPE] apart), a masked input exactly for passwords
    and admin tokens, and the token field of the policy. *)
Theorem server_form_shown iq Q c t l server port rest :
  decode_Query (iq_Query iq) = Some Q → iq_Type iq = IQGet → is_open (c_session c) →
  Allow (e_now env) (e_now' env) (peerKey (c_peer c)) (c_limiter c) = (l, true) →
  Policy cfg ≠ registrationClosed → DataForm cfg = true →
  Handle sha256 unicode cfg env iq (c, Some t) =
    ((set_session (wrote (node_tokens (reply_node iq (buildForm unicode cfg))) (c_session c)) (set_limiter l c), Some t), Ok tt) ∧
  ∃ form,
    readRegistrationForm lower upper it
      (node_tokens (read_tree ns_Client (reply_node iq (buildForm unicode cfg))) ++ rest) server port = Ok form ∧
    rg_IsDataForm form = true ∧
    rg_Fields form = map (shown_field upper)
      (List.filter (fun f => bool_decide (f_Var f ≠ "FORM_TYPE")) (asked unicode cfg)).
Proof.
  intros HQ Ht Ho Ha Hc Hdf. split.
  - unfold Handle. rewrite (bool_decide_false (_ ∧ _)) by (rewrite Ht; by intros [? _]).
    destruct (iq_Query iq) as [|n frag]; [done|]. rewrite HQ. unfold mbnd, get_conn, update. rewrite Ha. cbn [negb].
    rewrite Ht, (bool_decide_true (IQGet = IQGet)) by done. unfold handleGet. rewrite (bool_decide_false _ Hc).
    unfold reply_query, on_session. cbn [set_limiter c_session].
    rewrite (SendElement_ok _ _ _ Ho (emits_IQPayload _ _ _ (emits_Query _))), payload_reply. done.
  - unfold buildForm. rewrite Hdf. fold (asked unicode cfg).
    unfold readRegistrationForm, reply_node. cbn [read_tree map].
    match goal with |- context [read_tree ?d (query_node _)] =>
      destruct (read_form_query d (Instructions cfg) "Account Registration" (asked unicode cfg)) as (a & cs & q & Hr & Hq & Hx);
        [done|]
    end.
    rewrite payload_no_xmlns, Hr.
    eexists. split; [eapply await_iq; [done| |]|].
    + unfold decode_iqStanza. cbn [opt_fold]. unfold iqStanza_child. cbn [Local is_Query default].
      rewrite (bool_decide_true ("query" = "query")), Hq by done. reflexivity.
    + unfold take_form. cbn [is_Type is_Query]. unfold xmlns_attr. cbn [Space].
      rewrite (bool_decide_false (ns_Client = "")) by done. cbn [app]. rewrite attr_string_skip by done.
      rewrite (proj2 (attr_string_payload _)). reflexivity.
    + unfold parseRegistrationQuery. rewrite Hx. cbn [xd_XMLNS]. rewrite (bool_decide_true (ns_DataForms = _)) by done.
      match goal with |- context [parseDataForm _ _ _ ?x ?s ?p ?f ?b] =>
        destruct (parseDataForm_spec lower upper it x s p f b) as (Hf & _ & _ & _ & Hd) end.
      split; [exact Hd|]. rewrite Hf. cbn [xd_Fields]. apply shown_fields, asked_not_fixed.
Qed.
End Fetch.

Module RegisterExample.
Import RegistrationExample.

Definition it : iteration := mkIteration (λ V m, map_to_list m).
Lemma register_it_ok : iteration_ok it.
Proof. intros V m. unfold iter_order, it, visit. reflexivity. Qed.

Definition open_cfg := mkRegConfig "open" ["username"; "password"] ∅ ∅ 2 60 4096 true "Register.".
Definition answers : gmap string string := {["username" := "alice"; "password" := "secret"]}.

Lemma client_registers_witness :
  ∃ iq t',
    decode_stanza (read_tree ns_Client (iq_elem (buildRegistrationIQ it "example.org" answers true ""))) = Some (Ok (SIQ iq)) ∧
    (Handle sha256 unicode open_cfg env iq (conn, Some MemoryStorage.New)).1.2 = Some t' ∧
    memory_accounts t' = {["alice" := "secret"]} ∧
    readRegistrationResult (node_tokens (read_tree ns_Client (registered_node iq))) "example.org" "alice" =
      Ok (mkResult true "alice@example.org" "").
Proof.
  edestruct (client_registers (accounts := memory_accounts) sha256 unicode open_cfg env it "example.org"
    (mkJID "" "example.org" "") answers true "" conn MemoryStorage.New
    (mkLimiter 60 2 {["192.0.2.1" := [100%Z]]}) "alice" "secret" register_it_ok)
    as (iq & t' & Hd & Hh & Ha & Hr); try done; try reflexivity.
  exists iq, t'. split; [exact Hd|]. split; [by rewrite Hh|]. split; [by rewrite Ha|].
  specialize (Hr []). by rewrite app_nil_r in Hr.
Defined.

Definition form_request : IQ :=
  mkIQ (mkHeader no_name "reg1" JID_zero JID_zero "get" "") [Elem (mkName ns_Register "query") [attr "xmlns" ns_Register] []] None.

Lemma server_form_shown_witness :
  ∃ form, readRegistrationForm unicode unicode it
    (node_tokens (read_tree ns_Client (reply_node form_request (buildForm unicode cfg)))) "example.org" 5222 = Ok form ∧
  map (λ f, (rf_Name f, rf_Label f, rf_Password f)) (rg_Fields form) =
    [("username", "Username", false); ("password", "Password", true); ("invite", "Invite Token", false)].
Proof.
  edestruct (server_form_shown sha256 unicode unicode unicode it cfg env form_request
    (XmppdRegistration.mkQuery false "" "" "" "" false []) conn MemoryStorage.New
    (mkLimiter 60 2 {["192.0.2.1" := [100%Z]]}) "example.org" 5222 []) as [_ (form & Hf & _ & Hs)]; try done; try reflexivity.
  rewrite app_nil_r in Hf. exists form. split; [exact Hf|]. rewrite Hs. reflexivity.
Defined.

(** A server that offers TLS, and the same one behind something that strips the offer. *)
Definition features (offer : bool) : list Token :=
  node_tokens (Elem (mkName "http://etherx.jabber.org/streams" "features") []
    (if offer then [Elem (mkName "urn:ietf:params:xml:ns:xmpp-tls" "starttls") [] []] else [])).
Definition greeting (offer : bool) : list Token :=
  StartElement (mkName "http://etherx.jabber.org/streams" "stream") [] :: features offer.
Definition answered_ok : list Token := node_tokens (Elem (mkName ns_Client "iq") [attr "type" "result"; attr "id" "reg2"] []).
Definition proceed : list Token := node_tokens (Elem (mkName "urn:ietf:params:xml:ns:xmpp-tls" "proceed") [] []).
Definition stripped : Net :=
  mkNet (λ _, Some (greeting false ++ answered_ok)) 10 true (greeting true ++ answered_ok).
Definition secure : Net :=
  mkNet (λ _, Some (greeting true ++ proceed)) 10 true (greeting false ++ answered_ok).

Lemma credentials_encryption_witness :
  elements_out (SubmitRegistration it stripped "example.org" 0 answers true "").1 =
    [(false, iq_elem (buildRegistrationIQ it "example.org" answers true ""))] ∧
  elements_out (SubmitRegistration it secure "example.org" 0 answers true "").1 =
    [(true, iq_elem (buildRegistrationIQ it "example.org" answers true ""))].
Proof.
  split.
  - destruct (credentials_encryption it stripped "example.org" 0 answers true "" _
      (SubmitRegistration it stripped "example.org" 0 answers true "").1
      (SubmitRegistration it stripped "example.org" 0 answers true "").2 eq_refl) as [[_ H]|[H _]];
      [by apply surjective_pairing| |exact H].
    exfalso. refine (H (mkResult true "alice@example.org" "") _). by vm_compute.
  - destruct (credentials_encryption it secure "example.org" 0 answers true "" _
      (SubmitRegistration it secure "example.org" 0 answers true "").1
      (SubmitRegistration it secure "example.org" 0 answers true "").2 eq_refl) as [[_ H]|[H _]];
      [by apply surjective_pairing| |exact H].
    exfalso. refine (H (mkResult true "alice@example.org" "") _). by vm_compute.
Defined.

(** A username that is taken, reported without text and with one. *)
Example conflict_is_not_recognised :
  (λ text, readRegistrationResult
     (node_tokens (read_tree ns_Client (stanza_node (SIQ (ErrorIQ form_request (NewStanzaError "cancel" "conflict" text))))))
     "example.org" "alice") <$> [""; "name taken"] =
  [Ok (mkResult false "" "registration failed"); Ok (mkResult false "" "name taken")].
Proof. by vm_compute. Qed.
End RegisterExample.
