(* ===== verification/XmppdRouter.v ===== *)
(** * The session router of the server (src/cmd/xmppd/stream.go)

    [globalRouter] maps the full addresses of bound sessions to the sessions, by
    full address and, in a second index, by bare address.  Sessions are
    identified by numbers; the mutex makes every operation atomic, and the order
    in which a map is visited is an argument. *)

From Stdlib Require Import Ascii String.
From S2P Require Import Prelude GoStrings Jid MemoryStorage.

Open Scope string_scope.
Open Scope list_scope.

Record sessionRouter := mkRouter {
  byFull : gmap string nat; byBare : gmap string (gmap string nat) }.

Definition newSessionRouter : sessionRouter := mkRouter ∅ ∅.

Definition register (full : JID) (session : nat) (r : sessionRouter) : sessionRouter :=
  let fullStr := JID_String full in
  if bool_decide (fullStr = "") then r
  else
    let bare := JID_String (Bare full) in
    mkRouter (<[fullStr := session]> (byFull r)) (nput bare fullStr session (byBare r)).

Definition unregister (full : JID) (r : sessionRouter) : sessionRouter :=
  let fullStr := JID_String full in
  if bool_decide (fullStr = "") then r
  else
    let bare := JID_String (Bare full) in
    mkRouter (delete fullStr (byFull r))
      (match byBare r !! bare with
       | Some sessions =>
           let sessions := delete fullStr sessions in
           if bool_decide (sessions = ∅) then delete bare (byBare r)
           else <[bare := sessions]> (byBare r)
       | None => byBare r
       end).

Definition targets (it : iteration) (to : JID) (r : sessionRouter) : list nat :=
  if Jid.IsZero to then []
  else if IsFull to then
    match byFull r !! JID_String to with Some s => [s] | None => [] end
  else
    match byBare r !! JID_String (Bare to) with
    | Some sessions => (visit it sessions).*2
    | None => []
    end.

(** ** The contract: a map from addresses to sessions *)

#[global] Instance JID_countable : Countable JID.
Proof.
  apply (inj_countable' (λ j, (j_local j, j_domain j, j_resource j))
           (λ '(l, d, r), mkJID l d r)). by intros [].
Qed.

(** The addresses the server registers: a user of its domain. *)
Definition user_address (d : string) (j : JID) : Prop :=
  j_domain j = d ∧ d ≠ "" ∧ j_local j ≠ "" ∧ has_byte at_sign (j_local j) = false.

(** Operations on the router and what they do to the abstract map. *)
Inductive router_op := ORegister (j : JID) (s : nat) | OUnregister (j : JID).
Definition op_address (o : router_op) : JID :=
  match o with ORegister j _ => j | OUnregister j => j end.
Definition router_step (r : sessionRouter) (o : router_op) : sessionRouter :=
  match o with ORegister j s => register j s r | OUnregister j => unregister j r end.
Definition map_step (a : gmap JID nat) (o : router_op) : gmap JID nat :=
  match o with ORegister j s => <[j := s]> a | OUnregister j => delete j a end.

(** Who should get a stanza sent to [to]. *)
Definition addressed (a : gmap JID nat) (to : JID) (j : JID) : Prop :=
  if IsFull to then JID_String j = JID_String to
  else JID_String (Bare j) = JID_String (Bare to).

Record routes_as (d : string) (r : sessionRouter) (a : gmap JID nat) : Prop := {
  ra_dom : ∀ j s, a !! j = Some s → user_address d j;
  ra_full : ∀ f s, byFull r !! f = Some s ↔ ∃ j, a !! j = Some s ∧ JID_String j = f;
  ra_bare : ∀ b f s, nget (byBare r) b f = Some s ↔
              ∃ j, a !! j = Some s ∧ JID_String j = f ∧ JID_String (Bare j) = b
}.

(** ** Lemmas *)

Lemma user_address_string d j :
  user_address d j →
  JID_String j = j_local j +:+ String at_sign (d +:+ (if bool_decide (j_resource j ≠ "") then "/" +:+ j_resource j else "")).
Proof.
  intros (Hd & Hne & Hl & _). unfold JID_String. rewrite Hd, !bool_decide_false by done.
  rewrite bool_decide_true by done. by rewrite str_app_assoc.
Qed.

Lemma str_app_inj_l a b c : a +:+ b = a +:+ c → b = c.
Proof. induction a as [|x a IH]; simpl; [done|]. intros [= H]. auto. Qed.

Lemma str_split_inj c a b a' b' :
  has_byte c a = false → has_byte c a' = false → a +:+ String c b = a' +:+ String c b' → a = a' ∧ b = b'.
Proof.
  intros Ha Ha' E. pose proof (IndexByte_app a c b Ha) as H1. rewrite E, IndexByte_app in H1 by done.
  injection H1 as H1. assert (a = a') as ->; [|split; [done|]].
  - rewrite <- (str_take_app a (String c b)), <- (str_take_app a' (String c b')), E. congruence.
  - apply str_app_inj_l in E. by injection E.
Qed.

Lemma user_address_inj d j j' :
  user_address d j → user_address d j' → JID_String j = JID_String j' → j = j'.
Proof.
  intros Hj Hj'. rewrite (user_address_string d j Hj), (user_address_string d j' Hj').
  destruct j as [l d1 r], j' as [l' d2 r'], Hj as (<- & _ & _ & Hl), Hj' as (Hd & _ & _ & Hl').
  simpl in *. subst d2. intros E. apply str_split_inj in E as [-> E]; [|done..].
  apply str_app_inj_l in E. f_equal. repeat case_bool_decide; try done.
  - by injection E.
  - destruct (decide (r = "")), (decide (r' = "")); naive_solver.
Qed.

Lemma user_address_nonempty d j : user_address d j → JID_String j ≠ "".
Proof. intros Hj. rewrite (user_address_string d j Hj). destruct Hj as (_ & _ & Hl & _). by destruct (j_local j). Qed.

Lemma nget_delete_empty (m : gmap string (gmap string nat)) a k a' b' :
  nget (match m !! a with
        | Some mi => if bool_decide (delete k mi = ∅) then delete a m else <[a := delete k mi]> m
        | None => m
        end) a' b' = nget (ndel a k m) a' b'.
Proof.
  unfold ndel. destruct (m !! a) as [mi|] eqn:E; [|done]. case_bool_decide as He; [|done].
  rewrite nget_delete, nget_insert. case_decide; [|done]. by rewrite He, lookup_empty.
Qed.

Lemma router_step_routes d r a o :
  routes_as d r a → user_address d (op_address o) → routes_as d (router_step r o) (map_step a o).
Proof.
  intros [Hd Hf Hb] Ho. pose proof (user_address_nonempty d _ Ho) as Hne.
  assert (∀ j s, a !! j = Some s → JID_String j = JID_String (op_address o) → j = op_address o) as Hinj
    by (intros j s Hj; apply (user_address_inj d); eauto).
  destruct o as [j s|j]; simpl in *; unfold register, unregister; rewrite bool_decide_false by done.
  - split; simpl.
    + intros j' s'. rewrite lookup_insert_Some. intros [[<- _]|[_ ?]]; [done|by eapply Hd].
    + intros f s'. rewrite lookup_insert_Some, Hf. setoid_rewrite lookup_insert_Some. naive_solver.
    + intros b f s'. rewrite nget_nput. setoid_rewrite lookup_insert_Some.
      case_decide as E; [injection E as <- <-; naive_solver|]. rewrite Hb. naive_solver.
  - split; simpl.
    + intros j' s'. rewrite lookup_delete_Some. intros [_ ?]; by eapply Hd.
    + intros f s'. rewrite lookup_delete_Some, Hf. setoid_rewrite lookup_delete_Some. naive_solver.
    + intros b f s'. rewrite nget_delete_empty, nget_ndel. setoid_rewrite lookup_delete_Some.
      case_decide as E; [injection E as <- <-; naive_solver|]. rewrite Hb. naive_solver.
Qed.

Lemma routes_as_new d : routes_as d newSessionRouter ∅.
Proof.
  split; [by intros j s; rewrite lookup_empty|..]; simpl.
  - intros f s. rewrite lookup_empty. naive_solver.
  - intros b f s. unfold nget. rewrite lookup_empty. simpl. naive_solver.
Qed.

Lemma router_run_routes d ops :
  Forall (λ o, user_address d (op_address o)) ops →
  routes_as d (fold_left router_step ops newSessionRouter) (fold_left map_step ops ∅).
Proof.
  induction ops as [|o ops IH] using rev_ind; intros Hops; [apply routes_as_new|].
  apply Forall_app in Hops as [Hops Ho]. rewrite !fold_left_app. simpl.
  apply router_step_routes; [by apply IH|]. by inversion Ho.
Qed.

Lemma elem_of_visit it (m : gmap string nat) s :
  iteration_ok it → s ∈ (visit it m).*2 ↔ ∃ f, m !! f = Some s.
Proof.
  intros Hit. rewrite list_elem_of_fmap. split.
  - intros ([f s'] & -> & Hin). exists f. by apply (iter_order_lookup m _ f s' (Hit _ m)).
  - intros [f Hf]. exists (f, s). split; [done|]. by apply (iter_order_lookup m _ f s (Hit _ m)).
Qed.

(** Who is reached, for one state of the router. *)
Lemma targets_routes d it r a to s :
  routes_as d r a → iteration_ok it → Jid.IsZero to = false →
  s ∈ targets it to r ↔ ∃ j, a !! j = Some s ∧ addressed a to j.
Proof.
  intros [Hd Hf Hb] Hit Hz. unfold targets, addressed. rewrite Hz. destruct (IsFull to).
  - destruct (byFull r !! JID_String to) as [s'|] eqn:E.
    + apply Hf in E as (j & Hj & Es). rewrite list_elem_of_singleton. split; [intros ->; eauto|].
      intros (j' & Hj' & Es'). assert (j' = j) as -> by (apply (user_address_inj d); eauto; congruence).
      congruence.
    + split; [by intros ?%elem_of_nil|]. intros (j & Hj & Es).
      assert (byFull r !! JID_String to = Some s) by (apply Hf; eauto). congruence.
  - destruct (byBare r !! JID_String (Bare to)) as [m|] eqn:E.
    + rewrite elem_of_visit by done. split.
      * intros [f Hm]. assert (nget (byBare r) (JID_String (Bare to)) f = Some s) as (j & ? & ? & ?)%Hb
          by (unfold nget; by rewrite E). eauto.
      * intros (j & Hj & Es). assert (nget (byBare r) (JID_String (Bare to)) (JID_String j) = Some s) as Hn
          by (apply Hb; eauto). unfold nget in Hn. rewrite E in Hn. eauto.
    + split; [by intros ?%elem_of_nil|]. intros (j & Hj & Es).
      assert (nget (byBare r) (JID_String (Bare to)) (JID_String j) = Some s) as Hn by (apply Hb; eauto).
      unfold nget in Hn. by rewrite E in Hn.
Qed.

(** C31: the router implements a map from addresses to sessions.  After any
    sequence of registrations and removals of user addresses of one domain, the
    sessions found for a destination are exactly the sessions that the sequence
    left registered under an address it names: for a full address the one
    registered under that address, for a bare address all those registered under
    an address with that bare part, whatever order the maps are visited in. *)
Theorem router_refines_map d it ops to s :
  Forall (λ o, user_address d (op_address o)) ops → iteration_ok it → Jid.IsZero to = false →
  s ∈ targets it to (fold_left router_step ops newSessionRouter) ↔
  ∃ j, fold_left map_step ops ∅ !! j = Some s ∧ addressed (fold_left map_step ops ∅) to j.
Proof. intros Hops. apply (targets_routes d). by apply router_run_routes. Qed.

Module RouterExample.
Definition it : iteration := mkIteration (λ V m, map_to_list m).
Definition addr (u r : string) := mkJID u "example.org" r.
Definition ops : list router_op :=
  [ORegister (addr "alice" "a") 1; ORegister (addr "alice" "b") 2; ORegister (addr "bob" "a") 3;
   OUnregister (addr "alice" "a")].
Lemma router_refines_map_witness :
  targets it (addr "alice" "") (fold_left router_step ops newSessionRouter) = [2] ∧
  ∃ j, fold_left map_step ops ∅ !! j = Some 2 ∧ addressed (fold_left map_step ops ∅) (addr "alice" "") j.
Proof.
  split; [reflexivity|].
  apply (router_refines_map "example.org" it ops (addr "alice" "") 2).
  - repeat constructor; done.
  - intros V m. by unfold iter_order.
  - reflexivity.
  - assert (targets it (addr "alice" "") (fold_left router_step ops newSessionRouter) = [2]) as ->
      by (vm_compute; reflexivity). left.
Defined.
End RouterExample.
