(* ===== verification/XmppdStream.v ===== *)
(** * The server's stream handler (src/cmd/xmppd/stream.go)

    One step of a connection's read loop: stream headers, STARTTLS, SASL PLAIN,
    resource binding, and the routing of messages, presences and iqs between
    sessions.  The connections are numbered; all of them share the router and
    the account store, and the world's state is a map of the connections.  Each
    element is handled in one step: the steps of the connections interleave
    freely.  Clock, randomness, map orders and the outcome of TLS handshakes are
    the [StepEnv] of a step. *)

From Stdlib Require Import Ascii String NArith.
From S2P Require Import Prelude GoStrings Bytes Base64 Xml Jid Stanza Sasl Session Storage MemoryStorage UserStore XmppdRegistration XmppdRouter.

Open Scope string_scope.
Open Scope list_scope.
Local Open Scope go_scope.

(** The part of [Config] a session uses; [TLS] says that a certificate is
    configured. *)
Record ServerConfig := mkServerConfig {
  Domain : string; TLS : bool; Registration : registrationConfig }.

Record StepEnv := mkStepEnv {
  se_env : Env;                       (* clock and salt, for registration *)
  se_tls : bool;                      (* the TLS handshake succeeds *)
  se_resource : option bytes;         (* random bytes of randomResource *)
  se_streamID : option bytes;         (* random bytes of randomStreamID *)
  se_it : iteration                   (* order of map iterations *) }.

(** ** Random names *)

Definition randomResource (rnd : option bytes) : string :=
  match rnd with Some b => "roster-" +:+ hex_encode b | None => "roster" end.
Definition randomStreamID (rnd rnd' : option bytes) : string :=
  match rnd with Some b => hex_encode b | None => "stream-" +:+ randomResource rnd' end.

(** ** Stream features *)

Definition token (t : Token) : Enc unit := EncodeToken t.

Definition writeStartTLSFeature : Enc unit :=
  let feature := mkName ns_TLS "starttls" in
  let required := mkName "" "required" in
  do_ token (StartElement feature []); do_ token (StartElement required []);
  do_ token (EndElement required); token (EndElement feature).

Fixpoint write_mechanisms (mechs : list string) : Enc unit :=
  match mechs with
  | [] => mok tt
  | m :: mechs' =>
      let mech := mkName ns_SASL "mechanism" in
      do_ token (StartElement mech []); do_ token (CharData m); do_ token (EndElement mech);
      write_mechanisms mechs'
  end.
Definition writeSASLMechanisms (mechs : list string) : Enc unit :=
  let n := mkName ns_SASL "mechanisms" in
  do_ token (StartElement n []); do_ write_mechanisms mechs; token (EndElement n).

Definition writeBindFeature : Enc unit :=
  let feature := mkName ns_Bind "bind" in
  do_ token (StartElement feature []); token (EndElement feature).
Definition writeRegistrationFeature : Enc unit :=
  let feature := mkName ns_Register "register" in
  do_ token (StartElement feature []); token (EndElement feature).

Definition writeStreamFeatures (cfg : ServerConfig) (state : N) : Enc unit :=
  let start := mkName ns_Stream "features" in
  let registration :=
    if bool_decide (Policy (Registration cfg) ≠ registrationClosed) then writeRegistrationFeature else mok tt in
  do_ token (StartElement start []);
  if negb (has_flag state StateSecure) && TLS cfg
  then do_ writeStartTLSFeature; do_ registration; token (EndElement start)
  else if negb (has_flag state StateAuthenticated)
  then do_ writeSASLMechanisms ["PLAIN"]; do_ registration; token (EndElement start)
  else do_ (if negb (has_flag state StateBound) then writeBindFeature else mok tt);
       token (EndElement start).

(** ** Handlers on one connection *)

Section server.
Context {T : Type} `{UserStore T}.
Context (sha256 : Hash) (unicode : string -> string) (cfg : ServerConfig).

(** Writing on the stream writer directly. *)
Definition on_writer (m : Enc unit) : CM (T := T) unit :=
  fun '(c, st) =>
    let s := c_session c in
    let '(w, r) := m (ss_writer s) in
    ((set_session (mkSession (ss_state s) (ss_closed s) (ss_local s) (ss_remote s) w) c, st),
     match r with Ok _ => Ok tt | Err e => Err (EXml e) | Panic => Panic end).

Definition writeStreamStart (se : StepEnv) : CM (T := T) unit :=
  match Jid.New "" (Domain cfg) "" with
  | Ok from => on_writer (WriteRaw (Open (mkStreamHeader JID_zero from
                 (randomStreamID (se_streamID se) (se_resource se)) DefaultVersion "en" ns_Client)))
  | Err e => merr (EAddressError e)
  | Panic => mpanic
  end.

Definition empty_element (n : Name) : Enc unit := encode_element n [] (mok tt).

Definition handleStartTLS (se : StepEnv) : CM (T := T) unit :=
  do state <- session_state;
  if negb (TLS cfg) || has_flag state StateSecure
  then on_session (SendElement (empty_element (mkName ns_TLS "failure")))
  else
    do_ on_session (SendElement (empty_element (mkName ns_TLS "proceed")));
    if negb (se_tls se) then merr ETransport
    else update (fun c => set_session (SetState StateSecure (c_session c)) c).

Definition sendSASLFailure (condition : string) : CM (T := T) unit :=
  on_session (SendRaw ("<failure xmlns='" +:+ ns_SASL +:+ "'><" +:+ condition +:+ "/></failure>")).

(** The checks of [handleSASLAuth] up to the account lookup: a failure
    condition, or the username and password to check. *)
Definition plain_credentials (mechanism value : string) : string + (string * string) :=
  if bool_decide (ToUpper unicode (TrimSpace mechanism) ≠ "PLAIN") then inl "invalid-mechanism"
  else match DecodeString (TrimSpace value) with
  | None => inl "malformed-request"
  | Some payload =>
      match SplitN (of_bytes payload) "000" 3 with
      | [_; authcid; passwd] =>
          if bool_decide (TrimSpace authcid = "") then inl "malformed-request"
          else inr (TrimSpace authcid, passwd)
      | _ => inl "malformed-request"
      end
  end.

Definition handleSASLAuth (attrs : list Attr) (cs : list node) : CM (T := T) unit :=
  fun '(c, store) =>
  (if has_flag (ss_state (c_session c)) StateAuthenticated
   then sendSASLFailure "not-authorized"
   else match plain_credentials (attr_string "mechanism" attrs "") (chardata cs) with
   | inl condition => sendSASLFailure condition
   | inr (username, password) =>
       match store with
       | None => sendSASLFailure "temporary-auth-failure"
       | Some t =>
           match us_Authenticate username password t with
           | Err _ => sendSASLFailure "temporary-auth-failure"
           | Panic => mpanic
           | Ok false => sendSASLFailure "not-authorized"
           | Ok true =>
               match Jid.New username (Domain cfg) "" with
               | Ok j =>
                   do_ update (set_user username);
                   do_ update (fun c => set_session (SetRemoteAddr j (c_session c)) c);
                   do_ update (fun c => set_session (SetState StateAuthenticated (c_session c)) c);
                   on_session (SendElement (empty_element (mkName ns_SASL "success")))
               | _ => sendSASLFailure "not-authorized"
               end
           end
       end
   end) (c, store).

(** ** The world *)

Record World := mkWorld {
  conns : gmap nat Conn; router : sessionRouter; store : option T }.

Definition WM := M World session_error.

(** A handler of connection [sid]. *)
Definition own {A} (sid : nat) (m : CM (T := T) A) : WM A :=
  fun w => match conns w !! sid with
           | Some c => let '((c', st'), r) := m (c, store w) in
                       (mkWorld (<[sid := c']> (conns w)) (router w) st', r)
           | None => (w, Err ESessionClosed)
           end.

Definition get_own (sid : nat) : WM Conn := own sid get_conn.

(** [xml.Unmarshal] into a [BindRequest]: the resource. *)
Definition decode_BindRequest (frag : list node) : option string :=
  match first_element frag with
  | Some (Elem n _ cs) =>
      if bool_decide (n = mkName ns_Bind "bind") then Some (child_string "resource" cs "") else None
  | _ => None
  end.

Definition isBindRequestIQ (iq : IQ) : bool :=
  if bool_decide (iq_Type iq ≠ IQSet) then false
  else match iq_Query iq with
       | [] => false
       | frag => match decode_BindRequest frag with Some _ => true | None => false end
       end.

Definition encode_BindResult (jid : string) : Enc unit :=
  encode_element (mkName ns_Bind "bind") []
    (encode_element (mkName "" "jid") [] (encodeToken (CharData jid))).

Definition register_session (full : JID) (sid : nat) : WM unit :=
  mmodify (fun w => mkWorld (conns w) (register full sid (router w)) (store w)).

Definition handleBindIQ (se : StepEnv) (sid : nat) (iq : IQ) : WM unit :=
  do c <- get_own sid;
  if negb (has_flag (ss_state (c_session c)) StateAuthenticated)
  then own sid (reply_error iq "auth" "not-authorized" "not authenticated")
  else
    let username := TrimSpace (c_user c) in
    let username := if bool_decide (username = "")
                    then TrimSpace (j_local (ss_remote (c_session c))) else username in
    if bool_decide (username = "")
    then own sid (reply_error iq "auth" "not-authorized" "not authenticated")
    else match decode_BindRequest (iq_Query iq) with
    | None => own sid (reply_error iq "modify" "bad-request" "invalid bind payload")
    | Some res =>
        let resource := TrimSpace res in
        let resource := if bool_decide (resource = "") then randomResource (se_resource se) else resource in
        match Jid.New username (Domain cfg) resource with
        | Ok full =>
            do_ own sid (update (fun c => set_session (SetRemoteAddr full (c_session c)) c));
            do_ own sid (update (fun c => set_session (SetState (N.lor StateBound StateReady) (c_session c)) c));
            do_ register_session full sid;
            own sid (on_session (SendElement (encode_IQPayload (ResultIQ iq)
                       (Some (encode_BindResult (JID_String full))))))
        | _ => own sid (reply_error iq "modify" "jid-malformed" "invalid jid")
        end
    end.

(** ** Routing *)

(** [dst.Send(ctx, st)], an error being only logged. *)
Definition deliver (dst : nat) (st : Stanza) (w : World) : World :=
  (own dst (on_session (Send st)) w).1.

Fixpoint deliver_all (source : nat) (ds : list nat) (st : Stanza) (w : World) : World :=
  match ds with
  | [] => w
  | dst :: ds' => deliver_all source ds' st (if bool_decide (dst = source) then w else deliver dst st w)
  end.

(** The sender's address, when the stanza has none. *)
Definition stamp_from (c : Conn) (h : Header) : Header :=
  if Jid.IsZero (h_From h) then set_From (ss_remote (c_session c)) h else h.

Definition routeMessage (se : StepEnv) (sid : nat) (msg : Message) : WM unit :=
  do c <- get_own sid;
  let msg := mkMessage (stamp_from c (m_Header msg)) (m_Subject msg) (m_Body msg) (m_Thread msg)
               (m_Error msg) (m_Extensions msg) in
  mmodify (fun w => deliver_all sid (targets (se_it se) (h_To (m_Header msg)) (router w)) (SMessage msg) w).

Definition routePresence (se : StepEnv) (sid : nat) (pres : Presence) : WM unit :=
  do c <- get_own sid;
  let pres := mkPresence (stamp_from c (p_Header pres)) (p_Show pres) (p_Status pres)
                (p_Priority pres) (p_Error pres) (p_Extensions pres) in
  if Jid.IsZero (h_To (p_Header pres)) then mok tt
  else mmodify (fun w => deliver_all sid (targets (se_it se) (h_To (p_Header pres)) (router w)) (SPresence pres) w).

(** The loop of [routeIQ] stops after the first delivery to a full address. *)
Fixpoint deliver_iq (source : nat) (ds : list nat) (iq : IQ) (w : World) : World :=
  match ds with
  | [] => w
  | dst :: ds' =>
      if bool_decide (dst = source) then deliver_iq source ds' iq w
      else let w' := deliver dst (SIQ iq) w in
           if IsFull (iq_To iq) then w' else deliver_iq source ds' iq w'
  end.

Definition is_request (iq : IQ) : bool :=
  bool_decide (iq_Type iq = IQGet) || bool_decide (iq_Type iq = IQSet).

Definition routeIQ (se : StepEnv) (sid : nat) (iq : IQ) : WM unit :=
  if Jid.IsZero (iq_To iq) || IsDomainOnly (iq_To iq)
  then if is_request iq
       then own sid (reply_error iq "cancel" "service-unavailable" "unsupported server iq")
       else mok tt
  else
    do c <- get_own sid;
    let iq := mkIQ (stamp_from c (iq_Header iq)) (iq_Query iq) (iq_Error iq) in
    do w <- mget;
    match targets (se_it se) (iq_To iq) (router w) with
    | [] => if is_request iq
            then own sid (reply_error iq "cancel" "item-not-found" "recipient not found")
            else mok tt
    | ds => mmodify (deliver_iq sid ds iq)
    end.

(** ** The read loop *)

(** A decoding error ends the loop. *)
Definition decoded {A} (r : res decode_error A) : WM A :=
  match r with Ok a => mok a | Err e => merr (EDecode e) | Panic => mpanic end.

Definition handleIQ (se : StepEnv) (sid : nat) (attrs : list Attr) (cs : list node) : WM unit :=
  do iq <- decoded (decode_IQ attrs cs);
  if isBindRequestIQ iq then handleBindIQ se sid iq
  else
    do_ own sid (Handle sha256 unicode (Registration cfg) (se_env se) iq);
    do c <- get_own sid;
    if negb (has_flag (ss_state (c_session c)) StateReady)
    then if is_request iq
         then own sid (reply_error iq "auth" "not-authorized" "authenticate and bind first")
         else mok tt
    else routeIQ se sid iq.

Definition handleMessage (se : StepEnv) (sid : nat) (attrs : list Attr) (cs : list node) : WM unit :=
  do msg <- decoded (decode_Message attrs cs);
  do c <- get_own sid;
  if negb (has_flag (ss_state (c_session c)) StateReady) then mok tt else routeMessage se sid msg.

Definition handlePresence (se : StepEnv) (sid : nat) (attrs : list Attr) (cs : list node) : WM unit :=
  do pres <- decoded (decode_Presence attrs cs);
  do c <- get_own sid;
  if negb (has_flag (ss_state (c_session c)) StateReady) then mok tt else routePresence se sid pres.

(** One turn of the loop of [serveStream] on what the reader finds next. *)
Definition serve_input (se : StepEnv) (sid : nat) (i : input) : WM unit :=
  match i with
  | IStream _ =>
      do_ own sid (writeStreamStart se);
      do c <- get_own sid;
      own sid (on_writer (writeStreamFeatures cfg (ss_state (c_session c))))
  | INode (Elem n attrs cs) =>
      if bool_decide (n = mkName ns_TLS "starttls") then own sid (handleStartTLS se)
      else if bool_decide (n = mkName ns_SASL "auth") then own sid (handleSASLAuth attrs cs)
      else if bool_decide (Local n = "message") then handleMessage se sid attrs cs
      else if bool_decide (Local n = "presence") then handlePresence se sid attrs cs
      else if bool_decide (Local n = "iq") then handleIQ se sid attrs cs
      else mok tt
  | _ => mok tt
  end.

(** The end of [serveSession] (the deferred removal from the router) and of the
    connection's goroutine (closing the session). *)
Definition finish (sid : nat) (w : World) : World :=
  match conns w !! sid with
  | Some c => mkWorld (<[sid := set_session (Close (c_session c)).1 c]> (conns w))
                (unregister (ss_remote (c_session c)) (router w)) (store w)
  | None => w
  end.

Definition new_conn (peer : option string) (secure : bool) : Conn :=
  let s := NewSession [WithState StateServer; WithRemoteAddr JID_zero] in
  mkConn (if secure then SetState StateSecure s else s) ""
    (newRateLimiter (RateLimit (Registration cfg)) (RateWindow (Registration cfg))) peer.

(** Events of the server: a connection is accepted, something is read from it,
    or its input ends. *)
Inductive event :=
  | EOpen (sid : nat) (peer : option string) (secure : bool)
  | ERecv (sid : nat) (se : StepEnv) (i : input)
  | EEnd (sid : nat).

(** A connection number is used once; nothing is read from a finished
    connection; an error of a handler ends the loop. *)
Definition server_step (w : World) (ev : event) : World :=
  match ev with
  | EOpen sid peer secure =>
      match conns w !! sid with
      | None => mkWorld (<[sid := new_conn peer secure]> (conns w)) (router w) (store w)
      | Some _ => w
      end
  | ERecv sid se i =>
      match conns w !! sid with
      | Some c => if ss_closed (c_session c) then w
                  else match serve_input se sid i w with
                       | (w', Err _) => finish sid w'
                       | (w', _) => w'
                       end
      | None => w
      end
  | EEnd sid =>
      match conns w !! sid with
      | Some c => if ss_closed (c_session c) then w else finish sid w
      | None => w
      end
  end.

Definition server_run (evs : list event) (w : World) : World := fold_left server_step evs w.
Definition server_start (t : option T) : World := mkWorld ∅ newSessionRouter t.

End server.
Arguments World T : clear implicits.
