(* ===== verification/XmppdSecurity.v ===== *)
(** * What the server guarantees about identities and delivery

    Invariants of every reachable state of the server of [XmppdStream]: which
    sessions count as authenticated, under which addresses they are reached,
    and what the steps of one connection can do to the others. *)

From Stdlib Require Import Ascii String NArith.
From S2P Require Import Prelude GoStrings Bytes Base64 Xml Jid Stanza Sasl Session Storage MemoryStorage UserStore XmppdRegistration XmppdRouter XmppdStream.

Open Scope string_scope.
Open Scope list_scope.

(** ** Flags *)

Definition authenticated (c : Conn) : bool := N.testbit (ss_state (c_session c)) 1.
Definition bound (c : Conn) : bool := N.testbit (ss_state (c_session c)) 2.
Definition ready (c : Conn) : bool := N.testbit (ss_state (c_session c)) 3.

Lemma flag_authenticated c : has_flag (ss_state (c_session c)) StateAuthenticated = authenticated c.
Proof. apply (has_flag_pow2 _ 1). Qed.
Lemma flag_ready c : has_flag (ss_state (c_session c)) StateReady = ready c.
Proof. apply (has_flag_pow2 _ 3). Qed.

(** [keeps c c']: identity and negotiation flags (other than TLS) are untouched. *)
Record keeps (c c' : Conn) : Prop := {
  k_auth : authenticated c' = authenticated c;
  k_bound : bound c' = bound c;
  k_ready : ready c' = ready c;
  k_user : c_user c' = c_user c;
  k_remote : ss_remote (c_session c') = ss_remote (c_session c)
}.

#[global] Instance keeps_refl : Reflexive keeps.
Proof. by intros c. Qed.
#[global] Instance keeps_trans : Transitive keeps.
Proof. intros a b c [] []. split; congruence. Qed.

Section kept.
Context {T : Type} `{UserStore T}.

Definition kept {A} (m : CM (T := T) A) : Prop := ∀ c st, keeps c (m (c, st)).1.1.

Lemma kept_bind {A B} (m : CM (T := T) A) (k : A → CM B) : kept m → (∀ a, kept (k a)) → kept (mbnd m k).
Proof.
  intros Hm Hk c st. unfold mbnd. specialize (Hm c st).
  destruct (m (c, st)) as [[c1 st1] [a|e|]]; simpl in *; [|done|done].
  etransitivity; [done|apply Hk].
Qed.
Lemma kept_ok {A} (a : A) : kept (mok a).
Proof. by intros c st. Qed.
Lemma kept_err {A} e : kept (A := A) (merr e).
Proof. by intros c st. Qed.
Lemma kept_panic {A} : kept (A := A) mpanic.
Proof. by intros c st. Qed.
Lemma kept_get_conn : kept get_conn.
Proof. by intros c st. Qed.
Lemma kept_session_state : kept session_state.
Proof. by intros c st. Qed.
Lemma kept_update f : (∀ c, keeps c (f c)) → kept (update f).
Proof. intros Hf c st. apply Hf. Qed.
Lemma kept_store_call t m : kept (store_call t m).
Proof. intros c st. unfold store_call. by destruct (m t). Qed.

Lemma kept_locked_write m : kept (on_session (locked_write m)).
Proof.
  intros c st. unfold on_session, locked_write. destruct (ss_closed (c_session c)); [by destruct c|].
  by destruct (m (ss_writer (c_session c))) as [w r].
Qed.
Lemma kept_on_writer m : kept (on_writer m).
Proof. intros c st. unfold on_writer. by destruct (m (ss_writer (c_session c))) as [w r]. Qed.

Lemma kept_Send st : kept (on_session (Send st)).
Proof. apply kept_locked_write. Qed.
Lemma kept_SendElement m : kept (on_session (SendElement m)).
Proof. apply kept_locked_write. Qed.
Lemma kept_SendRaw s : kept (on_session (SendRaw s)).
Proof. apply kept_locked_write. Qed.
End kept.

#[export] Hint Resolve kept_ok kept_err kept_panic kept_get_conn kept_session_state kept_store_call
  kept_locked_write kept_on_writer kept_Send kept_SendElement kept_SendRaw : kept.

Ltac kept :=
  repeat first
    [ apply kept_bind; [|intros ?] | progress auto with kept | case_match ].

Section security.
Context {T : Type} `{UserStoreLaws T accounts}.
Context (sha256 : Hash) (unicode : string -> string) (cfg : ServerConfig).

Notation server_run := (server_run sha256 unicode cfg).
Notation server_step := (server_step sha256 unicode cfg).

Lemma kept_reply_error iq a b c : kept (T := T) (reply_error iq a b c).
Proof. apply kept_Send. Qed.
Lemma kept_reply_query iq q : kept (T := T) (reply_query iq q).
Proof. apply kept_SendElement. Qed.
#[local] Hint Resolve kept_reply_error kept_reply_query : kept.

Lemma kept_handleSet env rc iq q : kept (T := T) (handleSet sha256 rc env iq q).
Proof.
  intros c st. unfold handleSet.
  match goal with |- keeps c (?m (c, st)).1.1 => enough (kept m) as Hk by apply Hk end.
  unfold handleRemove, createAccount, registered_reply. kept.
Qed.

Lemma kept_Handle env rc iq : kept (T := T) (Handle sha256 unicode rc env iq).
Proof.
  unfold Handle, handleGet. pose proof kept_handleSet. kept. apply kept_update. by intros [].
Qed.

Lemma kept_handleStartTLS se : kept (T := T) (handleStartTLS cfg se).
Proof.
  unfold handleStartTLS. kept. apply kept_update. intros c. unfold SetState, set_session.
  split; try done; unfold authenticated, bound, ready; simpl; rewrite N.lor_spec; by rewrite orb_false_r.
Qed.

Lemma kept_stream_start se : kept (T := T) (writeStreamStart cfg se).
Proof. unfold writeStreamStart. kept. Qed.

Lemma kept_sasl_failure cond : kept (T := T) (sendSASLFailure cond).
Proof. apply kept_SendRaw. Qed.
#[local] Hint Resolve kept_Handle kept_handleStartTLS kept_stream_start kept_sasl_failure : kept.

(** *** Steps that keep every connection *)

Definition wkeeps (w w' : World T) : Prop :=
  router w' = router w ∧
  ∀ sid, match conns w !! sid, conns w' !! sid with
         | Some c, Some c' => keeps c c'
         | None, None => True
         | _, _ => False
         end.

#[local] Instance wkeeps_refl : Reflexive wkeeps.
Proof. intros w. split; [done|]. intros sid. by destruct (conns w !! sid). Qed.
#[local] Instance wkeeps_trans : Transitive wkeeps.
Proof.
  intros a b c [R1 H1] [R2 H2]. split; [congruence|]. intros sid. specialize (H1 sid). specialize (H2 sid).
  destruct (conns a !! sid), (conns b !! sid), (conns c !! sid); try done. by etransitivity.
Qed.

Definition wkept {A} (m : WM (T := T) A) : Prop := ∀ w, wkeeps w (m w).1.

Lemma wkept_bind {A B} (m : WM (T := T) A) (k : A → WM B) : wkept m → (∀ a, wkept (k a)) → wkept (mbnd m k).
Proof.
  intros Hm Hk w. unfold mbnd. specialize (Hm w).
  destruct (m w) as [w1 [a|e|]]; simpl in *; [|done|done]. etransitivity; [done|apply Hk].
Qed.
Lemma wkept_ok {A} (a : A) : wkept (mok a).
Proof. by intros w. Qed.
Lemma wkept_get : wkept mget.
Proof. by intros w. Qed.
Lemma wkept_modify f : (∀ w, wkeeps w (f w)) → wkept (mmodify f).
Proof. intros Hf w. apply Hf. Qed.
Lemma wkept_decoded {A} (r : res decode_error A) : wkept (decoded r).
Proof. by destruct r; intros w. Qed.

Lemma wkept_own {A} sid (m : CM (T := T) A) : kept m → wkept (own sid m).
Proof.
  intros Hm w. unfold own. destruct (conns w !! sid) as [c|] eqn:E; [|done].
  specialize (Hm c (store w)). destruct (m (c, store w)) as [[c' st'] r]; simpl in *.
  split; [done|]. intros s. simpl. destruct (decide (s = sid)) as [->|Hn].
  - by rewrite E, lookup_insert_eq.
  - rewrite lookup_insert_ne by done. by destruct (conns w !! s).
Qed.

Lemma deliver_keeps dst st w : wkeeps w (deliver dst st w).
Proof. apply wkept_own, kept_Send. Qed.

Lemma deliver_all_keeps src ds st w : wkeeps w (deliver_all src ds st w).
Proof.
  revert w. induction ds as [|d ds IH]; intros w; simpl; [done|]. case_bool_decide; [apply IH|].
  etransitivity; [apply deliver_keeps|apply IH].
Qed.

Lemma deliver_iq_keeps src ds iq w : wkeeps w (deliver_iq src ds iq w).
Proof.
  revert w. induction ds as [|d ds IH]; intros w; simpl; [done|]. case_bool_decide; [apply IH|].
  case_match; [apply deliver_keeps|]. etransitivity; [apply deliver_keeps|apply IH].
Qed.

Local Ltac wkept :=
  repeat first
    [ apply wkept_bind; [|intros ?] | apply wkept_ok | apply wkept_get | apply wkept_decoded
    | apply wkept_own; solve [auto with kept]
    | apply wkept_modify; intros ?; first [apply deliver_all_keeps | apply deliver_iq_keeps]
    | case_match ].

Lemma wkept_routeIQ se sid iq : wkept (routeIQ se sid iq).
Proof. unfold routeIQ, get_own. wkept. Qed.
Lemma wkept_handleMessage se sid a cs : wkept (handleMessage se sid a cs).
Proof. unfold handleMessage, routeMessage, get_own. wkept. Qed.
Lemma wkept_handlePresence se sid a cs : wkept (handlePresence se sid a cs).
Proof. unfold handlePresence, routePresence, get_own. wkept. Qed.

(** ** Who is authenticated *)

(** [i] is a SASL request that presents the credentials [u], [p]. *)
Definition presents (i : input) (u p : string) : Prop :=
  ∃ attrs cs, i = INode (Elem (mkName ns_SASL "auth") attrs cs) ∧
    plain_credentials unicode (attr_string "mechanism" attrs "") (chardata cs) = inr (u, p).

(** Among the events [evs] from [w0] on, connection [sid] presented the
    password that the account store then had for [u]. *)
Definition verified (w0 : World T) (evs : list event) (sid : nat) (u : string) : Prop :=
  ∃ pre se i post p t, evs = pre ++ ERecv sid se i :: post ∧ presents i u p ∧
    store (server_run pre w0) = Some t ∧ accounts t !! u = Some p.

Definition user_at (u r : string) : JID := mkJID u (Domain cfg) r.

(** What holds of a connection, given what is verified for it. *)
Record conn_inv (V : string → Prop) (c : Conn) : Prop := {
  ci_auth : authenticated c = true →
    V (c_user c) ∧ c_user c ≠ "" ∧ TrimSpace (c_user c) = c_user c ∧
    ∃ r, ss_remote (c_session c) = user_at (c_user c) r;
  ci_ready : ready c = true → authenticated c = true;
  ci_bound : bound c = ready c;
  ci_fresh : authenticated c = false → ss_remote (c_session c) = JID_zero
}.

Record server_inv (V : nat → string → Prop) (w : World T) : Prop := {
  si_conn : ∀ sid c, conns w !! sid = Some c → conn_inv (V sid) c;
  si_full : ∀ f sid, byFull (router w) !! f = Some sid →
    ∃ c r, conns w !! sid = Some c ∧ authenticated c = true ∧ f = JID_String (user_at (c_user c) r);
  si_bare : ∀ b f sid, nget (byBare (router w)) b f = Some sid →
    ∃ c, conns w !! sid = Some c ∧ authenticated c = true ∧ b = JID_String (user_at (c_user c) "")
}.

Lemma conn_inv_keeps V V' c c' :
  keeps c c' → (∀ u, V u → V' u : Prop) → conn_inv V c → conn_inv V' c'.
Proof.
  intros [K1 K2 K3 K4 K5] HV [H1 H2 H3 H4]. split; rewrite ?K1, ?K2, ?K3, ?K4, ?K5; auto. naive_solver.
Qed.

Lemma server_inv_keeps V V' w w' :
  wkeeps w w' → (∀ sid u, V sid u → V' sid u : Prop) → server_inv V w → server_inv V' w'.
Proof.
  intros [Hr Hk] HV [H1 H2 H3].
  assert (∀ sid c, conns w !! sid = Some c → ∃ c', conns w' !! sid = Some c' ∧ keeps c c') as Hfw.
  { intros sid c Hc. specialize (Hk sid). rewrite Hc in Hk. destruct (conns w' !! sid); [eauto|done]. }
  split; rewrite ?Hr.
  - intros sid c' Hc'. specialize (Hk sid). rewrite Hc' in Hk.
    destruct (conns w !! sid) as [c|] eqn:Hc; [|done].
    apply (conn_inv_keeps (V sid) _ c); [done|apply HV|by apply H1].
  - intros f sid (c & r & Hc & Ha & ->)%H2. destruct (Hfw sid c Hc) as (c' & Hc' & [K1 _ _ K4 _]).
    exists c', r. by rewrite K1, K4.
  - intros b f sid (c & Hc & Ha & ->)%H3. destruct (Hfw sid c Hc) as (c' & Hc' & [K1 _ _ K4 _]).
    exists c'. by rewrite K1, K4.
Qed.

Lemma server_inv_mono V V' w :
  (∀ sid u, V sid u → V' sid u : Prop) → server_inv V w → server_inv V' w.
Proof. by apply server_inv_keeps. Qed.

(** *** Authentication *)

Lemma plain_credentials_user mech value u p :
  plain_credentials unicode mech value = inr (u, p) → u ≠ "" ∧ TrimSpace u = u.
Proof.
  unfold plain_credentials. case_bool_decide; [done|].
  destruct (DecodeString _) as [b|]; [|done].
  destruct (SplitN _ _ _) as [|x [|y [|z [|]]]]; try done. case_bool_decide as Hu; [done|].
  intros [= <- <-]. split; [done|apply TrimSpace_idemp].
Qed.

(** Authentication either changes nothing that matters, or establishes a user
    whose password was just checked. *)
Lemma handleSASLAuth_cases attrs cs c st c' st' r :
  handleSASLAuth unicode cfg attrs cs (c, st) = ((c', st'), r) →
  st' = st ∧
  (keeps c c' ∨
   authenticated c = false ∧ ∃ u p t,
     plain_credentials unicode (attr_string "mechanism" attrs "") (chardata cs) = inr (u, p) ∧
     st = Some t ∧ accounts t !! u = Some p ∧
     authenticated c' = true ∧ bound c' = bound c ∧ ready c' = ready c ∧ c_user c' = u ∧
     ss_remote (c_session c') = user_at u "").
Proof.
  assert (∀ cond, (sendSASLFailure (T := T) cond (c, st)).1.2 = st) as Hst.
  { intros cond. unfold sendSASLFailure, on_session, SendRaw, locked_write.
    destruct (ss_closed _); [done|]. by destruct (WriteRaw _ _). }
  assert (∀ cond, sendSASLFailure cond (c, st) = ((c', st'), r) → st' = st ∧ keeps c c') as Hfail.
  { intros cond E. split.
    - specialize (Hst cond). rewrite E in Hst. done.
    - pose proof (kept_sasl_failure cond c st) as Hk. by rewrite E in Hk. }
  unfold handleSASLAuth. rewrite flag_authenticated.
  destruct (authenticated c) eqn:Ha; [intros [??]%Hfail; auto|].
  destruct (plain_credentials _ _ _) as [cond|[u p]] eqn:Hpc; [intros [??]%Hfail; auto|].
  destruct st as [t|]; [|intros [??]%Hfail; auto].
  destruct (us_Authenticate u p t) as [[|]|e|] eqn:Hauth; [|intros [??]%Hfail; auto|intros [??]%Hfail; auto|
    intros [= <- <- <-]; split; [done|by left]].
  destruct (Jid.New u (Domain cfg) "") as [j|e|] eqn:Hj; [|intros [??]%Hfail; auto..].
  apply New_ok_iff in Hj as [-> _]. apply auth_iff in Hauth.
  unfold mbnd, update, on_session, SendElement, locked_write. simpl.
  destruct (ss_closed (c_session c)); [|destruct (Encode _ _) as [w' r']]; intros [= <- <- <-];
    (split; [done|]); right; (split; [done|]); exists u, p, t; split_and!; try done;
    unfold authenticated, bound, ready; simpl; rewrite N.lor_spec; simpl;
    by rewrite ?orb_true_r, ?orb_false_r.
Qed.

Lemma server_inv_update V w sid c c' st' :
  conns w !! sid = Some c → conn_inv (V sid) c' →
  (authenticated c = true → authenticated c' = true ∧ c_user c' = c_user c) →
  server_inv V w → server_inv V (mkWorld (<[sid := c']> (conns w)) (router w) st').
Proof.
  intros Hc Hi Hm [H1 H2 H3].
  assert (∀ s x, conns w !! s = Some x → authenticated x = true →
    ∃ x', <[sid := c']> (conns w) !! s = Some x' ∧ authenticated x' = true ∧ c_user x' = c_user x) as Hfw.
  { intros s x Hx Ha. destruct (decide (s = sid)) as [->|Hn].
    - rewrite lookup_insert_eq. exists c'. assert (x = c) as -> by congruence. naive_solver.
    - rewrite lookup_insert_ne by done. eauto. }
  split; simpl.
  - intros s x. destruct (decide (s = sid)) as [->|Hn].
    + rewrite lookup_insert_eq. by intros [= <-].
    + rewrite lookup_insert_ne by done. apply H1.
  - intros f s (x & r & Hx & Ha & ->)%H2. destruct (Hfw s x Hx Ha) as (x' & ? & ? & <-). eauto.
  - intros b f s (x & Hx & Ha & ->)%H3. destruct (Hfw s x Hx Ha) as (x' & ? & ? & <-). eauto.
Qed.

(** *** Removal from the router *)

Lemma unregister_full j r f s : byFull (unregister j r) !! f = Some s → byFull r !! f = Some s.
Proof.
  unfold unregister. case_bool_decide; [done|]. simpl. intros [_ ?]%lookup_delete_Some. done.
Qed.
Lemma unregister_bare j r b f s : nget (byBare (unregister j r)) b f = Some s → nget (byBare r) b f = Some s.
Proof.
  unfold unregister. case_bool_decide; [done|]. simpl. rewrite nget_delete_empty, nget_ndel.
  by case_decide.
Qed.

Lemma finish_inv V sid w : server_inv V w → server_inv V (finish sid w).
Proof.
  intros Hi. unfold finish. destruct (conns w !! sid) as [c|] eqn:Hc; [|done].
  assert (keeps c (set_session (Close (c_session c)).1 c)) as Hk.
  { unfold Close. destruct (ss_closed (c_session c)); by destruct c as [[]]. }
  assert (server_inv V (mkWorld (<[sid := set_session (Close (c_session c)).1 c]> (conns w)) (router w) (store w)))
    as [H1 H2 H3].
  { eapply server_inv_update; [done| | |done].
    - eapply conn_inv_keeps; [done| |by apply (si_conn _ _ Hi)]. done.
    - destruct Hk as [K1 _ _ K4 _]. by rewrite K1, K4. }
  split; simpl in *; [done|..].
  - intros f s Hf%unregister_full. by apply H2.
  - intros b f s Hb%unregister_bare. by eapply H3.
Qed.

(** *** Binding *)

Lemma get_own_Some sid w c : conns w !! sid = Some c → get_own (T := T) sid w = (w, Ok c).
Proof.
  intros Hc. unfold get_own, own. rewrite Hc. simpl. rewrite insert_id by done. by destruct w.
Qed.
Lemma get_own_None sid w : conns w !! sid = None → get_own (T := T) sid w = (w, Err ESessionClosed).
Proof. intros Hc. unfold get_own, own. by rewrite Hc. Qed.
Lemma own_update sid f w c :
  conns w !! sid = Some c →
  own (T := T) sid (update f) w = (mkWorld (<[sid := f c]> (conns w)) (router w) (store w), Ok tt).
Proof. intros Hc. unfold own. by rewrite Hc. Qed.

Lemma server_inv_register V w sid c r :
  conns w !! sid = Some c → authenticated c = true → server_inv V w →
  server_inv V (mkWorld (conns w) (register (user_at (c_user c) r) sid (router w)) (store w)).
Proof.
  intros Hc Ha [H1 H2 H3]. unfold register. case_bool_decide as He; [by split|].
  split; simpl; [done|..].
  - intros f s. rewrite lookup_insert_Some. intros [[<- <-]|[_ ?]]; [eauto|by apply H2].
  - intros b f s. rewrite nget_nput. case_decide as E; [|by apply H3].
    injection E as <- <-. intros [= <-]. eauto.
Qed.

(** The connection that binding leaves. *)
Definition bind_conn (full : JID) (c : Conn) : Conn :=
  set_session (SetState (N.lor StateBound StateReady) (SetRemoteAddr full (c_session c))) c.

Lemma bind_conn_inv V c r :
  conn_inv V c → authenticated c = true → conn_inv V (bind_conn (user_at (c_user c) r) c).
Proof.
  intros [H1 H2 H3 H4] Ha.
  assert (authenticated (bind_conn (user_at (c_user c) r) c) = true) as Ha'.
  { unfold authenticated in *. simpl. by rewrite N.lor_spec, Ha. }
  split; simpl.
  - intros _. destruct (H1 Ha) as (? & ? & ? & _). eauto.
  - done.
  - unfold bound, ready. simpl. rewrite !N.lor_spec. simpl. by rewrite !orb_true_r.
  - congruence.
Qed.

Lemma handleBindIQ_inv V se sid iq w :
  server_inv V w → server_inv V (handleBindIQ cfg se sid iq w).1.
Proof.
  intros Hi. unfold handleBindIQ, mbnd at 1.
  destruct (conns w !! sid) as [c|] eqn:Hc; [rewrite (get_own_Some _ _ _ Hc)|by rewrite get_own_None].
  assert (∀ a b x, server_inv V (own sid (reply_error iq a b x) w).1) as Herr.
  { intros a b x. eapply server_inv_keeps; [apply wkept_own, kept_reply_error|done|done]. }
  rewrite flag_authenticated. destruct (authenticated c) eqn:Ha; simpl; [|apply Herr].
  pose proof (si_conn _ _ Hi _ _ Hc) as Hci. destruct (ci_auth _ _ Hci Ha) as (_ & Hu & Htrim & _).
  rewrite Htrim. rewrite (bool_decide_false (c_user c = "")) by done.
  rewrite (bool_decide_false (c_user c = "")) by done.
  destruct (decode_BindRequest (iq_Query iq)) as [res|]; [|apply Herr].
  set (resource := if bool_decide (TrimSpace res = "") then _ else _).
  destruct (Jid.New (c_user c) (Domain cfg) resource) as [full|e|] eqn:Hj; [|apply Herr..].
  apply New_ok_iff in Hj as [-> _]. fold (user_at (c_user c) resource).
  unfold mbnd. rewrite (own_update _ _ _ c Hc).
  erewrite own_update by (simpl; apply lookup_insert_eq). simpl. rewrite insert_insert_eq.
  eapply server_inv_keeps; [apply wkept_own, kept_SendElement|done|].
  set (c' := bind_conn (user_at (c_user c) resource) c).
  change (server_inv V (mkWorld (<[sid := c']> (conns w))
    (register (user_at (c_user c') resource) sid (router w)) (store w))).
  pose proof (server_inv_register V (mkWorld (<[sid := c']> (conns w)) (router w) (store w)) sid c' resource) as Hreg.
  cbn [conns router store] in Hreg. apply Hreg.
  - apply lookup_insert_eq.
  - unfold authenticated in *. simpl. by rewrite N.lor_spec, Ha.
  - eapply server_inv_update; [done|by apply bind_conn_inv| |done]. intros _. split; [|done].
    unfold authenticated in *. simpl. by rewrite N.lor_spec, Ha.
Qed.

(** *** One step, and all of them *)

Lemma handleIQ_inv V se sid a cs w :
  server_inv V w → server_inv V (handleIQ sha256 unicode cfg se sid a cs w).1.
Proof.
  intros Hi. unfold handleIQ, mbnd at 1. destruct (decode_IQ a cs) as [iq|e|]; simpl; [|done..].
  destruct (isBindRequestIQ iq); [by apply handleBindIQ_inv|].
  match goal with |- server_inv V (?m w).1 => enough (wkept m) as Hk end.
  { eapply server_inv_keeps; [apply Hk|done|done]. }
  pose proof wkept_routeIQ. unfold get_own. wkept. done.
Qed.

Lemma serve_input_inv V se sid i w c :
  server_inv V w → conns w !! sid = Some c →
  (∀ u p t, presents i u p → store w = Some t → accounts t !! u = Some p → V sid u) →
  server_inv V (serve_input sha256 unicode cfg se sid i w).1.
Proof.
  intros Hi Hc HV. unfold serve_input.
  assert (∀ m : WM (T := T) unit, wkept m → server_inv V (m w).1) as Hk.
  { intros m Hm. eapply server_inv_keeps; [apply Hm|done|done]. }
  destruct i as [[n a cs|s|]|a|]; try done.
  2: { apply Hk. unfold get_own. wkept. }
  case_bool_decide; [apply Hk; wkept|]. case_bool_decide as Hn.
  2: { case_bool_decide; [apply Hk, wkept_handleMessage|].
       case_bool_decide; [apply Hk, wkept_handlePresence|]. case_bool_decide; [by apply handleIQ_inv|done]. }
  subst n. unfold own. rewrite Hc.
  destruct (handleSASLAuth _ _ _ _ _) as [[c' st'] r] eqn:E.
  apply handleSASLAuth_cases in E as [-> [HK|(Ha & u & p & t & Hp & Ht & Hacc & A1 & A2 & A3 & A4 & A5)]]; simpl.
  - eapply server_inv_update; [done| | |done].
    + eapply conn_inv_keeps; [done| |by apply (si_conn _ _ Hi)]. done.
    + destruct HK as [K1 _ _ K4 _]. by rewrite K1, K4.
  - eapply server_inv_update; [done| |congruence|done].
    destruct (si_conn _ _ Hi _ _ Hc) as [_ C2 C3 _].
    destruct (plain_credentials_user _ _ _ _ Hp) as [Hu1 Hu2].
    split; [intros _|done|congruence|congruence]. rewrite A4, A5. split_and!; eauto.
    eapply HV; [by exists a, cs|done|done].
Qed.

Lemma verified_snoc w0 evs ev sid u : verified w0 evs sid u → verified w0 (evs ++ [ev]) sid u.
Proof.
  intros (pre & se & i & post & p & t & -> & ?). exists pre, se, i, (post ++ [ev]), p, t.
  split; [by rewrite <- app_assoc|done].
Qed.

Lemma new_conn_inv V peer secure : conn_inv V (new_conn cfg peer secure).
Proof. destruct secure; by split. Qed.

Lemma server_inv_open V w sid peer secure :
  conns w !! sid = None → server_inv V w →
  server_inv V (mkWorld (<[sid := new_conn cfg peer secure]> (conns w)) (router w) (store w)).
Proof.
  intros Hn [H1 H2 H3]. assert (∀ s c, conns w !! s = Some c →
    <[sid := new_conn cfg peer secure]> (conns w) !! s = Some c) as Hfw.
  { intros s c Hc. by rewrite lookup_insert_ne by congruence. }
  split; simpl.
  - intros s c. destruct (decide (s = sid)) as [->|Hs].
    + rewrite lookup_insert_eq. intros [= <-]. apply new_conn_inv.
    + rewrite lookup_insert_ne by done. apply H1.
  - intros f s (c & r & ? & ? & ->)%H2. exists c, r. auto.
  - intros b f s (c & ? & ? & ->)%H3. exists c. auto.
Qed.

Lemma server_step_inv w0 evs ev :
  server_inv (verified w0 evs) (server_run evs w0) →
  server_inv (verified w0 (evs ++ [ev])) (server_step (server_run evs w0) ev).
Proof.
  intros Hi. apply (server_inv_mono _ (verified w0 (evs ++ [ev]))) in Hi; [|intros; by apply verified_snoc].
  set (w := server_run evs w0) in *. destruct ev as [sid peer secure|sid se i|sid]; simpl.
  - destruct (conns w !! sid) as [c|] eqn:Hc; [done|]. by apply server_inv_open.
  - destruct (conns w !! sid) as [c|] eqn:Hc; [|done]. destruct (ss_closed (c_session c)); [done|].
    assert (server_inv (verified w0 (evs ++ [ERecv sid se i]))
      (serve_input sha256 unicode cfg se sid i w).1) as Hs.
    { apply (serve_input_inv _ _ _ _ _ c); [done..|]. intros u p t Hp Ht Ha.
      exists evs, se, i, [], p, t. split_and!; auto. }
    destruct (serve_input _ _ _ _ _ _ w) as [w' [[]|e|]]; [done|by apply finish_inv|done].
  - destruct (conns w !! sid) as [c|] eqn:Hc; [|done]. destruct (ss_closed (c_session c)); [done|].
    by apply finish_inv.
Qed.

Lemma server_run_inv evs t : server_inv (verified (server_start t) evs) (server_run evs (server_start t)).
Proof.
  induction evs as [|ev evs IH] using rev_ind.
  - split; simpl; [intros sid c; by rewrite lookup_empty|intros f sid; by rewrite lookup_empty|].
    intros b f sid. unfold nget. by rewrite lookup_empty.
  - unfold XmppdStream.server_run. rewrite fold_left_app. by apply server_step_inv.
Qed.

(** C1: nobody acts or is reached under an identity whose password was not
    given.  In every state the server can reach from start-up, through any
    interleaving of connections, elements, clock readings and random values: a
    session that is authenticated or ready has, earlier on that same
    connection, presented the password that the account store held at that
    moment for the session's user, and its address is that user's at the
    server's domain; and every session that the router finds for a destination
    is such a session, and the destination is an address of its user. *)
Theorem identities_are_verified evs t :
  let w0 := server_start t in
  let w := server_run evs w0 in
  (∀ sid c, conns w !! sid = Some c → authenticated c = true ∨ ready c = true →
     verified w0 evs sid (c_user c) ∧ ∃ r, ss_remote (c_session c) = user_at (c_user c) r) ∧
  (∀ it to sid, iteration_ok it → sid ∈ targets it to (router w) →
     ∃ c r, conns w !! sid = Some c ∧ verified w0 evs sid (c_user c) ∧
            JID_String to = JID_String (user_at (c_user c) r)).
Proof.
  intros w0 w. pose proof (server_run_inv evs t) as [H1 H2 H3]. fold w0 w in H1, H2, H3. split.
  - intros sid c Hc Hf. destruct (H1 _ _ Hc) as [C1 C2 _ _].
    assert (authenticated c = true) as Ha by (destruct Hf; auto). destruct (C1 Ha) as (? & _ & _ & ?). auto.
  - intros it to sid Hit Hin. unfold targets in Hin. destruct (Jid.IsZero to); [by apply elem_of_nil in Hin|].
    destruct (IsFull to) eqn:Hfull.
    + destruct (byFull (router w) !! JID_String to) as [s|] eqn:E; [|by apply elem_of_nil in Hin].
      apply list_elem_of_singleton in Hin as ->. apply H2 in E as (c & r & Hc & Ha & ->).
      exists c, r. split_and!; auto. by apply (H1 _ _ Hc).
    + destruct (byBare (router w) !! JID_String (Bare to)) as [m|] eqn:E; [|by apply elem_of_nil in Hin].
      apply elem_of_visit in Hin as [f Hm]; [|done].
      assert (nget (byBare (router w)) (JID_String (Bare to)) f = Some sid) as Hn
        by (unfold nget; by rewrite E).
      apply H3 in Hn as (c & Hc & Ha & Hs). exists c, "". split_and!; [done|by apply (H1 _ _ Hc)|].
      rewrite <- Hs. unfold IsFull in Hfull. apply bool_decide_eq_false in Hfull.
      destruct to as [l d r]. simpl in *. by destruct (decide (r = "")) as [->|].
Qed.
End security.
