(* ===== verification/XmppdLogin.v ===== *)
(** * Logging in, delivery and answers: end-to-end behaviour of the server

    The client's PLAIN message against the server's checks, what a ready and a
    not yet ready session can do, and how many answers an iq gets; with a
    concrete run of the server on the in-memory store. *)

From Stdlib Require Import Ascii String NArith.
From S2P Require Import Prelude GoStrings Bytes Base64 Xml Jid Stanza Sasl Session Storage MemoryStorage UserStore XmppdRegistration XmppdRouter XmppdStream XmppdSecurity.

Open Scope string_scope.
Open Scope list_scope.

(** ** Text without white space *)

Lemma enc6_graphic n : (n < 64)%N → graphic (enc6 n) = true.
Proof.
  intros Hn. assert (Forall (λ k, graphic (enc6 (N.of_nat k)) = true) (seq 0 64)) as Hall
    by (apply (bool_decide_unpack _); by vm_compute).
  rewrite <- (N2Nat.id n). apply (proj1 (Forall_forall _ _) Hall). apply elem_of_seq. lia.
Qed.

Lemma encode_graphic b : Forall (λ c, graphic c = true) (encode b).
Proof.
  assert (graphic pad = true) as Hp by done.
  induction b as [|x|x y|x y z b IH] using triples_ind; [constructor|..]; byte_bounds; cbn [encode];
    repeat (constructor; [first [exact Hp | apply enc6_graphic; byte_arith]|]); try exact IH; constructor.
Qed.

Lemma TrimSpace_EncodeToString b : TrimSpace (EncodeToString b) = EncodeToString b.
Proof.
  apply TrimSpace_graphic. intros c Hc%has_byte_In. unfold EncodeToString in Hc.
  rewrite list_ascii_of_string_of_list_ascii in Hc. apply list_elem_of_In in Hc.
  by apply (proj1 (Forall_forall _ _) (encode_graphic b)) in Hc.
Qed.

Lemma SplitN_plain a u p :
  has_byte "000" a = false → has_byte "000" u = false →
  SplitN (a +:+ NUL +:+ u +:+ NUL +:+ p) "000" 3 = [a; u; p].
Proof.
  intros Ha Hu. cbn [SplitN].
  change (a +:+ NUL +:+ u +:+ NUL +:+ p) with (a +:+ String "000" (u +:+ String "000" p)).
  rewrite IndexByte_app by done. rewrite str_take_app, str_drop_sep. f_equal.
  rewrite IndexByte_app by done. by rewrite str_take_app, str_drop_sep.
Qed.

(** ** Logging in *)

Section login.
Context {T : Type} `{UserStoreLaws T accounts}.
Context (sha256 : Hash) (unicode : string -> string) (cfg : ServerConfig).

(** The element in which a client sends its initial response. *)
Definition auth_element (mechanism : string) (response : bytes) : node :=
  Elem (mkName ns_SASL "auth") [attr "xmlns" ns_SASL; attr "mechanism" mechanism]
    [Text (EncodeToString response)].

Lemma plain_credentials_client c :
  has_byte "000" (c_AuthzID c) = false → has_byte "000" (c_Username c) = false →
  c_Username c ≠ "" → TrimSpace (c_Username c) = c_Username c →
  ∀ response, (Plain_Start (NewPlain c)).2 = Ok response →
  plain_credentials unicode "PLAIN" (EncodeToString response) = inr (c_Username c, c_Password c).
Proof.
  intros Ha Hu Hne Ht response Hr.
  assert (response = to_bytes (c_AuthzID c +:+ NUL +:+ c_Username c +:+ NUL +:+ c_Password c)) as ->
    by (by injection Hr as <-).
  unfold plain_credentials.
  rewrite bool_decide_false by (vm_compute; by intros []).
  rewrite TrimSpace_EncodeToString, DecodeString_EncodeToString, of_to_bytes, SplitN_plain by done.
  rewrite Ht. by rewrite bool_decide_false.
Qed.

(** What success leaves of a connection. *)
Definition logged_in (u : string) (c : Conn) : Conn :=
  let s := SetState StateAuthenticated (SetRemoteAddr (mkJID u (Domain cfg) "") (c_session c)) in
  mkConn (wrote (element (mkName ns_SASL "success") [] []) s) u (c_limiter c) (c_peer c).

(** C37: a client that runs the library's PLAIN mechanism with the password of an
    account gets in, on the server it is meant for.  For every account of the
    store whose name the address rules accept and which has no white space
    around it, any password (NUL bytes included) and any authorization identity,
    on every open connection that is not authenticated yet: the server reads
    back exactly the user and password, answers success, and marks the session
    as authenticated with the user's address; nothing else changes.  This does
    not depend on the stream being secure: the server accepts the password
    although it announces STARTTLS as required. *)
Theorem plain_login sid se w c t cr response :
  conns w !! sid = Some c → store w = Some t → is_open (c_session c) → authenticated c = false →
  accounts t !! c_Username cr = Some (c_Password cr) →
  has_byte "000" (c_AuthzID cr) = false → has_byte "000" (c_Username cr) = false →
  c_Username cr ≠ "" → TrimSpace (c_Username cr) = c_Username cr →
  Jid.New (c_Username cr) (Domain cfg) "" = Ok (mkJID (c_Username cr) (Domain cfg) "") →
  (Plain_Start (NewPlain cr)).2 = Ok response →
  server_step sha256 unicode cfg w (ERecv sid se (INode (auth_element "PLAIN" response))) =
  mkWorld (<[sid := logged_in (c_Username cr) c]> (conns w)) (router w) (store w).
Proof.
  intros Hc Hst Ho Ha Hacc Hz Hu Hne Ht Hj Hr. unfold server_step. rewrite Hc, (proj1 Ho).
  unfold serve_input, auth_element. rewrite bool_decide_false, bool_decide_true by done.
  unfold own. rewrite Hc, Hst.
  unfold handleSASLAuth. rewrite flag_authenticated, Ha.
  change (attr_string "mechanism" [attr "xmlns" ns_SASL; attr "mechanism" "PLAIN"] "") with "PLAIN".
  rewrite chardata_text, (plain_credentials_client cr) by done.
  rewrite (auth_match _ _ _ Hacc), Hj. unfold mbnd, update, on_session.
  rewrite (SendElement_ok _ (element (mkName ns_SASL "success") [] [])); [|done|].
  - cbn. rewrite ?Hst. by destruct c.
  - apply emits_encode_element; [done|apply emits_ok].
Qed.

(** ** Delivery *)

(** What [dst.Send(ctx, st)] makes of the destination's connection. *)
Definition receives (st : Stanza) (c : Conn) : Conn := (on_session (T := T) (Send st) (c, None)).1.1.

Lemma receives_open st c :
  is_open (c_session c) → error_ok (stanza_error st) →
  receives st c = set_session (wrote (node_tokens (stanza_node st)) (c_session c)) c.
Proof. intros Ho He. unfold receives, on_session. by rewrite Send_ok. Qed.

Lemma deliver_spec dst st (w : World T) :
  deliver dst st w =
  mkWorld (match conns w !! dst with Some c => <[dst := receives st c]> (conns w) | None => conns w end)
    (router w) (store w).
Proof.
  unfold deliver, own, receives, on_session. destruct (conns w !! dst) as [c|]; [|by destruct w].
  by destruct (Send st (c_session c)).
Qed.

Lemma receives_closed st c : ss_closed (c_session c) = true → receives st c = c.
Proof. intros Hc. unfold receives, on_session, Send, locked_write. rewrite Hc. by destruct c. Qed.

(** How often a session stands in a list of destinations. *)
Definition occurrences (s : nat) (ds : list nat) : nat := count_occ Nat.eq_dec ds s.

Lemma deliver_all_spec src ds st (w : World T) :
  router (deliver_all src ds st w) = router w ∧ store (deliver_all src ds st w) = store w ∧
  ∀ s, conns (deliver_all src ds st w) !! s =
       (if bool_decide (s = src) then id else Nat.iter (occurrences s ds) (receives st)) <$> conns w !! s.
Proof.
  revert w. induction ds as [|d ds IH]; intros w; simpl.
  { split_and!; [done..|]. intros s. by case_bool_decide; destruct (conns w !! s). }
  case_bool_decide as Hs.
  - destruct (IH w) as (-> & -> & IHc). split_and!; [done..|]. intros s. rewrite IHc. subst d. cbn.
    destruct (Nat.eq_dec src s) as [->|Hn]; [by rewrite !bool_decide_true|done].
  - destruct (IH (deliver d st w)) as (-> & -> & IHc). rewrite deliver_spec in *. split_and!; [done..|].
    intros s. rewrite IHc. cbn. destruct (Nat.eq_dec d s) as [->|Hn].
    + rewrite !(bool_decide_false (s = src)) by done.
      destruct (conns w !! s) as [c|] eqn:E; [rewrite lookup_insert_eq; cbn; by rewrite <- Nat.iter_succ_r|by rewrite E].
    + destruct (conns w !! d); [by rewrite lookup_insert_ne|done].
Qed.

(** A message as it leaves the router: the sender's address is filled in. *)
Definition stamped (c : Conn) (m : Message) : Stanza :=
  SMessage (mkMessage (stamp_from c (m_Header m)) (m_Subject m) (m_Body m) (m_Thread m)
              (m_Error m) (m_Extensions m)).

Lemma step_message w sid se n attrs cs c m :
  conns w !! sid = Some c → ss_closed (c_session c) = false → ready c = true →
  Local n = "message" → decode_Message attrs cs = Ok m →
  server_step sha256 unicode cfg w (ERecv sid se (INode (Elem n attrs cs))) =
  deliver_all sid (targets (se_it se) (h_To (m_Header m)) (router w)) (stamped c m) w.
Proof.
  intros Hc Ho Hr Hn Hm. unfold server_step. rewrite Hc, Ho. unfold serve_input.
  rewrite !(bool_decide_false (n = _)) by (intros ->; done). rewrite bool_decide_true by done.
  unfold handleMessage. rewrite Hm. unfold mbnd at 1. cbn [decoded mok]. unfold mbnd at 1.
  rewrite (get_own_Some _ _ _ Hc), flag_ready, Hr. simpl. unfold routeMessage, mbnd at 1.
  rewrite (get_own_Some _ _ _ Hc). simpl. unfold stamped, stamp_from. by destruct (Jid.IsZero (h_From (m_Header m))).
Qed.

(** What [k] deliveries of a message leave of a connection: [k] times its element
    when the session accepts writes, nothing when it is closed. *)
Lemma deliveries_open st k c :
  is_open (c_session c) → error_ok (stanza_error st) →
  Nat.iter k (receives st) c = set_session (Nat.iter k (wrote (node_tokens (stanza_node st))) (c_session c)) c.
Proof.
  intros Ho He.
  assert (∀ j, is_open (Nat.iter j (wrote (node_tokens (stanza_node st))) (c_session c))) as Hj
    by (intros j; induction j; [done|rewrite Nat.iter_succ; by apply is_open_wrote]).
  induction k as [|k IH]; [by destruct c|]. rewrite !Nat.iter_succ, IH. by rewrite receives_open by (apply Hj || done).
Qed.
Lemma deliveries_closed st k c : ss_closed (c_session c) = true → Nat.iter k (receives st) c = c.
Proof. intros Hc. induction k as [|k IH]; [done|]. by rewrite Nat.iter_succ, IH, receives_closed. Qed.

(** C4: where a message of a ready session goes.  For every message the server
    decodes, in every state and with no condition on the router: a connection
    other than the sender's gets the message exactly as often as the router lists
    its session for the destination (a session that has bound two resources of a
    bare address is listed, and served, twice); if the session accepts writes and
    the message carries no error, each delivery appends exactly one element, the
    decoded message with the sender's address filled in when it had none; a
    closed session is left as it is.  The sender's own connection, every session
    that is not listed, the router and the accounts are unchanged.  (An address
    that the client put into the message itself is passed on.) *)
Theorem message_delivery w sid se n attrs cs c m :
  conns w !! sid = Some c → ss_closed (c_session c) = false → ready c = true →
  Local n = "message" → decode_Message attrs cs = Ok m →
  let ds := targets (se_it se) (h_To (m_Header m)) (router w) in
  let w' := server_step sha256 unicode cfg w (ERecv sid se (INode (Elem n attrs cs))) in
  (∀ s c', s ≠ sid → conns w !! s = Some c' →
     conns w' !! s = Some (Nat.iter (occurrences s ds) (receives (stamped c m)) c') ∧
     (is_open (c_session c') → m_Error m = None →
        conns w' !! s = Some (set_session (Nat.iter (occurrences s ds)
                                (wrote (node_tokens (stanza_node (stamped c m)))) (c_session c')) c')) ∧
     (ss_closed (c_session c') = true → conns w' !! s = Some c')) ∧
  (∀ s, s ∉ ds ∨ s = sid → conns w' !! s = conns w !! s) ∧
  router w' = router w ∧ store w' = store w ∧
  h_From (GetHeader (stamped c m)) =
    (if Jid.IsZero (h_From (m_Header m)) then ss_remote (c_session c) else h_From (m_Header m)).
Proof.
  intros Hc Ho Hr Hn Hm ds w'. subst w'. rewrite (step_message _ _ _ _ _ _ c m) by done.
  destruct (deliver_all_spec sid ds (stamped c m) w) as (HR & HS & HC). fold ds. split_and!; [| |done|done|].
  - intros s c' Hne Hc'. rewrite HC, Hc', bool_decide_false by done. cbn. split; [done|]. split.
    + intros Hop He. rewrite deliveries_open; [done|done|]. cbn. by rewrite He.
    + intros Hcl. by rewrite deliveries_closed.
  - intros s Hs. rewrite HC. case_bool_decide as E; [by destruct (conns w !! s)|]. destruct Hs as [Hs|Hs]; [|done].
    assert (occurrences s ds = 0) as ->; [|by destruct (conns w !! s)].
    apply count_occ_not_In. by rewrite <- list_elem_of_In.
  - simpl. unfold stamp_from. by destruct (Jid.IsZero (h_From (m_Header m))).
Qed.

(** ** Sessions that are not ready *)

(** [only sid m]: the handler changes no other connection. *)
Definition only {A} (sid : nat) (m : WM (T := T) A) : Prop :=
  ∀ w s, s ≠ sid → conns (m w).1 !! s = conns w !! s.

Lemma only_bind {A B} sid (m : WM (T := T) A) (k : A → WM B) :
  only sid m → (∀ a, only sid (k a)) → only sid (mbnd m k).
Proof.
  intros Hm Hk w s Hs. unfold mbnd. specialize (Hm w s Hs). destruct (m w) as [w1 [a|e|]]; simpl in *; [|done|done].
  by rewrite Hk.
Qed.
Lemma only_ok {A} sid (a : A) : only sid (mok a).
Proof. by intros w s. Qed.
Lemma only_own {A} sid (m : CM (T := T) A) : only sid (own sid m).
Proof.
  intros w s Hs. unfold own. destruct (conns w !! sid); [|done].
  destruct (m _) as [[c' st'] r]. simpl. by rewrite lookup_insert_ne.
Qed.
Lemma only_register sid j x : only sid (register_session j x).
Proof. by intros w s. Qed.
Lemma only_decoded {A} sid (r : res decode_error A) : only sid (decoded r).
Proof. by destruct r; intros w s. Qed.
#[local] Hint Resolve only_ok only_own only_register only_decoded : go.

Local Ltac only_own_conn :=
  repeat first [ apply only_bind; [|intros ?] | progress auto with go | case_match ].

Lemma only_handleBindIQ se sid iq : only sid (handleBindIQ cfg se sid iq).
Proof. unfold handleBindIQ, get_own. only_own_conn. Qed.

Lemma finish_only sid s (w : World T) : s ≠ sid → conns (finish sid w) !! s = conns w !! s.
Proof. intros Hs. unfold finish. destruct (conns w !! sid); [|done]. simpl. by rewrite lookup_insert_ne. Qed.

(** The iq handler of a session that is not ready, past binding: the answer of
    the registration handler, if any, then a refusal. *)
Definition unready_iq (se : StepEnv) (iq : IQ) : CM (T := T) unit :=
  (do_ Handle sha256 unicode (Registration cfg) (se_env se) iq;
   if is_request iq then reply_error iq "auth" "not-authorized" "authenticate and bind first"
   else mok tt)%go.

Lemma own_lookup {A} sid (m : CM (T := T) A) w c :
  conns w !! sid = Some c → conns (own sid m w).1 !! sid = Some (m (c, store w)).1.1.
Proof. intros Hc. unfold own. rewrite Hc. destruct (m _) as [[c' st'] r]. simpl. apply lookup_insert_eq. Qed.

Lemma handleIQ_unready se sid attrs cs w c iq :
  conns w !! sid = Some c → ready c = false → decode_IQ attrs cs = Ok iq → isBindRequestIQ iq = false →
  handleIQ sha256 unicode cfg se sid attrs cs w = own sid (unready_iq se iq) w.
Proof.
  intros Hc Hr Hd Hb. unfold handleIQ, mbnd at 1. rewrite Hd. cbn [decoded mok]. rewrite Hb.
  pose proof (kept_Handle sha256 unicode (se_env se) (Registration cfg) iq c (store w)) as Hk.
  unfold mbnd, unready_iq, mbnd, own. rewrite Hc.
  destruct (Handle _ _ _ _ iq (c, store w)) as [[c1 st1] [[]|e|]]; [|done|done].
  destruct Hk as [_ _ K3 _ _]. simpl in K3. unfold get_own, own. simpl. rewrite lookup_insert_eq. simpl.
  rewrite flag_ready, K3, Hr. simpl. rewrite insert_insert_eq.
  destruct (is_request iq); [|done]. unfold own. simpl. rewrite lookup_insert_eq.
  destruct (Send _ (c_session c1)) as [s r2]. by rewrite insert_insert_eq.
Qed.

(** C18: until a session is ready, nothing it sends reaches anybody else.
    Whatever such a connection sends (stream headers, STARTTLS, SASL, stanzas of
    any kind, anything else, malformed stanzas included), the server writes to no
    other connection and changes no other session's state. *)
Theorem unready_is_isolated w sid se i c :
  conns w !! sid = Some c → ready c = false →
  ∀ s, s ≠ sid → conns (server_step sha256 unicode cfg w (ERecv sid se i)) !! s = conns w !! s.
Proof.
  intros Hc Hr s Hs. simpl. rewrite Hc. destruct (ss_closed (c_session c)); [done|].
  assert (conns (serve_input sha256 unicode cfg se sid i w).1 !! s = conns w !! s) as Hin.
  2: { destruct (serve_input _ _ _ _ _ _ w) as [w' [[]|e|]]; [done|by rewrite finish_only|done]. }
  assert (∀ m : WM (T := T) unit, only sid m → conns (m w).1 !! s = conns w !! s) as Honly
    by (intros m Hm; by apply Hm).
  unfold serve_input. destruct i as [[n a cs|x|]|a|]; try done.
  2: { apply Honly. unfold get_own. only_own_conn. }
  case_bool_decide; [apply Honly, only_own|]. case_bool_decide; [apply Honly, only_own|].
  case_bool_decide; [|case_bool_decide; [|case_bool_decide; [|done]]].
  - unfold handleMessage, mbnd at 1. destruct (decode_Message a cs); [|done|done]. simpl.
    unfold mbnd. rewrite (get_own_Some _ _ _ Hc), flag_ready, Hr. done.
  - unfold handlePresence, mbnd at 1. destruct (decode_Presence a cs); [|done|done]. simpl.
    unfold mbnd. rewrite (get_own_Some _ _ _ Hc), flag_ready, Hr. done.
  - destruct (decode_IQ a cs) as [iq|e|] eqn:Hd.
    + destruct (isBindRequestIQ iq) eqn:Hb.
      * unfold handleIQ, mbnd at 1. rewrite Hd. simpl. rewrite Hb. by apply only_handleBindIQ.
      * rewrite (handleIQ_unready _ _ _ _ _ c iq) by done. by apply only_own.
    + unfold handleIQ, mbnd at 1. by rewrite Hd.
    + unfold handleIQ, mbnd at 1. by rewrite Hd.
Qed.

(** The answers to a request on a session that is not ready.  A [get] or
    [set] iq (other than a bind request) that is not a registration query gets
    exactly one answer, the error not-authorized.  A registration query, which
    is meant for exactly this phase, gets two answers with the same id: the
    registration handler's (a result when it succeeds), and then the same
    not-authorized error as any other request. *)
Theorem unready_request_answers w sid se n attrs cs c t iq :
  conns w !! sid = Some c → store w = Some t → is_open (c_session c) → ready c = false →
  n = mkName ns_Client "iq" → decode_IQ attrs cs = Ok iq → is_request iq = true →
  isBindRequestIQ iq = false →
  let refusal := node_tokens (stanza_node (SIQ (ErrorIQ iq
    (NewStanzaError "auth" "not-authorized" "authenticate and bind first")))) in
  ∃ c' first,
    conns (server_step sha256 unicode cfg w (ERecv sid se (INode (Elem n attrs cs)))) !! sid = Some c' ∧
    sent (ss_writer (c_session c')) = sent (ss_writer (c_session c)) ++ map Tok (first ++ refusal) ∧
    match decode_Query (iq_Query iq) with
    | Some _ => ∃ typ, reply_to iq typ first ∧ (typ = IQResult ∨ typ = IQError)
    | None => first = []
    end.
Proof.
  intros Hc Hst Ho Hr -> Hd Hreq Hb refusal. simpl. rewrite Hc, (proj1 Ho).
  rewrite (handleIQ_unready _ _ _ _ _ c iq) by done. unfold own. rewrite Hc, Hst.
  unfold unready_iq, mbnd. rewrite Hreq.
  assert (∀ c1 t1, is_open (c_session c1) →
    reply_error (T := T) iq "auth" "not-authorized" "authenticate and bind first" (c1, t1) =
    ((set_session (wrote refusal (c_session c1)) c1, t1), Ok tt)) as Hreply.
  { intros c1 t1 Ho1. unfold reply_error, on_session. by rewrite Send_ok. }
  destruct (decode_Query (iq_Query iq)) as [q|] eqn:Hq.
  - assert (iq_Type iq = IQGet ∨ iq_Type iq = IQSet) as Ht
      by (unfold is_request in Hreq; apply orb_true_iff in Hreq; by rewrite !bool_decide_eq_true in Hreq).
    pose proof (Handle_answered sha256 unicode (Registration cfg) (se_env se)
      iq q c (Some t) (laws_never_panic (accounts := accounts)) Hq Ht Ho) as Heff.
    destruct (Allow _ _ _ _) as [l ok]. destruct Heff as (first & E & Hfirst).
    rewrite E, Hreply by by apply is_open_wrote. cbn [fst].
    eexists _, first. split; [apply lookup_insert_eq|]. split; [|eauto using outcome_types].
    cbn [c_session set_session set_limiter wrote_on]. by rewrite !sent_wrote, map_app, app_assoc.
  - assert (Handle sha256 unicode (Registration cfg) (se_env se) iq (c, Some t) = ((c, Some t), Ok tt)) as ->.
    { unfold Handle. case_bool_decide; [done|]. destruct (iq_Query iq); [done|]. by rewrite Hq. }
    rewrite Hreply by done. eexists _, []. split; [apply lookup_insert_eq|]. split; [|done].
    cbn [c_session set_session]. by rewrite sent_wrote.
Qed.
End login.

(** ** A run of the server on the in-memory store *)

Module ServerExample.

Definition sha256 : Hash := SaslExample.toy.
Definition unicode (s : string) : string := s.
Definition cfg : ServerConfig :=
  mkServerConfig "example.org" true (mkRegConfig "open" ["username"; "password"] ∅ ∅ 5 60 4096 true "").
Definition se : StepEnv :=
  mkStepEnv (mkEnv 100 100 (Some (to_bytes "0123456789abcdef"))) true (Some (to_bytes "r"))
    (Some (to_bytes "s")) RouterExample.it.
Definition step := server_step (T := MemoryStorage.Store) sha256 unicode cfg.
Definition run := server_run (T := MemoryStorage.Store) sha256 unicode cfg.

Definition user (u p : string) : User := mkUser u p "" 0 "" "" 0 0.
Definition db : MemoryStorage.Store :=
  (CreateUser 1 (user "bob" "pw") (CreateUser 1 (user "alice" "secret") MemoryStorage.New).1).1.
Definition start : World MemoryStorage.Store := server_start (Some db).

Definition login (sid : nat) (u p : string) : event :=
  ERecv sid se (INode (auth_element "PLAIN" (to_bytes ("" +:+ NUL +:+ u +:+ NUL +:+ p)))).
Definition bind (sid : nat) (resource : string) : event :=
  ERecv sid se (INode (Elem (mkName ns_Client "iq") [attr "type" "set"; attr "id" "b1"]
    [Elem (mkName ns_Bind "bind") [attr "xmlns" ns_Bind]
       [Elem (mkName "" "resource") [] [Text resource]]])).
Definition chat_attrs : list Attr := [attr "to" "bob@example.org/phone"; attr "id" "m1"].
Definition chat_body : list node := [Elem (mkName ns_Client "body") [] [Text "hi"]].
Definition chat : event := ERecv 1 se (INode (Elem (mkName ns_Client "message") chat_attrs chat_body)).

Definition session (sid : nat) (u p r : string) : list event :=
  [EOpen sid (Some "192.0.2.1:1") false; login sid u p; bind sid r].
Definition evs : list event := session 1 "alice" "secret" "desk" ++ session 2 "bob" "pw" "phone".
Definition w : World MemoryStorage.Store := Eval vm_compute in run evs start.

Lemma w_run : run evs start = w.
Proof. vm_compute. reflexivity. Qed.

Lemma identities_are_verified_witness :
  ∃ c, conns (run evs start) !! 1 = Some c ∧ ready c = true ∧
       verified (accounts := memory_accounts) sha256 unicode cfg start evs 1 (c_user c).
Proof.
  destruct (conns w !! 1) as [c|] eqn:E; [|vm_compute in E; discriminate].
  assert (ready c = true) as Hr by (vm_compute in E; injection E as <-; reflexivity).
  exists c. rewrite w_run. split_and!; [done|done|].
  apply (identities_are_verified (accounts := memory_accounts) sha256 unicode cfg evs (Some db)); [|auto].
  change (conns (run evs start) !! 1 = Some c). by rewrite w_run.
Defined.

Definition w1 : World MemoryStorage.Store := Eval vm_compute in run [EOpen 1 None false] start.
Definition creds : Credentials := mkCredentials "alice" "secret" "" [] "".

(** The stream is not secure, and the server has a certificate. *)
Definition response : bytes := to_bytes ("" +:+ NUL +:+ "alice" +:+ NUL +:+ "secret").

Lemma plain_login_witness :
  server_step sha256 unicode cfg w1 (ERecv 1 se (INode (auth_element "PLAIN" response))) =
  mkWorld (<[1 := logged_in cfg "alice" (new_conn cfg None false)]> (conns w1)) (router w1) (store w1).
Proof.
  refine (plain_login (accounts := memory_accounts) sha256 unicode cfg 1 se w1 (new_conn cfg None false) db creds
    response _ _ _ _ _ _ _ _ _ _ _); try (vm_compute; reflexivity); first [by split | discriminate].
Defined.

Definition msg : Message :=
  mkMessage (mkHeader no_name "m1" JID_zero (mkJID "bob" "example.org" "phone") "" "") "" "hi" "" None [].

Lemma message_delivery_witness :
  ∃ c c2, conns w !! 1 = Some c ∧ conns w !! 2 = Some c2 ∧
    conns (step w chat) !! 2 =
      Some (set_session (wrote (node_tokens (stanza_node (stamped c msg))) (c_session c2)) c2) ∧
    h_From (GetHeader (stamped c msg)) = mkJID "alice" "example.org" "desk".
Proof.
  destruct (conns w !! 1) as [c|] eqn:E; [|vm_compute in E; discriminate].
  destruct (conns w !! 2) as [c2|] eqn:E2; [|vm_compute in E2; discriminate].
  assert (ss_closed (c_session c) = false ∧ ready c = true ∧ ss_remote (c_session c) = mkJID "alice" "example.org" "desk")
    as (H1 & H2 & H3) by (vm_compute in E; injection E as <-; by split_and!).
  assert (is_open (c_session c2)) as H4 by (vm_compute in E2; injection E2 as <-; by split).
  assert (targets (se_it se) (h_To (m_Header msg)) (router w) = [2]) as Ht by (vm_compute; reflexivity).
  exists c, c2. split_and!; [done|done| |simpl; unfold stamp_from; simpl; done].
  destruct (message_delivery sha256 unicode cfg w 1 se
    (mkName ns_Client "message") chat_attrs chat_body c msg E H1 H2 eq_refl eq_refl) as [H5 _].
  destruct (H5 2 c2 ltac:(done) E2) as (_ & H6 & _). specialize (H6 H4 eq_refl). rewrite Ht in H6. exact H6.
Defined.

Definition w3 : World MemoryStorage.Store := Eval vm_compute in run [EOpen 3 None false] w.
Definition chat_input : input := INode (Elem (mkName ns_Client "message") chat_attrs chat_body).

Lemma unready_is_isolated_witness :
  ready (new_conn cfg None false) = false ∧
  conns (server_step sha256 unicode cfg w3 (ERecv 3 se chat_input)) !! 2 = conns w3 !! 2.
Proof.
  split; [reflexivity|].
  refine (unready_is_isolated sha256 unicode cfg w3 3 se chat_input (new_conn cfg None false) _ _ 2 _);
    [vm_compute; reflexivity|reflexivity|done].
Defined.

Definition form : list node :=
  [Elem (mkName ns_Register "query") [attr "xmlns" ns_Register]
     [Elem (mkName "" "username") [] [Text "carol"]; Elem (mkName "" "password") [] [Text "x"]]].
Definition reg_attrs : list Attr := [attr "type" "set"; attr "id" "r1"].
Definition reg_iq : IQ := mkIQ (mkHeader no_name "r1" JID_zero JID_zero "set" "") form None.

Lemma unready_request_answers_witness :
  ∃ c' first refusal typ,
    conns (server_step sha256 unicode cfg w1
      (ERecv 1 se (INode (Elem (mkName ns_Client "iq") reg_attrs form)))) !! 1 = Some c' ∧
    sent (ss_writer (c_session c')) = map Tok (first ++ refusal) ∧ reply_to reg_iq typ first.
Proof.
  edestruct (unready_request_answers (accounts := memory_accounts) sha256 unicode cfg w1 1 se
    (mkName ns_Client "iq") reg_attrs form (new_conn cfg None false) db reg_iq)
    as (c' & first & H1 & H2 & typ & H3 & _); try (vm_compute; reflexivity); [by split|].
  exists c', first. eexists _, typ. split_and!; [exact H1|exact H2|exact H3].
Defined.

(** Binding a second resource leaves the first one in the router, also after
    the session has ended: stanzas to it go to a closed session. *)
Example rebinding_leaves_a_stale_route :
  let w' := run [bind 1 "mobile"; EEnd 1] w in
  targets (se_it se) (mkJID "alice" "example.org" "desk") (router w') = [1] ∧
  (ss_closed ∘ c_session) <$> conns w' !! 1 = Some true.
Proof. vm_compute. by split. Qed.

(** Two sessions of one user that bind the same resource share one entry of the
    router: when the first ends, the second is no longer reachable. *)
Example same_resource_unregisters_the_other :
  let w' := run (session 3 "alice" "secret" "desk" ++ [EEnd 1]) w in
  targets (se_it se) (mkJID "alice" "example.org" "desk") (router w') = [] ∧
  (λ c, ready c && negb (ss_closed (c_session c))) <$> conns w' !! 3 = Some true.
Proof. vm_compute. by split. Qed.

(** A wrong password is answered as a temporary failure. *)
Example wrong_password_is_temporary :
  (λ c, wire (ss_writer (c_session c))) <$> conns (step w1 (login 1 "alice" "wrong")) !! 1 =
  Some [Raw ("<failure xmlns='" +:+ ns_SASL +:+ "'><temporary-auth-failure/></failure>")].
Proof. vm_compute. reflexivity. Qed.

End ServerExample.
