(* ===== verification/PluginRegistry.v ===== *)
(** * The plugins and the registry of xmppd (src/plugins, pluginRegistry of src/cmd/xmppd/plugins.go)

    What every plugin package says of itself: name, version, dependencies, and
    the part of the storage that its [Initialize] takes.  All of them keep the
    parameters they are given and none fails in [Initialize] or [Close]. *)

From Stdlib Require Import String.
From S2P Require Import Prelude PluginManager.

Open Scope string_scope.
Open Scope list_scope.

(** The parts of a storage that plugins use. *)
Inductive sub_store := SRoster | SBlocking | SVCard | SMAM | SMUC | SPubSub | SBookmarks.
#[export] Instance sub_store_eq_dec : EqDecision sub_store.
Proof. solve_decision. Defined.

Record PluginType := mkType {
  pt_Name : string; pt_Version : string; pt_Dependencies : list string; pt_store : option sub_store }.

(** [Initialize] with the storage of the parameters, given by the parts it has:
    the store the plugin then works on.  [nil] storage, or a storage without the
    part, leaves the plugin with its own memory. *)
Definition initialize (storage : option (sub_store → bool)) (t : PluginType) : option sub_store :=
  match storage, pt_store t with
  | Some has, Some s => if has s then Some s else None
  | _, _ => None
  end.

(** A plugin as its manager sees it. *)
Definition new_plugin (t : PluginType) : Plugin := mkPlugin (pt_Name t) (pt_Dependencies t) None None.

Definition avatar_plugin : PluginType := mkType "avatar" "1.0.0" [] None.
Definition blocking_plugin : PluginType := mkType "blocking" "1.0.0" [] (Some SBlocking).
Definition bob_plugin : PluginType := mkType "bob" "1.0.0" [] None.
Definition bookmarks_plugin : PluginType := mkType "bookmarks" "1.0.0" [] (Some SBookmarks).
Definition caps_plugin : PluginType := mkType "caps" "1.0.0" ["disco"] None.
Definition carbons_plugin : PluginType := mkType "carbons" "1.0.0" [] None.
Definition chatmarkers_plugin : PluginType := mkType "chatmarkers" "1.0.0" [] None.
Definition chatstates_plugin : PluginType := mkType "chatstates" "1.0.0" [] None.
Definition commands_plugin : PluginType := mkType "commands" "1.0.0" [] None.
Definition correction_plugin : PluginType := mkType "correction" "1.0.0" [] None.
Definition csi_plugin : PluginType := mkType "csi" "1.0.0" [] None.
Definition delay_plugin : PluginType := mkType "delay" "1.0.0" [] None.
Definition dialback_plugin : PluginType := mkType "dialback" "1.0.0" [] None.
Definition disco_plugin : PluginType := mkType "disco" "1.0.0" [] None.
Definition extdisco_plugin : PluginType := mkType "extdisco" "1.0.0" [] None.
Definition filetransfer_plugin : PluginType := mkType "filetransfer" "1.0.0" [] None.
Definition form_plugin : PluginType := mkType "form" "1.0.0" [] None.
Definition forward_plugin : PluginType := mkType "forward" "1.0.0" [] None.
Definition hash_plugin : PluginType := mkType "hash" "1.0.0" [] None.
Definition hints_plugin : PluginType := mkType "hints" "1.0.0" [] None.
Definition ibb_plugin : PluginType := mkType "ibb" "1.0.0" [] None.
Definition jingle_plugin : PluginType := mkType "jingle" "1.0.0" [] None.
Definition lastactivity_plugin : PluginType := mkType "lastactivity" "1.0.0" [] None.
Definition mam_plugin : PluginType := mkType "mam" "1.0.0" [] (Some SMAM).
Definition mix_plugin : PluginType := mkType "mix" "1.0.0" [] None.
Definition moderation_plugin : PluginType := mkType "moderation" "1.0.0" [] None.
Definition muc_plugin : PluginType := mkType "muc" "1.0.0" [] (Some SMUC).
Definition oob_plugin : PluginType := mkType "oob" "1.0.0" [] None.
Definition omemo_plugin : PluginType := mkType "omemo" "1.0.0" [] None.
Definition ping_plugin : PluginType := mkType "ping" "1.0.0" [] None.
Definition presence_plugin : PluginType := mkType "presence" "1.0.0" [] None.
Definition pubsub_plugin : PluginType := mkType "pubsub" "1.0.0" [] (Some SPubSub).
Definition push_plugin : PluginType := mkType "push" "1.0.0" [] None.
Definition reactions_plugin : PluginType := mkType "reactions" "1.0.0" [] None.
Definition receipts_plugin : PluginType := mkType "receipts" "1.0.0" [] None.
Definition register_plugin : PluginType := mkType "register" "1.0.0" [] None.
Definition retraction_plugin : PluginType := mkType "retraction" "1.0.0" [] None.
Definition roster_plugin : PluginType := mkType "roster" "1.0.0" [] (Some SRoster).
Definition rsm_plugin : PluginType := mkType "rsm" "1.0.0" [] None.
Definition sasl2_plugin : PluginType := mkType "sasl2" "1.0.0" [] None.
Definition sm_plugin : PluginType := mkType "sm" "1.0.0" [] None.
Definition socks5_plugin : PluginType := mkType "socks5" "1.0.0" [] None.
Definition stanzaid_plugin : PluginType := mkType "stanzaid" "1.0.0" [] None.
Definition styling_plugin : PluginType := mkType "styling" "1.0.0" [] None.
Definition time_plugin : PluginType := mkType "time" "1.0.0" [] None.
Definition upload_plugin : PluginType := mkType "upload" "1.0.0" [] None.
Definition vcard_plugin : PluginType := mkType "vcard" "1.0.0" [] (Some SVCard).
Definition version_plugin : PluginType := mkType "version" "1.0.0" [] None.

(** The keys of the registry with what their constructors make. *)
Definition registry : list (string * PluginType) :=
  [("avatar", avatar_plugin); ("blocking", blocking_plugin); ("bob", bob_plugin); ("bookmarks",
   bookmarks_plugin); ("caps", caps_plugin); ("carbons", carbons_plugin); ("chatmarkers", chatmarkers_plugin);
   ("chatstates", chatstates_plugin); ("commands", commands_plugin); ("correction", correction_plugin); ("csi",
   csi_plugin); ("delay", delay_plugin); ("dialback", dialback_plugin); ("disco", disco_plugin); ("extdisco",
   extdisco_plugin); ("filetransfer", filetransfer_plugin); ("form", form_plugin); ("forward", forward_plugin);
   ("hash", hash_plugin); ("hints", hints_plugin); ("ibb", ibb_plugin); ("jingle", jingle_plugin);
   ("lastactivity", lastactivity_plugin); ("mam", mam_plugin); ("mix", mix_plugin); ("moderation",
   moderation_plugin); ("muc", muc_plugin); ("oob", oob_plugin); ("omemo", omemo_plugin); ("ping", ping_plugin);
   ("presence", presence_plugin); ("pubsub", pubsub_plugin); ("push", push_plugin); ("reactions",
   reactions_plugin); ("receipts", receipts_plugin); ("register", register_plugin); ("retraction",
   retraction_plugin); ("roster", roster_plugin); ("rsm", rsm_plugin); ("sasl2", sasl2_plugin); ("sm",
   sm_plugin); ("socks5", socks5_plugin); ("stanzaid", stanzaid_plugin); ("styling", styling_plugin); ("time",
   time_plugin); ("upload", upload_plugin); ("vcard", vcard_plugin); ("version", version_plugin)].

(** Every plugin is registered under its own name, no name is used twice, and
    the only dependency is that of caps on disco. *)
Lemma registry_checked :
  NoDup (fst <$> registry) ∧ Forall (λ '(k, t), pt_Name t = k) registry ∧
  Forall (λ '(k, t), pt_Dependencies t = if bool_decide (k = "caps") then ["disco"] else []) registry.
Proof. split; [apply (bool_decide_unpack _); by vm_compute|]. split; repeat constructor. Qed.

(** Given a storage with every part, exactly seven plugins work on it, each on a
    part of its own. *)
Lemma stores_not_shared :
  let used := omap (λ '(k, t), pair k <$> initialize (Some (λ _, true)) t) registry in
  NoDup (snd <$> used) ∧ fst <$> used = ["blocking"; "bookmarks"; "mam"; "muc"; "pubsub"; "roster"; "vcard"].
Proof. split; [apply (bool_decide_unpack _); by vm_compute|done]. Qed.

(** ** The plugin contract (src/internal/testutil/pluginsmoke/pluginsmoke.go) *)

Inductive smoke := Passed | NoName | NoVersion | NoDependency (i : nat) | InitializeFailed (e : string) | CloseFailed (e : string).

Fixpoint empty_dependency (i : nat) (l : list string) : option nat :=
  match l with
  | [] => None
  | d :: l => if bool_decide (d = "") then Some i else empty_dependency (S i) l
  end.

(** [Run] on a plugin that is not nil. *)
Definition Run (t : PluginType) : smoke :=
  let p := new_plugin t in
  if bool_decide (pt_Name t = "") then NoName
  else if bool_decide (pt_Version t = "") then NoVersion
  else match empty_dependency 0 (pt_Dependencies t) with
       | Some i => NoDependency i
       | None => match Initialize_err p with
                 | Some e => InitializeFailed e
                 | None => match Close_err p with Some e => CloseFailed e | None => Passed end
                 end
       end.

Lemma registry_passes : Forall (λ '(_, t), Run t = Passed) registry.
Proof. repeat constructor. Qed.
