(* ===== verification/XmppdConfig.v ===== *)
(** * Starting xmppd (src/cmd/xmppd/config.go, main.go, plugins.go)

    The configuration read from the environment, the storage backend and the
    plugins it asks for, and the accounts created when the first session
    arrives. *)

From Stdlib Require Import Ascii String ZArith NArith.
From stdpp Require Import pretty.
From S2P Require Import Prelude GoStrings PluginManager Storage MemoryStorage Sasl Session Lifecycle UserStore XmppdRegistration XmppdLogin PluginRegistry.

Open Scope string_scope.
Open Scope list_scope.

(** ** Configuration *)

Record Account := mkAccount { acc_Username : string; acc_Password : string }.

Record Config := mkConfig {
  cfg_Domain : string; cfg_Addr : string; TLSCert : string; TLSKey : string; TLSSelfSigned : bool;
  TLSSelfSignedDir : string; cfg_Storage : string; StorageDSN : string; StoragePath : string; MongoDBName : string;
  cfg_Plugins : list string; DefaultAccounts : list Account; CapsNode : string; VersionName : string;
  VersionString : string; OMEMODeviceID : N; Registration : registrationConfig }.

Section Config.
(** Go's case mapping outside ASCII, [time.ParseDuration] (in nanoseconds), and
    the environment of the process: [os.Getenv] of an unset variable is empty. *)
Variables (unicode : string → string) (ParseDuration : string → option Z) (environ : gmap string string).

Definition Getenv (key : string) : string := default "" (environ !! key).

Definition getenv (key fallback : string) : string :=
  if bool_decide (Getenv key ≠ "") then Getenv key else fallback.

Definition getenvBool (key : string) (fallback : bool) : bool :=
  let v := Getenv key in
  if bool_decide (v = "") then fallback
  else let l := ToLower unicode v in
       if bool_decide (l ∈ ["1"; "true"; "yes"; "y"; "on"]) then true
       else if bool_decide (l ∈ ["0"; "false"; "no"; "n"; "off"]) then false
       else fallback.

Definition getenvInt (key : string) (fallback : Z) : Z :=
  let v := Getenv key in
  if bool_decide (v = "") then fallback
  else match Atoi v with Some i => i | None => fallback end.

Definition getenvDuration (key : string) (fallback : Z) : Z :=
  let v := Getenv key in
  if bool_decide (v = "") then fallback
  else match ParseDuration v with Some d => d | None => fallback end.

Definition parseCSV (v : string) : list string :=
  if bool_decide (v = "") then []
  else List.filter (λ p, bool_decide (p ≠ "")) (map (λ p, TrimSpace (ToLower unicode p)) (Split v ",")).

Definition parse_account (p : string) : list Account :=
  let p := TrimSpace p in
  if bool_decide (p = "") then []
  else match SplitN p ":" 2 with
       | [u; w] =>
           let user := TrimSpace u in
           let pass := TrimSpace w in
           if bool_decide (user = "") || bool_decide (pass = "") then [] else [mkAccount user pass]
       | _ => []
       end.
Definition parseAccounts (v : string) : list Account :=
  if bool_decide (v = "") then [] else flat_map parse_account (Split v ",").

(** A nil map is the empty set: both have no elements. *)
Definition parseTokenSet (v : string) : gset string := list_to_set (parseCSV v).

(** [uint32(i)] of an [int]. *)
Definition to_uint32 (z : Z) : N := Z.to_N (z `mod` 4294967296).

Definition loadConfig : Config :=
  mkConfig (getenv "XMPP_DOMAIN" "example.com") (getenv "XMPP_ADDR" ":5222") (Getenv "XMPP_TLS_CERT")
    (Getenv "XMPP_TLS_KEY") (getenvBool "XMPP_TLS_SELF_SIGNED" false)
    (getenv "XMPP_TLS_SELF_SIGNED_DIR" "/var/lib/xmpp/tls") (ToLower unicode (getenv "XMPP_STORAGE" "file"))
    (Getenv "XMPP_STORAGE_DSN") (getenv "XMPP_STORAGE_PATH" "/var/lib/xmpp/data") (getenv "XMPP_MONGO_DB" "xmpp")
    (parseCSV (getenv "XMPP_PLUGINS" "disco,roster,presence,ping,vcard,time,version"))
    (parseAccounts (Getenv "XMPP_DEFAULT_ACCOUNTS")) (getenv "XMPP_CAPS_NODE" "xmpp-go")
    (getenv "XMPP_VERSION_NAME" "xmpp-go") (getenv "XMPP_VERSION" "dev")
    (to_uint32 (getenvInt "XMPP_OMEMO_DEVICE_ID" 1))
    (mkRegConfig (ToLower unicode (getenv "XMPP_REGISTRATION_POLICY" "open"))
       (parseCSV (getenv "XMPP_REGISTRATION_FIELDS" "username,password,email"))
       (parseTokenSet (Getenv "XMPP_REGISTRATION_INVITES")) (parseTokenSet (Getenv "XMPP_REGISTRATION_ADMIN_TOKENS"))
       (getenvInt "XMPP_REGISTRATION_RATE_LIMIT" 5) (getenvDuration "XMPP_REGISTRATION_RATE_WINDOW" 60000000000)
       (getenvInt "XMPP_REGISTRATION_SCRAM_ITERATIONS" 4096) (getenvBool "XMPP_REGISTRATION_DATAFORM" true)
       (getenv "XMPP_REGISTRATION_INSTRUCTIONS" "Fill out the form to create an account.")).
End Config.

(** ** Storage *)

(** What [buildStorage] opens, with the arguments it gives the constructor. *)
Inductive Backend :=
  | BMemory | BFile (path : string) | BSqlite (dsn : string) | BPostgres (dsn : string) | BMysql (dsn : string)
  | BMongo (dsn db : string) | BRedis (dsn : string).
#[export] Instance Backend_eq_dec : EqDecision Backend.
Proof. solve_decision. Defined.

Inductive boot_error :=
  | BMkdir (path : string) | BRequiresDSN (storage : string) | BUnknownStorage (storage : string) | BDriver (b : Backend)
  | BUnknownPlugin (name : string) | BNoUsers | BStore (e : storage_error).

Section Boot.
(** Whether a directory can be made, whether a driver opens its data source,
    and [filepath.Join]. *)
Variables (mkdir : string → bool) (driver : Backend → bool) (path_join : string → string → string).

Definition open_backend (b : Backend) : res boot_error Backend := if driver b then Ok b else Err (BDriver b).

Definition with_dsn (cfg : Config) (storage : string) (b : string → Backend) : res boot_error Backend :=
  if bool_decide (StorageDSN cfg = "") then Err (BRequiresDSN storage) else open_backend (b (StorageDSN cfg)).

Definition buildStorage (cfg : Config) : res boot_error Backend :=
  let s := cfg_Storage cfg in
  if bool_decide (s = "") || bool_decide (s = "memory") then Ok BMemory
  else if bool_decide (s = "file") then
    if mkdir (StoragePath cfg) then Ok (BFile (StoragePath cfg)) else Err (BMkdir (StoragePath cfg))
  else if bool_decide (s = "sqlite") then
    if bool_decide (StorageDSN cfg = "") then
      if mkdir (StoragePath cfg) then open_backend (BSqlite (path_join (StoragePath cfg) "xmpp.db"))
      else Err (BMkdir (StoragePath cfg))
    else open_backend (BSqlite (StorageDSN cfg))
  else if bool_decide (s = "postgres") then with_dsn cfg "postgres" BPostgres
  else if bool_decide (s = "mysql") then with_dsn cfg "mysql" BMysql
  else if bool_decide (s = "mongodb") || bool_decide (s = "mongo")
  then with_dsn cfg "mongodb" (λ dsn, BMongo dsn (MongoDBName cfg))
  else if bool_decide (s = "redis") then with_dsn cfg "redis" BRedis
  else Err (BUnknownStorage s).
End Boot.

(** ** Default accounts *)

Section Seed.
Context {T : Type} `{UserStore T}.

Definition seed_account (now : time) (acc : Account) : M T boot_error unit :=
  fun t => match us_UserExists (acc_Username acc) t with
           | Err e => (t, Err (BStore e))
           | Panic => (t, Panic)
           | Ok true => (t, Ok tt)
           | Ok false =>
               let '(t', r) := us_CreateUser now (mkUser (acc_Username acc) (acc_Password acc) "" 0 "" "" 0 0) t in
               (t', match r with Ok _ => Ok tt | Err e => Err (BStore e) | Panic => Panic end)
           end.
Fixpoint seed_loop (now : time) (accounts : list Account) : M T boot_error unit :=
  match accounts with
  | [] => mok tt
  | acc :: rest => (do_ seed_account now acc; seed_loop now rest)%go
  end.

(** [us] is [None] when the backend has no user store. *)
Definition seedDefaultAccounts (now : time) (accounts : list Account) (us : option T) : option T * res boot_error unit :=
  match accounts with
  | [] => (us, Ok tt)
  | _ => match us with
         | None => (None, Err BNoUsers)
         | Some t => let '(t', r) := seed_loop now accounts t in (Some t', r)
         end
  end.
End Seed.

(** ** Plugins *)

(** The map from keys to constructors, applied: the configuration chooses only
    texts that the plugins carry, not their names or dependencies. *)
Definition pluginRegistry : gmap string Plugin := list_to_map (prod_map id new_plugin <$> registry).

(** The loop over the configured names. *)
Fixpoint build_named (names : list string) : res boot_error (list Plugin) :=
  match names with
  | [] => Ok []
  | name :: rest =>
      match pluginRegistry !! name with
      | None => Err (BUnknownPlugin name)
      | Some p => (try ps <- build_named rest; Ok (p :: ps))%go
      end
  end.

(** [keys] is the order in which the registry is visited. *)
Definition buildPlugins (keys : list string) (cfg : Config) : res boot_error (list Plugin) :=
  match cfg_Plugins cfg with
  | [] => Ok []
  | [one] => if bool_decide (one = "all") then Ok (omap (λ k, pluginRegistry !! k) (sort_Strings keys)) else build_named [one]
  | names => build_named names
  end.

(** *** Which configurations start *)

(** The registry without its data: every plugin is named like its key, and only
    caps has a dependency. *)
Definition registry_names : list string := fst <$> registry.
Definition ctor (name : string) : Plugin :=
  mkPlugin name (if bool_decide (name = "caps") then ["disco"] else []) None None.

Lemma registry_ctors : prod_map id new_plugin <$> registry = map (λ n, (n, ctor n)) registry_names.
Proof. by vm_compute. Qed.

Lemma register_all_ok ps m :
  NoDup (Name <$> ps) → (∀ p, p ∈ ps → plugins m !! Name p = None) →
  ∃ m', register_all ps m = (m', Ok tt) ∧
    ∀ x p, plugins m' !! x = Some p ↔ (p ∈ ps ∧ Name p = x) ∨ plugins m !! x = Some p.
Proof.
  revert m. induction ps as [|q ps IH]; intros m Hnd Hf; cbn [register_all].
  { exists m. split; [done|]. intros x p. rewrite elem_of_nil. naive_solver. }
  rewrite fmap_cons in Hnd. apply NoDup_cons in Hnd as [Hn Hnd].
  unfold Register. rewrite (Hf q) by (by left).
  destruct (IH (mkManager (<[Name q := q]> (plugins m)) (order m))) as (m' & -> & Hm'); [done| |].
  { intros p Hp. cbn. rewrite lookup_insert_ne; [apply Hf; by right|]. intros E. apply Hn. rewrite E. by apply list_elem_of_fmap_2. }
  exists m'. split; [done|]. intros x p. rewrite Hm'. cbn [plugins]. rewrite lookup_insert, elem_of_cons.
  assert (plugins m !! Name q = None) by (apply Hf; by left).
  case_decide as E; [subst x|naive_solver]. split; [naive_solver|].
  intros [[[->|Hp] HN]|Hp]; [naive_solver| |congruence]. destruct Hn. rewrite <- HN. by apply list_elem_of_fmap_2.
Qed.

Lemma register_all_dup ps m m' :
  register_all ps m = (m', Ok tt) → NoDup (Name <$> ps) ∧ (∀ p, p ∈ ps → plugins m !! Name p = None).
Proof.
  revert m. induction ps as [|q ps IH]; intros m; cbn [register_all].
  { intros _. split; [constructor|]. intros p Hp. by apply elem_of_nil in Hp. }
  unfold Register. destruct (plugins m !! Name q) eqn:E; [done|]. intros (Hnd & Hf)%IH. cbn in Hf. rewrite fmap_cons, NoDup_cons.
  assert (∀ p, p ∈ ps → Name q ≠ Name p ∧ plugins m !! Name p = None) as Hf'.
  { intros p Hp. specialize (Hf p Hp). rewrite lookup_insert in Hf. by case_decide. }
  split; [split; [|done]|].
  - intros (p & Hp & Hin)%list_elem_of_fmap. by destruct (Hf' p Hin).
  - intros p [->|Hp]%elem_of_cons; [done|]. by apply Hf'.
Qed.

(** Plugins whose dependencies depend on nothing start exactly when their names
    are distinct and the dependencies are there. *)
Lemma start_plugins_exact iters ps :
  (∀ m, iters_ok m (iters m)) → (∀ p, p ∈ ps → Initialize_err p = None) →
  (∀ p q, p ∈ ps → q ∈ ps → Name q ∈ Dependencies p → Dependencies q = []) →
  (∃ m, (start_plugins iters ps).2 = Ok m) ↔
    NoDup (Name <$> ps) ∧ ∀ p d, p ∈ ps → d ∈ Dependencies p → d ∈ Name <$> ps.
Proof.
  intros Hit Hinit Hflat. unfold start_plugins. split.
  - destruct (register_all ps NewManager) as [m [[]|e|]] eqn:Er; [|by intros (? & ?)..].
    pose proof (register_all_dup _ _ _ Er) as [Hnd Hf]. destruct (register_all_ok ps NewManager Hnd Hf) as (m' & Er' & Hm).
    rewrite Er in Er'. injection Er' as <-. intros (m' & Hok). split; [done|]. intros p d Hp Hd.
    unfold Initialize in Hok. pose proof (topologicalSort_cases _ _ (Hit (plugins m))) as Ht.
    destruct (topologicalSort _ _) as [ord|e|]; [|done..]. destruct Ht as (Hcl & _).
    assert (d ∈ dom (plugins m)) as Hdom.
    { apply (Hcl (Name p)). unfold deps. assert (plugins m !! Name p = Some p) as -> by (apply Hm; by left). done. }
    apply elem_of_dom in Hdom as [q Hq]. apply Hm in Hq as [[Hq <-]|Hq]; [by apply list_elem_of_fmap_2|].
    unfold NewManager in Hq. cbn in Hq. by rewrite lookup_empty in Hq.
  - intros [Hnd Hdeps]. destruct (register_all_ok ps NewManager Hnd) as (m & -> & Hm); [intros; apply lookup_empty|].
    assert (∀ x p, plugins m !! x = Some p ↔ p ∈ ps ∧ Name p = x) as Hm'.
    { intros x p. rewrite Hm. split; [intros [?|Hx]; [done|]|by left]. cbn in Hx. by rewrite lookup_empty in Hx. }
    assert (∀ d, d ∈ Name <$> ps → ∃ q, q ∈ ps ∧ Name q = d ∧ plugins m !! d = Some q) as Hin.
    { intros d (q & -> & Hq)%list_elem_of_fmap. exists q. split; [done|]. split; [done|]. by apply Hm'. }
    unfold Initialize. pose proof (topologicalSort_cases _ _ (Hit (plugins m))) as Ht.
    assert (closed (plugins m)) as Hcl.
    { intros x d. unfold deps. destruct (plugins m !! x) as [p|] eqn:Ep; [|by intros ?%elem_of_nil].
      apply Hm' in Ep as [Hp _]. intros Hd. destruct (Hin d) as (q & _ & _ & Hq); [by eapply Hdeps|]. by apply elem_of_dom_2 in Hq. }
    destruct (topologicalSort _ _) as [ord|e|]; [| |done].
    + destruct Ht as (_ & _ & Hord & _). pose proof (init_loop_spec (plugins m) ord (λ x Hx, proj1 (Hord x) Hx)) as Hi.
      destruct (init_loop (plugins m) ord) as [calls [?|e|]]; [by eexists| |by destruct Hi as (? & _ & ?)].
      destruct Hi as (rest & _ & pre & x & p & err & _ & _ & Hx & Herr & _). apply Hm' in Hx as [Hx _].
      rewrite (Hinit _ Hx) in Herr. done.
    + exfalso. destruct e; try done.
      * destruct Ht as (_ & Hd & Hn). by apply Hn, (Hcl name).
      * destruct Ht as [_ (S & Hne & _ & HS)]. apply set_choose_L in Hne as [x Hx].
        destruct (HS x Hx) as (d & Hd & HdS). destruct (HS d HdS) as (d2 & Hd2 & _).
        unfold deps in Hd, Hd2. destruct (plugins m !! x) as [p|] eqn:Ep; [|by apply elem_of_nil in Hd].
        destruct (plugins m !! d) as [q|] eqn:Eq; [|by apply elem_of_nil in Hd2].
        apply Hm' in Ep as [Hp _]. apply Hm' in Eq as [Hq HN]. rewrite <- HN in Hd.
        rewrite (Hflat p q Hp Hq Hd) in Hd2. by apply elem_of_nil in Hd2.
Qed.

Lemma registry_lookup name p : pluginRegistry !! name = Some p → p = ctor name ∧ name ∈ registry_names.
Proof.
  unfold pluginRegistry. rewrite registry_ctors. intros H%elem_of_list_to_map_2. apply list_elem_of_fmap in H as (n & [= -> ->] & Hn). done.
Qed.
Lemma registry_names_NoDup : NoDup registry_names.
Proof. apply (bool_decide_unpack _). by vm_compute. Qed.
Lemma registry_all name : name ∈ registry_names → pluginRegistry !! name = Some (ctor name).
Proof.
  intros Hn. unfold pluginRegistry. rewrite registry_ctors. apply elem_of_list_to_map_1.
  - replace (map (λ n, (n, ctor n)) registry_names).*1 with registry_names by (by vm_compute). apply registry_names_NoDup.
  - apply list_elem_of_fmap. by exists name.
Qed.

Lemma build_named_spec names ps : build_named names = Ok ps → ps = map ctor names.
Proof.
  revert ps. induction names as [|n names IH]; intros ps; cbn [build_named]; [by intros [= <-]|].
  destruct (pluginRegistry !! n) as [p|] eqn:E; [|done]. apply registry_lookup in E as [-> _].
  destruct (build_named names) as [qs|e|]; [|done..]. cbn. intros [= <-]. by rewrite (IH qs eq_refl).
Qed.

Lemma ctor_names names : Name <$> map ctor names = names.
Proof. induction names as [|n names IH]; [done|]. cbn. by rewrite IH. Qed.

Lemma start_ctors iters names :
  (∀ m, iters_ok m (iters m)) →
  (∃ m, (start_plugins iters (map ctor names)).2 = Ok m) ↔ NoDup names ∧ ("caps" ∈ names → "disco" ∈ names).
Proof.
  intros Hit. rewrite (start_plugins_exact iters _ Hit).
  - rewrite ctor_names. apply and_iff_compat_l. split.
    + intros H Hc. apply (H (ctor "caps")); [by apply (list_elem_of_fmap_2 ctor)|by left].
    + intros H p d (n & -> & Hn)%list_elem_of_fmap. unfold ctor. cbn. case_bool_decide; [subst|by intros ?%elem_of_nil].
      intros ->%list_elem_of_singleton. auto.
  - by intros p (n & -> & _)%list_elem_of_fmap.
  - intros p q (n & -> & _)%list_elem_of_fmap (k & -> & _)%list_elem_of_fmap. unfold ctor. cbn.
    case_bool_decide; [|by intros ?%elem_of_nil]. intros ->%list_elem_of_singleton. done.
Qed.

Lemma omap_total {A B} (f : A → option B) (g : A → B) l : (∀ x, x ∈ l → f x = Some (g x)) → omap f l = map g l.
Proof.
  induction l as [|x l IH]; intros H; [done|]. cbn. rewrite (H x) by (by left). f_equal. apply IH. intros y Hy. apply H. by right.
Qed.

Lemma all_names keys : keys ≡ₚ registry_names → omap (λ k, pluginRegistry !! k) (sort_Strings keys) = map ctor (sort_Strings keys).
Proof. intros Hk. apply omap_total. intros k. rewrite sort_Strings_perm, Hk. apply registry_all. Qed.

(** Which plugin configurations start.  The configuration "all" always
    does.  Any other list of known names starts exactly when no name is given
    twice and disco comes with caps, whatever order they are listed in: the
    manager orders them by their dependencies. *)
Theorem configured_plugins_start iters keys cfg ps :
  (∀ m, iters_ok m (iters m)) → keys ≡ₚ registry_names → buildPlugins keys cfg = Ok ps →
  (∃ m, (start_plugins iters ps).2 = Ok m) ↔
    cfg_Plugins cfg = ["all"] ∨ (NoDup (cfg_Plugins cfg) ∧ ("caps" ∈ cfg_Plugins cfg → "disco" ∈ cfg_Plugins cfg)).
Proof.
  intros Hit Hk. unfold buildPlugins.
  assert (∀ names, names ≠ ["all"] → build_named names = Ok ps →
    (∃ m, (start_plugins iters ps).2 = Ok m) ↔ names = ["all"] ∨ (NoDup names ∧ ("caps" ∈ names → "disco" ∈ names))) as Hn.
  { intros names Hne Hb. apply build_named_spec in Hb as ->. rewrite (start_ctors _ _ Hit). tauto. }
  destruct (cfg_Plugins cfg) as [|one [|two rest]].
  - intros [= <-]. by apply (Hn []).
  - case_bool_decide as E; [|by apply Hn; congruence]. subst one. intros [= <-]. rewrite (all_names _ Hk), (start_ctors _ _ Hit).
    split; [by left|]. intros _. rewrite sort_Strings_perm, Hk. split; [apply registry_names_NoDup|].
    intros _. apply (bool_decide_unpack _). by vm_compute.
  - by apply Hn.
Qed.

(** ** Default accounts *)

Section Accounts.
Context {T : Type} `{UserStoreLaws T accounts}.

Definition account_map (accs : list Account) : gmap string string :=
  list_to_map (map (λ a, (acc_Username a, acc_Password a)) accs).

(** Seeding adds the accounts that are not there; the first entry of a name counts. *)
Lemma seed_loop_spec now accs t :
  ∃ t', seed_loop now accs t = (t', Ok tt) ∧ accounts t' = accounts t ∪ account_map accs.
Proof.
  revert t. induction accs as [|a accs IH]; intros t; cbn [seed_loop].
  { exists t. split; [done|]. unfold account_map. cbn. by rewrite (right_id_L ∅ (∪)). }
  unfold mbnd, seed_account. rewrite exists_spec.
  assert (account_map (a :: accs) = <[acc_Username a := acc_Password a]> (account_map accs)) as -> by done.
  case_bool_decide as E.
  - destruct (IH t) as (t' & -> & Ht'). exists t'. split; [done|]. rewrite Ht'. apply map_eq. intros x. rewrite !lookup_union.
    destruct E as [p E]. destruct (decide (x = acc_Username a)) as [->|Hx]; [|by rewrite lookup_insert_ne].
    rewrite E. by destruct (account_map accs !! _), (<[_:=_]> (account_map accs) !! _).
  - assert (accounts t !! acc_Username a = None) as E' by (by apply eq_None_not_Some).
    destruct (create_new now (mkUser (acc_Username a) (acc_Password a) "" 0 "" "" 0 0) t E') as (t1 & -> & Ht1). cbn [Username Password] in Ht1.
    destruct (IH t1) as (t' & -> & Ht'). exists t'. split; [done|]. rewrite Ht', Ht1. by rewrite <- insert_union_l, <- insert_union_r by done.
Qed.

(** Accounts that can be written in the variable: printable, without the separators. *)
Definition writable (a : Account) : Prop :=
  acc_Username a ≠ "" ∧ acc_Password a ≠ "" ∧ has_byte ":" (acc_Username a) = false ∧
  (∀ c, has_byte c (acc_Username a) = true ∨ has_byte c (acc_Password a) = true → graphic c = true ∧ c ≠ ","%char).

Definition print_account (a : Account) : string := acc_Username a +:+ String ":" (acc_Password a).
Fixpoint print_accounts (accs : list Account) : string :=
  match accs with
  | [] => ""
  | [a] => print_account a
  | a :: rest => print_account a +:+ String "," (print_accounts rest)
  end.

Lemma print_account_bytes a c :
  writable a → has_byte c (print_account a) = true → graphic c = true ∧ c ≠ ","%char.
Proof.
  intros (_ & _ & _ & Hg). unfold print_account. rewrite has_byte_app. cbn.
  intros [Hc|[Hc|Hc]%orb_true_iff]%orb_true_iff; [by apply Hg; left| |by apply Hg; right].
  apply bool_decide_eq_true in Hc as <-. done.
Qed.

Lemma print_account_no_comma a : writable a → has_byte "," (print_account a) = false.
Proof. intros Ha. apply not_true_is_false. intros Hc. by apply (print_account_bytes a _ Ha) in Hc as [_ []]. Qed.

Lemma SplitN_2 u p : has_byte ":" u = false → SplitN (u +:+ String ":" p) ":" 2 = [u; p].
Proof. intros Hu. cbn [SplitN]. rewrite (IndexByte_app _ _ _ Hu). by rewrite str_take_app, str_drop_sep. Qed.

Lemma parse_print_account a : writable a → parse_account (print_account a) = [a].
Proof.
  intros Ha. pose proof Ha as (Hu & Hp & Hc & Hg). unfold parse_account.
  rewrite TrimSpace_graphic by (intros c Hc'; by apply (print_account_bytes a c Ha)).
  assert (print_account a ≠ "") as Hne by (unfold print_account; by destruct (acc_Username a)).
  rewrite (bool_decide_false _ Hne). unfold print_account. rewrite (SplitN_2 _ _ Hc).
  rewrite !TrimSpace_graphic by (intros c ?; apply Hg; auto).
  rewrite (bool_decide_false _ Hu), (bool_decide_false _ Hp). by destruct a.
Qed.

Lemma parse_print_accounts accs : Forall writable accs → parseAccounts (print_accounts accs) = accs.
Proof.
  intros Hall. unfold parseAccounts. destruct accs as [|a0 accs0]; [done|]. case_bool_decide as E.
  { exfalso. destruct accs0; cbn in E; unfold print_account in E; by destruct (acc_Username a0). }
  clear E. revert Hall. generalize (a0 :: accs0). intros accs Hall.
  assert (accs = [] ∨ flat_map parse_account (Split (print_accounts accs) ",") = accs) as [->|?]; [|done|done].
  induction Hall as [|a accs Ha Hall IH]; [by left|right]. destruct accs as [|b accs].
  - cbn [print_accounts]. rewrite Split_none by (by apply print_account_no_comma). cbn [flat_map].
    by rewrite app_nil_r, parse_print_account.
  - change (print_accounts (a :: b :: accs)) with (print_account a +:+ String "," (print_accounts (b :: accs))).
    rewrite Split_sep by (by apply print_account_no_comma). cbn [flat_map].
    rewrite parse_print_account by done. destruct IH as [?| ->]; done.
Qed.

(** C33: accounts given in the environment work.  Any list of accounts of
    printable characters (no spaces), with no comma in a name or password and no colon in a
    name ([writable]), written into XMPP_DEFAULT_ACCOUNTS, is read back by
    [loadConfig] unchanged; seeding a store that keeps the account laws (the
    in-memory store does) with it succeeds, keeps every account
    the store has and adds the others, and each added user can then log in with
    the password given first for the name. *)
Theorem configured_accounts unicode ParseDuration environ accs now t :
  Forall writable accs → environ !! "XMPP_DEFAULT_ACCOUNTS" = Some (print_accounts accs) →
  DefaultAccounts (loadConfig unicode ParseDuration environ) = accs ∧
  ∃ t', seedDefaultAccounts now (DefaultAccounts (loadConfig unicode ParseDuration environ)) (Some t) = (Some t', Ok tt) ∧
    accounts t' = accounts t ∪ account_map accs ∧
    ∀ u p, accounts t !! u = None → account_map accs !! u = Some p → us_Authenticate u p t' = Ok true.
Proof.
  intros Hall He. assert (DefaultAccounts (loadConfig unicode ParseDuration environ) = accs) as Hd.
  { cbn [loadConfig DefaultAccounts]. unfold Getenv. rewrite He. by apply parse_print_accounts. }
  split; [done|]. rewrite Hd. destruct (seed_loop_spec now accs t) as (t' & Hs & Ht').
  exists t'. split; [|split; [done|]].
  - unfold seedDefaultAccounts. destruct accs; [|by rewrite Hs]. cbn in Hs. by injection Hs as <-.
  - intros u p Hu Hp. apply auth_match. rewrite Ht', lookup_union_r by done. done.
Qed.
End Accounts.

(** ** Registration tokens *)

Definition lower_string (s : string) : Prop := str_map lower_ascii s = s.

Lemma lower_string_bytes s : lower_string s ↔ ∀ c, has_byte c s = true → lower_ascii c = c.
Proof.
  unfold lower_string. induction s as [|a s IH]; cbn; [done|]. split.
  - intros [= Ha Hs] c [Hc|Hc]%orb_true_iff; [by apply bool_decide_eq_true in Hc as <-|by apply IH].
  - intros H. rewrite H by (rewrite bool_decide_true; done). f_equal. apply IH. intros c Hc. apply H. rewrite Hc. by destruct (bool_decide _).
Qed.

Lemma has_byte_drop c n s : has_byte c (str_drop n s) = true → has_byte c s = true.
Proof.
  revert n. induction s as [|a s IH]; intros [|n]; cbn; try done. intros H%IH. rewrite H. by destruct (bool_decide _).
Qed.
Lemma has_byte_take c n s : has_byte c (str_take n s) = true → has_byte c s = true.
Proof.
  revert n. induction s as [|a s IH]; intros [|n]; cbn; try done. intros [->|H%IH]%orb_true_iff; [done|]. rewrite H. by destruct (bool_decide _).
Qed.
Lemma has_byte_TrimSpace c s : has_byte c (TrimSpace s) = true → has_byte c s = true.
Proof.
  assert (∀ f s', has_byte c (trim_left f s') = true → has_byte c s' = true) as Hl.
  { induction f as [|f IH]; intros s'; cbn [trim_left]; [done|]. destruct (find_space _ _); [|done]. intros H%IH. by eapply has_byte_drop. }
  assert (∀ f s', has_byte c (trim_right f s') = true → has_byte c s' = true) as Hr.
  { induction f as [|f IH]; intros s'; cbn [trim_right]; [done|]. destruct (find_space _ _); [|done]. intros H%IH. by eapply has_byte_take. }
  unfold TrimSpace. intros H%Hr. by eapply Hl.
Qed.
Lemma has_byte_Split c d s p : p ∈ Split s d → has_byte c p = true → has_byte c s = true.
Proof.
  revert p. induction s as [|a s IH]; intros p; cbn; [by intros ->%list_elem_of_singleton|]. case_bool_decide.
  - intros [->|Hp]%elem_of_cons; [done|]. intros Hc. rewrite (IH p Hp Hc). by destruct (bool_decide _).
  - destruct (Split s d) as [|q qs]; [intros ->%list_elem_of_singleton; cbn; rewrite orb_false_r; by intros ->|]. intros [->|Hp]%elem_of_cons; cbn.
    + intros [->|Hc]%orb_true_iff; [done|]. rewrite (IH q ltac:(by left) Hc). by destruct (bool_decide _).
    + intros Hc. rewrite (IH p ltac:(by right) Hc). by destruct (bool_decide _).
Qed.

Lemma lower_ascii_idemp a : lower_ascii (lower_ascii a) = lower_ascii a.
Proof.
  assert (Forall (λ n, lower_ascii (lower_ascii (ascii_of_nat n)) = lower_ascii (ascii_of_nat n)) (seq 0 256)) as H
    by (apply (bool_decide_unpack _); by vm_compute).
  rewrite Forall_forall in H. rewrite <- (ascii_nat_embedding a). apply H. apply elem_of_seq. split; [lia|]. apply nat_ascii_bounded.
Qed.

Lemma ToLower_lower unicode s : is_ascii s = true → lower_string (ToLower unicode s).
Proof.
  intros Hs. unfold ToLower. rewrite Hs. clear Hs. unfold lower_string. induction s as [|a s IH]; cbn; [done|]. by rewrite lower_ascii_idemp, IH.
Qed.

Lemma parseCSV_lower unicode v tok : is_ascii v = true → tok ∈ parseCSV unicode v → lower_string tok.
Proof.
  intros Hv. unfold parseCSV. case_bool_decide; [by intros ?%elem_of_nil|].
  intros Ht%list_elem_of_In%filter_In. destruct Ht as [Ht _]. apply list_elem_of_In, list_elem_of_fmap in Ht as (p & -> & Hp).
  rewrite lower_string_bytes. intros c Hc%has_byte_TrimSpace. revert c Hc. apply lower_string_bytes, ToLower_lower.
  unfold is_ascii in *. rewrite forallb_forall in *. intros c Hc%has_byte_In. apply Hv, has_byte_In. by eapply has_byte_Split.
Qed.

(** C40: invite and admin tokens with a capital letter never work.  The tokens
    configured in the environment are lower-cased when they are read, and a
    client's token is compared as it is: under the invite (or admin) policy, a
    request that gives a token exactly as the operator configured it is refused
    when the token has an upper-case letter, and every accepted token is lower
    case. *)
Theorem capital_tokens_refused unicode ParseDuration environ fields :
  let cfg := Registration (loadConfig unicode ParseDuration environ) in
  is_ascii (Getenv environ "XMPP_REGISTRATION_INVITES") = true →
  is_ascii (Getenv environ "XMPP_REGISTRATION_ADMIN_TOKENS") = true →
  (Policy cfg = registrationInvite → field fields "invite" ≠ "" → ¬ lower_string (field fields "invite") →
   policy_refusal cfg fields = Some "invalid invite") ∧
  (Policy cfg = registrationAdmin → ¬ lower_string (field fields "admin_token") →
   policy_refusal cfg fields = Some "admin token required") ∧
  (∀ tok, isTokenAllowed (Invites cfg) tok = true → lower_string tok).
Proof.
  intros cfg Hi Ha.
  assert (∀ v tok, is_ascii v = true → isTokenAllowed (parseTokenSet unicode v) tok = true → lower_string tok) as Hlow.
  { intros v tok Hv. unfold isTokenAllowed. case_bool_decide; [done|]. intros Ht%bool_decide_eq_true.
    unfold parseTokenSet in Ht. rewrite elem_of_list_to_set in Ht. by eapply parseCSV_lower. }
  split; [|split].
  - intros Hp Hne Hl. unfold policy_refusal. rewrite (bool_decide_false _ Hne), (bool_decide_true _ Hp). cbn [andb].
    destruct (isTokenAllowed (Invites cfg) _) eqn:E; [|done]. destruct Hl. by eapply (Hlow _ _ Hi).
  - intros Hp Hl. unfold policy_refusal. rewrite Hp. rewrite (bool_decide_false (registrationAdmin = registrationInvite)) by done.
    rewrite (bool_decide_true (registrationAdmin = _)) by done. cbn [andb].
    destruct (isTokenAllowed (AdminTokens cfg) _) eqn:E; [|done]. destruct Hl. by eapply (Hlow _ _ Ha).
  - intros tok. apply (Hlow _ _ Hi).
Qed.

Module ConfigExample.
Definition accs : list Account := [mkAccount "alice" "secret"; mkAccount "bob" "pa:ss"; mkAccount "alice" "other"].
Definition environ : gmap string string :=
  {["XMPP_DEFAULT_ACCOUNTS" := "alice:secret,bob:pa:ss,alice:other"; "XMPP_REGISTRATION_POLICY" := "Invite";
    "XMPP_REGISTRATION_INVITES" := "Welcome2024, friends"; "XMPP_PLUGINS" := "caps, Disco,roster"]}.
Definition no_durations (s : string) : option Z := None.
Definition same (s : string) : string := s.

Lemma accs_writable : Forall writable accs.
Proof.
  assert (∀ a, acc_Username a ≠ "" → acc_Password a ≠ "" → has_byte ":" (acc_Username a) = false →
    Forall (λ c, graphic c = true ∧ c ≠ ","%char)
      (list_ascii_of_string (acc_Username a) ++ list_ascii_of_string (acc_Password a)) → writable a) as H.
  { intros a Hu Hp Hc Hf. split_and!; [done..|]. intros c Hb. rewrite Forall_forall in Hf. apply Hf, elem_of_app.
    destruct Hb as [Hb|Hb]; [left|right]; by apply list_elem_of_In, has_byte_In. }
  do 3 (constructor; [apply H; try done; apply (bool_decide_unpack _); by vm_compute|]). constructor.
Qed.

Lemma configured_accounts_witness :
  DefaultAccounts (loadConfig same no_durations environ) = accs ∧
  ∃ t', seedDefaultAccounts 0 accs (Some MemoryStorage.New) = (Some t', Ok tt) ∧
    memory_accounts t' = {["alice" := "secret"; "bob" := "pa:ss"]}.
Proof.
  destruct (configured_accounts (accounts := memory_accounts) same no_durations environ accs 0 MemoryStorage.New accs_writable)
    as [Hd (t' & Hs & Ha & _)]; [by vm_compute|].
  split; [exact Hd|]. exists t'. rewrite Hd in Hs. split; [exact Hs|]. rewrite Ha. by vm_compute.
Defined.

Definition request (invite : string) : gmap string string := {["username" := "carol"; "password" := "pw"; "invite" := invite]}.

Lemma capital_tokens_refused_witness :
  policy_refusal (Registration (loadConfig same no_durations environ)) (request "Welcome2024") = Some "invalid invite" ∧
  policy_refusal (Registration (loadConfig same no_durations environ)) (request "friends") = None.
Proof.
  split; [|by vm_compute].
  refine (proj1 (capital_tokens_refused same no_durations environ (request "Welcome2024") _ _) _ _ _); by vm_compute.
Defined.

Lemma configured_plugins_start_witness :
  ∃ ps m, buildPlugins registry_names (loadConfig same no_durations environ) = Ok ps ∧
    (start_plugins canonical_iters ps).2 = Ok m.
Proof.
  eexists (map ctor ["caps"; "disco"; "roster"]).
  assert (buildPlugins registry_names (loadConfig same no_durations environ) = Ok (map ctor ["caps"; "disco"; "roster"])) as E
    by (by vm_compute).
  destruct (proj2 (configured_plugins_start canonical_iters registry_names _ _ canonical_iters_ok (reflexivity _) E)) as [m Hm].
  - right. split; apply (bool_decide_unpack _); by vm_compute.
  - exists m. split; [exact E|exact Hm].
Defined.
End ConfigExample.
