(* ===== verification/XmppdMain.v ===== *)
(** * The server's main program (src/cmd/xmppd/main.go, buildTLSConfig of stream.go)

    The order in which [main] prepares the server: a self-signed certificate kept
    in a directory between starts, the storage backend, the plugins, the options
    of the server; and the session handler, which creates the default accounts
    before the first session is served.  Files are a map from paths to contents;
    a write can stop before its end.  The keys and certificates of crypto/rsa and
    crypto/x509 are parameters with the laws [X509Laws]. *)

From Stdlib Require Import Ascii String ZArith NArith.
From stdpp Require Import pretty.
From S2P Require Import Prelude GoStrings Bytes Base64 PluginManager Storage MemoryStorage Lifecycle UserStore XmppdRegistration XmppdConfig.

Open Scope string_scope.
Open Scope list_scope.

(** ** Files *)

Inductive entry := EFile (data : string) | EDir.
Notation Files := (gmap string entry).

(** What the system allows during one start: making the directory, opening a
    path for writing, and how many bytes of it reach the disk ([None]: all). *)
Record Disk := mkDisk { dk_mkdir : bool; dk_open : string → bool; dk_room : string → option nat }.

Inductive tls_error := TMkdir | TOpen (path : string) | TWrite (path : string) | TRandom | TCertificate.

(** A path that cannot be examined counts as absent; here every entry can. *)
Definition fileExists (path : string) (f : Files) : bool :=
  match f !! path with Some (EFile _) => true | _ => false end.

(** [pem.Encode] of a block without headers: base64 in lines of 64 characters. *)
Fixpoint pem_lines (col : nat) (s : string) : string :=
  match s with
  | "" => match col with 0 => "" | _ => byte 10 end
  | String a s' => String a (match col with 63 => byte 10 +:+ pem_lines 0 s' | _ => pem_lines (S col) s' end)
  end.
Definition pem_head (typ : string) : string := "-----BEGIN " +:+ typ +:+ "-----" +:+ byte 10.
Definition pem_tail (typ : string) : string := "-----END " +:+ typ +:+ "-----" +:+ byte 10.
Definition pem_Encode (typ : string) (der : bytes) : string :=
  pem_head typ +:+ pem_lines 0 (EncodeToString der) +:+ pem_tail typ.

Definition writePEM (dk : Disk) (path typ : string) (der : bytes) : M Files tls_error unit :=
  fun f =>
    if dk_open dk path && negb (match f !! path with Some EDir => true | _ => false end) then
      let data := pem_Encode typ der in
      match dk_room dk path with
      | Some n => if (n <? String.length data)%nat
                  then (<[path := EFile (str_take n data)]> f, Err (TWrite path))
                  else (<[path := EFile data]> f, Ok tt)
      | None => (<[path := EFile data]> f, Ok tt)
      end
    else (f, Err (TOpen path)).

(** ** The self-signed certificate *)

Record Template := mkTemplate {
  SerialNumber : Z; CommonName : string; NotBefore : Z; NotAfter : Z; KeyUsage : Z; ExtKeyUsage : list Z;
  DNSNames : list string; IPAddresses : list string }.

(** What a certificate holds of a template: times have a precision of seconds. *)
Definition whole_seconds (t : Z) : Z := (t - t mod 1000000000)%Z.
Definition stored_template (t : Template) : Template :=
  mkTemplate (SerialNumber t) (CommonName t) (whole_seconds (NotBefore t)) (whole_seconds (NotAfter t)) (KeyUsage t)
    (ExtKeyUsage t) (DNSNames t) (IPAddresses t).

(** [time.Hour], in nanoseconds. *)
Definition Hour : Z := 3600000000000.

(** [x509.KeyUsageKeyEncipherment | x509.KeyUsageDigitalSignature] and
    [x509.ExtKeyUsageServerAuth]. *)
Definition key_usage : Z := Z.lor (Z.shiftl 1 2) (Z.shiftl 1 0).
Definition server_auth : Z := 1.

Section Main.
Context {Key Pub : Type} (Public : Key → Pub).
(** crypto/x509 and encoding/pem: signing a certificate (the first argument is
    the randomness of the signature), the key's encoding, and reading them. *)
Variables (CreateCertificate : Z → Template → Key → option bytes) (MarshalPKCS1PrivateKey : Key → bytes).
Variables (pem_Decode : string → option (string * bytes)).
Variables (ParseCertificate : bytes → option (Template * Pub)) (ParsePKCS1PrivateKey : bytes → option Key).
Context `{EqDecision Pub}.
Variables (ParseIP : string → option string) (path_join : string → string → string).

(** One start: the clock (read twice), the generated key and serial number, if
    the random source delivers them, and the disk. *)
Record Start := mkStart {
  s_key : option Key; s_serial : option Z; s_rand : Z; s_now1 : Z; s_now2 : Z; s_disk : Disk }.

Definition hosts (cfg : Config) : list string :=
  cfg_Domain cfg ::
  (if bool_decide (cfg_Addr cfg ≠ "") then
     match SplitHost (cfg_Addr cfg) with
     | Some host => if bool_decide (host ≠ "") then [host] else []
     | None => []
     end
   else []).

Fixpoint add_hosts (hs : list string) (t : Template) : Template :=
  match hs with
  | [] => t
  | h :: hs' =>
      add_hosts hs'
        match ParseIP h with
        | Some ip => mkTemplate (SerialNumber t) (CommonName t) (NotBefore t) (NotAfter t) (KeyUsage t) (ExtKeyUsage t)
                       (DNSNames t) (IPAddresses t ++ [ip])
        | None => mkTemplate (SerialNumber t) (CommonName t) (NotBefore t) (NotAfter t) (KeyUsage t) (ExtKeyUsage t)
                    (DNSNames t ++ [h]) (IPAddresses t)
        end
  end.

Definition template (cfg : Config) (serial notBefore notAfter : Z) : Template :=
  add_hosts (hosts cfg) (mkTemplate serial (cfg_Domain cfg) notBefore notAfter key_usage [server_auth] [] []).

Definition cert_path (cfg : Config) : string := path_join (TLSSelfSignedDir cfg) "cert.pem".
Definition key_path (cfg : Config) : string := path_join (TLSSelfSignedDir cfg) "key.pem".

Definition opt_err {S E A} (e : E) (o : option A) : M S E A := match o with Some a => mok a | None => merr e end.

Definition ensureSelfSigned (st : Start) (cfg : Config) : M Files tls_error (string * string) :=
  if negb (dk_mkdir (s_disk st)) then merr TMkdir
  else
    let certPath := cert_path cfg in
    let keyPath := key_path cfg in
    do f <- mget;
    if fileExists certPath f && fileExists keyPath f then mok (certPath, keyPath)
    else
      do priv <- opt_err TRandom (s_key st);
      do serial <- opt_err TRandom (s_serial st);
      let notBefore := (s_now1 st - Hour)%Z in
      let notAfter := (s_now2 st + 365 * 24 * Hour)%Z in
      do derBytes <- opt_err TCertificate (CreateCertificate (s_rand st) (template cfg serial notBefore notAfter) priv);
      do_ writePEM (s_disk st) certPath "CERTIFICATE" derBytes;
      let keyBytes := MarshalPKCS1PrivateKey priv in
      do_ writePEM (s_disk st) keyPath "RSA PRIVATE KEY" keyBytes;
      mok (certPath, keyPath).

Definition set_tls (cert key : string) (c : Config) : Config :=
  mkConfig (cfg_Domain c) (cfg_Addr c) cert key (TLSSelfSigned c) (TLSSelfSignedDir c) (cfg_Storage c) (StorageDSN c)
    (StoragePath c) (MongoDBName c) (cfg_Plugins c) (DefaultAccounts c) (CapsNode c) (VersionName c) (VersionString c)
    (OMEMODeviceID c) (Registration c).

(** The first step of [main]. *)
Definition main_tls (st : Start) (cfg : Config) : M Files tls_error Config :=
  if TLSSelfSigned cfg && (bool_decide (TLSCert cfg = "") || bool_decide (TLSKey cfg = "")) then
    do p <- ensureSelfSigned st cfg;
    mok (set_tls p.1 p.2 cfg)
  else mok cfg.

(** ** What a session loads *)

Definition read_pem (path : string) (f : Files) : option (string * bytes) :=
  match f !! path with Some (EFile data) => pem_Decode data | _ => None end.

(** [tls.LoadX509KeyPair] on one certificate and one RSA key. *)
Definition LoadX509KeyPair (cert key : string) (f : Files) : option (Template * Pub) :=
  c ← read_pem cert f; k ← read_pem key f;
  if bool_decide (c.1 = "CERTIFICATE") && bool_decide (k.1 = "RSA PRIVATE KEY") then
    tp ← ParseCertificate c.2; priv ← ParsePKCS1PrivateKey k.2;
    if bool_decide (tp.2 = Public priv) then Some tp else None
  else None.

Inductive tls_choice := NoTLS | WithCertificate (t : Template).

(** [Err] ends the session before anything is read. *)
Definition buildTLSConfig (cfg : Config) (f : Files) : res unit tls_choice :=
  if bool_decide (TLSCert cfg = "") || bool_decide (TLSKey cfg = "") then Ok NoTLS
  else match LoadX509KeyPair (TLSCert cfg) (TLSKey cfg) f with
       | Some tp => Ok (WithCertificate tp.1)
       | None => Err tt
       end.

(** ** main up to the server *)

Inductive fatal := FTLS (e : tls_error) | FStorage (e : boot_error) | FPlugins (e : boot_error).

(** Directories, drivers and the iteration order of the plugin registry are
    parameters of the steps, as is what a backend answers to the server. *)
Definition main (mkdir : string → bool) (driver : Backend → bool) (keys : list string) (storage_env : Backend → StorageEnv)
    (st : Start) (cfg : Config) : M Files fatal (Config * Backend * Server) :=
  fun f => match main_tls st cfg f with
           | (f', Ok cfg') =>
               (f', match buildStorage mkdir driver path_join cfg' with
                    | Ok b =>
                        match buildPlugins keys cfg' with
                        | Ok ps =>
                            let opts := [WithServerAddr (cfg_Addr cfg'); WithServerStorage (storage_env b)]
                                          ++ (if bool_decide (ps = []) then [] else [WithServerPlugins ps]) in
                            Ok (cfg', b, NewServer (cfg_Domain cfg') opts)
                        | Err e => Err (FPlugins e)
                        | Panic => Panic
                        end
                    | Err e => Err (FStorage e)
                    | Panic => Panic
                    end)
           | (f', Err e) => (f', Err (FTLS e))
           | (f', Panic) => (f', Panic)
           end.
End Main.
Arguments Start Key : clear implicits.

(** ** The session handler of main *)

Section Handler.
Context {T : Type} `{UserStore T}.

(** [seedOnce] and [seedErr], captured by the handler. *)
Record SeedState := mkSeed { seed_done : bool; seedErr : option boot_error }.
Definition seed_start : SeedState := mkSeed false None.

Inductive handled := HServe | HClose (e : boot_error).

(** One session: seeding, if it is the first, then [serveSession] or closing. *)
Definition session_handler (now : time) (accs : list Account) : M (SeedState * option T) unit handled :=
  fun '(s, us) =>
    let '(s, us, panics) :=
      if seed_done s then (s, us, false)
      else let '(us', r) := seedDefaultAccounts now accs us in
           match r with
           | Ok _ => (mkSeed true (seedErr s), us', false)
           | Err e => (mkSeed true (Some e), us', false)
           | Panic => (mkSeed true (seedErr s), us', true)
           end in
    if (panics : bool) then ((s, us), Panic)
    else ((s, us), Ok (match seedErr s with Some e => HClose e | None => HServe end)).

(** The handler on one session after another, with the time of each. *)
Fixpoint sessions (nows : list time) (accs : list Account) (s : SeedState * option T) : (SeedState * option T) * list (res unit handled) :=
  match nows with
  | [] => (s, [])
  | now :: rest =>
      let '(s', r) := session_handler now accs s in
      let '(s'', rs) := sessions rest accs s' in (s'', r :: rs)
  end.
End Handler.

(** ** PEM *)

Lemma pem_lines_newlines col s :
  filter (λ c, ¬ newline c) (list_ascii_of_string (pem_lines col s)) = filter (λ c, ¬ newline c) (list_ascii_of_string s).
Proof.
  revert col. induction s as [|a s IH]; intros col; [by destruct col|]. cbn [pem_lines list_ascii_of_string].
  assert (∀ c, list_ascii_of_string (match c with 63 => byte 10 +:+ pem_lines 0 s | _ => pem_lines (S c) s end)
     = (if decide (c = 63) then [ascii_of_nat 10] else []) ++ list_ascii_of_string (pem_lines (if decide (c = 63) then 0 else S c) s)) as ->.
  { intros c. destruct (decide (c = 63)) as [->|Hc]; [done|]. do 63 (destruct c as [|c]; [done|]). by destruct c as [|c]. }
  rewrite filter_cons, (filter_cons _ a (list_ascii_of_string s)). rewrite filter_app, IH.
  assert (filter (λ c, ¬ newline c) (if decide (col = 63) then [ascii_of_nat 10] else []) = []) as -> by (by case_decide).
  done.
Qed.

(** The body of a block decodes to what was encoded. *)
Lemma pem_body der : DecodeString (pem_lines 0 (EncodeToString der)) = Some der.
Proof.
  unfold DecodeString, decode. rewrite pem_lines_newlines. apply (DecodeString_EncodeToString der).
Qed.

(** ** A certificate that survives restarts *)

Section SelfSigned.
Context {Key Pub : Type} (Public : Key → Pub) `{EqDecision Pub}.
Context (CreateCertificate : Z → Template → Key → option bytes) (MarshalPKCS1PrivateKey : Key → bytes).
Context (pem_Decode : string → option (string * bytes)).
Context (ParseCertificate : bytes → option (Template * Pub)) (ParsePKCS1PrivateKey : bytes → option Key).
Context (ParseIP : string → option string) (path_join : string → string → string).

(** What the program relies on: a certificate states its template (the times in
    whole seconds) and the public half of the key, encodings are read back, and the two files are different. *)
Class X509Laws := {
  certificate_read r t k der : CreateCertificate r t k = Some der → ParseCertificate der = Some (stored_template t, Public k);
  private_read k : ParsePKCS1PrivateKey (MarshalPKCS1PrivateKey k) = Some k;
  pem_read typ der : typ ∈ ["CERTIFICATE"; "RSA PRIVATE KEY"] → pem_Decode (pem_Encode typ der) = Some (typ, der);
  join_distinct d : path_join d "cert.pem" ≠ path_join d "key.pem";
  join_nonempty d n : path_join d n ≠ "" }.
Context `{!X509Laws}.

Local Notation ensure := (ensureSelfSigned CreateCertificate MarshalPKCS1PrivateKey ParseIP path_join).
Local Notation tls := (main_tls CreateCertificate MarshalPKCS1PrivateKey ParseIP path_join).
Local Notation load := (LoadX509KeyPair Public pem_Decode ParseCertificate ParsePKCS1PrivateKey).
Local Notation build := (buildTLSConfig Public pem_Decode ParseCertificate ParsePKCS1PrivateKey).
Local Notation cert := (cert_path path_join).
Local Notation key := (key_path path_join).

(** The certificate that a start would create, as it is read back. *)
Definition made_by (t : Template) (x : Start Key * Config) : Prop :=
  ∃ serial, s_serial x.1 = Some serial ∧
    t = stored_template (template ParseIP x.2 serial (s_now1 x.1 - Hour) (s_now2 x.1 + 365 * 24 * Hour)).

(** A start in the directory whose write of the key, once begun, is complete. *)
Definition sound_start (dir : string) (x : Start Key * Config) : Prop :=
  TLSSelfSignedDir x.2 = dir ∧ dk_room (s_disk x.1) (key x.2) = None.

(** The key file is there only beside its certificate, made by one of [seen]. *)
Definition pair_inv (dir : string) (seen : list (Start Key * Config)) (f : Files) : Prop :=
  fileExists (path_join dir "key.pem") f = true →
  ∃ t p x, load (path_join dir "cert.pem") (path_join dir "key.pem") f = Some (t, p) ∧ x ∈ seen ∧ made_by t x.

Lemma writePEM_cases dk path typ der f :
  (writePEM dk path typ der f = (<[path := EFile (pem_Encode typ der)]> f, Ok tt)) ∨
  (∃ data, writePEM dk path typ der f = (<[path := EFile data]> f, Err (TWrite path)) ∧ dk_room dk path ≠ None) ∨
  writePEM dk path typ der f = (f, Err (TOpen path)).
Proof.
  unfold writePEM. destruct (_ && _); [|by right; right]. destruct (dk_room dk path) as [n|]; [|by left].
  destruct (n <? _)%nat; [|by left]. right; left. by eexists.
Qed.

Lemma fileExists_insert_ne p q e f : p ≠ q → fileExists p (<[q := e]> f) = fileExists p f.
Proof. intros Hne. unfold fileExists. by rewrite lookup_insert_ne. Qed.

Lemma load_exists c k f t : load c k f = Some t → fileExists c f = true.
Proof. unfold LoadX509KeyPair, read_pem, fileExists. by destruct (f !! c) as [[]|]. Qed.

Lemma load_written r t k der dir f :
  CreateCertificate r t k = Some der →
  load (path_join dir "cert.pem") (path_join dir "key.pem")
    (<[path_join dir "key.pem" := EFile (pem_Encode "RSA PRIVATE KEY" (MarshalPKCS1PrivateKey k))]>
      (<[path_join dir "cert.pem" := EFile (pem_Encode "CERTIFICATE" der)]> f)) = Some (stored_template t, Public k).
Proof.
  intros Hc. unfold LoadX509KeyPair, read_pem. pose proof (join_distinct dir) as Hd.
  rewrite (lookup_insert_ne _ (path_join dir "key.pem") (path_join dir "cert.pem")) by congruence. rewrite !lookup_insert_eq, !pem_read by set_solver. cbn.
  rewrite (certificate_read _ _ _ _ Hc), private_read. cbn. by rewrite !bool_decide_true.
Qed.

Lemma ensure_step dir seen st cfg f :
  sound_start dir (st, cfg) → pair_inv dir seen f →
  pair_inv dir (seen ++ [(st, cfg)]) (ensure st cfg f).1 ∧
  (∀ p, (ensure st cfg f).2 = Ok p → p = (cert cfg, key cfg) ∧ fileExists (key cfg) (ensure st cfg f).1 = true).
Proof.
  intros [Hdir Hroom] Hinv. cbn in Hdir, Hroom. assert (pair_inv dir (seen ++ [(st, cfg)]) f) as Hkeep.
  { intros Hk. destruct (Hinv Hk) as (t & p & x & ? & ? & ?). exists t, p, x. set_solver. }
  unfold ensureSelfSigned. destruct (dk_mkdir (s_disk st)); cbn [negb]; [|done]. unfold mbnd, mget, opt_err, mok, merr. cbv beta iota zeta.
  unfold cert_path, key_path in *. rewrite Hdir in *.
  destruct (fileExists _ f && fileExists _ f) eqn:Eboth.
  { apply andb_true_iff in Eboth as [? ?]. split; [done|]. by intros p [= <-]. }
  assert (fileExists (path_join dir "key.pem") f = false) as Hnokey.
  { destruct (fileExists (path_join dir "key.pem") f) eqn:Hk; [|done]. destruct (Hinv Hk) as (t & p & x & Hl & _).
    by rewrite (load_exists _ _ _ _ Hl) in Eboth. }
  destruct (s_key st) as [priv|]; cbv beta iota; [|done]. destruct (s_serial st) as [serial|] eqn:Eser; cbv beta iota; [|done].
  set (t := template _ _ _ _ _). destruct (CreateCertificate (s_rand st) t priv) as [der|] eqn:Ec; cbv beta iota; [|done].
  pose proof (join_distinct dir) as Hd.
  assert (∀ g, fileExists (path_join dir "key.pem") g = false → pair_inv dir (seen ++ [(st, cfg)]) g) as Hno by (intros g Hg; unfold pair_inv; by rewrite Hg).
  destruct (writePEM_cases (s_disk st) (path_join dir "cert.pem") "CERTIFICATE" der f) as [->|[(data & -> & _)| ->]]; cbv beta iota; cbn [fst snd]; [|by split; [apply Hno; by rewrite fileExists_insert_ne|]|by split; [apply Hno|]].
  set (g := <[_ := _]> f).
  destruct (writePEM_cases (s_disk st) (path_join dir "key.pem") "RSA PRIVATE KEY" (MarshalPKCS1PrivateKey priv) g) as [->|[(data & -> & Hr)| ->]]; cbv beta iota; cbn [fst snd]; [|done|by split; [apply Hno; subst g; by rewrite fileExists_insert_ne|]].
  split; [|intros p [= <-]; split; [done|]; by unfold fileExists; rewrite lookup_insert_eq].
  intros _. exists (stored_template t), (Public priv), (st, cfg). split; [by apply (load_written (s_rand st))|]. split; [set_solver|]. by exists serial.
Qed.

Fixpoint starts (l : list (Start Key * Config)) (f : Files) : Files :=
  match l with [] => f | x :: l' => starts l' (tls x.1 x.2 f).1 end.

(** Starts that use the self-signed certificate. *)
Definition self_signed (cfg : Config) : Prop := TLSSelfSigned cfg = true ∧ (TLSCert cfg = "" ∨ TLSKey cfg = "").

Lemma main_tls_self_signed st cfg f :
  self_signed cfg →
  tls st cfg f = ((ensure st cfg f).1, match (ensure st cfg f).2 with
                                       | Ok p => Ok (set_tls p.1 p.2 cfg) | Err e => Err e | Panic => Panic end).
Proof.
  intros [Hs Ht]. unfold main_tls. rewrite Hs. assert (bool_decide (TLSCert cfg = "") || bool_decide (TLSKey cfg = "") = true) as ->.
  { apply orb_true_iff. rewrite !bool_decide_eq_true. done. }
  cbn. unfold mbnd. by destruct (ensure st cfg f) as [f' []].
Qed.

Lemma main_tls_inv dir seen x f :
  sound_start dir x → pair_inv dir seen f → pair_inv dir (seen ++ [x]) (tls x.1 x.2 f).1.
Proof.
  destruct x as [st cfg]. intros Hs Hi. unfold main_tls. cbn [fst snd]. destruct (_ && _).
  - unfold mbnd, mok. pose proof (ensure_step dir seen st cfg f Hs Hi) as [Hst _]. by destruct (ensure st cfg f) as [f' []].
  - intros Hk. destruct (Hi Hk) as (t & p & y & ? & ? & ?). exists t, p, y. set_solver.
Qed.

Lemma starts_inv dir l seen f : Forall (sound_start dir) l → pair_inv dir seen f → pair_inv dir (seen ++ l) (starts l f).
Proof.
  intros Hl. revert seen f. induction Hl as [|x l Hx Hl IH]; intros seen f Hi; cbn; [by rewrite app_nil_r|].
  rewrite cons_middle, app_assoc. apply IH. by apply main_tls_inv.
Qed.

(** C28: a self-signed certificate is usable after any history of starts with the
    same directory.  When the directory holds no key at first and no write of the
    key is cut short
    after the file is opened (anything else may fail at any start: the directory,
    the random source, signing, opening either file, writing the certificate),
    every start that gets past the certificate step leaves a certificate and a
    key that load as a pair, and the certificate is the one that this start or an
    earlier one made from its configuration and clock, to the second. *)
Theorem self_signed_survives dir history st cfg f cfg' :
  fileExists (path_join dir "key.pem") f = false →
  Forall (sound_start dir) (history ++ [(st, cfg)]) → self_signed cfg →
  (tls st cfg (starts history f)).2 = Ok cfg' →
  ∃ t x, build cfg' (tls st cfg (starts history f)).1 = Ok (WithCertificate t) ∧ x ∈ history ++ [(st, cfg)] ∧ made_by t x.
Proof.
  intros Hf [Hl [Hx _]%Forall_cons]%Forall_app Hs.
  assert (pair_inv dir history (starts history f)) as Hi by (apply (starts_inv dir history []); [done|unfold pair_inv; by rewrite Hf]).
  destruct (ensure_step dir history st cfg _ Hx Hi) as [Hi' Hok]. rewrite main_tls_self_signed by done. cbn.
  destruct (ensure st cfg (starts history f)).2 as [p| |]; [|done|done]. intros [= <-]. destruct (Hok p eq_refl) as [-> Hk].
  cbn [fst snd]. destruct Hx as [Hdir _]. unfold cert_path, key_path in *. cbn in Hdir. rewrite Hdir in *.
  destruct (Hi' Hk) as (t & pub & x & Hload & Hin & Hm). exists t, x. split; [|done].
  unfold buildTLSConfig. cbn. rewrite !bool_decide_false by apply join_nonempty. cbn. by rewrite Hload.
Qed.

(** Files that exist are used as they are: the clock, the domain and the
    contents play no part. *)
Lemma existing_files_are_used st cfg f :
  dk_mkdir (s_disk st) = true → fileExists (cert cfg) f = true → fileExists (key cfg) f = true →
  ensure st cfg f = (f, Ok (cert cfg, key cfg)).
Proof. intros Hm Hc Hk. unfold ensureSelfSigned. rewrite Hm. cbn. unfold mbnd, mget. by rewrite Hc, Hk. Qed.
End SelfSigned.

(** ** Default accounts and sessions *)

(** Once seeding is done the handler leaves the store alone, and every session
    has the fate that seeding decided. *)
Lemma sessions_after_seeding {T} `{UserStore T} nows accs e us :
  sessions nows accs (mkSeed true e, us) =
  ((mkSeed true e, us), replicate (length nows) (Ok (match e with Some e => HClose e | None => HServe end))).
Proof. induction nows as [|now nows IH]; cbn; [done|]. by rewrite IH. Qed.

(** An error while the accounts are created is final: every session is closed
    with it, and the store is not asked again. *)
Lemma seed_error_is_final {T} `{UserStore T} now nows accs us us' e :
  seedDefaultAccounts now accs us = (us', Err e) →
  sessions (now :: nows) accs (seed_start, us) =
  ((mkSeed true (Some e), us'), replicate (S (length nows)) (Ok (HClose e))).
Proof. intros Hs. cbn. rewrite Hs. by rewrite sessions_after_seeding. Qed.

(** The default accounts are created exactly once.  On a store that keeps
    its contract, any non-empty sequence of sessions is served in full, and the
    accounts afterwards are those of the store with the missing configured ones
    added at the first session; later sessions change nothing, even when an
    account was removed in between. *)
Lemma accounts_seeded_once {T} `{UserStoreLaws T accounts} now nows later accs t :
  ∃ t', sessions (now :: nows) accs (seed_start, Some t)
        = ((mkSeed true None, Some t'), replicate (S (length nows)) (Ok HServe)) ∧
    accounts t' = accounts t ∪ account_map accs ∧
    ∀ t'', sessions later accs (mkSeed true None, Some t'') = ((mkSeed true None, Some t''), replicate (length later) (Ok HServe)).
Proof.
  destruct (seed_loop_spec now accs t) as (t' & Hs & Ht'). exists t'. split; [|split; [done|intros; apply sessions_after_seeding]].
  assert (seedDefaultAccounts now accs (Some t) = (Some t', Ok tt)) as Hd.
  { unfold seedDefaultAccounts. destruct accs; [|by rewrite Hs]. cbn in Hs. by injection Hs as <-. }
  cbn [sessions session_handler seed_start seed_done]. rewrite Hd. cbn. by rewrite sessions_after_seeding.
Qed.

Module MainExample.

(** Keys are numbers, a certificate is its fields and the key in binary digits,
    and the directory holds the two files side by side. *)
#[local] Instance Template_eq_dec : EqDecision Template.
Proof. solve_decision. Defined.
#[local] Instance Template_countable : Countable Template.
Proof.
  refine (inj_countable' (λ t, (SerialNumber t, CommonName t, NotBefore t, NotAfter t, (KeyUsage t, ExtKeyUsage t, DNSNames t, IPAddresses t)))
    (λ '(a, b, c, d, (e, f, g, h)), mkTemplate a b c d e f g h) _). by intros [].
Defined.

Fixpoint bits (p : positive) : bytes :=
  match p with xH => [] | xO p => "0"%char :: bits p | xI p => "1"%char :: bits p end.
Fixpoint unbits (l : bytes) : positive :=
  match l with [] => xH | a :: l => if bool_decide (a = "0"%char) then xO (unbits l) else xI (unbits l) end.
Lemma unbits_bits p : unbits (bits p) = p.
Proof. induction p as [p IH|p IH|]; cbn; rewrite ?IH; done. Qed.

Definition sign (_ : Z) (t : Template) (k : N) : option bytes := Some (bits (countable.encode (stored_template t, k))).
Definition parse (b : bytes) : option (Template * N) := countable.decode (unbits b).
Definition marshal (k : N) : bytes := bits (countable.encode k).
Definition unmarshal (b : bytes) : option N := countable.decode (unbits b).
Definition join (d n : string) : string := d +:+ "/" +:+ n.
Definition loopback (s : string) : option string := if bool_decide (s = "127.0.0.1") then Some s else None.

(** A block of the given type that is the whole text. *)
Definition pem_block (typ s : string) : option (string * bytes) :=
  let h := String.length (pem_head typ) in
  let n := (String.length s - String.length (pem_tail typ))%nat in
  if bool_decide (s = pem_head typ +:+ str_take (n - h) (str_drop h s) +:+ pem_tail typ)
  then pair typ <$> DecodeString (str_take (n - h) (str_drop h s)) else None.
Definition unpem (s : string) : option (string * bytes) :=
  match pem_block "CERTIFICATE" s with Some b => Some b | None => pem_block "RSA PRIVATE KEY" s end.

Lemma pem_block_encode typ der : pem_block typ (pem_Encode typ der) = Some (typ, der).
Proof.
  unfold pem_block, pem_Encode. rewrite !length_str_app, str_drop_app.
  replace (_ + (_ + _) - _ - _)%nat with (String.length (pem_lines 0 (EncodeToString der))) by lia.
  rewrite str_take_app, bool_decide_true by done. by rewrite pem_body.
Qed.

#[local] Instance laws : X509Laws (λ k : N, k) sign marshal unpem parse unmarshal join.
Proof.
  split.
  - intros r t k der [= <-]. unfold parse. by rewrite unbits_bits, countable.decode_encode.
  - intros k. unfold unmarshal, marshal. by rewrite unbits_bits, countable.decode_encode.
  - intros typ der [-> | [-> | []%elem_of_nil]%elem_of_cons]%elem_of_cons; unfold unpem; rewrite ?pem_block_encode; [done|].
    assert (pem_block "CERTIFICATE" (pem_Encode "RSA PRIVATE KEY" der) = None) as ->; [|done].
    unfold pem_block. by rewrite bool_decide_false.
  - intros d. unfold join. intros Hj. apply (f_equal (str_drop (String.length d))) in Hj. by rewrite !str_drop_app in Hj.
  - intros d n. unfold join. by destruct d.
Qed.

Definition disk : Disk := mkDisk true (λ _, true) (λ _, None).
Definition start (k : N) (now : Z) (dk : Disk) : Start N := mkStart (Some k) (Some 7%Z) 0 now now dk.
Definition config (domain : string) : Config :=
  mkConfig domain "127.0.0.1:5222" "" "" true "tls" "memory" "" "" "" [] [] "" "" "" 1
    (mkRegConfig "" [] ∅ ∅ 0 0 0 false "").

(** The first start cannot open the key file; the next one makes a new pair. *)
Definition no_key : Disk := mkDisk true (λ p, bool_decide (p ≠ "tls/key.pem")) (λ _, None).
Definition history : list (Start N * Config) := [(start 5 0 no_key, config "a")].

Lemma self_signed_survives_witness :
  let run := main_tls sign marshal loopback join in
  let f := starts sign marshal loopback join history ∅ in
  fileExists "tls/cert.pem" f = true ∧ fileExists "tls/key.pem" f = false ∧
  ∃ t x, buildTLSConfig (λ k : N, k) unpem parse unmarshal (set_tls "tls/cert.pem" "tls/key.pem" (config "b"))
           (run (start 6 100 disk) (config "b") f).1 = Ok (WithCertificate t) ∧
         x ∈ history ++ [(start 6 100 disk, config "b")] ∧ made_by loopback t x.
Proof.
  cbv zeta. split; [by vm_compute|]. split; [by vm_compute|].
  apply (self_signed_survives (λ k : N, k) sign marshal unpem parse unmarshal loopback join "tls" history (start 6 100 disk) (config "b") ∅);
    [by vm_compute|by repeat constructor|by split; [|left]|by vm_compute].
Defined.

(** A write of the key that stops half-way fails that start; every later start
    finds both files, succeeds, and every session then fails to load the pair. *)
Definition full_disk : Disk := mkDisk true (λ _, true) (λ p, if bool_decide (p = "tls/key.pem") then Some 20 else None).
Lemma cut_key_is_kept :
  let run := main_tls sign marshal loopback join in
  let f := (run (start 5 0 full_disk) (config "a") ∅).1 in
  (run (start 5 0 full_disk) (config "a") ∅).2 = Err (TWrite "tls/key.pem") ∧
  (run (start 6 100 disk) (config "a") f).2 = Ok (set_tls "tls/cert.pem" "tls/key.pem" (config "a")) ∧
  buildTLSConfig (λ k : N, k) unpem parse unmarshal (set_tls "tls/cert.pem" "tls/key.pem" (config "a"))
    (run (start 6 100 disk) (config "a") f).1 = Err tt.
Proof. by vm_compute. Qed.

(** Two years later and for another domain, the first certificate is still used. *)
Lemma expired_certificate_is_kept :
  let run := main_tls sign marshal loopback join in
  let later := (2 * 365 * 24 * Hour)%Z in
  let f := (run (start 5 0 disk) (config "a") ∅).1 in
  ∃ t, buildTLSConfig (λ k : N, k) unpem parse unmarshal (set_tls "tls/cert.pem" "tls/key.pem" (config "b"))
         (run (start 6 later disk) (config "b") f).1 = Ok (WithCertificate t) ∧
       (NotAfter t < later)%Z ∧ CommonName t = "a" ∧ DNSNames t = ["a"] ∧ IPAddresses t = ["127.0.0.1"].
Proof. exists (template loopback (config "a") 7 (0 - Hour) (0 + 365 * 24 * Hour)). split; by vm_compute. Qed.
End MainExample.
